(* ===== verification/_CoqProject ===== *)
-Q . S2P
Prelude.v
BsdMutex.v
BsdMutexSpec.v
LockClasses.v
LockMgr.v
LockMgrSpec.v
Epoch.v
EpochSpec.v
EpochWitness.v
Wire.v
Fcs.v
Callout.v
Fsm.v
FsmSpec.v
FsmGate.v
FsmPackets.v
FsmRfc.v
LcpOptions.v
LcpReqci.v
LcpOptionsSpec.v
LcpAuthtype.v
LcpReqciSpec.v
LcpAgree.v
Lcp.v
LcpSpec.v
Upap.v
Chap.v
Auth.v
AuthSpec.v
DaemonGuard.v
DaemonSpec.v
DaemonAuth.v
DaemonPap.v
DaemonChap.v
DaemonNet.v
UpapSpec.v
ChapSpec.v
Inet.v
Netif.v
IpcpOptions.v
IpcpOptionsSpec.v
IpcpNakSpec.v
IpcpReqci.v
IpcpReqciSpec.v
IpcpAnswer.v
IpcpWitness.v
Ipcp.v
Demand.v
IpcpNet.v
IpcpGate.v
DaemonIpcp.v
CcpOptions.v
CcpReqci.v
CcpSpec.v
CcpReqciSpec.v
CcpWitness.v
Ccp.v
CcpRun.v
CcpNet.v
DaemonCcp.v
DaemonWitness.v
PppSoftc.v
PppTty.v
PppIf.v
PppSend.v
PppReceive.v
PppFrames.v
PppPath.v
PppDaemons.v
PppRun.v
PppLive.v
PppConfig.v
DemandSpec.v
PppWitness.v
