(* ===== verification/Prelude.v ===== *)
(** * rtems-libbsd: a verification library

    rtems-libbsd ports the FreeBSD network stack and its user-land programs to
    the RTEMS real-time operating system.  Most of the repository is imported
    FreeBSD code; the port's own logic is the code under [rtemsbsd]: the
    replacement of the kernel's synchronisation primitives
    ([rtemsbsd/rtems], [rtemsbsd/include/machine]), other kernel services
    built on RTEMS, and a PPP daemon that runs as RTEMS tasks
    ([rtemsbsd/pppd]) over a line discipline and an interface in the kernel
    ([rtemsbsd/sys/net]).  This library models four of these subsystems, locks,
    epochs, the PPP daemon and its device, and proves what makes them correct.

    ** The parts and how they interact

    Locks.  The stack's four lock families, mutex(9), sx(9), rwlock(9) and
    lockmgr(9), are all built on one recursive mutex with a queue of waiting
    threads ([rtems-bsd-muteximpl.h]).  The queue itself belongs to the RTEMS
    kernel, which is not in the repository: it is the class [ThreadQueue] with
    the laws [ThreadQueueLaws], and a concrete queue ordered by priority
    instantiates them.
      - [BsdMutex.v]: [rtems_bsd_mutex], its lock object and one definition per
        function; a call returns, blocks or panics ([kres], [acquire]).  The nest
        level is an unbounded number; it is never larger than the number of times
        the lock was got ([nest_level_bounded]).
      - [BsdMutexSpec.v]: interleavings of threads as a step relation; the
        mutex refines an abstract recursive lock, call by call and outcome by
        outcome (C1), excludes (C2), never
        leaves a waiter behind (C3) and serves every waiter (C4).
      - [LockClasses.v]: the [mtx_], [sx_] and [rw_] entry points and their
        lock class tables; a hold is exclusive whichever way it was taken (C5)
        and the assertions are exact.
      - [LockMgr.v], [LockMgrSpec.v]: lockmgr's lock word on top of the mutex.
        Over disciplined runs the word follows the mutex (C6); three further
        theorems describe where it does not do what its interface says.

    Epochs.  Readers of the stack's tables take no lock; what a writer has unlinked
    is freed when nobody can see it any more.  [rtems-kernel-epoch.c] drives
    Concurrency Kit's [ck_epoch.c] with a record per processor.
      - [Epoch.v]: sections, [epoch_call], the poll of the interrupt server and the
        waits, cut at every access to what processors share, as a step relation
        on any number of processors and waiting threads.
      - [EpochSpec.v]: the invariant.  No callback is handed out (C7) and no wait
        ends (C8) before every section is over that was entered before.
      - [EpochWitness.v]: concrete runs; sections that overlap so that the epoch
        stays for ever, and a call that is interrupted.

    PPP.  The daemon's main loop reads packets and runs timeouts; every control
    protocol is an instance of one automaton with a table of callbacks; LCP is
    the first of them and drives authentication and the network protocols.
    [auth.c] sits above LCP: it starts PAP and CHAP, keeps account of what is
    outstanding and opens the network protocols when nothing is.  IPCP is the
    network protocol: a second instance of the automaton, which agrees on
    addresses and then configures the interface.  CCP is the third: it agrees on
    how packets are compressed and tells the device.
      - [Wire.v]: the byte-stream macros and stores into fixed buffers.
      - [Callout.v]: the callout list of [rtemsmain.c]; order (C17), the wait of
        the main loop, the run of what is due (C18).
      - [Fsm.v]: [fsm.c], function by function, over the class [FsmWorld] (a
        state with the automaton, the output buffer, the wire, the callout list
        and the peer's MRU) and the record [fsm_callbacks].
      - [FsmSpec.v]: the class [FsmProtocol] says what the automaton asks of a
        protocol's callbacks.  Over every run, with the Terminate-Acks counted
        that reach the automaton in OPENED, where the code leaves it: the timer
        runs while the automaton waits, and at most one more for each of those
        (C19), a reply is used once (C20), silence ends (C21).
      - [FsmPackets.v]: sent packets parse back, the bounds of the output
        buffer (C22) and how a Code-Reject leaves them.
      - [FsmRfc.v]: the table of RFC 1661 as the abstract specification and the
        theorem that the code follows it but for two cells (C23); witnesses
        for the theorems on the automaton.
      - [FsmGate.v]: the class [Gated]; what a layer switches on in [up] and off
        in [down] is on in OPENED only, over every event of the automaton.
      - [LcpOptions.v], [LcpOptionsSpec.v]: our own LCP options: the request and
        the parsers of Ack (C24), Reject and Nak.
        [LcpAuthtype.v]: no answer of the peer makes the daemon ask for CHAP.
      - [LcpReqci.v], [LcpReqciSpec.v]: the peer's request, judged in place;
        equivalence with a reference that never touches the packet, and when a
        copy overlaps (C25), what
        is recorded of the peer, the size of a Nak and Naks in the impatient
        mode.  [LcpAgree.v]: a request that is acknowledged is recorded as it was
        asked.
      - [Lcp.v], [LcpSpec.v]: the rest of [lcp.c] over the class [AuthLayer]
        that stands for the layers above.  LCP discharges [FsmProtocol], so the
        automaton's invariant holds over runs of LCP; unanswered echoes close
        the link; how the Nak buffer overflows.
      - [Upap.v], [Chap.v]: [upap.c] and [chap.c], client and server, over the
        interface [AuthEvents] of what they report.
      - [Auth.v]: [auth.c] (the phases of the link, [auth_pending], the network
        protocols' counts, the limits, the password check) and [get_input] of
        [rtemsmain.c] over the table of protocols.
      - [AuthSpec.v]: the whole daemon as one record; the interface [NetLaws]
        for the network protocols: what their entries may do to the link while
        it is being opened, used and closed.  [auth.c] discharges [AuthLaws], so
        LCP runs under it with its invariant.
      - [DaemonGuard.v], [DaemonSpec.v]: the steps of the daemon and their
        invariant; no network before authentication (C26).  Whether an
        authentication has succeeded since it was started is kept in fields that
        are not in memory: [us_peer_passed], [us_self_passed] and [ch_self_passed],
        which the changes of state of PAP and CHAP set and clear, and [agreed],
        the options LCP had agreed on when the authentications were started.
      - [DaemonAuth.v]: what PAP and CHAP keep, every step of the daemon keeps;
        with it [DaemonPap.v] (the peer is authenticated by an accepted password
        only, C27; PAP never waits without a timer, C28) and [DaemonChap.v]
        (the same of CHAP; a client that repeats its Response for ever).
      - [UpapSpec.v]: PAP's requests parse back (C29), a client gives up,
        where a silent peer leaves the server, unknown protocols (C30).
      - [ChapSpec.v]: challenge and response fit together, and the server, which
        has no secrets in this port, refuses every response (C31).
      - [Inet.v], [Netif.v]: byte order and addresses, the checks of [auth.c];
        the calls of [sys-rtems.c] that configure the interface, over the
        outcome of each system call.
      - [IpcpOptions.v], [IpcpOptionsSpec.v], [IpcpNakSpec.v]: our own IPCP
        options: the request and the parsers of Ack, Reject and Nak, and
        packets over which the parser of a Nak never ends.
      - [IpcpReqci.v], [IpcpReqciSpec.v], [IpcpAnswer.v]: the peer's IPCP
        request; equivalence with a reference (C32), what an Ack admits,
        the bounds of the answer and how it overruns the buffer (C33).
      - [IpcpWitness.v]: witnesses for the theorems on IPCP's options.
      - [Ipcp.v]: the rest of [ipcp.c] and [demand_rexmit] of [demand.c]: the
        callbacks, the interface up and down, dialling on demand.  What it
        reports to [auth.c] is the classes [NetEvents] and [NetFinish].
      - [Demand.v], [DemandSpec.v]: the rest of [demand.c]: what the interface
        writes while the line is down is taken apart again, and what is worth
        dialling for is kept and sent in order (C36).
      - [IpcpNet.v]: IPCP's entry of the table next to LCP on one link; it
        discharges [NetLaws].  The remaining entries are asked to stay apart
        from the link and from IPCP ([ApartTable]).
      - [DaemonNet.v]: what keeps a property of the network protocols at every
        step of the daemon ([NetClosed], [NetStable]).
      - [IpcpGate.v], [DaemonIpcp.v]: what the interface is configured for,
        over every run of the daemon: no IP before authentication (C34), and
        routes that lead to the peer only while it is there (C35), both of what
        the kernel was told, and as far as the system calls succeed
        ([silences], [obeys]).
      - [CcpOptions.v], [CcpSpec.v]: the compression methods CCP asks for, the
        request while the kernel is asked for each of them, and which packets
        are taken for its Ack.
      - [CcpReqci.v], [CcpReqciSpec.v]: the peer's request for compression,
        judged in place: its bounds, what is acknowledged (C38), when
        judging it ends (C39); two daemons agree.  [CcpWitness.v]:
        witnesses for these.
      - [Ccp.v]: the rest of [ccp.c] and the calls of [sys-rtems.c] that set up
        the device.  [CcpRun.v]: its runs: sizes stay in range (C37), the timer
        of the reset and the handshake that resets the decompressor.
      - [CcpNet.v], [DaemonCcp.v]: CCP as the last entry of the table; it
        discharges [ApartTable].  Every step of the whole daemon is a run of
        CCP's own events; no compression before authentication (C40).
      - [DaemonWitness.v]: two concrete daemons, one that is dialled and asks
        for a password and one that dials and answers challenges, through whole
        connections with IP; witnesses for the theorems on the daemon and two
        runs that show how a repeated challenge upsets the network phase.

    The device.  The daemon writes its packets to a terminal and reads them from
    it; the line discipline of [ppp_tty.c] puts them into frames, byte by byte, as
    the terminal's driver asks for more, and takes frames apart as bytes come in;
    [if_ppp.c] keeps the queues between the line, the daemon and IP, and has a task
    for either direction.  The daemon of the files above and the device meet at
    [pppwrite], [pppread] and the ioctls; the device is modelled on its own, and
    two files put them together.
      - [Fcs.v]: the check sequence, its table and division by the polynomial; a
        burst of sixteen bits never goes unnoticed.
      - [PppSoftc.v]: mbufs and [struct ppp_softc], in three records for the
        receiver, the transmitter and the interface.
      - [PppTty.v]: [pppinput], [pppstart] and the allocation of buffers.  A store
        outside a buffer and a pointer that leads nowhere set [rx_fault].
      - [PppIf.v]: [if_ppp.c], and the calls that open, close, read, write and
        configure the line.
      - [PppSend.v]: the driver as a step relation; what is on the line is a
        beginning of the packet's frame and is completed (C12).
      - [PppReceive.v]: the invariant of the receiver and what every octet does.
      - [PppFrames.v]: sender and receiver together: packets arrive unchanged
        and in order (C9); a frame with errors on the line that leave its framing
        alone is dropped (C16).
      - [PppPath.v]: from IP to IP (C13) and from the daemon's write to the other
        daemon's read.
      - [PppDaemons.v]: from the automaton of one daemon's LCP through both
        devices to the automaton of the other's (C14).
      - [PppRun.v]: everything that can happen to the unit as a list of events;
        the receiver is safe over all of them (C10).
      - [PppLive.v]: the invariant of the transmitter; driver and task work off by
        themselves all that waits (C11).
      - [PppConfig.v]: the ioctls by which the daemons configure the two ends; what
        LCP agrees on makes sender and receiver fit (C15).
      - [PppWitness.v]: witnesses, and a unit that is closed while a packet waits.

    ** Conventions

    A C function is a Rocq function on the state it reads and writes; what it
    calls and what it stores happen in the order of the source.  Integers are
    [Z]; a store into an object of fixed width goes through [u8], [u16] or
    [u32].  Bytes are integers, buffers lists of them.  A store behind a buffer
    or a read behind a packet is an observable outcome ([lk_oob], [rr_oob],
    [Oob]), so that memory safety is a theorem and an overrun can be shown.
    [BCOPY] is [memcpy] in the daemon: a copy onto a place that overlaps its
    source is undefined and an observable outcome too ([rr_overlap], [ir_overlap],
    [cr_overlap]); what the model's [BCOPY] makes of it is not relied on.
    Debug output and log messages are left out.

    Loops that are not structural have fuel.  [calltimeout] returns [None] when
    it is used up, and C18 gives an amount that suffices.  The loops over option
    lists ([nak_loop], [reqci_loop], [ip_loop]) take as many passes as the packet
    has bytes; a pass takes at least one, so they stop by their own condition
    (C25 and C32 show that the packet is consumed).  A pass of IPCP's loop
    over a Nak ([ipcp_nak_loop]) may take none; it returns [None] when the passes
    are used up, and [ipcp_nakci_ends] says when that is for ever.  The state then records that
    the daemon hangs ([ip_hung]).  The loop of CCP that looks for a size the
    kernel has buffers for ([fit_option]) follows as many passes as there are
    sizes above the minimum and then [cc_patience] more; C39 says when these are
    used up ([cc_hung]), whatever their number.  [tx_run] has the characters that
    are left of the buffer as fuel, [write_chain] the bytes to write and
    [alloc_chain] the octets to provide; a pass takes one of them at least.

    The daemon's build is the repository's: one unit, no [CHAPMS], no
    [CBCP_SUPPORT], a [PPP_MRU] of 1500; so is the kernel's: one unit, no
    [PPP_COMPRESS], [VJC] and [PPP_FILTER].

    ** What is not modelled

    [magic()] is a sequence of 32-bit numbers, [gettimeofday] a clock the state
    carries; the hook variables ([new_phase_hook], [ip_up_hook] and the like) are
    null.  Of [lcp.c], the parser of the escape option and the packet printer are
    left out, as are the printers of PAP, CHAP, IPCP and CCP and the tables of the
    command line.  MD5 and [drand48] are parameters: a function on bytes and a
    sequence of numbers.  [upap_rauthreq] sends the string an uninitialised
    pointer refers to; it is a parameter as well ([stray_msg]).  Of [auth.c] the
    lists of allowed addresses are left out: [noauth_addrs] and [extra_options]
    are null in this port.  Of [sys-rtems.c] the terminal and the opening and
    closing of the device are left out.  The outcome of the system calls that configure the interface,
    the list of interfaces and the address of the host name are parameters, and so
    are the kernel's answers to CCP.  The flags of the device are those the daemon
    has set; that the kernel turns compression off by itself when it sees CCP
    terminate is code of [PPP_COMPRESS].  Of the device, the creation of its tasks
    and the printing of packets are left out; the sizes of mbufs, which of the
    allocations that do not wait succeed and how much the terminal's driver sends
    at a time are parameters.  The calls of the two ends and of tasks and
    interrupts interleave as whole calls, not within them.
    Of epochs, the runs considered are those in which the 32-bit counter does not come
    round to 0, and processors see each other's accesses in one order, which is
    what the fences are for; [epoch_call] is not interrupted in the midst of its
    push but for the run that shows what happens then.  The lists of trackers
    and the mutex by which a reader passes its priority on, the watchdog that
    submits the poll, [epoch_drain_callbacks] and recycled records are left out.
    Device drivers, shell commands, the imported FreeBSD code and the test
    programs are outside the library, as are the kernel services that only pass
    calls on to RTEMS (memory, tasks, start-up, files and sockets).

    This file holds what all others share: scopes, tactics, fixed-width
    integers and list lemmas. *)

From Stdlib Require Export ZArith Lia.
From Corelib Require Export ssreflect.
From stdpp Require Export base list gmap strings numbers option tactics.

Declare Scope bsd_scope.
Delimit Scope bsd_scope with bsd.
#[export] Set Warnings "-rewrite-rw".
Global Open Scope Z_scope.
Global Open Scope general_if_scope.

(** ** Proof automation *)

Create HintDb bsd discriminated.
Create HintDb bytes discriminated.

(** Split every boolean test and every [match] the goal is stuck on. *)
Ltac case_tests :=
  repeat match goal with
  | |- context [if ?b then _ else _] => destruct b eqn:?
  | |- context [match ?x with _ => _ end] => destruct x eqn:?
  end.

(** Turn the boolean comparisons of the C code into propositions. *)
Ltac bool_props :=
  repeat match goal with
  | H : (_ && _) = true |- _ => apply andb_true_iff in H; destruct H
  | H : (_ || _) = false |- _ => apply orb_false_iff in H; destruct H
  | H : (_ && _) = false |- _ => apply andb_false_iff in H
  | H : (_ || _) = true |- _ => apply orb_true_iff in H
  | H : negb _ = true |- _ => apply negb_true_iff in H
  | H : negb _ = false |- _ => apply negb_false_iff in H
  | H : (_ =? _) = true |- _ => apply Z.eqb_eq in H
  | H : (_ =? _) = false |- _ => apply Z.eqb_neq in H
  | H : (_ <? _) = true |- _ => apply Z.ltb_lt in H
  | H : (_ <? _) = false |- _ => apply Z.ltb_ge in H
  | H : (_ <=? _) = true |- _ => apply Z.leb_le in H
  | H : (_ <=? _) = false |- _ => apply Z.leb_gt in H
  | H : bool_decide _ = true |- _ => apply bool_decide_eq_true in H
  | H : bool_decide _ = false |- _ => apply bool_decide_eq_false in H
  end.

(** ** Fixed-width integers *)

(** The value a store into an object of [w] bits keeps. *)
Definition wrap (w z : Z) : Z := z mod 2 ^ w.

Definition u8 : Z -> Z := wrap 8.
Definition u16 : Z -> Z := wrap 16.
Definition u32 : Z -> Z := wrap 32.
(** A value stored into an [int]. *)
Definition to_int (z : Z) : Z := (z + 2 ^ 31) mod 2 ^ 32 - 2 ^ 31.

(** [flags & mask], read as a C condition. *)
Definition has_bits (flags mask : Z) : bool := negb (Z.land flags mask =? 0).

Lemma wrap_range w z : 0 <= w -> 0 <= wrap w z < 2 ^ w.
Proof. intros Hw. apply Z.mod_pos_bound. by apply Z.pow_pos_nonneg. Qed.

Lemma wrap_small w z : 0 <= z < 2 ^ w -> wrap w z = z.
Proof. apply Z.mod_small. Qed.

Lemma u8_range z : 0 <= u8 z < 256.
Proof. by apply (wrap_range 8). Qed.

Lemma u16_range z : 0 <= u16 z < 65536.
Proof. by apply (wrap_range 16). Qed.

Lemma u32_range z : 0 <= u32 z < 4294967296.
Proof. by apply (wrap_range 32). Qed.

Lemma u8_small z : 0 <= z < 256 -> u8 z = z.
Proof. apply (wrap_small 8). Qed.

Lemma u16_small z : 0 <= z < 65536 -> u16 z = z.
Proof. apply (wrap_small 16). Qed.

Lemma u32_small z : 0 <= z < 4294967296 -> u32 z = z.
Proof. apply (wrap_small 32). Qed.

#[export] Hint Resolve u8_range u16_range u32_range : bytes.

(** ** Flags *)

Lemma has_bits_lor f b c : has_bits (Z.lor f b) c = has_bits f c || has_bits b c.
Proof.
  unfold has_bits. rewrite Z.land_lor_distr_l.
  destruct (Z.eqb_spec (Z.lor (Z.land f c) (Z.land b c)) 0) as [H|H].
  - apply Z.lor_eq_0_iff in H as [-> ->]. done.
  - destruct (Z.eqb_spec (Z.land f c) 0) as [E|E]; [|done]. destruct (Z.eqb_spec (Z.land b c) 0) as [E'|E']; [|done].
    by rewrite E E' in H.
Qed.
Lemma has_bits_ldiff_other f b c : Z.land b c = 0 -> has_bits (Z.ldiff f b) c = has_bits f c.
Proof.
  intros H. unfold has_bits. do 2 f_equal. apply Z.bits_inj'. intros i Hi.
  apply (f_equal (fun z => Z.testbit z i)) in H. rewrite Z.land_spec Z.bits_0 in H.
  rewrite !Z.land_spec Z.ldiff_spec. by destruct (Z.testbit f i), (Z.testbit b i), (Z.testbit c i).
Qed.
Lemma has_bits_ldiff_same f b c : Z.ldiff c b = 0 -> has_bits (Z.ldiff f b) c = false.
Proof.
  intros H. unfold has_bits. replace (Z.land (Z.ldiff f b) c) with 0; [done|]. apply Z.bits_inj'. intros i Hi.
  apply (f_equal (fun z => Z.testbit z i)) in H. rewrite Z.ldiff_spec Z.bits_0 in H.
  rewrite Z.bits_0 Z.land_spec Z.ldiff_spec. by destruct (Z.testbit f i), (Z.testbit b i), (Z.testbit c i).
Qed.
(** Tests of flags that have just been set or cleared. *)
Ltac flag_simpl :=
  repeat first
    [ rewrite has_bits_lor
    | rewrite has_bits_ldiff_other; [reflexivity|]
    | rewrite has_bits_ldiff_same; [reflexivity|]
    | match goal with
      | |- context [has_bits ?b ?c] =>
          lazymatch b with Zpos _ => idtac | Z0 => idtac | _ => is_const b end;
          let v := eval vm_compute in (has_bits b c) in
          match v with true => idtac | false => idtac end; change (has_bits b c) with v
      end ];
  rewrite ?orb_false_r ?orb_true_r.

(** ** Lists *)

Lemma filter_all {A} (P : A -> Prop) `{!forall x, Decision (P x)} l :
  Forall P l -> filter P l = l.
Proof. induction 1; [done|]. by rewrite filter_cons_True // IHForall. Qed.

Lemma filter_none {A} (P : A -> Prop) `{!forall x, Decision (P x)} l :
  Forall (fun x => ~ P x) l -> filter P l = [].
Proof. induction 1; [done|]. by rewrite filter_cons_False. Qed.
