(* ===== verification/BsdMutex.v ===== *)
(** * The RTEMS BSD mutex

    Model of [rtemsbsd/include/machine/rtems-bsd-muteximpl.h] and
    [rtemsbsd/rtems/rtems-kernel-muteximpl.c]: the recursive priority
    inheritance mutex that every FreeBSD lock of the port ([mtx], [sx],
    [rwlock], [lockmgr]) is built from.

    Each routine of the source runs with interrupts disabled and the thread
    queue lock held, so one call is one atomic step; a call that blocks leaves
    the caller on the wait queue.  The wait queue itself is RTEMS score code
    and enters through the class [ThreadQueue] and its laws. *)

From S2P Require Import Prelude.

Abbreviation thread := nat (only parsing).

(** Resource counts of the threads ([_Thread_Resource_count_increment] and
    [_Thread_Resource_count_decrement]). *)
Abbreviation rescnt := (gmap nat Z) (only parsing).

Definition rc_get (t : thread) (rc : rescnt) : Z := default 0 (rc !! t).
Definition rc_incr (t : thread) (rc : rescnt) : rescnt := <[t := rc_get t rc + 1]> rc.
Definition rc_decr (t : thread) (rc : rescnt) : rescnt := <[t := rc_get t rc - 1]> rc.

(** What the score's thread queue offers: the test [heads == NULL],
    [_Thread_queue_Enqueue] and [_Thread_queue_Surrender], which removes the
    first waiting thread and makes it the new owner. *)
Class ThreadQueue (Q : Type) := {
  tq_empty : Q;
  tq_is_empty : Q -> bool;
  tq_enqueue : thread -> Q -> Q;
  tq_surrender : Q -> rescnt -> option (thread * Q * rescnt);
  tq_waiting : Q -> list thread;
}.

Class ThreadQueueLaws (Q : Type) `{ThreadQueue Q} := {
  tq_waiting_empty : tq_waiting tq_empty = [];
  tq_is_empty_spec q : tq_is_empty q = true <-> tq_waiting q = [];
  tq_waiting_enqueue t q : tq_waiting (tq_enqueue t q) ≡ₚ t :: tq_waiting q;
  tq_surrender_first q rc :
    tq_is_empty q = false ->
    exists t q' rc', tq_surrender q rc = Some (t, q', rc') /\
                     tq_waiting q ≡ₚ t :: tq_waiting q';
}.

(** The way a kernel routine ends: it returns or it panics. *)
Inductive panic_reason :=
  | LockNotRecursable | TrylockNotRecursable | UnlockNotOwner
  | NotOwned | Recursed | Unrecursed | Owned | UnknownAssert
  | AssertFailed | NoAssertions | NoInterlocking | SunlockNotLocked
  | UnsupportedOp.

Inductive kres (A : Type) :=
  | KOk (a : A)
  | KPanic (p : panic_reason).
Arguments KOk {A} a.
Arguments KPanic {A} p.

Definition kbind {A B} (f : A -> kres B) (m : kres A) : kres B :=
  match m with
  | KOk a => f a
  | KPanic p => KPanic p
  end.

(** A lock request either takes the lock or leaves the caller suspended on the
    wait queue; it then owns the lock when it runs again. *)
Inductive acquire := Acquired | Blocked.

(** The class of a lock object; [lock_init] stores it in [lo_flags]. *)
Inductive lock_class_id := ClsMtxSleep | ClsMtxSpin | ClsSx | ClsRw | ClsLockmgr.

#[export] Instance lock_class_id_eq_dec : EqDecision lock_class_id.
Proof. solve_decision. Defined.

(** [lo_flags], one field per bit the port sets or tests. *)
Record lock_flags := LockFlags {
  lo_initialized : bool;
  lo_recursable : bool;
  lo_sleepable : bool;
  lo_upgradable : bool;
  lo_dupok : bool;
  lo_noprofile : bool;
  lo_witness : bool;
  lo_quiet : bool;
  lo_is_vnode : bool;
  lo_noshare : bool;
  lo_adaptive : bool;
}.

Definition no_flags : lock_flags :=
  LockFlags false false false false false false false false false false false.

Section Mutex.
Context {Q : Type} `{ThreadQueue Q}.

(** [struct rtems_bsd_mutex]: the thread queue (name, owner, heads) and the
    nest level.  The nest level is an [int]; it is kept without a width because
    [nest_level_bounded] shows it to be at most the number of times the mutex was
    taken, so it takes 2^31 nested calls to leave the range of the type. *)
Record rtems_bsd_mutex := BsdMutex {
  q_name : string;
  q_owner : option thread;
  q_heads : Q;
  nest_level : Z;
}.

(** [struct lock_object] of the port. *)
Record lock_object := LockObject {
  lo_class : lock_class_id;
  lo_flags : lock_flags;
  lo_mtx : rtems_bsd_mutex;
}.

Definition set_owner (o : option thread) (m : rtems_bsd_mutex) : rtems_bsd_mutex :=
  BsdMutex (q_name m) o (q_heads m) (nest_level m).
Definition set_heads (h : Q) (m : rtems_bsd_mutex) : rtems_bsd_mutex :=
  BsdMutex (q_name m) (q_owner m) h (nest_level m).
Definition set_nest (n : Z) (m : rtems_bsd_mutex) : rtems_bsd_mutex :=
  BsdMutex (q_name m) (q_owner m) (q_heads m) n.
Definition on_mtx (f : rtems_bsd_mutex -> rtems_bsd_mutex) (lk : lock_object) : lock_object :=
  LockObject (lo_class lk) (lo_flags lk) (f (lo_mtx lk)).
Definition set_lo_flags (fl : lock_flags) (lk : lock_object) : lock_object :=
  LockObject (lo_class lk) fl (lo_mtx lk).

Definition with_initialized (b : bool) (fl : lock_flags) : lock_flags :=
  LockFlags b (lo_recursable fl) (lo_sleepable fl) (lo_upgradable fl)
    (lo_dupok fl) (lo_noprofile fl) (lo_witness fl) (lo_quiet fl)
    (lo_is_vnode fl) (lo_noshare fl) (lo_adaptive fl).

(** [lock_init] records the class and the flags; [lock_destroy] clears
    [LO_INITIALIZED]. *)
Definition lock_init (cls : lock_class_id) (flags : lock_flags) (lk : lock_object) : lock_object :=
  LockObject cls (with_initialized true flags) (lo_mtx lk).

Definition lock_destroy (lk : lock_object) : kres lock_object :=
  if lo_initialized (lo_flags lk)
  then KOk (set_lo_flags (with_initialized false (lo_flags lk)) lk)
  else KPanic AssertFailed.

(** [rtems_bsd_mutex_init]: the queue is empty and unowned, the nest level 0. *)
Definition rtems_bsd_mutex_init (cls : lock_class_id) (name : string)
    (flags : lock_flags) : lock_object :=
  lock_init cls flags
    (LockObject cls no_flags (BsdMutex name None tq_empty 0)).

(** [rtems_bsd_mutex_lock_more]: the mutex has an owner. *)
Definition rtems_bsd_mutex_lock_more (lk : lock_object) (owner executing : thread)
    (rc : rescnt) : kres (acquire * lock_object * rescnt) :=
  let m := lo_mtx lk in
  if decide (owner = executing) then
    if negb (lo_recursable (lo_flags lk)) then KPanic LockNotRecursable
    else KOk (Acquired, on_mtx (set_nest (nest_level m + 1)) lk, rc)
  else KOk (Blocked, on_mtx (set_heads (tq_enqueue executing (q_heads m))) lk, rc).

Definition rtems_bsd_mutex_lock (executing : thread) (lk : lock_object)
    (rc : rescnt) : kres (acquire * lock_object * rescnt) :=
  match q_owner (lo_mtx lk) with
  | None => KOk (Acquired, on_mtx (set_owner (Some executing)) lk, rc_incr executing rc)
  | Some owner => rtems_bsd_mutex_lock_more lk owner executing rc
  end.

Definition rtems_bsd_mutex_trylock (executing : thread) (lk : lock_object)
    (rc : rescnt) : kres (bool * lock_object * rescnt) :=
  match q_owner (lo_mtx lk) with
  | None => KOk (true, on_mtx (set_owner (Some executing)) lk, rc_incr executing rc)
  | Some owner =>
      if decide (owner = executing) then
        if negb (lo_recursable (lo_flags lk)) then KPanic TrylockNotRecursable
        else KOk (true, on_mtx (set_nest (nest_level (lo_mtx lk) + 1)) lk, rc)
      else KOk (false, lk, rc)
  end.

Definition rtems_bsd_mutex_unlock (executing : thread) (lk : lock_object)
    (rc : rescnt) : kres (lock_object * rescnt) :=
  let m := lo_mtx lk in
  if decide (q_owner m = Some executing) then
    if nest_level m =? 0 then
      let heads := q_heads m in
      let lk1 := on_mtx (set_owner None) lk in
      let rc1 := rc_decr executing rc in
      if tq_is_empty heads then KOk (lk1, rc1)
      else match tq_surrender heads rc1 with
           | Some (t, heads', rc2) =>
               KOk (on_mtx (fun m1 => set_heads heads' (set_owner (Some t) m1)) lk1, rc2)
           | None => KOk (lk1, rc1)
           end
    else KOk (on_mtx (set_nest (nest_level m - 1)) lk, rc)
  else KPanic UnlockNotOwner.

Definition rtems_bsd_mutex_owner (lk : lock_object) : option thread := q_owner (lo_mtx lk).

Definition rtems_bsd_mutex_owned (executing : thread) (lk : lock_object) : bool :=
  bool_decide (rtems_bsd_mutex_owner lk = Some executing).

Definition rtems_bsd_mutex_recursed (lk : lock_object) : bool :=
  negb (nest_level (lo_mtx lk) =? 0).

Definition rtems_bsd_mutex_name (lk : lock_object) : string := q_name (lo_mtx lk).

(** [rtems_bsd_mutex_destroy]: nobody may be waiting; the owner's own hold is
    dropped whatever its depth. *)
Definition rtems_bsd_mutex_destroy (executing : thread) (lk : lock_object)
    (rc : rescnt) : kres (lock_object * rescnt) :=
  if negb (tq_is_empty (q_heads (lo_mtx lk))) then KPanic AssertFailed
  else
    kbind (fun '(lk', rc') =>
             kbind (fun lk'' => KOk (lk'', rc')) (lock_destroy lk'))
      (if rtems_bsd_mutex_owned executing lk
       then rtems_bsd_mutex_unlock executing (on_mtx (set_nest 0) lk) rc
       else KOk (lk, rc)).

End Mutex.

Arguments rtems_bsd_mutex Q : clear implicits.
Arguments lock_object Q : clear implicits.
