(* ===== verification/BsdMutexSpec.v ===== *)
(** * Correctness of the RTEMS BSD mutex

    The invariant of [BsdMutex], its refinement of an abstract recursive lock,
    mutual exclusion over every interleaving of the threads' calls, and the
    exact conditions under which a call panics. *)

From S2P Require Import Prelude BsdMutex.

(** ** Calls and what the threads observe *)

(** The calls threads make on one mutex. *)
Inductive mutex_event := EvLock (t : thread) | EvTry (t : thread) | EvUnlock (t : thread).

Definition event_thread (e : mutex_event) : thread :=
  match e with EvLock t | EvTry t | EvUnlock t => t end.

(** What a thread observes: it got the lock once more, or gave it up once. *)
Inductive grant := Got (t : thread) | Put (t : thread).

(** ** An abstract recursive lock *)

Module RecLock.

(** Who holds the lock and how often, and who waits for it. *)
Record t := Mk { holder : option (thread * nat); waiters : list thread }.

(** [step recursable e s r s']: in state [s] the call [e] has the outcome [r],
    either what the threads are granted or the panic it ends in.  For a given
    call and state the outcome is determined, up to which waiter is served. *)
Inductive step (recursable : bool) : mutex_event -> t -> kres (list grant) -> t -> Prop :=
  | Take e th ws :
      e = EvLock th \/ e = EvTry th ->
      step recursable e (Mk None ws) (KOk [Got th]) (Mk (Some (th, 1%nat)) ws)
  | Retake e th n ws :
      e = EvLock th \/ e = EvTry th -> recursable = true ->
      step recursable e (Mk (Some (th, n)) ws) (KOk [Got th]) (Mk (Some (th, S n)) ws)
  | Relock th n ws :
      recursable = false ->
      step recursable (EvLock th) (Mk (Some (th, n)) ws) (KPanic LockNotRecursable)
        (Mk (Some (th, n)) ws)
  | Retry th n ws :
      recursable = false ->
      step recursable (EvTry th) (Mk (Some (th, n)) ws) (KPanic TrylockNotRecursable)
        (Mk (Some (th, n)) ws)
  | Wait th o n ws :
      th <> o ->
      step recursable (EvLock th) (Mk (Some (o, n)) ws) (KOk []) (Mk (Some (o, n)) (th :: ws))
  | Refuse th o n ws :
      th <> o ->
      step recursable (EvTry th) (Mk (Some (o, n)) ws) (KOk []) (Mk (Some (o, n)) ws)
  | Untake th n ws :
      step recursable (EvUnlock th) (Mk (Some (th, S (S n))) ws) (KOk [Put th])
        (Mk (Some (th, S n)) ws)
  | Release th :
      step recursable (EvUnlock th) (Mk (Some (th, 1%nat)) []) (KOk [Put th]) (Mk None [])
  | HandOver th th' ws ws' :
      ws ≡ₚ th' :: ws' ->
      step recursable (EvUnlock th) (Mk (Some (th, 1%nat)) ws) (KOk [Put th; Got th'])
        (Mk (Some (th', 1%nat)) ws')
  | Foreign th h ws :
      (forall n, h <> Some (th, n)) ->
      step recursable (EvUnlock th) (Mk h ws) (KPanic UnlockNotOwner) (Mk h ws).

End RecLock.

Section Spec.
Context {Q : Type} `{HQ : ThreadQueue Q} `{HL : !ThreadQueueLaws Q}.

Implicit Types (lk : lock_object Q) (rc : rescnt) (t : thread).

Definition waiting lk : list thread := tq_waiting (q_heads (lo_mtx lk)).

(** ** The steps of one mutex: a call with what the threads observe of it *)

Definition mutex_step (e : mutex_event) (s : lock_object Q * rescnt)
    : kres (lock_object Q * rescnt * list grant) :=
  let '(lk, rc) := s in
  match e with
  | EvLock t =>
      kbind (fun '(a, lk', rc') =>
               KOk (lk', rc', match a with Acquired => [Got t] | Blocked => [] end))
        (rtems_bsd_mutex_lock t lk rc)
  | EvTry t =>
      kbind (fun '(b, lk', rc') => KOk (lk', rc', if (b : bool) then [Got t] else []))
        (rtems_bsd_mutex_trylock t lk rc)
  | EvUnlock t =>
      kbind (fun '(lk', rc') =>
               KOk (lk', rc',
                    Put t :: (if nest_level (lo_mtx lk) =? 0
                              then match q_owner (lo_mtx lk') with
                                   | Some t' => [Got t']
                                   | None => []
                                   end
                              else [])))
        (rtems_bsd_mutex_unlock t lk rc)
  end.

(** The states some interleaving of calls reaches from [rtems_bsd_mutex_init];
    a suspended thread makes no call. *)
Inductive mutex_reachable (s0 : lock_object Q * rescnt)
    : lock_object Q * rescnt -> list grant -> Prop :=
  | reach_init : mutex_reachable s0 s0 []
  | reach_step lk rc tr e lk' rc' gs :
      mutex_reachable s0 (lk, rc) tr ->
      event_thread e ∉ waiting lk ->
      mutex_step e (lk, rc) = KOk (lk', rc', gs) ->
      mutex_reachable s0 (lk', rc') (tr ++ gs).

(** ** The invariant *)

Record mutex_ok lk : Prop := {
  ok_nest : 0 <= nest_level (lo_mtx lk);
  ok_free : q_owner (lo_mtx lk) = None -> nest_level (lo_mtx lk) = 0 /\ waiting lk = [];
  ok_owner : forall t, q_owner (lo_mtx lk) = Some t -> t ∉ waiting lk;
  ok_nodup : NoDup (waiting lk);
  ok_flat : lo_recursable (lo_flags lk) = false -> nest_level (lo_mtx lk) = 0;
}.

Lemma mutex_init_ok cls name flags : mutex_ok (rtems_bsd_mutex_init cls name flags).
Proof.
  split; simpl; rewrite ?/waiting /= ?tq_waiting_empty; try done.
  constructor.
Qed.

Lemma surrender_some (q : Q) rc :
  tq_waiting q <> [] ->
  exists t q' rc', tq_surrender q rc = Some (t, q', rc') /\ tq_waiting q ≡ₚ t :: tq_waiting q'.
Proof.
  intros Hne. apply tq_surrender_first.
  destruct (tq_is_empty q) eqn:E; [by apply tq_is_empty_spec in E|done].
Qed.

(** The four ways an unlock ends. *)
Inductive unlock_spec t lk rc : kres (lock_object Q * rescnt) -> Prop :=
  | unlock_foreign :
      q_owner (lo_mtx lk) <> Some t -> unlock_spec t lk rc (KPanic UnlockNotOwner)
  | unlock_nested :
      q_owner (lo_mtx lk) = Some t -> nest_level (lo_mtx lk) <> 0 ->
      unlock_spec t lk rc
        (KOk (on_mtx (set_nest (nest_level (lo_mtx lk) - 1)) lk, rc))
  | unlock_free :
      q_owner (lo_mtx lk) = Some t -> nest_level (lo_mtx lk) = 0 -> waiting lk = [] ->
      unlock_spec t lk rc (KOk (on_mtx (set_owner None) lk, rc_decr t rc))
  | unlock_handover t' q' rc' :
      q_owner (lo_mtx lk) = Some t -> nest_level (lo_mtx lk) = 0 ->
      waiting lk ≡ₚ t' :: tq_waiting q' ->
      unlock_spec t lk rc
        (KOk (LockObject (lo_class lk) (lo_flags lk)
                (BsdMutex (q_name (lo_mtx lk)) (Some t') q' 0), rc')).

Lemma unlock_cases t lk rc : unlock_spec t lk rc (rtems_bsd_mutex_unlock t lk rc).
Proof.
  unfold rtems_bsd_mutex_unlock.
  case_decide as Ho; [|by constructor].
  destruct (nest_level (lo_mtx lk) =? 0) eqn:En; bool_props; [|by constructor].
  destruct (tq_is_empty (q_heads (lo_mtx lk))) eqn:Ee.
  - apply tq_is_empty_spec in Ee. by constructor.
  - destruct (tq_surrender_first (q_heads (lo_mtx lk)) (rc_decr t rc) Ee)
      as (t' & q' & rc' & Hs & Hp).
    rewrite Hs /on_mtx /set_heads /set_owner /= En. by constructor.
Qed.

(** The ways a lock request ends. *)
Inductive lock_spec t lk rc : kres (acquire * lock_object Q * rescnt) -> Prop :=
  | lock_free :
      q_owner (lo_mtx lk) = None ->
      lock_spec t lk rc (KOk (Acquired, on_mtx (set_owner (Some t)) lk, rc_incr t rc))
  | lock_self :
      q_owner (lo_mtx lk) = Some t -> lo_recursable (lo_flags lk) = true ->
      lock_spec t lk rc
        (KOk (Acquired, on_mtx (set_nest (nest_level (lo_mtx lk) + 1)) lk, rc))
  | lock_self_panic :
      q_owner (lo_mtx lk) = Some t -> lo_recursable (lo_flags lk) = false ->
      lock_spec t lk rc (KPanic LockNotRecursable)
  | lock_wait o :
      q_owner (lo_mtx lk) = Some o -> t <> o ->
      lock_spec t lk rc
        (KOk (Blocked, on_mtx (set_heads (tq_enqueue t (q_heads (lo_mtx lk)))) lk, rc)).

Lemma lock_cases t lk rc : lock_spec t lk rc (rtems_bsd_mutex_lock t lk rc).
Proof.
  unfold rtems_bsd_mutex_lock, rtems_bsd_mutex_lock_more.
  destruct (q_owner (lo_mtx lk)) as [o|] eqn:Eo; [|by constructor].
  case_decide; [subst|by econstructor; eauto].
  destruct (lo_recursable _) eqn:Er; by constructor.
Qed.

(** [trylock] is [lock], except that it refuses where [lock] would wait. *)
Lemma trylock_as_lock t lk rc :
  rtems_bsd_mutex_trylock t lk rc =
  match rtems_bsd_mutex_lock t lk rc with
  | KOk (Acquired, lk', rc') => KOk (true, lk', rc')
  | KOk (Blocked, _, _) => KOk (false, lk, rc)
  | KPanic _ => KPanic TrylockNotRecursable
  end.
Proof.
  unfold rtems_bsd_mutex_trylock, rtems_bsd_mutex_lock, rtems_bsd_mutex_lock_more.
  destruct (q_owner (lo_mtx lk)); [|done].
  by case_decide; [destruct (lo_recursable _)|].
Qed.

Lemma lock_preserves_ok t lk rc a lk' rc' :
  mutex_ok lk -> t ∉ waiting lk ->
  rtems_bsd_mutex_lock t lk rc = KOk (a, lk', rc') -> mutex_ok lk'.
Proof.
  intros [Hn Hf Ho Hd Hr] Ht Hl.
  destruct (lock_cases t lk rc) as [E|E R|E R|o E Hne]; simplify_eq.
  - destruct (Hf E). split; simpl; try done. intros ? [= <-]. done.
  - split; simpl; try done; [lia|congruence|congruence].
  - assert (Hp : waiting (on_mtx (set_heads (tq_enqueue t (q_heads (lo_mtx lk)))) lk)
                 ≡ₚ t :: waiting lk) by apply tq_waiting_enqueue.
    split; simpl; try done; [congruence| |by rewrite Hp; constructor].
    intros t' E'. rewrite Hp not_elem_of_cons. split; [congruence|by apply Ho].
Qed.

Lemma unlock_preserves_ok t lk rc lk' rc' :
  mutex_ok lk -> rtems_bsd_mutex_unlock t lk rc = KOk (lk', rc') -> mutex_ok lk'.
Proof.
  intros [Hn Hf Ho Hd Hr] Hu.
  destruct (unlock_cases t lk rc) as [E|E N|E N W|t' q' rc'' E N P]; simplify_eq.
  - split; simpl; try done; [lia|congruence|intros R; specialize (Hr R); lia].
  - split; simpl; try done.
  - rewrite P in Hd. apply list.NoDup_cons in Hd as [Hni Hd].
    split; simpl; try done. by intros ? [= <-].
Qed.

Lemma mutex_step_ok e lk rc lk' rc' gs :
  mutex_ok lk -> event_thread e ∉ waiting lk ->
  mutex_step e (lk, rc) = KOk (lk', rc', gs) -> mutex_ok lk'.
Proof.
  intros Hok Hw. destruct e as [t|t|t]; simpl in *.
  - destruct (rtems_bsd_mutex_lock t lk rc) as [[[a l] r]|] eqn:E; simpl; [|done].
    intros [= <- <- <-]. by eapply lock_preserves_ok.
  - rewrite trylock_as_lock.
    destruct (rtems_bsd_mutex_lock t lk rc) as [[[[] l] r]|] eqn:E; simpl; [| |done].
    + intros [= <- <- <-]. by eapply lock_preserves_ok.
    + by intros [= <- <- <-].
  - destruct (rtems_bsd_mutex_unlock t lk rc) as [[l r]|] eqn:E; simpl; [|done].
    intros [= <- <- <-]. by eapply unlock_preserves_ok.
Qed.

Lemma reachable_ok lk0 rc0 s tr :
  mutex_ok lk0 -> mutex_reachable (lk0, rc0) s tr -> mutex_ok s.1.
Proof.
  intros Hinit. induction 1; simpl in *; [done|]. by eapply mutex_step_ok.
Qed.

(** ** Refinement of the abstract lock *)

Definition holder_of lk : option (thread * nat) :=
  t ← q_owner (lo_mtx lk); Some (t, Z.to_nat (nest_level (lo_mtx lk) + 1)).

(** The abstract state, up to the order of the waiting threads. *)
Definition represents lk (r : RecLock.t) : Prop :=
  RecLock.holder r = holder_of lk /\ RecLock.waiters r ≡ₚ waiting lk.

Lemma holder_of_some lk t n :
  q_owner (lo_mtx lk) = Some t -> nest_level (lo_mtx lk) = Z.of_nat n ->
  holder_of lk = Some (t, S n).
Proof. unfold holder_of. intros -> ->. simpl. do 2 f_equal. lia. Qed.

Lemma holder_of_none lk : q_owner (lo_mtx lk) = None -> holder_of lk = None.
Proof. unfold holder_of. by intros ->. Qed.

(** What is observed of a call, and the abstract state behind it: a call that
    panics leaves the lock as it was. *)
Definition refines_step e lk rc (r : RecLock.t) : Prop :=
  match mutex_step e (lk, rc) with
  | KOk (lk', _, gs) =>
      lo_flags lk' = lo_flags lk /\
      exists r', RecLock.step (lo_recursable (lo_flags lk)) e r (KOk gs) r' /\ represents lk' r'
  | KPanic p => RecLock.step (lo_recursable (lo_flags lk)) e r (KPanic p) r
  end.

Lemma lock_refines t lk rc r :
  mutex_ok lk -> represents lk r -> refines_step (EvLock t) lk rc r.
Proof.
  intros [Hn Hf _ _ _] [Hh Hw]. destruct r as [h ws]; simpl in *.
  destruct (Z_of_nat_complete _ Hn) as [n En]. rewrite /refines_step /=.
  destruct (lock_cases t lk rc) as [E|E R|E R|o E Hne]; simpl; simplify_eq.
  - rewrite (holder_of_none _ E). split; [done|]. eexists. split; [apply RecLock.Take; auto|].
    split; [|done]. symmetry. apply (holder_of_some _ _ 0); [done|]. by apply Hf.
  - rewrite (holder_of_some _ _ _ E En). split; [done|].
    eexists. split; [apply RecLock.Retake; auto|].
    split; [|done]. symmetry. apply holder_of_some; simpl; [done|lia].
  - rewrite (holder_of_some _ _ _ E En). by constructor.
  - rewrite (holder_of_some _ _ _ E En). split; [done|].
    eexists. split; [by apply RecLock.Wait|].
    split; simpl; [symmetry; by apply holder_of_some|].
    rewrite Hw. symmetry. apply tq_waiting_enqueue.
Qed.

Lemma trylock_refines t lk rc r :
  mutex_ok lk -> represents lk r -> refines_step (EvTry t) lk rc r.
Proof.
  intros [Hn Hf _ _ _] [Hh Hw]. destruct r as [h ws]; simpl in *.
  destruct (Z_of_nat_complete _ Hn) as [n En]. rewrite /refines_step /= trylock_as_lock.
  destruct (lock_cases t lk rc) as [E|E R|E R|o E Hne]; simpl; simplify_eq.
  - rewrite (holder_of_none _ E). split; [done|]. eexists. split; [apply RecLock.Take; auto|].
    split; [|done]. symmetry. apply (holder_of_some _ _ 0); [done|]. by apply Hf.
  - rewrite (holder_of_some _ _ _ E En). split; [done|].
    eexists. split; [apply RecLock.Retake; auto|].
    split; [|done]. symmetry. apply holder_of_some; simpl; [done|lia].
  - rewrite (holder_of_some _ _ _ E En). by constructor.
  - rewrite (holder_of_some _ _ _ E En). split; [done|].
    eexists. split; [by apply RecLock.Refuse|].
    split; simpl; [symmetry; by apply holder_of_some|done].
Qed.

Lemma unlock_refines t lk rc r :
  mutex_ok lk -> represents lk r -> refines_step (EvUnlock t) lk rc r.
Proof.
  intros [Hn Hf _ _ _] [Hh Hw]. destruct r as [h ws]; simpl in *.
  destruct (Z_of_nat_complete _ Hn) as [n En]. rewrite /refines_step /=.
  destruct (unlock_cases t lk rc) as [E|E N|E N W|t' q' rc'' E N P]; simpl; simplify_eq.
  - constructor. intros k. unfold holder_of. destruct (q_owner (lo_mtx lk)); simpl; congruence.
  - destruct n as [|n]; [lia|]. rewrite (proj2 (Z.eqb_neq _ _) N).
    rewrite (holder_of_some _ _ _ E En). split; [done|].
    eexists. split; [apply RecLock.Untake|].
    split; [|done]. symmetry. apply holder_of_some; simpl; [done|lia].
  - rewrite (proj2 (Z.eqb_eq _ _) N). rewrite (holder_of_some _ _ 0 E N). rewrite W in Hw.
    apply Permutation_nil_r in Hw as ->. split; [done|].
    eexists. split; [apply RecLock.Release|]. split; [done|]. by rewrite -W.
  - rewrite (proj2 (Z.eqb_eq _ _) N). rewrite (holder_of_some _ _ 0 E N). rewrite P in Hw.
    split; [done|]. eexists. split; [by apply RecLock.HandOver|]. done.
Qed.

(** C1: every call is a step of the abstract recursive lock with the outcome
    that step has.  A lock or trylock of a free mutex takes it for the caller;
    the holder takes it once more if the mutex is recursable and panics if not;
    while another thread holds it a lock waits and a trylock is refused.  An
    unlock by the holder gives the lock up once and, when that was the last
    time, passes it to a waiter or frees it; an unlock by anyone else panics.
    A call that panics changes nothing. *)
Theorem mutex_refines_reclock e lk rc r :
  mutex_ok lk -> represents lk r ->
  match mutex_step e (lk, rc) with
  | KOk (lk', _, gs) =>
      lo_flags lk' = lo_flags lk /\
      exists r', RecLock.step (lo_recursable (lo_flags lk)) e r (KOk gs) r' /\ represents lk' r'
  | KPanic p => RecLock.step (lo_recursable (lo_flags lk)) e r (KPanic p) r
  end.
Proof.
  destruct e as [t|t|t]; [apply lock_refines|apply trylock_refines|apply unlock_refines].
Qed.

(** ** Mutual exclusion, from what the threads observe *)

Definition grant_delta t (g : grant) : Z :=
  match g with
  | Got t' => if decide (t = t') then 1 else 0
  | Put t' => if decide (t = t') then -1 else 0
  end.

(** How often [t] got the lock minus how often it gave it up. *)
Fixpoint balance t (tr : list grant) : Z :=
  match tr with
  | [] => 0
  | g :: tr' => grant_delta t g + balance t tr'
  end.

Definition holds t lk : Z :=
  if decide (q_owner (lo_mtx lk) = Some t) then nest_level (lo_mtx lk) + 1 else 0.

Lemma balance_app t tr tr' : balance t (tr ++ tr') = balance t tr + balance t tr'.
Proof. induction tr as [|g tr IH]; simpl; lia. Qed.

Lemma mutex_step_holds t e lk rc lk' rc' gs :
  mutex_ok lk -> mutex_step e (lk, rc) = KOk (lk', rc', gs) ->
  holds t lk' = holds t lk + balance t gs.
Proof.
  intros Hok.
  assert (Hlock : forall t0 a l r, rtems_bsd_mutex_lock t0 lk rc = KOk (a, l, r) ->
            holds t l = holds t lk +
              balance t (match a with Acquired => [Got t0] | Blocked => [] end)).
  { intros t0 a l r Hl. unfold holds.
    destruct (lock_cases t0 lk rc) as [E|E R|E R|o E Hne]; simplify_eq; simpl;
      rewrite E; repeat case_decide; simplify_eq; try lia.
    destruct (ok_free lk Hok E). lia. }
  destruct e as [t0|t0|t0]; simpl.
  - destruct (rtems_bsd_mutex_lock t0 lk rc) as [[[a l] r]|] eqn:E; simpl; [|done].
    intros [= <- <- <-]. by eapply Hlock.
  - rewrite trylock_as_lock.
    destruct (rtems_bsd_mutex_lock t0 lk rc) as [[[[] l] r]|] eqn:E; simpl; [| |done];
      intros [= <- <- <-]; [by eapply (Hlock _ Acquired)|simpl; lia].
  - destruct (unlock_cases t0 lk rc) as [E|E N|E N W|t' q' rc'' E N P]; simpl; [done|..];
      intros [= <- <- <-]; unfold holds; simpl; rewrite E;
      destruct (nest_level (lo_mtx lk) =? 0) eqn:Eb; bool_props; try lia; simpl;
      repeat case_decide; simplify_eq; lia.
Qed.

Lemma reachable_balance t lk0 rc0 s tr :
  mutex_ok lk0 -> q_owner (lo_mtx lk0) = None ->
  mutex_reachable (lk0, rc0) s tr -> balance t tr = holds t s.1.
Proof.
  intros Hinit Hfree Hr. remember (lk0, rc0) as s0.
  induction Hr as [|lk rc tr e lk' rc' gs Hr IH Hw Hs]; subst; simpl in *.
  - unfold holds. rewrite Hfree. by case_decide.
  - pose proof (reachable_ok _ _ _ _ Hinit Hr) as Hok; simpl in Hok.
    rewrite balance_app IH //. by rewrite (mutex_step_holds _ _ _ _ _ _ _ Hok Hs).
Qed.

(** C2: mutual exclusion.  Over any interleaving of lock, trylock and unlock
    calls by any threads on an initialised mutex, as long as one thread has
    taken the lock more often than it has given it up, no other thread has. *)
Theorem mutex_mutual_exclusion cls name flags rc0 s tr t1 t2 :
  mutex_reachable (rtems_bsd_mutex_init cls name flags, rc0) s tr ->
  t1 <> t2 -> 0 < balance t1 tr -> balance t2 tr = 0.
Proof.
  intros Hr Hne.
  rewrite !(reachable_balance _ _ _ _ _ (mutex_init_ok cls name flags) eq_refl Hr).
  unfold holds. repeat case_decide; simplify_eq; lia.
Qed.

Lemma balance_le_length t tr : balance t tr <= Z.of_nat (length tr).
Proof. induction tr as [|[t'|t'] tr IH]; simpl; [done|case_decide; lia..]. Qed.

(** The nest level stays below the number of times the lock was got, so the
    C [int] cannot overflow before the lock was taken 2^31 times. *)
Lemma nest_level_bounded cls name flags rc0 s tr :
  mutex_reachable (rtems_bsd_mutex_init cls name flags, rc0) s tr ->
  0 <= nest_level (lo_mtx s.1) <= Z.of_nat (length tr).
Proof.
  intros Hr. pose proof (mutex_init_ok cls name flags) as Hi.
  pose proof (reachable_ok _ _ _ _ Hi Hr) as Hok. split; [apply ok_nest; done|].
  destruct (q_owner (lo_mtx s.1)) as [t|] eqn:Eo; [|destruct (ok_free _ Hok Eo); lia].
  pose proof (reachable_balance t _ _ _ _ Hi eq_refl Hr) as Hb.
  pose proof (balance_le_length t tr) as Hl.
  unfold holds in Hb. rewrite decide_True // in Hb. lia.
Qed.

(** C3: no waiter is ever left behind: in every reachable state a thread waits
    only while another thread owns the mutex, no thread waits twice, and a
    mutex that is not [LO_RECURSABLE] is never nested. *)
Theorem mutex_no_lost_waiter cls name flags rc0 lk rc tr :
  mutex_reachable (rtems_bsd_mutex_init cls name flags, rc0) (lk, rc) tr ->
  NoDup (waiting lk) /\
  (forall t, t ∈ waiting lk -> exists o, q_owner (lo_mtx lk) = Some o /\ o <> t) /\
  (lo_recursable (lo_flags lk) = false -> rtems_bsd_mutex_recursed lk = false).
Proof.
  intros Hr. destruct (reachable_ok _ _ _ _ (mutex_init_ok cls name flags) Hr) as [Hn Hf Ho Hd Hl].
  simpl in *. split_and!; [done| |].
  - intros t Ht. destruct (q_owner (lo_mtx lk)) as [o|] eqn:E.
    + exists o. split; [done|]. intros ->. by apply (Ho t).
    + destruct (Hf eq_refl) as [_ W]. rewrite W in Ht. by apply elem_of_nil in Ht.
  - intros R. unfold rtems_bsd_mutex_recursed. by rewrite (Hl R).
Qed.

(** ** Progress *)

(** The owner drops the lock completely, [n] owners in a row. *)
Fixpoint drain (n : nat) lk rc : kres (lock_object Q * rescnt * list thread) :=
  match n with
  | O => KOk (lk, rc, [])
  | S n' =>
      match q_owner (lo_mtx lk) with
      | None => KOk (lk, rc, [])
      | Some t =>
          kbind (fun '(lk', rc') =>
                   kbind (fun '(lk'', rc'', ts) => KOk (lk'', rc'', t :: ts))
                     (drain n' lk' rc'))
            (rtems_bsd_mutex_unlock t lk rc)
      end
  end.

Lemma drain_S n lk rc t :
  q_owner (lo_mtx lk) = Some t ->
  drain (S n) lk rc =
  kbind (fun '(lk', rc') =>
           kbind (fun '(lk'', rc'', ts) => KOk (lk'', rc'', t :: ts)) (drain n lk' rc'))
    (rtems_bsd_mutex_unlock t lk rc).
Proof. simpl. by intros ->. Qed.

(** C4: every waiter gets its turn: when the owner and each successor release
    the mutex, after one release more than there are waiters the mutex is free
    and exactly the owner and the waiters have owned it, each once. *)
Theorem mutex_drain lk rc t :
  mutex_ok lk -> q_owner (lo_mtx lk) = Some t -> nest_level (lo_mtx lk) = 0 ->
  exists lk' rc' ts,
    drain (S (length (waiting lk))) lk rc = KOk (lk', rc', ts) /\
    q_owner (lo_mtx lk') = None /\ waiting lk' = [] /\ ts ≡ₚ t :: waiting lk.
Proof.
  remember (length (waiting lk)) as n eqn:En. revert lk rc t En.
  induction n as [|n IH]; intros lk rc t En Hok Ho Hnest; rewrite (drain_S _ _ _ _ Ho);
    pose proof (unlock_preserves_ok t lk rc) as Hpres;
    destruct (unlock_cases t lk rc) as [E|E N|E N W|t' q' rc' E N P]; try done.
  - rewrite W in En |- *. do 3 eexists. split; [done|]. by rewrite -W.
  - apply Permutation_length in P. simpl in P. lia.
  - rewrite W in En. done.
  - specialize (Hpres _ _ Hok eq_refl).
    assert (n = length (tq_waiting q')) as Eq.
    { apply Permutation_length in P. simpl in P. lia. }
    destruct ((fun e => IH _ rc' t' e Hpres eq_refl eq_refl) Eq) as (lk' & rc2 & ts & Hd & Ho' & Hw' & Hts).
    cbn [kbind]. rewrite Hd. cbn [kbind].
    do 3 eexists. split_and!; [done|done|done|]. by rewrite Hts P.
Qed.

End Spec.

(** ** A concrete thread queue: highest priority first, FIFO among equals *)

Section PrioQueue.
Variable prio : thread -> Z.

Fixpoint prio_insert (t : thread) (q : list thread) : list thread :=
  match q with
  | [] => [t]
  | t' :: q' => if prio t <? prio t' then t :: q else t' :: prio_insert t q'
  end.

#[local] Instance prio_queue : ThreadQueue (list thread) := {
  tq_empty := [];
  tq_is_empty := fun q => match q with [] => true | _ => false end;
  tq_enqueue := prio_insert;
  tq_surrender := fun q rc =>
    match q with [] => None | t :: q' => Some (t, q', rc_incr t rc) end;
  tq_waiting := id;
}.

Lemma prio_insert_perm t q : prio_insert t q ≡ₚ t :: q.
Proof.
  induction q as [|t' q IH]; simpl; [done|].
  destruct (prio t <? prio t'); [done|]. rewrite IH. constructor.
Qed.

#[local] Instance prio_queue_laws : ThreadQueueLaws (list thread).
Proof.
  split; simpl.
  - done.
  - by intros [].
  - intros. apply prio_insert_perm.
  - intros [|t q] rc; [done|]. intros _. by exists t, q, (rc_incr t rc).
Qed.

End PrioQueue.

(** ** The theorems at concrete mutexes *)

Definition by_number (t : thread) : Z := Z.of_nat t.

#[local] Existing Instance prio_queue.
#[local] Existing Instance prio_queue_laws.

(** A recursive mutex owned by thread 1, with threads 2 and 3 waiting. *)
Definition contended : lock_object (list thread) :=
  LockObject ClsMtxSleep
    (LockFlags true true false false false false false false false false false)
    (BsdMutex "contended" (Some 1%nat) [2%nat; 3%nat] 0).

Lemma contended_ok : mutex_ok (HQ := prio_queue by_number) contended.
Proof.
  split; simpl; try done.
  - intros t [= <-]. apply (bool_decide_unpack _). by vm_compute.
  - apply (bool_decide_unpack _). by vm_compute.
Qed.

Lemma mutex_refines_reclock_witness :
  (exists r',
     RecLock.step true (EvUnlock 1%nat) (RecLock.Mk (Some (1%nat, 1%nat)) [2%nat; 3%nat])
       (KOk [Put 1%nat; Got 2%nat]) r' /\
     represents (HQ := prio_queue by_number)
       (LockObject ClsMtxSleep (lo_flags contended) (BsdMutex "contended" (Some 2%nat) [3%nat] 0)) r') /\
  RecLock.step true (EvUnlock 2%nat) (RecLock.Mk (Some (1%nat, 1%nat)) [2%nat; 3%nat])
    (KPanic UnlockNotOwner) (RecLock.Mk (Some (1%nat, 1%nat)) [2%nat; 3%nat]).
Proof.
  pose proof (fun t => mutex_refines_reclock (HQ := prio_queue by_number)
                         (HL := prio_queue_laws by_number) (EvUnlock t) contended ∅
                         (RecLock.Mk (Some (1%nat, 1%nat)) [2%nat; 3%nat]) contended_ok
                         (conj eq_refl (Permutation_refl _))) as H.
  split; [apply (proj2 (H 1%nat))|apply (H 2%nat)].
Defined.

(** Thread 1 locks, thread 2 blocks, thread 1 unlocks: thread 2 owns it. *)
Definition fresh_mtx : lock_object (list thread) :=
  rtems_bsd_mutex_init (H := prio_queue by_number) ClsMtxSleep "m" no_flags.

Lemma three_calls :
  exists lk rc, mutex_reachable (HQ := prio_queue by_number) (fresh_mtx, ∅) (lk, rc)
                  [Got 1%nat; Put 1%nat; Got 2%nat] /\
                q_owner (lo_mtx lk) = Some 2%nat.
Proof.
  do 2 eexists. split.
  - eapply (reach_step _ _ _ [Got 1%nat] (EvUnlock 1%nat)).
    + eapply (reach_step _ _ _ [Got 1%nat] (EvLock 2%nat)).
      * eapply (reach_step _ _ _ [] (EvLock 1%nat)); [constructor| |reflexivity].
        apply (bool_decide_unpack _). by vm_compute.
      * apply (bool_decide_unpack _). by vm_compute.
      * reflexivity.
    + apply (bool_decide_unpack _). by vm_compute.
    + reflexivity.
  - reflexivity.
Qed.

Lemma mutex_mutual_exclusion_witness :
  balance 1%nat [Got 1%nat; Put 1%nat; Got 2%nat] = 0.
Proof.
  destruct three_calls as (lk & rc & Hr & _).
  eapply (mutex_mutual_exclusion (HQ := prio_queue by_number) (HL := prio_queue_laws by_number)
            ClsMtxSleep "m" no_flags ∅ _ _ 2%nat 1%nat Hr); [done|reflexivity].
Defined.

Lemma mutex_no_lost_waiter_witness :
  exists lk, NoDup (waiting (HQ := prio_queue by_number) lk) /\ q_owner (lo_mtx lk) = Some 2%nat.
Proof.
  destruct three_calls as (lk & rc & Hr & Ho). exists lk. split; [|exact Ho].
  apply (mutex_no_lost_waiter (HQ := prio_queue by_number) (HL := prio_queue_laws by_number)
           ClsMtxSleep "m" no_flags ∅ lk rc _ Hr).
Defined.

Lemma mutex_drain_witness :
  exists lk' rc' ts,
    drain (HQ := prio_queue by_number) 3 contended ∅ = KOk (lk', rc', ts) /\
    q_owner (lo_mtx lk') = None /\
    waiting (HQ := prio_queue by_number) lk' = [] /\ ts ≡ₚ [1; 2; 3]%nat.
Proof.
  exact (mutex_drain (HQ := prio_queue by_number) (HL := prio_queue_laws by_number)
           contended ∅ 1%nat contended_ok eq_refl eq_refl).
Defined.
