(* ===== verification/LockClasses.v ===== *)
(** * The FreeBSD lock families over the BSD mutex

    Model of [rtems-kernel-mutex.c] ([mtx]), [rtems-kernel-sx.c] ([sx]) and
    [rtems-kernel-rwlock.c] ([rwlock]): their initialisation, lock, unlock,
    try, upgrade, downgrade and assertion routines and their [lock_class]
    tables, all of them on top of [BsdMutex].  [struct mtx], [struct sx] and
    [struct rwlock] hold nothing but the lock object. *)

From S2P Require Import Prelude BsdMutex BsdMutexSpec.

(** ** Constants of [mutex.h], [sx.h] and [_kernel_lock.h] *)

Definition MTX_DEF : Z := 0.
Definition MTX_SPIN : Z := 1.
Definition MTX_RECURSE : Z := 4.
Definition SX_RECURSE : Z := 0x20.

Definition LA_UNLOCKED : Z := 0.
Definition LA_LOCKED : Z := 1.
Definition LA_SLOCKED : Z := 2.
Definition LA_XLOCKED : Z := 4.
Definition LA_RECURSED : Z := 8.
Definition LA_NOTRECURSED : Z := 0x10.

(** A [case] label group of a [switch] on [what]: [base], alone or with one of
    the two recursion bits. *)
Definition what_in (what : Z) (bases : list Z) : bool :=
  existsb (fun b => (what =? b) || (what =? Z.lor b LA_RECURSED)
                    || (what =? Z.lor b LA_NOTRECURSED)) bases.

Definition flags_recurse (sleepable upgradable recursable : bool) : lock_flags :=
  LockFlags false recursable sleepable upgradable false false false false false false false.

Section Classes.
Context {Q : Type} `{HQ : ThreadQueue Q}.

Implicit Types (lk m sx rw : lock_object Q) (rc : rescnt) (executing : thread).

(** ** mtx *)

Definition mtx_init (name : string) (opts : Z) : lock_object Q :=
  let class := if has_bits opts MTX_SPIN then ClsMtxSpin else ClsMtxSleep in
  let flags := flags_recurse false false (has_bits opts MTX_RECURSE) in
  rtems_bsd_mutex_init class name flags.

Definition mtx_lock_flags executing m rc := rtems_bsd_mutex_lock executing m rc.
Definition mtx_trylock_flags executing m rc := rtems_bsd_mutex_trylock executing m rc.
Definition mtx_unlock_flags executing m rc := rtems_bsd_mutex_unlock executing m rc.

Definition mtx_owner m : option thread := rtems_bsd_mutex_owner m.
Definition mtx_owned executing m : bool := rtems_bsd_mutex_owned executing m.
Definition mtx_recursed m : bool := rtems_bsd_mutex_recursed m.
Definition mtx_destroy executing m rc := rtems_bsd_mutex_destroy executing m rc.

(** The two recursion checks the assertion routines share. *)
Definition check_recursion (what : Z) lk : kres unit :=
  if rtems_bsd_mutex_recursed lk
  then if has_bits what LA_NOTRECURSED then KPanic Recursed else KOk tt
  else if has_bits what LA_RECURSED then KPanic Unrecursed else KOk tt.

Definition mtx_assert executing m (what : Z) : kres unit :=
  if what_in what [LA_XLOCKED] then
    if negb (mtx_owned executing m) then KPanic NotOwned
    else check_recursion what m
  else if what =? LA_UNLOCKED then
    if mtx_owned executing m then KPanic Owned else KOk tt
  else KPanic UnknownAssert.

(** [struct mtx_args] and [mtx_sysinit]. *)
Record mtx_args := MtxArgs { ma_desc : string; ma_opts : Z }.
Definition mtx_sysinit (margs : mtx_args) : lock_object Q :=
  mtx_init (ma_desc margs) (ma_opts margs).

(** [mutex_init]: the initialising thread ends up owning [Giant]. *)
Definition mutex_init executing rc : kres (acquire * lock_object Q * rescnt) :=
  mtx_lock_flags executing (mtx_init "Giant" (Z.lor MTX_DEF MTX_RECURSE)) rc.

(** ** sx *)

Definition sx_init_flags (description : string) (opts : Z) : lock_object Q :=
  rtems_bsd_mutex_init ClsSx description
    (flags_recurse true true (has_bits opts SX_RECURSE)).

Record sx_args := SxArgs { sa_desc : string; sa_flags : Z }.
Definition sx_sysinit (sargs : sx_args) : lock_object Q :=
  sx_init_flags (sa_desc sargs) (sa_flags sargs).

Definition sx_destroy executing sx rc := rtems_bsd_mutex_destroy executing sx rc.
Definition sx_slock_int executing sx rc := rtems_bsd_mutex_lock executing sx rc.
Definition sx_try_slock_int executing sx rc := rtems_bsd_mutex_trylock executing sx rc.
Definition sx_sunlock_int executing sx rc := rtems_bsd_mutex_unlock executing sx rc.
Definition sx_try_upgrade_int sx : bool * lock_object Q := (true, sx).
Definition sx_try_upgrade_ sx : bool * lock_object Q := (true, sx).
Definition sx_downgrade_int sx : lock_object Q := sx.
Definition sx_try_downgrade_ sx : bool * lock_object Q := (true, sx).
Definition sx_xlocked executing sx : bool := rtems_bsd_mutex_owned executing sx.

Definition sx_assert executing sx (what : Z) : kres unit :=
  if what_in what [LA_SLOCKED; LA_LOCKED; LA_XLOCKED] then
    if negb (bool_decide (rtems_bsd_mutex_owner sx = Some executing)) then KPanic NotOwned
    else check_recursion what sx
  else if what =? LA_UNLOCKED then
    if bool_decide (rtems_bsd_mutex_owner sx = Some executing) then KPanic Owned else KOk tt
  else KPanic UnknownAssert.

(** ** rwlock *)

Definition rw_init_flags (name : string) (opts : Z) : lock_object Q :=
  rtems_bsd_mutex_init ClsRw name (flags_recurse false true true).

Record rw_args := RwArgs { ra_desc : string }.
Definition rw_sysinit (args : rw_args) : lock_object Q := rw_init_flags (ra_desc args) 0.

Definition rw_destroy executing rw rc := rtems_bsd_mutex_destroy executing rw rc.
Definition rw_wowned executing rw : bool := rtems_bsd_mutex_owned executing rw.
Definition rw_wlock executing rw rc := rtems_bsd_mutex_lock executing rw rc.
Definition rw_try_wlock executing rw rc := rtems_bsd_mutex_trylock executing rw rc.
Definition rw_wunlock executing rw rc := rtems_bsd_mutex_unlock executing rw rc.
Definition rw_rlock executing rw rc := rtems_bsd_mutex_lock executing rw rc.
Definition rw_try_rlock executing rw rc := rtems_bsd_mutex_trylock executing rw rc.
Definition rw_runlock executing rw rc := rtems_bsd_mutex_unlock executing rw rc.
Definition rw_try_upgrade rw : bool * lock_object Q := (true, rw).
Definition rw_downgrade rw : lock_object Q := rw.

(** The macro [rw_unlock] picks the flavour by [rw_wowned]. *)
Definition rw_unlock executing rw rc :=
  if rw_wowned executing rw then rw_wunlock executing rw rc else rw_runlock executing rw rc.

Definition rw_assert executing rw (what : Z) : kres unit :=
  if what_in what [LA_LOCKED; LA_SLOCKED; LA_XLOCKED] then
    if negb (bool_decide (rtems_bsd_mutex_owner rw = Some executing)) then KPanic NotOwned
    else check_recursion what rw
  else if what =? LA_UNLOCKED then
    if bool_decide (rtems_bsd_mutex_owner rw = Some executing) then KPanic Owned else KOk tt
  else KPanic UnknownAssert.

(** ** The lock classes *)

Record lock_class := LockClass {
  lc_name : string;
  lc_assert : thread -> lock_object Q -> Z -> kres unit;
  lc_lock : thread -> lock_object Q -> rescnt -> kres (acquire * lock_object Q * rescnt);
  lc_unlock : thread -> lock_object Q -> rescnt -> kres (lock_object Q * rescnt);
  lc_trylock : option (thread -> lock_object Q -> rescnt -> kres (bool * lock_object Q * rescnt));
}.

Definition lock_class_mtx_sleep : lock_class :=
  LockClass "sleep mutex" mtx_assert mtx_lock_flags mtx_unlock_flags (Some mtx_trylock_flags).
Definition lock_class_mtx_spin : lock_class :=
  LockClass "spin mutex" mtx_assert mtx_lock_flags mtx_unlock_flags (Some mtx_trylock_flags).
Definition lock_class_sx : lock_class :=
  LockClass "sx" sx_assert sx_slock_int sx_sunlock_int None.
Definition trylock_rw executing rw rc := rtems_bsd_mutex_trylock executing rw rc.
Definition lock_class_rw : lock_class :=
  LockClass "rw" rw_assert rw_wlock rw_unlock (Some trylock_rw).
Definition lock_class_lockmgr : lock_class :=
  LockClass "lockmgr"
    (fun _ _ _ => KPanic NoAssertions)
    (fun _ _ _ => KPanic NoInterlocking)
    (fun _ _ _ => KPanic NoInterlocking)
    None.

(** [LOCK_CLASS(lock)]. *)
Definition lock_class_of lk : lock_class :=
  match lo_class lk with
  | ClsMtxSpin => lock_class_mtx_spin
  | ClsMtxSleep => lock_class_mtx_sleep
  | ClsSx => lock_class_sx
  | ClsRw => lock_class_rw
  | ClsLockmgr => lock_class_lockmgr
  end.

End Classes.

Arguments lock_class Q : clear implicits.

(** ** What the families guarantee *)

Section ClassSpec.
Context {Q : Type} `{HQ : ThreadQueue Q} `{HL : !ThreadQueueLaws Q}.

Implicit Types (lk : lock_object Q) (rc : rescnt) (t : thread).

(** The calls a thread makes on a reader/writer lock. *)
Inductive rw_call :=
  | CRlock | CTryRlock | CRunlock | CWlock | CTryWlock | CWunlock | CUnlock
  | CUpgrade | CDowngrade.

Definition rw_step t (c : rw_call) (s : lock_object Q * rescnt)
    : kres (lock_object Q * rescnt * list grant) :=
  let '(lk, rc) := s in
  let lock r := kbind (fun '(a, lk', rc') =>
    KOk (lk', rc', match a with Acquired => [Got t] | Blocked => [] end)) r in
  let try r := kbind (fun '(b, lk', rc') =>
    KOk (lk', rc', if (b : bool) then [Got t] else [])) r in
  let unlock r := kbind (fun '(lk', rc') =>
    KOk (lk', rc', Put t :: (if nest_level (lo_mtx lk) =? 0
                             then match q_owner (lo_mtx lk') with
                                  | Some t' => [Got t'] | None => [] end
                             else []))) r in
  match c with
  | CRlock => lock (rw_rlock t lk rc)
  | CWlock => lock (rw_wlock t lk rc)
  | CTryRlock => try (rw_try_rlock t lk rc)
  | CTryWlock => try (rw_try_wlock t lk rc)
  | CRunlock => unlock (rw_runlock t lk rc)
  | CWunlock => unlock (rw_wunlock t lk rc)
  | CUnlock => unlock (rw_unlock t lk rc)
  | CUpgrade => KOk ((rw_try_upgrade lk).2, rc, [])
  | CDowngrade => KOk (rw_downgrade lk, rc, [])
  end.

Inductive rw_reachable (s0 : lock_object Q * rescnt)
    : lock_object Q * rescnt -> list grant -> Prop :=
  | rw_reach_init : rw_reachable s0 s0 []
  | rw_reach_step lk rc tr t c lk' rc' gs :
      rw_reachable s0 (lk, rc) tr ->
      t ∉ waiting lk ->
      rw_step t c (lk, rc) = KOk (lk', rc', gs) ->
      rw_reachable s0 (lk', rc') (tr ++ gs).

(** A reader/writer call is a mutex call or leaves everything alone. *)
Lemma rw_step_mutex t c lk rc :
  (exists e, event_thread e = t /\ rw_step t c (lk, rc) = mutex_step e (lk, rc)) \/
  rw_step t c (lk, rc) = KOk (lk, rc, []).
Proof.
  destruct c; simpl; try (by right); left;
    [exists (EvLock t)|exists (EvTry t)|exists (EvUnlock t)
    |exists (EvLock t)|exists (EvTry t)|exists (EvUnlock t)|exists (EvUnlock t)];
    split; try done.
  simpl. unfold rw_unlock. by destruct (rw_wowned _ _).
Qed.

Lemma rw_reachable_mutex s0 s tr : rw_reachable s0 s tr -> mutex_reachable s0 s tr.
Proof.
  induction 1 as [|lk rc tr t c lk' rc' gs Hr IH Hw Hs]; [constructor|].
  destruct (rw_step_mutex t c lk rc) as [(e & <- & E)|E]; rewrite E in Hs.
  - by econstructor.
  - simplify_eq. by rewrite app_nil_r.
Qed.

Lemma owner_of_balance lk0 rc0 lk rc tr t :
  mutex_ok lk0 -> q_owner (lo_mtx lk0) = None ->
  mutex_reachable (lk0, rc0) (lk, rc) tr ->
  0 < balance t tr -> q_owner (lo_mtx lk) = Some t.
Proof.
  intros H0 Hf Hr. rewrite (reachable_balance _ _ _ _ _ H0 Hf Hr) /holds /=.
  by case_decide.
Qed.

Lemma trylock_foreign t o lk rc :
  q_owner (lo_mtx lk) = Some o -> t <> o ->
  rtems_bsd_mutex_trylock t lk rc = KOk (false, lk, rc).
Proof. intros E Hne. unfold rtems_bsd_mutex_trylock. rewrite E. by case_decide. Qed.

(** C5: a hold of the port's reader/writer lock is exclusive, whichever way it
    was taken.  Over any interleaving of read, write, try, upgrade and
    downgrade calls, a thread that holds the lock passes the write-locked
    assertion, so its upgrade may always succeed, and every other thread's
    attempt to read or write lock is refused and changes nothing. *)
Theorem rw_hold_is_exclusive name opts rc0 lk rc tr t :
  rw_reachable (rw_init_flags name opts, rc0) (lk, rc) tr ->
  0 < balance t tr ->
  rw_assert t lk LA_XLOCKED = KOk tt /\
  rw_try_upgrade lk = (true, lk) /\
  forall t', t' <> t ->
    rw_try_rlock t' lk rc = KOk (false, lk, rc) /\
    rw_try_wlock t' lk rc = KOk (false, lk, rc) /\
    rw_assert t' lk LA_UNLOCKED = KOk tt.
Proof.
  intros Hr Hb.
  pose proof (owner_of_balance _ _ _ _ _ _ (mutex_init_ok _ _ _) eq_refl
                (rw_reachable_mutex _ _ _ Hr) Hb) as Ho.
  unfold rw_assert, rtems_bsd_mutex_owner, check_recursion. rewrite Ho. split_and!.
  - simpl. rewrite bool_decide_true //=. by destruct (rtems_bsd_mutex_recursed lk).
  - done.
  - intros t' Hne. split_and!; [by apply trylock_foreign with t..|].
    simpl. rewrite bool_decide_false //; congruence.
Qed.

(** The recursion bits a [what] argument of a locked assertion may carry. *)
Definition recursion_matches (what base : Z) lk : Prop :=
  (what = Z.lor base LA_RECURSED -> nest_level (lo_mtx lk) <> 0) /\
  (what = Z.lor base LA_NOTRECURSED -> nest_level (lo_mtx lk) = 0).

Lemma check_recursion_exact what base lk :
  base ∈ [LA_LOCKED; LA_SLOCKED; LA_XLOCKED] ->
  what ∈ [base; Z.lor base LA_RECURSED; Z.lor base LA_NOTRECURSED] ->
  check_recursion what lk = KOk tt <-> recursion_matches what base lk.
Proof.
  unfold check_recursion, recursion_matches, rtems_bsd_mutex_recursed.
  rewrite !elem_of_cons !elem_of_nil. intros Hb Hw.
  destruct (nest_level (lo_mtx lk) =? 0) eqn:E; bool_props; simpl;
    destruct Hb as [->|[->|[->|[]]]]; destruct Hw as [->|[->|[->|[]]]]; simpl;
    (split; [intros Hk; split; intros Hx; try done|intros [Hx Hy]; try done]);
    try (by destruct (Hx eq_refl)); by specialize (Hy eq_refl).
Qed.

(** The locked assertions of the three families are exact: they return
    precisely when the calling thread owns the lock and the nest level agrees
    with the recursion bit asked for, and panic otherwise. *)
Theorem locked_assertions_exact t lk what base :
  base ∈ [LA_LOCKED; LA_SLOCKED; LA_XLOCKED] ->
  what ∈ [base; Z.lor base LA_RECURSED; Z.lor base LA_NOTRECURSED] ->
  (sx_assert t lk what = KOk tt <->
     rtems_bsd_mutex_owner lk = Some t /\ recursion_matches what base lk) /\
  (rw_assert t lk what = KOk tt <->
     rtems_bsd_mutex_owner lk = Some t /\ recursion_matches what base lk) /\
  (base = LA_XLOCKED ->
     (mtx_assert t lk what = KOk tt <->
        rtems_bsd_mutex_owner lk = Some t /\ recursion_matches what base lk)).
Proof.
  intros Hb Hw. rewrite -(check_recursion_exact _ _ _ Hb Hw).
  assert (Hin : what_in what [LA_SLOCKED; LA_LOCKED; LA_XLOCKED] = true /\
                what_in what [LA_LOCKED; LA_SLOCKED; LA_XLOCKED] = true /\
                (base = LA_XLOCKED -> what_in what [LA_XLOCKED] = true)).
  { rewrite !elem_of_cons !elem_of_nil in Hb Hw.
    destruct Hb as [->|[->|[->|[]]]]; destruct Hw as [->|[->|[->|[]]]]; done. }
  destruct Hin as (H1 & H2 & H3).
  unfold sx_assert, rw_assert, mtx_assert, mtx_owned, rtems_bsd_mutex_owned.
  rewrite H1 H2. split_and!; [| |intros E; rewrite (H3 E)];
    case_bool_decide; simpl; naive_solver.
Qed.

End ClassSpec.

#[local] Existing Instance prio_queue.
#[local] Existing Instance prio_queue_laws.

Lemma rw_hold_is_exclusive_witness :
  exists lk : lock_object (list thread),
    rw_assert 1%nat lk LA_XLOCKED = KOk tt /\
    rw_try_rlock 2%nat lk (rc_incr 1%nat ∅) =
      KOk (false, lk, rc_incr 1%nat ∅).
Proof.
  assert (Hr : rw_reachable (HQ := prio_queue by_number)
            (rw_init_flags (HQ := prio_queue by_number) "rw" 0, ∅)
            (on_mtx (set_owner (Some 1%nat)) (rw_init_flags (HQ := prio_queue by_number) "rw" 0),
             rc_incr 1%nat ∅) [Got 1%nat]).
  { eapply (rw_reach_step _ _ _ [] 1%nat CRlock); [constructor| |reflexivity].
    apply (bool_decide_unpack _). by vm_compute. }
  eexists.
  destruct (rw_hold_is_exclusive (HQ := prio_queue by_number) (HL := prio_queue_laws by_number)
              "rw" 0 ∅ _ _ _ 1%nat Hr ltac:(reflexivity)) as (Ha & _ & Ht).
  split; [exact Ha|]. by apply (Ht 2%nat).
Defined.

Lemma locked_assertions_exact_witness :
  sx_assert 1%nat contended LA_SLOCKED = KOk tt.
Proof.
  destruct (locked_assertions_exact 1%nat contended
              LA_SLOCKED LA_SLOCKED) as (Hsx & _).
  - apply (bool_decide_unpack _). by vm_compute.
  - apply (bool_decide_unpack _). by vm_compute.
  - apply Hsx. split; [reflexivity|]. split; intros E; discriminate E.
Defined.
