(* ===== verification/LockMgr.v ===== *)
(** * lockmgr

    Model of [rtems-kernel-lockmgr.c]: the VFS lock manager of the port.  A
    [struct lock] is a lock object (a BSD mutex) and the word [lk_lock], which
    tracks the shared/exclusive bookkeeping the VFS looks at although the mutex
    below is always exclusive.  [lk_recurse] is the macro name of the mutex
    nest level.

    A request that finds the mutex taken suspends the caller; the statements
    after [rtems_bsd_mutex_lock] run when the caller owns the mutex.  They are
    the definitions [slock_locked] and [xlock_locked], which both the direct
    and the resumed request run. *)

From S2P Require Import Prelude BsdMutex BsdMutexSpec LockClasses.

(** ** The lock word and the request flags *)

Definition LK_SHARE : Z := 0x01.
Definition LK_SHARED_WAITERS : Z := 0x02.
Definition LK_EXCLUSIVE_WAITERS : Z := 0x04.
Definition LK_EXCLUSIVE_SPINNERS : Z := 0x08.
Definition LK_WRITER_RECURSED : Z := 0x10.
Definition LK_ALL_WAITERS : Z := Z.lor LK_SHARED_WAITERS LK_EXCLUSIVE_WAITERS.
Definition LK_SHARERS_SHIFT : Z := 5.
Definition LK_ONE_SHARER : Z := Z.shiftl 1 LK_SHARERS_SHIFT.
Definition LK_SHARERS_LOCK (x : Z) : Z := Z.lor (Z.shiftl x LK_SHARERS_SHIFT) LK_SHARE.
Definition LK_UNLOCKED : Z := LK_SHARERS_LOCK 0.

Definition LK_CANRECURSE : Z := 0x000001.
Definition LK_NODUP : Z := 0x000002.
Definition LK_NOPROFILE : Z := 0x000004.
Definition LK_NOSHARE : Z := 0x000008.
Definition LK_NOWITNESS : Z := 0x000010.
Definition LK_QUIET : Z := 0x000020.
Definition LK_IS_VNODE : Z := 0x000080.
Definition LK_INIT_MASK : Z := 0x0001FF.
Definition LK_INTERLOCK : Z := 0x000100.
Definition LK_NOWAIT : Z := 0x000200.
Definition LK_ADAPTIVE : Z := 0x004000.
Definition LK_TYPE_MASK : Z := 0xFF0000.
Definition LK_DOWNGRADE : Z := 0x010000.
Definition LK_DRAIN : Z := 0x020000.
Definition LK_EXCLOTHER : Z := 0x040000.
Definition LK_EXCLUSIVE : Z := 0x080000.
Definition LK_RELEASE : Z := 0x100000.
Definition LK_SHARED : Z := 0x200000.
Definition LK_UPGRADE : Z := 0x400000.
Definition LK_TRYUPGRADE : Z := 0x800000.

Definition EBUSY : Z := 16.

(** [lk_lock] is a [uintptr_t]; the model takes the 32 bits of the smaller
    targets. *)
Definition uptr : Z -> Z := u32.

Section LockMgr.
Context {Q : Type} `{HQ : ThreadQueue Q}.

Record lock := Lock {
  lk_object : lock_object Q;
  lk_lock : Z;
  lk_exslpfail : Z;
  lk_pri : Z;
  lk_timo : Z;
}.

Implicit Types (lk : lock) (rc : rescnt) (executing : thread)
  (ilk : option (lock_object Q)) (flags x : Z).

Definition set_lk_object (o : lock_object Q) lk : lock :=
  Lock o (lk_lock lk) (lk_exslpfail lk) (lk_pri lk) (lk_timo lk).
Definition set_lk_lock (x : Z) lk : lock :=
  Lock (lk_object lk) x (lk_exslpfail lk) (lk_pri lk) (lk_timo lk).
Definition on_lo_flags (f : lock_flags -> lock_flags) lk : lock :=
  set_lk_object (set_lo_flags (f (lo_flags (lk_object lk))) (lk_object lk)) lk.

Definition lk_recurse lk : Z := nest_level (lo_mtx (lk_object lk)).

(** The result of a request: the caller's status, the error code, the lock,
    the interlock and the resource counts. *)
Record lk_reply := Reply {
  rp_acquire : acquire;
  rp_error : Z;
  rp_lock : lock;
  rp_ilk : option (lock_object Q);
  rp_rc : rescnt;
}.

Definition lockmgr_xholder lk : option thread :=
  if has_bits (lk_lock lk) LK_SHARE then None else q_owner (lo_mtx (lk_object lk)).

(** [lockmgr_exit] drops the interlock the caller passed in. *)
Definition lockmgr_exit executing flags ilk rc : kres (option (lock_object Q) * rescnt) :=
  if has_bits flags LK_INTERLOCK then
    match ilk with
    | Some l => kbind (fun '(l', rc') => KOk (Some l', rc'))
                  (lc_unlock (lock_class_of l) executing l rc)
    | None => KPanic AssertFailed
    end
  else KOk (ilk, rc).

Definition finish executing flags ilk (error : Z) lk rc : kres lk_reply :=
  kbind (fun '(ilk', rc') => KOk (Reply Acquired error lk ilk' rc'))
    (lockmgr_exit executing flags ilk rc).

Definition slock_locked executing lk flags ilk rc : kres lk_reply :=
  finish executing flags ilk 0 (set_lk_lock (uptr (lk_lock lk + LK_ONE_SHARER)) lk) rc.

Definition lockmgr_slock_hard executing lk flags ilk rc : kres lk_reply :=
  kbind (fun '(a, o, rc') =>
           match a with
           | Acquired => slock_locked executing (set_lk_object o lk) flags ilk rc'
           | Blocked => KOk (Reply Blocked 0 (set_lk_object o lk) ilk rc')
           end)
    (rtems_bsd_mutex_lock executing (lk_object lk) rc).

Definition xlock_locked executing lk flags ilk rc : kres lk_reply :=
  finish executing flags ilk 0 (set_lk_lock 0 lk) rc.

Definition lockmgr_xlock_hard executing lk flags ilk rc : kres lk_reply :=
  if has_bits flags LK_NOWAIT then
    kbind (fun '(b, o, rc') =>
             if (b : bool) then xlock_locked executing (set_lk_object o lk) flags ilk rc'
             else finish executing flags ilk EBUSY (set_lk_object o lk) rc')
      (rtems_bsd_mutex_trylock executing (lk_object lk) rc)
  else
    kbind (fun '(a, o, rc') =>
             match a with
             | Acquired => xlock_locked executing (set_lk_object o lk) flags ilk rc'
             | Blocked => KOk (Reply Blocked 0 (set_lk_object o lk) ilk rc')
             end)
      (rtems_bsd_mutex_lock executing (lk_object lk) rc).

Definition lockmgr_upgrade executing lk flags ilk rc : kres lk_reply :=
  finish executing flags ilk 0
    (set_lk_lock (Z.land (lk_lock lk) (uptr (Z.lnot LK_SHARE))) lk) rc.

Definition lockmgr_downgrade lk : lock :=
  set_lk_lock (Z.land (lk_lock lk) LK_ALL_WAITERS) lk.

Definition lockmgr_lock_flags (panicstr : bool) executing lk flags ilk rc : kres lk_reply :=
  if panicstr then KOk (Reply Acquired 0 lk ilk rc)
  else
    let op := Z.land flags LK_TYPE_MASK in
    if (op =? LK_SHARED) && negb (lo_noshare (lo_flags (lk_object lk)))
    then lockmgr_slock_hard executing lk flags ilk rc
    else if (op =? LK_SHARED) || (op =? LK_EXCLUSIVE)
    then lockmgr_xlock_hard executing lk flags ilk rc
    else if (op =? LK_UPGRADE) || (op =? LK_TRYUPGRADE)
    then lockmgr_upgrade executing lk flags ilk rc
    else if op =? LK_DOWNGRADE
    then KOk (Reply Acquired 0 (lockmgr_downgrade lk) ilk rc)
    else KPanic UnsupportedOp.

Definition lockmgr_sunlock_hard executing lk flags ilk rc : kres lk_reply :=
  let x := lk_lock lk in
  if x =? LK_UNLOCKED then KPanic SunlockNotLocked
  else
    let lk1 := set_lk_lock (uptr (x - LK_ONE_SHARER)) lk in
    kbind (fun '(o, rc') => finish executing flags ilk 0 (set_lk_object o lk1) rc')
      (rtems_bsd_mutex_unlock executing (lk_object lk1) rc).

Definition lockmgr_xunlock_hard executing lk flags ilk rc : kres lk_reply :=
  let lk1 :=
    if lk_recurse lk =? 0 then
      let x := lk_lock lk in
      let x' := if negb (x =? 0) then uptr (x - LK_ONE_SHARER) else x in
      set_lk_lock (Z.lor x' LK_SHARE) lk
    else lk in
  kbind (fun '(o, rc') => finish executing flags ilk 0 (set_lk_object o lk1) rc')
    (rtems_bsd_mutex_unlock executing (lk_object lk1) rc).

Definition lockmgr_unlock (panicstr : bool) executing lk rc : kres lk_reply :=
  if panicstr then KOk (Reply Acquired 0 lk None rc)
  else if has_bits (lk_lock lk) LK_SHARE
  then lockmgr_sunlock_hard executing lk LK_RELEASE None rc
  else lockmgr_xunlock_hard executing lk LK_RELEASE None rc.

Definition lockstatus executing lk : Z :=
  let x := lk_lock lk in
  if negb (has_bits x LK_SHARE) then
    if rtems_bsd_mutex_owned executing (lk_object lk) then LK_EXCLUSIVE else LK_EXCLOTHER
  else if x =? LK_UNLOCKED then 0
  else LK_SHARED.

Definition with_recursable (b : bool) (fl : lock_flags) : lock_flags :=
  LockFlags (lo_initialized fl) b (lo_sleepable fl) (lo_upgradable fl)
    (lo_dupok fl) (lo_noprofile fl) (lo_witness fl) (lo_quiet fl)
    (lo_is_vnode fl) (lo_noshare fl) (lo_adaptive fl).
Definition with_noshare (b : bool) (fl : lock_flags) : lock_flags :=
  LockFlags (lo_initialized fl) (lo_recursable fl) (lo_sleepable fl) (lo_upgradable fl)
    (lo_dupok fl) (lo_noprofile fl) (lo_witness fl) (lo_quiet fl)
    (lo_is_vnode fl) b (lo_adaptive fl).

Definition lockallowrecurse lk : lock := on_lo_flags (with_recursable true) lk.
Definition lockallowshare lk : lock := on_lo_flags (with_noshare false) lk.
Definition lockdisablerecurse lk : lock := on_lo_flags (with_recursable false) lk.
Definition lockdisableshare lk : lock := on_lo_flags (with_noshare true) lk.

Definition lockinit (pri : Z) (wmesg : string) (timo flags : Z) : lock :=
  let iflags :=
    LockFlags false (has_bits flags LK_CANRECURSE) true true
      (negb (has_bits flags LK_NODUP)) (has_bits flags LK_NOPROFILE)
      (negb (has_bits flags LK_NOWITNESS)) (has_bits flags LK_QUIET)
      (has_bits flags LK_IS_VNODE) (has_bits flags LK_NOSHARE)
      (has_bits flags LK_ADAPTIVE) in
  Lock (rtems_bsd_mutex_init ClsLockmgr wmesg iflags) LK_UNLOCKED 0 pri timo.

(** With the [KASSERT]s of the source checked. *)
Definition lockdestroy executing lk rc : kres (lock * rescnt) :=
  if (lk_lock lk =? LK_UNLOCKED) && (lk_recurse lk =? 0) && (lk_exslpfail lk =? 0)
  then kbind (fun '(o, rc') => KOk (set_lk_object o lk, rc'))
         (rtems_bsd_mutex_destroy executing (lk_object lk) rc)
  else KPanic AssertFailed.

Definition lockmgr_args (panicstr : bool) executing lk flags ilk rc : kres lk_reply :=
  let op := Z.land flags LK_TYPE_MASK in
  if panicstr then KOk (Reply Acquired 0 lk ilk rc)
  else
    let noshare := lo_noshare (lo_flags (lk_object lk)) in
    let op' := if noshare && (op =? LK_SHARED) then LK_EXCLUSIVE else op in
    if noshare && ((op =? LK_UPGRADE) || (op =? LK_TRYUPGRADE) || (op =? LK_DOWNGRADE))
    then finish executing flags ilk 0 lk rc
    else if op' =? LK_SHARED then lockmgr_slock_hard executing lk flags ilk rc
    else if (op' =? LK_UPGRADE) || (op' =? LK_TRYUPGRADE)
    then lockmgr_upgrade executing lk flags ilk rc
    else if op' =? LK_EXCLUSIVE then lockmgr_xlock_hard executing lk flags ilk rc
    else if op' =? LK_DOWNGRADE then finish executing flags ilk 0 (lockmgr_downgrade lk) rc
    else if op' =? LK_RELEASE then
      if has_bits (lk_lock lk) LK_SHARE
      then lockmgr_sunlock_hard executing lk flags ilk rc
      else lockmgr_xunlock_hard executing lk flags ilk rc
    else if op' =? LK_DRAIN then finish executing flags ilk 0 lk rc
    else kbind (fun _ => KPanic UnsupportedOp) (lockmgr_exit executing flags ilk rc).

(** [lockmgr_xlocked] and [lockmgr_disowned] as this file redefines them. *)
Definition lockmgr_xlocked executing lk : bool := rtems_bsd_mutex_owned executing (lk_object lk).
Definition lockmgr_disowned executing lk : bool :=
  negb (rtems_bsd_mutex_owned executing (lk_object lk)).
Definition lockmgr_recursed lk : bool := has_bits (lk_lock lk) LK_WRITER_RECURSED.

Definition lockmgr_check_recursion (what : Z) lk : kres unit :=
  if lockmgr_recursed lk
  then if has_bits what LA_NOTRECURSED then KPanic Recursed else KOk tt
  else if has_bits what LA_RECURSED then KPanic Unrecursed else KOk tt.

Definition lockmgr_assert (panicstr : bool) executing lk (what : Z) : kres unit :=
  let share := has_bits (lk_lock lk) LK_SHARE in
  if panicstr then KOk tt
  else if what_in what [LA_SLOCKED; LA_LOCKED] then
    let slocked := what_in what [LA_SLOCKED] in
    if (lk_lock lk =? LK_UNLOCKED) ||
       (negb share && (slocked || (negb (lockmgr_xlocked executing lk)
                                   && negb (lockmgr_disowned executing lk))))
    then KPanic NotOwned
    else if negb share then lockmgr_check_recursion what lk
    else KOk tt
  else if what_in what [LA_XLOCKED] then
    if negb (lockmgr_xlocked executing lk) && negb (lockmgr_disowned executing lk)
    then KPanic NotOwned
    else lockmgr_check_recursion what lk
  else if what =? LA_UNLOCKED then
    if lockmgr_xlocked executing lk || lockmgr_disowned executing lk
    then KPanic Owned else KOk tt
  else KPanic UnknownAssert.

End LockMgr.

Arguments lock Q : clear implicits.
Arguments lk_reply Q : clear implicits.
