(* ===== verification/LockMgrSpec.v ===== *)
(** * Correctness of lockmgr

    The lock word follows the mutex over every interleaving of requests in
    which holders keep to a discipline, and what happens when they do not. *)

From S2P Require Import Prelude BsdMutex BsdMutexSpec LockClasses LockMgr.

(** ** Bits of the lock word *)

Lemma land_mod (a m : Z) (n : Z) :
  0 <= n -> Z.land (Z.ones n) m = m -> Z.land a m = Z.land (a mod 2 ^ n) m.
Proof. intros Hn Hm. by rewrite -Z.land_ones // -Z.land_assoc Hm. Qed.

Lemma shared_word_share k : has_bits (32 * k + 1) LK_SHARE = true.
Proof.
  unfold has_bits, LK_SHARE. rewrite (land_mod _ _ 1) //.
  replace ((32 * k + 1) mod 2 ^ 1) with 1; [done|].
  apply (Z.mod_unique _ _ (16 * k)); lia.
Qed.

Lemma shared_word_waiters k : Z.land (32 * k + 1) LK_ALL_WAITERS = 0.
Proof.
  change LK_ALL_WAITERS with 6. rewrite (land_mod _ _ 3) //.
  replace ((32 * k + 1) mod 2 ^ 3) with 1; [done|].
  apply (Z.mod_unique _ _ (4 * k)); lia.
Qed.

Section Spec.
Context {Q : Type} `{HQ : ThreadQueue Q} `{HL : !ThreadQueueLaws Q}.

Implicit Types (lk : lock Q) (rc : rescnt) (t : thread).

(** ** The system: one lock, the threads suspended inside a request *)

Inductive pend_op := PShared | PExcl.

Record lk_sys := Sys { sy_lock : lock Q; sy_rc : rescnt; sy_pend : gmap nat pend_op }.

Definition sy_owner (s : lk_sys) : option thread := q_owner (lo_mtx (lk_object (sy_lock s))).
Definition sy_nest (s : lk_sys) : Z := lk_recurse (sy_lock s).
Definition sy_word (s : lk_sys) : Z := lk_lock (sy_lock s).
Definition sy_waiting (s : lk_sys) : list thread := waiting (lk_object (sy_lock s)).

Inductive lk_request := RShared | RExclusive | RTryExclusive | RUpgrade | RDowngrade | RRelease.

Definition request_flags (r : lk_request) : Z :=
  match r with
  | RShared => LK_SHARED
  | RExclusive => LK_EXCLUSIVE
  | RTryExclusive => Z.lor LK_EXCLUSIVE LK_NOWAIT
  | RUpgrade => LK_UPGRADE
  | RDowngrade => LK_DOWNGRADE
  | RRelease => LK_RELEASE
  end.

Definition pend_of (s : lk_sys) (r : lk_request) : pend_op :=
  match r with
  | RShared => if lo_noshare (lo_flags (lk_object (sy_lock s))) then PExcl else PShared
  | _ => PExcl
  end.

(** A request through [lockmgr_args], without interlock. *)
Definition lk_step t (r : lk_request) (s : lk_sys) : kres lk_sys :=
  kbind (fun rp =>
           KOk (Sys (rp_lock rp) (rp_rc rp)
                  (match rp_acquire rp with
                   | Acquired => sy_pend s
                   | Blocked => <[t := pend_of s r]> (sy_pend s)
                   end)))
    (lockmgr_args false t (sy_lock s) (request_flags r) None (sy_rc s)).

(** A suspended request goes on once its thread owns the mutex. *)
Definition lk_resume t (p : pend_op) (s : lk_sys) : kres lk_sys :=
  kbind (fun rp => KOk (Sys (rp_lock rp) (rp_rc rp) (delete t (sy_pend s))))
    (match p with
     | PShared => slock_locked t (sy_lock s) LK_SHARED None (sy_rc s)
     | PExcl => xlock_locked t (sy_lock s) LK_EXCLUSIVE None (sy_rc s)
     end).

(** The discipline: only the owner upgrades, downgrades and releases; it
    upgrades an unnested hold; inside an exclusive hold it takes at most one
    shared hold; nesting stays below the width of the word. *)
Definition disciplined t (r : lk_request) (s : lk_sys) : Prop :=
  match r with
  | RShared =>
      sy_nest s < 2 ^ 26 /\
      (sy_owner s = Some t -> has_bits (sy_word s) LK_SHARE = false -> sy_word s = 0)
  | RExclusive | RTryExclusive => True
  | RUpgrade => sy_owner s = Some t /\ sy_nest s = 0
  | RDowngrade | RRelease => sy_owner s = Some t
  end.

Inductive lk_reachable (s0 : lk_sys) : lk_sys -> Prop :=
  | lk_reach_init : lk_reachable s0 s0
  | lk_reach_step s t r s' :
      lk_reachable s0 s -> t ∉ sy_waiting s -> sy_pend s !! t = None ->
      disciplined t r s -> lk_step t r s = KOk s' -> lk_reachable s0 s'
  | lk_reach_resume s t p s' :
      lk_reachable s0 s -> sy_pend s !! t = Some p -> sy_owner s = Some t ->
      lk_resume t p s = KOk s' -> lk_reachable s0 s'.

(** ** The invariant *)

Definition word_ok (s : lk_sys) : Prop :=
  match sy_owner s with
  | None => sy_word s = LK_UNLOCKED
  | Some t =>
      match sy_pend s !! t with
      | Some _ => sy_word s = LK_UNLOCKED /\ sy_nest s = 0
      | None => sy_word s = 0 \/ sy_word s = LK_ONE_SHARER \/
                (sy_word s = 32 * (sy_nest s + 1) + 1 /\ sy_nest s <= 2 ^ 26)
      end
  end.

Record lk_inv (s : lk_sys) : Prop := {
  inv_mutex : mutex_ok (lk_object (sy_lock s));
  inv_word : word_ok s;
  inv_waiting : forall t, t ∈ sy_waiting s -> is_Some (sy_pend s !! t);
  inv_pend : forall t, is_Some (sy_pend s !! t) -> t ∈ sy_waiting s \/ sy_owner s = Some t;
}.

Lemma lk_init_inv pri wmesg timo flags rc : lk_inv (Sys (lockinit pri wmesg timo flags) rc ∅).
Proof.
  split; simpl.
  - apply mutex_init_ok.
  - done.
  - intros t. rewrite /sy_waiting /waiting /= tq_waiting_empty. by intros ?%elem_of_nil.
  - intros t. rewrite lookup_empty. by intros [].
Qed.

(** What a completed mutex call does to the owner, nest level and waiters. *)
Lemma lock_acquired_view t (o o' : lock_object Q) rc rc' :
  mutex_ok o -> rtems_bsd_mutex_lock t o rc = KOk (Acquired, o', rc') ->
  q_owner (lo_mtx o') = Some t /\ waiting o' = waiting o /\
  ((q_owner (lo_mtx o) = None /\ nest_level (lo_mtx o') = 0) \/
   (q_owner (lo_mtx o) = Some t /\ nest_level (lo_mtx o') = nest_level (lo_mtx o) + 1)).
Proof.
  intros Hok Hl. destruct (lock_cases t o rc) as [E|E R|E R|t' E Hne]; simplify_eq; simpl.
  - split_and!; [done|done|]. left. by destruct (ok_free _ Hok E).
  - split_and!; [done|done|]. by right.
Qed.

Lemma lock_blocked_view t (o o' : lock_object Q) rc rc' :
  rtems_bsd_mutex_lock t o rc = KOk (Blocked, o', rc') ->
  q_owner (lo_mtx o') = q_owner (lo_mtx o) /\ nest_level (lo_mtx o') = nest_level (lo_mtx o) /\
  waiting o' ≡ₚ t :: waiting o /\ q_owner (lo_mtx o) <> Some t /\
  (exists t', q_owner (lo_mtx o) = Some t').
Proof.
  intros Hl. destruct (lock_cases t o rc) as [E|E R|E R|t' E Hne]; simplify_eq; simpl.
  split_and!; [done|done|apply tq_waiting_enqueue|congruence|eauto].
Qed.

Lemma unlock_view t (o o' : lock_object Q) rc rc' :
  rtems_bsd_mutex_unlock t o rc = KOk (o', rc') ->
  q_owner (lo_mtx o) = Some t /\
  ((nest_level (lo_mtx o) <> 0 /\ q_owner (lo_mtx o') = Some t /\
    nest_level (lo_mtx o') = nest_level (lo_mtx o) - 1 /\ waiting o' = waiting o) \/
   (nest_level (lo_mtx o) = 0 /\ q_owner (lo_mtx o') = None /\ nest_level (lo_mtx o') = 0 /\
    waiting o = [] /\ waiting o' = []) \/
   (nest_level (lo_mtx o) = 0 /\ nest_level (lo_mtx o') = 0 /\
    exists t', q_owner (lo_mtx o') = Some t' /\ waiting o ≡ₚ t' :: waiting o')).
Proof.
  intros Hu. destruct (unlock_cases t o rc) as [E|E N|E N W|t' q' rc'' E N P]; simplify_eq; simpl.
  - split; [done|]. by left.
  - split; [done|]. right; left. by unfold waiting in *.
  - split; [done|]. right; right. split_and!; [done|done|]. by exists t'.
Qed.

(** A successful unlock never depends on [lk_lock]; one by the owner returns. *)
Lemma unlock_owner_returns t (o : lock_object Q) rc :
  q_owner (lo_mtx o) = Some t -> exists o' rc', rtems_bsd_mutex_unlock t o rc = KOk (o', rc').
Proof. intros E. destruct (unlock_cases t o rc); eauto. done. Qed.

(** The invariant after the owner's part of a request, and after waiting. *)
Lemma inv_after_acquire t s o' rc' rc'' x :
  lk_inv s -> t ∉ sy_waiting s -> sy_pend s !! t = None ->
  rtems_bsd_mutex_lock t (lk_object (sy_lock s)) (sy_rc s) = KOk (Acquired, o', rc') ->
  (sy_owner s = None -> x = 0 \/ x = 33) ->
  (sy_owner s = Some t ->
     x = 0 \/ x = LK_ONE_SHARER \/ (x = 32 * (sy_nest s + 2) + 1 /\ sy_nest s < 2 ^ 26)) ->
  lk_inv (Sys (set_lk_lock x (set_lk_object o' (sy_lock s))) rc'' (sy_pend s)).
Proof.
  intros [Hm Hw Hwt Hp] Hnw Hnp Hl Hf Ho.
  pose proof (lock_preserves_ok _ _ _ _ _ _ Hm Hnw Hl) as Hm'.
  destruct (lock_acquired_view _ _ _ _ _ Hm Hl) as (E1 & E2 & E3).
  split; simpl; [done| | |].
  - unfold word_ok, sy_owner, sy_nest, sy_word, lk_recurse in *. simpl. rewrite E1 Hnp.
    destruct E3 as [[E3 E4]|[E3 E4]]; rewrite E4.
    + destruct (Hf E3) as [->| ->]; [by left|]. right; right. split; [done|lia].
    + destruct (Ho E3) as [->|[->|[-> ?]]]; [by left|by right; left|].
      right; right. split; [lia|lia].
  - intros t'. unfold sy_waiting. simpl. rewrite E2. apply Hwt.
  - intros t' Hs. unfold sy_waiting, sy_owner in *. simpl. rewrite E1 E2.
    destruct (Hp t' Hs) as [?|E]; [by left|].
    destruct E3 as [[E3 _]|[E3 _]]; rewrite E3 in E; [done|]. by right.
Qed.

Lemma inv_after_block t s p o' rc' rc'' :
  lk_inv s -> t ∉ sy_waiting s ->
  rtems_bsd_mutex_lock t (lk_object (sy_lock s)) (sy_rc s) = KOk (Blocked, o', rc') ->
  lk_inv (Sys (set_lk_object o' (sy_lock s)) rc'' (<[t := p]> (sy_pend s))).
Proof.
  intros [Hm Hw Hwt Hp] Hnw Hl.
  pose proof (lock_preserves_ok _ _ _ _ _ _ Hm Hnw Hl) as Hm'.
  destruct (lock_blocked_view _ _ _ _ _ Hl) as (E1 & E2 & E3 & E4 & o & E5).
  split; simpl; [done| | |].
  - unfold word_ok, sy_owner, sy_nest, sy_word, lk_recurse in *. simpl.
    rewrite E1 E2 E5 lookup_insert_ne; [congruence|]. by rewrite E5 in Hw.
  - intros t'. unfold sy_waiting. simpl. rewrite E3 elem_of_cons lookup_insert.
    case_decide; [eauto|]. intros [->|?]; [done|by apply Hwt].
  - intros t'. unfold sy_waiting, sy_owner in *. simpl. rewrite E1 E3 elem_of_cons lookup_insert.
    case_decide; [by left; left|]. intros Hs. destruct (Hp t' Hs); auto.
Qed.

(** After a release: still nested with the word [x], or given up with the word
    [LK_UNLOCKED]. *)
Lemma inv_after_unlock t s x o' rc' rc'' :
  lk_inv s -> sy_pend s !! t = None ->
  rtems_bsd_mutex_unlock t (lk_object (sy_lock s)) (sy_rc s) = KOk (o', rc') ->
  (sy_nest s = 0 -> x = LK_UNLOCKED) ->
  (sy_nest s <> 0 -> x = 0 \/ x = LK_ONE_SHARER \/ (x = 32 * sy_nest s + 1 /\ sy_nest s <= 2 ^ 26)) ->
  lk_inv (Sys (set_lk_object o' (set_lk_lock x (sy_lock s))) rc'' (sy_pend s)).
Proof.
  intros [Hm Hw Hwt Hp] Hnp Hu H0 H1.
  pose proof (unlock_preserves_ok _ _ _ _ _ Hm Hu) as Hm'.
  destruct (unlock_view _ _ _ _ _ Hu) as (E1 & E2).
  assert (Hwait : forall t', t' ∈ waiting (lk_object (sy_lock s)) -> is_Some (sy_pend s !! t')) by done.
  unfold sy_nest, lk_recurse in *.
  destruct E2 as [(N & E2 & E3 & E4)|[(N & E2 & E3 & E4 & E5)|(N & E3 & t' & E4 & E5)]];
    split; simpl; try done;
    unfold word_ok, sy_waiting, sy_owner, sy_nest, sy_word, lk_recurse in *; simpl.
  - rewrite E2 Hnp E3. destruct (H1 N) as [->|[->|[-> ?]]]; [by left|by right; left|].
    right; right. split; lia.
  - by rewrite E4.
  - rewrite E2 E4. intros t' Hs. destruct (Hp t' Hs); [by left|]. by right; congruence.
  - by rewrite E2 H0.
  - rewrite E5. by intros ? ?%elem_of_nil.
  - intros t' Hs. destruct (Hp t' Hs) as [Hi|Ho]; [by rewrite E4 in Hi; apply elem_of_nil in Hi|].
    rewrite E1 in Ho. simplify_eq. rewrite Hnp in Hs. by destruct Hs.
  - rewrite E4 E3. destruct (Hwait t') as [p ->]; [rewrite E5; by left|]. by rewrite H0.
  - intros t'' Hi. apply Hwt. rewrite E5. by right.
  - intros t'' Hs. rewrite E4. destruct (Hp t'' Hs) as [Hi|Ho].
    + rewrite E5 elem_of_cons in Hi. destruct Hi as [->|?]; [by right|by left].
    + rewrite E1 in Ho. simplify_eq. rewrite Hnp in Hs. by destruct Hs.
Qed.

(** ** Requests preserve it *)

Lemma finish_plain t flags error lk rc :
  has_bits flags LK_INTERLOCK = false ->
  finish t flags None error lk rc = KOk (Reply Acquired error lk None rc).
Proof. unfold finish, lockmgr_exit. by intros ->. Qed.

Definition noshare_of (s : lk_sys) : bool := lo_noshare (lo_flags (lk_object (sy_lock s))).

Lemma step_shared t s :
  lk_step t RShared s =
  if noshare_of s
  then kbind (fun rp => KOk (Sys (rp_lock rp) (rp_rc rp)
           (match rp_acquire rp with Acquired => sy_pend s | Blocked => <[t := PExcl]> (sy_pend s) end)))
         (lockmgr_xlock_hard t (sy_lock s) LK_SHARED None (sy_rc s))
  else kbind (fun rp => KOk (Sys (rp_lock rp) (rp_rc rp)
           (match rp_acquire rp with Acquired => sy_pend s | Blocked => <[t := PShared]> (sy_pend s) end)))
         (lockmgr_slock_hard t (sy_lock s) LK_SHARED None (sy_rc s)).
Proof. unfold lk_step, lockmgr_args, noshare_of, pend_of. by destruct (lo_noshare _). Qed.

Lemma xlock_inv t s flags s' :
  lk_inv s -> t ∉ sy_waiting s -> sy_pend s !! t = None ->
  has_bits flags LK_INTERLOCK = false -> has_bits flags LK_NOWAIT = false ->
  kbind (fun rp => KOk (Sys (rp_lock rp) (rp_rc rp)
           (match rp_acquire rp with Acquired => sy_pend s | Blocked => <[t := PExcl]> (sy_pend s) end)))
    (lockmgr_xlock_hard t (sy_lock s) flags None (sy_rc s)) = KOk s' -> lk_inv s'.
Proof.
  intros Hi Hw Hp Hf Hn. unfold lockmgr_xlock_hard, xlock_locked. rewrite Hn.
  destruct (rtems_bsd_mutex_lock _ _ _) as [[[[] o] rc']|] eqn:El; simpl; [| |done].
  - rewrite (finish_plain _ _ _ _ _ Hf) /=. intros [= <-].
    eapply inv_after_acquire; eauto.
  - intros [= <-]. by eapply inv_after_block.
Qed.

Lemma slock_inv t s s' :
  lk_inv s -> t ∉ sy_waiting s -> sy_pend s !! t = None -> disciplined t RShared s ->
  kbind (fun rp => KOk (Sys (rp_lock rp) (rp_rc rp)
           (match rp_acquire rp with Acquired => sy_pend s | Blocked => <[t := PShared]> (sy_pend s) end)))
    (lockmgr_slock_hard t (sy_lock s) LK_SHARED None (sy_rc s)) = KOk s' -> lk_inv s'.
Proof.
  intros Hi Hw Hp [Hb Hd]. unfold lockmgr_slock_hard, slock_locked.
  destruct (rtems_bsd_mutex_lock _ _ _) as [[[[] o] rc']|] eqn:El; simpl; [| |done].
  - intros [= <-]. pose proof (inv_word _ Hi) as Hwd.
    pose proof (ok_nest _ (inv_mutex _ Hi)) as Hn0.
    unfold word_ok in Hwd. fold (sy_word s). eapply inv_after_acquire; eauto.
    + intros E. rewrite E in Hwd. rewrite Hwd. by right.
    + intros E. rewrite E Hp in Hwd. unfold sy_nest, lk_recurse in *.
      destruct Hwd as [Hx|[Hx|[Hx ?]]].
      * rewrite Hx. by right; left.
      * rewrite Hx in Hd. by specialize (Hd E eq_refl).
      * right; right. rewrite Hx. unfold uptr. change LK_ONE_SHARER with 32.
        rewrite u32_small; lia.
  - intros [= <-]. by eapply inv_after_block.
Qed.

Lemma trylock_request_inv t s s' :
  lk_inv s -> t ∉ sy_waiting s -> sy_pend s !! t = None ->
  lk_step t RTryExclusive s = KOk s' -> lk_inv s'.
Proof.
  intros Hi Hw Hp. unfold lk_step.
  replace (lockmgr_args false t (sy_lock s) (request_flags RTryExclusive) None (sy_rc s))
    with (lockmgr_xlock_hard t (sy_lock s) (request_flags RTryExclusive) None (sy_rc s))
    by (unfold lockmgr_args; by destruct (lo_noshare _)).
  unfold lockmgr_xlock_hard, xlock_locked. simpl. rewrite trylock_as_lock.
  destruct (rtems_bsd_mutex_lock _ _ _) as [[[[] o] rc']|] eqn:El; simpl; [| |done].
  - intros [= <-]. eapply inv_after_acquire; eauto.
  - intros [= <-]. destruct s as [lk ? ?]. by destruct lk.
Qed.

Lemma set_word_inv t s x :
  lk_inv s -> sy_owner s = Some t -> sy_pend s !! t = None ->
  (x = 0 \/ x = LK_ONE_SHARER) ->
  lk_inv (Sys (set_lk_lock x (sy_lock s)) (sy_rc s) (sy_pend s)).
Proof.
  intros [Hm Hw Hwt Hp] Ho Hn Hx. split; simpl; try done.
  unfold word_ok, sy_owner, sy_word in *. simpl. rewrite Ho Hn. tauto.
Qed.

Lemma upgrade_word x : x = 0 \/ x = LK_ONE_SHARER \/ x = 33 ->
  let y := Z.land x (uptr (Z.lnot LK_SHARE)) in y = 0 \/ y = LK_ONE_SHARER.
Proof. intros [->|[->| ->]]; vm_compute; auto. Qed.

Lemma set_lk_lock_eta lk : set_lk_lock (lk_lock lk) lk = lk.
Proof. by destruct lk. Qed.

Lemma upgrade_inv t s s' :
  lk_inv s -> sy_pend s !! t = None -> disciplined t RUpgrade s ->
  lk_step t RUpgrade s = KOk s' -> lk_inv s'.
Proof.
  intros Hi Hp [Ho Hn]. unfold lk_step, lockmgr_args. simpl.
  destruct (lo_noshare _); simpl; intros [= <-].
  - by destruct s.
  - apply (set_word_inv t); try done. apply upgrade_word.
    pose proof (inv_word _ Hi) as Hw. unfold word_ok in Hw. rewrite Ho Hp Hn in Hw.
    fold (sy_word s). destruct Hw as [?|[?|[? _]]]; auto.
Qed.

Lemma downgrade_inv t s s' :
  lk_inv s -> sy_pend s !! t = None -> disciplined t RDowngrade s ->
  lk_step t RDowngrade s = KOk s' -> lk_inv s'.
Proof.
  intros Hi Hp Ho. unfold lk_step, lockmgr_args. simpl.
  destruct (lo_noshare _); simpl; intros [= <-].
  - by destruct s.
  - apply (set_word_inv t); try done. left.
    pose proof (inv_word _ Hi) as Hw. unfold word_ok in Hw. rewrite Ho Hp in Hw.
    fold (sy_word s). destruct Hw as [->|[->|[-> _]]]; [done|done|].
    apply shared_word_waiters.
Qed.

Lemma release_inv t s s' :
  lk_inv s -> sy_pend s !! t = None -> disciplined t RRelease s ->
  lk_step t RRelease s = KOk s' -> lk_inv s'.
Proof.
  intros Hi Hp Ho. unfold lk_step.
  replace (lockmgr_args false t (sy_lock s) (request_flags RRelease) None (sy_rc s))
    with (if has_bits (sy_word s) LK_SHARE
          then lockmgr_sunlock_hard t (sy_lock s) LK_RELEASE None (sy_rc s)
          else lockmgr_xunlock_hard t (sy_lock s) LK_RELEASE None (sy_rc s))
    by (unfold lockmgr_args; by destruct (lo_noshare _)).
  pose proof (inv_word _ Hi) as Hw. unfold word_ok in Hw. rewrite Ho Hp in Hw.
  pose proof (ok_nest _ (inv_mutex _ Hi)) as Hn0.
  fold (lk_recurse (sy_lock s)) (sy_nest s) in Hn0.
  unfold lockmgr_sunlock_hard, lockmgr_xunlock_hard.
  fold (sy_nest s) (sy_word s).
  assert (Hx : (sy_word s = 0 \/ sy_word s = LK_ONE_SHARER) /\ has_bits (sy_word s) LK_SHARE = false
          \/ (sy_word s = 32 * (sy_nest s + 1) + 1 /\ sy_nest s <= 2 ^ 26) /\
             has_bits (sy_word s) LK_SHARE = true).
  { destruct Hw as [E|[E|[E ?]]]; rewrite E; [left; auto..|].
    right. split; [done|apply shared_word_share]. }
  destruct Hx as [[Hx ->]|[[Hx Hb] ->]].
  - set (x := if sy_nest s =? 0 then LK_UNLOCKED else sy_word s).
    replace (if sy_nest s =? 0 then _ else sy_lock s) with (set_lk_lock x (sy_lock s)).
    2:{ unfold x. destruct (sy_nest s =? 0); [|apply set_lk_lock_eta].
        f_equal. by destruct Hx as [-> | ->]. }
    simpl. destruct (rtems_bsd_mutex_unlock _ _ _) as [[o rc']|] eqn:Eu; simpl; [|done].
    intros [= <-]. eapply inv_after_unlock; eauto; unfold x;
      destruct (sy_nest s =? 0) eqn:En; bool_props; try done; tauto.
  - destruct (sy_word s =? LK_UNLOCKED) eqn:Eq; [done|]. simpl.
    destruct (rtems_bsd_mutex_unlock _ _ _) as [[o rc']|] eqn:Eu; simpl; [|done].
    intros [= <-]. rewrite Hx. unfold uptr. change LK_ONE_SHARER with 32.
    rewrite u32_small; [lia|].
    eapply inv_after_unlock; eauto.
    + intros ->. done.
    + intros. right; right. split; lia.
Qed.

Lemma resume_inv t p s s' :
  lk_inv s -> sy_pend s !! t = Some p -> sy_owner s = Some t ->
  lk_resume t p s = KOk s' -> lk_inv s'.
Proof.
  intros [Hm Hw Hwt Hp] Hpt Ho Hr.
  assert (Hword : exists x, s' = Sys (set_lk_lock x (sy_lock s)) (sy_rc s) (delete t (sy_pend s)) /\
                            (x = 0 \/ x = 33)).
  { unfold word_ok in Hw. rewrite Ho Hpt in Hw. destruct Hw as [Hw _].
    unfold lk_resume, slock_locked, xlock_locked in Hr. fold (sy_word s) in Hr.
    destruct p; simpl in Hr; simplify_eq; rewrite ?Hw; eauto. }
  destruct Hword as (x & -> & Hx). unfold word_ok in Hw. rewrite Ho Hpt in Hw.
  destruct Hw as [_ Hn]. split; simpl; try done.
  - unfold word_ok, sy_owner, sy_nest, sy_word, lk_recurse in *. simpl.
    rewrite Ho lookup_delete_eq. destruct Hx as [->| ->]; [by left|]. right; right. rewrite Hn. done.
  - intros t' Ht'. rewrite lookup_delete_ne; [|by apply Hwt].
    intros ->. by apply (ok_owner _ Hm t').
  - intros t' [q Hq]. apply lookup_delete_Some in Hq as [Hne Hq]. apply Hp. eauto.
Qed.

Lemma lk_step_inv t r s s' :
  lk_inv s -> t ∉ sy_waiting s -> sy_pend s !! t = None -> disciplined t r s ->
  lk_step t r s = KOk s' -> lk_inv s'.
Proof.
  intros Hi Hw Hp Hd. destruct r.
  - rewrite step_shared. destruct (noshare_of s); [by apply xlock_inv|by apply slock_inv].
  - unfold lk_step.
    replace (lockmgr_args false t (sy_lock s) (request_flags RExclusive) None (sy_rc s))
      with (lockmgr_xlock_hard t (sy_lock s) LK_EXCLUSIVE None (sy_rc s))
      by (unfold lockmgr_args; by destruct (lo_noshare _)).
    by apply xlock_inv.
  - by apply trylock_request_inv.
  - by apply (upgrade_inv t).
  - by apply (downgrade_inv t).
  - by apply (release_inv t).
Qed.

Lemma lk_reachable_inv s0 s : lk_inv s0 -> lk_reachable s0 s -> lk_inv s.
Proof.
  intros H0. induction 1; [done|by eapply lk_step_inv|by eapply resume_inv].
Qed.

(** C6: over every disciplined interleaving the lock word follows the mutex:
    [lockstatus] reports an unlocked lock exactly when the mutex is free or has
    just been handed to a thread that is still inside its request, it reports
    an exclusive hold only to the owner, and the owner's release returns. *)
Theorem lockmgr_word_tracks_mutex pri wmesg timo flags rc s t :
  lk_reachable (Sys (lockinit pri wmesg timo flags) rc ∅) s ->
  (lockstatus t (sy_lock s) = 0 <->
     sy_owner s = None \/ exists o, sy_owner s = Some o /\ is_Some (sy_pend s !! o)) /\
  (lockstatus t (sy_lock s) = LK_EXCLUSIVE -> sy_owner s = Some t) /\
  (sy_owner s = Some t -> sy_pend s !! t = None ->
     exists s', lk_step t RRelease s = KOk s').
Proof.
  intros Hr. pose proof (lk_reachable_inv _ _ (lk_init_inv _ _ _ _ _) Hr) as Hi.
  pose proof (inv_word _ Hi) as Hw. pose proof (ok_nest _ (inv_mutex _ Hi)) as Hn.
  fold (lk_recurse (sy_lock s)) (sy_nest s) in Hn.
  unfold lockstatus. fold (sy_word s).
  unfold rtems_bsd_mutex_owned, rtems_bsd_mutex_owner. fold (sy_owner s).
  unfold word_ok in Hw. split_and!.
  - destruct (sy_owner s) as [o|] eqn:Eo; [destruct (sy_pend s !! o) as [p|] eqn:Ep|].
    + destruct Hw as [-> _]. split; [|done]. intros _. right. exists o. eauto.
    + split; [|intros [?|(o' & ? & [? ?])]; congruence].
      destruct Hw as [->|[->|[-> _]]]; [by destruct (bool_decide _)..|].
      rewrite shared_word_share. destruct (_ =? _) eqn:E; bool_props; [|done].
      change LK_UNLOCKED with 1 in E. lia.
    + rewrite Hw. split; [by left|done].
  - destruct (has_bits _ _); simpl; [by destruct (_ =? _)|].
    by case_bool_decide.
  - intros Eo Ep. rewrite Eo Ep in Hw. unfold lk_step, lockmgr_args. simpl.
    rewrite !andb_false_r. fold (sy_word s).
    unfold lockmgr_sunlock_hard, lockmgr_xunlock_hard. fold (sy_word s) (sy_nest s).
    destruct (unlock_owner_returns t (lk_object (sy_lock s)) (sy_rc s) Eo) as (o' & rc' & Hu).
    destruct (has_bits (sy_word s) LK_SHARE) eqn:Es.
    + destruct (_ =? LK_UNLOCKED) eqn:E; bool_props.
      * exfalso. change LK_UNLOCKED with 1 in E.
        destruct Hw as [?|[?|[? _]]]; [lia|change LK_ONE_SHARER with 32 in *; lia|lia].
      * simpl. rewrite Hu /=. eauto.
    + destruct (sy_nest s =? 0); simpl; rewrite Hu /=; eauto.
Qed.

(** A downgrade never makes an exclusive hold shared: the holder of an
    exclusive hold is told [LK_EXCLUSIVE] by [lockstatus] after [LK_DOWNGRADE],
    and every other thread [LK_EXCLOTHER]. *)
Theorem lockmgr_downgrade_stays_exclusive t s :
  sy_owner s = Some t -> has_bits (sy_word s) LK_SHARE = false ->
  exists s', lk_step t RDowngrade s = KOk s' /\
    lockstatus t (sy_lock s') = LK_EXCLUSIVE /\
    forall t', t' <> t -> lockstatus t' (sy_lock s') = LK_EXCLOTHER.
Proof.
  intros Ho Hs. unfold lk_step, lockmgr_args. simpl.
  assert (Hd : has_bits (Z.land (sy_word s) LK_ALL_WAITERS) LK_SHARE = false).
  { unfold has_bits in *. bool_props.
    rewrite -Z.land_assoc (Z.land_comm LK_ALL_WAITERS) Z.land_assoc Hs. done. }
  unfold sy_owner, sy_word in *.
  destruct (lo_noshare _); simpl; eexists; (split; [done|]); simpl;
    unfold lockstatus, lockmgr_downgrade, rtems_bsd_mutex_owned, rtems_bsd_mutex_owner; simpl;
    rewrite ?Hs ?Hd Ho /=; (split; [by rewrite bool_decide_true|]);
    intros t' Hne; rewrite bool_decide_false //; congruence.
Qed.

(** Two of the lock manager's assertions decide nothing: whatever the lock
    and the calling thread, the assertion that the lock is unlocked panics and
    the assertion that it is exclusively locked returns. *)
Theorem lockmgr_assertions_vacuous t lk :
  lockmgr_assert false t lk LA_UNLOCKED = KPanic Owned /\
  lockmgr_assert false t lk LA_XLOCKED = KOk tt.
Proof.
  unfold lockmgr_assert, lockmgr_disowned, lockmgr_xlocked, lockmgr_check_recursion. simpl.
  destruct (rtems_bsd_mutex_owned t (lk_object lk)), (lockmgr_recursed lk); done.
Qed.

Fixpoint lk_run t (rs : list lk_request) (s : lk_sys) : kres lk_sys :=
  match rs with
  | [] => KOk s
  | r :: rs' => kbind (lk_run t rs') (lk_step t r s)
  end.

(** Thread [t] holds the lock of [lockinit] at nest level [n] with word [x]. *)
Definition held_word t (n x : Z) rc : lk_sys :=
  Sys (Lock (LockObject ClsLockmgr (lo_flags (lk_object (lockinit 0 "vnode" 0 LK_CANRECURSE)))
               (BsdMutex "vnode" (Some t) tq_empty n)) x 0 0 0) rc ∅.

(** Outside the discipline the word is left behind.  A thread that takes
    two nested shared holds, upgrades and releases both gives the mutex up, but
    the lock word keeps one sharer: [lockstatus] reports a shared lock that no
    thread holds, and [lockdestroy] fails its assertion. *)
Theorem lockmgr_nested_upgrade_leaks t rc :
  exists s,
    lk_run t [RShared; RShared; RUpgrade; RRelease; RRelease]
      (Sys (lockinit 0 "vnode" 0 LK_CANRECURSE) rc ∅) = KOk s /\
    sy_owner s = None /\ sy_word s = LK_SHARERS_LOCK 1 /\
    lockstatus t (sy_lock s) = LK_SHARED /\
    lockdestroy t (sy_lock s) (sy_rc s) = KPanic AssertFailed.
Proof.
  assert (He : tq_is_empty tq_empty = true) by apply tq_is_empty_spec, tq_waiting_empty.
  assert (E1 : forall rc, lk_step t RShared (Sys (lockinit 0 "vnode" 0 LK_CANRECURSE) rc ∅)
                          = KOk (held_word t 0 33 (rc_incr t rc))) by done.
  assert (E2 : forall rc, lk_step t RShared (held_word t 0 33 rc) = KOk (held_word t 1 65 rc)).
  { intros rc'. rewrite step_shared /= /lockmgr_slock_hard /rtems_bsd_mutex_lock /=.
    by rewrite /rtems_bsd_mutex_lock_more decide_True. }
  assert (E3 : forall rc, lk_step t RUpgrade (held_word t 1 65 rc) = KOk (held_word t 1 64 rc)) by done.
  assert (E4 : forall rc, lk_step t RRelease (held_word t 1 64 rc) = KOk (held_word t 0 64 rc)).
  { intros rc'. rewrite /lk_step /lockmgr_args /= /lockmgr_xunlock_hard /rtems_bsd_mutex_unlock /=.
    by rewrite decide_True. }
  eexists. cbn [lk_run]. rewrite E1. cbn [kbind]. rewrite E2. cbn [kbind]. rewrite E3. cbn [kbind].
  rewrite E4. cbn [kbind].
  rewrite /lk_step /lockmgr_args /= /lockmgr_xunlock_hard /rtems_bsd_mutex_unlock /=.
  rewrite decide_True //= He /=. done.
Qed.

End Spec.

(** ** The theorems at concrete locks *)

#[local] Existing Instance prio_queue.
#[local] Existing Instance prio_queue_laws.

Definition vnode_lock : lk_sys (Q := list thread) :=
  Sys (lockinit (HQ := prio_queue by_number) 0 "vnode" 0 LK_CANRECURSE) ∅ ∅.

Lemma lockmgr_word_tracks_mutex_witness :
  exists s, lk_step (HQ := prio_queue by_number) 1%nat RExclusive vnode_lock = KOk s /\
    (lockstatus 1%nat (sy_lock s) = LK_EXCLUSIVE -> sy_owner s = Some 1%nat).
Proof.
  eexists. split; [reflexivity|].
  eapply (lockmgr_word_tracks_mutex (HQ := prio_queue by_number) (HL := prio_queue_laws by_number)
           0 "vnode" 0 LK_CANRECURSE ∅).
  eapply (lk_reach_step _ vnode_lock 1%nat RExclusive); [constructor| |done|done|reflexivity].
  apply (bool_decide_unpack _). by vm_compute.
Defined.

Lemma lockmgr_downgrade_stays_exclusive_witness :
  exists s s', lk_step (HQ := prio_queue by_number) 1%nat RExclusive vnode_lock = KOk s /\
    lk_step (HQ := prio_queue by_number) 1%nat RDowngrade s = KOk s' /\
    lockstatus 1%nat (sy_lock s') = LK_EXCLUSIVE.
Proof.
  eexists.
  destruct (lockmgr_downgrade_stays_exclusive (HQ := prio_queue by_number) 1%nat
              (Sys (set_lk_lock 0 (set_lk_object (on_mtx (set_owner (Some 1%nat)) (lk_object (sy_lock vnode_lock)))
                      (sy_lock vnode_lock))) (rc_incr 1%nat ∅) ∅) eq_refl eq_refl)
    as (s' & H1 & H2 & _).
  exists s'. split; [reflexivity|]. split; [exact H1|exact H2].
Defined.

Lemma lockmgr_nested_upgrade_leaks_witness :
  exists s,
    lk_run (HQ := prio_queue by_number) 1%nat [RShared; RShared; RUpgrade; RRelease; RRelease]
      vnode_lock = KOk s /\ sy_owner s = None /\ sy_word s = LK_SHARERS_LOCK 1.
Proof.
  destruct (lockmgr_nested_upgrade_leaks (HQ := prio_queue by_number)
              (HL := prio_queue_laws by_number) 1%nat ∅) as (s & H1 & H2 & H3 & _).
  exists s. split; [exact H1|]. split; [exact H2|exact H3].
Defined.
