(* ===== verification/Epoch.v ===== *)
(** * Epoch-based reclamation: definitions

    [rtems-kernel-epoch.c] on top of [ck_epoch.c] and [ck_epoch.h]: readers enter
    and leave sections of an epoch; what a writer has taken out of a shared data
    structure is freed, or its wait ends, only when every section is over that
    may have seen it.  The code is cut at its accesses to what processors share,
    the global epoch and the fields [active] and [epoch] of the records; what lies
    between two of them touches data of the own processor only.  Thread
    dispatching is disabled within the operations of a processor, so at most one
    of them is under way there. *)

From S2P Require Import Prelude.

Definition CK_EPOCH_GRACE := 3.
Definition CK_EPOCH_LENGTH := 4.
Definition CK_EPOCH_SENSE := 2.
Definition CK_EPOCH_SENSE_MASK := CK_EPOCH_SENSE - 1.

(** ** Data *)

(** A callback that is to be called.  [called_at] and [stamp] are not in memory:
    the epoch its [epoch_call] has loaded, and the sections begun until then. *)
Record ck_epoch_entry := EpochEntry { function : nat; called_at : Z; stamp : nat }.

Record ck_epoch_ref := EpochRef { ref_epoch : Z; ref_count : Z }.

(** A record, one per processor; [local_0] and [local_1] are the two buckets, the
    lists of [pending] stacks, the last one pushed first. *)
Record ck_epoch_record := EpochRecord {
  r_epoch : Z;
  r_active : Z;
  local_0 : ck_epoch_ref;
  local_1 : ck_epoch_ref;
  n_pending : Z;
  n_dispatch : Z;
  pending : list (list ck_epoch_entry)
}.

Definition set_r_epoch v (r : ck_epoch_record) :=
  EpochRecord v (r_active r) (local_0 r) (local_1 r) (n_pending r) (n_dispatch r) (pending r).
Definition set_r_active v (r : ck_epoch_record) :=
  EpochRecord (r_epoch r) v (local_0 r) (local_1 r) (n_pending r) (n_dispatch r) (pending r).
Definition set_pending np nd v (r : ck_epoch_record) :=
  EpochRecord (r_epoch r) (r_active r) (local_0 r) (local_1 r) np nd v.

Definition bucket (i : Z) (r : ck_epoch_record) : ck_epoch_ref := if i =? 0 then local_0 r else local_1 r.
Definition set_bucket (i : Z) (v : ck_epoch_ref) (r : ck_epoch_record) : ck_epoch_record :=
  if i =? 0 then EpochRecord (r_epoch r) (r_active r) v (local_1 r) (n_pending r) (n_dispatch r) (pending r)
  else EpochRecord (r_epoch r) (r_active r) (local_0 r) v (n_pending r) (n_dispatch r) (pending r).

(** [ck_epoch_register]. *)
Definition ck_epoch_register : ck_epoch_record :=
  EpochRecord 0 0 (EpochRef 0 0) (EpochRef 0 0) 0 0 (replicate (Z.to_nat CK_EPOCH_LENGTH) []).

(** ** Sections *)

(** [_ck_epoch_addref] behind its load of the global epoch; the bucket is noted in
    the section. *)
Definition ck_epoch_addref (epoch : Z) (r : ck_epoch_record) : ck_epoch_record * Z :=
  let i := Z.land epoch CK_EPOCH_SENSE_MASK in
  let ref := bucket i r in
  let epoch := if ref_count ref =? 0 then epoch else ref_epoch ref in
  (set_bucket i (EpochRef epoch (u32 (ref_count ref + 1))) r, i).

Definition ck_epoch_delref (i : Z) (r : ck_epoch_record) : ck_epoch_record :=
  let current := bucket i r in
  let current := EpochRef (ref_epoch current) (u32 (ref_count current - 1)) in
  let r := set_bucket i current r in
  if 0 <? ref_count current then r
  else
    let other := bucket (Z.land (i + 1) CK_EPOCH_SENSE_MASK) r in
    if (0 <? ref_count other) && (to_int (u32 (ref_epoch current - ref_epoch other)) <? 0)
    then set_r_epoch (ref_epoch other) r else r.

(** ** Callbacks *)

(** [ck_epoch_call] behind its load. *)
Definition ck_epoch_call (x : ck_epoch_entry) (r : ck_epoch_record) : ck_epoch_record :=
  let offset := Z.to_nat (Z.land (called_at x) (CK_EPOCH_LENGTH - 1)) in
  set_pending (u32 (n_pending r + 1)) (n_dispatch r) (alter (cons x) offset (pending r)) r.

(** [ck_epoch_dispatch] with a stack for what is to be run; the peak of the
    pending callbacks is a statistic and left out. *)
Definition ck_epoch_dispatch (e : Z) (s : ck_epoch_record * list ck_epoch_entry) : ck_epoch_record * list ck_epoch_entry :=
  let '(r, deferred) := s in
  let epoch := Z.to_nat (Z.land e (CK_EPOCH_LENGTH - 1)) in
  let head := default [] (pending r !! epoch) in
  let i := Z.of_nat (length head) in
  (set_pending (u32 (n_pending r - i)) (u32 (n_dispatch r + i)) (<[epoch := []]> (pending r)) r,
   foldl (fun deferred entry => entry :: deferred) deferred head).

(** ** Processors *)

(** A section a thread is in; without a bucket it is one of [epoch_enter].  Its
    number and its epoch, at which it has been entered, are not in memory. *)
Record section := InSection { sid : nat; sbucket : option Z; sepoch : Z }.

(** What a processor is about to do: within [ck_epoch_begin], [ck_epoch_end] and
    [ck_epoch_poll_deferred]; [cursor] are the records still to be looked at. *)
Inductive cpu_op :=
  | Op_none
  | Begin_load (section : bool)
  | Begin_store (section : bool) (g_epoch : Z)
  | Addref
  | Delref (i : Z)
  | Poll_scan (epoch : Z) (since : nat) (cursor : list nat) (af : bool)
  | Poll_scan_epoch (epoch : Z) (since : nat) (cr : nat) (cursor : list nat).

(** [calls] are those of [epoch_call] that have loaded the epoch and are yet to
    push their callback; [deferred] what is to be run. *)
Record cpu := Cpu {
  record : ck_epoch_record;
  op : cpu_op;
  sections : list section;
  calls : list ck_epoch_entry;
  deferred : list ck_epoch_entry
}.

Definition set_record v (p : cpu) := Cpu v (op p) (sections p) (calls p) (deferred p).
Definition set_op v (p : cpu) := Cpu (record p) v (sections p) (calls p) (deferred p).
Definition set_sections v (p : cpu) := Cpu (record p) (op p) v (calls p) (deferred p).
Definition set_calls v (p : cpu) := Cpu (record p) (op p) (sections p) v (deferred p).
Definition set_deferred v (p : cpu) := Cpu (record p) (op p) (sections p) (calls p) v.

(** The variables of [ck_epoch_synchronize_wait] and what it does next. *)
Inductive wait_pc :=
  | Wait_scan (cursor : list nat) (af : bool)
  | Wait_scan_epoch (cr : nat) (cursor : list nat)
  | Wait_reload (cr : nat) (cursor : list nat)
  | Wait_cas
  | Wait_done.

Record waiter := Waiter { w_epoch : Z; w_delta : Z; w_i : Z; w_since : nat; w_pc : wait_pc }.

(** [entered] counts the sections that have begun. *)
Record epochs := Epochs { g_epoch : Z; cpus : list cpu; waiters : list waiter; entered : nat }.

Definition set_g_epoch v (s : epochs) := Epochs v (cpus s) (waiters s) (entered s).
Definition set_waiters v (s : epochs) := Epochs (g_epoch s) (cpus s) v (entered s).
Definition set_cpu c p (s : epochs) := Epochs (g_epoch s) (<[c := p]> (cpus s)) (waiters s) (entered s).

(** A section begins. *)
Definition add_section c (b : option Z) (epoch : Z) (p : cpu) (s : epochs) : epochs :=
  let p := set_op Op_none (set_sections (sections p ++ [InSection (entered s) b epoch]) p) in
  Epochs (g_epoch s) (<[c := p]> (cpus s)) (waiters s) (S (entered s)).

(** [_bsd_epoch_init]: the record of the last processor is the first of the stack. *)
Definition epoch_init (cpu_count : nat) : epochs :=
  Epochs 1 (replicate cpu_count (Cpu ck_epoch_register Op_none [] [] [])) [] 0.
Definition records (s : epochs) : list nat := rev (seq 0 (length (cpus s))).

(** ** Operations *)

(** [epoch_enter] and [epoch_enter_preempt] up to the first store. *)
Definition ck_epoch_begin (section : bool) c p (s : epochs) : epochs :=
  let r := record p in
  if r_active r =? 0 then set_cpu c (set_op (Begin_load section) (set_record (set_r_active 1 r) p)) s
  else
    let p := set_record (set_r_active (u32 (r_active r + 1)) r) p in
    if section then set_cpu c (set_op Addref p) s else add_section c None (g_epoch s) p s.

(** [epoch_exit] and [epoch_exit_preempt] of the [j]-th section. *)
Definition ck_epoch_end (j : nat) c p (s : epochs) : epochs :=
  match sections p !! j with
  | Some x =>
      let p := set_sections (delete j (sections p)) (set_record (set_r_active (u32 (r_active (record p) - 1)) (record p)) p) in
      set_cpu c (set_op (match sbucket x with Some i => Delref i | None => Op_none end) p) s
  | None => s
  end.

(** The load of [ck_epoch_poll_deferred] and its first dispatch. *)
Definition poll_start c p (s : epochs) : epochs :=
  let epoch := g_epoch s in
  let '(r, d) := ck_epoch_dispatch (u32 (epoch - 2)) (record p, deferred p) in
  set_cpu c (set_op (Poll_scan epoch (entered s) (records s) false) (set_deferred d (set_record r p))) s.

(** Behind its scan: all processors are inactive. *)
Definition poll_reclaim epoch p : cpu :=
  let '(r, d) := foldl (fun s e => ck_epoch_dispatch e s) (set_r_epoch epoch (record p), deferred p) [0; 1; 2; 3] in
  set_op Op_none (set_deferred d (set_record r p)).

(** Some are active, but in this epoch. *)
Definition poll_advance epoch c p (s : epochs) : epochs :=
  let s := if g_epoch s =? epoch then set_g_epoch (u32 (epoch + 1)) s else s in
  let '(r, d) := ck_epoch_dispatch (u32 (epoch - 1)) (record p, deferred p) in
  set_cpu c (set_op Op_none (set_deferred d (set_record r p))) s.

Definition active_of (s : epochs) (k : nat) : Z := default 0 ((fun q => r_active (record q)) <$> cpus s !! k).
Definition epoch_of (s : epochs) (k : nat) : Z := default 0 ((fun q => r_epoch (record q)) <$> cpus s !! k).

(** The next access to shared data of what is under way on a processor. *)
Definition advance c p (s : epochs) : epochs :=
  match op p with
  | Op_none => s
  | Begin_load section => set_cpu c (set_op (Begin_store section (g_epoch s)) p) s
  | Begin_store section v =>
      let p := set_record (set_r_epoch v (record p)) p in
      if section then set_cpu c (set_op Addref p) s else add_section c None (g_epoch s) p s
  | Addref =>
      let '(r, i) := ck_epoch_addref (g_epoch s) (record p) in
      add_section c (Some i) (ref_epoch (bucket i r)) (set_record r p) s
  | Delref i => set_cpu c (set_op Op_none (set_record (ck_epoch_delref i (record p)) p)) s
  | Poll_scan epoch since (k :: cursor) af =>
      if active_of s k =? 0 then set_cpu c (set_op (Poll_scan epoch since cursor af) p) s
      else set_cpu c (set_op (Poll_scan_epoch epoch since k cursor) p) s
  | Poll_scan_epoch epoch since k cursor =>
      if epoch_of s k =? epoch then set_cpu c (set_op (Poll_scan epoch since cursor true) p) s
      else set_cpu c (set_op Op_none p) s
  | Poll_scan epoch since [] af =>
      if af then poll_advance epoch c p s else set_cpu c (poll_reclaim epoch p) s
  end.

(** ** Waiting *)

Definition wait_start (s : epochs) : epochs :=
  set_waiters (waiters s ++ [Waiter (g_epoch s) (g_epoch s) 0 (entered s) (Wait_scan (records s) false)]) s.

Definition set_w_pc pc (w : waiter) := Waiter (w_epoch w) (w_delta w) (w_i w) (w_since w) pc.
Definition set_w_delta v (w : waiter) := Waiter (w_epoch w) v (w_i w) (w_since w) (w_pc w).
Definition set_w_i v (w : waiter) := Waiter (w_epoch w) (w_delta w) v (w_since w) (w_pc w).

(** The next access of [ck_epoch_synchronize_wait]; while it is blocked the thread
    waits for the reader or spins, which changes nothing here. *)
Definition wait_next (w : waiter) (s : epochs) : waiter * epochs :=
  match w_pc w with
  | Wait_scan (k :: cursor) af =>
      (set_w_pc (if active_of s k =? 0 then Wait_scan cursor af else Wait_scan_epoch k cursor) w, s)
  | Wait_scan_epoch k cursor =>
      (set_w_pc (if epoch_of s k =? w_delta w then Wait_scan cursor true else Wait_reload k cursor) w, s)
  | Wait_reload k cursor =>
      let e_d := g_epoch s in
      if e_d =? w_delta w then (set_w_pc (Wait_scan (k :: cursor) true) w, s)
      else
        let goal := u32 (w_epoch w + CK_EPOCH_GRACE) in
        let w := set_w_delta e_d w in
        if (w_epoch w <? goal) && (goal <=? e_d) then (set_w_pc Wait_done w, s)
        else (set_w_pc (Wait_scan (records s) false) w, s)
  | Wait_scan [] af => (set_w_pc (if af then Wait_cas else Wait_done) w, s)
  | Wait_cas =>
      let '(delta, s) :=
        if g_epoch s =? w_delta w then (u32 (w_delta w + 1), set_g_epoch (u32 (w_delta w + 1)) s) else (g_epoch s, s) in
      let i := w_i w + 1 in
      (set_w_pc (if i <? CK_EPOCH_GRACE - 1 then Wait_scan (records s) false else Wait_done) (set_w_i i (set_w_delta delta w)), s)
  | Wait_done => (w, s)
  end.

(** ** Steps *)

(** There are fewer trackers than an [unsigned int] can count, and a section of
    [epoch_enter] is left before the thread goes on to leave one of
    [epoch_enter_preempt]. *)
Inductive epoch_step : epochs -> epochs -> Prop :=
  | es_enter c p section s :
      cpus s !! c = Some p -> op p = Op_none -> Z.of_nat (length (sections p)) < 2 ^ 32 - 1 ->
      epoch_step s (ck_epoch_begin section c p s)
  | es_exit c p j s :
      cpus s !! c = Some p -> op p = Op_none ->
      (forall x, sections p !! j = Some x -> sbucket x <> None -> Forall (fun y => sbucket y <> None) (sections p)) ->
      epoch_step s (ck_epoch_end j c p s)
  | es_call c p f s :
      cpus s !! c = Some p -> op p = Op_none ->
      epoch_step s (set_cpu c (set_calls (EpochEntry f (g_epoch s) (entered s) :: calls p) p) s)
  | es_push c p j x s :
      cpus s !! c = Some p -> op p = Op_none -> calls p !! j = Some x ->
      epoch_step s (set_cpu c (set_calls (delete j (calls p)) (set_record (ck_epoch_call x (record p)) p)) s)
  | es_poll c p s : cpus s !! c = Some p -> op p = Op_none -> epoch_step s (poll_start c p s)
  | es_advance c p s : cpus s !! c = Some p -> epoch_step s (advance c p s)
  | es_wait s : epoch_step s (wait_start s)
  | es_wait_next j w s :
      waiters s !! j = Some w ->
      epoch_step s (set_waiters (<[j := (wait_next w s).1]> (waiters s)) (wait_next w s).2).

(** Runs in which the global epoch has not come round to 0. *)
Definition epoch_runs : epochs -> epochs -> Prop := rtc (fun s s' => epoch_step s s' /\ g_epoch s' <> 0).
Definition epoch_reachable (s : epochs) : Prop := exists n, epoch_runs (epoch_init n) s.

Definition in_section (s : epochs) (n : nat) : Prop :=
  exists c p x, cpus s !! c = Some p /\ In x (sections p) /\ sid x = n.
