(* ===== verification/EpochSpec.v ===== *)
(** * Epoch-based reclamation: no reader is left behind

    The invariant of the records and the scans over every interleaving of the
    processors' accesses, and with it the two promises: a callback is handed out
    only when every section that had begun before its [epoch_call] is over, and
    [epoch_wait] ends only when every section that had begun before it is. *)

From S2P Require Import Prelude Epoch.

(** ** One processor *)

(** A section is beginning. *)
Definition busy (o : cpu_op) : Z := match o with Begin_load _ | Begin_store _ _ | Addref => 1 | _ => 0 end.
Definition leaving (i : Z) (o : cpu_op) : Z := match o with Delref j => if j =? i then 1 else 0 | _ => 0 end.
Definition in_bucket (i : Z) (xs : list section) : nat := length (filter (fun x => sbucket x = Some i) xs).
Arguments in_bucket : simpl never.
Definition is_bucket (i : Z) : Prop := i = 0 \/ i = 1.

(** What the processor is in, or will be in, is of epoch [E] or later. *)
Definition ok_at (E : Z) (p : cpu) : Prop :=
  (sections p <> [] \/ op p = Addref -> E <= r_epoch (record p)) /\ (forall b v, op p = Begin_store b v -> E <= v).

Record cpu_ok (g : Z) (n : nat) (p : cpu) : Prop := {
  k_active : r_active (record p) = Z.of_nat (length (sections p)) + busy (op p);
  k_room : Z.of_nat (length (sections p)) + busy (op p) < 2 ^ 32;
  k_begin : busy (op p) = 1 -> op p <> Addref -> sections p = [];
  k_epoch : 0 <= r_epoch (record p) <= g;
  k_store : forall b v, op p = Begin_store b v -> r_epoch (record p) <= v <= g;
  k_ok : ok_at (g - 1) p;
  k_sections : forall x, In x (sections p) -> r_epoch (record p) <= sepoch x <= g /\ (sid x < n)%nat;
  k_count : forall i, is_bucket i -> ref_count (bucket i (record p)) = Z.of_nat (in_bucket i (sections p)) + leaving i (op p);
  k_ref : forall i, is_bucket i -> 0 < ref_count (bucket i (record p)) -> r_epoch (record p) <= ref_epoch (bucket i (record p)) <= g;
  k_bucket : forall x i, In x (sections p) -> sbucket x = Some i -> is_bucket i /\ ref_epoch (bucket i (record p)) = sepoch x;
  k_leave : forall i, op p = Delref i -> is_bucket i /\ forall x, In x (sections p) -> sbucket x <> None
}.

Lemma ok_at_weaken E E' p : E' <= E -> ok_at E p -> ok_at E' p.
Proof. intros Hle [H1 H2]. split; [intros H; specialize (H1 H); lia|intros b v H; specialize (H2 b v H); lia]. Qed.

Lemma cpu_ok_later g n n' p : (n <= n')%nat -> cpu_ok g n p -> cpu_ok g n' p.
Proof. intros Hn []. split; try assumption. intros x Hx. destruct (k_sections0 x Hx). split; [done|lia]. Qed.

(** The global epoch goes on. *)
Lemma cpu_ok_tick g n p : cpu_ok g n p -> ok_at g p -> cpu_ok (g + 1) n p.
Proof.
  intros [] Hok. split; try assumption; [lia| |by replace (g + 1 - 1) with g by lia| |].
  - intros b v H. specialize (k_store0 b v H). lia.
  - intros x Hx. destruct (k_sections0 x Hx). split; [lia|done].
  - intros i Hi H. specialize (k_ref0 i Hi H). lia.
Qed.

Lemma idle_active g n p : cpu_ok g n p -> op p = Op_none -> r_active (record p) = 0 -> sections p = [].
Proof. intros Hp Ho Ha. pose proof (k_active _ _ _ Hp) as H. rewrite Ho /= in H. destruct (sections p); [done|simpl in H; lia]. Qed.

Lemma in_bucket_app i xs ys : in_bucket i (xs ++ ys) = (in_bucket i xs + in_bucket i ys)%nat.
Proof. unfold in_bucket. by rewrite list.filter_app length_app. Qed.

Lemma in_bucket_le i xs : (in_bucket i xs <= length xs)%nat.
Proof. apply length_filter. Qed.

Lemma in_bucket_pos i x xs : In x xs -> sbucket x = Some i -> (0 < in_bucket i xs)%nat.
Proof.
  intros Hx Hb. unfold in_bucket. assert (Hf : x ∈ filter (fun y => sbucket y = Some i) xs) by (apply list_elem_of_filter; split; [done|by apply list_elem_of_In]).
  destruct (filter _ xs); [by apply elem_of_nil in Hf|simpl; lia].
Qed.

Arguments bucket : simpl never.

Lemma bucket_active i v r : bucket i (set_r_active v r) = bucket i r.
Proof. done. Qed.
Lemma bucket_epoch i v r : bucket i (set_r_epoch v r) = bucket i r.
Proof. done. Qed.
Lemma bucket_pending i np nd v r : bucket i (set_pending np nd v r) = bucket i r.
Proof. done. Qed.

Lemma in_bucket_one i n b e : in_bucket i [InSection n b e] = if bool_decide (b = Some i) then 1%nat else 0%nat.
Proof. unfold in_bucket. rewrite filter_cons filter_nil /=. case_bool_decide; by case_decide. Qed.

Lemma bucket_set i j v r : is_bucket i -> is_bucket j -> bucket i (set_bucket j v r) = if i =? j then v else bucket i r.
Proof. intros [->| ->] [->| ->]; reflexivity. Qed.

Lemma set_bucket_same j v r : r_epoch (set_bucket j v r) = r_epoch r /\ r_active (set_bucket j v r) = r_active r /\ pending (set_bucket j v r) = pending r.
Proof. unfold set_bucket. by destruct (j =? 0). Qed.

Lemma bucket_of g : is_bucket (Z.land g CK_EPOCH_SENSE_MASK).
Proof.
  unfold CK_EPOCH_SENSE_MASK, CK_EPOCH_SENSE. replace (2 - 1) with (Z.ones 1) by done. rewrite Z.land_ones //.
  pose proof (Z.mod_pos_bound g (2 ^ 1)). unfold is_bucket. lia.
Qed.

(** *** Steps of a processor *)

Lemma begin_first_ok g n p b :
  cpu_ok g n p -> op p = Op_none -> r_active (record p) = 0 ->
  cpu_ok g n (set_op (Begin_load b) (set_record (set_r_active 1 (record p)) p)).
Proof.
  intros Hp Ho Ha. pose proof (idle_active _ _ _ Hp Ho Ha) as Hs. destruct Hp. split; cbn; rewrite ?bucket_active ?Hs; try done.
  - split; cbn; rewrite ?Hs; [|done]. by intros [?|?].
  - intros i Hi. rewrite bucket_active. rewrite -> k_count0; [|done]. by rewrite Ho Hs.
Qed.

Lemma begin_nested_ok g n p :
  cpu_ok g n p -> op p = Op_none -> r_active (record p) <> 0 -> Z.of_nat (length (sections p)) < 2 ^ 32 - 1 ->
  cpu_ok g n (set_op Addref (set_record (set_r_active (u32 (r_active (record p) + 1)) (record p)) p)).
Proof.
  intros [] Ho Ha Hr. rewrite Ho /= in k_active0 k_room0. assert (Hs : sections p <> []) by (intros E; rewrite E in k_active0; simpl in k_active0; lia).
  split; cbn; rewrite ?bucket_active; try done.
  - rewrite k_active0. rewrite u32_small; lia.
  - lia.
  - split; cbn; [|done]. intros _. apply k_ok0. by left.
  - intros i Hi. rewrite bucket_active. rewrite -> k_count0; [|done]. by rewrite Ho.
Qed.

Lemma begin_store_ok g n p b v :
  cpu_ok g n p -> op p = Begin_store b v -> cpu_ok g n (set_op Addref (set_record (set_r_epoch v (record p)) p)).
Proof.
  intros [] Ho. rewrite Ho /= in k_active0 k_room0. pose proof (k_store0 b v Ho) as Hv. destruct k_ok0 as [_ Hok]. specialize (Hok b v Ho).
  assert (Hs : sections p = []) by (apply k_begin0; rewrite Ho; done).
  split; cbn; rewrite ?Hs; rewrite ?Hs in k_active0 k_room0; try done.
  - lia.
  - intros i Hi. rewrite bucket_epoch. rewrite -> k_count0; [|done]. by rewrite Ho Hs.
  - intros i Hi. rewrite bucket_epoch. rewrite -> k_count0; [|done]. by rewrite Ho Hs.
Qed.

Lemma in_snoc {A} (x y : A) xs : In x (xs ++ [y]) -> In x xs \/ x = y.
Proof. rewrite in_app_iff. intros [?|[->|[]]]; auto. Qed.

Lemma add_null_ok g n p :
  cpu_ok g n p -> op p = Addref ->
  cpu_ok g (S n) (set_op Op_none (set_sections (sections p ++ [InSection n None g]) p)).
Proof.
  intros [] Ho. rewrite Ho /= in k_active0 k_room0. destruct k_ok0 as [Hok _]. assert (Hg : g - 1 <= r_epoch (record p)) by (apply Hok; by right).
  split; cbn; rewrite ?length_app /=; try done; [lia|lia| | |].
  - intros x [Hx| ->]%in_snoc; [|cbn; lia]. destruct (k_sections0 x Hx). split; [done|lia].
  - intros i Hi. rewrite -> k_count0; [|done]. rewrite Ho in_bucket_app in_bucket_one.
    rewrite bool_decide_eq_false_2 //=. lia.
  - intros x i [Hx| ->]%in_snoc; [by apply k_bucket0|done].
Qed.

Lemma add_ref_ok g n p :
  cpu_ok g n p -> op p = Addref ->
  let '(r, i) := ck_epoch_addref g (record p) in
  cpu_ok g (S n) (set_op Op_none (set_sections (sections p ++ [InSection n (Some i) (ref_epoch (bucket i r))]) (set_record r p))).
Proof.
  intros [] Ho. rewrite Ho /= in k_active0 k_room0. destruct k_ok0 as [Hok _]. assert (Hg : g - 1 <= r_epoch (record p)) by (apply Hok; by right).
  unfold ck_epoch_addref. set (i := Z.land g CK_EPOCH_SENSE_MASK). assert (Hi : is_bucket i) by apply bucket_of.
  pose proof (k_count0 i Hi) as Hc. rewrite Ho /= Z.add_0_r in Hc. pose proof (in_bucket_le i (sections p)) as Hle.
  set (e := if ref_count (bucket i (record p)) =? 0 then g else ref_epoch (bucket i (record p))).
  assert (He : r_epoch (record p) <= e <= g).
  { unfold e. destruct (Z.eqb_spec (ref_count (bucket i (record p))) 0); [lia|]. apply k_ref0; [done|lia]. }
  destruct (set_bucket_same i (EpochRef e (u32 (ref_count (bucket i (record p)) + 1))) (record p)) as (E1 & E2 & _).
  rewrite bucket_set // Z.eqb_refl. cbn [ref_epoch].
  split; cbn; rewrite ?E1 ?E2 ?length_app /=; try done; [lia|lia| | | | |].
  - split; cbn; [|done]. by rewrite E1.
  - intros x [Hx| ->]%in_snoc; [|cbn; lia]. destruct (k_sections0 x Hx). split; [done|lia].
  - intros j Hj. rewrite bucket_set // in_bucket_app in_bucket_one. destruct (Z.eqb_spec j i) as [->|Hne].
    + cbn. rewrite bool_decide_eq_true_2 // u32_small; lia.
    + rewrite -> k_count0; [|done]. rewrite Ho bool_decide_eq_false_2 /=; [congruence|]. lia.
  - intros j Hj. rewrite bucket_set //. destruct (Z.eqb_spec j i) as [->|Hne]; [done|by apply k_ref0].
  - intros x j [Hx| ->]%in_snoc Hb.
    + destruct (k_bucket0 x j Hx Hb) as [Hj Ej]. split; [done|]. rewrite bucket_set //. destruct (Z.eqb_spec j i) as [->|Hne]; [|done]. cbn.
      rewrite -Ej. unfold e. pose proof (in_bucket_pos i x _ Hx Hb). destruct (Z.eqb_spec (ref_count (bucket i (record p))) 0); [lia|done].
    + cbn in Hb. injection Hb as <-. split; [done|]. by rewrite bucket_set // Z.eqb_refl.
Qed.

Lemma split_lookup {A} (xs : list A) j x : xs !! j = Some x -> xs = take j xs ++ x :: drop (S j) xs /\ delete j xs = take j xs ++ drop (S j) xs.
Proof. intros H. split; [by rewrite take_drop_middle|apply delete_take_drop]. Qed.

Lemma end_ok g n p j x :
  cpu_ok g n p -> op p = Op_none -> sections p !! j = Some x ->
  (sbucket x <> None -> Forall (fun y => sbucket y <> None) (sections p)) ->
  cpu_ok g n (set_op (match sbucket x with Some i => Delref i | None => Op_none end)
    (set_sections (delete j (sections p)) (set_record (set_r_active (u32 (r_active (record p) - 1)) (record p)) p))).
Proof.
  intros [] Ho Hx Hnull. rewrite Ho /= in k_active0 k_room0. destruct (split_lookup _ _ _ Hx) as [Exs Ed]. rewrite Ed.
  set (l1 := take j (sections p)) in *. set (l2 := drop (S j) (sections p)) in *.
  assert (Hin : forall y, In y (l1 ++ l2) -> In y (sections p)) by (intros y; rewrite Exs !in_app_iff; cbn; tauto).
  assert (Hlen : length (sections p) = S (length (l1 ++ l2))) by (rewrite Exs !length_app /=; lia).
  assert (Hbusy : busy (match sbucket x with Some i => Delref i | None => Op_none end) = 0) by by destruct (sbucket x).
  split; cbn [set_op set_sections set_record record op sections set_r_active r_active r_epoch]; rewrite ?Hbusy; try done.
  - rewrite k_active0 Hlen u32_small; lia.
  - lia.
  - intros b v E. by destruct (sbucket x).
  - destruct k_ok0 as [Hok _]. split; cbn [set_op set_sections set_record record op sections set_r_active r_epoch].
    + intros [H|H]; [|by destruct (sbucket x)]. apply Hok. left. intros E. by rewrite E in Hlen.
    + intros b v E. by destruct (sbucket x).
  - intros y Hy. by apply k_sections0, Hin.
  - intros i Hi. rewrite bucket_active. rewrite -> k_count0; [|done]. rewrite Ho Exs !in_bucket_app /=.
    assert (E : in_bucket i (x :: l2) = ((if bool_decide (sbucket x = Some i) then 1 else 0) + in_bucket i l2)%nat).
    { change (x :: l2) with ([x] ++ l2). rewrite in_bucket_app. destruct x as [? b e]. by rewrite in_bucket_one. }
    rewrite E. destruct (sbucket x) as [i'|]; cbn [leaving].
    + case_bool_decide as Hb; [injection Hb as ->; rewrite Z.eqb_refl; lia|]. destruct (Z.eqb_spec i' i) as [->|]; [done|lia].
    + case_bool_decide; [done|lia].
  - intros y i Hy. by apply k_bucket0, Hin.
  - intros i Hi. destruct (sbucket x) as [i'|] eqn:Eb; [|done]. injection Hi as ->. split.
    + apply (k_bucket0 x i); [|done]. rewrite Exs in_app_iff. right. by left.
    + intros y Hy. by apply (proj1 (List.Forall_forall _ _) (Hnull ltac:(done))), Hin.
Qed.

Lemma leaving_op i o : leaving i o <> 0 -> o = Delref i.
Proof. destruct o; cbn; try done. by destruct (Z.eqb_spec i0 i) as [->|]. Qed.

Lemma other_bucket i : is_bucket i -> is_bucket (Z.land (i + 1) CK_EPOCH_SENSE_MASK) /\ Z.land (i + 1) CK_EPOCH_SENSE_MASK <> i.
Proof. intros [->| ->]; cbn; split; try done; by [left|right]. Qed.

Lemma delref_ok g n p i :
  cpu_ok g n p -> op p = Delref i -> cpu_ok g n (set_op Op_none (set_record (ck_epoch_delref i (record p)) p)).
Proof.
  intros [] Ho. rewrite Ho /= in k_active0 k_room0. destruct (k_leave0 i Ho) as [Hi Hnull]. destruct k_ok0 as [Hok _].
  pose proof (k_count0 i Hi) as Hc. rewrite Ho /= Z.eqb_refl in Hc. pose proof (in_bucket_le i (sections p)) as Hle.
  unfold ck_epoch_delref. set (cur := EpochRef (ref_epoch (bucket i (record p))) (u32 (ref_count (bucket i (record p)) - 1))).
  set (r1 := set_bucket i cur (record p)). destruct (set_bucket_same i cur (record p)) as (E1 & E2 & _). fold r1 in E1, E2.
  assert (Hcur : ref_count cur = Z.of_nat (in_bucket i (sections p))) by (unfold cur; cbn; rewrite Hc u32_small; lia).
  assert (Hb : forall j, is_bucket j -> bucket j r1 = if j =? i then cur else bucket j (record p)) by (intros j Hj; by apply bucket_set).
  assert (Hcount : forall j, is_bucket j -> ref_count (bucket j r1) = Z.of_nat (in_bucket j (sections p))).
  { intros j Hj. rewrite Hb //. destruct (Z.eqb_spec j i) as [->|Hne]; [done|]. rewrite -> k_count0; [|done]. rewrite Ho /=.
    destruct (Z.eqb_spec i j); [congruence|lia]. }
  assert (Hep : forall j, is_bucket j -> ref_epoch (bucket j r1) = ref_epoch (bucket j (record p))).
  { intros j Hj. rewrite Hb //. by destruct (Z.eqb_spec j i) as [->|]. }
  assert (Hpos : forall j, is_bucket j -> 0 < ref_count (bucket j r1) -> 0 < ref_count (bucket j (record p))).
  { intros j Hj. rewrite -> Hcount, k_count0 by done. rewrite Ho /=. case_match; lia. }
  assert (Hkeep : cpu_ok g n (set_op Op_none (set_record r1 p))).
  { split; cbn; rewrite ?E1 ?E2; try done.
    - split; cbn; [|done]. rewrite E1. intros [H|H]; [|done]. apply Hok. by left.
    - intros j Hj. by rewrite Hcount // Z.add_0_r.
    - intros j Hj H. rewrite Hep //. apply k_ref0; [done|]. by apply Hpos.
    - intros x j Hx Hxb. destruct (k_bucket0 x j Hx Hxb) as [Hj <-]. split; [done|]. by apply Hep. }
  destruct (Z.ltb_spec 0 (ref_count cur)) as [|Hz]; [done|]. destruct (other_bucket i Hi) as [Ho2 Hne].
  set (o := Z.land (i + 1) CK_EPOCH_SENSE_MASK) in *. destruct (Z.ltb_spec 0 (ref_count (bucket o r1))) as [Hpo|]; cbn [andb]; [|done].
  destruct (to_int _ <? 0); [|done].
  pose proof (k_ref0 o Ho2 (Hpos o Ho2 Hpo)) as Hro. rewrite -Hep // in Hro.
  assert (Hall : forall x, In x (sections p) -> sepoch x = ref_epoch (bucket o r1)).
  { intros x Hx. destruct (sbucket x) as [j|] eqn:Ex; [|by destruct (Hnull x Hx)]. destruct (k_bucket0 x j Hx Ex) as [Hj <-].
    rewrite Hep //. assert (j = o); [|by subst]. destruct (Z.eq_dec j i) as [->|Hji].
    - pose proof (in_bucket_pos i x _ Hx Ex). lia.
    - unfold o. clear -Hi Hj Hji. unfold is_bucket in *. destruct Hi as [->| ->], Hj as [->| ->]; by try done. }
  destruct Hkeep. cbn [record op set_op set_record sections] in *. split; cbn [record op set_op set_record sections set_r_epoch r_epoch r_active]; try done.
  - lia.
  - split; cbn [record op set_op set_record sections set_r_epoch r_epoch]; [|done]. intros [H|H]; [|done]. assert (g - 1 <= r_epoch (record p)) by (apply Hok; by left). lia.
  - intros x Hx. rewrite Hall //. destruct (k_sections0 x Hx). split; [lia|done].
  - intros j Hj H. rewrite bucket_epoch in H |- *. rewrite Hcount // in H. specialize (k_ref1 j Hj). rewrite Hcount // in k_ref1. specialize (k_ref1 H).
    split; [|lia]. rewrite (Hep j) //.
    assert (Hex : exists x, In x (sections p) /\ sbucket x = Some j).
    { unfold in_bucket in H. destruct (filter (fun x => sbucket x = Some j) (sections p)) as [|x l] eqn:E; [simpl in H; lia|].
      exists x. assert (Hx : x ∈ filter (fun x => sbucket x = Some j) (sections p)) by (rewrite E; apply list_elem_of_here).
      apply list_elem_of_filter in Hx as [? Hx]. split; [by apply list_elem_of_In|done]. }
    destruct Hex as (x & Hx & Exb). destruct (k_bucket0 x j Hx Exb) as [_ ->]. by rewrite Hall.
Qed.

(** Operations that leave the sections alone. *)
Definition quiet (o : cpu_op) : Prop := match o with Op_none | Poll_scan _ _ _ _ | Poll_scan_epoch _ _ _ _ => True | _ => False end.

Lemma quiet_idle o : quiet o -> busy o = 0 /\ (forall i, leaving i o = 0) /\ o <> Addref /\ (forall b v, o <> Begin_store b v) /\ (forall i, o <> Delref i).
Proof. by destruct o. Qed.

Definition same_sections (p p' : cpu) : Prop :=
  sections p' = sections p /\ r_active (record p') = r_active (record p) /\
  local_0 (record p') = local_0 (record p) /\ local_1 (record p') = local_1 (record p).

Lemma same_bucket p p' i : same_sections p p' -> bucket i (record p') = bucket i (record p).
Proof. intros (_ & _ & E0 & E1). unfold bucket. by rewrite E0 E1. Qed.

Lemma cpu_ok_quiet g n p p' :
  cpu_ok g n p -> quiet (op p) -> quiet (op p') -> same_sections p p' ->
  r_epoch (record p') = r_epoch (record p) \/ sections p = [] /\ 0 <= r_epoch (record p') <= g -> cpu_ok g n p'.
Proof.
  intros [] Hq Hq' Hs He. destruct (quiet_idle _ Hq) as (Hb & Hl & _ & _ & _). destruct (quiet_idle _ Hq') as (Hb' & Hl' & Ha' & Hs' & Hd').
  pose proof Hs as (E1 & E2 & _). rewrite Hb in k_active0 k_room0.
  assert (Hz : sections p = [] -> forall i, is_bucket i -> ref_count (bucket i (record p)) = 0).
  { intros E i Hi. rewrite -> k_count0; [|done]. by rewrite Hl E. }
  split; rewrite ?E1 ?E2 ?Hb'; try done.
  - destruct He as [->|[_ ?]]; [done|lia].
  - intros b v E. by destruct (Hs' b v).
  - destruct k_ok0 as [Hok _]. split; [|intros b v E; by destruct (Hs' b v)]. rewrite E1. intros [H|H]; [|done].
    destruct He as [->|[? _]]; [|done]. apply Hok. by left.
  - intros x Hx. destruct He as [->|[E _]]; [by apply k_sections0|by rewrite E in Hx].
  - intros i Hi. rewrite (same_bucket p p') // Hl'. rewrite -> k_count0; [|done]. by rewrite Hl.
  - intros i Hi. rewrite (same_bucket p p') //. intros H. destruct He as [->|[E _]]; [by apply k_ref0|]. rewrite Hz in H; [done..|lia].
  - intros x i Hx Hxb. rewrite (same_bucket p p') //. by apply k_bucket0.
  - intros i E. by destruct (Hd' i).
Qed.

(** ** What a step may change *)

Definition alive (s : epochs) (x : section) : Prop := exists c p, cpus s !! c = Some p /\ In x (sections p).

(** Sections end or are new; as long as the global epoch stays, no processor falls
    behind. *)
Record evolves (s s' : epochs) : Prop := {
  ev_g : g_epoch s <= g_epoch s';
  ev_entered : (entered s <= entered s')%nat;
  ev_len : length (cpus s') = length (cpus s);
  ev_cpu : forall c p', cpus s' !! c = Some p' -> exists p, cpus s !! c = Some p /\
    (forall x, In x (sections p') -> In x (sections p) \/ (entered s <= sid x)%nat) /\
    (g_epoch s' = g_epoch s -> forall E, E <= g_epoch s -> ok_at E p -> ok_at E p')
}.

Lemma evolves_alive s s' x : evolves s s' -> alive s' x -> alive s x \/ (entered s <= sid x)%nat.
Proof.
  intros He (c & p' & Hc & Hx). destruct (ev_cpu _ _ He c p' Hc) as (p & Hp & Hsec & _).
  destruct (Hsec x Hx) as [H|H]; [left; by exists c, p|by right].
Qed.

(** What is of number [n] or older has been entered at epoch [e] or before. *)
Definition old_ok (s : epochs) (n : nat) (e : Z) : Prop :=
  (n <= entered s)%nat /\ 1 <= e <= g_epoch s /\ forall x, alive s x -> (sid x < n)%nat -> sepoch x <= e.

(** It is all over. *)
Definition over (s : epochs) (n : nat) : Prop := (n <= entered s)%nat /\ forall x, alive s x -> (n <= sid x)%nat.

(** A processor that a scan for epoch [E] has passed, begun when [since] sections
    had been entered. *)
Definition passed (s : epochs) (E : Z) (since : nat) (af : bool) (k : nat) : Prop :=
  forall p, cpus s !! k = Some p ->
    (g_epoch s = E -> ok_at E p) /\ forall x, In x (sections p) -> (since <= sid x)%nat \/ af = true /\ E <= sepoch x.
Definition scanned (s : epochs) (E : Z) (since : nat) (af : bool) (cursor : list nat) : Prop :=
  E <= g_epoch s /\ (since <= entered s)%nat /\ forall k, (k < length (cpus s))%nat -> ~ In k cursor -> passed s E since af k.

Lemma evolves_old s s' n e : evolves s s' -> old_ok s n e -> old_ok s' n e.
Proof.
  intros He (Hn & He1 & Hx). pose proof (ev_entered _ _ He). pose proof (ev_g _ _ He). split; [lia|]. split; [lia|].
  intros x Ha Hlt. destruct (evolves_alive s s' x He Ha) as [H1|H1]; [by apply Hx|lia].
Qed.

Lemma evolves_over s s' n : evolves s s' -> over s n -> over s' n.
Proof.
  intros He (Hn & Hx). pose proof (ev_entered _ _ He). split; [lia|]. intros x Ha.
  destruct (evolves_alive s s' x He Ha) as [H1|H1]; [by apply Hx|lia].
Qed.

Lemma evolves_scanned s s' E since af cursor : evolves s s' -> scanned s E since af cursor -> scanned s' E since af cursor.
Proof.
  intros He (HE & Hs & Hk). pose proof (ev_entered _ _ He). pose proof (ev_g _ _ He). split; [lia|]. split; [lia|].
  intros k Hlt Hnin p' Hp'. rewrite (ev_len _ _ He) in Hlt. destruct (ev_cpu _ _ He k p' Hp') as (p & Hp & Hsec & Hok).
  destruct (Hk k Hlt Hnin p Hp) as [H1 H2]. split.
  - intros E'. apply Hok; [lia|done|apply H1; lia].
  - intros x Hx. destruct (Hsec x Hx) as [Hx1|Hx1]; [by apply H2|left; lia].
Qed.

Lemma scanned_af s E since cursor af : scanned s E since af cursor -> scanned s E since true cursor.
Proof.
  intros (HE & Hs & Hk). split; [done|]. split; [done|]. intros k Hlt Hnin p Hp. destruct (Hk k Hlt Hnin p Hp) as [H1 H2].
  split; [done|]. intros x Hx. destruct (H2 x Hx) as [?|[_ ?]]; auto.
Qed.

(** A scan begins. *)
Lemma scanned_records s E since af : E <= g_epoch s -> (since <= entered s)%nat -> scanned s E since af (records s).
Proof.
  intros HE Hs. split; [done|]. split; [done|]. intros k Hlt Hn. destruct Hn. unfold records. rewrite -in_rev. apply in_seq. lia.
Qed.

(** ** The invariant *)

(** What is pending on a processor has been called before its scan. *)
Definition before (E : Z) (since : nat) (p : cpu) : Prop :=
  forall j l x, pending (record p) !! j = Some l -> In x l -> called_at x <= E /\ (stamp x <= since)%nat.

(** On the processor itself no section begins in the meantime. *)
Definition own_ok (c : nat) (cursor : list nat) (af : bool) (p : cpu) : Prop := ~ In c cursor -> af = false -> sections p = [].

Definition poll_ok (s : epochs) (c : nat) (p : cpu) : Prop :=
  match op p with
  | Poll_scan E since cursor af => 1 <= E /\ scanned s E since af cursor /\ before E since p /\ own_ok c cursor af p
  | Poll_scan_epoch E since k cursor => 1 <= E /\ scanned s E since true (k :: cursor) /\ before E since p
  | _ => True
  end.

(** The second round of a wait is for a later epoch. *)
Definition round_ok (w : waiter) : Prop := w_epoch w <= w_delta w /\ (w_i w = 0 \/ w_i w = 1 /\ w_epoch w < w_delta w).

Definition waiter_ok (s : epochs) (w : waiter) : Prop :=
  old_ok s (w_since w) (w_epoch w) /\
  match w_pc w with
  | Wait_scan cursor af => round_ok w /\ scanned s (w_delta w) (w_since w) af cursor
  | Wait_scan_epoch k cursor | Wait_reload k cursor => round_ok w /\ scanned s (w_delta w) (w_since w) true (k :: cursor)
  | Wait_cas => round_ok w /\ scanned s (w_delta w) (w_since w) true []
  | Wait_done => over s (w_since w)
  end.

Definition entries_ok (s : epochs) (p : cpu) : Prop :=
  (forall x, In x (calls p) -> old_ok s (stamp x) (called_at x)) /\
  (forall j l x, pending (record p) !! j = Some l -> In x l ->
     old_ok s (stamp x) (called_at x) /\ j = Z.to_nat (Z.land (called_at x) (CK_EPOCH_LENGTH - 1))) /\
  (forall x, In x (deferred p) -> over s (stamp x)).

Record epoch_inv (s : epochs) : Prop := {
  i_g : 1 <= g_epoch s < 2 ^ 32;
  i_cpu : forall c p, cpus s !! c = Some p -> cpu_ok (g_epoch s) (entered s) p;
  i_entries : forall c p, cpus s !! c = Some p -> entries_ok s p;
  i_poll : forall c p, cpus s !! c = Some p -> poll_ok s c p;
  i_waiters : forall w, In w (waiters s) -> waiter_ok s w
}.

Lemma evolves_poll s s' c p : evolves s s' -> poll_ok s c p -> poll_ok s' c p.
Proof.
  intros He. unfold poll_ok. destruct (op p); try done; intros (H1 & H2 & H3); (split; [done|]; split; [by eapply evolves_scanned|done]).
Qed.

Lemma evolves_waiter s s' w : evolves s s' -> waiter_ok s w -> waiter_ok s' w.
Proof.
  intros He [Ho Hp]. split; [by eapply evolves_old|]. destruct (w_pc w); try (by eapply evolves_over);
    destruct Hp as [? Hp]; (split; [done|by eapply evolves_scanned]).
Qed.

Lemma evolves_entries s s' p : evolves s s' -> entries_ok s p -> entries_ok s' p.
Proof.
  intros He (H1 & H2 & H3). split; [|split].
  - intros x Hx. eapply evolves_old; eauto.
  - intros j l x Hj Hx. destruct (H2 j l x Hj Hx). split; [by eapply evolves_old|done].
  - intros x Hx. eapply evolves_over; eauto.
Qed.

Definition same_entries (p p' : cpu) : Prop :=
  calls p' = calls p /\ pending (record p') = pending (record p) /\ deferred p' = deferred p.

Lemma same_entries_ok s p p' : same_entries p p' -> entries_ok s p -> entries_ok s p'.
Proof. intros (E1 & E2 & E3). unfold entries_ok. by rewrite E1 E2 E3. Qed.

(** A step of one processor. *)
Definition changes (c : nat) (p' : cpu) (s s' : epochs) : Prop :=
  cpus s' = <[c := p']> (cpus s) /\ g_epoch s' = g_epoch s /\ waiters s' = waiters s /\ (entered s <= entered s')%nat.

Lemma changes_evolves c p p' s s' :
  cpus s !! c = Some p -> changes c p' s s' ->
  (forall x, In x (sections p') -> In x (sections p) \/ (entered s <= sid x)%nat) ->
  (forall E, E <= g_epoch s -> ok_at E p -> ok_at E p') -> evolves s s'.
Proof.
  intros Hc (Ec & Eg & _ & Hn) Hsec Hok. split; [lia|done|by rewrite Ec length_insert|]. intros k q' Hq. rewrite Ec in Hq.
  destruct (decide (k = c)) as [->|Hne].
  - rewrite list_lookup_insert_eq in Hq; [by eapply lookup_lt_Some|]. injection Hq as <-. exists p. split; [done|]. split; [done|]. auto.
  - rewrite list_lookup_insert_ne // in Hq. exists q'. split; [done|]. split; [by left|]. auto.
Qed.

Lemma inv_change c p p' s s' :
  epoch_inv s -> cpus s !! c = Some p -> changes c p' s s' -> evolves s s' ->
  cpu_ok (g_epoch s') (entered s') p' -> entries_ok s' p' -> poll_ok s' c p' -> epoch_inv s'.
Proof.
  intros [Hg Hcpu Hen Hpo Hw] Hc (Ec & Eg & Ew & Hn) He Hok Hen' Hpo'.
  assert (Hk : forall (P : nat -> cpu -> Prop), P c p' -> (forall k q, cpus s !! k = Some q -> P k q) -> forall k q, cpus s' !! k = Some q -> P k q).
  { intros P HP Hold k q Hq. rewrite Ec in Hq. destruct (decide (k = c)) as [->|Hne].
    - rewrite list_lookup_insert_eq in Hq; [by eapply lookup_lt_Some|]. by injection Hq as <-.
    - rewrite list_lookup_insert_ne // in Hq. by eapply Hold. }
  split.
  - by rewrite Eg.
  - apply (Hk (fun _ q => cpu_ok (g_epoch s') (entered s') q)); [done|]. intros k q Hq. rewrite Eg. eapply cpu_ok_later; [exact Hn|eauto].
  - apply (Hk (fun _ q => entries_ok s' q)); [done|]. intros k q Hq. eapply evolves_entries; eauto.
  - apply (Hk (poll_ok s')); [done|]. intros k q Hq. eapply evolves_poll; eauto.
  - rewrite Ew. intros w Hw'. eapply evolves_waiter; eauto.
Qed.

(** The same with nothing new to be called. *)
Lemma inv_change_sections c p p' s s' :
  epoch_inv s -> cpus s !! c = Some p -> changes c p' s s' -> cpu_ok (g_epoch s') (entered s') p' -> same_entries p p' ->
  (forall x, In x (sections p') -> In x (sections p) \/ (entered s <= sid x)%nat) ->
  (forall E, E <= g_epoch s -> ok_at E p -> ok_at E p') -> poll_ok s' c p' -> epoch_inv s'.
Proof.
  intros Hi Hc Hch Hok Hse Hsec Hat Hpo. pose proof (changes_evolves c p p' s s' Hc Hch Hsec Hat) as He.
  eapply inv_change; try done. eapply same_entries_ok; [done|]. eapply evolves_entries; [done|]. by eapply i_entries.
Qed.

(** The global epoch goes on when a scan has passed every processor. *)
Lemma inv_tick s E since af :
  epoch_inv s -> g_epoch s = E -> scanned s E since af [] -> u32 (E + 1) <> 0 -> epoch_inv (set_g_epoch (u32 (E + 1)) s).
Proof.
  intros [Hg Hcpu Hen Hpo Hw] HE (_ & _ & Hk) Hu.
  assert (Eu : u32 (E + 1) = E + 1).
  { destruct (Z.eq_dec (E + 1) (2 ^ 32)) as [E'|]; [by rewrite E' in Hu|]. apply u32_small. lia. }
  rewrite Eu. set (s' := set_g_epoch (E + 1) s).
  assert (He : evolves s s').
  { split; [cbn; lia|done|done|]. intros c p Hc. exists p. split; [done|]. split; [by left|]. cbn. lia. }
  split.
  - cbn. assert (E + 1 <> 2 ^ 32) by (intros E'; by rewrite E' in Eu). lia.
  - intros c p Hc. cbn. rewrite -HE. apply cpu_ok_tick; [by eapply Hcpu|]. rewrite HE. apply (Hk c); [by eapply lookup_lt_Some|by intros []|done|done].
  - intros c p Hc. eapply evolves_entries; eauto.
  - intros c p Hc. eapply evolves_poll; eauto.
  - intros w Hw'. eapply evolves_waiter; eauto.
Qed.

(** ** Sections *)

Lemma changes_set_cpu c p' s : changes c p' s (set_cpu c p' s).
Proof. by repeat split. Qed.

Lemma poll_ok_quiet s c p : busy (op p) = 1 \/ op p = Op_none \/ (exists i, op p = Delref i) -> poll_ok s c p.
Proof. unfold poll_ok. intros [H|[-> |[i ->]]]; [|done..]. by destruct (op p). Qed.

Lemma inv_add_section s c p q b e :
  epoch_inv s -> cpus s !! c = Some p -> sections q = sections p -> same_entries p q ->
  (forall E, E <= g_epoch s -> ok_at E p -> E <= r_epoch (record q)) ->
  cpu_ok (g_epoch s) (S (entered s)) (set_op Op_none (set_sections (sections q ++ [InSection (entered s) b e]) q)) ->
  epoch_inv (add_section c b e q s).
Proof.
  intros Hi Hc Hs Hse Hat Hok. eapply (inv_change_sections c p _ s); [done|done|split; [reflexivity|]; split; [done|split; [done|cbn; lia]]|done|done| | |].
  - cbn. rewrite Hs. intros x [Hx| ->]%in_snoc; [by left|right; cbn; lia].
  - intros E HE H. split; [|done]. cbn. intros _. by apply Hat.
  - apply poll_ok_quiet. right. by left.
Qed.

Lemma begin_null_ok g n p q :
  cpu_ok g n (set_op Addref q) -> sections q = sections p ->
  cpu_ok g (S n) (set_op Op_none (set_sections (sections q ++ [InSection n None g]) q)).
Proof. intros H _. exact (add_null_ok g n _ H eq_refl). Qed.

Lemma inv_begin b c p s :
  epoch_inv s -> cpus s !! c = Some p -> op p = Op_none -> Z.of_nat (length (sections p)) < 2 ^ 32 - 1 -> epoch_inv (ck_epoch_begin b c p s).
Proof.
  intros Hi Hc Ho Hr. pose proof (i_cpu _ Hi c p Hc) as Hok. unfold ck_epoch_begin. destruct (Z.eqb_spec (r_active (record p)) 0) as [Ha|Ha].
  - pose proof (idle_active _ _ _ Hok Ho Ha) as Hs. eapply (inv_change_sections c p); [done|done|apply changes_set_cpu| |done|by left| |by apply poll_ok_quiet; left].
    + by apply begin_first_ok.
    + intros E HE _. split; cbn; [rewrite Hs; by intros [?|?]|done].
  - assert (Hne : sections p <> []).
    { intros E. apply Ha. rewrite (k_active _ _ _ Hok) E Ho. done. }
    pose proof (begin_nested_ok _ _ _ Hok Ho Ha Hr) as Hn.
    assert (Hat : forall E, ok_at E p -> E <= r_epoch (record p)) by (intros E [H _]; apply H; by left).
    destruct b.
    + eapply (inv_change_sections c p); [done|done|apply changes_set_cpu|done|done|by left| |by apply poll_ok_quiet; left].
      intros E HE H. split; [|done]. intros _. by apply Hat.
    + apply (inv_add_section s c p); [done..| |by apply (begin_null_ok _ _ p)]. intros E _ H. by apply Hat.
Qed.

Lemma inv_end j c p s :
  epoch_inv s -> cpus s !! c = Some p -> op p = Op_none ->
  (forall x, sections p !! j = Some x -> sbucket x <> None -> Forall (fun y => sbucket y <> None) (sections p)) ->
  epoch_inv (ck_epoch_end j c p s).
Proof.
  intros Hi Hc Ho Hnull. unfold ck_epoch_end. destruct (sections p !! j) as [x|] eqn:Ex; [|done].
  pose proof (end_ok _ _ _ j x (i_cpu _ Hi c p Hc) Ho Ex (Hnull x eq_refl)) as Hok. destruct (split_lookup _ _ _ Ex) as [Es Ed].
  eapply (inv_change_sections c p); [done|done|apply changes_set_cpu|done|done| | |].
  - cbn. intros y Hy. left. rewrite Ed in Hy. rewrite Es. apply in_app_iff in Hy. apply in_app_iff. cbn. tauto.
  - intros E _ [H _]. split; cbn; [|by destruct (sbucket x)]. intros [Hne|Hne]; [|by destruct (sbucket x)].
    apply H. left. intros E'. by rewrite E' in Ex.
  - apply poll_ok_quiet. right. cbn. destruct (sbucket x) as [i|]; [right; by exists i|by left].
Qed.

Lemma begin_load_ok g n p b :
  cpu_ok g n p -> op p = Begin_load b -> cpu_ok g n (set_op (Begin_store b g) p).
Proof.
  intros [] Ho. assert (Hs : sections p = []) by (apply k_begin0; by rewrite Ho). rewrite Ho in k_active0 k_room0 k_count0.
  split; cbn; try done.
  - intros b' v [= -> <-]. lia.
  - split; cbn; [rewrite Hs; by intros [?|?]|]. intros b' v [= -> <-]. lia.
Qed.

Lemma inv_sections_advance c p s :
  epoch_inv s -> cpus s !! c = Some p -> busy (op p) = 1 \/ (exists i, op p = Delref i) -> epoch_inv (advance c p s).
Proof.
  intros Hi Hc Hb. pose proof (i_cpu _ Hi c p Hc) as Hok. unfold advance. destruct (op p) as [|b|b v| |i| |] eqn:Ho;
    try (by destruct Hb as [?|[? ?]]); clear Hb.
  - assert (Hs : sections p = []) by (apply (k_begin _ _ _ Hok); by rewrite Ho).
    eapply (inv_change_sections c p); [done|done|apply changes_set_cpu|by apply begin_load_ok|done|by left| |by apply poll_ok_quiet; left].
    intros E HE _. split; cbn; [rewrite Hs; by intros [?|?]|]. by intros b' v [= -> <-].
  - pose proof (begin_store_ok _ _ _ _ _ Hok Ho) as Hn.
    assert (Hat : forall E, ok_at E p -> E <= v) by (intros E [_ H]; by apply (H b)). destruct b.
    + eapply (inv_change_sections c p); [done|done|apply changes_set_cpu|done|done|by left| |by apply poll_ok_quiet; left].
      intros E HE H. split; [|done]. intros _. by apply Hat.
    + apply (inv_add_section s c p); [done..| |by apply (begin_null_ok _ _ p)]. intros E _ H. by apply Hat.
  - pose proof (add_ref_ok _ _ _ Hok Ho) as Hn. destruct (ck_epoch_addref (g_epoch s) (record p)) as [r i] eqn:Er.
    unfold ck_epoch_addref in Er. injection Er as Er _. 
    destruct (set_bucket_same (Z.land (g_epoch s) CK_EPOCH_SENSE_MASK)
      (EpochRef (if ref_count (bucket (Z.land (g_epoch s) CK_EPOCH_SENSE_MASK) (record p)) =? 0 then g_epoch s
                 else ref_epoch (bucket (Z.land (g_epoch s) CK_EPOCH_SENSE_MASK) (record p)))
        (u32 (ref_count (bucket (Z.land (g_epoch s) CK_EPOCH_SENSE_MASK) (record p)) + 1))) (record p)) as (E1 & _ & E3). rewrite Er in E1 E3.
    apply (inv_add_section s c p); [done|done|done|by split|  |done]. intros E _ [H _]. cbn. rewrite E1. apply H. by right.
  - pose proof (delref_ok _ _ _ i Hok Ho) as Hn. destruct (k_leave _ _ _ Hok i Ho) as [Hib _].
    assert (Hr : r_epoch (record p) <= r_epoch (ck_epoch_delref i (record p)) /\ pending (ck_epoch_delref i (record p)) = pending (record p)).
    { unfold ck_epoch_delref. set (v := EpochRef _ _). destruct (set_bucket_same i v (record p)) as (E1 & _ & E3).
      destruct (0 <? ref_count v); [by rewrite E1 E3|]. destruct (other_bucket i Hib) as [Hob Hne].
      destruct (Z.ltb_spec 0 (ref_count (bucket (Z.land (i + 1) CK_EPOCH_SENSE_MASK) (set_bucket i v (record p))))) as [Hpo|]; cbn [andb]; [|by rewrite E1 E3].
      destruct (to_int _ <? 0); [|by rewrite E1 E3]. cbn. split; [|done]. rewrite bucket_set // in Hpo |- *.
      destruct (Z.eqb_spec (Z.land (i + 1) CK_EPOCH_SENSE_MASK) i); [done|]. by apply (k_ref _ _ _ Hok). }
    destruct Hr as [Hr Hp]. eapply (inv_change_sections c p); [done|done|apply changes_set_cpu|done|by split|by left| |by apply poll_ok_quiet; right; left].
    intros E _ [H _]. split; cbn; [|done]. intros [Hne|]; [|done]. specialize (H (or_introl Hne)). lia.
Qed.

(** ** Callbacks *)

Lemma in_delete {A} (x : A) j xs : In x (delete j xs) -> In x xs.
Proof.
  rewrite delete_take_drop in_app_iff. intros [H|H].
  - rewrite -(take_drop j xs) in_app_iff. by left.
  - rewrite -(take_drop (S j) xs) in_app_iff. by right.
Qed.

(** Entries a processor has beyond those of [p] are as they should be. *)
Lemma inv_quiet c p p' s :
  epoch_inv s -> cpus s !! c = Some p -> quiet (op p) -> quiet (op p') -> same_sections p p' ->
  r_epoch (record p') = r_epoch (record p) \/ sections p = [] /\ 0 <= r_epoch (record p') <= g_epoch s ->
  entries_ok s p' -> (evolves s (set_cpu c p' s) -> poll_ok (set_cpu c p' s) c p') -> epoch_inv (set_cpu c p' s).
Proof.
  intros Hi Hc Hq Hq' Hs He Hen Hpo. pose proof Hs as (E1 & _). destruct (quiet_idle _ Hq') as (_ & _ & Ha' & Hs' & _).
  assert (Hev : evolves s (set_cpu c p' s)).
  { eapply changes_evolves; [done|apply changes_set_cpu|rewrite E1; by left|]. intros E _ [H _]. split; [|intros b v Eo; by destruct (Hs' b v)].
    rewrite E1. intros [Hne|]; [|done]. destruct He as [->|[? _]]; [|done]. apply H. by left. }
  eapply (inv_change c p p'); [done|done|apply changes_set_cpu|done| |by eapply evolves_entries|by apply Hpo].
  cbn. by eapply (cpu_ok_quiet _ _ p); [apply (i_cpu _ Hi c)|..].
Qed.

Lemma inv_call c p f s :
  epoch_inv s -> cpus s !! c = Some p -> op p = Op_none ->
  epoch_inv (set_cpu c (set_calls (EpochEntry f (g_epoch s) (entered s) :: calls p) p) s).
Proof.
  intros Hi Hc Ho. apply (inv_quiet c p); [done|done|by rewrite Ho|by rewrite /= Ho|done|by left| |].
  - destruct (i_entries _ Hi c p Hc) as (H1 & H2 & H3). split; [|done]. cbn. intros x [<-|Hx]; [|by apply H1]. split; [done|].
    pose proof (i_g _ Hi). split; [cbn; lia|]. intros y (k & q & Hk & Hy) _. cbn. by apply (k_sections _ _ _ (i_cpu _ Hi k q Hk)).
  - intros _. apply poll_ok_quiet. right. left. exact Ho.
Qed.

Lemma inv_push c p j x s :
  epoch_inv s -> cpus s !! c = Some p -> op p = Op_none -> calls p !! j = Some x ->
  epoch_inv (set_cpu c (set_calls (delete j (calls p)) (set_record (ck_epoch_call x (record p)) p)) s).
Proof.
  intros Hi Hc Ho Hj. apply (inv_quiet c p); [done|done|by rewrite Ho|by rewrite /= Ho|done|by left| |].
  - destruct (i_entries _ Hi c p Hc) as (H1 & H2 & H3). split; [|split; [|done]]; cbn; [intros y Hy; eapply H1, in_delete, Hy|].
    intros i l y Hl Hy. destruct (decide (i = Z.to_nat (Z.land (called_at x) (CK_EPOCH_LENGTH - 1)))) as [->|Hne].
    + rewrite list_lookup_alter_eq in Hl. destruct (pending (record p) !! _) as [l0|] eqn:E0; [|done]. injection Hl as <-.
      destruct Hy as [<-|Hy]; [|by eapply H2]. split; [|done]. apply H1, list_elem_of_In. by eapply list_elem_of_lookup_2.
    + rewrite list_lookup_alter_ne // in Hl. by eapply H2.
  - intros _. apply poll_ok_quiet. right. left. exact Ho.
Qed.

Lemma foldl_push {A} (xs ys : list A) : foldl (fun d x => x :: d) ys xs = rev xs ++ ys.
Proof. revert ys. induction xs as [|x xs IH]; intros ys; [done|]. cbn. by rewrite IH -app_assoc. Qed.

Definition slot (e : Z) : nat := Z.to_nat (Z.land e (CK_EPOCH_LENGTH - 1)).

Lemma dispatch_spec e r d r' d' :
  ck_epoch_dispatch e (r, d) = (r', d') ->
  (r_epoch r' = r_epoch r /\ r_active r' = r_active r /\ local_0 r' = local_0 r /\ local_1 r' = local_1 r) /\
  (forall j l x, pending r' !! j = Some l -> In x l -> pending r !! j = Some l) /\
  (forall x, In x d' -> In x d \/ exists l, pending r !! slot e = Some l /\ In x l).
Proof.
  unfold ck_epoch_dispatch. intros [= <- <-]. split; [done|]. fold (slot e). cbn. split.
  - intros j l x Hl Hx. destruct (decide (j = slot e)) as [->|Hne]; [|by rewrite list_lookup_insert_ne in Hl].
    apply list_lookup_insert_Some in Hl as [(_ & <- & _)|[Hn _]]; [by destruct Hx|done].
  - intros x. rewrite foldl_push in_app_iff -in_rev. intros [H|H]; [right|by left]. destruct (pending r !! slot e) as [l|]; [|by destruct H].
    by exists l.
Qed.

(** Which bucket holds what. *)
Lemma slot_epoch a e k : 0 <= a -> slot a = slot (u32 (e - k)) -> 0 <= k <= 3 -> a <= e -> a <= e - k.
Proof.
  unfold slot, CK_EPOCH_LENGTH. change (4 - 1) with (Z.ones 2). rewrite !Z.land_ones //. unfold u32, wrap. intros Ha H Hk Hle.
  pose proof (Z.mod_pos_bound a (2 ^ 2) ltac:(done)). pose proof (Z.mod_pos_bound ((e - k) mod 2 ^ 32) (2 ^ 2) ltac:(done)).
  assert (E : a mod 2 ^ 2 = ((e - k) mod 2 ^ 32) mod 2 ^ 2) by lia. clear H. change (2 ^ 2) with 4 in *. change (2 ^ 32) with 4294967296 in *.
  Z.to_euclidean_division_equations. lia.
Qed.

(** What is dispatched is over. *)
Lemma dispatched_ok s p e r d :
  entries_ok s p -> ck_epoch_dispatch e (record p, deferred p) = (r, d) ->
  (forall x, old_ok s (stamp x) (called_at x) -> slot (called_at x) = slot e -> (exists j l, pending (record p) !! j = Some l /\ In x l) -> over s (stamp x)) ->
  entries_ok s (set_deferred d (set_record r p)).
Proof.
  intros (H1 & H2 & H3) Hd Hover. destruct (dispatch_spec _ _ _ _ _ Hd) as (_ & Hp & Hdd). split; [done|]. split; cbn.
  - intros j l x Hl Hx. apply (H2 j l x); [by eapply Hp|done].
  - intros x Hx. destruct (Hdd x Hx) as [?|(l & Hl & Hxl)]; [by apply H3|]. destruct (H2 _ l x Hl Hxl) as [Ho Es]. apply Hover; [done|done|by eexists _, _].
Qed.

Lemma settled s x : epoch_inv s -> alive s x -> g_epoch s - 1 <= sepoch x <= g_epoch s /\ (sid x < entered s)%nat.
Proof.
  intros Hi (c & p & Hc & Hx). pose proof (i_cpu _ Hi c p Hc) as Hok. destruct (k_sections _ _ _ Hok x Hx) as [Hs Hn].
  destruct (k_ok _ _ _ Hok) as [Hat _]. assert (g_epoch s - 1 <= r_epoch (record p)); [|split; [lia|done]].
  apply Hat. left. intros E. by rewrite E in Hx.
Qed.

Lemma old_over s n e : epoch_inv s -> old_ok s n e -> e < g_epoch s - 1 -> over s n.
Proof.
  intros Hi (Hn & _ & Hold) He. split; [done|]. intros x Hx. destruct (settled s x Hi Hx) as [Hs _].
  destruct (decide (sid x < n)%nat) as [Hlt|]; [|lia]. specialize (Hold x Hx Hlt). lia.
Qed.

Lemma inv_poll_start c p s : epoch_inv s -> cpus s !! c = Some p -> op p = Op_none -> epoch_inv (poll_start c p s).
Proof.
  intros Hi Hc Ho. unfold poll_start. destruct (ck_epoch_dispatch (u32 (g_epoch s - 2)) (record p, deferred p)) as [r d] eqn:Ed.
  destruct (dispatch_spec _ _ _ _ _ Ed) as ((E1 & E2 & E3 & E4) & Hp & _). pose proof (i_entries _ Hi c p Hc) as Hen.
  assert (Hg := i_g _ Hi).
  apply (inv_quiet c p); [done|done|by rewrite Ho|done|by split|by left|..].
  - apply (dispatched_ok s p _ r d Hen Ed). intros x Hx Es _. eapply old_over; [done|done|].
    destruct Hx as (_ & Hx & _). pose proof (slot_epoch (called_at x) (g_epoch s) 2 ltac:(lia) Es ltac:(lia) ltac:(lia)). lia.
  - intros Hev. unfold poll_ok. cbn [op set_op]. split; [lia|]. split.
    { eapply evolves_scanned; [exact Hev|]. apply scanned_records; lia. }
    split.
    + intros j l x Hl Hx. cbn in Hl. destruct Hen as (_ & H2 & _). destruct (H2 j l x (Hp j l x Hl Hx) Hx) as [(? & ? & _) _]. lia.
    + intros Hn. destruct Hn. unfold records. rewrite -in_rev. apply in_seq. apply lookup_lt_Some in Hc. lia.
Qed.

Lemma scan_inactive s E since af k cursor :
  epoch_inv s -> scanned s E since af (k :: cursor) -> active_of s k = 0 -> scanned s E since af cursor.
Proof.
  intros Hi (HE & Hs & Hk) Ha. split; [done|]. split; [done|]. intros j Hlt Hn. destruct (decide (j = k)) as [->|Hne].
  - intros p Hp. unfold active_of in Ha. rewrite Hp /= in Ha. pose proof (i_cpu _ Hi k p Hp) as Hok.
    pose proof (k_active _ _ _ Hok) as Hact. rewrite Ha in Hact. assert (Hb : 0 <= busy (op p)) by by destruct (op p).
    assert (Es : sections p = []) by (destruct (sections p); [done|simpl in Hact; lia]). rewrite Es in Hact |- *. split; [|by intros x []].
    intros _. split; [rewrite Es; intros [?|E']; [done|]|intros b v E']; rewrite E' /= in Hact; lia.
  - apply Hk; [done|]. intros [->|?]; auto.
Qed.

Lemma scan_epoch s E since k cursor :
  epoch_inv s -> scanned s E since true (k :: cursor) -> epoch_of s k = E -> scanned s E since true cursor.
Proof.
  intros Hi (HE & Hs & Hk) Ha. split; [done|]. split; [done|]. intros j Hlt Hn. destruct (decide (j = k)) as [->|Hne].
  - intros p Hp. unfold epoch_of in Ha. rewrite Hp /= in Ha. pose proof (i_cpu _ Hi k p Hp) as Hok. split.
    + intros _. split; [intros _; lia|]. intros b v E'. pose proof (k_store _ _ _ Hok b v E'). lia.
    + intros x Hx. right. split; [done|]. destruct (k_sections _ _ _ Hok x Hx). lia.
  - apply Hk; [done|]. intros [->|?]; auto.
Qed.

(** The bucket of the epoch before is over when a scan has found no section of an
    older epoch. *)
Lemma scanned_over s E since af x :
  scanned s E since af [] -> old_ok s (stamp x) (called_at x) -> (stamp x <= since)%nat -> called_at x < E \/ af = false -> over s (stamp x).
Proof.
  intros (_ & _ & Hk) (Hn & _ & Hold) Hst Hlt. split; [done|]. intros y Hy. pose proof Hy as (k & p & Hp & Hyp).
  destruct (Hk k ltac:(by eapply lookup_lt_Some) ltac:(by intros []) p Hp) as [_ H2].
  destruct (decide (sid y < stamp x)%nat) as [Hl|]; [|lia]. specialize (Hold y Hy Hl). destruct (H2 y Hyp) as [?|[Haf ?]]; [lia|].
  destruct Hlt as [?|Hlt]; [lia|congruence].
Qed.

Lemma reclaim_spec es r d r' d' :
  foldl (fun s e => ck_epoch_dispatch e s) (r, d) es = (r', d') ->
  (r_epoch r' = r_epoch r /\ r_active r' = r_active r /\ local_0 r' = local_0 r /\ local_1 r' = local_1 r) /\
  (forall j l x, pending r' !! j = Some l -> In x l -> pending r !! j = Some l) /\
  (forall x, In x d' -> In x d \/ exists j l, pending r !! j = Some l /\ In x l).
Proof.
  revert r d. induction es as [|e es IH]; intros r d; cbn [foldl]; [intros [= <- <-]; split; [done|]; split; [done|]; by left|].
  destruct (ck_epoch_dispatch e (r, d)) as [r1 d1] eqn:E1. intros H. destruct (IH _ _ H) as ((A1 & A2 & A3 & A4) & Hp & Hd).
  destruct (dispatch_spec _ _ _ _ _ E1) as ((B1 & B2 & B3 & B4) & Hp1 & Hd1).
  split; [repeat split; congruence|]. split; [intros j l x Hl Hx; eapply Hp1; eauto|].
  intros x Hx. destruct (Hd x Hx) as [Hx1|(j & l & Hl & Hxl)].
  - destruct (Hd1 x Hx1) as [?|(l & ? & ?)]; [by left|right; eauto].
  - right. exists j, l. split; [|done]. eapply Hp1; eauto.
Qed.

Lemma inv_poll_reclaim E since c p s :
  epoch_inv s -> cpus s !! c = Some p -> op p = Poll_scan E since [] false -> epoch_inv (set_cpu c (poll_reclaim E p) s).
Proof.
  intros Hi Hc Ho. pose proof (i_poll _ Hi c p Hc) as Hpo. rewrite /poll_ok Ho in Hpo. destruct Hpo as (HE & Hs & Hbef & Hown).
  assert (Es : sections p = []) by (apply Hown; [by intros []|done]). pose proof (i_entries _ Hi c p Hc) as (H1 & H2 & H3).
  unfold poll_reclaim. destruct (foldl _ _ _) as [r d] eqn:Ed. destruct (reclaim_spec _ _ _ _ _ Ed) as ((E1 & E2 & E3 & E4) & Hp & Hd). cbn in *.
  pose proof (i_g _ Hi). destruct Hs as [HEg Hs2].
  apply (inv_quiet c p); [done|done|by rewrite Ho|done|by split|right; split; [done|cbn; lia]| |].
  - split; [done|]. split; cbn.
    + intros j l x Hl Hx. eapply H2; [eapply Hp|]; eauto.
    + intros x Hx. destruct (Hd x Hx) as [?|(j & l & Hl & Hxl)]; [by apply H3|]. destruct (H2 j l x Hl Hxl) as [Hold _]. destruct (Hbef j l x Hl Hxl).
      eapply (scanned_over s E since false x); [done|done|done|by right].
  - intros _. apply poll_ok_quiet. right. by left.
Qed.

Lemma inv_poll_advance E since af c p s :
  epoch_inv s -> cpus s !! c = Some p -> op p = Poll_scan E since [] af -> g_epoch (poll_advance E c p s) <> 0 -> epoch_inv (poll_advance E c p s).
Proof.
  intros Hi Hc Ho. pose proof (i_poll _ Hi c p Hc) as Hpo. rewrite /poll_ok Ho in Hpo. destruct Hpo as (HE & Hs & Hbef & _).
  assert (Hgo : forall s1, epoch_inv s1 -> cpus s1 = cpus s -> scanned s1 E since af [] ->
    epoch_inv (let '(r, d) := ck_epoch_dispatch (u32 (E - 1)) (record p, deferred p) in set_cpu c (set_op Op_none (set_deferred d (set_record r p))) s1)).
  { intros s1 Hi1 Ec Hs1. destruct (ck_epoch_dispatch _ _) as [r d] eqn:Ed. rewrite -Ec in Hc. pose proof (i_entries _ Hi1 c p Hc) as Hen.
    destruct (dispatch_spec _ _ _ _ _ Ed) as ((E1 & E2 & E3 & E4) & _ & _).
    apply (inv_quiet c p); [done|done|by rewrite Ho|done|by split|by left| |].
    - apply (dispatched_ok s1 p _ r d Hen Ed). intros x Hx Es (j & l & Hl & Hxl). destruct (Hbef j l x Hl Hxl) as [Hle Hst].
      eapply scanned_over; [done|done|done|]. left. destruct Hx as (_ & Hx & _).
      pose proof (slot_epoch (called_at x) E 1 ltac:(lia) Es ltac:(lia) Hle). lia.
    - intros _. apply poll_ok_quiet. right. by left. }
  unfold poll_advance. intros Hg. destruct (Z.eqb_spec (g_epoch s) E) as [Eg|]; [|by apply Hgo].
  assert (Hu : u32 (E + 1) <> 0) by (by destruct (ck_epoch_dispatch _ _)).
  pose proof (inv_tick s E since af Hi Eg Hs Hu) as Hi1. apply (Hgo _ Hi1); [done|].
  destruct Hs as (HEg & Hn & Hk). destruct (i_g _ Hi1) as [_ Hlt]. cbn in Hlt.
  assert (Eu : u32 (E + 1) = E + 1).
  { pose proof (i_g _ Hi). destruct (Z.eq_dec (E + 1) (2 ^ 32)) as [E'|]; [by rewrite E' in Hu|]. apply u32_small. lia. }
  split; [cbn; lia|]. split; [done|]. intros k Hkl Hkn q Hq. destruct (Hk k Hkl Hkn q Hq) as [_ H2]. split; [cbn; lia|done].
Qed.

Lemma inv_advance c p s : epoch_inv s -> cpus s !! c = Some p -> g_epoch (advance c p s) <> 0 -> epoch_inv (advance c p s).
Proof.
  intros Hi Hc Hg. destruct (op p) as [|b|b v| |i|E since [|k cursor] af|E since k cursor] eqn:Ho;
    try (apply inv_sections_advance; [done|done|rewrite Ho; by eauto]); unfold advance in *; rewrite Ho in Hg |- *; [done|..].
  - pose proof (i_poll _ Hi c p Hc) as Hpo. destruct af; [by eapply inv_poll_advance|by eapply inv_poll_reclaim].
  - pose proof (i_poll _ Hi c p Hc) as Hpo. rewrite /poll_ok Ho in Hpo. destruct Hpo as (HE & Hs & Hbef & Hown).
    pose proof (i_entries _ Hi c p Hc) as Hen. destruct (Z.eqb_spec (active_of s k) 0) as [Ha|Ha].
    + apply (inv_quiet c p); [done|done|by rewrite Ho|done|done|by left|done|]. intros Hev. unfold poll_ok. cbn [op set_op].
      split; [done|]. split; [eapply evolves_scanned; [exact Hev|]; by eapply scan_inactive|]. split; [done|].
      intros Hn Haf. cbn. destruct (decide (k = c)) as [->|Hne]; [|apply Hown; [intros [->|?]; auto|done]].
      unfold active_of in Ha. rewrite Hc /= (k_active _ _ _ (i_cpu _ Hi c p Hc)) Ho /= in Ha. destruct (sections p); [done|simpl in Ha; lia].
    + apply (inv_quiet c p); [done|done|by rewrite Ho|done|done|by left|done|]. intros Hev. unfold poll_ok. cbn [op set_op].
      split; [done|]. split; [|done]. eapply evolves_scanned; [exact Hev|]. by eapply scanned_af.
  - pose proof (i_poll _ Hi c p Hc) as Hpo. rewrite /poll_ok Ho in Hpo. destruct Hpo as (HE & Hs & Hbef).
    pose proof (i_entries _ Hi c p Hc) as Hen. destruct (Z.eqb_spec (epoch_of s k) E) as [Ha|Ha].
    + apply (inv_quiet c p); [done|done|by rewrite Ho|done|done|by left|done|]. intros Hev. unfold poll_ok. cbn [op set_op].
      split; [done|]. split; [eapply evolves_scanned; [exact Hev|]; by eapply scan_epoch|]. split; [done|]. by intros.
    + apply (inv_quiet c p); [done|done|by rewrite Ho|done|done|by left|done|]. intros _. apply poll_ok_quiet. right. by left.
Qed.

(** ** Waiting *)

Lemma inv_waiter j w' s :
  epoch_inv s -> waiter_ok s w' -> epoch_inv (set_waiters (<[j := w']> (waiters s)) s).
Proof.
  intros [] Hw. split; try done. cbn. intros w Hin. apply list_elem_of_In, list_elem_of_lookup_1 in Hin as [i Hin].
  apply list_lookup_insert_Some in Hin as [(_ & <- & _)|[_ Hin]]; [done|]. apply i_waiters0, list_elem_of_In. by eapply list_elem_of_lookup_2.
Qed.

Lemma inv_wait_start s : epoch_inv s -> epoch_inv (wait_start s).
Proof.
  intros Hi. pose proof (i_g _ Hi). pose proof (fun x => settled s x Hi) as Hset. destruct Hi as []. unfold wait_start. split; try done. cbn.
  intros w [Hw| ->]%in_snoc; [by apply i_waiters0|]. split.
  - split; [cbn; lia|]. split; [cbn; lia|]. cbn. intros x Hx _. destruct (Hset x Hx). lia.
  - cbn. split; [split; [cbn; lia|by left]|]. exact (scanned_records s (g_epoch s) (entered s) false ltac:(lia) ltac:(lia)).
Qed.

(** The second round finds only what is younger than the wait. *)
Lemma wait_over s w :
  old_ok s (w_since w) (w_epoch w) -> scanned s (w_delta w) (w_since w) true [] -> w_epoch w < w_delta w -> over s (w_since w).
Proof.
  intros Ho Hs Hlt. apply (scanned_over s (w_delta w) (w_since w) true (EpochEntry 0 (w_epoch w) (w_since w))); [done|done|done|by left].
Qed.

Lemma waiter_next w s :
  epoch_inv s -> waiter_ok s w -> g_epoch (wait_next w s).2 <> 0 ->
  epoch_inv (wait_next w s).2 /\ waiter_ok (wait_next w s).2 (wait_next w s).1.
Proof.
  intros Hi [Ho Hw] Hg. pose proof (i_g _ Hi) as Hgr. unfold wait_next in Hg |- *. destruct (w_pc w) as [[|k cursor] af|k cursor|k cursor| |] eqn:Epc; cbn [fst snd] in *.
  - split; [done|]. split; [done|]. destruct Hw as [Hr Hs]. destruct af; cbn; [done|].
    apply (scanned_over s (w_delta w) (w_since w) false (EpochEntry 0 (w_epoch w) (w_since w))); [done|done|done|by right].
  - split; [done|]. split; [done|]. destruct Hw as [Hr Hs]. cbn. destruct (Z.eqb_spec (active_of s k) 0); cbn.
    + split; [done|]. by eapply scan_inactive.
    + split; [done|]. by eapply scanned_af.
  - split; [done|]. split; [done|]. destruct Hw as [Hr Hs]. cbn. destruct (Z.eqb_spec (epoch_of s k) (w_delta w)); cbn; [|done].
    split; [done|]. by eapply scan_epoch.
  - destruct Hw as [[Hr1 Hr2] Hs]. destruct (Z.eqb_spec (g_epoch s) (w_delta w)) as [E|E]; [by split|].
    assert (Hlt : w_delta w < g_epoch s) by (destruct Hs; lia).
    change (w_epoch (set_w_delta (g_epoch s) w)) with (w_epoch w) in *.
    destruct ((w_epoch w <? u32 (w_epoch w + CK_EPOCH_GRACE)) && (u32 (w_epoch w + CK_EPOCH_GRACE) <=? g_epoch s)) eqn:Eg; cbn [fst snd].
    + split; [done|]. split; [done|]. cbn. apply andb_true_iff in Eg as [E1%Z.ltb_lt E2%Z.leb_le]. destruct Ho as (Hn & He & Hold).
      assert (Eu : u32 (w_epoch w + CK_EPOCH_GRACE) = w_epoch w + 3).
      { unfold CK_EPOCH_GRACE in *. unfold u32, wrap in *. change (2 ^ 32) with 4294967296 in *. Z.to_euclidean_division_equations. lia. }
      eapply old_over; [done|by split|]. lia.
    + split; [done|]. split; [done|]. cbn. split; [split; cbn; [lia|]|apply scanned_records; cbn; [lia|by destruct Ho]].
      destruct Hr2 as [?|[? ?]]; [by left|right; lia].
  - destruct Hw as [[Hr1 Hr2] Hs]. destruct (Z.eqb_spec (g_epoch s) (w_delta w)) as [E|E]; cbn [fst snd] in *.
    + pose proof (inv_tick s _ _ true Hi E Hs Hg) as Hi1. assert (Eu : u32 (w_delta w + 1) = w_delta w + 1).
      { destruct (Z.eq_dec (w_delta w + 1) (2 ^ 32)) as [E'|]; [by rewrite E' in Hg|]. apply u32_small. lia. }
      assert (Hev : evolves s (set_g_epoch (u32 (w_delta w + 1)) s)).
      { split; [cbn; lia|done|done|]. intros c p Hc. exists p. split; [done|]. split; [by left|]. cbn. lia. }
      split; [done|]. split; [by eapply evolves_old|]. cbn. destruct Hr2 as [->|[-> Hlt]]; cbn.
      * split; [split; cbn; [lia|right; lia]|]. apply scanned_records; cbn; [lia|by destruct Ho].
      * eapply evolves_over; [exact Hev|]. by apply wait_over.
    + assert (Hlt : w_delta w < g_epoch s) by (destruct Hs; lia). split; [done|]. split; [done|]. cbn.
      destruct Hr2 as [->|[-> Hlt2]]; cbn; [|by apply wait_over].
      split; [split; cbn; [lia|right; lia]|]. apply scanned_records; cbn; [lia|by destruct Ho].
  - split; [done|]. split; [done|]. by rewrite Epc.
Qed.

(** ** Runs *)

Lemma inv_step s s' : epoch_inv s -> epoch_step s s' -> g_epoch s' <> 0 -> epoch_inv s'.
Proof.
  intros Hi Hs Hg. destruct Hs.
  - by apply inv_begin.
  - by apply inv_end.
  - by apply inv_call.
  - by apply inv_push.
  - by apply inv_poll_start.
  - by apply inv_advance.
  - by apply inv_wait_start.
  - destruct (waiter_next w s Hi) as [Hi' Hw]; [|done|].
    + apply (i_waiters _ Hi), list_elem_of_In. by eapply list_elem_of_lookup_2.
    + assert (E : waiters (wait_next w s).2 = waiters s).
      { unfold wait_next. destruct (w_pc w) as [[|? ?] ?|? ?|? ?| |]; cbn; try done; by repeat case_match; simplify_eq. }
      rewrite -E. by apply inv_waiter.
Qed.

Lemma inv_init n : epoch_inv (epoch_init n).
Proof.
  assert (Hc : forall c p, cpus (epoch_init n) !! c = Some p -> p = Cpu ck_epoch_register Op_none [] [] []) by (intros c p [-> _]%lookup_replicate; done).
  split; [cbn; lia|..]; try (intros c p ->%Hc).
  - split; cbn; try done; intros i [->| ->]; cbn; try done; lia.
  - split; [done|]. split; [|done]. cbn. intros j l x Hj Hx. assert (Hl : l ∈ replicate 4 (@nil ck_epoch_entry)) by (by eapply list_elem_of_lookup_2).
    apply elem_of_replicate in Hl as [-> _]. by destruct Hx.
  - done.
  - by intros w [].
Qed.

Lemma inv_runs s s' : epoch_inv s -> epoch_runs s s' -> epoch_inv s'.
Proof. intros Hi Hr. induction Hr as [|s s1 s2 [Hs Hg] _ IH]; [done|]. apply IH. by eapply inv_step. Qed.

Lemma inv_reachable s : epoch_reachable s -> epoch_inv s.
Proof. intros [n Hr]. eapply inv_runs; [apply (inv_init n)|exact Hr]. Qed.

(** ** The two promises *)

Lemma in_section_alive s n : in_section s n <-> exists x, alive s x /\ sid x = n.
Proof. split; [intros (c & p & x & H1 & H2 & H3)|intros (x & (c & p & H1 & H2) & H3)]; unfold alive, in_section; eauto 10. Qed.

Lemma over_section s s' n : epoch_inv s -> over s' (entered s) -> in_section s n -> ~ in_section s' n.
Proof.
  intros Hi [_ Hover] [x [Hx <-]]%in_section_alive [y [Hy E]]%in_section_alive. destruct (settled s x Hi Hx) as [_ Hlt].
  specialize (Hover y Hy). lia.
Qed.

(** C7: nothing is called back too early.  Whatever the processors do at the same
    time, an access at a time, when a callback is handed out, every section that
    a reader had entered before the callback was asked for is over. *)
Theorem epoch_grace_period s c p f s' :
  epoch_reachable s -> cpus s !! c = Some p -> op p = Op_none ->
  let x := EpochEntry f (g_epoch s) (entered s) in
  epoch_runs (set_cpu c (set_calls (x :: calls p) p) s) s' ->
  (exists k q, cpus s' !! k = Some q /\ In x (deferred q)) ->
  forall n, in_section s n -> ~ in_section s' n.
Proof.
  intros Hr Hc Ho x Hr' (k & q & Hk & Hx) n. pose proof (inv_reachable s Hr) as Hi.
  pose proof (inv_runs _ _ (inv_call c p f s Hi Hc Ho) Hr') as Hi'. apply over_section; [done|].
  destruct (i_entries _ Hi' k q Hk) as (_ & _ & H3). exact (H3 x Hx).
Qed.

Lemma runs_waiter s s' j w :
  epoch_runs s s' -> waiters s !! j = Some w -> exists w', waiters s' !! j = Some w' /\ w_since w' = w_since w.
Proof.
  intros Hr. revert w. induction Hr as [|s s1 s2 [Hs _] _ IH]; intros w Hw; [by exists w|].
  assert (Hk : waiters s1 = waiters s -> exists w', waiters s2 !! j = Some w' /\ w_since w' = w_since w) by (intros E; apply IH; by rewrite E).
  destruct Hs; [apply Hk..| |].
  - unfold ck_epoch_begin. by destruct (_ =? 0), section.
  - unfold ck_epoch_end. by destruct (sections p !! j0).
  - done.
  - done.
  - unfold poll_start. by destruct (ck_epoch_dispatch _ _).
  - unfold advance. destruct (op p) as [|b|b v| |i|E since [|k cursor] af|E since k cursor]; try done.
    + by destruct b.
    + destruct af; [|done]. unfold poll_advance. by destruct (g_epoch s =? E), (ck_epoch_dispatch _ _).
    + by destruct (_ =? _).
    + by destruct (_ =? _).
  - apply IH. cbn. by apply lookup_app_l_Some.
  - assert (Es : w_since (wait_next w0 s).1 = w_since w0).
    { unfold wait_next. destruct (w_pc w0) as [[|? ?] ?|? ?|? ?| |]; cbn; try done; by repeat case_match; simplify_eq. }
    destruct (decide (j0 = j)) as [->|Hne].
    + destruct (IH (wait_next w0 s).1) as (w' & Hw' & E); [cbn; apply list_lookup_insert_eq; by eapply lookup_lt_Some|].
      exists w'. split; [done|]. rewrite E Es. congruence.
    + apply IH. cbn. by rewrite list_lookup_insert_ne.
Qed.

(** C8: nobody waits too short.  When a thread that has called [epoch_wait] or
    [epoch_wait_preempt] goes on, every section that a reader had entered before
    the call is over. *)
Theorem epoch_wait_period s s' w :
  epoch_reachable s -> epoch_runs (wait_start s) s' ->
  waiters s' !! length (waiters s) = Some w -> w_pc w = Wait_done ->
  forall n, in_section s n -> ~ in_section s' n.
Proof.
  intros Hr Hr' Hw Hpc n. pose proof (inv_reachable s Hr) as Hi. pose proof (inv_runs _ _ (inv_wait_start s Hi) Hr') as Hi'.
  apply over_section; [done|]. destruct (runs_waiter _ _ (length (waiters s)) (Waiter (g_epoch s) (g_epoch s) 0 (entered s) (Wait_scan (records s) false)) Hr') as (w' & Hw' & Es).
  { cbn. by rewrite lookup_app_r // Nat.sub_diag. }
  rewrite Hw in Hw'. injection Hw' as <-. destruct (i_waiters _ Hi' w) as [_ Hd]; [apply list_elem_of_In; by eapply list_elem_of_lookup_2|].
  rewrite Hpc Es in Hd. exact Hd.
Qed.

(** ** Executable runs *)

Inductive epoch_event :=
  | E_enter (c : nat) (section : bool) | E_exit (c j : nat) | E_call (c f : nat) | E_push (c j : nat) | E_poll (c : nat)
  | E_advance (c : nat) | E_wait | E_wait_next (j : nat).

Definition idle (p : cpu) : bool := match op p with Op_none => true | _ => false end.

Definition exec (e : epoch_event) (s : epochs) : option epochs :=
  let on c (k : cpu -> option epochs) := match cpus s !! c with Some p => k p | None => None end in
  let on_idle c (k : cpu -> option epochs) := on c (fun p => if idle p then k p else None) in
  match e with
  | E_enter c b => on_idle c (fun p => if Z.of_nat (length (sections p)) <? 2 ^ 32 - 1 then Some (ck_epoch_begin b c p s) else None)
  | E_exit c j => on_idle c (fun p => if forallb (fun x => match sbucket x with Some _ => true | None => false end) (sections p)
                                      then Some (ck_epoch_end j c p s) else None)
  | E_call c f => on_idle c (fun p => Some (set_cpu c (set_calls (EpochEntry f (g_epoch s) (entered s) :: calls p) p) s))
  | E_push c j => on_idle c (fun p => match calls p !! j with
      | Some x => Some (set_cpu c (set_calls (delete j (calls p)) (set_record (ck_epoch_call x (record p)) p)) s) | None => None end)
  | E_poll c => on_idle c (fun p => Some (poll_start c p s))
  | E_advance c => on c (fun p => Some (advance c p s))
  | E_wait => Some (wait_start s)
  | E_wait_next j => match waiters s !! j with
      | Some w => Some (set_waiters (<[j := (wait_next w s).1]> (waiters s)) (wait_next w s).2) | None => None end
  end.

Lemma exec_step e s s' : exec e s = Some s' -> epoch_step s s'.
Proof.
  assert (Hidle : forall p, idle p = true -> op p = Op_none) by (intros p; unfold idle; by destruct (op p)).
  unfold exec. destruct e; repeat case_match; try done; intros [= <-].
  - apply es_enter; [done|by apply Hidle|by apply Z.ltb_lt].
  - apply es_exit; [done|by apply Hidle|]. intros x _ _. apply List.Forall_forall. intros y Hy.
    match goal with H : forallb _ _ = true |- _ => rewrite forallb_forall in H; specialize (H y Hy) end. by destruct (sbucket y).
  - apply es_call; [done|by apply Hidle].
  - apply es_push; [done|by apply Hidle|done].
  - apply es_poll; [done|by apply Hidle].
  - by apply es_advance.
  - apply es_wait.
  - by apply es_wait_next.
Qed.

Fixpoint exec_all (es : list epoch_event) (s : epochs) : option epochs :=
  match es with
  | [] => Some s
  | e :: es => match exec e s with Some s' => if g_epoch s' =? 0 then None else exec_all es s' | None => None end
  end.

Lemma exec_runs es s s' : exec_all es s = Some s' -> epoch_runs s s'.
Proof.
  revert s. induction es as [|e es IH]; intros s; cbn; [by intros [= ->]|]. destruct (exec e s) as [s1|] eqn:E; [|done].
  destruct (Z.eqb_spec (g_epoch s1) 0); [done|]. intros H. eapply rtc_l; [split; [by eapply exec_step|done]|by apply IH].
Qed.
