(* ===== verification/EpochWitness.v ===== *)
(** * Epoch-based reclamation: runs

    Two processors, a reader on one and a writer on the other: what the theorems
    say of concrete runs.  Then two runs that go wrong: sections that overlap so
    that the epoch never goes on, and an [epoch_call] that is interrupted. *)

From S2P Require Import Prelude Epoch EpochSpec.

Definition two : epochs := epoch_init 2.

(** A processor goes on [n] times. *)
Definition turns (c n : nat) : list epoch_event := repeat (E_advance c) n.

(** A reader enters a section on processor 1. *)
Definition reading : list epoch_event := E_enter 1 true :: turns 1 3.
(** A writer on processor 0 asks for a callback; the interrupt server polls. *)
Definition poll0 (n : nat) : list epoch_event := E_poll 0 :: turns 0 n.

Definition state_after (es : list epoch_event) (s : epochs) : epochs := default s (exec_all es s).

Definition with_reader : epochs := state_after reading two.
Definition asked : list epoch_event := [E_push 0 0] ++ poll0 4 ++ poll0 2 ++ [E_exit 1 0; E_advance 1] ++ poll0 3.

Lemma with_reader_reachable : epoch_reachable with_reader.
Proof. exists 2%nat. apply (exec_runs reading). vm_compute. reflexivity. Qed.

(** The callback is not handed out by the first two polls, while the reader is in
    its section, but by the third. *)
Lemma epoch_grace_period_witness :
  let x := EpochEntry 7 1 1 in
  exists p s', cpus with_reader !! 0%nat = Some p /\
    epoch_runs (set_cpu 0 (set_calls (x :: calls p) p) with_reader) s' /\ in_section with_reader 0 /\ ~ in_section s' 0 /\
    g_epoch s' = 2.
Proof.
  intros x. assert (Hin : in_section with_reader 0) by (exists 1%nat; eexists _, _; split; [vm_compute; reflexivity|]; split; [by left|reflexivity]).
  eexists _, (state_after (E_call 0 7 :: asked) with_reader). split; [vm_compute; reflexivity|].
  assert (Hruns : epoch_runs (set_cpu 0 (set_calls [x] (Cpu ck_epoch_register Op_none [] [] [])) with_reader) (state_after (E_call 0 7 :: asked) with_reader))
    by (apply (exec_runs asked); vm_compute; reflexivity).
  split; [exact Hruns|]. split; [exact Hin|]. split; [|vm_compute; reflexivity].
  refine (epoch_grace_period with_reader 0 (Cpu ck_epoch_register Op_none [] [] []) 7 _ with_reader_reachable _ _ Hruns _ 0 Hin).
  - vm_compute. reflexivity.
  - reflexivity.
  - exists 0%nat. eexists. split; [vm_compute; reflexivity|]. by left.
Defined.

(** A thread waits while the reader is in its section. *)
Definition waiting : list epoch_event := repeat (E_wait_next 0) 7 ++ [E_exit 1 0; E_advance 1] ++ repeat (E_wait_next 0) 5.

Lemma epoch_wait_period_witness :
  let s' := state_after waiting (wait_start with_reader) in
  in_section with_reader 0 /\ (exists w, waiters s' !! 0%nat = Some w /\ w_pc w = Wait_done) /\ ~ in_section s' 0.
Proof.
  intros s'. assert (Hin : in_section with_reader 0) by (exists 1%nat; eexists _, _; split; [vm_compute; reflexivity|]; split; [by left|reflexivity]).
  assert (Hw : exists w, waiters s' !! 0%nat = Some w /\ w_pc w = Wait_done) by (eexists; split; vm_compute; reflexivity).
  split; [exact Hin|]. split; [exact Hw|]. destruct Hw as (w & Hw & Hpc).
  refine (epoch_wait_period with_reader s' w with_reader_reachable _ Hw Hpc 0 Hin).
  apply (exec_runs waiting). vm_compute. reflexivity.
Defined.

(** ** Sections that overlap

    [ck_epoch_begin] stores the epoch it has loaded, and [_ck_epoch_addref] loads
    it a second time.  If it goes on in between, the record stays behind its only
    bucket, and [_ck_epoch_delref] brings it up to date only when that bucket is
    empty and the other is not.  As long as the next section begins before the
    last one ends, whatever is waited for never comes: every section is short, and
    yet the epoch stays. *)

Definition late_tick : list epoch_event :=
  reading ++ [E_exit 1 0; E_advance 1; E_enter 1 true; E_poll 0] ++ turns 0 2 ++ turns 1 2 ++ turns 0 2 ++ turns 1 1.

(** The next section begins, the last one ends, and processor 0 polls. *)
Definition overlap : list epoch_event := [E_enter 1 true; E_advance 1; E_exit 1 0; E_advance 1] ++ poll0 2.

Definition behind (s : epochs) : Prop :=
  g_epoch s = 2 /\ exists r0 xs0 cs0 d0 np nd pe n cs d,
    cpus s = [Cpu r0 Op_none xs0 cs0 d0;
              Cpu (EpochRecord 1 1 (EpochRef 2 1) (EpochRef 1 0) np nd pe) Op_none [InSection n (Some 0) 2] cs d].

Lemma late_tick_behind : exists s, exec_all late_tick two = Some s /\ behind s.
Proof. eexists. split; [vm_compute; reflexivity|]. split; [reflexivity|]. by do 10 eexists. Qed.

#[local] Arguments u32 : simpl never.
#[local] Arguments ck_epoch_dispatch : simpl never.
#[local] Arguments Z.pow : simpl never.

Lemma exec_all_cons e es s s1 : exec e s = Some s1 -> g_epoch s1 <> 0 -> exec_all (e :: es) s = exec_all es s1.
Proof. intros E Hg. cbn. by rewrite E (proj2 (Z.eqb_neq _ _) Hg). Qed.

Lemma overlap_behind s : behind s -> exists s', exec_all overlap s = Some s' /\ behind s'.
Proof.
  destruct s as [g ps ws n]. intros [Hg (r0 & xs0 & cs0 & d0 & np & nd & pe & m & cs & d & Hp)]. cbn in Hg, Hp. subst g ps.
  destruct (ck_epoch_dispatch (u32 (2 - 2)) (r0, d0)) as [r d1] eqn:Ed.
  set (x := InSection m (Some 0) 2). set (y := InSection n (Some 0) 2).
  set (st o0 r0 d0 a count o xs n := Epochs 2 [Cpu r0 o0 xs0 cs0 d0; Cpu (EpochRecord 1 a (EpochRef 2 count) (EpochRef 1 0) np nd pe) o xs cs d] ws n).
  exists (st Op_none r d1 1 1 Op_none [y] (S n)). split; [|split; [done|by do 10 eexists]].
  change (exec_all overlap (st Op_none r0 d0 1 1 Op_none [x] n) = Some (st Op_none r d1 1 1 Op_none [y] (S n))).
  unfold overlap, poll0, turns. cbn [repeat app].
  rewrite (exec_all_cons _ _ _ (st Op_none r0 d0 2 1 Addref [x] n)) //.
  rewrite (exec_all_cons _ _ _ (st Op_none r0 d0 2 2 Op_none [x; y] (S n))) //.
  rewrite (exec_all_cons _ _ _ (st Op_none r0 d0 1 2 (Delref 0) [y] (S n))) //.
  rewrite (exec_all_cons _ _ _ (st Op_none r0 d0 1 1 Op_none [y] (S n))) //.
  rewrite (exec_all_cons _ _ _ (st (Poll_scan 2 (S n) [1%nat; 0%nat] false) r d1 1 1 Op_none [y] (S n))) //.
  cbn. unfold poll_start. cbn. by rewrite Ed.
Qed.

Lemma exec_all_app es es' s s1 : exec_all es s = Some s1 -> exec_all (es ++ es') s = exec_all es' s1.
Proof.
  revert s. induction es as [|e es IH]; intros s; cbn; [by intros [= ->]|]. destruct (exec e s) as [s2|]; [|done].
  destruct (g_epoch s2 =? 0); [done|]. apply IH.
Qed.

(** However many sections have begun and ended, the epoch is still the same. *)
Theorem epoch_starves n : exists s, exec_all (late_tick ++ concat (repeat overlap n)) two = Some s /\ g_epoch s = 2.
Proof.
  destruct late_tick_behind as (s & E & Hs). rewrite (exec_all_app _ _ _ _ E). clear E. revert s Hs.
  induction n as [|n IH]; intros s Hs; [exists s; split; [done|apply Hs]|]. cbn [repeat concat].
  destruct (overlap_behind s Hs) as (s1 & E & H1). rewrite (exec_all_app _ _ _ _ E). by apply IH.
Qed.

(** ** A call that is interrupted

    [epoch_call] pins its thread to the processor, but another thread of the
    processor may run in the midst of it, and the interrupt server does; the push
    of [ck_epoch_call] is for a single producer without consumers.  Here it is cut
    between its read and its write of the head. *)

Definition push_read (x : ck_epoch_entry) (r : ck_epoch_record) : list ck_epoch_entry := default [] (pending r !! slot (called_at x)).
Definition push_write (x : ck_epoch_entry) (next : list ck_epoch_entry) (r : ck_epoch_record) : ck_epoch_record :=
  set_pending (u32 (n_pending r + 1)) (n_dispatch r) (<[slot (called_at x) := x :: next]> (pending r)) r.

Lemma push_uninterrupted x r :
  (slot (called_at x) < length (pending r))%nat -> push_write x (push_read x r) r = ck_epoch_call x r.
Proof.
  intros Hlt. unfold push_write, push_read, ck_epoch_call. fold (slot (called_at x)). do 2 f_equal.
  destruct (lookup_lt_is_Some_2 _ _ Hlt) as [l E]. rewrite E. cbn [default]. symmetry. apply list_eq. intros k.
  rewrite list_lookup_alter list_lookup_insert. destruct (decide (slot (called_at x) = k)) as [<-|Hk].
  - rewrite E /=. by rewrite decide_True.
  - rewrite decide_False //. naive_solver.
Qed.

Definition first_call : ck_epoch_entry := EpochEntry 1 1 0.
Definition second_call : ck_epoch_entry := EpochEntry 2 1 0.

(** One processor.  The first callback is pending; the second call has read the
    head when the interrupt server polls. *)
Definition one_pending : epochs := state_after [E_call 0 1; E_push 0 0] (epoch_init 1).
Definition polled : epochs := state_after (poll0 3) one_pending.

(** The call goes on where it has been interrupted, and later the server polls
    again. *)
Definition call_goes_on (s s0 : epochs) : epochs :=
  match cpus s !! 0%nat, cpus s0 !! 0%nat with
  | Some p, Some p0 => set_cpu 0 (set_record (push_write second_call (push_read second_call (record p0)) (record p)) p) s
  | _, _ => s
  end.

(** The first callback is handed out twice, and the count of the pending ones goes
    below 0. *)
Example epoch_call_interrupted :
  (deferred <$> cpus polled !! 0%nat) = Some [first_call] /\
  (deferred <$> cpus (state_after (poll0 3) (call_goes_on polled one_pending)) !! 0%nat) =
    Some [first_call; second_call; first_call] /\
  (n_pending (record (default (Cpu ck_epoch_register Op_none [] [] []) (cpus (state_after (poll0 3) (call_goes_on polled one_pending)) !! 0%nat)))) =
    2 ^ 32 - 1.
Proof. vm_compute. auto. Qed.
