(* ===== verification/Wire.v ===== *)
(** * Bytes on the wire

    The byte-stream macros the PPP daemon builds and parses packets with
    ([GETCHAR], [GETSHORT], [GETLONG], [PUTCHAR], [PUTSHORT], [PUTLONG]) over
    lists of bytes, C strings, and stores into a fixed buffer. *)

From S2P Require Import Prelude.

Abbreviation byte := Z (only parsing).
Abbreviation bytes := (list Z) (only parsing).

Definition byte_ok (b : byte) : Prop := 0 <= b < 256.

(** ** Writing *)

Definition PUTCHAR (c : Z) : bytes := [u8 c].
Definition PUTSHORT (s : Z) : bytes := [u8 (Z.shiftr s 8); u8 s].
Definition PUTLONG (l : Z) : bytes :=
  [u8 (Z.shiftr l 24); u8 (Z.shiftr l 16); u8 (Z.shiftr l 8); u8 l].

(** ** Reading: [None] is a read beyond the bytes that are there *)

Definition GETCHAR (p : bytes) : option (Z * bytes) :=
  match p with
  | c :: p' => Some (c, p')
  | _ => None
  end.

Definition GETSHORT (p : bytes) : option (Z * bytes) :=
  match p with
  | a :: b :: p' => Some (Z.lor (Z.shiftl a 8) b, p')
  | _ => None
  end.

Definition GETLONG (p : bytes) : option (Z * bytes) :=
  match p with
  | a :: b :: c :: d :: p' =>
      Some (Z.lor (Z.lor (Z.lor (Z.shiftl a 24) (Z.shiftl b 16)) (Z.shiftl c 8)) d, p')
  | _ => None
  end.

(** ** Strings *)

(** The bytes of a string literal. *)
Definition text (s : string) : bytes :=
  map (fun c => Z.of_N (Ascii.N_of_ascii c)) (String.list_ascii_of_string s).

(** A C string ends before its first zero. *)
Fixpoint until_nul (p : bytes) : bytes :=
  match p with
  | [] => []
  | c :: p' => if c =? 0 then [] else c :: until_nul p'
  end.

(** ** The frame of PPP *)

Definition PPP_HDRLEN := 4.
Definition PPP_FCSLEN := 2.
Definition PPP_MRU := 1500.
Definition PPP_ALLSTATIONS := 255.
Definition PPP_UI := 3.
Definition PPP_FLAG := 0x7e.
Definition PPP_ESCAPE := 0x7d.
Definition PPP_TRANS := 0x20.
Definition PPP_IP := 0x21.
Definition PPP_IPCP := 0x8021.
Definition PPP_CCP := 0x80fd.
Definition PPP_LCP := 0xc021.
Definition PPP_PAP := 0xc023.
Definition PPP_LQR := 0xc025.
Definition PPP_CHAP := 0xc223.

Definition PPP_ADDRESS (p : bytes) : Z := nth 0 p 0.
Definition PPP_CONTROL (p : bytes) : Z := nth 1 p 0.
Definition PPP_PROTOCOL (p : bytes) : Z := default 0 (fst <$> GETSHORT (drop 2 p)).

(** ** Lemmas *)

Lemma PUTCHAR_ok c : Forall byte_ok (PUTCHAR c).
Proof. repeat constructor; apply u8_range. Qed.

Lemma PUTSHORT_ok s : Forall byte_ok (PUTSHORT s).
Proof. repeat constructor; apply u8_range. Qed.

Lemma PUTLONG_ok l : Forall byte_ok (PUTLONG l).
Proof. repeat constructor; apply u8_range. Qed.

Lemma lor_shiftl_add a b n :
  0 <= n -> 0 <= a -> 0 <= b < 2 ^ n -> Z.lor (Z.shiftl a n) b = a * 2 ^ n + b.
Proof.
  intros Hn Ha Hb. rewrite Z.shiftl_mul_pow2 //.
  assert (Hl : Z.land (a * 2 ^ n) b = 0).
  { apply Z.bits_inj'. intros i Hi. rewrite Z.land_spec Z.bits_0.
    destruct (Z.lt_ge_cases i n); [by rewrite Z.mul_pow2_bits_low|].
    apply andb_false_iff. right. destruct (decide (b = 0)) as [->|]; [apply Z.bits_0|].
    apply Z.bits_above_log2; [lia|]. apply Z.lt_le_trans with n; [|done].
    apply Z.log2_lt_pow2; lia. }
  by rewrite Z.add_nocarry_lxor // Z.lxor_lor.
Qed.

Lemma GETCHAR_PUTCHAR c p : GETCHAR (PUTCHAR c ++ p) = Some (u8 c, p).
Proof. done. Qed.

Lemma GETSHORT_PUTSHORT s p : GETSHORT (PUTSHORT s ++ p) = Some (u16 s, p).
Proof.
  unfold GETSHORT, PUTSHORT. simpl. do 2 f_equal.
  rewrite lor_shiftl_add; [lia|apply u8_range|apply u8_range|].
  unfold u8, u16, wrap. rewrite Z.shiftr_div_pow2 //.
  change (2 ^ 8) with 256. change (2 ^ 16) with 65536.
  Z.to_euclidean_division_equations. lia.
Qed.

Lemma GETLONG_PUTLONG l p : GETLONG (PUTLONG l ++ p) = Some (u32 l, p).
Proof.
  unfold GETLONG, PUTLONG. simpl. do 2 f_equal.
  pose proof (u8_range (Z.shiftr l 24)). pose proof (u8_range (Z.shiftr l 16)).
  pose proof (u8_range (Z.shiftr l 8)). pose proof (u8_range l).
  assert (E24 : forall a b c d, 0 <= a < 256 -> 0 <= b < 256 -> 0 <= c < 256 -> 0 <= d < 256 ->
    Z.lor (Z.lor (Z.lor (Z.shiftl a 24) (Z.shiftl b 16)) (Z.shiftl c 8)) d
    = a * 2 ^ 24 + b * 2 ^ 16 + c * 2 ^ 8 + d).
  { intros a b c d ????. rewrite -!Z.lor_assoc.
    rewrite (lor_shiftl_add c); [lia..|]. rewrite (lor_shiftl_add b); [lia..|].
    rewrite (lor_shiftl_add a); lia. }
  rewrite E24 //. unfold u8, u32, wrap. rewrite !Z.shiftr_div_pow2 //.
  change (2 ^ 8) with 256. change (2 ^ 16) with 65536. change (2 ^ 24) with 16777216.
  change (2 ^ 32) with 4294967296.
  Z.to_euclidean_division_equations. lia.
Qed.

Lemma GETSHORT_range p v p' : Forall byte_ok p -> GETSHORT p = Some (v, p') -> 0 <= v < 65536.
Proof.
  destruct p as [|a [|b p]]; simpl; intros Hp ?; simplify_eq.
  decompose_Forall_hyps. unfold byte_ok in *. rewrite lor_shiftl_add; lia.
Qed.

(** ** A buffer of fixed size *)

(** [BCOPY(bs, buf + off, length bs)]: [None] when it runs over the end of the
    buffer. *)
Definition store (buf : bytes) (off : nat) (bs : bytes) : option bytes :=
  if (off + length bs <=? length buf)%nat
  then Some (take off buf ++ bs ++ drop (off + length bs) buf)
  else None.

Lemma store_Some buf off bs :
  (off + length bs <= length buf)%nat ->
  store buf off bs = Some (take off buf ++ bs ++ drop (off + length bs) buf).
Proof. intros Hle. unfold store. by rewrite (proj2 (Nat.leb_le _ _) Hle). Qed.

Lemma store_length buf off bs buf' : store buf off bs = Some buf' -> length buf' = length buf.
Proof.
  unfold store. destruct (Nat.leb_spec (off + length bs) (length buf)); [|done].
  intros [= <-]. rewrite !length_app length_take length_drop. lia.
Qed.

(** Reading on behind a header written at the start of a buffer. *)
Lemma take_store_prefix buf hd n buf' :
  store buf 0 hd = Some buf' ->
  take (length hd + n) buf' = hd ++ take n (drop (length hd) buf).
Proof.
  unfold store. destruct (Nat.leb_spec (0 + length hd) (length buf)); [|done].
  intros [= <-]. simpl. by rewrite take_app_add.
Qed.

Lemma drop_store buf off bs buf' :
  store buf off bs = Some buf' -> take (length bs) (drop off buf') = bs.
Proof.
  unfold store. destruct (Nat.leb_spec (off + length bs) (length buf)); [|done].
  intros [= <-]. rewrite drop_app_length'; [rewrite length_take; lia|].
  by rewrite take_app_length.
Qed.

Create Rewrite HintDb wire.
#[export] Hint Resolve PUTCHAR_ok PUTSHORT_ok PUTLONG_ok : bytes.
#[export] Hint Rewrite GETSHORT_PUTSHORT GETLONG_PUTLONG : wire.
