(* ===== verification/Fcs.v ===== *)
(** * The frame check sequence

    The 16-bit check of a PPP frame, computed with the table that both
    [ppp_tty.c] and [demand.c] hold; a reference that works bit by bit; what a
    sender appends leaves the value a receiver looks for; and which errors on
    the line the check finds. *)

From S2P Require Import Prelude Wire.

Definition PPP_INITFCS := 0xffff.
Definition PPP_GOODFCS := 0xf0b8.

Definition fcstab : list Z :=
  [0x0000; 0x1189; 0x2312; 0x329b; 0x4624; 0x57ad; 0x6536; 0x74bf;
   0x8c48; 0x9dc1; 0xaf5a; 0xbed3; 0xca6c; 0xdbe5; 0xe97e; 0xf8f7;
   0x1081; 0x0108; 0x3393; 0x221a; 0x56a5; 0x472c; 0x75b7; 0x643e;
   0x9cc9; 0x8d40; 0xbfdb; 0xae52; 0xdaed; 0xcb64; 0xf9ff; 0xe876;
   0x2102; 0x308b; 0x0210; 0x1399; 0x6726; 0x76af; 0x4434; 0x55bd;
   0xad4a; 0xbcc3; 0x8e58; 0x9fd1; 0xeb6e; 0xfae7; 0xc87c; 0xd9f5;
   0x3183; 0x200a; 0x1291; 0x0318; 0x77a7; 0x662e; 0x54b5; 0x453c;
   0xbdcb; 0xac42; 0x9ed9; 0x8f50; 0xfbef; 0xea66; 0xd8fd; 0xc974;
   0x4204; 0x538d; 0x6116; 0x709f; 0x0420; 0x15a9; 0x2732; 0x36bb;
   0xce4c; 0xdfc5; 0xed5e; 0xfcd7; 0x8868; 0x99e1; 0xab7a; 0xbaf3;
   0x5285; 0x430c; 0x7197; 0x601e; 0x14a1; 0x0528; 0x37b3; 0x263a;
   0xdecd; 0xcf44; 0xfddf; 0xec56; 0x98e9; 0x8960; 0xbbfb; 0xaa72;
   0x6306; 0x728f; 0x4014; 0x519d; 0x2522; 0x34ab; 0x0630; 0x17b9;
   0xef4e; 0xfec7; 0xcc5c; 0xddd5; 0xa96a; 0xb8e3; 0x8a78; 0x9bf1;
   0x7387; 0x620e; 0x5095; 0x411c; 0x35a3; 0x242a; 0x16b1; 0x0738;
   0xffcf; 0xee46; 0xdcdd; 0xcd54; 0xb9eb; 0xa862; 0x9af9; 0x8b70;
   0x8408; 0x9581; 0xa71a; 0xb693; 0xc22c; 0xd3a5; 0xe13e; 0xf0b7;
   0x0840; 0x19c9; 0x2b52; 0x3adb; 0x4e64; 0x5fed; 0x6d76; 0x7cff;
   0x9489; 0x8500; 0xb79b; 0xa612; 0xd2ad; 0xc324; 0xf1bf; 0xe036;
   0x18c1; 0x0948; 0x3bd3; 0x2a5a; 0x5ee5; 0x4f6c; 0x7df7; 0x6c7e;
   0xa50a; 0xb483; 0x8618; 0x9791; 0xe32e; 0xf2a7; 0xc03c; 0xd1b5;
   0x2942; 0x38cb; 0x0a50; 0x1bd9; 0x6f66; 0x7eef; 0x4c74; 0x5dfd;
   0xb58b; 0xa402; 0x9699; 0x8710; 0xf3af; 0xe226; 0xd0bd; 0xc134;
   0x39c3; 0x284a; 0x1ad1; 0x0b58; 0x7fe7; 0x6e6e; 0x5cf5; 0x4d7c;
   0xc60c; 0xd785; 0xe51e; 0xf497; 0x8028; 0x91a1; 0xa33a; 0xb2b3;
   0x4a44; 0x5bcd; 0x6956; 0x78df; 0x0c60; 0x1de9; 0x2f72; 0x3efb;
   0xd68d; 0xc704; 0xf59f; 0xe416; 0x90a9; 0x8120; 0xb3bb; 0xa232;
   0x5ac5; 0x4b4c; 0x79d7; 0x685e; 0x1ce1; 0x0d68; 0x3ff3; 0x2e7a;
   0xe70e; 0xf687; 0xc41c; 0xd595; 0xa12a; 0xb0a3; 0x8238; 0x93b1;
   0x6b46; 0x7acf; 0x4854; 0x59dd; 0x2d62; 0x3ceb; 0x0e70; 0x1ff9;
   0xf78f; 0xe606; 0xd49d; 0xc514; 0xb1ab; 0xa022; 0x92b9; 0x8330;
   0x7bc7; 0x6a4e; 0x58d5; 0x495c; 0x3de3; 0x2c6a; 0x1ef1; 0x0f78].

Definition PPP_FCS (fcs c : Z) : Z :=
  Z.lxor (Z.shiftr fcs 8) (nth (Z.to_nat (Z.land (Z.lxor fcs c) 0xff)) fcstab 0).

(** [pppfcs] of [ppp_tty.c]. *)
Fixpoint pppfcs (fcs : Z) (cp : bytes) : Z :=
  match cp with
  | [] => fcs
  | c :: cp => pppfcs (PPP_FCS fcs c) cp
  end.

(** The bytes a sender appends. *)
Definition fcs_bytes (fcs : Z) : bytes := [u8 (Z.land (Z.lnot fcs) 0xff); u8 (Z.land (Z.shiftr (Z.lnot fcs) 8) 0xff)].

Lemma pppfcs_app fcs bs bs' : pppfcs fcs (bs ++ bs') = pppfcs (pppfcs fcs bs) bs'.
Proof. revert fcs. by induction bs as [|b bs IH]; simpl. Qed.

(** ** The reference: one bit at a time *)

(** The polynomial x^16 + x^12 + x^5 + 1, its bits in the order of the line. *)
Definition fcs_poly := 0x8408.
Definition fcs_bit (f : Z) : Z := if Z.testbit f 0 then Z.lxor (Z.shiftr f 1) fcs_poly else Z.shiftr f 1.
Fixpoint fcs_bits (n : nat) (f : Z) : Z :=
  match n with O => f | S n => fcs_bits n (fcs_bit f) end.

(** [v] is an unsigned integer of [w] bits. *)
Definition within (w v : Z) : Prop := 0 <= v < 2 ^ w.

Lemma fcs_bits_add n m f : fcs_bits (n + m) f = fcs_bits m (fcs_bits n f).
Proof. revert f. by induction n as [|n IH]; simpl. Qed.

Lemma fcs_bit_lxor a b : fcs_bit (Z.lxor a b) = Z.lxor (fcs_bit a) (fcs_bit b).
Proof.
  unfold fcs_bit. rewrite Z.lxor_spec Z.shiftr_lxor.
  destruct (Z.testbit a 0), (Z.testbit b 0); simpl; apply Z.bits_inj'; intros i Hi; rewrite !Z.lxor_spec;
    by destruct (Z.testbit (Z.shiftr a 1) i), (Z.testbit (Z.shiftr b 1) i), (Z.testbit fcs_poly i).
Qed.

Lemma fcs_bits_lxor n a b : fcs_bits n (Z.lxor a b) = Z.lxor (fcs_bits n a) (fcs_bits n b).
Proof. revert a b. induction n as [|n IH]; intros a b; simpl; [done|]. by rewrite fcs_bit_lxor IH. Qed.

(** Zeroes in front of [a] are shifted out. *)
Lemma fcs_bits_shiftl n a : fcs_bits n (Z.shiftl a (Z.of_nat n)) = a.
Proof.
  revert a. induction n as [|n IH]; intros a; [apply Z.shiftl_0_r|].
  cbn [fcs_bits]. unfold fcs_bit. rewrite Z.shiftl_spec_low; [lia|].
  rewrite Z.shiftr_shiftl_l; [lia|]. replace (Z.of_nat (S n) - 1) with (Z.of_nat n) by lia. apply IH.
Qed.

Lemma within_bits w v : 0 <= w -> 0 <= v -> (within w v <-> forall i, w <= i -> Z.testbit v i = false).
Proof.
  intros Hw Hv. unfold within. split.
  - intros [_ H] i Hi. destruct (decide (v = 0)) as [->|]; [apply Z.bits_0|].
    apply Z.bits_above_log2; [done|]. apply Z.lt_le_trans with w; [|done]. apply Z.log2_lt_pow2; lia.
  - intros H. split; [done|]. destruct (decide (v = 0)) as [->|]; [by apply Z.pow_pos_nonneg|].
    apply Z.log2_lt_pow2; [lia|]. destruct (Z.lt_ge_cases (Z.log2 v) w) as [|Hg]; [done|].
    specialize (H _ Hg). by rewrite Z.bit_log2 in H; [lia|].
Qed.

Lemma within_lxor w a b : 0 <= w -> within w a -> within w b -> within w (Z.lxor a b).
Proof.
  intros Hw Ha Hb. assert (H0 : 0 <= Z.lxor a b) by (apply Z.lxor_nonneg; unfold within in *; lia).
  apply within_bits; [done|done|]. intros i Hi. rewrite Z.lxor_spec.
  rewrite (proj1 (within_bits w a _ _) Ha) //; [by destruct Ha|]. by rewrite (proj1 (within_bits w b _ _) Hb) //; destruct Hb.
Qed.

Lemma within_shiftr w v n : 0 <= n <= w -> within w v -> within (w - n) (Z.shiftr v n).
Proof.
  unfold within. intros Hn Hv. rewrite Z.shiftr_div_pow2; [lia|].
  assert (0 < 2 ^ n) by (apply Z.pow_pos_nonneg; lia). split; [apply Z.div_pos; lia|].
  apply Z.div_lt_upper_bound; [done|]. assert (Hp : 2 ^ w = 2 ^ n * 2 ^ (w - n)) by (rewrite -Z.pow_add_r; [lia|lia|f_equal; lia]). lia.
Qed.

Lemma within_weaken w w' v : 0 <= w <= w' -> within w v -> within w' v.
Proof. intros Hw [? ?]. split; [done|]. apply Z.lt_le_trans with (2 ^ w); [done|]. apply Z.pow_le_mono_r; lia. Qed.

Lemma fcs_bit_within f : within 16 f -> within 16 (fcs_bit f).
Proof.
  intros Hf. assert (Hs : within 16 (Z.shiftr f 1)) by (apply (within_weaken 15); [lia|]; by apply (within_shiftr 16)).
  unfold fcs_bit. destruct (Z.testbit f 0); [|done]. by apply within_lxor.
Qed.

Lemma fcs_bits_within n f : within 16 f -> within 16 (fcs_bits n f).
Proof. revert f. induction n as [|n IH]; intros f Hf; simpl; [done|]. by apply IH, fcs_bit_within. Qed.

(** A step can be undone: nothing is lost of the 16 bits. *)
Definition fcs_unbit (g : Z) : Z := if Z.testbit g 15 then Z.lxor g fcs_poly * 2 + 1 else g * 2.

Lemma fcs_unbit_bit f : within 16 f -> fcs_unbit (fcs_bit f) = f.
Proof.
  intros Hf. assert (Hs : within 15 (Z.shiftr f 1)) by by apply (within_shiftr 16).
  assert (H15 : Z.testbit (Z.shiftr f 1) 15 = false) by exact (proj1 (within_bits 15 _ ltac:(lia) (proj1 Hs)) Hs 15 ltac:(lia)).
  assert (Hf2 : f = 2 * Z.shiftr f 1 + Z.b2z (Z.testbit f 0)) by (rewrite -Z.div2_spec Z.bit0_odd; apply Z.div2_odd).
  unfold fcs_unbit, fcs_bit. destruct (Z.testbit f 0); simpl in Hf2.
  - rewrite Z.lxor_spec H15 /= Z.lxor_assoc Z.lxor_nilpotent Z.lxor_0_r. lia.
  - rewrite H15. lia.
Qed.

Lemma fcs_bits_inj n f g : within 16 f -> within 16 g -> fcs_bits n f = fcs_bits n g -> f = g.
Proof.
  revert f g. induction n as [|n IH]; intros f g Hf Hg H; [done|].
  apply IH in H; [|by apply fcs_bit_within..]. by rewrite -(fcs_unbit_bit f) // -(fcs_unbit_bit g) // H.
Qed.

(** ** The table *)

Lemma fcstab_bits c : byte_ok c -> nth (Z.to_nat c) fcstab 0 = fcs_bits 8 c.
Proof.
  intros Hc. assert (H : forallb (fun k => nth k fcstab 0 =? fcs_bits 8 (Z.of_nat k)) (seq 0 256) = true)
    by (vm_compute; reflexivity).
  rewrite forallb_forall in H. specialize (H (Z.to_nat c)). rewrite Z2Nat.id in H; [apply Hc|].
  apply Z.eqb_eq, H, in_seq. unfold byte_ok in Hc. lia.
Qed.

Lemma low_byte v : byte_ok (Z.land v 0xff).
Proof. change 0xff with (Z.ones 8). rewrite Z.land_ones //. by apply Z.mod_pos_bound. Qed.

(** A step of the table is eight steps of the reference. *)
Lemma PPP_FCS_bits f c : within 16 f -> byte_ok c -> PPP_FCS f c = fcs_bits 8 (Z.lxor f c).
Proof.
  intros Hf Hc. unfold PPP_FCS. rewrite fcstab_bits; [apply low_byte|].
  replace (Z.lxor f c) with (Z.lxor (Z.shiftl (Z.shiftr f 8) 8) (Z.land (Z.lxor f c) 0xff)) at 2.
  { by rewrite fcs_bits_lxor (fcs_bits_shiftl 8). }
  apply Z.bits_inj'. intros i Hi. change 0xff with (Z.ones 8).
  rewrite !Z.lxor_spec Z.land_spec Z.lxor_spec. destruct (Z.lt_ge_cases i 8) as [Hlt|Hge].
  - by rewrite Z.shiftl_spec_low // Z.ones_spec_low //= andb_true_r.
  - rewrite Z.shiftl_spec // Z.shiftr_spec; [lia|]. rewrite Z.ones_spec_high; [lia|].
    rewrite (proj1 (within_bits 8 c _ _) Hc) //; [by destruct Hc|].
    by rewrite andb_false_r !xorb_false_r Z.sub_add.
Qed.

Lemma PPP_FCS_within f c : within 16 f -> byte_ok c -> within 16 (PPP_FCS f c).
Proof. intros Hf Hc. rewrite PPP_FCS_bits //. apply fcs_bits_within, within_lxor; [done..|]. by apply (within_weaken 8). Qed.

Lemma pppfcs_within f bs : within 16 f -> Forall byte_ok bs -> within 16 (pppfcs f bs).
Proof. intros Hf Hb. revert f Hf. induction Hb as [|b bs Hb _ IH]; intros f Hf; simpl; [done|]. by apply IH, PPP_FCS_within. Qed.

(** ** Whole frames *)

(** The bits of a string of bytes in the order they go over the line. *)
Fixpoint line_word (bs : bytes) : Z :=
  match bs with [] => 0 | b :: bs => Z.lxor b (Z.shiftl (line_word bs) 8) end.

Lemma line_word_app bs bs' :
  line_word (bs ++ bs') = Z.lxor (line_word bs) (Z.shiftl (line_word bs') (8 * Z.of_nat (length bs))).
Proof.
  induction bs as [|b bs IH]; cbn [app line_word length]; [by rewrite Z.shiftl_0_r|].
  rewrite IH Z.shiftl_lxor Z.shiftl_shiftl; [lia|]. rewrite Z.lxor_assoc. do 3 f_equal. lia.
Qed.

Lemma line_word_within bs : Forall byte_ok bs -> within (8 * Z.of_nat (length bs)) (line_word bs).
Proof.
  induction 1 as [|b bs Hb _ IH]; [done|]. cbn [line_word length]. apply within_lxor; [lia| |].
  - apply (within_weaken 8); [lia|done].
  - destruct IH as [H0 H1]. split; [by apply Z.shiftl_nonneg|]. rewrite Z.shiftl_mul_pow2 //.
    replace (8 * Z.of_nat (S (length bs))) with (8 * Z.of_nat (length bs) + 8) by lia. rewrite Z.pow_add_r; lia.
Qed.

(** The table works as the reference does, over any string of bytes. *)
Lemma pppfcs_bits f bs :
  within 16 f -> Forall byte_ok bs -> pppfcs f bs = fcs_bits (8 * length bs) (Z.lxor f (line_word bs)).
Proof.
  intros Hf Hb. revert f Hf. induction Hb as [|b bs Hb _ IH]; intros f Hf; cbn [pppfcs line_word length].
  { by rewrite Z.lxor_0_r. }
  rewrite IH; [by apply PPP_FCS_within|]. rewrite PPP_FCS_bits //.
  replace (8 * S (length bs))%nat with (8 + 8 * length bs)%nat by lia.
  by rewrite fcs_bits_add -Z.lxor_assoc (fcs_bits_lxor 8 _ (Z.shiftl _ _)) (fcs_bits_shiftl 8).
Qed.

Lemma fcs_bytes_ok f : Forall byte_ok (fcs_bytes f).
Proof. repeat constructor; apply u8_range. Qed.

(** What a sender appends leaves the value the receiver looks for. *)
Lemma pppfcs_good f : within 16 f -> pppfcs f (fcs_bytes f) = PPP_GOODFCS.
Proof.
  intros Hf. rewrite pppfcs_bits; [done|apply fcs_bytes_ok|].
  replace (Z.lxor f (line_word (fcs_bytes f))) with (Z.ones 16); [reflexivity|].
  assert (Hb : forall v, u8 (Z.land v 0xff) = Z.land v 0xff) by (intros v; apply u8_small, low_byte).
  unfold fcs_bytes. rewrite !Hb. cbn [line_word]. rewrite Z.shiftl_0_l Z.lxor_0_r.
  apply Z.bits_inj'. intros i Hi. change 0xff with (Z.ones 8). rewrite !Z.lxor_spec Z.land_spec Z.lnot_spec //.
  destruct (Z.lt_ge_cases i 8) as [Hlt|Hge].
  - rewrite Z.shiftl_spec_low // !Z.ones_spec_low //; [lia|]. by destruct (Z.testbit f i).
  - rewrite Z.shiftl_spec // Z.land_spec Z.shiftr_spec; [lia|]. rewrite Z.lnot_spec; [lia|]. rewrite Z.sub_add.
    rewrite (Z.ones_spec_high 8 i); [lia|]. rewrite andb_false_r.
    destruct (Z.lt_ge_cases i 16).
    + rewrite !Z.ones_spec_low; [lia..|]. by destruct (Z.testbit f i).
    + rewrite !Z.ones_spec_high; [lia..|]. rewrite andb_false_r.
      by rewrite (proj1 (within_bits 16 f ltac:(lia) (proj1 Hf)) Hf).
Qed.

(** Two strings that the check cannot tell apart. *)
Lemma pppfcs_eq f bs bs' :
  within 16 f -> Forall byte_ok bs -> Forall byte_ok bs' -> length bs = length bs' ->
  pppfcs f bs = pppfcs f bs' <-> fcs_bits (8 * length bs) (Z.lxor (line_word bs) (line_word bs')) = 0.
Proof.
  intros Hf Hb Hb' Hl. rewrite !pppfcs_bits // -Hl !fcs_bits_lxor. split.
  - intros H. apply (f_equal (Z.lxor (fcs_bits (8 * length bs) f))) in H.
    rewrite -!Z.lxor_assoc Z.lxor_nilpotent !Z.lxor_0_l in H. by rewrite H Z.lxor_nilpotent.
  - intros H%Z.lxor_eq. by rewrite H.
Qed.

Lemma fcs_bits_0 n : fcs_bits n 0 = 0.
Proof. by induction n. Qed.

(** The check finds every burst of errors of at most 16 bits: whatever was sent
    and wherever on the line the bits were changed, the value at the end is
    another one. *)
Lemma fcs_finds_bursts f bs bs' x k :
  within 16 f -> Forall byte_ok bs -> Forall byte_ok bs' -> length bs = length bs' ->
  0 < x < 2 ^ 16 -> 0 <= k -> Z.lxor (line_word bs) (line_word bs') = Z.shiftl x k ->
  pppfcs f bs <> pppfcs f bs'.
Proof.
  intros Hf Hb Hb' Hl Hx Hk He Hc. apply pppfcs_eq in Hc; [|done..]. rewrite He in Hc.
  assert (Hw : within (8 * Z.of_nat (length bs)) (Z.shiftl x k)).
  { rewrite -He. apply within_lxor; [lia|by apply line_word_within|]. rewrite Hl. by apply line_word_within. }
  assert (Hkn : k <= 8 * Z.of_nat (length bs)).
  { destruct (Z.le_gt_cases k (8 * Z.of_nat (length bs))) as [|Hg]; [done|]. exfalso. destruct Hw as [_ Hw].
    rewrite Z.shiftl_mul_pow2 // in Hw. pose proof (Z.pow_lt_mono_r 2 _ _ ltac:(lia) Hk Hg). nia. }
  replace (8 * length bs)%nat with (Z.to_nat k + (8 * length bs - Z.to_nat k))%nat in Hc by lia.
  rewrite fcs_bits_add -(Z2Nat.id k Hk) Nat2Z.id fcs_bits_shiftl in Hc.
  rewrite -(fcs_bits_0 (8 * length bs - Z.to_nat k)) in Hc.
  apply fcs_bits_inj in Hc; [lia|unfold within; lia|done].
Qed.

(** ** Where the wrong bits are *)

(** The bits in which two strings differ, in the order of the line. *)
Definition errors (bs bs' : bytes) : Z := Z.lxor (line_word bs) (line_word bs').

Lemma errors_cons b b' bs bs' : errors (b :: bs) (b' :: bs') = Z.lxor (Z.lxor b b') (Z.shiftl (errors bs bs') 8).
Proof.
  unfold errors. cbn [line_word]. rewrite Z.shiftl_lxor -!Z.lxor_assoc. f_equal.
  rewrite !Z.lxor_assoc. f_equal. apply Z.lxor_comm.
Qed.

Definition below (e u : Z) : Prop := forall i, Z.testbit e i = true -> i < u.
Definition spread (e k : Z) : Prop := forall i, Z.testbit e i = true -> k <= i < k + 16.

(** The errors [e'] are [e] less some octets in which there was none. *)
Definition shrinks (e e' : Z) : Prop :=
  (forall u, below e u -> below e' u) /\ (forall k, spread e k -> exists k', spread e' k') /\ (e' = 0 -> e = 0).

Lemma shrinks_trans e1 e2 e3 : shrinks e1 e2 -> shrinks e2 e3 -> shrinks e1 e3.
Proof.
  intros (Ha & Hb & Hc) (Ha' & Hb' & Hc'). split; [auto|]. split; [|auto].
  intros k H. destruct (Hb k H) as [k' H']. by apply (Hb' k').
Qed.

Lemma testbit_nonneg e i : Z.testbit e i = true -> 0 <= i.
Proof. intros H. destruct (Z.le_gt_cases 0 i); [done|]. by rewrite Z.testbit_neg_r in H. Qed.

Lemma shrinks_skip e : shrinks (Z.shiftl e 8) e.
Proof.
  assert (H : forall i, Z.testbit e i = true -> Z.testbit (Z.shiftl e 8) (i + 8) = true).
  { intros i Hi. rewrite Z.shiftl_spec; [pose proof (testbit_nonneg _ _ Hi); lia|]. by replace (i + 8 - 8) with i by lia. }
  split; [|split].
  - intros u Hu i Hi. pose proof (Hu _ (H i Hi)). lia.
  - intros k Hk. exists (k - 8). intros i Hi. pose proof (Hk _ (H i Hi)). lia.
  - intros ->. apply Z.shiftl_0_l.
Qed.

(** The bits of an octet and those of the octets behind it. *)
Lemma testbit_octet b e i :
  byte_ok b -> Z.testbit (Z.lxor b (Z.shiftl e 8)) i = if i <? 8 then Z.testbit b i else Z.testbit e (i - 8).
Proof.
  intros Hb. destruct (Z.le_gt_cases 0 i) as [H0|H0].
  - rewrite Z.lxor_spec. destruct (Z.ltb_spec i 8) as [Hi|Hi].
    + by rewrite Z.shiftl_spec_low // xorb_false_r.
    + rewrite (proj1 (within_bits 8 b ltac:(lia) (proj1 Hb)) Hb i Hi) xorb_false_l. by apply Z.shiftl_spec.
  - rewrite !Z.testbit_neg_r //; [lia|]. by case_match.
Qed.

Lemma shrinks_octet b e e' : byte_ok b -> shrinks e e' -> shrinks (Z.lxor b (Z.shiftl e 8)) (Z.lxor b (Z.shiftl e' 8)).
Proof.
  intros Hb (Ha & Hs & Hz). pose proof (fun e => testbit_octet b e) as Hbit.
  assert (Htail : forall e i, Z.testbit e i = true -> Z.testbit (Z.lxor b (Z.shiftl e 8)) (i + 8) = true).
  { intros e0 i Hi. rewrite Hbit //. pose proof (testbit_nonneg _ _ Hi). rewrite (proj2 (Z.ltb_ge _ _)); [lia|].
    by replace (i + 8 - 8) with i by lia. }
  assert (Hup : forall u, below (Z.lxor b (Z.shiftl e 8)) u -> below e' (u - 8)).
  { intros u Hu. apply Ha. intros i Hi. pose proof (Hu _ (Htail _ _ Hi)). lia. }
  split; [|split].
  - intros u Hu i Hi. rewrite Hbit // in Hi. destruct (Z.ltb_spec i 8) as [Hlt|Hge].
    + apply Hu. rewrite Hbit //. by rewrite (proj2 (Z.ltb_lt _ _) Hlt).
    + pose proof (Hup u Hu _ Hi). lia.
  - intros k Hk. destruct (decide (b = 0)) as [->|Hb0].
    + destruct (Hs (k - 8)) as [k' Hk'].
      { intros i Hi. pose proof (Hk _ (Htail _ _ Hi)). lia. }
      exists (k' + 8). intros i Hi. rewrite Hbit // in Hi. destruct (i <? 8); [by rewrite Z.bits_0 in Hi|].
      pose proof (Hk' _ Hi). lia.
    + exists k. assert (Hj : k < 8).
      { pose proof (Z.log2_lt_pow2 b 8) as Hl. destruct Hb as [H0 H8].
        assert (Hlog : Z.log2 b < 8) by (apply Hl; lia).
        assert (Ht : Z.testbit (Z.lxor b (Z.shiftl e 8)) (Z.log2 b) = true).
        { rewrite Hbit //. rewrite (proj2 (Z.ltb_lt _ _) Hlog). apply Z.bit_log2. lia. }
        pose proof (Hk _ Ht). lia. }
      intros i Hi. rewrite Hbit // in Hi. destruct (Z.ltb_spec i 8) as [Hlt|Hge].
      * apply Hk. rewrite Hbit //. by rewrite (proj2 (Z.ltb_lt _ _) Hlt).
      * assert (Hu : below (Z.lxor b (Z.shiftl e 8)) (k + 16)) by (intros j Hjj; by apply Hk).
        pose proof (Hup _ Hu _ Hi). lia.
  - intros H. apply Z.lxor_eq in H. assert (Hb0 : b = 0).
    { apply Z.bits_inj'. intros i _. rewrite Z.bits_0. destruct (Z.lt_ge_cases i 8) as [Hlt|Hge].
      - rewrite H. by apply Z.shiftl_spec_low.
      - by apply (proj1 (within_bits 8 b ltac:(lia) (proj1 Hb)) Hb). }
    rewrite Hb0 in H |- *. symmetry in H. apply Z.shiftl_eq_0_iff in H; [|done]. by rewrite (Hz H) Z.shiftl_0_l.
Qed.

(** A burst of at most sixteen bits stays one when octets without errors are
    left out. *)
Lemma shrinks_burst e e' x k :
  shrinks e e' -> 0 <= e' -> 0 < x < 2 ^ 16 -> 0 <= k -> e = Z.shiftl x k ->
  exists x' k', 0 < x' < 2 ^ 16 /\ 0 <= k' /\ e' = Z.shiftl x' k'.
Proof.
  intros (_ & Hs & Hz) He' Hx Hk ->. destruct (Hs k) as [k0 Hk0].
  { intros i Hi. pose proof (testbit_nonneg _ _ Hi) as Hi0. rewrite Z.shiftl_spec // in Hi.
    pose proof (testbit_nonneg _ _ Hi). destruct (Z.lt_ge_cases (i - k) 16) as [|Hge]; [lia|].
    rewrite (proj1 (within_bits 16 x ltac:(lia) ltac:(lia)) ltac:(unfold within; lia) _ Hge) in Hi. done. }
  assert (Hne : e' <> 0).
  { intros H%Hz. apply Z.shiftl_eq_0_iff in H; lia. }
  set (k' := Z.max k0 0). exists (Z.shiftr e' k'), k'.
  assert (Heq : e' = Z.shiftl (Z.shiftr e' k') k').
  { apply Z.bits_inj'. intros i Hi. rewrite Z.shiftl_spec //. destruct (Z.lt_ge_cases i k') as [Hlt|Hge].
    - rewrite (Z.testbit_neg_r _ (i - k')); [lia|]. destruct (Z.testbit e' i) eqn:E; [|done]. pose proof (Hk0 _ E). lia.
    - rewrite Z.shiftr_spec; [lia|]. f_equal. lia. }
  split; [|split; [lia|exact Heq]].
  assert (H0 : 0 <= Z.shiftr e' k') by by apply Z.shiftr_nonneg.
  assert (Hne' : Z.shiftr e' k' <> 0) by (intros E; rewrite E Z.shiftl_0_l in Heq; done).
  split; [lia|]. apply (proj2 (within_bits 16 _ ltac:(lia) H0)). intros i Hi. rewrite Z.shiftr_spec; [lia|].
  destruct (Z.testbit e' (i + k')) eqn:E; [|done]. pose proof (Hk0 _ E). lia.
Qed.
