(* ===== verification/Callout.v ===== *)
(** * The callout list of the PPP daemon

    [rtemsmain.c] keeps the pending timeouts of all protocols on one list
    ordered by expiry time: [ppptimeout] links an entry in, [pppuntimeout]
    removes the first entry with the same function and argument,
    [calltimeout] runs what is due and [timeleft] says how long the main loop
    may sleep. *)

From Stdlib Require Import Sorted.
From S2P Require Import Prelude.

(** ** Data *)

Record timeval := Timeval { tv_sec : Z; tv_usec : Z }.

(** The functions the daemon passes to [TIMEOUT]. *)
Inductive timer_func :=
  | fn_fsm_timeout | fn_LcpEchoTimeout | fn_upap_timeout | fn_upap_reqtimeout
  | fn_ChapChallengeTimeout | fn_ChapResponseTimeout | fn_ChapRechallenge
  | fn_ccp_rack_timeout | fn_check_idle | fn_connect_time_expired
  | fn_holdoff_end | fn_timeout_terminate.

#[export] Instance timer_func_eq_dec : EqDecision timer_func.
Proof. solve_decision. Defined.

(** A function with its argument: the identity of the object the argument
    points to. *)
Record timer := Timer { c_func : timer_func; c_arg : Z }.

#[export] Instance timer_eq_dec : EqDecision timer.
Proof. solve_decision. Defined.

Record callout := Callout { c_time : timeval; c_timer : timer }.

Definition tv_ltb (a b : timeval) : bool :=
  (tv_sec a <? tv_sec b) || ((tv_sec a =? tv_sec b) && (tv_usec a <? tv_usec b)).

(** The test of [calltimeout]: the entry's time has come. *)
Definition is_due (now : timeval) (p : callout) : bool :=
  (tv_sec (c_time p) <? tv_sec now)
  || ((tv_sec (c_time p) =? tv_sec now) && (tv_usec (c_time p) <=? tv_usec now)).

(** ** Operations *)

(** The search for the link the new entry goes into. *)
Fixpoint link_in (newp : callout) (l : list callout) : list callout :=
  match l with
  | [] => [newp]
  | p :: l' => if tv_ltb (c_time newp) (c_time p) then newp :: l else p :: link_in newp l'
  end.

Definition ppptimeout (timenow : timeval) (t : timer) (time : Z) (l : list callout)
    : list callout :=
  link_in (Callout (Timeval (tv_sec timenow + time) (tv_usec timenow)) t) l.

Fixpoint pppuntimeout (t : timer) (l : list callout) : list callout :=
  match l with
  | [] => []
  | freep :: l' => if decide (c_timer freep = t) then l' else freep :: pppuntimeout t l'
  end.

Definition timeleft (timenow : timeval) (l : list callout) : option timeval :=
  match l with
  | [] => None
  | p :: _ =>
      let sec := tv_sec (c_time p) - tv_sec timenow in
      let usec := tv_usec (c_time p) - tv_usec timenow in
      let '(sec, usec) := if usec <? 0 then (sec - 1, usec + 1000000) else (sec, usec) in
      Some (if sec <? 0 then Timeval 0 0 else Timeval sec usec)
  end.

(** [calltimeout] over any state that holds a callout list and a clock; [call]
    is the indirect call of the entry's function.  The loop is [while], so the
    definition has fuel: [None] means that the fuel did not suffice. *)
Section Calltimeout.
Context {W : Type} (gettimeofday : W -> timeval) (callouts : W -> list callout)
  (set_callouts : list callout -> W -> W) (call : timer -> W -> W).

Fixpoint calltimeout (fuel : nat) (w : W) : option W :=
  match fuel with
  | O => None
  | S fuel' =>
      match callouts w with
      | [] => Some w
      | p :: rest =>
          if is_due (gettimeofday w) p
          then calltimeout fuel' (call (c_timer p) (set_callouts rest w))
          else Some w
      end
  end.
End Calltimeout.

(** ** Order *)

(** A time as a number of microseconds. *)
Definition usecs (t : timeval) : Z := tv_sec t * 1000000 + tv_usec t.

Definition tv_ok (t : timeval) : Prop := 0 <= tv_usec t < 1000000.

Definition callouts_ok (l : list callout) : Prop :=
  Forall (fun c => tv_ok (c_time c)) l /\
  StronglySorted (fun a b => usecs (c_time a) <= usecs (c_time b)) l.

Lemma tv_ltb_spec a b : tv_ok a -> tv_ok b -> tv_ltb a b = true <-> usecs a < usecs b.
Proof.
  unfold tv_ltb, usecs, tv_ok. intros ? ?.
  rewrite orb_true_iff andb_true_iff !Z.ltb_lt Z.eqb_eq. lia.
Qed.

Lemma is_due_spec now p :
  tv_ok now -> tv_ok (c_time p) -> is_due now p = true <-> usecs (c_time p) <= usecs now.
Proof.
  unfold is_due, usecs, tv_ok. intros ? ?.
  rewrite orb_true_iff andb_true_iff Z.ltb_lt Z.leb_le Z.eqb_eq. lia.
Qed.

Lemma link_in_perm c l : link_in c l ≡ₚ c :: l.
Proof.
  induction l as [|p l IH]; simpl; [done|]. destruct (tv_ltb _ _); [done|].
  rewrite IH. apply Permutation_swap.
Qed.

(** How many entries of the list would call this timer. *)
Definition pending (t : timer) (l : list callout) : nat :=
  length (filter (fun c => c_timer c = t) l).

Lemma pending_perm t l l' : l ≡ₚ l' -> pending t l = pending t l'.
Proof. unfold pending. by intros ->. Qed.

Lemma pending_cons t c l :
  pending t (c :: l) = ((if decide (c_timer c = t) then 1 else 0) + pending t l)%nat.
Proof. unfold pending. rewrite filter_cons. by case_decide. Qed.

Lemma pending_timeout now t t' time l :
  pending t' (ppptimeout now t time l)
  = ((if decide (t = t') then 1 else 0) + pending t' l)%nat.
Proof. unfold ppptimeout. by rewrite (pending_perm _ _ _ (link_in_perm _ _)) pending_cons. Qed.

Lemma pending_untimeout t l : pending t (pppuntimeout t l) = (pending t l - 1)%nat.
Proof.
  induction l as [|c l IH]; simpl; [done|]. rewrite pending_cons.
  case_decide; [lia|]. rewrite pending_cons decide_False //.
Qed.

Lemma pending_untimeout_ne t t' l : t <> t' -> pending t' (pppuntimeout t l) = pending t' l.
Proof.
  intros Hne. induction l as [|c l IH]; simpl; [done|]. rewrite pending_cons.
  case_decide; [rewrite decide_False //; congruence|]. by rewrite pending_cons IH.
Qed.

Lemma untimeout_Forall P t l : Forall P l -> Forall P (pppuntimeout t l).
Proof. induction 1; simpl; [done|]. case_decide; auto. Qed.

Lemma callouts_ok_nil : callouts_ok [].
Proof. split; constructor. Qed.

Lemma callouts_ok_cons c l :
  callouts_ok (c :: l) <->
  tv_ok (c_time c) /\ Forall (fun p => usecs (c_time c) <= usecs (c_time p)) l /\ callouts_ok l.
Proof.
  unfold callouts_ok. split.
  - intros [HF HS]. inversion HF. by inversion HS.
  - intros (? & ? & ? & ?). split; by constructor.
Qed.

Lemma untimeout_ok t l : callouts_ok l -> callouts_ok (pppuntimeout t l).
Proof.
  induction l as [|c l IH]; simpl; [done|]. rewrite callouts_ok_cons. intros (Hc & Hle & Hl).
  case_decide; [done|]. apply callouts_ok_cons. split_and!; [done| |auto].
  by apply untimeout_Forall.
Qed.

(** Entries already on the list that are not later than [c] stay ahead of it. *)
Lemma link_in_split c l :
  tv_ok (c_time c) -> callouts_ok l ->
  link_in c l = filter (fun p => usecs (c_time p) <= usecs (c_time c)) l
                ++ c :: filter (fun p => usecs (c_time c) < usecs (c_time p)) l.
Proof.
  intros Hc. induction l as [|p l IH]; simpl; [done|].
  rewrite callouts_ok_cons. intros (Hp & Hle & Hl).
  destruct (tv_ltb _ _) eqn:E.
  - apply tv_ltb_spec in E; [|done..].
    assert (Hall : Forall (fun q => usecs (c_time c) < usecs (c_time q)) (p :: l)).
    { constructor; [done|]. eapply Forall_impl; [|exact Hle]. simpl. lia. }
    rewrite (filter_none (fun q => usecs (c_time q) <= usecs (c_time c))).
    { eapply Forall_impl; [|exact Hall]. simpl. lia. }
    by rewrite filter_all.
  - apply not_true_iff_false in E. rewrite tv_ltb_spec in E; [done..|].
    rewrite !filter_cons decide_True; [lia|]. rewrite decide_False; [lia|].
    by rewrite IH.
Qed.

Lemma link_in_ok c l : tv_ok (c_time c) -> callouts_ok l -> callouts_ok (link_in c l).
Proof.
  intros Hc. induction l as [|p l IH]; simpl.
  - intros _. apply callouts_ok_cons. split_and!; [done|constructor|apply callouts_ok_nil].
  - rewrite callouts_ok_cons. intros (Hp & Hle & Hl). destruct (tv_ltb _ _) eqn:E.
    + apply tv_ltb_spec in E; [|done..]. apply callouts_ok_cons.
      split_and!; [done| |by apply callouts_ok_cons].
      constructor; [lia|]. eapply Forall_impl; [|exact Hle]. simpl. lia.
    + apply not_true_iff_false in E. rewrite tv_ltb_spec in E; [done..|].
      apply callouts_ok_cons. split_and!; [done| |auto].
      rewrite (link_in_perm c l). constructor; [lia|done].
Qed.

Lemma timeout_ok now t time l :
  tv_ok now -> callouts_ok l -> callouts_ok (ppptimeout now t time l).
Proof. intros Hn. by apply link_in_ok. Qed.

(** The entries [calltimeout] would run at time [now]. *)
Definition due_count (now : timeval) (l : list callout) : nat :=
  length (filter (fun c => is_due now c = true) l).

Lemma due_count_timeout now t time l :
  0 < time -> due_count now (ppptimeout now t time l) = due_count now l.
Proof.
  intros Hpos. unfold due_count, ppptimeout. rewrite (link_in_perm _ _).
  rewrite filter_cons_False //. unfold is_due. simpl.
  rewrite (proj2 (Z.ltb_ge _ _)); [lia|]. rewrite (proj2 (Z.eqb_neq _ _)) //; lia.
Qed.

Lemma due_count_untimeout now t l : (due_count now (pppuntimeout t l) <= due_count now l)%nat.
Proof.
  unfold due_count. induction l as [|c l IH]; simpl; [done|].
  case_decide; rewrite !filter_cons; case_decide; simpl; lia.
Qed.

Lemma due_count_0 now l :
  tv_ok now -> callouts_ok l -> match l with [] => True | c :: _ => is_due now c = false end ->
  due_count now l = 0%nat.
Proof.
  intros Hn. destruct l as [|c l]; [done|]. rewrite callouts_ok_cons.
  intros (Hc & Hle & [HF _]) Hd. unfold due_count. rewrite filter_none //.
  constructor; [congruence|]. apply not_true_iff_false in Hd. rewrite is_due_spec in Hd; [done..|].
  rewrite Forall_forall in Hle. rewrite Forall_forall in HF.
  apply Forall_forall. intros p Hp. rewrite is_due_spec; [done|by apply HF|].
  specialize (Hle _ Hp). simpl in Hle. lia.
Qed.

(** ** Theorems *)

(** C17: a new timeout is linked in behind every entry that is due no later
    and ahead of every later one, so that the list stays ordered by time and
    timeouts for the same instant run in the order they were asked for. *)
Theorem ppptimeout_ordered now t time l :
  tv_ok now -> callouts_ok l ->
  let c := Callout (Timeval (tv_sec now + time) (tv_usec now)) t in
  ppptimeout now t time l
    = filter (fun p => usecs (c_time p) <= usecs (c_time c)) l
      ++ c :: filter (fun p => usecs (c_time c) < usecs (c_time p)) l /\
  callouts_ok (ppptimeout now t time l).
Proof. intros Hn Hl c. split; [by apply link_in_split|by apply timeout_ok]. Qed.

(** The wait the main loop asks for is exact: none without an entry, zero
    exactly when the first entry is due, and otherwise the microseconds that
    are left until it is, normalised. *)
Theorem timeleft_exact now l :
  tv_ok now -> callouts_ok l ->
  match l, timeleft now l with
  | [], r => r = None
  | p :: _, Some r =>
      tv_ok r /\ usecs r = Z.max 0 (usecs (c_time p) - usecs now) /\
      (usecs r = 0 <-> is_due now p = true)
  | _, None => False
  end.
Proof.
  intros Hn Hl. destruct l as [|p l]; [done|]. apply callouts_ok_cons in Hl as (Hp & _ & _).
  pose proof (is_due_spec now p Hn Hp) as Hdue. unfold timeleft, tv_ok, usecs in *.
  destruct (Z.ltb_spec (tv_usec (c_time p) - tv_usec now) 0);
    destruct (Z.ltb_spec (tv_sec (c_time p) - tv_sec now) 0);
    destruct (Z.ltb_spec (tv_sec (c_time p) - tv_sec now - 1) 0); simpl;
    (split_and!; [lia..|rewrite Hdue; lia]).
Qed.

(** What [calltimeout] asks of the functions it calls: they leave the clock
    and the order of the list alone and add no entry that is already due. *)
Class TimerCalls {W : Type} (gettimeofday : W -> timeval) (callouts : W -> list callout)
    (set_callouts : list callout -> W -> W) (call : timer -> W -> W) : Prop := {
  callouts_set l w : callouts (set_callouts l w) = l;
  clock_set l w : gettimeofday (set_callouts l w) = gettimeofday w;
  clock_call t w : gettimeofday (call t w) = gettimeofday w;
  call_keeps_order t w :
    tv_ok (gettimeofday w) -> callouts_ok (callouts w) -> callouts_ok (callouts (call t w));
  call_adds_no_due t w :
    (due_count (gettimeofday w) (callouts (call t w))
     <= due_count (gettimeofday w) (callouts w))%nat
}.

(** C18: [calltimeout] returns, after at most one call per entry that was due,
    and leaves an ordered list on which nothing is due. *)
Theorem calltimeout_runs_due {W} gettimeofday callouts set_callouts call
    `{!TimerCalls (W := W) gettimeofday callouts set_callouts call} w fuel :
  tv_ok (gettimeofday w) -> callouts_ok (callouts w) ->
  (due_count (gettimeofday w) (callouts w) < fuel)%nat ->
  exists w', calltimeout gettimeofday callouts set_callouts call fuel w = Some w' /\
    gettimeofday w' = gettimeofday w /\ callouts_ok (callouts w') /\
    due_count (gettimeofday w') (callouts w') = 0%nat.
Proof.
  revert w. induction fuel as [|fuel IH]; intros w Hn Hl Hf; simpl; [lia|].
  destruct (callouts w) as [|p rest] eqn:El.
  - exists w. rewrite El. by split_and!.
  - destruct (is_due (gettimeofday w) p) eqn:Ed.
    + set (w1 := call (c_timer p) (set_callouts rest w)).
      assert (Hclk : gettimeofday w1 = gettimeofday w) by (by rewrite /w1 clock_call clock_set).
      destruct (IH w1) as (w' & ? & ? & ? & ?).
      * by rewrite Hclk.
      * apply call_keeps_order; [by rewrite clock_set|].
        rewrite callouts_set. by apply callouts_ok_cons in Hl as (_ & _ & ?).
      * assert (Hd : due_count (gettimeofday w) (p :: rest)
                     = S (due_count (gettimeofday w) rest)).
        { unfold due_count. by rewrite filter_cons_True. }
        pose proof (call_adds_no_due (c_timer p) (set_callouts rest w)) as Hle.
        rewrite clock_set callouts_set in Hle. fold w1 in Hle. rewrite Hclk. lia.
      * exists w'. split_and!; [done|congruence|done|done].
    + exists w. rewrite El. split_and!; [done..|]. by apply due_count_0.
Qed.

(** ** The theorems at concrete lists *)

(** A state that is nothing but a clock and a callout list, in which every
    timer re-arms itself for five seconds later. *)
Definition rearm (t : timer) (w : timeval * list callout) : timeval * list callout :=
  (w.1, ppptimeout w.1 t 5 w.2).

#[export] Instance rearm_calls :
  TimerCalls (W := timeval * list callout) fst snd (fun l w => (w.1, l)) rearm.
Proof.
  split; try done.
  - intros t [now l] ? ?. by apply timeout_ok.
  - intros t [now l]. simpl. by rewrite due_count_timeout.
Qed.

Definition two_timers : list callout :=
  [Callout (Timeval 9 500) (Timer fn_fsm_timeout 49185);
   Callout (Timeval 12 0) (Timer fn_upap_timeout 0)].

Lemma two_timers_ok : callouts_ok two_timers.
Proof.
  apply callouts_ok_cons. split_and!; [done|repeat constructor; done|].
  apply callouts_ok_cons. split_and!; [done|constructor|apply callouts_ok_nil].
Qed.

Lemma ppptimeout_ordered_witness :
  map c_time (ppptimeout (Timeval 7 0) (Timer fn_LcpEchoTimeout 49185) 5 two_timers)
  = [Timeval 9 500; Timeval 12 0; Timeval 12 0].
Proof.
  by rewrite (proj1 (ppptimeout_ordered (Timeval 7 0) (Timer fn_LcpEchoTimeout 49185) 5
                       two_timers ltac:(done) two_timers_ok)).
Defined.

Lemma timeleft_exact_witness :
  timeleft (Timeval 8 700) two_timers = Some (Timeval 0 999800) /\
  is_due (Timeval 8 700) (Callout (Timeval 9 500) (Timer fn_fsm_timeout 49185)) <> true.
Proof.
  split; [done|].
  pose proof (timeleft_exact (Timeval 8 700) two_timers ltac:(done) two_timers_ok)
    as (_ & _ & Hd). rewrite -Hd. done.
Defined.

Lemma calltimeout_runs_due_witness :
  exists w', calltimeout fst snd (fun l w => (w.1, l)) rearm 3 (Timeval 10 0, two_timers) = Some w' /\
    due_count w'.1 w'.2 = 0%nat.
Proof.
  destruct (calltimeout_runs_due fst snd (fun l w => (w.1, l)) rearm
              (Timeval 10 0, two_timers) 3) as (w' & ? & _ & _ & ?);
    [done|exact two_timers_ok|vm_compute; lia|by exists w'].
Defined.
