(* ===== verification/Fsm.v ===== *)
(** * The PPP control-protocol automaton: definitions

    [fsm.c] drives every control protocol of the PPP daemon (LCP, IPCP, CCP)
    through the option negotiation of RFC 1661.  The definitions below follow
    the functions of that file one by one.  They run over any state that holds
    an [fsm] record and the daemon's shared link data ([FsmWorld]); the
    protocol behind the automaton is the record of callbacks. *)

From S2P Require Import Prelude Wire Callout.

(** ** Constants *)

Definition HEADERLEN := 4.

Definition CONFREQ := 1.
Definition CONFACK := 2.
Definition CONFNAK := 3.
Definition CONFREJ := 4.
Definition TERMREQ := 5.
Definition TERMACK := 6.
Definition CODEREJ := 7.

Definition OPT_PASSIVE := 1.
Definition OPT_RESTART := 2.
Definition OPT_SILENT := 4.

Definition DEFTIMEOUT := 5.
Definition DEFMAXTERMREQS := 2.
Definition DEFMAXCONFREQS := 10.
Definition DEFMAXNAKLOOPS := 5.

(** ** The automaton *)

Inductive fsm_state :=
  | INITIAL | STARTING | CLOSED | STOPPED | CLOSING | STOPPING
  | REQSENT | ACKRCVD | ACKSENT | OPENED.

#[export] Instance fsm_state_eq_dec : EqDecision fsm_state.
Proof. solve_decision. Defined.

Record fsm := Fsm {
  f_unit : Z;
  protocol : Z;
  state : fsm_state;
  flags : Z;
  id : Z;
  reqid : Z;
  seen_ack : bool;
  timeouttime : Z;
  maxconfreqtransmits : Z;
  retransmits : Z;
  maxtermtransmits : Z;
  nakloops : Z;
  maxnakloops : Z;
  term_reason : bytes;
  term_reason_len : Z
}.

Definition set_state s f :=
  Fsm (f_unit f) (protocol f) s (flags f) (id f) (reqid f) (seen_ack f) (timeouttime f)
    (maxconfreqtransmits f) (retransmits f) (maxtermtransmits f) (nakloops f) (maxnakloops f)
    (term_reason f) (term_reason_len f).

Definition set_flags v f :=
  Fsm (f_unit f) (protocol f) (state f) v (id f) (reqid f) (seen_ack f) (timeouttime f)
    (maxconfreqtransmits f) (retransmits f) (maxtermtransmits f) (nakloops f) (maxnakloops f)
    (term_reason f) (term_reason_len f).

Definition set_id v f :=
  Fsm (f_unit f) (protocol f) (state f) (flags f) v (reqid f) (seen_ack f) (timeouttime f)
    (maxconfreqtransmits f) (retransmits f) (maxtermtransmits f) (nakloops f) (maxnakloops f)
    (term_reason f) (term_reason_len f).

Definition set_reqid v f :=
  Fsm (f_unit f) (protocol f) (state f) (flags f) (id f) v (seen_ack f) (timeouttime f)
    (maxconfreqtransmits f) (retransmits f) (maxtermtransmits f) (nakloops f) (maxnakloops f)
    (term_reason f) (term_reason_len f).

Definition set_seen_ack v f :=
  Fsm (f_unit f) (protocol f) (state f) (flags f) (id f) (reqid f) v (timeouttime f)
    (maxconfreqtransmits f) (retransmits f) (maxtermtransmits f) (nakloops f) (maxnakloops f)
    (term_reason f) (term_reason_len f).

Definition set_retransmits v f :=
  Fsm (f_unit f) (protocol f) (state f) (flags f) (id f) (reqid f) (seen_ack f) (timeouttime f)
    (maxconfreqtransmits f) v (maxtermtransmits f) (nakloops f) (maxnakloops f)
    (term_reason f) (term_reason_len f).

Definition set_nakloops v f :=
  Fsm (f_unit f) (protocol f) (state f) (flags f) (id f) (reqid f) (seen_ack f) (timeouttime f)
    (maxconfreqtransmits f) (retransmits f) (maxtermtransmits f) v (maxnakloops f)
    (term_reason f) (term_reason_len f).

Definition set_term_reason (v : bytes) n f :=
  Fsm (f_unit f) (protocol f) (state f) (flags f) (id f) (reqid f) (seen_ack f) (timeouttime f)
    (maxconfreqtransmits f) (retransmits f) (maxtermtransmits f) (nakloops f) (maxnakloops f)
    v n.

(** [++f->id], an [u_char]. *)
Definition next_id f := set_id (u8 (id f + 1)) f.

Definition fsm_init (f : fsm) : fsm :=
  Fsm (f_unit f) (protocol f) INITIAL 0 100 (reqid f) (seen_ack f) DEFTIMEOUT
    DEFMAXCONFREQS (retransmits f) DEFMAXTERMREQS (nakloops f) DEFMAXNAKLOOPS
    (term_reason f) 0.

(** ** The link: what all protocols of the daemon share *)

(** [lk_oob] records that a store or a transmission ran over the end of
    [outpacket_buf], or a parser read behind its packet. *)
Record link := Link {
  peer_mru : Z;
  outpacket_buf : bytes;
  sent : list bytes;
  lk_oob : bool;
  callouts : list callout;
  clock : timeval
}.

Definition set_peer_mru v l :=
  Link v (outpacket_buf l) (sent l) (lk_oob l) (callouts l) (clock l).
Definition set_callouts v l :=
  Link (peer_mru l) (outpacket_buf l) (sent l) (lk_oob l) v (clock l).
Definition link_fault l :=
  Link (peer_mru l) (outpacket_buf l) (sent l) true (callouts l) (clock l).

Definition link_store (off : nat) (bs : bytes) (l : link) : link :=
  match store (outpacket_buf l) off bs with
  | Some buf => Link (peer_mru l) buf (sent l) (lk_oob l) (callouts l) (clock l)
  | None => link_fault l
  end.

(** [write] of the first [len] bytes of the packet buffer. *)
Definition output (len : Z) (l : link) : link :=
  if Z.of_nat (length (outpacket_buf l)) <? len then link_fault l
  else Link (peer_mru l) (outpacket_buf l)
         (sent l ++ [take (Z.to_nat len) (outpacket_buf l)]) (lk_oob l) (callouts l) (clock l).

(** ** Packets *)

Definition MAKEHEADER (proto : Z) : bytes :=
  PUTCHAR PPP_ALLSTATIONS ++ PUTCHAR PPP_UI ++ PUTSHORT proto.

(** The eight bytes [fsm_sdata] puts in front of the data. *)
Definition packet_header (proto code pid outlen : Z) : bytes :=
  MAKEHEADER proto ++ PUTCHAR code ++ PUTCHAR pid ++ PUTSHORT outlen.

(** Where the data of a packet to send is: behind a pointer, or already in
    place behind the header in [outpacket_buf]. *)
Inductive payload := Data (bs : bytes) | InPlace.

Definition send_data (proto code pid : Z) (data : payload) (datalen : Z) (l : link) : link :=
  let datalen := if peer_mru l - HEADERLEN <? datalen then peer_mru l - HEADERLEN else datalen in
  let l :=
    match data with
    | Data bs =>
        if datalen =? 0 then l
        else link_store (Z.to_nat (PPP_HDRLEN + HEADERLEN)) (take (Z.to_nat datalen) bs) l
    | InPlace => l
    end in
  let outlen := datalen + HEADERLEN in
  output (outlen + PPP_HDRLEN) (link_store 0 (packet_header proto code pid outlen) l).

(** The header checks of [fsm_input], on a buffer of at least [l] bytes: code, id, the length without the header
    and the data; [None] drops the packet. *)
Definition parse_header (inpacket : bytes) (l : Z) : option (Z * Z * Z * bytes) :=
  if l <? HEADERLEN then None else
  match inpacket with
  | code :: pid :: p =>
      match GETSHORT p with
      | Some (len, inp) =>
          if len <? HEADERLEN then None
          else if l <? len then None
          else Some (code, pid, len - HEADERLEN, inp)
      | None => None
      end
  | _ => None
  end.

(** ** The state the automaton runs in *)

Class FsmWorld (W : Type) := {
  w_fsm : W -> fsm;
  put_fsm : fsm -> W -> W;
  w_link : W -> link;
  put_link : link -> W -> W;
  (** the address of the [fsm], the argument of its timer *)
  fsm_addr : Z
}.

(** The callback table; a [NULL] entry is [None].  [addci] returns the bytes it
    writes and the new value of [*lenp]; [reqci] the verdict, what it leaves at
    [inp] and the new length. *)
Record fsm_callbacks (W : Type) := FsmCallbacks {
  cb_resetci : option (W -> W);
  cb_cilen : option (W -> Z * W);
  cb_addci : option (Z -> W -> bytes * Z * W);
  cb_ackci : option (bytes -> Z -> W -> bool * W);
  cb_nakci : option (bytes -> Z -> W -> Z * W);
  cb_rejci : option (bytes -> Z -> W -> Z * W);
  cb_reqci : option (bytes -> Z -> bool -> W -> Z * bytes * Z * W);
  cb_up : option (W -> W);
  cb_down : option (W -> W);
  cb_starting : option (W -> W);
  cb_finished : option (W -> W);
  cb_retransmit : option (W -> W);
  cb_extcode : option (Z -> Z -> bytes -> Z -> W -> bool * W)
}.
Arguments FsmCallbacks {W}.
Arguments cb_resetci {W}. Arguments cb_cilen {W}. Arguments cb_addci {W}.
Arguments cb_ackci {W}. Arguments cb_nakci {W}. Arguments cb_rejci {W}.
Arguments cb_reqci {W}. Arguments cb_up {W}. Arguments cb_down {W}.
Arguments cb_starting {W}. Arguments cb_finished {W}. Arguments cb_retransmit {W}.
Arguments cb_extcode {W}.

Section Fsm.
Context {W : Type} {HW : FsmWorld W} (cb : fsm_callbacks W).

Definition on_fsm (g : fsm -> fsm) (w : W) : W := put_fsm (g (w_fsm w)) w.
Definition on_link (g : link -> link) (w : W) : W := put_link (g (w_link w)) w.

Definition fsm_timer : timer := Timer fn_fsm_timeout fsm_addr.

Definition TIMEOUT (w : W) : W :=
  on_link (fun l => set_callouts
    (ppptimeout (clock l) fsm_timer (timeouttime (w_fsm w)) (callouts l)) l) w.

Definition UNTIMEOUT (w : W) : W :=
  on_link (fun l => set_callouts (pppuntimeout fsm_timer (callouts l)) l) w.

(** [if (f->callbacks->c) ( *f->callbacks->c)(f)] *)
Definition call (c : option (W -> W)) (w : W) : W :=
  match c with Some g => g w | None => w end.

Definition goto (s : fsm_state) (w : W) : W := on_fsm (set_state s) w.

(** ** Output *)

Definition fsm_sdata (code pid : Z) (data : payload) (datalen : Z) (w : W) : W :=
  on_link (send_data (protocol (w_fsm w)) code pid data datalen) w.

Definition fsm_sconfreq (retransmit : bool) (w : W) : W :=
  let w :=
    match state (w_fsm w) with
    | REQSENT | ACKRCVD | ACKSENT => w
    | _ => on_fsm (set_nakloops 0) (call (cb_resetci cb) w)
    end in
  let w :=
    if retransmit then w
    else on_fsm (fun f => let f := next_id (set_retransmits (maxconfreqtransmits f) f) in
                          set_reqid (id f) f) w in
  let w := on_fsm (set_seen_ack false) w in
  let '(cilen, w) :=
    match cb_cilen cb, cb_addci cb with
    | Some cb_cilen, Some addci =>
        let '(cilen, w) := cb_cilen w in
        let cilen := if peer_mru (w_link w) - HEADERLEN <? cilen
                     then peer_mru (w_link w) - HEADERLEN else cilen in
        let '(bs, cilen, w) := addci cilen w in
        (cilen, on_link (link_store (Z.to_nat (PPP_HDRLEN + HEADERLEN)) bs) w)
    | _, _ => (0, w)
    end in
  let w := fsm_sdata CONFREQ (reqid (w_fsm w)) InPlace cilen w in
  TIMEOUT (on_fsm (fun f => set_retransmits (retransmits f - 1) f) w).

(** [f->reqid = ++f->id], the Terminate-Request and its timer, common to
    [fsm_close], [fsm_timeout] and [fsm_protreject]. *)
Definition send_termreq (w : W) : W :=
  let w := on_fsm (fun f => let f := next_id f in set_reqid (id f) f) w in
  let w := fsm_sdata TERMREQ (reqid (w_fsm w)) (Data (term_reason (w_fsm w)))
             (term_reason_len (w_fsm w)) w in
  on_fsm (fun f => set_retransmits (retransmits f - 1) f) (TIMEOUT w).

(** ** Lower-layer and administrative events *)

Definition fsm_lowerup (w : W) : W :=
  match state (w_fsm w) with
  | INITIAL => goto CLOSED w
  | STARTING =>
      if has_bits (flags (w_fsm w)) OPT_SILENT then goto STOPPED w
      else goto REQSENT (fsm_sconfreq false w)
  | _ => w
  end.

Definition fsm_lowerdown (w : W) : W :=
  match state (w_fsm w) with
  | CLOSED => goto INITIAL w
  | STOPPED => call (cb_starting cb) (goto STARTING w)
  | CLOSING => UNTIMEOUT (goto INITIAL w)
  | STOPPING | REQSENT | ACKRCVD | ACKSENT => UNTIMEOUT (goto STARTING w)
  | OPENED => goto STARTING (call (cb_down cb) w)
  | _ => w
  end.

Definition fsm_restart (w : W) : W :=
  if has_bits (flags (w_fsm w)) OPT_RESTART then fsm_lowerup (fsm_lowerdown w) else w.

Definition fsm_open (w : W) : W :=
  match state (w_fsm w) with
  | INITIAL => call (cb_starting cb) (goto STARTING w)
  | CLOSED =>
      if has_bits (flags (w_fsm w)) OPT_SILENT then goto STOPPED w
      else goto REQSENT (fsm_sconfreq false w)
  | CLOSING => fsm_restart (goto STOPPING w)
  | STOPPED | OPENED => fsm_restart w
  | _ => w
  end.

Definition fsm_close (reason : option bytes) (w : W) : W :=
  let w := on_fsm (set_term_reason (default [] reason)
                     (match reason with None => 0 | Some r => Z.of_nat (length r) end)) w in
  match state (w_fsm w) with
  | STARTING => goto INITIAL w
  | STOPPED => goto CLOSED w
  | STOPPING => goto CLOSING w
  | REQSENT | ACKRCVD | ACKSENT | OPENED =>
      let w := if decide (state (w_fsm w) <> OPENED) then UNTIMEOUT w
               else call (cb_down cb) w in
      let w := on_fsm (fun f => set_retransmits (maxtermtransmits f) f) w in
      goto CLOSING (send_termreq w)
  | _ => w
  end.

Definition fsm_timeout (w : W) : W :=
  match state (w_fsm w) with
  | CLOSING | STOPPING =>
      if retransmits (w_fsm w) <=? 0
      then call (cb_finished cb)
             (goto (if decide (state (w_fsm w) = CLOSING) then CLOSED else STOPPED) w)
      else send_termreq w
  | REQSENT | ACKRCVD | ACKSENT =>
      if retransmits (w_fsm w) <=? 0
      then let w := goto STOPPED w in
           if has_bits (flags (w_fsm w)) OPT_PASSIVE then w else call (cb_finished cb) w
      else let w := fsm_sconfreq true (call (cb_retransmit cb) w) in
           if decide (state (w_fsm w) = ACKRCVD) then goto REQSENT w else w
  | _ => w
  end.

(** ** Received packets *)

(** The first switch of [fsm_rconfreq]: [None] is an early return. *)
Definition rconfreq_enter (pid : Z) (w : W) : bool * W :=
  match state (w_fsm w) with
  | CLOSED => (false, fsm_sdata TERMACK pid (Data []) 0 w)
  | CLOSING | STOPPING => (false, w)
  | OPENED => (true, fsm_sconfreq false (call (cb_down cb) w))
  | STOPPED => (true, goto REQSENT (fsm_sconfreq false w))
  | _ => (true, w)
  end.

Definition fsm_rconfreq (pid : Z) (inp : bytes) (len : Z) (w : W) : W :=
  let '(go_on, w) := rconfreq_enter pid w in
  if negb go_on then w else
  let '(code, inp, len, w) :=
    match cb_reqci cb with
    | Some reqci => reqci inp len (maxnakloops (w_fsm w) <=? nakloops (w_fsm w)) w
    | None => (if len =? 0 then CONFACK else CONFREJ, inp, len, w)
    end in
  let w := fsm_sdata code pid (Data inp) len w in
  if code =? CONFACK then
    let w := if decide (state (w_fsm w) = ACKRCVD)
             then call (cb_up cb) (goto OPENED (UNTIMEOUT w))
             else goto ACKSENT w in
    on_fsm (set_nakloops 0) w
  else
    let w := if decide (state (w_fsm w) <> ACKRCVD) then goto REQSENT w else w in
    if code =? CONFNAK then on_fsm (fun f => set_nakloops (nakloops f + 1) f) w else w.

Definition fsm_rconfack (pid : Z) (inp : bytes) (len : Z) (w : W) : W :=
  if negb (pid =? reqid (w_fsm w)) || seen_ack (w_fsm w) then w else
  let '(good, w) :=
    match cb_ackci cb with
    | Some ackci => ackci inp len w
    | None => (len =? 0, w)
    end in
  if negb good then w else
  let w := on_fsm (set_seen_ack true) w in
  match state (w_fsm w) with
  | CLOSED | STOPPED => fsm_sdata TERMACK pid (Data []) 0 w
  | REQSENT => on_fsm (fun f => set_retransmits (maxconfreqtransmits f) (set_state ACKRCVD f)) w
  | ACKRCVD => goto REQSENT (fsm_sconfreq false (UNTIMEOUT w))
  | ACKSENT =>
      call (cb_up cb)
        (on_fsm (fun f => set_retransmits (maxconfreqtransmits f) (set_state OPENED f)) (UNTIMEOUT w))
  | OPENED => goto REQSENT (fsm_sconfreq false (call (cb_down cb) w))
  | _ => w
  end.

Definition fsm_rconfnakrej (code pid : Z) (inp : bytes) (len : Z) (w : W) : W :=
  if negb (pid =? reqid (w_fsm w)) || seen_ack (w_fsm w) then w else
  let '(ret, w) :=
    match (if code =? CONFNAK then cb_nakci cb else cb_rejci cb) with
    | Some proc => proc inp len w
    | None => (0, w)
    end in
  if ret =? 0 then w else
  let w := on_fsm (set_seen_ack true) w in
  match state (w_fsm w) with
  | CLOSED | STOPPED => fsm_sdata TERMACK pid (Data []) 0 w
  | REQSENT | ACKSENT =>
      let w := UNTIMEOUT w in
      if ret <? 0 then goto STOPPED w else fsm_sconfreq false w
  | ACKRCVD => goto REQSENT (fsm_sconfreq false (UNTIMEOUT w))
  | OPENED => goto REQSENT (fsm_sconfreq false (call (cb_down cb) w))
  | _ => w
  end.

Definition fsm_rtermreq (pid : Z) (w : W) : W :=
  let w :=
    match state (w_fsm w) with
    | ACKRCVD | ACKSENT => goto REQSENT w
    | OPENED => TIMEOUT (goto STOPPING (on_fsm (set_retransmits 0) (call (cb_down cb) w)))
    | _ => w
    end in
  fsm_sdata TERMACK pid (Data []) 0 w.

Definition fsm_rtermack (w : W) : W :=
  match state (w_fsm w) with
  | CLOSING => call (cb_finished cb) (goto CLOSED (UNTIMEOUT w))
  | STOPPING => call (cb_finished cb) (goto STOPPED (UNTIMEOUT w))
  | ACKRCVD => goto REQSENT w
  | OPENED => fsm_sconfreq false (call (cb_down cb) w)
  | _ => w
  end.

Definition fsm_rcoderej (inp : bytes) (len : Z) (w : W) : W :=
  if len <? HEADERLEN then w
  else match inp with
       | _ :: _ :: _ => if decide (state (w_fsm w) = ACKRCVD) then goto REQSENT w else w
       | _ => on_link link_fault w
       end.

Definition fsm_protreject (w : W) : W :=
  match state (w_fsm w) with
  | CLOSING => call (cb_finished cb) (goto CLOSED (UNTIMEOUT w))
  | CLOSED => call (cb_finished cb) (goto CLOSED w)
  | STOPPING | REQSENT | ACKRCVD | ACKSENT =>
      call (cb_finished cb) (goto STOPPED (UNTIMEOUT w))
  | STOPPED => call (cb_finished cb) (goto STOPPED w)
  | OPENED =>
      let w := call (cb_down cb) w in
      let w := on_fsm (fun f => set_retransmits (maxtermtransmits f) f) w in
      goto STOPPING (send_termreq w)
  | _ => w
  end.

(** The switch of [fsm_input] on the code. *)
Definition fsm_dispatch (inpacket : bytes) (code pid len : Z) (inp : bytes) (w : W) : W :=
  if code =? CONFREQ then fsm_rconfreq pid inp len w
  else if code =? CONFACK then fsm_rconfack pid inp len w
  else if (code =? CONFNAK) || (code =? CONFREJ) then fsm_rconfnakrej code pid inp len w
  else if code =? TERMREQ then fsm_rtermreq pid w
  else if code =? TERMACK then fsm_rtermack w
  else if code =? CODEREJ then fsm_rcoderej inp len w
  else
    let '(known, w) :=
      match cb_extcode cb with
      | Some extcode => extcode code pid inp len w
      | None => (false, w)
      end in
    if known then w
    else let w := on_fsm next_id w in
         fsm_sdata CODEREJ (id (w_fsm w)) (Data inpacket) (len + HEADERLEN) w.

Definition fsm_input (inpacket : bytes) (l : Z) (w : W) : W :=
  match parse_header inpacket l with
  | None => w
  | Some (code, pid, len, inp) =>
      match state (w_fsm w) with
      | INITIAL | STARTING => w
      | _ => fsm_dispatch inpacket code pid len inp w
      end
  end.

End Fsm.
