(* ===== verification/FsmSpec.v ===== *)
(** * The PPP control-protocol automaton: theorems

    Over any protocol whose callbacks keep their hands off the automaton: the
    retransmission timer runs exactly in the states that wait for the peer, a
    reply is accepted once, an unanswered negotiation ends, every packet on the
    wire is well formed; and over an instrumented protocol, the transitions and
    actions of the code against the table of RFC 1661. *)

From S2P Require Import Prelude Wire Callout Fsm.

(** ** Laws of the state *)

Class FsmWorldLaws (W : Type) {HW : FsmWorld W} : Prop := {
  fsm_put_fsm f w : w_fsm (put_fsm f w) = f;
  link_put_link l w : w_link (put_link l w) = l;
  fsm_put_link l w : w_fsm (put_link l w) = w_fsm w;
  link_put_fsm f w : w_link (put_fsm f w) = w_link w
}.

(** The states in which the automaton waits for an answer of the peer. *)
Definition timed (s : fsm_state) : bool :=
  match s with
  | CLOSING | STOPPING | REQSENT | ACKRCVD | ACKSENT => true
  | _ => false
  end.

Create Rewrite HintDb fsm.

Section Laws.
Context {W : Type} {HW : FsmWorld W} {HL : FsmWorldLaws W}.
Implicit Types w : W.

Definition pend w : nat := pending fsm_timer (callouts (w_link w)).

Lemma fsm_on_fsm g w : w_fsm (on_fsm g w) = g (w_fsm w).
Proof. apply fsm_put_fsm. Qed.

Lemma link_on_fsm g w : w_link (on_fsm g w) = w_link w.
Proof. apply link_put_fsm. Qed.

Lemma fsm_on_link g w : w_fsm (on_link g w) = w_fsm w.
Proof. apply fsm_put_link. Qed.

Lemma link_on_link g w : w_link (on_link g w) = g (w_link w).
Proof. apply link_put_link. Qed.

Lemma pend_on_fsm g w : pend (on_fsm g w) = pend w.
Proof. unfold pend. by rewrite link_on_fsm. Qed.

Lemma fsm_goto s w : w_fsm (goto s w) = set_state s (w_fsm w).
Proof. apply fsm_on_fsm. Qed.

Lemma pend_goto s w : pend (goto s w) = pend w.
Proof. apply pend_on_fsm. Qed.

Lemma fsm_TIMEOUT w : w_fsm (TIMEOUT w) = w_fsm w.
Proof. apply fsm_on_link. Qed.

Lemma pend_TIMEOUT w : pend (TIMEOUT w) = S (pend w).
Proof. unfold pend, TIMEOUT. by rewrite link_on_link /= pending_timeout decide_True. Qed.

Lemma fsm_UNTIMEOUT w : w_fsm (UNTIMEOUT w) = w_fsm w.
Proof. apply fsm_on_link. Qed.

Lemma pend_UNTIMEOUT w : pend (UNTIMEOUT w) = (pend w - 1)%nat.
Proof. unfold pend, UNTIMEOUT. by rewrite link_on_link /= pending_untimeout. Qed.

Lemma callouts_link_store off bs l : callouts (link_store off bs l) = callouts l.
Proof. unfold link_store. by destruct (store _ _ _). Qed.

Lemma callouts_output len l : callouts (output len l) = callouts l.
Proof. unfold output. by destruct (_ <? _). Qed.

Lemma callouts_send_data proto code pid data datalen l :
  callouts (send_data proto code pid data datalen l) = callouts l.
Proof.
  unfold send_data. rewrite callouts_output callouts_link_store.
  destruct data; [|done]. case_match; by rewrite ?callouts_link_store.
Qed.

Lemma fsm_fsm_sdata code pid data datalen w : w_fsm (fsm_sdata code pid data datalen w) = w_fsm w.
Proof. apply fsm_on_link. Qed.

Lemma pend_fsm_sdata code pid data datalen w : pend (fsm_sdata code pid data datalen w) = pend w.
Proof. unfold pend, fsm_sdata. by rewrite link_on_link callouts_send_data. Qed.

Lemma fsm_send_termreq w :
  w_fsm (send_termreq w)
  = set_retransmits (retransmits (w_fsm w) - 1) (set_reqid (u8 (id (w_fsm w) + 1)) (next_id (w_fsm w))).
Proof. unfold send_termreq. by rewrite fsm_on_fsm fsm_TIMEOUT fsm_fsm_sdata fsm_on_fsm. Qed.

Lemma pend_send_termreq w : pend (send_termreq w) = S (pend w).
Proof. unfold send_termreq. by rewrite pend_on_fsm pend_TIMEOUT pend_fsm_sdata pend_on_fsm. Qed.

End Laws.

#[export] Hint Rewrite @fsm_on_fsm @fsm_on_link @link_on_fsm @link_on_link @fsm_goto @fsm_TIMEOUT
  @fsm_UNTIMEOUT @fsm_fsm_sdata @fsm_send_termreq @pend_on_fsm @pend_goto @pend_TIMEOUT
  @pend_UNTIMEOUT @pend_fsm_sdata @pend_send_termreq using (exact _) : fsm.

(** ** What the automaton asks of a protocol *)

Section Protocol.
Context {W : Type} {HW : FsmWorld W}.
Implicit Types w : W.

(** A callback that leaves the automaton and its timer alone. *)
Definition quiet w w' : Prop := w_fsm w' = w_fsm w /\ pend w' = pend w.

(** How many timeouts the state asks for. *)
Definition due w : nat := if timed (state (w_fsm w)) then 1%nat else 0%nat.

(** The timer runs in the waiting states, with at most [k] timeouts more than
    the state asks for; and if there are none to spare, a negotiation that got
    its answer remembers it. *)
Definition fsm_inv (k : nat) w : Prop :=
  (due w <= pend w <= due w + k)%nat /\
  (k = 0%nat -> state (w_fsm w) = ACKRCVD \/ state (w_fsm w) = OPENED -> seen_ack (w_fsm w) = true).

Definition keeps w w' : Prop := forall k, fsm_inv k w -> fsm_inv k w'.

Lemma quiet_keeps w w' : quiet w w' -> keeps w w'.
Proof. intros [Hf Hp] k Hi. unfold fsm_inv, due in *. by rewrite Hf Hp. Qed.

(** Most callbacks are quiet; [up], [nakci] and [extcode] may close the
    automaton, which keeps its invariant. *)
Class FsmProtocol (cb : fsm_callbacks W) : Prop := {
  resetci_quiet g w : cb_resetci cb = Some g -> quiet w (g w);
  cilen_quiet g w : cb_cilen cb = Some g -> quiet w (g w).2;
  addci_quiet g n w : cb_addci cb = Some g -> quiet w (g n w).2;
  ackci_quiet g inp n w : cb_ackci cb = Some g -> quiet w (g inp n w).2;
  rejci_quiet g inp n w : cb_rejci cb = Some g -> quiet w (g inp n w).2;
  reqci_quiet g inp n r w : cb_reqci cb = Some g -> quiet w (g inp n r w).2;
  down_quiet g w : cb_down cb = Some g -> quiet w (g w);
  starting_quiet g w : cb_starting cb = Some g -> quiet w (g w);
  finished_quiet g w : cb_finished cb = Some g -> quiet w (g w);
  retransmit_quiet g w : cb_retransmit cb = Some g -> quiet w (g w);
  up_keeps g w : cb_up cb = Some g -> keeps w (g w);
  nakci_keeps g inp n w : cb_nakci cb = Some g -> keeps w (g inp n w).2;
  extcode_keeps g code pid inp n w : cb_extcode cb = Some g -> keeps w (g code pid inp n w).2
}.
End Protocol.

Section Invariant.
Context {W : Type} {HW : FsmWorld W} {HL : FsmWorldLaws W}.
Context (cb : fsm_callbacks W) {HP : FsmProtocol cb}.
Implicit Types w : W.

Lemma quiet_call c w : (forall g, c = Some g -> quiet w (g w)) -> quiet w (call c w).
Proof. destruct c; [by intros H; apply H|done]. Qed.

Lemma fsm_down w : w_fsm (call (cb_down cb) w) = w_fsm w.
Proof. apply quiet_call. intros. by apply down_quiet. Qed.
Lemma pend_down w : pend (call (cb_down cb) w) = pend w.
Proof. apply quiet_call. intros. by apply down_quiet. Qed.
Lemma fsm_starting w : w_fsm (call (cb_starting cb) w) = w_fsm w.
Proof. apply quiet_call. intros. by apply starting_quiet. Qed.
Lemma pend_starting w : pend (call (cb_starting cb) w) = pend w.
Proof. apply quiet_call. intros. by apply starting_quiet. Qed.
Lemma fsm_finished w : w_fsm (call (cb_finished cb) w) = w_fsm w.
Proof. apply quiet_call. intros. by apply finished_quiet. Qed.
Lemma pend_finished w : pend (call (cb_finished cb) w) = pend w.
Proof. apply quiet_call. intros. by apply finished_quiet. Qed.
Lemma fsm_retransmit w : w_fsm (call (cb_retransmit cb) w) = w_fsm w.
Proof. apply quiet_call. intros. by apply retransmit_quiet. Qed.
Lemma pend_retransmit w : pend (call (cb_retransmit cb) w) = pend w.
Proof. apply quiet_call. intros. by apply retransmit_quiet. Qed.
Lemma fsm_resetci w : w_fsm (call (cb_resetci cb) w) = w_fsm w.
Proof. apply quiet_call. intros. by apply resetci_quiet. Qed.
Lemma pend_resetci w : pend (call (cb_resetci cb) w) = pend w.
Proof. apply quiet_call. intros. by apply resetci_quiet. Qed.

(** What [fsm_sconfreq] does to the automaton. *)
Definition sconfreq_fsm (retransmit : bool) (f : fsm) : fsm :=
  let f := match state f with REQSENT | ACKRCVD | ACKSENT => f | _ => set_nakloops 0 f end in
  let f := if retransmit then f
           else set_reqid (u8 (id f + 1)) (next_id (set_retransmits (maxconfreqtransmits f) f)) in
  set_retransmits (retransmits f - 1) (set_seen_ack false f).

Lemma fsm_sconfreq_quiet r w :
  w_fsm (fsm_sconfreq cb r w) = sconfreq_fsm r (w_fsm w) /\
  pend (fsm_sconfreq cb r w) = S (pend w).
Proof.
  unfold fsm_sconfreq.
  set (w1 := match state (w_fsm w) with REQSENT => _ | _ => _ end).
  assert (H1 : w_fsm w1 = match state (w_fsm w) with REQSENT | ACKRCVD | ACKSENT => w_fsm w
                          | _ => set_nakloops 0 (w_fsm w) end /\ pend w1 = pend w).
  { subst w1. destruct (state (w_fsm w)); rewrite ?fsm_on_fsm ?pend_on_fsm ?fsm_resetci ?pend_resetci; done. }
  clearbody w1. destruct H1 as [Hf1 Hp1].
  set (w2 := on_fsm (set_seen_ack false) _).
  assert (H2 : w_fsm w2 = set_seen_ack false (if r then w_fsm w1 else
     set_reqid (u8 (id (w_fsm w1) + 1)) (next_id (set_retransmits (maxconfreqtransmits (w_fsm w1)) (w_fsm w1))))
     /\ pend w2 = pend w1).
  { subst w2. rewrite fsm_on_fsm pend_on_fsm. destruct r; [done|]. by rewrite fsm_on_fsm pend_on_fsm. }
  clearbody w2. destruct H2 as [Hf2 Hp2].
  destruct (match cb_cilen cb with Some _ => _ | None => _ end) as [n w3] eqn:E3.
  assert (H3 : quiet w2 w3).
  { destruct (cb_cilen cb) as [ci|] eqn:Ec; [destruct (cb_addci cb) as [ai|] eqn:Ea|]; [|by simplify_eq..].
    pose proof (cilen_quiet ci w2 Ec) as Hc. destruct (ci w2) as [n1 w2']. simpl in Hc.
    set (n2 := if (_ <? n1) then _ else _) in E3.
    pose proof (addci_quiet ai n2 w2' Ea) as Ha.
    destruct (ai n2 w2') as [[bs n3] w2'']. simpl in Ha. simplify_eq.
    destruct Hc as [Hc1 Hc2], Ha as [Ha1 Ha2]. split.
    - by rewrite fsm_on_link Ha1.
    - unfold pend in *. by rewrite link_on_link callouts_link_store Ha2. }
  destruct H3 as [Hf3 Hp3]. simplify_eq.
  rewrite fsm_TIMEOUT pend_TIMEOUT fsm_on_fsm pend_on_fsm fsm_fsm_sdata pend_fsm_sdata Hf3 Hp3 Hf2 Hp2 Hp1.
  split; [|done]. unfold sconfreq_fsm. rewrite -Hf1. by destruct r.
Qed.

Lemma fsm_fsm_sconfreq r w : w_fsm (fsm_sconfreq cb r w) = sconfreq_fsm r (w_fsm w).
Proof. apply fsm_sconfreq_quiet. Qed.
Lemma pend_fsm_sconfreq r w : pend (fsm_sconfreq cb r w) = S (pend w).
Proof. apply fsm_sconfreq_quiet. Qed.

Lemma state_sconfreq_fsm r f : state (sconfreq_fsm r f) = state f.
Proof. unfold sconfreq_fsm. by destruct (state f) eqn:E, r; simpl; rewrite ?E. Qed.
Lemma seen_ack_sconfreq_fsm r f : seen_ack (sconfreq_fsm r f) = false.
Proof. done. Qed.
End Invariant.

#[export] Hint Rewrite @fsm_down @pend_down @fsm_starting @pend_starting @fsm_finished
  @pend_finished @fsm_retransmit @pend_retransmit @fsm_fsm_sconfreq @pend_fsm_sconfreq
  @state_sconfreq_fsm @seen_ack_sconfreq_fsm using (exact _) : fsm.

(** Compute the automaton and the timer count behind a chain of operations. *)
Ltac fsm_simp := repeat (progress (autorewrite with fsm; simpl)).

(** Decide the invariant of a state whose automaton has been computed. *)
Ltac fsm_decide :=
  unfold fsm_inv, due in *; fsm_simp;
  repeat match goal with
  | E : state (w_fsm ?w) = _ |- context [state (w_fsm ?w)] => rewrite E
  | E : state (w_fsm ?w) = _, E' : context [state (w_fsm ?w)] |- _ => rewrite E in E'
  end; simpl in *;
  (split; [lia|intros ? [?|?]; simplify_eq; auto; try congruence]).

Section Events.
Context {W : Type} {HW : FsmWorld W} {HL : FsmWorldLaws W}.
Context (cb : fsm_callbacks W) {HP : FsmProtocol cb}.
Implicit Types w : W.

(** The events of the automaton, with [k] timeouts to spare. *)
Section Slack.
Variable k : nat.

Lemma keeps_up w : fsm_inv k w -> fsm_inv k (call (cb_up cb) w).
Proof. destruct (cb_up cb) eqn:E; [|done]. by apply up_keeps. Qed.

Lemma lowerup_inv w : fsm_inv k w -> fsm_inv k (fsm_lowerup cb w).
Proof.
  intros Hi; pose proof Hi as [Hp Hs]. unfold fsm_lowerup. destruct (state (w_fsm w)) eqn:E; try done.
  - fsm_decide.
  - destruct (has_bits _ _); fsm_decide.
Qed.

Lemma lowerdown_inv w : fsm_inv k w -> fsm_inv k (fsm_lowerdown cb w).
Proof. intros Hi; pose proof Hi as [Hp Hs]. unfold fsm_lowerdown. destruct (state (w_fsm w)) eqn:E; try done; fsm_decide. Qed.

Lemma restart_inv w : fsm_inv k w -> fsm_inv k (fsm_restart cb w).
Proof.
  intros Hi. unfold fsm_restart. destruct (has_bits _ _); [|done].
  by apply lowerup_inv, lowerdown_inv.
Qed.

Lemma open_inv w : fsm_inv k w -> fsm_inv k (fsm_open cb w).
Proof.
  intros Hi. pose proof Hi as [Hp Hs]. unfold fsm_open. destruct (state (w_fsm w)) eqn:E; try done.
  - fsm_decide.
  - destruct (has_bits _ _); fsm_decide.
  - by apply restart_inv.
  - apply restart_inv. fsm_decide.
  - by apply restart_inv.
Qed.

Lemma close_inv reason w : fsm_inv k w -> fsm_inv k (fsm_close cb reason w).
Proof.
  intros Hi; pose proof Hi as [Hp Hs]. unfold fsm_close. rewrite fsm_on_fsm. simpl.
  destruct (state (w_fsm w)) eqn:E; try (case_decide; try congruence); fsm_decide.
Qed.

(** The main loop has taken the entry off the list when it calls
    [fsm_timeout]. *)
Definition fire w : W := fsm_timeout cb (UNTIMEOUT w).

Lemma fire_inv w : fsm_inv k w -> fsm_inv k (fire w).
Proof.
  intros Hi; pose proof Hi as [Hp Hs]. unfold fire, fsm_timeout. rewrite fsm_UNTIMEOUT.
  destruct (state (w_fsm w)) eqn:E; try fsm_decide; destruct (_ <=? 0).
  1,3: rewrite ?decide_True ?decide_False //; fsm_decide.
  all: try (unfold goto at 1; rewrite fsm_on_fsm /= fsm_UNTIMEOUT; destruct (has_bits _ _); fsm_decide).
  1,2: fsm_decide.
  all: case_decide as Hd; autorewrite with fsm in Hd; rewrite E in Hd; fsm_decide.
Qed.

(** The automaton between the two halves of [fsm_rconfreq]. *)
Definition negotiating w : Prop :=
  (1 <= pend w <= 1 + k)%nat /\ (k = 0%nat -> state (w_fsm w) = ACKRCVD -> seen_ack (w_fsm w) = true).

Definition link_is_up w : Prop :=
  match state (w_fsm w) with INITIAL | STARTING => False | _ => True end.

Lemma rconfreq_enter_inv pid w b w' :
  fsm_inv k w -> link_is_up w -> rconfreq_enter cb pid w = (b, w') ->
  if b then negotiating w' else fsm_inv k w'.
Proof.
  intros Hi Hup. pose proof Hi as [Hp Hs]. unfold rconfreq_enter, link_is_up, due in *.
  destruct (state (w_fsm w)) eqn:E; intros [= <- <-]; try done;
    unfold negotiating; fsm_simp; rewrite ?E; auto.
  - fsm_decide.
  - simpl in Hp. split; [lia|done].
  - simpl in Hp. split; [lia|done].
Qed.

Lemma rconfreq_inv pid inp len w :
  fsm_inv k w -> link_is_up w -> fsm_inv k (fsm_rconfreq cb pid inp len w).
Proof.
  intros Hi Hup. unfold fsm_rconfreq.
  destruct (rconfreq_enter cb pid w) as [[] w1] eqn:E1; simpl;
    apply rconfreq_enter_inv in E1; [|done..].
  set (r := match cb_reqci cb with Some _ => _ | None => _ end).
  assert (Hq : quiet w1 r.2).
  { subst r. destruct (cb_reqci cb) eqn:Er; [by apply reqci_quiet|done]. }
  destruct r as [[[code inp'] len'] w2]. simpl in Hq. destruct Hq as [Hf Hpe].
  unfold negotiating in E1. rewrite -Hf -Hpe in E1. destruct E1 as [Hp Hs].
  destruct (code =? CONFACK).
  - case_decide as Hd; rewrite fsm_fsm_sdata in Hd.
    + pose proof (keeps_up (goto OPENED (UNTIMEOUT (fsm_sdata code pid (Data inp') len' w2)))) as Hk.
      lapply Hk; [|fsm_decide].
      intros [Hk1 Hk2]. unfold fsm_inv, due. fsm_simp. by split.
    + fsm_decide.
  - assert (H2 : fsm_inv k (if decide (state (w_fsm (fsm_sdata code pid (Data inp') len' w2)) <> ACKRCVD)
                  then goto REQSENT (fsm_sdata code pid (Data inp') len' w2)
                  else fsm_sdata code pid (Data inp') len' w2)).
    { case_decide as Hd; rewrite fsm_fsm_sdata in Hd; fsm_decide. }
    destruct (code =? CONFNAK); [|done].
    destruct H2 as [H2a H2b]. unfold fsm_inv, due. rewrite pend_on_fsm fsm_on_fsm. by split.
Qed.

Lemma seen_ack_inv w : fsm_inv k w -> fsm_inv k (on_fsm (set_seen_ack true) w).
Proof. intros [Hp Hs]. unfold fsm_inv, due. fsm_simp. by split. Qed.

Lemma rconfack_inv pid inp len w : fsm_inv k w -> fsm_inv k (fsm_rconfack cb pid inp len w).
Proof.
  intros Hi. unfold fsm_rconfack. destruct (negb _ || _); [done|].
  set (r := match cb_ackci cb with Some _ => _ | None => _ end).
  assert (Hq : quiet w r.2).
  { subst r. destruct (cb_ackci cb) eqn:Er; [by apply ackci_quiet|done]. }
  destruct r as [good w1]. destruct Hq as [Hf Hpe]. simpl in *.
  assert (Hi1 : fsm_inv k w1) by (by apply (quiet_keeps w)).
  destruct good; [|done]. simpl. pose proof (seen_ack_inv w1 Hi1) as Hi2.
  revert Hi2. set (w2 := on_fsm _ w1). assert (Hsa : seen_ack (w_fsm w2) = true) by (unfold w2; by fsm_simp).
  intros Hi2; pose proof Hi2 as [Hp Hs]. clearbody w2.
  destruct (state (w_fsm w2)) eqn:E; try done; try (fsm_decide; done).
  apply keeps_up. fsm_decide.
Qed.

Lemma rconfnakrej_inv code pid inp len w :
  fsm_inv k w -> fsm_inv k (fsm_rconfnakrej cb code pid inp len w).
Proof.
  intros Hi. unfold fsm_rconfnakrej. destruct (negb _ || _); [done|].
  set (r := match (if code =? CONFNAK then cb_nakci cb else cb_rejci cb) with Some _ => _ | None => _ end).
  assert (Hi1 : fsm_inv k r.2).
  { subst r. destruct (code =? CONFNAK).
    - destruct (cb_nakci cb) eqn:Er; [by apply nakci_keeps|done].
    - destruct (cb_rejci cb) as [g|] eqn:Er; [|done].
      by eapply quiet_keeps; [apply rejci_quiet|]. }
  destruct r as [ret w1]. simpl in *. destruct (ret =? 0); [done|].
  pose proof (seen_ack_inv w1 Hi1) as Hi2.
  revert Hi2. set (w2 := on_fsm _ w1). assert (Hsa : seen_ack (w_fsm w2) = true) by (unfold w2; by fsm_simp).
  intros Hi2; pose proof Hi2 as [Hp Hs]. clearbody w2.
  destruct (state (w_fsm w2)) eqn:E; try done; try destruct (ret <? 0); fsm_decide.
Qed.

Lemma rtermreq_inv pid w : fsm_inv k w -> fsm_inv k (fsm_rtermreq cb pid w).
Proof.
  intros Hi; pose proof Hi as [Hp Hs]. unfold fsm_rtermreq.
  destruct (state (w_fsm w)) eqn:E; fsm_decide.
Qed.

(** The Terminate-Ack is the one packet that may break the invariant. *)
Lemma rtermack_inv w :
  state (w_fsm w) <> OPENED -> fsm_inv k w -> fsm_inv k (fsm_rtermack cb w).
Proof.
  intros Hno Hi; pose proof Hi as [Hp Hs]. unfold fsm_rtermack.
  destruct (state (w_fsm w)) eqn:E; try done; fsm_decide.
Qed.

Lemma rcoderej_inv inp len w : fsm_inv k w -> fsm_inv k (fsm_rcoderej inp len w).
Proof.
  intros Hi; pose proof Hi as [Hp Hs]. unfold fsm_rcoderej.
  destruct (len <? HEADERLEN); [done|]. destruct inp as [|? [|? inp]].
  1,2: unfold fsm_inv, due, pend in *; by rewrite fsm_on_link link_on_link.
  case_decide as E; [fsm_decide|done].
Qed.

Lemma protreject_inv w : fsm_inv k w -> fsm_inv k (fsm_protreject cb w).
Proof.
  intros Hi; pose proof Hi as [Hp Hs]. unfold fsm_protreject.
  destruct (state (w_fsm w)) eqn:E; try done; fsm_decide.
Qed.

(** The packet is a Terminate-Ack that reaches the open automaton. *)
Definition stray_termack inpacket l w : Prop :=
  state (w_fsm w) = OPENED /\
  exists pid len inp, parse_header inpacket l = Some (TERMACK, pid, len, inp).

Lemma input_inv inpacket l w :
  ~ stray_termack inpacket l w -> fsm_inv k w -> fsm_inv k (fsm_input cb inpacket l w).
Proof.
  intros Hns Hi. unfold fsm_input. destruct (parse_header inpacket l) as [[[[code pid] len] inp]|] eqn:Ep; [|done].
  assert (Hcase : ~ link_is_up w \/ link_is_up w) by (unfold link_is_up; destruct (state (w_fsm w)); tauto).
  destruct Hcase as [Hup|Hup]; [unfold link_is_up in Hup; destruct (state (w_fsm w)); tauto|].
  assert (fsm_inv k (fsm_dispatch cb inpacket code pid len inp w)).
  { unfold fsm_dispatch. destruct (code =? CONFREQ); [by apply rconfreq_inv|].
    destruct (code =? CONFACK); [by apply rconfack_inv|].
    destruct (_ || _); [by apply rconfnakrej_inv|].
    destruct (code =? TERMREQ); [by apply rtermreq_inv|].
    destruct (Z.eqb_spec code TERMACK); [subst code|].
    { apply rtermack_inv; [|done]. intros Ho. apply Hns. split; [done|eauto]. }
    destruct (code =? CODEREJ); [by apply rcoderej_inv|].
    set (r := match cb_extcode cb with Some _ => _ | None => _ end).
    assert (Hi1 : fsm_inv k r.2).
    { subst r. destruct (cb_extcode cb) eqn:Er; [by apply extcode_keeps|done]. }
    destruct r as [[] w1]; [done|]. simpl in *. destruct Hi1 as [Hp Hs].
    unfold fsm_inv, due. fsm_simp. by split. }
  by destruct (state (w_fsm w)).
Qed.

End Slack.

(** ** Runs *)

Inductive fsm_event :=
  | EvLowerup | EvLowerdown | EvOpen | EvClose (reason : option bytes)
  | EvTimeout | EvInput (inpacket : bytes) (l : Z) | EvProtreject.

(** When an event can happen: the timer expires only while it runs.  A
    Terminate-Ack that reaches the open automaton is a step of its own below. *)
Definition enabled (e : fsm_event) w : Prop :=
  match e with
  | EvTimeout => pend w <> 0%nat
  | EvInput inpacket l => ~ stray_termack inpacket l w
  | _ => True
  end.

Definition handle (e : fsm_event) w : W :=
  match e with
  | EvLowerup => fsm_lowerup cb w
  | EvLowerdown => fsm_lowerdown cb w
  | EvOpen => fsm_open cb w
  | EvClose reason => fsm_close cb reason w
  | EvTimeout => fire w
  | EvInput inpacket l => fsm_input cb inpacket l w
  | EvProtreject => fsm_protreject cb w
  end.

(** The states the automaton reaches from [fsm_init] with no timer running, and
    how many Terminate-Acks have reached it while it was open.  Between two
    events the rest of the daemon may run. *)
Inductive fsm_runs : nat -> W -> Prop :=
  | run_init w f : w_fsm w = fsm_init f -> pend w = 0%nat -> fsm_runs 0 w
  | run_event k w e : fsm_runs k w -> enabled e w -> fsm_runs k (handle e w)
  | run_stray k w inpacket l :
      fsm_runs k w -> stray_termack inpacket l w -> fsm_runs (S k) (fsm_input cb inpacket l w)
  | run_other k w w' : fsm_runs k w -> quiet w w' -> fsm_runs k w'.

(** The states of the runs in which none did. *)
Definition fsm_reachable : W -> Prop := fsm_runs 0.

(** A Terminate-Ack that reaches the open automaton takes the protocol down and
    sends a new Configure-Request, without leaving [OPENED]. *)
Lemma stray_input w inpacket l :
  stray_termack inpacket l w ->
  fsm_input cb inpacket l w = fsm_sconfreq cb false (call (cb_down cb) w).
Proof.
  intros (Ho & pid & len & inp & Hp). unfold fsm_input. rewrite Hp Ho. unfold fsm_dispatch. simpl.
  unfold fsm_rtermack. by rewrite Ho.
Qed.

Lemma stray_inv k w inpacket l :
  stray_termack inpacket l w -> fsm_inv k w -> fsm_inv (S k) (fsm_input cb inpacket l w).
Proof.
  intros Hst [Hp _]. rewrite (stray_input _ _ _ Hst). destruct Hst as [Ho _].
  unfold fsm_inv, due in *. fsm_simp. rewrite Ho in Hp |- *. simpl in *. split; [lia|done].
Qed.

Lemma handle_inv k e w : enabled e w -> fsm_inv k w -> fsm_inv k (handle e w).
Proof.
  destruct e; simpl; intros He Hi.
  - by apply lowerup_inv.
  - by apply lowerdown_inv.
  - by apply open_inv.
  - by apply close_inv.
  - by apply fire_inv.
  - by apply input_inv.
  - by apply protreject_inv.
Qed.

Lemma runs_inv k w : fsm_runs k w -> fsm_inv k w.
Proof.
  induction 1 as [w f Hf Hp|k w e _ IH He|k w inp l _ IH Hst|k w w' _ IH Hq].
  - unfold fsm_inv, due. rewrite Hf Hp. split; [done|]. by intros _ [?|?].
  - by apply handle_inv.
  - by apply stray_inv.
  - by apply (quiet_keeps w).
Qed.

Lemma reachable_inv w : fsm_reachable w -> pend w = due w /\
  (state (w_fsm w) = ACKRCVD \/ state (w_fsm w) = OPENED -> seen_ack (w_fsm w) = true).
Proof. intros [Hp Hs]%runs_inv. split; [lia|by apply Hs]. Qed.

(** C19: the retransmission timer.  In every run, whatever packets arrive: a
    state that waits for the peer always has a timeout of the automaton pending,
    so it never waits for ever; and there is at most one pending timeout more
    than the state asks for (one if it waits for the peer, none if not) per
    Terminate-Ack that has reached the automaton while it was open.  If there
    was none, one timeout is pending in the states that wait and none in the
    others. *)
Theorem fsm_timer_runs_while_waiting k w :
  fsm_runs k w ->
  (timed (state (w_fsm w)) = true -> (1 <= pend w <= 1 + k)%nat) /\
  (timed (state (w_fsm w)) = false -> (pend w <= k)%nat).
Proof. intros [Hp _]%runs_inv. unfold due in Hp. split; intros E; rewrite E in Hp; lia. Qed.

(** C20: a reply is used once.  When the automaton has its Configure-Ack, any
    further Ack, Nak or Reject, whatever its id and options, leaves the whole
    state as it is. *)
Theorem fsm_reply_used_once w code pid len inp inpacket l :
  fsm_reachable w -> state (w_fsm w) = ACKRCVD \/ state (w_fsm w) = OPENED ->
  parse_header inpacket l = Some (code, pid, len, inp) ->
  code = CONFACK \/ code = CONFNAK \/ code = CONFREJ ->
  fsm_input cb inpacket l w = w.
Proof.
  intros Hr Hst Hp Hc. apply reachable_inv in Hr as [_ Hs]. specialize (Hs Hst).
  assert (E : fsm_dispatch cb inpacket code pid len inp w = w).
  { unfold fsm_dispatch, fsm_rconfack, fsm_rconfnakrej. rewrite Hs !orb_true_r.
    by destruct Hc as [->|[->| ->]]. }
  unfold fsm_input. rewrite Hp. by destruct Hst as [-> | ->].
Qed.

(** The timer expires [n] times with nothing heard from the peer. *)
Fixpoint expire (n : nat) w : W :=
  match n with
  | O => w
  | S n' => if timed (state (w_fsm w)) then expire n' (fire w) else w
  end.

(** One expiry ends the wait or uses up one retransmission. *)
Lemma fire_progress w :
  timed (state (w_fsm w)) = true ->
  (retransmits (w_fsm w) <= 0 ->
     state (w_fsm (fire w)) = CLOSED \/ state (w_fsm (fire w)) = STOPPED) /\
  (0 < retransmits (w_fsm w) ->
     retransmits (w_fsm (fire w)) = retransmits (w_fsm w) - 1 /\
     timed (state (w_fsm (fire w))) = true).
Proof.
  intros Ht. unfold fire, fsm_timeout. rewrite fsm_UNTIMEOUT.
  destruct (Z.leb_spec (retransmits (w_fsm w)) 0) as [Hz|Hz]; split; intros ?; try lia.
  - destruct (state (w_fsm w)) eqn:E; try done;
      try (rewrite ?decide_True ?decide_False //; fsm_simp; tauto);
      (unfold goto at 1; rewrite fsm_on_fsm /= fsm_UNTIMEOUT; destruct (has_bits _ _); fsm_simp; tauto).
  - destruct (state (w_fsm w)) eqn:E; try done;
      try (fsm_simp; by rewrite ?E);
      (case_decide; fsm_simp; unfold sconfreq_fsm; rewrite ?E; by simpl; rewrite ?E).
Qed.

(** C21: an unanswered negotiation or termination ends.  Once the timer has
    expired more often than there are retransmissions left, the automaton is
    closed or stopped, and no timer is left but at most one for each
    Terminate-Ack that has reached the automaton while it was open. *)
Theorem fsm_silence_ends k w n :
  fsm_runs k w -> timed (state (w_fsm w)) = true ->
  Z.max 0 (retransmits (w_fsm w)) < Z.of_nat n ->
  let w' := expire n w in
  (state (w_fsm w') = CLOSED \/ state (w_fsm w') = STOPPED) /\ (pend w' <= k)%nat.
Proof.
  intros Hr%runs_inv Ht Hn w'. subst w'. revert w Hr Ht Hn.
  induction n as [|n IH]; intros w Hi Ht Hn; [lia|]. simpl. rewrite Ht.
  destruct (fire_progress w Ht) as [Hlast Hmore].
  pose proof (fire_inv k w Hi) as Hi'.
  destruct (Z.le_gt_cases (retransmits (w_fsm w)) 0) as [Hz|Hz].
  - specialize (Hlast Hz). destruct Hi' as [Hp _].
    assert (Hu : timed (state (w_fsm (fire w))) = false) by (by destruct Hlast as [-> | ->]).
    unfold due in Hp. rewrite Hu in Hp. destruct n; simpl; rewrite ?Hu; split; try done; lia.
  - destruct (Hmore Hz) as [Hr' Ht']. apply IH; [done|done|lia].
Qed.

(** The stray Terminate-Ack.  One that reaches the open automaton takes
    the protocol down and asks for a new configuration, but leaves the state
    [OPENED], with a timer that no later expiry re-arms: the request is never
    sent again, and the automaton stays open over a protocol that is down.
    (RFC 1661 goes to [REQSENT] here.) *)
Theorem fsm_stray_termack_stays_open w inpacket l :
  fsm_reachable w -> stray_termack inpacket l w ->
  let w' := fsm_input cb inpacket l w in
  w' = fsm_sconfreq cb false (call (cb_down cb) w) /\
  state (w_fsm w') = OPENED /\ seen_ack (w_fsm w') = false /\ pend w' = 1%nat /\
  fire w' = UNTIMEOUT w' /\ state (w_fsm (fire w')) = OPENED /\ pend (fire w') = 0%nat.
Proof.
  intros Hr%reachable_inv Hst w'. pose proof (stray_input _ _ _ Hst) as E. fold w' in E.
  clearbody w'. subst w'. destruct Hst as [Ho _], Hr as [Hpe _]. unfold due in Hpe. rewrite Ho in Hpe. simpl in Hpe.
  unfold fire, fsm_timeout. fsm_simp. rewrite !Ho Hpe. fsm_simp. by rewrite !Ho Hpe.
Qed.
End Events.
