(* ===== verification/FsmGate.v ===== *)
(** * What holds only while a control protocol is up

    A layer above an automaton switches something on when the automaton's [up]
    is called and off again in [down].  For every such pair of predicates, an
    event of the automaton keeps the gate: what is on is on in OPENED only, and
    every way out of OPENED goes through [down]. *)

From S2P Require Import Prelude Wire Callout Fsm FsmSpec.

(** Replace a callback by the function the table holds. *)
Ltac take_callback :=
  repeat match goal with H : _ _ = Some _ |- _ => cbn in H; first [discriminate H|injection H as <-] end.

Section Gate.
Context {W : Type} {HW : FsmWorld W} (cb : fsm_callbacks W) (base is_off is_on : W -> Prop).
Implicit Types w : W.

Definition gate w : Prop := is_off w \/ (state (w_fsm w) = OPENED /\ is_on w).

(** A change of the link that leaves the timers of other parts alone. *)
Definition link_quiet (g : link -> link) : Prop :=
  forall l t, t <> fsm_timer -> pending t (callouts (g l)) = pending t (callouts l).

(** What is asked of the callbacks: the two predicates do not look at the
    automaton, its timer, buffers or packets; [down] switches off; nothing but
    [up] switches on.  What [down] counts on is [base], which holds all the
    time. *)
Class Gated : Prop := {
  off_fsm g w : is_off w -> is_off (on_fsm g w);
  off_link g w : link_quiet g -> is_off w -> is_off (on_link g w);
  on_on_fsm g w : is_on w -> is_on (on_fsm g w);
  on_on_link g w : link_quiet g -> is_on w -> is_on (on_link g w);
  off_resetci w : is_off w -> is_off (call (cb_resetci cb) w);
  off_cilen g w : cb_cilen cb = Some g -> is_off w -> is_off (g w).2;
  off_addci g n w : cb_addci cb = Some g -> is_off w -> is_off (g n w).2;
  off_reqci g inp n r w : cb_reqci cb = Some g -> is_off w -> is_off (g inp n r w).2;
  off_starting w : is_off w -> is_off (call (cb_starting cb) w);
  off_finished w : is_off w -> is_off (call (cb_finished cb) w);
  off_retransmit w : is_off w -> is_off (call (cb_retransmit cb) w);
  base_off w : is_off w -> base w;
  base_on w : is_on w -> base w;
  base_fsm g w : base w -> base (on_fsm g w);
  down_off w : base w -> state (w_fsm w) = OPENED -> is_off (call (cb_down cb) w);
  up_gate w : is_off w -> state (w_fsm w) = OPENED -> gate (call (cb_up cb) w);
  ackci_gate g inp n w : cb_ackci cb = Some g -> gate w -> gate (g inp n w).2;
  nakci_gate g inp n w : cb_nakci cb = Some g -> gate w -> gate (g inp n w).2;
  rejci_gate g inp n w : cb_rejci cb = Some g -> gate w -> gate (g inp n w).2;
  extcode_gate g code pid inp n w : cb_extcode cb = Some g -> gate w -> gate (g code pid inp n w).2
}.

Context {HL : FsmWorldLaws W} {HG : Gated}.

Lemma gate_off w : is_off w -> gate w.
Proof. by left. Qed.

Lemma gate_not_opened w : gate w -> state (w_fsm w) <> OPENED -> is_off w.
Proof. intros [?|[? _]] ?; [done|congruence]. Qed.

Lemma gate_down w : gate w -> state (w_fsm w) = OPENED -> is_off (call (cb_down cb) w).
Proof. intros [?|[_ ?]] ?; apply down_off; [by apply base_off|done|by apply base_on|done]. Qed.

Lemma gate_link g w : link_quiet g -> gate w -> gate (on_link g w).
Proof.
  intros Hq [?|[? ?]]; [left; by apply off_link|right].
  rewrite fsm_on_link. split; [done|by apply on_on_link].
Qed.

Lemma gate_fsm g w : state (g (w_fsm w)) = state (w_fsm w) -> gate w -> gate (on_fsm g w).
Proof.
  intros Hs [?|[? ?]]; [left; by apply off_fsm|right].
  rewrite fsm_on_fsm Hs. split; [done|by apply on_on_fsm].
Qed.

Lemma send_data_quiet proto code pid data n : link_quiet (send_data proto code pid data n).
Proof. intros l t _. by rewrite callouts_send_data. Qed.

Lemma link_store_quiet off bs : link_quiet (link_store off bs).
Proof. intros l t _. by rewrite callouts_link_store. Qed.

Lemma gate_sdata code pid data n w : gate w -> gate (fsm_sdata code pid data n w).
Proof. apply gate_link, send_data_quiet. Qed.

Lemma off_sdata code pid data n w : is_off w -> is_off (fsm_sdata code pid data n w).
Proof. apply off_link, send_data_quiet. Qed.

Lemma off_TIMEOUT w : is_off w -> is_off (TIMEOUT w).
Proof.
  apply off_link. intros l t Ht. simpl. rewrite pending_timeout.
  case_decide; [congruence|done].
Qed.

Lemma off_UNTIMEOUT w : is_off w -> is_off (UNTIMEOUT w).
Proof. apply off_link. intros l t Ht. by apply pending_untimeout_ne. Qed.

(** Off stays off. *)

Ltac offs :=
  repeat first
    [ assumption
    | apply off_TIMEOUT | apply off_UNTIMEOUT | apply off_sdata | apply off_fsm
    | apply off_link; [apply link_store_quiet|]
    | apply off_resetci | apply off_starting | apply off_finished | apply off_retransmit
    | apply down_off; [apply base_off|] ].

Lemma off_send_termreq w : is_off w -> is_off (send_termreq w).
Proof. intros. unfold send_termreq. offs. Qed.

Lemma off_sconfreq b w : is_off w -> is_off (fsm_sconfreq cb b w).
Proof.
  intros Ho. unfold fsm_sconfreq.
  set (w1 := match state _ with REQSENT => _ | _ => _ end).
  assert (H1 : is_off w1) by (subst w1; case_match; offs). clearbody w1.
  set (w2 := on_fsm (set_seen_ack false) _).
  assert (H2 : is_off w2) by (subst w2; apply off_fsm; destruct b; offs). clearbody w2.
  destruct (cb_cilen cb) as [cilen|] eqn:Ec; [|offs]. destruct (cb_addci cb) as [addci|] eqn:Ea; [|offs].
  pose proof (off_cilen _ w2 Ec H2) as H3. destruct (cilen w2) as [n w3]. simpl in *.
  set (m := if _ <? _ then _ else _). pose proof (off_addci _ m w3 Ea H3) as H4.
  destruct (addci m w3) as [[bs m'] w4]. simpl in *. offs.
Qed.

Lemma off_lowerup w : is_off w -> is_off (fsm_lowerup cb w).
Proof.
  intros. unfold fsm_lowerup, goto. case_match; offs. case_match; offs. by apply off_sconfreq.
Qed.

Lemma off_lowerdown w : is_off w -> is_off (fsm_lowerdown cb w).
Proof. intros. unfold fsm_lowerdown, goto. case_match; offs. Qed.

Lemma off_restart w : is_off w -> is_off (fsm_restart cb w).
Proof. intros. unfold fsm_restart. case_match; [|done]. by apply off_lowerup, off_lowerdown. Qed.

(** ** Every event keeps the gate *)

Lemma gate_lowerup w : gate w -> gate (fsm_lowerup cb w).
Proof.
  intros Hg. unfold fsm_lowerup. destruct (state (w_fsm w)) eqn:Es; try done;
    (apply gate_not_opened in Hg; [|congruence]); apply gate_off; [by apply off_fsm|].
  case_match; apply off_fsm; [done|by apply off_sconfreq].
Qed.

Lemma gate_lowerdown w : gate w -> gate (fsm_lowerdown cb w).
Proof.
  intros [Ho|[Hs Hw]]; apply gate_off; [by apply off_lowerdown|].
  unfold fsm_lowerdown. rewrite Hs. apply off_fsm, down_off; [by apply base_on|done].
Qed.

Lemma gate_open w : gate w -> gate (fsm_open cb w).
Proof.
  intros Hg. unfold fsm_open. destruct (state (w_fsm w)) eqn:Es; try done.
  - apply gate_off, off_starting, off_fsm, gate_not_opened; [done|congruence].
  - apply gate_not_opened in Hg; [|congruence]. apply gate_off.
    case_match; apply off_fsm; [done|by apply off_sconfreq].
  - apply gate_off, off_restart, gate_not_opened; [done|congruence].
  - apply gate_off, off_restart, off_fsm, gate_not_opened; [done|congruence].
  - unfold fsm_restart. case_match; [|done]. by apply gate_lowerup, gate_lowerdown.
Qed.

(** Closing an open automaton switches off, whatever was on. *)
Lemma close_opened_off reason w :
  state (w_fsm w) = OPENED -> base w -> is_off (fsm_close cb reason w).
Proof.
  intros Hs Hw. unfold fsm_close. rewrite fsm_on_fsm /= Hs. case_decide as Hd; [done|].
  apply off_fsm, off_send_termreq, off_fsm, down_off; [by apply base_fsm|by rewrite fsm_on_fsm].
Qed.

Lemma off_close reason w : is_off w -> is_off (fsm_close cb reason w).
Proof.
  intros Ho. unfold fsm_close. set (w1 := on_fsm _ w). assert (H1 : is_off w1) by by apply off_fsm.
  clearbody w1. case_match; try done; try by apply off_fsm.
  all: apply off_fsm, off_send_termreq, off_fsm; case_decide as Hd; [by apply off_UNTIMEOUT|].
  all: apply down_off; [by apply base_off|by destruct (decide (state (w_fsm w1) = OPENED))].
Qed.

Lemma gate_close reason w : gate w -> is_off (fsm_close cb reason w).
Proof. intros [?|[? ?]]; [by apply off_close|by apply close_opened_off, base_on]. Qed.

Lemma gate_protreject w : gate w -> is_off (fsm_protreject cb w) .
Proof.
  intros [Ho|[Hs Hw]]; unfold fsm_protreject, send_termreq, goto; [|rewrite Hs].
  - case_match; offs.
  - apply off_fsm, off_fsm, off_TIMEOUT, off_sdata, off_fsm, off_fsm, down_off; [by apply base_on|done].
Qed.

Lemma gate_timeout w : gate w -> gate (fsm_timeout cb w).
Proof.
  intros Hg. unfold fsm_timeout. destruct (state (w_fsm w)) eqn:Es; try done;
    (apply gate_not_opened in Hg; [|congruence]); apply gate_off.
  1-2: case_match; [by apply off_finished, off_fsm|by apply off_send_termreq].
  all: case_match; [case_match; [|apply off_finished]; by apply off_fsm|].
  all: set (w1 := fsm_sconfreq _ _ _); assert (H1 : is_off w1) by (by apply off_sconfreq, off_retransmit);
    clearbody w1; case_decide; [by apply off_fsm|done].
Qed.

Lemma off_rconfreq_enter pid w : gate w -> (rconfreq_enter cb pid w).1 = true -> is_off (rconfreq_enter cb pid w).2.
Proof.
  intros Hg. unfold rconfreq_enter. destruct (state (w_fsm w)) eqn:Es; try done; intros _; simpl;
    try (apply gate_not_opened; [done|congruence]).
  - apply off_fsm, off_sconfreq, gate_not_opened; [done|congruence].
  - apply off_sconfreq, gate_down; [done|congruence].
Qed.

Lemma gate_rconfreq pid inp len w : gate w -> gate (fsm_rconfreq cb pid inp len w).
Proof.
  intros Hg. unfold fsm_rconfreq. pose proof (off_rconfreq_enter pid w Hg) as He.
  destruct (rconfreq_enter cb pid w) as [go_on w1] eqn:E. simpl in He. destruct go_on; simpl.
  2:{ unfold rconfreq_enter in E. case_match; simplify_eq; try done. by apply gate_sdata. }
  specialize (He eq_refl).
  set (r := match cb_reqci cb with Some _ => _ | None => _ end).
  assert (Hr : is_off r.2).
  { subst r. destruct (cb_reqci cb) eqn:Er; [|done]. by eapply off_reqci. }
  destruct r as [[[code inp'] len'] w2]. simpl in Hr. clear E.
  set (w3 := fsm_sdata _ _ _ _ _). assert (H3 : is_off w3) by by apply off_sdata. clearbody w3.
  destruct (code =? CONFACK).
  - apply gate_fsm; [done|]. case_decide; [|by apply gate_off, off_fsm].
    apply up_gate; [by apply off_fsm, off_UNTIMEOUT|by rewrite fsm_goto].
  - apply gate_off. set (w4 := if decide _ then _ else _).
    assert (H4 : is_off w4) by (subst w4; case_decide; [by apply off_fsm|done]).
    clearbody w4. destruct (code =? CONFNAK); [by apply off_fsm|done].
Qed.

Lemma gate_rconfack pid inp len w : gate w -> gate (fsm_rconfack cb pid inp len w).
Proof.
  intros Hg. unfold fsm_rconfack. destruct (_ || _); [done|].
  set (r := match cb_ackci cb with Some _ => _ | None => _ end).
  assert (Hr : gate r.2).
  { subst r. destruct (cb_ackci cb) eqn:Er; [|done]. by eapply ackci_gate. }
  destruct r as [good w1]. simpl in Hr. destruct good; simpl; [|done].
  set (w2 := on_fsm _ w1). assert (H2 : gate w2) by by apply gate_fsm. clearbody w2.
  destruct (state (w_fsm w2)) eqn:Es; try done; try (by apply gate_sdata);
    try (apply gate_not_opened in H2; [|congruence]).
  - by apply gate_off, off_fsm.
  - by apply gate_off, off_fsm, off_sconfreq, off_UNTIMEOUT.
  - apply up_gate; [by apply off_fsm, off_UNTIMEOUT|by rewrite fsm_on_fsm].
  - by apply gate_off, off_fsm, off_sconfreq, gate_down.
Qed.

Lemma gate_rconfnakrej code pid inp len w : gate w -> gate (fsm_rconfnakrej cb code pid inp len w).
Proof.
  intros Hg. unfold fsm_rconfnakrej. destruct (_ || _); [done|].
  set (r := match (if code =? CONFNAK then cb_nakci cb else cb_rejci cb) with Some _ => _ | None => _ end).
  assert (Hr : gate r.2).
  { subst r. destruct (code =? CONFNAK).
    - destruct (cb_nakci cb) eqn:Er; [|done]. by eapply nakci_gate.
    - destruct (cb_rejci cb) eqn:Er; [|done]. by eapply rejci_gate. }
  destruct r as [ret w1]. simpl in Hr. destruct (ret =? 0); simpl; [done|].
  set (w2 := on_fsm _ w1). assert (H2 : gate w2) by by apply gate_fsm. clearbody w2.
  destruct (state (w_fsm w2)) eqn:Es; try done; try (by apply gate_sdata);
    try (apply gate_not_opened in H2; [|congruence]); apply gate_off.
  - case_match; [by apply off_fsm, off_UNTIMEOUT|by apply off_sconfreq, off_UNTIMEOUT].
  - by apply off_fsm, off_sconfreq, off_UNTIMEOUT.
  - case_match; [by apply off_fsm, off_UNTIMEOUT|by apply off_sconfreq, off_UNTIMEOUT].
  - apply off_fsm, off_sconfreq, gate_down; [done|congruence].
Qed.

Lemma gate_rtermreq pid w : gate w -> gate (fsm_rtermreq cb pid w).
Proof.
  intros Hg. apply gate_sdata. destruct (state (w_fsm w)) eqn:Es; try done.
  1-2: apply gate_off, off_fsm, gate_not_opened; [done|congruence].
  apply gate_off. apply off_TIMEOUT, off_fsm, off_fsm, gate_down; [done|congruence].
Qed.

Lemma gate_rtermack w : gate w -> gate (fsm_rtermack cb w).
Proof.
  intros Hg. unfold fsm_rtermack. destruct (state (w_fsm w)) eqn:Es; try done;
    try (apply gate_not_opened in Hg; [|congruence]); apply gate_off.
  - by apply off_finished, off_fsm, off_UNTIMEOUT.
  - by apply off_finished, off_fsm, off_UNTIMEOUT.
  - by apply off_fsm.
  - apply off_sconfreq, gate_down; [done|congruence].
Qed.

Lemma gate_rcoderej inp len w : gate w -> gate (fsm_rcoderej inp len w).
Proof.
  intros Hg. unfold fsm_rcoderej. case_match; [done|].
  destruct inp as [|? [|? ?]]; [by apply gate_link..|]. case_decide as Es; [|done].
  apply gate_off, off_fsm, gate_not_opened; [done|congruence].
Qed.

Lemma gate_input p len w : gate w -> gate (fsm_input cb p len w).
Proof.
  intros Hg. unfold fsm_input. destruct (parse_header p len) as [[[[code pid] n] inp]|]; [|done].
  assert (gate (fsm_dispatch cb p code pid n inp w)); [|by destruct (state (w_fsm w))].
  unfold fsm_dispatch.
  destruct (code =? CONFREQ); [by apply gate_rconfreq|].
  destruct (code =? CONFACK); [by apply gate_rconfack|].
  destruct (_ || _); [by apply gate_rconfnakrej|].
  destruct (code =? TERMREQ); [by apply gate_rtermreq|].
  destruct (code =? TERMACK); [by apply gate_rtermack|].
  destruct (code =? CODEREJ); [by apply gate_rcoderej|].
  set (r := match cb_extcode cb with Some _ => _ | None => _ end).
  assert (Hr : gate r.2).
  { subst r. destruct (cb_extcode cb) eqn:Er; [|done]. by eapply extcode_gate. }
  destruct r as [[] w1]; simpl in Hr; [done|]. by apply gate_sdata, gate_fsm.
Qed.
End Gate.

(** ** A predicate every callback keeps *)

Section Kept.
Context {W : Type} {HW : FsmWorld W}.
Implicit Types w : W.

Definition anything w : Prop := True.
Definition never w : Prop := False.

(** With nothing to switch on, the gate is the predicate itself. *)
Lemma gate_only (P : W -> Prop) w : gate P never w <-> P w.
Proof. split; [by intros [?|[_ []]]|by left]. Qed.
End Kept.

(** ** The last call of an event *)

Section Finished.
Context {W : Type} {HW : FsmWorld W} (cb : fsm_callbacks W).
Implicit Types w : W.

(** The same protocol without its [finished]. *)
Definition without_finished : fsm_callbacks W :=
  FsmCallbacks (cb_resetci cb) (cb_cilen cb) (cb_addci cb) (cb_ackci cb) (cb_nakci cb) (cb_rejci cb)
    (cb_reqci cb) (cb_up cb) (cb_down cb) (cb_starting cb) None (cb_retransmit cb) (cb_extcode cb).

(** [finished] is the last thing an event calls, so a protocol may let it start
    the event of another automaton that comes back to this one. *)
Definition finished_last (event : fsm_callbacks W -> W -> W) : Prop :=
  forall w, event cb w = event without_finished w \/
            event cb w = call (cb_finished cb) (event without_finished w).

Lemma timeout_finished_last : finished_last fsm_timeout.
Proof.
  intros w. unfold fsm_timeout. destruct (state (w_fsm w)); try by left.
  1-2: destruct (_ <=? 0); [by right|by left].
  all: destruct (_ <=? 0); [destruct (has_bits _ _); [by left|by right]|by left].
Qed.

Lemma input_finished_last p len : finished_last (fun cb => fsm_input cb p len).
Proof.
  intros w. unfold fsm_input. destruct (parse_header p len) as [[[[code pid] n] inp]|]; [|by left].
  assert (H : fsm_dispatch cb p code pid n inp w = fsm_dispatch without_finished p code pid n inp w \/
    fsm_dispatch cb p code pid n inp w = call (cb_finished cb) (fsm_dispatch without_finished p code pid n inp w)).
  { unfold fsm_dispatch. destruct (code =? CONFREQ); [by left|]. destruct (code =? CONFACK); [by left|].
    destruct (_ || _); [by left|]. destruct (code =? TERMREQ); [by left|].
    destruct (code =? TERMACK); [|by left].
    unfold fsm_rtermack. destruct (state (w_fsm w)); first [by left|by right]. }
  destruct (state (w_fsm w)); first [by left|exact H].
Qed.
End Finished.
