(* ===== verification/FsmPackets.v ===== *)
(** * The PPP control-protocol automaton: packets

    What [fsm_sdata] puts on the wire is what [fsm_input] parses, and the fixed
    output buffer holds every packet as long as the peer's MRU is at most the
    default; above it a Code-Reject can run over the end. *)

From S2P Require Import Prelude Wire Callout Fsm FsmSpec.

(** The size of [outpacket_buf]. *)
Definition OUTPACKET_SIZE : nat := Z.to_nat (PPP_MRU + PPP_HDRLEN).

Definition buf_ok (l : link) : Prop := length (outpacket_buf l) = OUTPACKET_SIZE.

Lemma length_packet_header proto code pid outlen : length (packet_header proto code pid outlen) = 8%nat.
Proof. done. Qed.

Lemma link_store_fits off bs l :
  (off + length bs <= length (outpacket_buf l))%nat ->
  link_store off bs l
  = Link (peer_mru l) (take off (outpacket_buf l) ++ bs ++ drop (off + length bs) (outpacket_buf l))
      (sent l) (lk_oob l) (callouts l) (clock l).
Proof. intros Hle. unfold link_store. by rewrite store_Some. Qed.

Lemma link_store_over off bs l :
  (length (outpacket_buf l) < off + length bs)%nat -> link_store off bs l = link_fault l.
Proof.
  intros Hlt. unfold link_store, store.
  by rewrite (proj2 (Nat.leb_gt _ _) Hlt).
Qed.

Lemma buf_ok_link_store off bs l : buf_ok l -> buf_ok (link_store off bs l).
Proof.
  unfold buf_ok, link_store. destruct (store _ _ _) eqn:E; [|done]. simpl.
  by rewrite (store_length _ _ _ _ E).
Qed.

Lemma buf_ok_output len l : buf_ok l -> buf_ok (output len l).
Proof. unfold buf_ok, output. by destruct (_ <? _). Qed.

Lemma buf_ok_send_data proto code pid data datalen l :
  buf_ok l -> buf_ok (send_data proto code pid data datalen l).
Proof.
  intros Hb. unfold send_data. apply buf_ok_output, buf_ok_link_store.
  destruct data; [|done]. destruct (_ =? 0); [done|by apply buf_ok_link_store].
Qed.

(** The data of a packet that fits goes on the wire behind its header. *)
Lemma output_header proto code pid n l :
  buf_ok l -> 0 <= n <= PPP_MRU - HEADERLEN ->
  output (n + HEADERLEN + PPP_HDRLEN) (link_store 0 (packet_header proto code pid (n + HEADERLEN)) l)
  = Link (peer_mru l) (packet_header proto code pid (n + HEADERLEN) ++ drop 8 (outpacket_buf l))
      (sent l ++ [packet_header proto code pid (n + HEADERLEN)
                  ++ take (Z.to_nat n) (drop 8 (outpacket_buf l))])
      (lk_oob l) (callouts l) (clock l).
Proof.
  intros Hb Hn. unfold buf_ok, OUTPACKET_SIZE, PPP_MRU, PPP_HDRLEN, HEADERLEN in *.
  pose proof (length_packet_header proto code pid (n + 4)) as Hh.
  set (h := packet_header proto code pid (n + 4)) in *. clearbody h.
  rewrite link_store_fits /output; [rewrite Hh Hb; lia|]. simpl.
  rewrite length_app length_drop Hb Hh (proj2 (Z.ltb_ge _ _)); [lia|].
  do 3 f_equal. replace (Z.to_nat (n + 4 + 4)) with (length h + Z.to_nat n)%nat by lia.
  by rewrite take_app_add.
Qed.

Definition clamp (l : link) (datalen : Z) : Z := Z.min datalen (peer_mru l - HEADERLEN).

Lemma send_data_clamp proto code pid data datalen l :
  send_data proto code pid data datalen l
  = let n := clamp l datalen in
    output (n + HEADERLEN + PPP_HDRLEN)
      (link_store 0 (packet_header proto code pid (n + HEADERLEN))
         match data with
         | Data bs => if n =? 0 then l else link_store 8 (take (Z.to_nat n) bs) l
         | InPlace => l
         end).
Proof.
  unfold send_data, clamp. destruct (Z.ltb_spec (peer_mru l - HEADERLEN) datalen).
  - by rewrite Z.min_r; [lia|].
  - by rewrite Z.min_l; [lia|].
Qed.

Lemma take_to_nat_length (n : Z) (bs : bytes) :
  0 <= n <= Z.of_nat (length bs) -> Z.of_nat (length (take (Z.to_nat n) bs)) = n.
Proof. rewrite length_take. lia. Qed.

(** The packet [send_data] transmits. *)
Lemma send_data_sent proto code pid bs datalen l :
  buf_ok l -> 0 <= datalen <= Z.of_nat (length bs) -> HEADERLEN <= peer_mru l ->
  clamp l datalen <= PPP_MRU - HEADERLEN ->
  let n := clamp l datalen in
  let l' := send_data proto code pid (Data bs) datalen l in
  sent l' = sent l ++ [packet_header proto code pid (n + HEADERLEN) ++ take (Z.to_nat n) bs] /\
  lk_oob l' = lk_oob l.
Proof.
  intros Hb Hd Hm Hfit n l'. subst l'. rewrite send_data_clamp. cbn zeta. fold n.
  assert (Hn : 0 <= n <= PPP_MRU - HEADERLEN /\ n <= Z.of_nat (length bs)).
  { unfold n, clamp in *. lia. }
  destruct Hn as [Hn Hnb].
  assert (Hlen : length (take (Z.to_nat n) bs) = Z.to_nat n) by (rewrite length_take; lia).
  destruct (Z.eqb_spec n 0) as [E|E].
  - rewrite output_header //. by rewrite E.
  - unfold PPP_MRU, HEADERLEN in *. unfold buf_ok, OUTPACKET_SIZE in Hb. 
    rewrite output_header //; [by apply buf_ok_link_store|].
    rewrite link_store_fits; [rewrite Hlen Hb; unfold PPP_MRU, PPP_HDRLEN; lia|]. simpl. split; [|done].
    do 3 f_equal. rewrite drop_app_length'; [rewrite length_take Hb; unfold PPP_MRU, PPP_HDRLEN; lia|].
    by rewrite -{1}Hlen take_app_length.
Qed.

(** What the peer's [fsm_input] makes of it. *)
Lemma parse_packet proto code pid n data :
  0 <= n <= PPP_MRU - HEADERLEN -> byte_ok code -> byte_ok pid ->
  parse_header (drop 4 (packet_header proto code pid (n + HEADERLEN) ++ data)) (n + HEADERLEN) = Some (code, pid, n, data).
Proof.
  intros Hn Hc Hi. unfold parse_header, PPP_MRU, HEADERLEN in *. rewrite (proj2 (Z.ltb_ge _ _)); [lia|].
  change (drop 4 _) with (u8 code :: u8 pid :: PUTSHORT (n + 4) ++ data).
  cbv iota beta. rewrite GETSHORT_PUTSHORT u16_small; [lia|].
  rewrite (proj2 (Z.ltb_ge _ _)); [lia|]. rewrite (proj2 (Z.ltb_ge _ _)); [lia|].
  rewrite !u8_small //. do 3 f_equal. lia.
Qed.

Lemma packet_proto proto code pid outlen data :
  0 <= proto < 65536 ->
  GETSHORT (drop 2 (packet_header proto code pid outlen ++ data)) = Some (proto, drop 4 (packet_header proto code pid outlen ++ data)).
Proof.
  intros Hp. change (drop 2 _) with (PUTSHORT proto ++ drop 4 (packet_header proto code pid outlen ++ data)).
  rewrite GETSHORT_PUTSHORT u16_small //.
Qed.

(** ** Theorems *)

(** What is sent is what is received.  A packet sent with any code, id and
    data carries the protocol's header, and the parser of the peer's
    [fsm_input] recovers the code, the id and the data, cut to the peer's
    MRU. *)
Theorem fsm_packet_roundtrip proto code pid bs datalen l :
  buf_ok l -> 0 <= datalen <= Z.of_nat (length bs) ->
  HEADERLEN <= peer_mru l <= PPP_MRU ->
  0 <= proto < 65536 -> byte_ok code -> byte_ok pid ->
  let n := Z.min datalen (peer_mru l - HEADERLEN) in
  exists pkt,
    sent (send_data proto code pid (Data bs) datalen l) = sent l ++ [pkt] /\
    Z.of_nat (length pkt) = n + HEADERLEN + PPP_HDRLEN /\
    take 4 pkt = MAKEHEADER proto /\ GETSHORT (drop 2 pkt) = Some (proto, drop 4 pkt) /\
    parse_header (drop 4 pkt) (n + HEADERLEN) = Some (code, pid, n, take (Z.to_nat n) bs).
Proof.
  intros Hb Hd Hm Hp Hc Hi n.
  destruct (send_data_sent proto code pid bs datalen l) as [Hs _]; [done..|lia|unfold clamp; lia|].
  fold (clamp l datalen) in n. subst n. set (n := clamp l datalen) in *.
  assert (Hn : 0 <= n <= PPP_MRU - HEADERLEN) by (unfold n, clamp, PPP_MRU, HEADERLEN in *; lia).
  eexists. split; [exact Hs|]. split_and!.
  - rewrite length_app length_packet_header length_take. unfold n, clamp, PPP_HDRLEN, HEADERLEN in *. lia.
  - done.
  - by apply packet_proto.
  - by apply parse_packet.
Qed.

(** C22: the output buffer.  Sending data that is there runs over the end of
    [outpacket_buf] exactly when the data, cut to the peer's MRU, is longer
    than the 1496 bytes behind the header; never while that MRU is at most
    1500. *)
Theorem fsm_sdata_in_bounds proto code pid bs datalen l :
  buf_ok l -> lk_oob l = false -> 0 <= datalen <= Z.of_nat (length bs) ->
  HEADERLEN <= peer_mru l ->
  let l' := send_data proto code pid (Data bs) datalen l in
  buf_ok l' /\
  (lk_oob l' = true <-> PPP_MRU - HEADERLEN < Z.min datalen (peer_mru l - HEADERLEN)) /\
  (peer_mru l <= PPP_MRU -> lk_oob l' = false).
Proof.
  intros Hb Ho Hd Hm l'. fold (clamp l datalen).
  assert (Hiff : lk_oob l' = true <-> PPP_MRU - HEADERLEN < clamp l datalen).
  { destruct (Z.le_gt_cases (clamp l datalen) (PPP_MRU - HEADERLEN)) as [Hle|Hgt].
    - destruct (send_data_sent proto code pid bs datalen l) as [_ Hoo]; [done..|].
      subst l'. rewrite Hoo Ho. split; [done|lia].
    - split; [done|]. intros _. subst l'. rewrite send_data_clamp. cbn zeta.
      set (n := clamp l datalen) in *. unfold PPP_MRU, HEADERLEN in *.
      rewrite (proj2 (Z.eqb_neq n 0)); [lia|].
      rewrite (link_store_over 8).
      { rewrite length_take Hb. unfold OUTPACKET_SIZE, PPP_MRU, PPP_HDRLEN, n, clamp in *.
        unfold HEADERLEN in *. lia. }
      unfold output, link_store. by case_tests. }
  split_and!; [by apply buf_ok_send_data|done|].
  intros Hle. apply not_true_is_false. rewrite Hiff. unfold clamp, PPP_MRU, HEADERLEN in *. lia.
Qed.

Section CodeReject.
Context {W : Type} {HW : FsmWorld W} {HL : FsmWorldLaws W} (cb : fsm_callbacks W).
Implicit Types w : W.

(** No handler knows the code. *)
Definition unknown_code (code pid len : Z) (inp : bytes) w : Prop :=
  ~ (CONFREQ <= code <= CODEREJ) /\
  match cb_extcode cb with
  | Some extcode => extcode code pid inp len w = (false, w)
  | None => True
  end.

(** The Code-Reject of a full-size packet overflows.  Once the peer has
    negotiated an MRU of 1504 or more, a packet of 1500 bytes with a code
    nobody knows, the largest the daemon reads, is sent back whole behind eight
    bytes of header: four bytes more than [outpacket_buf] has. *)
Theorem fsm_code_reject_overflows w inpacket code pid len inp :
  buf_ok (w_link w) -> PPP_MRU + HEADERLEN <= peer_mru (w_link w) -> link_is_up w ->
  length inpacket = Z.to_nat PPP_MRU ->
  parse_header inpacket PPP_MRU = Some (code, pid, len, inp) -> len + HEADERLEN = PPP_MRU ->
  unknown_code code pid len inp w ->
  lk_oob (w_link (fsm_input cb inpacket PPP_MRU w)) = true.
Proof.
  intros Hb Hm Hup Hlen Hp Hl [Hc Hx]. unfold fsm_input, link_is_up in *. rewrite Hp.
  assert (E : lk_oob (w_link (fsm_dispatch cb inpacket code pid len inp w)) = true);
    [|by destruct (state (w_fsm w))].
  unfold fsm_dispatch, CONFREQ, CONFACK, CONFNAK, CONFREJ, TERMREQ, TERMACK, CODEREJ in *.
  repeat (rewrite (proj2 (Z.eqb_neq code _)); [lia|]). cbn [orb].
  set (r := match cb_extcode cb with Some _ => _ | None => _ end).
  assert (Hr : r = (false, w)) by (subst r; by destruct (cb_extcode cb)). rewrite Hr. clear r Hr.
  unfold fsm_sdata. rewrite link_on_link link_on_fsm Hl send_data_clamp. cbn zeta.
  assert (Hn : clamp (w_link w) PPP_MRU = 1500) by (unfold clamp, PPP_MRU, HEADERLEN in *; lia).
  rewrite Hn. simpl (_ =? 0). cbv iota. rewrite (link_store_over 8).
  { rewrite length_take Hlen Hb. unfold OUTPACKET_SIZE, PPP_MRU, PPP_HDRLEN. lia. }
  unfold output, link_store. by case_tests.
Qed.
End CodeReject.
