(* ===== verification/FsmRfc.v ===== *)
(** * The PPP control-protocol automaton against RFC 1661

    The state transition table of RFC 1661 section 4.1 as an executable
    specification, an instrumented protocol whose callbacks log what the
    automaton asks of its layer, and the theorem that [fsm.c] takes the
    transitions of the table, runs its layer actions and sends its packets,
    with two exceptions. *)

From S2P Require Import Prelude Wire Callout Fsm FsmSpec FsmPackets.

(** ** The specification *)

Inductive rfc_event :=
  | Up | Down | Open | Close | TO_plus | TO_minus | RCR_plus | RCR_minus
  | RCA | RCN | RTR | RTA | RUC | RXJ_plus | RXJ_minus.

#[export] Instance rfc_event_eq_dec : EqDecision rfc_event.
Proof. solve_decision. Defined.

(** This-Layer-Up, -Down, -Started and -Finished. *)
Inductive layer_action := tlu | tld | tls | tlf.

(** Send-Configure-Request, -Ack, -Nak (or Reject), Send-Terminate-Request,
    -Ack and Send-Code-Reject. *)
Inductive send_action := scr | sca | scn | str | sta | scj.

Definition stay (s : fsm_state) : list layer_action * list send_action * fsm_state := ([], [], s).

(** The table, without its restart, passive and counter annotations; an event
    that cannot occur in a state leaves it. *)
Definition rfc1661 (e : rfc_event) (s : fsm_state)
    : list layer_action * list send_action * fsm_state :=
  match e, s with
  | Up, INITIAL => ([], [], CLOSED)
  | Up, STARTING => ([], [scr], REQSENT)
  | Down, (CLOSED | CLOSING) => ([], [], INITIAL)
  | Down, STOPPED => ([tls], [], STARTING)
  | Down, (STOPPING | REQSENT | ACKRCVD | ACKSENT) => ([], [], STARTING)
  | Down, OPENED => ([tld], [], STARTING)
  | Open, INITIAL => ([tls], [], STARTING)
  | Open, CLOSED => ([], [scr], REQSENT)
  | Open, CLOSING => ([], [], STOPPING)
  | Close, STARTING => ([tlf], [], INITIAL)
  | Close, STOPPED => ([], [], CLOSED)
  | Close, STOPPING => ([], [], CLOSING)
  | Close, (REQSENT | ACKRCVD | ACKSENT) => ([], [str], CLOSING)
  | Close, OPENED => ([tld], [str], CLOSING)
  | TO_plus, (CLOSING | STOPPING) => ([], [str], s)
  | TO_plus, (REQSENT | ACKRCVD) => ([], [scr], REQSENT)
  | TO_plus, ACKSENT => ([], [scr], ACKSENT)
  | TO_minus, CLOSING => ([tlf], [], CLOSED)
  | TO_minus, (STOPPING | REQSENT | ACKRCVD | ACKSENT) => ([tlf], [], STOPPED)
  | (RCR_plus | RCR_minus), CLOSED => ([], [sta], CLOSED)
  | RCR_plus, STOPPED => ([], [scr; sca], ACKSENT)
  | RCR_minus, STOPPED => ([], [scr; scn], REQSENT)
  | RCR_plus, (REQSENT | ACKSENT) => ([], [sca], ACKSENT)
  | RCR_plus, ACKRCVD => ([tlu], [sca], OPENED)
  | RCR_plus, OPENED => ([tld], [scr; sca], ACKSENT)
  | RCR_minus, (REQSENT | ACKSENT) => ([], [scn], REQSENT)
  | RCR_minus, ACKRCVD => ([], [scn], ACKRCVD)
  | RCR_minus, OPENED => ([tld], [scr; scn], REQSENT)
  | (RCA | RCN), (CLOSED | STOPPED) => ([], [sta], s)
  | RCA, REQSENT => ([], [], ACKRCVD)
  | RCA, ACKSENT => ([tlu], [], OPENED)
  | RCN, (REQSENT | ACKSENT) => ([], [scr], s)
  | (RCA | RCN), ACKRCVD => ([], [scr], REQSENT)
  | (RCA | RCN), OPENED => ([tld], [scr], REQSENT)
  | RTR, (CLOSED | STOPPED | CLOSING | STOPPING) => ([], [sta], s)
  | RTR, (REQSENT | ACKRCVD | ACKSENT) => ([], [sta], REQSENT)
  | RTR, OPENED => ([tld], [sta], STOPPING)
  | RTA, CLOSING => ([tlf], [], CLOSED)
  | RTA, STOPPING => ([tlf], [], STOPPED)
  | RTA, ACKRCVD => ([], [], REQSENT)
  | RTA, OPENED => ([tld], [scr], REQSENT)
  | RUC, (CLOSED | STOPPED | CLOSING | STOPPING | REQSENT | ACKRCVD | ACKSENT | OPENED) =>
      ([], [scj], s)
  | RXJ_plus, ACKRCVD => ([], [], REQSENT)
  | RXJ_minus, (CLOSED | CLOSING) => ([tlf], [], CLOSED)
  | RXJ_minus, (STOPPED | STOPPING | REQSENT | ACKRCVD | ACKSENT) => ([tlf], [], STOPPED)
  | RXJ_minus, OPENED => ([tld], [str], STOPPING)
  | _, _ => stay s
  end.

(** The two cells the code leaves: a close of the automaton that waits for its
    lower layer does not report the layer finished, and the Terminate-Ack in
    [OPENED] does not change the state. *)
Definition deviates (e : rfc_event) (s : fsm_state) : bool :=
  match e, s with
  | Close, STARTING => true
  | RTA, OPENED => true
  | _, _ => false
  end.

(** ** An instrumented protocol *)

Record probe := Probe { p_fsm : fsm; p_link : link; p_log : list layer_action }.

#[export] Instance probe_world : FsmWorld probe := {
  w_fsm := p_fsm;
  put_fsm f w := Probe f (p_link w) (p_log w);
  w_link := p_link;
  put_link l w := Probe (p_fsm w) l (p_log w);
  fsm_addr := 0
}.

#[export] Instance probe_laws : FsmWorldLaws probe.
Proof. by split. Qed.

Definition log (a : layer_action) (w : probe) : probe :=
  Probe (p_fsm w) (p_link w) (p_log w ++ [a]).

(** The protocol sends no options and answers a Configure-Request, an Ack, a
    Nak and a Reject as it is told. *)
Record answers := Answers { ans_req : Z; ans_ack : bool; ans_nak : Z; ans_rej : Z }.

Definition probe_cb (a : answers) : fsm_callbacks probe :=
  FsmCallbacks None None None
    (Some (fun _ _ w => (ans_ack a, w)))
    (Some (fun _ _ w => (ans_nak a, w)))
    (Some (fun _ _ w => (ans_rej a, w)))
    (Some (fun inp len _ w => (ans_req a, inp, len, w)))
    (Some (log tlu)) (Some (log tld)) (Some (log tls)) (Some (log tlf)) None None.

Lemma quiet_log act w : quiet w (log act w).
Proof. done. Qed.

#[export] Instance probe_protocol a : FsmProtocol (probe_cb a).
Proof. split; intros; simplify_eq/=; try done; by intros ?. Qed.

(** The codes on the wire: the fifth byte of each packet. *)
Definition codes (w : probe) : list Z := map (fun p => nth 4 p 0) (sent (p_link w)).

Definition action_of (code : Z) : option send_action :=
  if code =? CONFREQ then Some scr
  else if code =? CONFACK then Some sca
  else if (code =? CONFNAK) || (code =? CONFREJ) then Some scn
  else if code =? TERMREQ then Some str
  else if code =? TERMACK then Some sta
  else if code =? CODEREJ then Some scj
  else None.

(** The event of RFC 1661 an event of the daemon is; [None] is a packet the
    standard silently discards. *)
Definition classify (a : answers) (e : fsm_event) (w : probe) : option rfc_event :=
  match e with
  | EvLowerup => Some Up
  | EvLowerdown => Some Down
  | EvOpen => Some Open
  | EvClose _ => Some Close
  | EvTimeout => Some (if retransmits (p_fsm w) <=? 0 then TO_minus else TO_plus)
  | EvProtreject => Some RXJ_minus
  | EvInput inpacket l =>
      match parse_header inpacket l with
      | None => None
      | Some (code, pid, len, inp) =>
          let expected := (pid =? reqid (p_fsm w)) && negb (seen_ack (p_fsm w)) in
          if code =? CONFREQ then Some (if ans_req a =? CONFACK then RCR_plus else RCR_minus)
          else if code =? CONFACK then if expected && ans_ack a then Some RCA else None
          else if code =? CONFNAK then if expected && (0 <? ans_nak a) then Some RCN else None
          else if code =? CONFREJ then if expected && (0 <? ans_rej a) then Some RCN else None
          else if code =? TERMREQ then Some RTR
          else if code =? TERMACK then Some RTA
          else if code =? CODEREJ then if len <? HEADERLEN then None else Some RXJ_plus
          else Some RUC
      end
  end.

(** A negotiation verdict, and no request to stop the protocol. *)
Definition answers_ok (a : answers) : Prop :=
  (ans_req a = CONFACK \/ ans_req a = CONFNAK \/ ans_req a = CONFREJ) /\
  0 <= ans_nak a /\ 0 <= ans_rej a.

(** Packet memory as the daemon has it: the buffer has its size, the MRU is in
    range, the received packet is as long as its length says. *)
Definition lok (w : probe) : Prop :=
  buf_ok (p_link w) /\ HEADERLEN <= peer_mru (p_link w) <= PPP_MRU.

Definition event_ok (e : fsm_event) : Prop :=
  match e with
  | EvInput inpacket l => l <= Z.of_nat (length inpacket)
  | _ => True
  end.

(** ** What each operation adds to the wire and to the log *)

Lemma peer_mru_send_data proto code pid data n l :
  peer_mru (send_data proto code pid data n l) = peer_mru l.
Proof. unfold send_data, output, link_store. by case_tests. Qed.

Lemma codes_send_data proto code pid data n l :
  buf_ok l -> HEADERLEN <= peer_mru l <= PPP_MRU -> 0 <= n ->
  map (fun p => nth 4 p 0) (sent (send_data proto code pid data n l))
  = map (fun p => nth 4 p 0) (sent l) ++ [u8 code].
Proof.
  intros Hb Hm Hn. rewrite send_data_clamp. cbn zeta.
  assert (Hc : 0 <= clamp l n <= PPP_MRU - HEADERLEN) by (unfold clamp, PPP_MRU, HEADERLEN in *; lia).
  set (l1 := match data with Data _ => _ | InPlace => _ end).
  assert (H1 : buf_ok l1 /\ sent l1 = sent l).
  { subst l1. destruct data; [|done]. destruct (_ =? 0); [done|].
    split; [by apply buf_ok_link_store|]. unfold link_store. by destruct (store _ _ _). }
  destruct H1 as [Hb1 Hs1]. rewrite output_header //. simpl. by rewrite map_app Hs1.
Qed.

Lemma lok_on_fsm g w : lok w -> lok (on_fsm g w).
Proof. done. Qed.
Lemma lok_goto s w : lok w -> lok (goto s w).
Proof. done. Qed.
Lemma lok_log a w : lok w -> lok (log a w).
Proof. done. Qed.
Lemma lok_TIMEOUT w : lok w -> lok (TIMEOUT w).
Proof. done. Qed.
Lemma lok_UNTIMEOUT w : lok w -> lok (UNTIMEOUT w).
Proof. done. Qed.
Lemma lok_fsm_sdata code pid data n w : lok w -> lok (fsm_sdata code pid data n w).
Proof.
  unfold lok. simpl. intros [Hb Hm]. rewrite peer_mru_send_data. split; [by apply buf_ok_send_data|done].
Qed.

#[local] Hint Resolve lok_on_fsm lok_goto lok_log lok_TIMEOUT lok_UNTIMEOUT lok_fsm_sdata : bsd.

Lemma codes_fsm_sdata code pid data n w :
  lok w -> 0 <= n -> codes (fsm_sdata code pid data n w) = codes w ++ [u8 code].
Proof. intros [Hb Hm] Hn. by apply codes_send_data. Qed.

Section Observe.
Context (a : answers).

(** The request of the instrumented protocol. *)
Lemma sconfreq_probe r w :
  exists w1 g, fsm_sconfreq (probe_cb a) r w
               = TIMEOUT (on_fsm g (fsm_sdata CONFREQ (reqid (p_fsm w1)) InPlace 0 w1)) /\
    p_link w1 = p_link w /\ p_log w1 = p_log w.
Proof.
  eexists _, _. split; [reflexivity|]. by destruct (state (w_fsm w)), r.
Qed.

Lemma codes_sconfreq r w : lok w -> codes (fsm_sconfreq (probe_cb a) r w) = codes w ++ [CONFREQ].
Proof.
  intros Hl. destruct (sconfreq_probe r w) as (w1 & g & -> & Hk & _).
  change (codes (TIMEOUT _)) with (codes (fsm_sdata CONFREQ (reqid (p_fsm w1)) InPlace 0 w1)).
  rewrite codes_fsm_sdata //; unfold lok, codes; by rewrite Hk.
Qed.

Lemma log_sconfreq r w : p_log (fsm_sconfreq (probe_cb a) r w) = p_log w.
Proof. by destruct (sconfreq_probe r w) as (w1 & g & -> & _ & Hg). Qed.

Lemma lok_sconfreq r w : lok w -> lok (fsm_sconfreq (probe_cb a) r w).
Proof.
  intros Hl. destruct (sconfreq_probe r w) as (w1 & g & -> & Hk & _).
  apply lok_TIMEOUT, lok_on_fsm, lok_fsm_sdata. unfold lok. by rewrite Hk.
Qed.

Lemma codes_termreq w :
  lok w -> 0 <= term_reason_len (p_fsm w) -> codes (send_termreq w) = codes w ++ [TERMREQ].
Proof.
  intros Hl Ht. unfold send_termreq.
  match goal with |- codes (on_fsm _ (TIMEOUT ?w')) = _ => change (codes w' = codes w ++ [TERMREQ]) end.
  by rewrite codes_fsm_sdata.
Qed.

Lemma log_termreq w : p_log (send_termreq w) = p_log w.
Proof. done. Qed.
End Observe.

Section Log.
Implicit Types w : probe.
Lemma log_on_fsm g w : p_log (on_fsm g w) = p_log w.
Proof. done. Qed.
Lemma log_goto s w : p_log (goto s w) = p_log w.
Proof. done. Qed.
Lemma log_TIMEOUT w : p_log (TIMEOUT w) = p_log w.
Proof. done. Qed.
Lemma log_UNTIMEOUT w : p_log (UNTIMEOUT w) = p_log w.
Proof. done. Qed.
Lemma log_fsm_sdata code pid data n w : p_log (fsm_sdata code pid data n w) = p_log w.
Proof. done. Qed.
Lemma codes_on_fsm g w : codes (on_fsm g w) = codes w.
Proof. done. Qed.
Lemma codes_goto s w : codes (goto s w) = codes w.
Proof. done. Qed.
Lemma codes_TIMEOUT w : codes (TIMEOUT w) = codes w.
Proof. done. Qed.
Lemma codes_UNTIMEOUT w : codes (UNTIMEOUT w) = codes w.
Proof. done. Qed.
Lemma codes_log act w : codes (log act w) = codes w.
Proof. done. Qed.
Lemma log_log act w : p_log (log act w) = p_log w ++ [act].
Proof. done. Qed.
Lemma fsm_log act w : w_fsm (log act w) = w_fsm w.
Proof. done. Qed.
End Log.

#[local] Arguments fsm_sconfreq : simpl never.
#[local] Arguments send_termreq : simpl never.
#[local] Arguments fsm_sdata : simpl never.
#[local] Arguments on_fsm : simpl never.
#[local] Arguments goto : simpl never.
#[local] Arguments TIMEOUT : simpl never.
#[local] Arguments UNTIMEOUT : simpl never.
#[local] Arguments log : simpl never.
#[local] Arguments w_fsm : simpl never.

Create Rewrite HintDb obs.
#[local] Hint Rewrite log_on_fsm log_goto log_TIMEOUT log_UNTIMEOUT log_fsm_sdata log_sconfreq
  log_termreq log_log codes_on_fsm codes_goto codes_TIMEOUT codes_UNTIMEOUT codes_log fsm_log : obs.
#[local] Hint Rewrite codes_fsm_sdata codes_sconfreq codes_termreq
  using (auto with bsd zarith) : obs.
#[local] Hint Resolve lok_sconfreq : bsd.

(** A run from [w] to [w'] that ends in [s'] after the actions [ls] and [ss]. *)
Definition sees (w w' : probe) (r : list layer_action * list send_action * fsm_state) : Prop :=
  let '(ls, ss, s') := r in
  state (w_fsm w') = s' /\ p_log w' = p_log w ++ ls /\
  exists cs, codes w' = codes w ++ cs /\ map action_of cs = map Some ss.

Lemma sees_refl w s : state (w_fsm w) = s -> sees w w (stay s).
Proof. intros <-. split_and!; [done|by rewrite app_nil_r|]. exists []. by rewrite app_nil_r. Qed.

Ltac see_codes :=
  rewrite -?app_assoc; simpl;
  first [ eexists; split; [reflexivity|reflexivity]
        | exists []; split; [by rewrite app_nil_r|reflexivity] ].

(** Compute state, log and codes behind a chain of operations. *)
Ltac see :=
  unfold sees, stay, call; simpl cb_up; simpl cb_down; simpl cb_starting; simpl cb_finished;
  simpl cb_retransmit; cbv iota beta;
  split_and!;
  [ repeat (progress (autorewrite with fsm obs; simpl)); try done; try congruence
  | autorewrite with obs; rewrite ?app_nil_r; done
  | autorewrite with obs; see_codes ].

Section Refinement.
Context (a : answers).
Implicit Types w : probe.

Lemma no_bits m : has_bits 0 m = false.
Proof. unfold has_bits. by rewrite Z.land_0_l. Qed.

Lemma see_lowerup w :
  lok w -> flags (w_fsm w) = 0 ->
  sees w (fsm_lowerup (probe_cb a) w) (rfc1661 Up (state (w_fsm w))).
Proof.
  intros Hl Hf. unfold fsm_lowerup. rewrite Hf no_bits.
  destruct (state (w_fsm w)) eqn:E; try (by apply sees_refl); simpl rfc1661; see.
Qed.

Lemma see_lowerdown w : sees w (fsm_lowerdown (probe_cb a) w) (rfc1661 Down (state (w_fsm w))).
Proof.
  unfold fsm_lowerdown.
  destruct (state (w_fsm w)) eqn:E; try (by apply sees_refl); simpl rfc1661; see.
Qed.

Lemma see_open w :
  lok w -> flags (w_fsm w) = 0 ->
  sees w (fsm_open (probe_cb a) w) (rfc1661 Open (state (w_fsm w))).
Proof.
  intros Hl Hf. unfold fsm_open, fsm_restart. rewrite fsm_goto.
  change (flags (set_state STOPPING (w_fsm w))) with (flags (w_fsm w)). rewrite Hf !no_bits.
  destruct (state (w_fsm w)) eqn:E; try (by apply sees_refl); simpl rfc1661; see.
Qed.

Lemma see_close reason w :
  lok w -> deviates Close (state (w_fsm w)) = false ->
  sees w (fsm_close (probe_cb a) reason w) (rfc1661 Close (state (w_fsm w))).
Proof.
  intros Hl Hd. unfold fsm_close. rewrite fsm_on_fsm.
  change (state (set_term_reason _ _ (w_fsm w))) with (state (w_fsm w)).
  set (w1 := on_fsm _ w).
  assert (H1 : lok w1 /\ p_log w1 = p_log w /\ codes w1 = codes w /\ 0 <= term_reason_len (w_fsm w1)).
  { subst w1. rewrite fsm_on_fsm. split_and!; [done..|]. destruct reason; simpl; lia. }
  assert (Hs : state (w_fsm w1) = state (w_fsm w)) by (subst w1; by rewrite fsm_on_fsm).
  clearbody w1. destruct H1 as (Hl1 & Hg & Hc & Ht).
  destruct (state (w_fsm w)) eqn:E; try done; simpl rfc1661.
  all: rewrite /sees -Hg -Hc; fold (sees w1); 
    try (apply sees_refl; done).
  all: rewrite ?decide_True ?decide_False //; see.
Qed.

Lemma see_timeout w :
  lok w -> flags (w_fsm w) = 0 -> 0 <= term_reason_len (w_fsm w) ->
  sees w (fire (probe_cb a) w)
    (rfc1661 (if retransmits (w_fsm w) <=? 0 then TO_minus else TO_plus) (state (w_fsm w))).
Proof.
  intros Hl Hf Ht. unfold fire, fsm_timeout. rewrite fsm_goto !fsm_UNTIMEOUT.
  change (flags (set_state STOPPED (w_fsm w))) with (flags (w_fsm w)). rewrite Hf no_bits.
  replace (state (w_fsm (fsm_sconfreq (probe_cb a) true
      (call (cb_retransmit (probe_cb a)) (UNTIMEOUT w))))) with (state (w_fsm w)) by by fsm_simp.
  destruct (retransmits (w_fsm w) <=? 0); destruct (state (w_fsm w)) eqn:E; simpl rfc1661;
    try (case_decide; try congruence); see.
Qed.

Lemma see_protreject w :
  lok w -> 0 <= term_reason_len (w_fsm w) ->
  sees w (fsm_protreject (probe_cb a) w) (rfc1661 RXJ_minus (state (w_fsm w))).
Proof.
  intros Hl Ht. unfold fsm_protreject.
  destruct (state (w_fsm w)) eqn:E; try (by apply sees_refl); simpl rfc1661; see.
Qed.

Lemma see_rtermreq pid w :
  lok w -> link_is_up w -> sees w (fsm_rtermreq (probe_cb a) pid w) (rfc1661 RTR (state (w_fsm w))).
Proof.
  intros Hl Hup. unfold fsm_rtermreq, link_is_up in *.
  destruct (state (w_fsm w)) eqn:E; try done; simpl rfc1661; see.
Qed.

Lemma see_rtermack w :
  lok w -> deviates RTA (state (w_fsm w)) = false ->
  sees w (fsm_rtermack (probe_cb a) w) (rfc1661 RTA (state (w_fsm w))).
Proof.
  intros Hl Hd. unfold fsm_rtermack.
  destruct (state (w_fsm w)) eqn:E; try done; try (by apply sees_refl); simpl rfc1661; see.
Qed.

Lemma see_rcoderej inp len w :
  HEADERLEN <= len <= Z.of_nat (length inp) ->
  sees w (fsm_rcoderej inp len w) (rfc1661 RXJ_plus (state (w_fsm w))).
Proof.
  intros Hlen. unfold fsm_rcoderej, HEADERLEN in *. rewrite (proj2 (Z.ltb_ge _ _)); [lia|].
  destruct inp as [|? [|? inp]]; simpl in Hlen; try lia.
  case_decide as E; [rewrite E; see|].
  destruct (state (w_fsm w)) eqn:E'; try done; by apply sees_refl.
Qed.

(** The verdict of the protocol on a Configure-Request, sent back. *)
Lemma see_rconfreq pid inp len w :
  answers_ok a -> lok w -> link_is_up w -> 0 <= len ->
  sees w (fsm_rconfreq (probe_cb a) pid inp len w)
    (rfc1661 (if ans_req a =? CONFACK then RCR_plus else RCR_minus) (state (w_fsm w))).
Proof.
  intros (Hreq & _) Hl Hup Hlen. unfold fsm_rconfreq, rconfreq_enter, link_is_up in *.
  destruct (state (w_fsm w)) eqn:E; try done; cbn [negb].
  all: try (destruct (ans_req a =? CONFACK); see; fail).
  all: simpl cb_reqci; cbv iota beta.
  all: destruct Hreq as [Hr|[Hr|Hr]]; rewrite Hr; cbn [Z.eqb CONFACK CONFNAK CONFREJ Pos.eqb].
  all: rewrite fsm_fsm_sdata; case_decide as Hd; autorewrite with fsm in Hd; simpl in Hd;
    try (rewrite E in Hd); try congruence; simpl rfc1661; see.
Qed.

Lemma see_rconfack inp len w :
  lok w -> link_is_up w -> seen_ack (w_fsm w) = false -> ans_ack a = true ->
  sees w (fsm_rconfack (probe_cb a) (reqid (w_fsm w)) inp len w) (rfc1661 RCA (state (w_fsm w))).
Proof.
  intros Hl Hup Hs Ha. unfold fsm_rconfack, link_is_up in *. rewrite Z.eqb_refl Hs. cbn [negb orb].
  simpl cb_ackci. cbv iota beta. rewrite Ha fsm_on_fsm. cbn [negb].
  change (state (set_seen_ack true (w_fsm w))) with (state (w_fsm w)).
  destruct (state (w_fsm w)) eqn:E; try done; simpl rfc1661; see.
Qed.

Lemma see_rconfnakrej code inp len w :
  lok w -> link_is_up w -> seen_ack (w_fsm w) = false ->
  0 < (if code =? CONFNAK then ans_nak a else ans_rej a) ->
  sees w (fsm_rconfnakrej (probe_cb a) code (reqid (w_fsm w)) inp len w)
    (rfc1661 RCN (state (w_fsm w))).
Proof.
  intros Hl Hup Hs Ha. unfold fsm_rconfnakrej, link_is_up in *. rewrite Z.eqb_refl Hs. cbn [negb orb].
  set (r := match (if code =? CONFNAK then _ else _) with Some _ => _ | None => _ end).
  assert (Hr : r = (if code =? CONFNAK then ans_nak a else ans_rej a, w)).
  { subst r. by destruct (code =? CONFNAK). }
  rewrite Hr. clear r Hr. set (ret := if code =? CONFNAK then _ else _) in *.
  rewrite (proj2 (Z.eqb_neq ret 0)); [lia|]. rewrite (proj2 (Z.ltb_ge ret 0)); [lia|].
  rewrite fsm_on_fsm. change (state (set_seen_ack true (w_fsm w))) with (state (w_fsm w)).
  destruct (state (w_fsm w)) eqn:E; try done; simpl rfc1661; see.
Qed.

Lemma see_unknown_code inpacket len w :
  lok w -> link_is_up w -> 0 <= len ->
  sees w (fsm_sdata CODEREJ (id (w_fsm (on_fsm next_id w))) (Data inpacket) (len + HEADERLEN)
            (on_fsm next_id w))
    (rfc1661 RUC (state (w_fsm w))).
Proof.
  intros Hl Hup Hlen. unfold link_is_up, HEADERLEN in *.
  destruct (state (w_fsm w)) eqn:E; try done; simpl rfc1661; see.
Qed.
End Refinement.

Lemma parse_header_lengths inpacket l code pid len inp :
  parse_header inpacket l = Some (code, pid, len, inp) ->
  0 <= len /\ len + HEADERLEN <= l /\ length inpacket = (length inp + 4)%nat.
Proof.
  unfold parse_header, HEADERLEN. destruct (l <? 4); [done|].
  destruct inpacket as [|c [|i p]]; try done. destruct p as [|b1 [|b2 p]]; try done. simpl.
  destruct (Z.ltb_spec (Z.lor (Z.shiftl b1 8) b2) 4); [done|].
  destruct (Z.ltb_spec l (Z.lor (Z.shiftl b1 8) b2)); [done|].
  intros [= <- <- <- <-]. simpl. lia.
Qed.

(** The transition the table prescribes for an event of the daemon. *)
Definition follows (r : option rfc_event) (w w' : probe) : Prop :=
  match r with
  | Some ev => deviates ev (state (w_fsm w)) = false -> sees w w' (rfc1661 ev (state (w_fsm w)))
  | None => w' = w
  end.

Section Table.
Context (a : answers) (Ha : answers_ok a).
Implicit Types w : probe.

Definition expected pid w : bool := (pid =? reqid (w_fsm w)) && negb (seen_ack (w_fsm w)).

Lemma expected_true pid w :
  expected pid w = true -> pid = reqid (w_fsm w) /\ seen_ack (w_fsm w) = false.
Proof.
  unfold expected. destruct (Z.eqb_spec pid (reqid (w_fsm w))); [|done]. by destruct (seen_ack _).
Qed.

Lemma unexpected_guard pid w :
  negb (pid =? reqid (w_fsm w)) || seen_ack (w_fsm w) = negb (expected pid w).
Proof. unfold expected. by rewrite negb_andb negb_involutive. Qed.

Lemma follows_rconfack pid inp len w :
  lok w -> link_is_up w ->
  follows (if expected pid w && ans_ack a then Some RCA else None) w
    (fsm_rconfack (probe_cb a) pid inp len w).
Proof.
  intros Hl Hup. destruct (expected pid w) eqn:Ee; simpl.
  - destruct (expected_true _ _ Ee) as [-> Hs]. destruct (ans_ack a) eqn:Ea.
    + intros _. by apply see_rconfack.
    + unfold follows, fsm_rconfack. rewrite unexpected_guard Ee. simpl. by rewrite Ea.
  - unfold follows, fsm_rconfack. by rewrite unexpected_guard Ee.
Qed.

Lemma follows_rconfnakrej code pid inp len w :
  lok w -> link_is_up w ->
  follows (if expected pid w && (0 <? (if code =? CONFNAK then ans_nak a else ans_rej a))
           then Some RCN else None) w
    (fsm_rconfnakrej (probe_cb a) code pid inp len w).
Proof.
  intros Hl Hup. destruct Ha as (_ & Hn & Hr). destruct (expected pid w) eqn:Ee; simpl.
  - destruct (expected_true _ _ Ee) as [-> Hs].
    destruct (Z.ltb_spec 0 (if code =? CONFNAK then ans_nak a else ans_rej a)) as [Hz|Hz].
    + intros _. by apply see_rconfnakrej.
    + unfold follows, fsm_rconfnakrej. rewrite unexpected_guard Ee.
      destruct (code =? CONFNAK); simpl; by rewrite (proj2 (Z.eqb_eq _ 0)); [lia|].
  - unfold follows, fsm_rconfnakrej. by rewrite unexpected_guard Ee.
Qed.

Lemma follows_dispatch inpacket l code pid len inp w :
  lok w -> link_is_up w -> l <= Z.of_nat (length inpacket) ->
  parse_header inpacket l = Some (code, pid, len, inp) ->
  follows (classify a (EvInput inpacket l) w) w
    (fsm_dispatch (probe_cb a) inpacket code pid len inp w).
Proof.
  intros Hl Hup Hin Hp. destruct (parse_header_lengths _ _ _ _ _ _ Hp) as (H0 & H1 & H2).
  unfold HEADERLEN in H1.
  unfold classify. rewrite Hp. change (p_fsm w) with (w_fsm w). fold (expected pid w).
  unfold fsm_dispatch.
  destruct (code =? CONFREQ); [intros _; by apply see_rconfreq|].
  destruct (code =? CONFACK); [by apply follows_rconfack|].
  pose proof (follows_rconfnakrej code pid inp len w Hl Hup) as Hnr.
  destruct (code =? CONFNAK); [done|]. destruct (code =? CONFREJ); [done|]. cbn [orb].
  destruct (code =? TERMREQ); [intros _; by apply see_rtermreq|].
  destruct (code =? TERMACK); [intros Hd; by apply see_rtermack|].
  destruct (code =? CODEREJ).
  - destruct (Z.ltb_spec len HEADERLEN).
    + unfold follows, fsm_rcoderej. by rewrite (proj2 (Z.ltb_lt _ _)).
    + intros _. apply see_rcoderej. lia.
  - intros _. by apply see_unknown_code.
Qed.

Definition from_packet (ev : rfc_event) : bool :=
  match ev with
  | RCR_plus | RCR_minus | RCA | RCN | RTR | RTA | RUC | RXJ_plus => true
  | _ => false
  end.

Lemma sees_dropped ev w :
  (state (w_fsm w) = INITIAL \/ state (w_fsm w) = STARTING) -> from_packet ev = true ->
  sees w w (rfc1661 ev (state (w_fsm w))).
Proof. intros [E|E] Hev; rewrite E; destruct ev; try done; by apply sees_refl. Qed.

Lemma follows_input inpacket l w :
  lok w -> l <= Z.of_nat (length inpacket) ->
  follows (classify a (EvInput inpacket l) w) w (fsm_input (probe_cb a) inpacket l w).
Proof.
  intros Hl Hin. unfold fsm_input.
  destruct (parse_header inpacket l) as [[[[code pid] len] inp]|] eqn:Hp;
    [|by unfold classify; rewrite Hp].
  assert (Hcase : (state (w_fsm w) = INITIAL \/ state (w_fsm w) = STARTING) \/ link_is_up w).
  { unfold link_is_up. destruct (state (w_fsm w)); tauto. }
  destruct Hcase as [Hdown|Hup].
  - assert (E : follows (classify a (EvInput inpacket l) w) w w).
    { unfold follows, classify. rewrite Hp.
      case_tests; try done; simplify_eq; intros _; by apply sees_dropped. }
    by destruct Hdown as [-> | ->].
  - pose proof (follows_dispatch inpacket l code pid len inp w Hl Hup Hin Hp) as Hd.
    unfold link_is_up in Hup. by destruct (state (w_fsm w)).
Qed.

(** C23: the code takes the transitions of RFC 1661.  For every event of the
    daemon and every state of the automaton, the next state, the calls to the
    layer and the packets sent are those of the standard's table, in its order;
    packets the standard discards change nothing.  The two cells of [deviates]
    are the only exceptions. *)
Theorem fsm_follows_rfc1661 e w :
  lok w -> flags (w_fsm w) = 0 -> 0 <= term_reason_len (w_fsm w) -> event_ok e ->
  follows (classify a e w) w (handle (probe_cb a) e w).
Proof.
  intros Hl Hf Ht He. destruct e; simpl in He; unfold handle.
  - intros _. by apply see_lowerup.
  - intros _. by apply see_lowerdown.
  - intros _. by apply see_open.
  - intros Hd. by apply see_close.
  - intros _. by apply see_timeout.
  - by apply follows_input.
  - intros _. by apply see_protreject.
Qed.
End Table.

(** ** The theorems at concrete automata *)

Definition fresh_fsm : fsm := fsm_init (Fsm 0 49185 INITIAL 0 0 0 false 0 0 0 0 0 0 [] 0).

Definition fresh_link : link :=
  Link PPP_MRU (replicate OUTPACKET_SIZE 0) [] false [] (Timeval 0 0).

Definition fresh : probe := Probe fresh_fsm fresh_link [].

Definition agreeable : answers := Answers CONFACK true 1 1.

(** Packets of the peer: code, id, length, data. *)
Definition packet (code pid : Z) (data : bytes) : bytes :=
  PUTCHAR code ++ PUTCHAR pid ++ PUTSHORT (Z.of_nat (length data) + 4) ++ data.

Definition run (es : list fsm_event) : probe :=
  fold_left (fun w e => handle (probe_cb agreeable) e w) es fresh.

(** Negotiation up to the open state: our first request has id 101. *)
Definition to_opened : list fsm_event :=
  [EvOpen; EvLowerup; EvInput (packet CONFREQ 7 []) 4; EvInput (packet CONFACK 101 []) 4].

(** Every event of the run happens in a state that allows it. *)
Fixpoint run_enabled (w : probe) (es : list fsm_event) : Prop :=
  match es with
  | [] => True
  | e :: es' => enabled e w /\ run_enabled (handle (probe_cb agreeable) e w) es'
  end.

Lemma run_reachable es : run_enabled fresh es -> fsm_reachable (probe_cb agreeable) (run es).
Proof.
  unfold run. assert (H0 : fsm_reachable (probe_cb agreeable) fresh).
  { eapply run_init; [reflexivity|done]. }
  revert H0. generalize fresh. induction es as [|e es IH]; intros w Hw; simpl; [done|].
  intros [He Hes]. apply IH; [by apply run_event|done].
Qed.

Lemma not_opened_not_stray inpacket l (w : probe) :
  state (w_fsm w) <> OPENED -> ~ stray_termack inpacket l w.
Proof. by intros ? [? _]. Qed.

Ltac run_ok :=
  apply run_reachable; repeat split; simpl enabled; try (apply not_opened_not_stray; vm_compute; discriminate);
  try (vm_compute; discriminate).

Lemma opened_reachable : fsm_reachable (probe_cb agreeable) (run to_opened).
Proof. run_ok. Qed.

Lemma request_reachable : fsm_reachable (probe_cb agreeable) (run [EvOpen; EvLowerup]).
Proof. run_ok. Qed.

(** Terminate-Acks that reach the open automaton, one after the other. *)
Definition strays (n : nat) : probe :=
  Nat.iter n (fsm_input (probe_cb agreeable) (packet TERMACK 3 []) 4) (run to_opened).

Lemma strays_run : fsm_runs (probe_cb agreeable) 2 (strays 2).
Proof.
  do 2 (apply run_stray; [|by split; [vm_compute; reflexivity|eexists 3, 0, []; reflexivity]]).
  exact opened_reachable.
Qed.

Lemma fsm_timer_runs_while_waiting_witness :
  (state (w_fsm (run [EvOpen; EvLowerup])) = REQSENT /\ pend (run [EvOpen; EvLowerup]) = 1%nat) /\
  state (w_fsm (strays 2)) = OPENED /\ pend (strays 2) = 2%nat /\ (pend (strays 2) <= 2)%nat.
Proof.
  split; [|split_and!].
  - split; [reflexivity|].
    destruct (fsm_timer_runs_while_waiting (probe_cb agreeable) 0 _ request_reachable) as [H _].
    destruct (H eq_refl) as [H1 H2]. by apply Nat.le_antisymm.
  - vm_compute. reflexivity.
  - vm_compute. reflexivity.
  - apply (fsm_timer_runs_while_waiting (probe_cb agreeable) 2 _ strays_run). vm_compute. reflexivity.
Defined.

Lemma fsm_reply_used_once_witness :
  fsm_input (probe_cb agreeable) (packet CONFNAK 101 []) 4 (run to_opened) = run to_opened.
Proof.
  apply (fsm_reply_used_once (probe_cb agreeable) _ CONFNAK 101 0 [] _ _ opened_reachable);
    [right; reflexivity|reflexivity|right; left; reflexivity].
Defined.

Lemma fsm_silence_ends_witness :
  state (w_fsm (expire (probe_cb agreeable) 10 (run [EvOpen; EvLowerup]))) = STOPPED /\
  pend (expire (probe_cb agreeable) 10 (run [EvOpen; EvLowerup])) = 0%nat.
Proof.
  split; [vm_compute; reflexivity|].
  apply Nat.le_0_r.
  apply (fsm_silence_ends (probe_cb agreeable) 0 _ 10 request_reachable); vm_compute; reflexivity.
Defined.

Lemma fsm_stray_termack_stays_open_witness :
  let w := fsm_input (probe_cb agreeable) (packet TERMACK 3 []) 4 (run to_opened) in
  state (w_fsm w) = OPENED /\ p_log w = [tls; tlu; tld] /\ pend (fire (probe_cb agreeable) w) = 0%nat.
Proof.
  destruct (fsm_stray_termack_stays_open (probe_cb agreeable) _ (packet TERMACK 3 []) 4 opened_reachable)
    as (_ & H1 & _ & _ & _ & _ & H2).
  { split; [reflexivity|]. eexists 3, 0, []. reflexivity. }
  split; [exact H1|]. split; [vm_compute; reflexivity|exact H2].
Defined.

Lemma fsm_packet_roundtrip_witness :
  exists pkt, sent (send_data 49185 CONFREQ 1 (Data [1; 4; 5; 220]) 4 fresh_link) = [pkt] /\
    parse_header (drop 4 pkt) 8 = Some (CONFREQ, 1, 4, [1; 4; 5; 220]).
Proof.
  destruct (fsm_packet_roundtrip 49185 CONFREQ 1 [1; 4; 5; 220] 4 fresh_link) as (pkt & H1 & _ & _ & _ & H2);
    [reflexivity|vm_compute; split; discriminate|vm_compute; split; discriminate|
     vm_compute; split; [discriminate|reflexivity]..|].
  exists pkt. split; [exact H1|exact H2].
Defined.

Lemma fsm_sdata_in_bounds_witness :
  lk_oob (send_data 49185 TERMACK 1 (Data []) 0 fresh_link) = false.
Proof.
  apply (fsm_sdata_in_bounds 49185 TERMACK 1 [] 0 fresh_link);
    [reflexivity|reflexivity|vm_compute; split; discriminate|vm_compute; discriminate|vm_compute; discriminate].
Defined.

(** The open automaton after the peer has negotiated an MRU of 2000. *)
Definition opened_2000 : probe :=
  on_link (set_peer_mru 2000) (run to_opened).

Lemma fsm_code_reject_overflows_witness :
  lk_oob (w_link (fsm_input (probe_cb agreeable) (packet 99 5 (replicate 1496 0)) 1500 opened_2000)) = true.
Proof.
  apply (fsm_code_reject_overflows (probe_cb agreeable) opened_2000 _ 99 5 1496 (replicate 1496 0));
    [vm_compute; reflexivity|vm_compute; discriminate|vm_compute; exact I|reflexivity..|].
  split; [vm_compute; intros [_ H]; apply H; reflexivity|exact I].
Defined.

Lemma fsm_follows_rfc1661_witness :
  let w := run [EvOpen; EvLowerup] in
  classify agreeable (EvInput (packet CONFREQ 7 []) 4) w = Some RCR_plus /\
  sees w (handle (probe_cb agreeable) (EvInput (packet CONFREQ 7 []) 4) w) ([], [sca], ACKSENT).
Proof.
  split; [reflexivity|].
  apply (fsm_follows_rfc1661 agreeable
           ltac:(split; [left; reflexivity|split; discriminate])
           (EvInput (packet CONFREQ 7 []) 4) (run [EvOpen; EvLowerup]));
    [split; [vm_compute; reflexivity|vm_compute; split; discriminate]|reflexivity|
     vm_compute; discriminate|vm_compute; discriminate|reflexivity].
Defined.
