(* ===== verification/LcpOptions.v ===== *)
(** * LCP options: requests and the answers to them

    The Link Control Protocol's configuration options ([lcp.c], [lcp.h]): the
    request the daemon sends ([lcp_cilen], [lcp_addci]) and what it makes of
    the peer's Ack, Nak and Reject ([lcp_ackci], [lcp_nakci], [lcp_rejci]).
    The macros of the C file are definitions of the same names.  A parser runs
    on a cursor, the rest of the packet buffer and the number of bytes the
    packet has left; it is done, finds the packet bad, or reads behind the
    buffer. *)

From S2P Require Import Prelude Wire.

(** ** Constants *)

Definition CI_MRU := 1.
Definition CI_ASYNCMAP := 2.
Definition CI_AUTHTYPE := 3.
Definition CI_QUALITY := 4.
Definition CI_MAGICNUMBER := 5.
Definition CI_PCOMPRESSION := 7.
Definition CI_ACCOMPRESSION := 8.
Definition CI_CALLBACK := 13.
Definition CBCP_OPT := 6.

Definition CILEN_VOID := 2.
Definition CILEN_CHAR := 3.
Definition CILEN_SHORT := 4.
Definition CILEN_CHAP := 5.
Definition CILEN_LONG := 6.
Definition CILEN_LQR := 8.
Definition CILEN_CBCP := 3.

Definition DEFMRU := 1500.
Definition MINMRU := 128.
Definition MAXMRU := 16384.
Definition CHAP_DIGEST_MD5 := 5.
Definition ALLONES := 4294967295.

(** ** Options *)

Record lcp_options := LcpOptions {
  passive : bool;
  silent : bool;
  restart : bool;
  neg_mru : bool;
  neg_asyncmap : bool;
  neg_upap : bool;
  neg_chap : bool;
  neg_magicnumber : bool;
  neg_pcompression : bool;
  neg_accompression : bool;
  neg_lqr : bool;
  neg_cbcp : bool;
  mru : Z;
  chap_mdtype : Z;
  asyncmap : Z;
  magicnumber : Z;
  numloops : Z;
  lqr_period : Z
}.

Definition set_neg_mru v (o : lcp_options) : lcp_options :=
  LcpOptions (passive o) (silent o) (restart o) v (neg_asyncmap o) (neg_upap o) (neg_chap o)
    (neg_magicnumber o) (neg_pcompression o) (neg_accompression o) (neg_lqr o) (neg_cbcp o)
    (mru o) (chap_mdtype o) (asyncmap o) (magicnumber o) (numloops o) (lqr_period o).
Definition set_neg_asyncmap v (o : lcp_options) : lcp_options :=
  LcpOptions (passive o) (silent o) (restart o) (neg_mru o) v (neg_upap o) (neg_chap o)
    (neg_magicnumber o) (neg_pcompression o) (neg_accompression o) (neg_lqr o) (neg_cbcp o)
    (mru o) (chap_mdtype o) (asyncmap o) (magicnumber o) (numloops o) (lqr_period o).
Definition set_neg_upap v (o : lcp_options) : lcp_options :=
  LcpOptions (passive o) (silent o) (restart o) (neg_mru o) (neg_asyncmap o) v (neg_chap o)
    (neg_magicnumber o) (neg_pcompression o) (neg_accompression o) (neg_lqr o) (neg_cbcp o)
    (mru o) (chap_mdtype o) (asyncmap o) (magicnumber o) (numloops o) (lqr_period o).
Definition set_neg_chap v (o : lcp_options) : lcp_options :=
  LcpOptions (passive o) (silent o) (restart o) (neg_mru o) (neg_asyncmap o) (neg_upap o) v
    (neg_magicnumber o) (neg_pcompression o) (neg_accompression o) (neg_lqr o) (neg_cbcp o)
    (mru o) (chap_mdtype o) (asyncmap o) (magicnumber o) (numloops o) (lqr_period o).
Definition set_neg_magicnumber v (o : lcp_options) : lcp_options :=
  LcpOptions (passive o) (silent o) (restart o) (neg_mru o) (neg_asyncmap o) (neg_upap o)
    (neg_chap o) v (neg_pcompression o) (neg_accompression o) (neg_lqr o) (neg_cbcp o) (mru o)
    (chap_mdtype o) (asyncmap o) (magicnumber o) (numloops o) (lqr_period o).
Definition set_neg_pcompression v (o : lcp_options) : lcp_options :=
  LcpOptions (passive o) (silent o) (restart o) (neg_mru o) (neg_asyncmap o) (neg_upap o)
    (neg_chap o) (neg_magicnumber o) v (neg_accompression o) (neg_lqr o) (neg_cbcp o) (mru o)
    (chap_mdtype o) (asyncmap o) (magicnumber o) (numloops o) (lqr_period o).
Definition set_neg_accompression v (o : lcp_options) : lcp_options :=
  LcpOptions (passive o) (silent o) (restart o) (neg_mru o) (neg_asyncmap o) (neg_upap o)
    (neg_chap o) (neg_magicnumber o) (neg_pcompression o) v (neg_lqr o) (neg_cbcp o) (mru o)
    (chap_mdtype o) (asyncmap o) (magicnumber o) (numloops o) (lqr_period o).
Definition set_neg_lqr v (o : lcp_options) : lcp_options :=
  LcpOptions (passive o) (silent o) (restart o) (neg_mru o) (neg_asyncmap o) (neg_upap o)
    (neg_chap o) (neg_magicnumber o) (neg_pcompression o) (neg_accompression o) v (neg_cbcp o)
    (mru o) (chap_mdtype o) (asyncmap o) (magicnumber o) (numloops o) (lqr_period o).
Definition set_neg_cbcp v (o : lcp_options) : lcp_options :=
  LcpOptions (passive o) (silent o) (restart o) (neg_mru o) (neg_asyncmap o) (neg_upap o)
    (neg_chap o) (neg_magicnumber o) (neg_pcompression o) (neg_accompression o) (neg_lqr o) v
    (mru o) (chap_mdtype o) (asyncmap o) (magicnumber o) (numloops o) (lqr_period o).
Definition set_mru v (o : lcp_options) : lcp_options :=
  LcpOptions (passive o) (silent o) (restart o) (neg_mru o) (neg_asyncmap o) (neg_upap o)
    (neg_chap o) (neg_magicnumber o) (neg_pcompression o) (neg_accompression o) (neg_lqr o)
    (neg_cbcp o) v (chap_mdtype o) (asyncmap o) (magicnumber o) (numloops o) (lqr_period o).
Definition set_chap_mdtype v (o : lcp_options) : lcp_options :=
  LcpOptions (passive o) (silent o) (restart o) (neg_mru o) (neg_asyncmap o) (neg_upap o)
    (neg_chap o) (neg_magicnumber o) (neg_pcompression o) (neg_accompression o) (neg_lqr o)
    (neg_cbcp o) (mru o) v (asyncmap o) (magicnumber o) (numloops o) (lqr_period o).
Definition set_asyncmap v (o : lcp_options) : lcp_options :=
  LcpOptions (passive o) (silent o) (restart o) (neg_mru o) (neg_asyncmap o) (neg_upap o)
    (neg_chap o) (neg_magicnumber o) (neg_pcompression o) (neg_accompression o) (neg_lqr o)
    (neg_cbcp o) (mru o) (chap_mdtype o) v (magicnumber o) (numloops o) (lqr_period o).
Definition set_magicnumber v (o : lcp_options) : lcp_options :=
  LcpOptions (passive o) (silent o) (restart o) (neg_mru o) (neg_asyncmap o) (neg_upap o)
    (neg_chap o) (neg_magicnumber o) (neg_pcompression o) (neg_accompression o) (neg_lqr o)
    (neg_cbcp o) (mru o) (chap_mdtype o) (asyncmap o) v (numloops o) (lqr_period o).
Definition set_numloops v (o : lcp_options) : lcp_options :=
  LcpOptions (passive o) (silent o) (restart o) (neg_mru o) (neg_asyncmap o) (neg_upap o)
    (neg_chap o) (neg_magicnumber o) (neg_pcompression o) (neg_accompression o) (neg_lqr o)
    (neg_cbcp o) (mru o) (chap_mdtype o) (asyncmap o) (magicnumber o) v (lqr_period o).
Definition set_lqr_period v (o : lcp_options) : lcp_options :=
  LcpOptions (passive o) (silent o) (restart o) (neg_mru o) (neg_asyncmap o) (neg_upap o)
    (neg_chap o) (neg_magicnumber o) (neg_pcompression o) (neg_accompression o) (neg_lqr o)
    (neg_cbcp o) (mru o) (chap_mdtype o) (asyncmap o) (magicnumber o) (numloops o) v.

(** [BZERO] of an option record. *)
Definition no_options : lcp_options :=
  LcpOptions false false false false false false false false false false false false 0 0 0 0 0 0.

(** ** Parsers *)

Inductive parse (A : Type) := Good (a : A) | Bad | Oob.
Arguments Good {A} a.
Arguments Bad {A}.
Arguments Oob {A}.

#[export] Instance parse_ret : MRet parse := @Good.
#[export] Instance parse_bind : MBind parse := fun A B k m =>
  match m with Good a => k a | Bad => Bad | Oob => Oob end.

(** A read of the buffer. *)
Definition get {A} (r : option A) : parse A :=
  match r with Some a => Good a | None => Oob end.

(** [if (!ok) goto bad;] *)
Definition unless_bad {A} (ok : bool) (k : parse A) : parse A := if ok then k else Bad.

Record cursor := Cursor { cu_p : bytes; cu_len : Z }.

(** ** The request *)

Definition LENCI (neg : bool) (n : Z) : Z := if neg then n else 0.

(** The options a request contains. *)
Definition asks_mru (go : lcp_options) : bool := neg_mru go && negb (mru go =? DEFMRU).
Definition asks_asyncmap (go : lcp_options) : bool := neg_asyncmap go && negb (asyncmap go =? ALLONES).
Definition asks_upap (go : lcp_options) : bool := negb (neg_chap go) && neg_upap go.

Definition lcp_cilen (go : lcp_options) : Z :=
  LENCI (asks_mru go) CILEN_SHORT + LENCI (asks_asyncmap go) CILEN_LONG
  + LENCI (neg_chap go) CILEN_CHAP + LENCI (asks_upap go) CILEN_SHORT
  + LENCI (neg_lqr go) CILEN_LQR + LENCI (neg_cbcp go) CILEN_CBCP
  + LENCI (neg_magicnumber go) CILEN_LONG + LENCI (neg_pcompression go) CILEN_VOID
  + LENCI (neg_accompression go) CILEN_VOID.

Definition ADDCIVOID (opt : Z) (neg : bool) : bytes :=
  if neg then PUTCHAR opt ++ PUTCHAR CILEN_VOID else [].
Definition ADDCISHORT (opt : Z) (neg : bool) (val : Z) : bytes :=
  if neg then PUTCHAR opt ++ PUTCHAR CILEN_SHORT ++ PUTSHORT val else [].
Definition ADDCICHAP (opt : Z) (neg : bool) (val digest : Z) : bytes :=
  if neg then PUTCHAR opt ++ PUTCHAR CILEN_CHAP ++ PUTSHORT val ++ PUTCHAR digest else [].
Definition ADDCILONG (opt : Z) (neg : bool) (val : Z) : bytes :=
  if neg then PUTCHAR opt ++ PUTCHAR CILEN_LONG ++ PUTLONG val else [].
Definition ADDCILQR (opt : Z) (neg : bool) (val : Z) : bytes :=
  if neg then PUTCHAR opt ++ PUTCHAR CILEN_LQR ++ PUTSHORT PPP_LQR ++ PUTLONG val else [].
Definition ADDCICHAR (opt : Z) (neg : bool) (val : Z) : bytes :=
  if neg then PUTCHAR opt ++ PUTCHAR CILEN_CHAR ++ PUTCHAR val else [].

(** The bytes written at [ucp]; the length check behind them only reports. *)
Definition lcp_addci (go : lcp_options) : bytes :=
  ADDCISHORT CI_MRU (asks_mru go) (mru go)
  ++ ADDCILONG CI_ASYNCMAP (asks_asyncmap go) (asyncmap go)
  ++ ADDCICHAP CI_AUTHTYPE (neg_chap go) PPP_CHAP (chap_mdtype go)
  ++ ADDCISHORT CI_AUTHTYPE (asks_upap go) PPP_PAP
  ++ ADDCILQR CI_QUALITY (neg_lqr go) (lqr_period go)
  ++ ADDCICHAR CI_CALLBACK (neg_cbcp go) CBCP_OPT
  ++ ADDCILONG CI_MAGICNUMBER (neg_magicnumber go) (magicnumber go)
  ++ ADDCIVOID CI_PCOMPRESSION (neg_pcompression go)
  ++ ADDCIVOID CI_ACCOMPRESSION (neg_accompression go).

(** ** Configure-Ack *)

(** The common head of the [ACKCI] macros: take [n] bytes of the packet and
    check the option's type and length. *)
Definition ack_head (opt n : Z) (c : cursor) : parse cursor :=
  let len := cu_len c - n in
  unless_bad (negb (len <? 0)) (
  '(citype, p) ← get (GETCHAR (cu_p c));
  '(cilen, p) ← get (GETCHAR p);
  unless_bad ((cilen =? n) && (citype =? opt)) (Good (Cursor p len))).

Definition ACKCIVOID (opt : Z) (neg : bool) (c : cursor) : parse cursor :=
  if neg then ack_head opt CILEN_VOID c else Good c.

Definition ACKCISHORT (opt : Z) (neg : bool) (val : Z) (c : cursor) : parse cursor :=
  if neg then
    c ← ack_head opt CILEN_SHORT c;
    '(cishort, p) ← get (GETSHORT (cu_p c));
    unless_bad (cishort =? val) (Good (Cursor p (cu_len c)))
  else Good c.

Definition ACKCICHAR (opt : Z) (neg : bool) (val : Z) (c : cursor) : parse cursor :=
  if neg then
    c ← ack_head opt CILEN_CHAR c;
    '(cichar, p) ← get (GETCHAR (cu_p c));
    unless_bad (cichar =? val) (Good (Cursor p (cu_len c)))
  else Good c.

Definition ACKCICHAP (opt : Z) (neg : bool) (val digest : Z) (c : cursor) : parse cursor :=
  if neg then
    c ← ack_head opt CILEN_CHAP c;
    '(cishort, p) ← get (GETSHORT (cu_p c));
    unless_bad (cishort =? val) (
    '(cichar, p) ← get (GETCHAR p);
    unless_bad (cichar =? digest) (Good (Cursor p (cu_len c))))
  else Good c.

Definition ACKCILONG (opt : Z) (neg : bool) (val : Z) (c : cursor) : parse cursor :=
  if neg then
    c ← ack_head opt CILEN_LONG c;
    '(cilong, p) ← get (GETLONG (cu_p c));
    unless_bad (cilong =? val) (Good (Cursor p (cu_len c)))
  else Good c.

Definition ACKCILQR (opt : Z) (neg : bool) (val : Z) (c : cursor) : parse cursor :=
  if neg then
    c ← ack_head opt CILEN_LQR c;
    '(cishort, p) ← get (GETSHORT (cu_p c));
    unless_bad (cishort =? PPP_LQR) (
    '(cilong, p) ← get (GETLONG p);
    unless_bad (cilong =? val) (Good (Cursor p (cu_len c))))
  else Good c.

(** The options of our request, in the order we sent them. *)
Definition ack_options (go : lcp_options) (c : cursor) : parse cursor :=
  c ← ACKCISHORT CI_MRU (asks_mru go) (mru go) c;
  c ← ACKCILONG CI_ASYNCMAP (asks_asyncmap go) (asyncmap go) c;
  c ← ACKCICHAP CI_AUTHTYPE (neg_chap go) PPP_CHAP (chap_mdtype go) c;
  c ← ACKCISHORT CI_AUTHTYPE (asks_upap go) PPP_PAP c;
  c ← ACKCILQR CI_QUALITY (neg_lqr go) (lqr_period go) c;
  c ← ACKCICHAR CI_CALLBACK (neg_cbcp go) CBCP_OPT c;
  c ← ACKCILONG CI_MAGICNUMBER (neg_magicnumber go) (magicnumber go) c;
  c ← ACKCIVOID CI_PCOMPRESSION (neg_pcompression go) c;
  ACKCIVOID CI_ACCOMPRESSION (neg_accompression go) c.

(** [Good tt] is the return value 1, [Bad] is 0. *)
Definition lcp_ackci (go : lcp_options) (p : bytes) (len : Z) : parse () :=
  c ← ack_options go (Cursor p len);
  unless_bad (cu_len c =? 0) (Good tt).

(** ** Configure-Reject *)

(** [len >= n && p[1] == n && p[0] == opt], evaluated left to right. *)
Definition starts (opt n : Z) (c : cursor) : parse bool :=
  if cu_len c <? n then Good false
  else match cu_p c with
       | p0 :: p1 :: _ => Good ((p1 =? n) && (p0 =? opt))
       | _ => Oob
       end.

(** [len -= n; INCPTR(2, p);] *)
Definition take_head (n : Z) (c : cursor) : cursor := Cursor (drop 2 (cu_p c)) (cu_len c - n).

Definition REJCIVOID (opt : Z) (neg : bool) (clear : lcp_options -> lcp_options)
    (st : cursor * lcp_options) : parse (cursor * lcp_options) :=
  let '(c, try) := st in
  if neg then
    m ← starts opt CILEN_VOID c;
    if (m : bool) then Good (take_head CILEN_VOID c, clear try) else Good st
  else Good st.

Definition REJCISHORT (opt : Z) (neg : bool) (val : Z) (clear : lcp_options -> lcp_options)
    (st : cursor * lcp_options) : parse (cursor * lcp_options) :=
  let '(c, try) := st in
  if neg then
    m ← starts opt CILEN_SHORT c;
    if (m : bool) then
      let c := take_head CILEN_SHORT c in
      '(cishort, p) ← get (GETSHORT (cu_p c));
      unless_bad (cishort =? val) (Good (Cursor p (cu_len c), clear try))
    else Good st
  else Good st.

Definition REJCICHAP (opt : Z) (neg : bool) (val digest : Z) (clear : lcp_options -> lcp_options)
    (st : cursor * lcp_options) : parse (cursor * lcp_options) :=
  let '(c, try) := st in
  if neg then
    m ← starts opt CILEN_CHAP c;
    if (m : bool) then
      let c := take_head CILEN_CHAP c in
      '(cishort, p) ← get (GETSHORT (cu_p c));
      '(cichar, p) ← get (GETCHAR p);
      unless_bad ((cishort =? val) && (cichar =? digest))
        (Good (Cursor p (cu_len c), set_neg_upap false (clear try)))
    else Good st
  else Good st.

Definition REJCILONG (opt : Z) (neg : bool) (val : Z) (clear : lcp_options -> lcp_options)
    (st : cursor * lcp_options) : parse (cursor * lcp_options) :=
  let '(c, try) := st in
  if neg then
    m ← starts opt CILEN_LONG c;
    if (m : bool) then
      let c := take_head CILEN_LONG c in
      '(cilong, p) ← get (GETLONG (cu_p c));
      unless_bad (cilong =? val) (Good (Cursor p (cu_len c), clear try))
    else Good st
  else Good st.

Definition REJCILQR (opt : Z) (neg : bool) (val : Z) (clear : lcp_options -> lcp_options)
    (st : cursor * lcp_options) : parse (cursor * lcp_options) :=
  let '(c, try) := st in
  if neg then
    m ← starts opt CILEN_LQR c;
    if (m : bool) then
      let c := take_head CILEN_LQR c in
      '(cishort, p) ← get (GETSHORT (cu_p c));
      '(cilong, p) ← get (GETLONG p);
      unless_bad ((cishort =? PPP_LQR) && (cilong =? val))
        (Good (Cursor p (cu_len c), clear try))
    else Good st
  else Good st.

Definition REJCICBCP (opt : Z) (neg : bool) (val : Z) (clear : lcp_options -> lcp_options)
    (st : cursor * lcp_options) : parse (cursor * lcp_options) :=
  let '(c, try) := st in
  if neg then
    m ← starts opt CILEN_CBCP c;
    if (m : bool) then
      let c := take_head CILEN_CBCP c in
      '(cichar, p) ← get (GETCHAR (cu_p c));
      unless_bad (cichar =? val) (Good (Cursor p (cu_len c), clear try))
    else Good st
  else Good st.

(** The options to ask for after a good Reject. *)
Definition lcp_rejci (go : lcp_options) (p : bytes) (len : Z) : parse lcp_options :=
  st ← REJCISHORT CI_MRU (neg_mru go) (mru go) (set_neg_mru false) (Cursor p len, go);
  st ← REJCILONG CI_ASYNCMAP (neg_asyncmap go) (asyncmap go) (set_neg_asyncmap false) st;
  st ← REJCICHAP CI_AUTHTYPE (neg_chap go) PPP_CHAP (chap_mdtype go) (set_neg_chap false) st;
  st ← (if negb (neg_chap go)
        then REJCISHORT CI_AUTHTYPE (neg_upap go) PPP_PAP (set_neg_upap false) st else Good st);
  st ← REJCILQR CI_QUALITY (neg_lqr go) (lqr_period go) (set_neg_lqr false) st;
  st ← REJCICBCP CI_CALLBACK (neg_cbcp go) CBCP_OPT (set_neg_cbcp false) st;
  st ← REJCILONG CI_MAGICNUMBER (neg_magicnumber go) (magicnumber go) (set_neg_magicnumber false) st;
  st ← REJCIVOID CI_PCOMPRESSION (neg_pcompression go) (set_neg_pcompression false) st;
  st ← REJCIVOID CI_ACCOMPRESSION (neg_accompression go) (set_neg_accompression false) st;
  unless_bad (cu_len st.1 =? 0) (Good st.2).

(** ** Configure-Nak *)

(** The locals of [lcp_nakci]; [ns_seed] counts the calls of [magic()]. *)
Record nak_state := NakState {
  ns_c : cursor;
  ns_no : lcp_options;
  ns_try : lcp_options;
  ns_looped : bool;
  ns_seed : nat
}.

Definition ns_advance (c : cursor) (mark : lcp_options -> lcp_options) (s : nak_state) : nak_state :=
  NakState c (mark (ns_no s)) (ns_try s) (ns_looped s) (ns_seed s).
Definition on_try (g : lcp_options -> lcp_options) (s : nak_state) : nak_state :=
  NakState (ns_c s) (ns_no s) (g (ns_try s)) (ns_looped s) (ns_seed s).

Definition NAKCIVOID (opt : Z) (neg : bool) (mark : lcp_options -> lcp_options)
    (code : nak_state -> nak_state) (s : nak_state) : parse nak_state :=
  if neg then
    m ← starts opt CILEN_VOID (ns_c s);
    if (m : bool) then Good (code (ns_advance (take_head CILEN_VOID (ns_c s)) mark s)) else Good s
  else Good s.

Definition NAKCICHAR (opt : Z) (neg : bool) (mark : lcp_options -> lcp_options)
    (code : Z -> nak_state -> nak_state) (s : nak_state) : parse nak_state :=
  if neg then
    m ← starts opt CILEN_CHAR (ns_c s);
    if (m : bool) then
      let c := take_head CILEN_CHAR (ns_c s) in
      '(cichar, p) ← get (GETCHAR (cu_p c));
      Good (code cichar (ns_advance (Cursor p (cu_len c)) mark s))
    else Good s
  else Good s.

Definition NAKCISHORT (opt : Z) (neg : bool) (mark : lcp_options -> lcp_options)
    (code : Z -> nak_state -> nak_state) (s : nak_state) : parse nak_state :=
  if neg then
    m ← starts opt CILEN_SHORT (ns_c s);
    if (m : bool) then
      let c := take_head CILEN_SHORT (ns_c s) in
      '(cishort, p) ← get (GETSHORT (cu_p c));
      Good (code cishort (ns_advance (Cursor p (cu_len c)) mark s))
    else Good s
  else Good s.

Definition NAKCILONG (opt : Z) (neg : bool) (mark : lcp_options -> lcp_options)
    (code : Z -> nak_state -> nak_state) (s : nak_state) : parse nak_state :=
  if neg then
    m ← starts opt CILEN_LONG (ns_c s);
    if (m : bool) then
      let c := take_head CILEN_LONG (ns_c s) in
      '(cilong, p) ← get (GETLONG (cu_p c));
      Good (code cilong (ns_advance (Cursor p (cu_len c)) mark s))
    else Good s
  else Good s.

Definition NAKCILQR (opt : Z) (neg : bool) (mark : lcp_options -> lcp_options)
    (code : Z -> Z -> nak_state -> nak_state) (s : nak_state) : parse nak_state :=
  if neg then
    m ← starts opt CILEN_LQR (ns_c s);
    if (m : bool) then
      let c := take_head CILEN_LQR (ns_c s) in
      '(cishort, p) ← get (GETSHORT (cu_p c));
      '(cilong, p) ← get (GETLONG p);
      Good (code cishort cilong (ns_advance (Cursor p (cu_len c)) mark s))
    else Good s
  else Good s.

(** The condition of the authentication-type branch. *)
Definition starts_auth (c : cursor) : parse bool :=
  if cu_len c <? CILEN_SHORT then Good false
  else match cu_p c with
       | p0 :: p1 :: _ =>
           Good ((p0 =? CI_AUTHTYPE) && (CILEN_SHORT <=? p1) && (p1 <=? cu_len c))
       | _ => Oob
       end.

Definition nak_authtype (go : lcp_options) (s : nak_state) : parse nak_state :=
  if neg_chap go || neg_upap go then
    m ← starts_auth (ns_c s);
    if (m : bool) then
      '(cilen, _) ← get (GETCHAR (drop 1 (cu_p (ns_c s))));
      let len := cu_len (ns_c s) - cilen in
      let mark no := set_neg_upap (neg_upap go) (set_neg_chap (neg_chap go) no) in
      '(cishort, p) ← get (GETSHORT (drop 2 (cu_p (ns_c s))));
      if (cishort =? PPP_PAP) && (cilen =? CILEN_SHORT) then
        unless_bad (neg_chap go)
          (Good (on_try (set_neg_chap false) (ns_advance (Cursor p len) mark s)))
      else if (cishort =? PPP_CHAP) && (cilen =? CILEN_CHAP) then
        '(cichar, p) ← get (GETCHAR p);
        let s := ns_advance (Cursor p len) mark s in
        Good (if neg_chap go
              then (if cichar =? chap_mdtype go then s else on_try (set_neg_chap false) s)
              else on_try (set_neg_upap false) s)
      else
        let s := ns_advance (Cursor (drop (Z.to_nat (cilen - CILEN_SHORT)) p) len) mark s in
        Good (on_try (if neg_chap go then set_neg_chap false else set_neg_upap false) s)
    else Good s
  else Good s.

(** One pass of the loop over the options we did not ask for. *)
Definition nak_extra (go : lcp_options) (s : nak_state) : parse nak_state :=
  '(citype, p) ← get (GETCHAR (cu_p (ns_c s)));
  '(cilen, p) ← get (GETCHAR p);
  unless_bad (negb (cilen <? CILEN_VOID)) (
  let len := cu_len (ns_c s) - cilen in
  unless_bad (negb (len <? 0)) (
  let next := drop (Z.to_nat (cilen - 2)) p in
  let no := ns_no s in
  let s' := NakState (Cursor next len) no (ns_try s) (ns_looped s) (ns_seed s) in
  if citype =? CI_MRU then
    unless_bad (negb (asks_mru go || neg_mru no || negb (cilen =? CILEN_SHORT))) (
    '(cishort, _) ← get (GETSHORT p);
    Good (if cishort <? DEFMRU then on_try (set_mru cishort) s' else s'))
  else if citype =? CI_ASYNCMAP then
    unless_bad (negb (asks_asyncmap go || neg_asyncmap no || negb (cilen =? CILEN_LONG))) (Good s')
  else if citype =? CI_AUTHTYPE then
    unless_bad (negb (neg_chap go || neg_chap no || neg_upap go || neg_upap no)) (Good s')
  else if citype =? CI_MAGICNUMBER then
    unless_bad (negb (neg_magicnumber go || neg_magicnumber no || negb (cilen =? CILEN_LONG))) (Good s')
  else if citype =? CI_PCOMPRESSION then
    unless_bad (negb (neg_pcompression go || neg_pcompression no || negb (cilen =? CILEN_VOID))) (Good s')
  else if citype =? CI_ACCOMPRESSION then
    unless_bad (negb (neg_accompression go || neg_accompression no || negb (cilen =? CILEN_VOID))) (Good s')
  else if citype =? CI_QUALITY then
    unless_bad (negb (neg_lqr go || neg_lqr no || negb (cilen =? CILEN_LQR))) (Good s')
  else Good s')).

(** [while (len > CILEN_VOID)]: every pass takes at least two bytes, so as many
    passes as there are bytes are enough. *)
Fixpoint nak_loop (go : lcp_options) (fuel : nat) (s : nak_state) : parse nak_state :=
  match fuel with
  | O => Good s
  | S fuel' =>
      if CILEN_VOID <? cu_len (ns_c s) then s ← nak_extra go s; nak_loop go fuel' s else Good s
  end.

Section Magic.
(** The successive values of [magic()]. *)
Context (magic : nat -> Z).

Definition nak_requested (go wo : lcp_options) (s : nak_state) : parse nak_state :=
  s ← (if asks_mru go then
         NAKCISHORT CI_MRU (neg_mru go) (set_neg_mru true)
           (fun cishort s => if (cishort <=? mru wo) || (cishort <=? DEFMRU)
                             then on_try (set_mru cishort) s else s) s
       else Good s);
  s ← (if asks_asyncmap go then
         NAKCILONG CI_ASYNCMAP (neg_asyncmap go) (set_neg_asyncmap true)
           (fun cilong => on_try (set_asyncmap (Z.lor (asyncmap go) cilong))) s
       else Good s);
  s ← nak_authtype go s;
  s ← NAKCILQR CI_QUALITY (neg_lqr go) (set_neg_lqr true)
        (fun cishort cilong => if cishort =? PPP_LQR then on_try (set_lqr_period cilong)
                               else on_try (set_neg_lqr false)) s;
  s ← NAKCICHAR CI_CALLBACK (neg_cbcp go) (set_neg_cbcp true)
        (fun _ => on_try (set_neg_cbcp false)) s;
  s ← NAKCILONG CI_MAGICNUMBER (neg_magicnumber go) (set_neg_magicnumber true)
        (fun _ s => NakState (ns_c s) (ns_no s) (set_magicnumber (magic (ns_seed s)) (ns_try s))
                      true (S (ns_seed s))) s;
  s ← NAKCIVOID CI_PCOMPRESSION (neg_pcompression go) (set_neg_pcompression true)
        (on_try (set_neg_pcompression false)) s;
  NAKCIVOID CI_ACCOMPRESSION (neg_accompression go) (set_neg_accompression true)
    (on_try (set_neg_accompression false)) s.

(** The parsing half of [lcp_nakci]: the options to try next, whether the line
    looks looped back, and the state of [magic()]. *)
Definition nakci_parse (go wo : lcp_options) (seed : nat) (p : bytes) (len : Z) : parse nak_state :=
  s ← nak_requested go wo (NakState (Cursor p len) no_options go false seed);
  nak_loop go (Z.to_nat (cu_len (ns_c s))) s.
End Magic.
