(* ===== verification/LcpReqci.v ===== *)
(** * LCP options: the peer's Configure-Request

    [lcp_reqci] walks over the options of the peer's request, records the ones
    it accepts in [hisoptions], collects counter-proposals in a buffer of its
    own and moves rejected options to the front of the very buffer it reads.
    The case of each option type is a definition of its own. *)

From S2P Require Import Prelude Wire Fsm LcpOptions.

(** What a case of the switch leaves: the verdict on the option, the bytes it
    put at [nakp], the peer's options and the state of [magic()]. *)
Record ci_result := CiResult { ci_orc : Z; ci_nak : bytes; ci_ho : lcp_options; ci_seed : nat }.

Section Reqci.
Context (magic : nat -> Z).

Definition ci_ack (ho : lcp_options) (seed : nat) : parse ci_result := Good (CiResult CONFACK [] ho seed).
Definition ci_rej (ho : lcp_options) (seed : nat) : parse ci_result := Good (CiResult CONFREJ [] ho seed).
Definition ci_nak_with (nak : bytes) (ho : lcp_options) (seed : nat) : parse ci_result :=
  Good (CiResult CONFNAK nak ho seed).

Definition ci_mru (ao : lcp_options) (cilen : Z) (p : bytes) (ho : lcp_options) (seed : nat)
    : parse ci_result :=
  if negb (neg_mru ao) || negb (cilen =? CILEN_SHORT) then ci_rej ho seed else
  '(cishort, _) ← get (GETSHORT p);
  if cishort <? MINMRU
  then ci_nak_with (PUTCHAR CI_MRU ++ PUTCHAR CILEN_SHORT ++ PUTSHORT MINMRU) ho seed
  else ci_ack (set_mru cishort (set_neg_mru true ho)) seed.

Definition ci_asyncmap (ao : lcp_options) (cilen : Z) (p : bytes) (ho : lcp_options) (seed : nat)
    : parse ci_result :=
  if negb (neg_asyncmap ao) || negb (cilen =? CILEN_LONG) then ci_rej ho seed else
  '(cilong, _) ← get (GETLONG p);
  if negb (Z.land (asyncmap ao) (u32 (Z.lnot cilong)) =? 0)
  then ci_nak_with (PUTCHAR CI_ASYNCMAP ++ PUTCHAR CILEN_LONG ++ PUTLONG (Z.lor (asyncmap ao) cilong))
         ho seed
  else ci_ack (set_asyncmap cilong (set_neg_asyncmap true ho)) seed.

(** The Naks that propose CHAP and PAP. *)
Definition nak_chap (ao : lcp_options) : bytes :=
  PUTCHAR CI_AUTHTYPE ++ PUTCHAR CILEN_CHAP ++ PUTSHORT PPP_CHAP ++ PUTCHAR (chap_mdtype ao).
Definition nak_pap : bytes := PUTCHAR CI_AUTHTYPE ++ PUTCHAR CILEN_SHORT ++ PUTSHORT PPP_PAP.

Definition ci_pap (ao : lcp_options) (cilen : Z) (ho : lcp_options) (seed : nat) : parse ci_result :=
  if neg_chap ho || negb (cilen =? CILEN_SHORT) then ci_rej ho seed
  else if negb (neg_upap ao) then ci_nak_with (nak_chap ao) ho seed
  else ci_ack (set_neg_upap true ho) seed.

Definition ci_chap (ao : lcp_options) (cilen : Z) (p : bytes) (ho : lcp_options) (seed : nat)
    : parse ci_result :=
  if neg_upap ho || negb (cilen =? CILEN_CHAP) then ci_rej ho seed
  else if negb (neg_chap ao) then ci_nak_with nak_pap ho seed
  else
    '(cichar, _) ← get (GETCHAR p);
    if negb (cichar =? CHAP_DIGEST_MD5) then ci_nak_with (nak_chap ao) ho seed
    else ci_ack (set_neg_chap true (set_chap_mdtype cichar ho)) seed.

Definition ci_authtype (ao : lcp_options) (cilen : Z) (p : bytes) (ho : lcp_options) (seed : nat)
    : parse ci_result :=
  if (cilen <? CILEN_SHORT) || negb (neg_upap ao || neg_chap ao) then ci_rej ho seed else
  '(cishort, p) ← get (GETSHORT p);
  if cishort =? PPP_PAP then ci_pap ao cilen ho seed
  else if cishort =? PPP_CHAP then ci_chap ao cilen p ho seed
  else ci_nak_with (if neg_chap ao then nak_chap ao else nak_pap) ho seed.

Definition ci_quality (ao : lcp_options) (cilen : Z) (p : bytes) (ho : lcp_options) (seed : nat)
    : parse ci_result :=
  if negb (neg_lqr ao) || negb (cilen =? CILEN_LQR) then ci_rej ho seed else
  '(cishort, p) ← get (GETSHORT p);
  '(cilong, _) ← get (GETLONG p);
  if negb (cishort =? PPP_LQR)
  then ci_nak_with (PUTCHAR CI_QUALITY ++ PUTCHAR CILEN_LQR ++ PUTSHORT PPP_LQR ++ PUTLONG (lqr_period ao))
         ho seed
  else ci_ack ho seed.

Definition ci_magicnumber (ao go : lcp_options) (cilen : Z) (p : bytes) (ho : lcp_options) (seed : nat)
    : parse ci_result :=
  if negb (neg_magicnumber ao || neg_magicnumber go) || negb (cilen =? CILEN_LONG)
  then ci_rej ho seed else
  '(cilong, _) ← get (GETLONG p);
  if neg_magicnumber go && (cilong =? magicnumber go)
  then ci_nak_with (PUTCHAR CI_MAGICNUMBER ++ PUTCHAR CILEN_LONG ++ PUTLONG (magic seed)) ho (S seed)
  else ci_ack (set_magicnumber cilong (set_neg_magicnumber true ho)) seed.

Definition ci_void (allowed : bool) (cilen : Z) (accept : lcp_options -> lcp_options)
    (ho : lcp_options) (seed : nat) : parse ci_result :=
  if negb allowed || negb (cilen =? CILEN_VOID) then ci_rej ho seed else ci_ack (accept ho) seed.

(** [switch (citype)] *)
Definition ci_switch (ao go : lcp_options) (citype cilen : Z) (p : bytes) (ho : lcp_options) (seed : nat)
    : parse ci_result :=
  if citype =? CI_MRU then ci_mru ao cilen p ho seed
  else if citype =? CI_ASYNCMAP then ci_asyncmap ao cilen p ho seed
  else if citype =? CI_AUTHTYPE then ci_authtype ao cilen p ho seed
  else if citype =? CI_QUALITY then ci_quality ao cilen p ho seed
  else if citype =? CI_MAGICNUMBER then ci_magicnumber ao go cilen p ho seed
  else if citype =? CI_PCOMPRESSION
    then ci_void (neg_pcompression ao) cilen (set_neg_pcompression true) ho seed
  else if citype =? CI_ACCOMPRESSION
    then ci_void (neg_accompression ao) cilen (set_neg_accompression true) ho seed
  else ci_rej ho seed.

(** The locals of [lcp_reqci]: the buffer from [inp] on, [next - inp],
    [rejp - inp], what is in [nak_buffer], [rc], [l]; and whether a copy inside
    the buffer has been undefined. *)
Record req_state := ReqState {
  rq_buf : bytes;
  rq_next : nat;
  rq_rejp : nat;
  rq_nak : bytes;
  rq_ho : lcp_options;
  rq_rc : Z;
  rq_l : Z;
  rq_seed : nat;
  rq_overlap : bool
}.

(** [BCOPY(src, dst, n)] inside the buffer.  It is [memcpy], which is undefined
    where the two ranges overlap: the parsers record every such call, and
    nothing is said of the bytes at [dst] after one (the value here is the one a
    copy from the front leaves). *)
Definition BCOPY (buf : bytes) (src dst n : nat) : bytes :=
  take dst buf ++ take n (drop src buf) ++ drop (dst + n) buf.
Definition overlap (src dst n : nat) : bool := (src <? dst + n)%nat && (dst <? src + n)%nat.

(** The code behind [endswitch:] *)
Definition endswitch (reject_if_disagree : bool) (citype cilen : Z) (cip : nat) (orc : Z)
    (st : req_state) : req_state :=
  let rc := rq_rc st in
  if (orc =? CONFACK) && negb (rc =? CONFACK) then st
  else
    let get_tough := (orc =? CONFNAK) && reject_if_disagree && negb (citype =? CI_MAGICNUMBER) in
    if (orc =? CONFNAK) && negb get_tough && (rc =? CONFREJ) then st
    else
      let rc := if (orc =? CONFNAK) && negb get_tough then CONFNAK else rc in
      if (orc =? CONFREJ) || get_tough then
        let n := Z.to_nat cilen in
        ReqState (if decide (cip = rq_rejp st) then rq_buf st else BCOPY (rq_buf st) cip (rq_rejp st) n)
          (rq_next st) (rq_rejp st + n) (rq_nak st) (rq_ho st) CONFREJ (rq_l st) (rq_seed st)
          (rq_overlap st || if decide (cip = rq_rejp st) then false else overlap cip (rq_rejp st) n)
      else
        ReqState (rq_buf st) (rq_next st) (rq_rejp st) (rq_nak st) (rq_ho st) rc (rq_l st) (rq_seed st) (rq_overlap st).

(** One pass of the loop. *)
Definition reqci_pass (ao go : lcp_options) (reject_if_disagree : bool) (st : req_state) : parse req_state :=
  let p := drop (rq_next st) (rq_buf st) in
  let cip := rq_next st in
  let l := rq_l st in
  let bad_ci :=
    Good (endswitch reject_if_disagree 0 l cip CONFREJ
            (ReqState (rq_buf st) (rq_next st) (rq_rejp st) (rq_nak st) (rq_ho st) (rq_rc st) 0 (rq_seed st)
               (rq_overlap st))) in
  if l <? 2 then bad_ci else
  match p with
  | citype :: cilen :: p =>
      if (cilen <? 2) || (l <? cilen) then bad_ci else
      r ← ci_switch ao go citype cilen p (rq_ho st) (rq_seed st);
      Good (endswitch reject_if_disagree citype cilen cip (ci_orc r)
              (ReqState (rq_buf st) (rq_next st + Z.to_nat cilen) (rq_rejp st) (rq_nak st ++ ci_nak r)
                 (ci_ho r) (rq_rc st) (l - cilen) (ci_seed r) (rq_overlap st)))
  | _ => Oob
  end.

(** [while (l)]: every pass takes a byte at least, so as many passes as the
    packet has bytes are enough. *)
Fixpoint reqci_loop (ao go : lcp_options) (reject_if_disagree : bool) (fuel : nat) (st : req_state)
    : parse req_state :=
  match fuel with
  | O => Good st
  | S fuel' =>
      if rq_l st =? 0 then Good st
      else st ← reqci_pass ao go reject_if_disagree st; reqci_loop ao go reject_if_disagree fuel' st
  end.

(** The verdict, the buffer it is sent from, its length, the peer's options,
    the state of [magic()], whether [nak_buffer] or the packet's own buffer was
    overrun, and whether a copy was undefined. *)
Record req_reply := ReqReply {
  rr_code : Z; rr_buf : bytes; rr_len : Z; rr_ho : lcp_options; rr_seed : nat; rr_oob : bool;
  rr_overlap : bool
}.

Definition reqci_reply (st : req_state) : req_reply :=
  let nlen := Z.of_nat (length (rq_nak st)) in
  let oob := PPP_MRU <? nlen in
  if rq_rc st =? CONFACK then
    ReqReply CONFACK (rq_buf st) (Z.of_nat (rq_next st)) (rq_ho st) (rq_seed st) oob (rq_overlap st)
  else if rq_rc st =? CONFNAK then
    ReqReply CONFNAK (rq_nak st ++ drop (length (rq_nak st)) (rq_buf st)) nlen (rq_ho st) (rq_seed st)
      (oob || (Z.of_nat (length (rq_buf st)) <? nlen)) (rq_overlap st)
  else ReqReply CONFREJ (rq_buf st) (Z.of_nat (rq_rejp st)) (rq_ho st) (rq_seed st) oob (rq_overlap st).

Definition lcp_reqci (ao go : lcp_options) (seed : nat) (inp : bytes) (len : Z)
    (reject_if_disagree : bool) : parse req_reply :=
  st ← reqci_loop ao go reject_if_disagree (Z.to_nat len)
         (ReqState inp 0 0 [] no_options CONFACK len seed false);
  Good (reqci_reply st).
End Reqci.
