(* ===== verification/LcpOptionsSpec.v ===== *)
(** * LCP options: theorems on our own request

    The length announced for a request is the length of its bytes; an Ack is
    accepted exactly when it repeats them; a Reject that is accepted names
    options of the request and turns off just these; a Nak that is accepted
    never adds an option; and none of the parsers reads behind the packet. *)

From S2P Require Import Prelude Wire LcpOptions.

(** Option values in the range of their C types. *)
Record options_ok (o : lcp_options) : Prop := {
  mru_ok : 0 <= mru o < 65536;
  mdtype_ok : 0 <= chap_mdtype o < 256;
  asyncmap_ok : 0 <= asyncmap o < 4294967296;
  magic_ok : 0 <= magicnumber o < 4294967296;
  lqr_ok : 0 <= lqr_period o < 4294967296
}.

Lemma length_lcp_addci go : Z.of_nat (length (lcp_addci go)) = lcp_cilen go.
Proof.
  unfold lcp_addci, lcp_cilen. rewrite !length_app !Nat2Z.inj_add.
  unfold ADDCISHORT, ADDCILONG, ADDCICHAP, ADDCILQR, ADDCICHAR, ADDCIVOID, LENCI.
  destruct (asks_mru go), (asks_asyncmap go), (neg_chap go), (asks_upap go), (neg_lqr go),
    (neg_cbcp go), (neg_magicnumber go), (neg_pcompression go), (neg_accompression go); reflexivity.
Qed.

(** ** Acks *)

(** The packet's bytes are there. *)
Definition cursor_ok (c : cursor) : Prop :=
  Forall byte_ok (cu_p c) /\ 0 <= cu_len c <= Z.of_nat (length (cu_p c)).

(** A step of the Ack parser that takes exactly the bytes [enc]. *)
Definition takes (enc : bytes) (f : cursor -> parse cursor) : Prop :=
  forall c, cursor_ok c ->
    match f c with
    | Good c' => cu_p c = enc ++ cu_p c' /\ cu_len c' = cu_len c - Z.of_nat (length enc) /\ cursor_ok c'
    | Bad => ~ exists p', cu_p c = enc ++ p' /\ Z.of_nat (length enc) <= cu_len c
    | Oob => False
    end.

Lemma takes_bind enc1 enc2 f1 f2 :
  takes enc1 f1 -> takes enc2 f2 -> takes (enc1 ++ enc2) (fun c => c ← f1 c; f2 c).
Proof.
  intros H1 H2 c Hc. specialize (H1 c Hc). rewrite length_app.
  destruct (f1 c) as [c1| |]; simpl; [|intros (p' & Hp & Hl); apply H1|done].
  - destruct H1 as (Hp1 & Hl1 & Hc1). specialize (H2 c1 Hc1).
    destruct (f2 c1) as [c2| |]; simpl; [| |done].
    + destruct H2 as (Hp2 & Hl2 & Hc2). split_and!; [by rewrite Hp1 Hp2 app_assoc|lia|done].
    + intros (p' & Hp & Hl). apply H2. exists p'. split; [|lia].
      rewrite Hp1 -app_assoc in Hp. by apply app_inv_head in Hp.
  - exists (enc2 ++ p'). split; [by rewrite Hp app_assoc|lia].
Qed.

Lemma takes_none : takes [] (fun c => Good c).
Proof. intros c Hc. split_and!; [done|simpl; lia|done]. Qed.

Lemma takes_if (b : bool) enc f :
  takes enc f -> takes (if b then enc else []) (fun c => if b then f c else Good c).
Proof. intros Hf. destruct b; [done|apply takes_none]. Qed.

Lemma PUTSHORT_inj v a b p q :
  0 <= v < 65536 -> byte_ok a -> byte_ok b ->
  a :: b :: p = PUTSHORT v ++ q <-> Z.lor (Z.shiftl a 8) b = v /\ p = q.
Proof.
  unfold byte_ok. intros Hv Ha Hb. split.
  - intros Heq. pose proof (GETSHORT_PUTSHORT v q) as Hg. rewrite -Heq in Hg. simpl in Hg.
    rewrite u16_small // in Hg. by simplify_eq.
  - intros [<- ->]. rewrite lor_shiftl_add; [lia..|]. unfold PUTSHORT. simpl.
    unfold u8, wrap. rewrite Z.shiftr_div_pow2 //. change (2 ^ 8) with 256.
    repeat f_equal; Z.to_euclidean_division_equations; lia.
Qed.

Lemma PUTLONG_inj v a b c d p q :
  0 <= v < 4294967296 -> byte_ok a -> byte_ok b -> byte_ok c -> byte_ok d ->
  a :: b :: c :: d :: p = PUTLONG v ++ q <->
  Z.lor (Z.lor (Z.lor (Z.shiftl a 24) (Z.shiftl b 16)) (Z.shiftl c 8)) d = v /\ p = q.
Proof.
  unfold byte_ok. intros Hv Ha Hb Hc Hd. split.
  - intros Heq. pose proof (GETLONG_PUTLONG v q) as Hg. rewrite -Heq in Hg. simpl in Hg.
    rewrite u32_small // in Hg. by simplify_eq.
  - intros [<- ->]. rewrite -!Z.lor_assoc. rewrite (lor_shiftl_add c); [lia..|].
    rewrite (lor_shiftl_add b); [lia..|]. rewrite (lor_shiftl_add a); [lia..|].
    unfold PUTLONG. simpl. unfold u8, wrap. rewrite ?Z.shiftr_div_pow2 //.
    change (2 ^ 8) with 256. change (2 ^ 16) with 65536. change (2 ^ 24) with 16777216.
    repeat f_equal; Z.to_euclidean_division_equations; lia.
Qed.

(** A packet with [n] bytes left is a list of at least [n] bytes. *)
Tactic Notation "open_bytes" integer(n) ident(p) ident(Hl) :=
  do n (destruct p as [|? p]; [simpl in Hl; lia|]).

Lemma PUTCHAR_byte c : byte_ok c -> PUTCHAR c = [c].
Proof. intros Hc. unfold PUTCHAR. by rewrite u8_small. Qed.

Lemma ack_head_spec opt n c :
  2 <= n -> cursor_ok c ->
  match ack_head opt n c with
  | Good c' => n <= cu_len c /\ cu_p c = opt :: n :: cu_p c' /\ cu_len c' = cu_len c - n
  | Bad => ~ exists p', cu_p c = opt :: n :: p' /\ n <= cu_len c
  | Oob => False
  end.
Proof.
  intros Hn [Hb Hl]. unfold ack_head. destruct c as [p len]; simpl in *.
  destruct (Z.ltb_spec (len - n) 0); simpl; [intros (? & _ & ?); lia|].
  open_bytes 2 p Hl. simpl.
  destruct (Z.eqb_spec z0 n); simpl; [|intros (? & ? & _); congruence].
  destruct (Z.eqb_spec z opt); simpl; [|intros (? & ? & _); congruence].
  subst. split_and!; [lia|done|done].
Qed.

(** A reader of a value that takes exactly the bytes [enc]. *)
Definition reads (enc : bytes) (rd : cursor -> parse cursor) : Prop :=
  forall c, Forall byte_ok (cu_p c) -> Z.of_nat (length enc) <= Z.of_nat (length (cu_p c)) ->
    match rd c with
    | Good c' => cu_p c = enc ++ cu_p c' /\ cu_len c' = cu_len c
    | Bad => ~ exists p', cu_p c = enc ++ p'
    | Oob => False
    end.

(** The head of an option and then its value. *)
Lemma takes_option opt n enc rd :
  byte_ok opt -> byte_ok n -> Z.of_nat (length enc) = n - 2 -> reads enc rd ->
  takes (PUTCHAR opt ++ PUTCHAR n ++ enc) (fun c => c ← ack_head opt n c; rd c).
Proof.
  intros Ho Hn He Hf c Hc. rewrite !PUTCHAR_byte //.
  pose proof (ack_head_spec opt n c ltac:(lia) Hc) as Hh. destruct Hc as [Hb Hl].
  destruct (ack_head opt n c) as [c1| |]; simpl;
    [|intros (p' & Hp & ?); apply Hh; eexists; split; [exact Hp|lia]|done].
  destruct Hh as (Hle & Hp & Hl1). rewrite Hp in Hb Hl. decompose_Forall_hyps.
  specialize (Hf c1). destruct (rd c1) as [c2| |].
  - destruct Hf as (Hp2 & Hl2); [done|lia|]. rewrite Hp Hp2. rewrite Hp2 length_app in Hl.
    split_and!; [done|lia|]. split; [|lia].
    match goal with Hb' : Forall byte_ok (cu_p c1) |- _ =>
      rewrite Hp2 in Hb'; by apply Forall_app in Hb' as [_ ?] end.
  - intros (p' & Hp' & _). apply Hf; [done|lia|]. exists p'. rewrite Hp in Hp'. by simplify_eq.
  - apply Hf; [done|lia].
Qed.

Lemma takes_ext enc enc' f f' :
  enc = enc' -> (forall c, f c = f' c) -> takes enc f -> takes enc' f'.
Proof. intros -> Hf H c. rewrite -Hf. apply H. Qed.

Lemma GETSHORT_spec v p :
  0 <= v < 65536 -> Forall byte_ok p -> 2 <= Z.of_nat (length p) ->
  exists v' p', GETSHORT p = Some (v', p') /\ Forall byte_ok p' /\
    Z.of_nat (length p) = Z.of_nat (length p') + 2 /\
    forall q, p = PUTSHORT v ++ q <-> v' = v /\ p' = q.
Proof.
  intros Hv Hb Hl. open_bytes 2 p Hl. decompose_Forall_hyps.
  eexists _, _. split; [reflexivity|]. split_and!; [done|simpl; lia|]. intros q. by apply PUTSHORT_inj.
Qed.

Lemma GETLONG_spec v p :
  0 <= v < 4294967296 -> Forall byte_ok p -> 4 <= Z.of_nat (length p) ->
  exists v' p', GETLONG p = Some (v', p') /\ Forall byte_ok p' /\
    Z.of_nat (length p) = Z.of_nat (length p') + 4 /\
    forall q, p = PUTLONG v ++ q <-> v' = v /\ p' = q.
Proof.
  intros Hv Hb Hl. open_bytes 4 p Hl. decompose_Forall_hyps.
  eexists _, _. split; [reflexivity|]. split_and!; [done|simpl; lia|]. intros q. by apply PUTLONG_inj.
Qed.

Lemma reads_void : reads [] (fun c => Good c).
Proof. by intros c Hb Hl. Qed.

Lemma reads_short val :
  0 <= val < 65536 ->
  reads (PUTSHORT val) (fun c => '(v, p) ← get (GETSHORT (cu_p c)); unless_bad (v =? val) (Good (Cursor p (cu_len c)))).
Proof.
  intros Hv c Hb Hl. simpl in Hl. destruct (GETSHORT_spec val (cu_p c)) as (v' & p' & -> & _ & _ & Hq); [done..|].
  simpl. destruct (Z.eqb_spec v' val); simpl.
  - split; [|done]. by apply Hq.
  - intros (q & Hp). by apply (Hq q) in Hp as [? _].
Qed.

Lemma reads_long val :
  0 <= val < 4294967296 ->
  reads (PUTLONG val) (fun c => '(v, p) ← get (GETLONG (cu_p c)); unless_bad (v =? val) (Good (Cursor p (cu_len c)))).
Proof.
  intros Hv c Hb Hl. simpl in Hl. destruct (GETLONG_spec val (cu_p c)) as (v' & p' & -> & _ & _ & Hq); [done..|].
  simpl. destruct (Z.eqb_spec v' val); simpl.
  - split; [|done]. by apply Hq.
  - intros (q & Hp). by apply (Hq q) in Hp as [? _].
Qed.

Lemma reads_char val :
  byte_ok val ->
  reads (PUTCHAR val) (fun c => '(v, p) ← get (GETCHAR (cu_p c)); unless_bad (v =? val) (Good (Cursor p (cu_len c)))).
Proof.
  intros Hv [p len] Hb Hl. rewrite PUTCHAR_byte //. simpl in *. open_bytes 1 p Hl. simpl.
  destruct (Z.eqb_spec z val); simpl; [by subst|]. intros (q & Hp). by simplify_eq.
Qed.

(** Two values one after the other, both read before they are checked. *)
Lemma reads_chap val digest :
  0 <= val < 65536 -> byte_ok digest ->
  reads (PUTSHORT val ++ PUTCHAR digest)
    (fun c => '(v, p) ← get (GETSHORT (cu_p c)); '(d, p) ← get (GETCHAR p);
              unless_bad ((v =? val) && (d =? digest)) (Good (Cursor p (cu_len c)))).
Proof.
  intros Hv Hd c Hb Hl. rewrite PUTCHAR_byte //. simpl in Hl.
  destruct (GETSHORT_spec val (cu_p c)) as (v' & p' & -> & Hb' & Hlen & Hq); [done|done|lia|]. simpl.
  destruct p' as [|d p']; [simpl in Hlen; lia|]. simpl.
  destruct (Z.eqb_spec v' val); simpl; [destruct (Z.eqb_spec d digest); simpl|].
  - split; [|done]. apply (Hq (digest :: p')). by subst.
  - intros (q & Hp). apply (Hq (digest :: q)) in Hp as [_ Hp]. by simplify_eq.
  - intros (q & Hp). by apply (Hq (digest :: q)) in Hp as [? _].
Qed.

Lemma reads_lqr val :
  0 <= val < 4294967296 ->
  reads (PUTSHORT PPP_LQR ++ PUTLONG val)
    (fun c => '(v, p) ← get (GETSHORT (cu_p c)); '(l, p) ← get (GETLONG p);
              unless_bad ((v =? PPP_LQR) && (l =? val)) (Good (Cursor p (cu_len c)))).
Proof.
  intros Hv c Hb Hl. simpl in Hl.
  destruct (GETSHORT_spec PPP_LQR (cu_p c)) as (v' & p' & -> & Hb' & Hlen & Hq); [done|done|lia|]. simpl.
  destruct (GETLONG_spec val p') as (l' & p'' & -> & _ & _ & Hq'); [done|done|lia|]. simpl.
  destruct (Z.eqb_spec v' PPP_LQR); simpl; [destruct (Z.eqb_spec l' val); simpl|].
  - split; [|done]. apply (Hq (PUTLONG val ++ p'')). split; [done|]. by apply Hq'.
  - intros (q & Hp). apply (Hq (PUTLONG val ++ q)) in Hp as [_ Hp]. by apply Hq' in Hp as [? _].
  - intros (q & Hp). by apply (Hq (PUTLONG val ++ q)) in Hp as [? _].
Qed.

(** A first check ahead of the second read makes no difference when the bytes
    are there. *)
Lemma reads_agree enc rd rd' :
  reads enc rd ->
  (forall c, Forall byte_ok (cu_p c) -> Z.of_nat (length enc) <= Z.of_nat (length (cu_p c)) -> rd' c = rd c) ->
  reads enc rd'.
Proof. intros Hr Heq c Hb Hl. rewrite Heq //. by apply Hr. Qed.

Lemma takes_void opt neg : byte_ok opt -> takes (ADDCIVOID opt neg) (ACKCIVOID opt neg).
Proof.
  intros Ho. apply (takes_if neg (PUTCHAR opt ++ PUTCHAR CILEN_VOID) (ack_head opt CILEN_VOID)).
  eapply (takes_ext (PUTCHAR opt ++ PUTCHAR CILEN_VOID ++ []) _ (fun c => c ← ack_head opt CILEN_VOID c; Good c));
    [done|intros c; by destruct (ack_head _ _ _)|].
  by apply takes_option; [..|apply reads_void].
Qed.

Lemma takes_short opt neg val :
  byte_ok opt -> 0 <= val < 65536 -> takes (ADDCISHORT opt neg val) (ACKCISHORT opt neg val).
Proof. intros Ho Hv. by apply takes_if, takes_option; [..|apply reads_short]. Qed.

Lemma takes_long opt neg val :
  byte_ok opt -> 0 <= val < 4294967296 -> takes (ADDCILONG opt neg val) (ACKCILONG opt neg val).
Proof. intros Ho Hv. by apply takes_if, takes_option; [..|apply reads_long]. Qed.

Lemma takes_char opt neg val :
  byte_ok opt -> byte_ok val -> takes (ADDCICHAR opt neg val) (ACKCICHAR opt neg val).
Proof. intros Ho Hv. by apply takes_if, takes_option; [..|apply reads_char]. Qed.

Lemma takes_chap opt neg val digest :
  byte_ok opt -> 0 <= val < 65536 -> byte_ok digest ->
  takes (ADDCICHAP opt neg val digest) (ACKCICHAP opt neg val digest).
Proof.
  intros Ho Hv Hd. apply takes_if, takes_option; [done..|].
  eapply reads_agree; [by apply (reads_chap val digest)|]. intros [p len] Hb Hl. simpl in Hl.
  open_bytes 3 p Hl. simpl. by destruct (_ =? val), (_ =? digest).
Qed.

Lemma takes_lqr opt neg val :
  byte_ok opt -> 0 <= val < 4294967296 -> takes (ADDCILQR opt neg val) (ACKCILQR opt neg val).
Proof.
  intros Ho Hv. apply takes_if, takes_option; [done..|].
  eapply reads_agree; [by apply (reads_lqr val)|]. intros [p len] Hb Hl. simpl in Hl.
  open_bytes 6 p Hl. simpl. by destruct (_ =? PPP_LQR), (_ =? val).
Qed.

Lemma takes_request go : options_ok go -> takes (lcp_addci go) (ack_options go).
Proof.
  intros [? ? ? ? ?]. unfold lcp_addci, ack_options.
  repeat apply takes_bind;
    first [by apply takes_short|by apply takes_long|by apply takes_chap|by apply takes_lqr
          |by apply takes_char|by apply takes_void].
Qed.

(** C24: an Ack is accepted exactly when it is the request.  The length the
    daemon announces for its options is the length of the bytes it writes, and
    a Configure-Ack is good if and only if it repeats these bytes; otherwise it
    is bad, and in no case is a byte behind the packet read. *)
Theorem lcp_ackci_exact go p len :
  options_ok go -> Forall byte_ok p -> 0 <= len <= Z.of_nat (length p) ->
  Z.of_nat (length (lcp_addci go)) = lcp_cilen go /\
  lcp_ackci go p len = (if decide (take (Z.to_nat len) p = lcp_addci go) then Good tt else Bad).
Proof.
  intros Hgo Hb Hl. split; [apply length_lcp_addci|].
  pose proof (takes_request go Hgo (Cursor p len) (conj Hb Hl)) as Ht. unfold lcp_ackci.
  destruct (ack_options go (Cursor p len)) as [c| |]; simpl in *; [| |done].
  - destruct Ht as (-> & Hlen & Hc). destruct (Z.eqb_spec (cu_len c) 0); simpl.
    + rewrite decide_True //. replace (Z.to_nat len) with (length (lcp_addci go)) by lia.
      by rewrite take_app_length.
    + rewrite decide_False //. intros Heq. apply (f_equal length) in Heq.
      rewrite length_take in Heq. destruct Hc as [_ Hc]. lia.
  - rewrite decide_False //. intros Heq. apply Ht. exists (drop (Z.to_nat len) p).
    rewrite -Heq take_drop length_take. split; [done|lia].
Qed.

(** ** Rejects *)

(** An option of the request a Reject may name: whether we negotiate it, its
    type, its bytes, and how to stop asking for it. *)
Record item := Item {
  it_neg : bool; it_type : Z; it_enc : bytes; it_clear : lcp_options -> lcp_options
}.

Definition rej_items (go : lcp_options) : list item :=
  [Item (neg_mru go) CI_MRU (ADDCISHORT CI_MRU true (mru go)) (set_neg_mru false);
   Item (neg_asyncmap go) CI_ASYNCMAP (ADDCILONG CI_ASYNCMAP true (asyncmap go)) (set_neg_asyncmap false);
   Item (neg_chap go) CI_AUTHTYPE (ADDCICHAP CI_AUTHTYPE true PPP_CHAP (chap_mdtype go))
     (fun o => set_neg_upap false (set_neg_chap false o));
   Item (asks_upap go) CI_AUTHTYPE (ADDCISHORT CI_AUTHTYPE true PPP_PAP) (set_neg_upap false);
   Item (neg_lqr go) CI_QUALITY (ADDCILQR CI_QUALITY true (lqr_period go)) (set_neg_lqr false);
   Item (neg_cbcp go) CI_CALLBACK (ADDCICHAR CI_CALLBACK true CBCP_OPT) (set_neg_cbcp false);
   Item (neg_magicnumber go) CI_MAGICNUMBER (ADDCILONG CI_MAGICNUMBER true (magicnumber go))
     (set_neg_magicnumber false);
   Item (neg_pcompression go) CI_PCOMPRESSION (ADDCIVOID CI_PCOMPRESSION true) (set_neg_pcompression false);
   Item (neg_accompression go) CI_ACCOMPRESSION (ADDCIVOID CI_ACCOMPRESSION true)
     (set_neg_accompression false)].

(** [picked items bs o o']: [bs] is a selection of the negotiated items, in
    order, and [o'] is [o] without them. *)
Inductive picked : list item -> bytes -> lcp_options -> lcp_options -> Prop :=
  | picked_nil o : picked [] [] o o
  | picked_skip it items bs o o' : picked items bs o o' -> picked (it :: items) bs o o'
  | picked_take it items bs o o' :
      it_neg it = true -> picked items bs (it_clear it o) o' ->
      picked (it :: items) (it_enc it ++ bs) o o'.

Definition begins (enc : bytes) (c : cursor) : Prop :=
  Z.of_nat (length enc) <= cu_len c /\ exists q, cu_p c = enc ++ q.

Definition rej_step := cursor * lcp_options -> parse (cursor * lcp_options).

(** A step that takes the item when the packet goes on with it, finds the
    packet bad when it names the item with another value, and passes
    otherwise. *)
Definition drops (it : item) (f : rej_step) : Prop :=
  forall c o, cursor_ok c ->
    match f (c, o) with
    | Good (c', o') =>
        (it_neg it = true /\ cu_p c = it_enc it ++ cu_p c' /\
         cu_len c' = cu_len c - Z.of_nat (length (it_enc it)) /\ o' = it_clear it o /\ cursor_ok c')
        \/ (c' = c /\ o' = o /\ ~ (it_neg it = true /\ begins (it_enc it) c))
    | Bad => it_neg it = true /\ begins [it_type it] c /\ ~ begins (it_enc it) c
    | Oob => False
    end.

(** The steps one after the other and the final length check. *)
Fixpoint rej_chain (fs : list rej_step) (st : cursor * lcp_options) : parse lcp_options :=
  match fs with
  | [] => unless_bad (cu_len st.1 =? 0) (Good st.2)
  | f :: fs' => st ← f st; rej_chain fs' st
  end.

(** The types of the negotiated items differ, and every item starts with its
    type. *)
Inductive distinct_items : list item -> Prop :=
  | distinct_nil : distinct_items []
  | distinct_cons it items :
      (exists enc, it_enc it = it_type it :: enc) ->
      (it_neg it = true -> Forall (fun it' => it_neg it' = true -> it_type it' <> it_type it) items) ->
      distinct_items items -> distinct_items (it :: items).

Lemma picked_head items bs o o' :
  distinct_items items -> picked items bs o o' ->
  bs = [] \/ exists it q, it ∈ items /\ it_neg it = true /\ bs = it_type it :: q.
Proof.
  intros Hd Hp. revert Hd. induction Hp as [|it items bs o o' Hp IH|it items bs o o' Hn Hp IH];
    intros Hd; [by left|inversion_clear Hd as [|? ? He Ht Hd']..].
  - destruct IH as [->|(it' & q & ? & ? & ?)]; [done|by left|]. right. exists it', q. split; [by right|done].
  - right. destruct He as [enc He]. exists it, (enc ++ bs). rewrite He. split_and!; [by left|done|done].
Qed.

Lemma take_begins enc c :
  begins enc c -> exists q, take (Z.to_nat (cu_len c)) (cu_p c) = enc ++ q.
Proof.
  intros [Hl [q Hq]]. rewrite Hq. exists (take (Z.to_nat (cu_len c) - length enc) q).
  rewrite take_app firstn_all2 //. lia.
Qed.

Lemma picked_nil_inv bs o o' : picked [] bs o o' -> bs = [] /\ o = o'.
Proof. by inversion 1. Qed.

Lemma picked_cons_inv it items bs o o' :
  picked (it :: items) bs o o' ->
  picked items bs o o' \/
  (it_neg it = true /\ exists bs', bs = it_enc it ++ bs' /\ picked items bs' (it_clear it o) o').
Proof. inversion 1; [by left|right; eauto]. Qed.

(** The packet's bytes, when they go on with [enc]. *)
Lemma begins_take enc bs c :
  cursor_ok c -> take (Z.to_nat (cu_len c)) (cu_p c) = enc ++ bs -> begins enc c.
Proof.
  intros [_ Hc] Heq. split.
  - apply (f_equal length) in Heq. rewrite length_take length_app in Heq. lia.
  - exists (bs ++ drop (Z.to_nat (cu_len c)) (cu_p c)). by rewrite app_assoc -Heq take_drop.
Qed.

(** The parser accepts exactly the selections. *)
Lemma rej_chain_exact items fs c o o' :
  distinct_items items -> Forall2 drops items fs -> cursor_ok c ->
  rej_chain fs (c, o) <> Oob /\
  (rej_chain fs (c, o) = Good o' <-> picked items (take (Z.to_nat (cu_len c)) (cu_p c)) o o').
Proof.
  intros Hd Hfs. revert c o Hd. induction Hfs as [|it f items fs Hf Hfs IH]; intros c o Hd Hc; simpl.
  - destruct Hc as [_ Hc]. destruct (Z.eqb_spec (cu_len c) 0) as [E|E]; simpl; split; try done.
    + rewrite E. split; [intros [= ->]; constructor|]. by intros [_ ->]%picked_nil_inv.
    + split; [done|]. intros [Hn _]%picked_nil_inv.
      apply (f_equal length) in Hn. rewrite length_take /= in Hn. lia.
  - inversion_clear Hd as [|? ? He Ht Hd']. specialize (Hf c o Hc).
    assert (Hskip : it_neg it = true -> begins [it_type it] c ->
              ~ picked items (take (Z.to_nat (cu_len c)) (cu_p c)) o o').
    { intros Hn Hb Hp. apply take_begins in Hb as [q Hq]. rewrite Hq in Hp.
      apply picked_head in Hp as [?|(it' & q' & Hin & Hn' & Heq)]; [done| |done].
      specialize (Ht Hn).
      injection Heq as Heq _. by apply (proj1 (Forall_forall _ _) Ht it' ltac:(by apply list_elem_of_In) Hn'). }
    destruct (f (c, o)) as [[c' o1]| |]; simpl; [|split; [done|split; [done|]]|done].
    + destruct Hf as [(Hn & Hp & Hl & -> & Hc')|(-> & -> & Hno)].
      * destruct (IH c' (it_clear it o) Hd' Hc') as [Hoob Hiff]. split; [done|]. rewrite Hiff.
        assert (Htake : take (Z.to_nat (cu_len c)) (cu_p c)
                        = it_enc it ++ take (Z.to_nat (cu_len c')) (cu_p c')).
        { rewrite Hp Hl take_app firstn_all2; [destruct Hc' as [_ Hc']; lia|]. do 2 f_equal. lia. }
        split; [rewrite Htake; by constructor|].
        intros [Hpk|(_ & bs' & Heq & Hpk)]%picked_cons_inv.
        -- exfalso. apply Hskip; [done| |done]. destruct He as [enc He]. rewrite He in Htake.
           exact (begins_take [it_type it] (enc ++ _) c Hc Htake).
        -- rewrite Htake in Heq. by apply app_inv_head in Heq as ->.
      * destruct (IH c o Hd' Hc) as [Hoob Hiff]. split; [done|]. rewrite Hiff.
        split; [by constructor|]. intros [Hpk|(Hn & bs' & Heq & Hpk)]%picked_cons_inv; [done|].
        exfalso. apply Hno. split; [done|]. by eapply begins_take.
    + destruct Hf as (Hn & Hb & Hne). intros [Hpk|(_ & bs' & Heq & Hpk)]%picked_cons_inv.
      * exfalso. by apply Hskip.
      * exfalso. apply Hne. by eapply begins_take.
Qed.

(** The test of the [REJCI] and [NAKCI] macros. *)
Lemma starts_spec opt n c :
  2 <= n -> cursor_ok c ->
  match starts opt n c with
  | Good true => n <= cu_len c /\ cu_p c = opt :: n :: drop 2 (cu_p c) /\
                 Forall byte_ok (drop 2 (cu_p c)) /\
                 Z.of_nat (length (cu_p c)) = Z.of_nat (length (drop 2 (cu_p c))) + 2
  | Good false => forall q, cu_p c = opt :: n :: q -> cu_len c < n
  | _ => False
  end.
Proof.
  intros Hn [Hb Hl]. unfold starts. destruct c as [p len]; simpl in *.
  destruct (Z.ltb_spec len n); [by intros|]. open_bytes 2 p Hl. simpl in *. decompose_Forall_hyps.
  destruct (Z.eqb_spec z0 n); simpl; [|intros ? ?; simplify_eq].
  destruct (Z.eqb_spec z opt); simpl; [|intros ? ?; simplify_eq].
  subst. split_and!; [done|done|done|rewrite drop_0; lia].
Qed.

Lemma drops_option (neg : bool) opt n enc clear rd (f : rej_step) :
  byte_ok opt -> byte_ok n -> Z.of_nat (length enc) = n - 2 -> reads enc rd ->
  (forall c o, f (c, o) =
     if neg then
       m ← starts opt n c;
       if (m : bool) then (c' ← rd (take_head n c); Good (c', clear o)) else Good (c, o)
     else Good (c, o)) ->
  drops (Item neg opt (PUTCHAR opt ++ PUTCHAR n ++ enc) clear) f.
Proof.
  intros Ho Hn He Hrd Hf c o Hc. rewrite Hf !PUTCHAR_byte //. simpl.
  destruct neg; [|right; split_and!; [done|done|by intros []]].
  pose proof (starts_spec opt n c ltac:(lia) Hc) as Hs. destruct Hc as [Hb Hl].
  destruct (starts opt n c) as [[]| |]; simpl; [| |done..].
  - destruct Hs as (Hle & Hp & Hb2 & Hlen). specialize (Hrd (take_head n c)). simpl in Hrd.
    destruct (rd (take_head n c)) as [c'| |]; simpl.
    + left. destruct Hrd as [Hp' Hl']; [done|lia|]. simpl in Hl'. rewrite Hp Hp'. rewrite Hp' length_app in Hlen.
      split_and!; [done|done|simpl; lia|done|]. split; [|lia].
      rewrite Hp' in Hb2. by apply Forall_app in Hb2 as [_ ?].
    + split_and!; [done|split; [simpl; lia|by exists (n :: drop 2 (cu_p c))]|].
      intros [_ [q Hq]]. apply Hrd; [done|lia|]. exists q. rewrite Hq. done.
    + apply Hrd; [done|lia].
  - right. split_and!; [done|done|]. intros [_ [Hle [q Hq]]]. apply Hs in Hq. simpl in Hle. lia.
Qed.

Lemma drops_void neg opt clear :
  byte_ok opt -> drops (Item neg opt (ADDCIVOID opt true) clear) (REJCIVOID opt neg clear).
Proof.
  intros Ho. unfold ADDCIVOID. rewrite -(app_nil_r (PUTCHAR CILEN_VOID)).
  by apply (drops_option neg opt CILEN_VOID [] clear (fun c => Good c)); [..|apply reads_void|].
Qed.

(** The step is the head, the reader and the clearing of the option. *)
Ltac drops_step neg :=
  intros c o; unfold REJCISHORT, REJCILONG, REJCICHAP, REJCILQR, REJCICBCP;
  destruct neg; [|done]; destruct (starts _ _ c) as [[]| |]; [|done..]; simpl;
  repeat match goal with
  | |- context [get ?r ≫= _] => destruct r as [[? ?]|]; simpl; [|done]
  end;
  unfold unless_bad; by case_tests.

Lemma drops_short neg opt val clear :
  byte_ok opt -> 0 <= val < 65536 ->
  drops (Item neg opt (ADDCISHORT opt true val) clear) (REJCISHORT opt neg val clear).
Proof. intros Ho Hv. eapply drops_option; [done..|by apply (reads_short val)|drops_step neg]. Qed.

Lemma drops_long neg opt val clear :
  byte_ok opt -> 0 <= val < 4294967296 ->
  drops (Item neg opt (ADDCILONG opt true val) clear) (REJCILONG opt neg val clear).
Proof. intros Ho Hv. eapply drops_option; [done..|by apply (reads_long val)|drops_step neg]. Qed.

Lemma drops_cbcp neg opt val clear :
  byte_ok opt -> byte_ok val ->
  drops (Item neg opt (ADDCICHAR opt true val) clear) (REJCICBCP opt neg val clear).
Proof. intros Ho Hv. eapply drops_option; [done..|by apply (reads_char val)|drops_step neg]. Qed.

Lemma drops_chap neg opt val digest clear :
  byte_ok opt -> 0 <= val < 65536 -> byte_ok digest ->
  drops (Item neg opt (ADDCICHAP opt true val digest) (fun o => set_neg_upap false (clear o)))
    (REJCICHAP opt neg val digest clear).
Proof. intros Ho Hv Hd. eapply drops_option; [done..|by apply (reads_chap val digest)|drops_step neg]. Qed.

Lemma drops_lqr neg opt val clear :
  byte_ok opt -> 0 <= val < 4294967296 ->
  drops (Item neg opt (ADDCILQR opt true val) clear) (REJCILQR opt neg val clear).
Proof. intros Ho Hv. eapply drops_option; [done..|by apply (reads_lqr val)|drops_step neg]. Qed.

(** The steps of [lcp_rejci]. *)
Definition rej_steps (go : lcp_options) : list rej_step :=
  [REJCISHORT CI_MRU (neg_mru go) (mru go) (set_neg_mru false);
   REJCILONG CI_ASYNCMAP (neg_asyncmap go) (asyncmap go) (set_neg_asyncmap false);
   REJCICHAP CI_AUTHTYPE (neg_chap go) PPP_CHAP (chap_mdtype go) (set_neg_chap false);
   (fun st => if negb (neg_chap go)
              then REJCISHORT CI_AUTHTYPE (neg_upap go) PPP_PAP (set_neg_upap false) st else Good st);
   REJCILQR CI_QUALITY (neg_lqr go) (lqr_period go) (set_neg_lqr false);
   REJCICBCP CI_CALLBACK (neg_cbcp go) CBCP_OPT (set_neg_cbcp false);
   REJCILONG CI_MAGICNUMBER (neg_magicnumber go) (magicnumber go) (set_neg_magicnumber false);
   REJCIVOID CI_PCOMPRESSION (neg_pcompression go) (set_neg_pcompression false);
   REJCIVOID CI_ACCOMPRESSION (neg_accompression go) (set_neg_accompression false)].

Lemma rejci_steps go p len : lcp_rejci go p len = rej_chain (rej_steps go) (Cursor p len, go).
Proof. reflexivity. Qed.

Lemma rej_steps_drop go : options_ok go -> Forall2 drops (rej_items go) (rej_steps go).
Proof.
  intros [? ? ? ? ?]. repeat constructor;
    first [by apply drops_chap|by apply drops_long|by apply drops_lqr|by apply drops_cbcp
          |by apply drops_void|by apply drops_short|idtac].
  unfold asks_upap. destruct (neg_chap go); simpl.
  - intros c o Hc. right. split_and!; [done|done|by intros []].
  - by apply drops_short.
Qed.

Lemma rej_items_distinct go : distinct_items (rej_items go).
Proof.
  unfold rej_items, asks_upap.
  repeat (apply distinct_cons; [by eexists|intros Hn; simpl in Hn|]); [..|constructor].
  all: repeat (apply Forall_cons; [simpl; try done|]); try apply Forall_nil.
  by rewrite Hn.
Qed.

(** A Reject is accepted exactly when it lists options we negotiate, in
    the order and with the values of the request, and what is left to ask for
    is then our request without them.  No byte behind the packet is read. *)
Theorem lcp_rejci_exact go p len :
  options_ok go -> Forall byte_ok p -> 0 <= len <= Z.of_nat (length p) ->
  lcp_rejci go p len <> Oob /\
  forall try, lcp_rejci go p len = Good try <-> picked (rej_items go) (take (Z.to_nat len) p) go try.
Proof.
  intros Hgo Hb Hl. rewrite rejci_steps.
  pose proof (rej_chain_exact (rej_items go) (rej_steps go) (Cursor p len) go) as Hx.
  split; [apply Hx; [exact go|..]|intros try; apply Hx]; 
    auto using rej_items_distinct, rej_steps_drop; by split.
Qed.

(** ** Naks *)

(** What a Nak may change: it turns options off, adds characters to the async
    map, and moves the MRU to a value no larger than the one we want or the
    default. *)
Record narrowed (go wo try : lcp_options) : Prop := {
  nw_ok : options_ok try;
  nw_same : passive try = passive go /\ silent try = silent go /\ restart try = restart go /\
            chap_mdtype try = chap_mdtype go /\ numloops try = numloops go;
  nw_neg :
    (neg_mru try = true -> neg_mru go = true) /\ (neg_asyncmap try = true -> neg_asyncmap go = true) /\
    (neg_upap try = true -> neg_upap go = true) /\ (neg_chap try = true -> neg_chap go = true) /\
    (neg_magicnumber try = true -> neg_magicnumber go = true) /\
    (neg_pcompression try = true -> neg_pcompression go = true) /\
    (neg_accompression try = true -> neg_accompression go = true) /\
    (neg_lqr try = true -> neg_lqr go = true) /\ (neg_cbcp try = true -> neg_cbcp go = true);
  nw_asyncmap : Z.lor (asyncmap go) (asyncmap try) = asyncmap try;
  nw_mru : mru try = mru go \/ mru try <= mru wo \/ mru try <= DEFMRU
}.

Section Naks.
Context (magic : nat -> Z) (Hmagic : forall n, 0 <= magic n < 4294967296).
Context (go wo : lcp_options) (Hgo : options_ok go).

Definition nak_inv (s : nak_state) : Prop := cursor_ok (ns_c s) /\ narrowed go wo (ns_try s).

(** A step of the Nak parser that stays inside the packet and keeps [nak_inv]. *)
Definition nak_keeps (f : nak_state -> parse nak_state) : Prop :=
  forall s, nak_inv s -> match f s with Good s' => nak_inv s' | Bad => True | Oob => False end.

Lemma nak_keeps_bind f g : nak_keeps f -> nak_keeps g -> nak_keeps (fun s => s ← f s; g s).
Proof. intros Hf Hg s Hs. specialize (Hf s Hs). by destruct (f s); [apply Hg|..]. Qed.

Lemma nak_keeps_if (b : bool) f : nak_keeps f -> nak_keeps (fun s => if b then f s else Good s).
Proof. destruct b; [done|]. by intros _ s Hs. Qed.

Lemma narrowed_refl : narrowed go wo go.
Proof. split; [done|done|tauto|apply Z.lor_diag|by left]. Qed.

(** The code of an option may only narrow the options. *)
Definition narrows (g : nak_state -> nak_state) : Prop :=
  forall s, cu_p (ns_c (g s)) = cu_p (ns_c s) /\ cu_len (ns_c (g s)) = cu_len (ns_c s) /\
    (narrowed go wo (ns_try s) -> narrowed go wo (ns_try (g s))).

Lemma narrows_inv g c mark s :
  narrows g -> cursor_ok c -> nak_inv s -> nak_inv (g (ns_advance c mark s)).
Proof.
  intros Hg [Hb Hl] [_ Hn]. destruct (Hg (ns_advance c mark s)) as (Hp & Hlen & Hnar).
  split; [|by apply Hnar]. split; [by rewrite Hp|]. by rewrite Hp Hlen.
Qed.

(** The head of an option whose value follows. *)
Lemma nak_head opt n s :
  2 <= n -> nak_inv s ->
  match starts opt n (ns_c s) with
  | Good true => Forall byte_ok (cu_p (take_head n (ns_c s))) /\
      n - 2 <= Z.of_nat (length (cu_p (take_head n (ns_c s)))) /\
      0 <= cu_len (take_head n (ns_c s)) <= Z.of_nat (length (cu_p (take_head n (ns_c s)))) - (n - 2)
  | Good false => True
  | _ => False
  end.
Proof.
  intros Hn [Hc _]. pose proof (starts_spec opt n (ns_c s) Hn Hc) as Hs.
  destruct (starts opt n (ns_c s)) as [[]| |]; [|done..]. destruct Hs as (Hle & _ & Hb & Hlen).
  destruct Hc as [_ Hl]. simpl. split_and!; [done|lia|lia|lia].
Qed.

Ltac nak_macro opt n s Hs :=
  pose proof (nak_head opt n s ltac:(done) Hs) as Hh;
  destruct (starts opt n (ns_c s)) as [[]| |]; simpl in *; [|done..];
  destruct Hh as (Hb & Hl & Hc).

Lemma nak_void opt neg mark code : narrows code -> nak_keeps (NAKCIVOID opt neg mark code).
Proof.
  intros Hcode. apply nak_keeps_if. intros s Hs. nak_macro opt CILEN_VOID s Hs.
  apply narrows_inv; [done| |done]. split; simpl; [done|unfold CILEN_VOID in *; lia].
Qed.

Lemma nak_char opt neg mark code :
  (forall v, narrows (code v)) -> nak_keeps (NAKCICHAR opt neg mark code).
Proof.
  intros Hcode. apply nak_keeps_if. intros s Hs. nak_macro opt CILEN_CHAR s Hs.
  unfold CILEN_CHAR in *. destruct (drop 2 (cu_p (ns_c s))) as [|v p]; simpl in *; [lia|].
  decompose_Forall_hyps. apply narrows_inv; [done| |done]. split; simpl; [done|lia].
Qed.

Lemma GETSHORT_within p :
  Forall byte_ok p -> 2 <= Z.of_nat (length p) ->
  exists v p', GETSHORT p = Some (v, p') /\ 0 <= v < 65536 /\ Forall byte_ok p' /\
    Z.of_nat (length p) = Z.of_nat (length p') + 2.
Proof.
  intros Hb Hl. destruct (GETSHORT_spec 0 p) as (v & p' & Hg & Hb' & Hlen & _); [done..|].
  exists v, p'. pose proof (GETSHORT_range _ _ _ Hb Hg). split_and!; (done || lia).
Qed.

Lemma GETLONG_within p :
  Forall byte_ok p -> 4 <= Z.of_nat (length p) ->
  exists v p', GETLONG p = Some (v, p') /\ 0 <= v < 4294967296 /\ Forall byte_ok p' /\
    Z.of_nat (length p) = Z.of_nat (length p') + 4.
Proof.
  intros Hb Hl. open_bytes 4 p Hl. decompose_Forall_hyps. unfold byte_ok in *.
  eexists _, p. split; [reflexivity|]. split; [|split; [done|simpl; lia]].
  rewrite -!Z.lor_assoc (lor_shiftl_add z1); [lia..|]. rewrite (lor_shiftl_add z0); [lia..|].
  rewrite (lor_shiftl_add z); lia.
Qed.

Lemma nak_short opt neg mark code :
  (forall v, 0 <= v < 65536 -> narrows (code v)) -> nak_keeps (NAKCISHORT opt neg mark code).
Proof.
  intros Hcode. apply nak_keeps_if. intros s Hs. nak_macro opt CILEN_SHORT s Hs.
  unfold CILEN_SHORT in *. destruct (GETSHORT_within (drop 2 (cu_p (ns_c s)))) as (v & p' & -> & Hv & Hb' & Hlen);
    [done|lia|]. simpl. apply narrows_inv; [by apply Hcode| |done]. split; simpl; [done|lia].
Qed.

Lemma nak_long opt neg mark code :
  (forall v, 0 <= v < 4294967296 -> narrows (code v)) -> nak_keeps (NAKCILONG opt neg mark code).
Proof.
  intros Hcode. apply nak_keeps_if. intros s Hs. nak_macro opt CILEN_LONG s Hs.
  unfold CILEN_LONG in *. destruct (GETLONG_within (drop 2 (cu_p (ns_c s)))) as (v & p' & -> & Hv & Hb' & Hlen);
    [done|lia|]. simpl. apply narrows_inv; [by apply Hcode| |done]. split; simpl; [done|lia].
Qed.

Lemma nak_lqr opt neg mark code :
  (forall v l, 0 <= l < 4294967296 -> narrows (code v l)) -> nak_keeps (NAKCILQR opt neg mark code).
Proof.
  intros Hcode. apply nak_keeps_if. intros s Hs. nak_macro opt CILEN_LQR s Hs.
  unfold CILEN_LQR in *. destruct (GETSHORT_within (drop 2 (cu_p (ns_c s)))) as (v & p' & -> & Hv & Hb' & Hlen);
    [done|lia|]. simpl. destruct (GETLONG_within p') as (l & p'' & -> & Hlv & Hb'' & Hlen'); [done|lia|].
  simpl. apply narrows_inv; [by apply Hcode| |done]. split; simpl; [done|lia].
Qed.

(** Turning options off narrows; so does any update the record allows. *)
Ltac narrow :=
  intros [[? ? ? ? ?] (? & ? & ? & ? & ?) (? & ? & ? & ? & ? & ? & ? & ? & ?) ? ?];
  split; simpl; [by split|by split_and!|by split_and!|done|auto].

Lemma on_try_inv g s :
  (narrowed go wo (ns_try s) -> narrowed go wo (g (ns_try s))) -> nak_inv s -> nak_inv (on_try g s).
Proof. intros Hg [Hc Hn]. split; [done|by apply Hg]. Qed.

Lemma on_try_narrows g :
  (forall o, narrowed go wo o -> narrowed go wo (g o)) -> narrows (on_try g).
Proof. intros Hg s. split_and!; [done|done|apply Hg]. Qed.

Lemma narrowed_chap_off o : narrowed go wo o -> narrowed go wo (set_neg_chap false o).
Proof. narrow. Qed.
Lemma narrowed_upap_off o : narrowed go wo o -> narrowed go wo (set_neg_upap false o).
Proof. narrow. Qed.

Lemma nak_authtype_keeps : nak_keeps (nak_authtype go).
Proof.
  intros s Hs. unfold nak_authtype. destruct (neg_chap go || neg_upap go); [|done].
  pose proof Hs as [[Hb Hl] Hn]. unfold starts_auth.
  destruct (Z.ltb_spec (cu_len (ns_c s)) CILEN_SHORT) as [|Hle]; [done|].
  unfold CILEN_SHORT in *. destruct (cu_p (ns_c s)) as [|p0 [|cilen p]]; simpl in Hl; [lia|lia|].
  simpl. decompose_Forall_hyps.
  destruct ((p0 =? CI_AUTHTYPE) && (4 <=? cilen) && (cilen <=? cu_len (ns_c s))) eqn:E; [|done].
  bool_props. rewrite drop_0.
  destruct (GETSHORT_within p) as (v & p' & -> & _ & Hb' & Hlen); [done|lia|]. simpl.
  assert (Hadv : forall p'' mark, Forall byte_ok p'' ->
    cu_len (ns_c s) - cilen <= Z.of_nat (length p'') ->
    nak_inv (ns_advance (Cursor p'' (cu_len (ns_c s) - cilen)) mark s)).
  { intros p'' mark ? ?. split; [|done]. split; simpl; [done|lia]. }
  destruct ((v =? PPP_PAP) && (cilen =? 4)) eqn:E1; bool_props.
  { destruct (neg_chap go); simpl; [|done].
    apply on_try_inv; [apply narrowed_chap_off|]. apply Hadv; [done|lia]. }
  destruct ((v =? PPP_CHAP) && (cilen =? CILEN_CHAP)) eqn:E2; bool_props.
  { unfold CILEN_CHAP in *. destruct p' as [|d p']; simpl in *; [lia|]. decompose_Forall_hyps.
    specialize (Hadv p'). destruct (neg_chap go); [destruct (d =? chap_mdtype go)|].
    - apply Hadv; [done|lia].
    - apply on_try_inv; [apply narrowed_chap_off|]. apply Hadv; [done|lia].
    - apply on_try_inv; [apply narrowed_upap_off|]. apply Hadv; [done|lia]. }
  apply on_try_inv.
  - destruct (neg_chap go); [apply narrowed_chap_off|apply narrowed_upap_off].
  - apply Hadv; [by apply Forall_drop|]. rewrite length_drop. lia.
Qed.

Lemma nak_requested_keeps : nak_keeps (nak_requested magic go wo).
Proof.
  unfold nak_requested. repeat apply nak_keeps_bind.
  - apply nak_keeps_if, nak_short. intros v Hv s. destruct ((v <=? mru wo) || (v <=? DEFMRU)) eqn:E; [|done].
    apply on_try_narrows. intros o.
    intros [[? ? ? ? ?] Hsame Hneg ? ?]. split; [by split|done|done|done|].
    right. simpl. apply orb_true_iff in E as [E|E]; bool_props; auto.
  - apply nak_keeps_if, nak_long. intros v Hv. apply on_try_narrows. intros o.
    intros [[? ? ? ? ?] Hsame Hneg ? ?]. split; [split|done|done| |done]; simpl; try done.
    + destruct Hgo. split; [destruct Hgo; apply Z.lor_nonneg; lia|]. 
      destruct (decide (Z.lor (asyncmap go) v = 0)) as [->|]; [done|].
      change 4294967296 with (2 ^ 32). apply Z.log2_lt_pow2.
      { assert (0 <= Z.lor (asyncmap go) v) by (apply Z.lor_nonneg; lia). lia. }
      rewrite Z.log2_lor; [lia..|]. apply Z.max_lub_lt.
      * destruct (decide (asyncmap go = 0)) as [->|]; [done|]. apply Z.log2_lt_pow2; lia.
      * destruct (decide (v = 0)) as [->|]; [done|]. apply Z.log2_lt_pow2; lia.
    + by rewrite Z.lor_assoc Z.lor_diag.
  - apply nak_authtype_keeps.
  - apply nak_lqr. intros v l Hlv. destruct (v =? PPP_LQR); apply on_try_narrows; intros o; narrow.
  - apply nak_char. intros v. apply on_try_narrows. intros o. narrow.
  - apply nak_long. intros v Hv s. split_and!; [done|done|]. simpl. pose proof (Hmagic (ns_seed s)). narrow.
  - apply nak_void. apply on_try_narrows. intros o. narrow.
  - apply nak_void. apply on_try_narrows. intros o. narrow.
Qed.

(** A pass of the loop takes at least two bytes. *)
Lemma nak_extra_keeps s :
  nak_inv s -> CILEN_VOID < cu_len (ns_c s) ->
  match nak_extra go s with
  | Good s' => nak_inv s' /\ cu_len (ns_c s') <= cu_len (ns_c s) - 2
  | Bad => True
  | Oob => False
  end.
Proof.
  intros [[Hb Hl] Hn] Hlt. unfold nak_extra, CILEN_VOID in *.
  destruct (cu_p (ns_c s)) as [|citype [|cilen p]]; simpl in *; [lia|lia|]. decompose_Forall_hyps.
  destruct (Z.ltb_spec cilen 2); simpl; [done|].
  destruct (Z.ltb_spec (cu_len (ns_c s) - cilen) 0); simpl; [done|].
  set (s' := NakState _ _ _ _ _).
  assert (Hs' : nak_inv s' /\ cu_len (ns_c s') <= cu_len (ns_c s) - 2).
  { split; [|simpl; lia]. split; [|done]. split; simpl; [by apply Forall_drop|]. rewrite length_drop. lia. }
  unfold unless_bad.
  destruct (citype =? CI_MRU).
  { destruct (negb _) eqn:E; [|done]. bool_props. unfold CILEN_SHORT in *.
    destruct (GETSHORT_within p) as (v & p' & -> & Hv & _ & _); [done|lia|]. simpl.
    destruct (Z.ltb_spec v DEFMRU); [|done]. destruct Hs' as [Hi ?]. split; [|done].
    apply on_try_inv; [|done]. intros [[? ? ? ? ?] Hsame Hneg ? ?].
    split; [by split|done|done|done|]. right. right. simpl. lia. }
  repeat match goal with |- context [if ?b then _ else _] => destruct b; [|done || idtac] end; done.
Qed.

Lemma nak_loop_keeps fuel s :
  nak_inv s -> cu_len (ns_c s) <= Z.of_nat fuel ->
  match nak_loop go fuel s with
  | Good s' => nak_inv s' /\ cu_len (ns_c s') <= CILEN_VOID
  | Bad => True
  | Oob => False
  end.
Proof.
  revert s. induction fuel as [|fuel IH]; intros s Hs Hf; simpl.
  { unfold CILEN_VOID. split; [done|lia]. }
  destruct (Z.ltb_spec CILEN_VOID (cu_len (ns_c s))) as [Hlt|]; [|done].
  pose proof (nak_extra_keeps s Hs Hlt) as He. destruct (nak_extra go s) as [s'| |]; simpl; [|done..].
  destruct He as [Hs' Hle]. apply IH; [done|lia].
Qed.
End Naks.

(** A Nak only narrows our request.  Whatever the peer sends, the parser
    stays inside the packet and its loop consumes it; and what it proposes to
    ask for next has no option our request did not have, no authentication it
    did not offer, an async map that keeps our characters, and an MRU that is
    the old one or at most the larger of the wanted and the default one. *)
Theorem lcp_nakci_narrows magic go wo seed p len :
  (forall n, 0 <= magic n < 4294967296) -> options_ok go ->
  Forall byte_ok p -> 0 <= len <= Z.of_nat (length p) ->
  match nakci_parse magic go wo seed p len with
  | Good s => narrowed go wo (ns_try s) /\ cu_len (ns_c s) <= CILEN_VOID
  | Bad => True
  | Oob => False
  end.
Proof.
  intros Hm Hgo Hb Hl. unfold nakci_parse.
  pose proof (nak_requested_keeps magic Hm go wo Hgo (NakState (Cursor p len) no_options go false seed)) as Hr.
  destruct (nak_requested _ _ _ _) as [s| |]; simpl.
  - assert (Hs : nak_inv go wo s) by (apply Hr; split; [done|by apply narrowed_refl]).
    pose proof (nak_loop_keeps go wo (Z.to_nat (cu_len (ns_c s))) s Hs) as Hlp.
    destruct Hs as [[_ Hc] _]. specialize (Hlp ltac:(lia)).
    destruct (nak_loop _ _ _); [|done..]. by destruct Hlp as [[_ ?] ?].
  - done.
  - apply Hr. split; [done|by apply narrowed_refl].
Qed.
