(* ===== verification/LcpAuthtype.v ===== *)
(** * LCP options: CHAP is not asked of the peer

    No answer of the peer adds the authentication type CHAP to the options the
    daemon asks for, whatever the packet holds. *)

From S2P Require Import Prelude Wire LcpOptions.

Lemma bind_Good {A B} (m : parse A) (k : A -> parse B) b :
  m ≫= k = Good b -> exists a, m = Good a /\ k a = Good b.
Proof. destruct m as [a| |]; [|done..]. intros Hk. by exists a. Qed.

Ltac bind_inv H :=
  let a := fresh "a" in let E := fresh "E" in apply bind_Good in H as (a & E & H).

(** Invert a parser down to its result. *)
Ltac parsed H :=
  repeat first
    [ progress simplify_eq/=
    | match type of H with
      | _ ≫= _ = Good _ => bind_inv H
      | (let '(_, _) := ?x in _) = Good _ => destruct x
      | (if ?b then _ else _) = Good _ => destruct b
      | unless_bad ?b _ = Good _ => destruct b
      end ].

(** ** Rejects *)

(** A step of the parser that keeps CHAP off. *)
Definition rej_quiet (f : cursor * lcp_options -> parse (cursor * lcp_options)) : Prop :=
  forall st st', f st = Good st' -> neg_chap st.2 = false -> neg_chap st'.2 = false.

Definition quiet_clear (clear : lcp_options -> lcp_options) : Prop :=
  forall o, neg_chap o = false -> neg_chap (clear o) = false.

Lemma rej_void opt neg clear : quiet_clear clear -> rej_quiet (REJCIVOID opt neg clear).
Proof. intros Hc [c o] st' H Hn. unfold REJCIVOID in H. parsed H; auto. Qed.
Lemma rej_short opt neg val clear : quiet_clear clear -> rej_quiet (REJCISHORT opt neg val clear).
Proof. intros Hc [c o] st' H Hn. unfold REJCISHORT in H. parsed H; auto. Qed.
Lemma rej_long opt neg val clear : quiet_clear clear -> rej_quiet (REJCILONG opt neg val clear).
Proof. intros Hc [c o] st' H Hn. unfold REJCILONG in H. parsed H; auto. Qed.
Lemma rej_chap opt neg val dig clear : quiet_clear clear -> rej_quiet (REJCICHAP opt neg val dig clear).
Proof. intros Hc [c o] st' H Hn. unfold REJCICHAP in H. parsed H; auto. Qed.
Lemma rej_lqr opt neg val clear : quiet_clear clear -> rej_quiet (REJCILQR opt neg val clear).
Proof. intros Hc [c o] st' H Hn. unfold REJCILQR in H. parsed H; auto. Qed.
Lemma rej_cbcp opt neg val clear : quiet_clear clear -> rej_quiet (REJCICBCP opt neg val clear).
Proof. intros Hc [c o] st' H Hn. unfold REJCICBCP in H. parsed H; auto. Qed.

(** One more step of the chain [H], from a state without CHAP ([Hn]). *)
Ltac rej_step lem H Hn :=
  let st := fresh "st" in let E := fresh "E" in
  apply bind_Good in H as (st & E & H);
  let Hn' := fresh in
  assert (Hn' : neg_chap st.2 = false) by (eapply lem; [|exact E|exact Hn]; by intros o);
  clear E Hn; rename Hn' into Hn.

Lemma rejci_no_chap go p len try :
  lcp_rejci go p len = Good try -> neg_chap go = false -> neg_chap try = false.
Proof.
  intros H Hn. unfold lcp_rejci in H.
  rej_step rej_short H Hn. rej_step rej_long H Hn. rej_step rej_chap H Hn.
  apply bind_Good in H as (s4 & E4 & H).
  assert (H4 : neg_chap s4.2 = false).
  { destruct (negb _); [|by simplify_eq]. eapply rej_short; [|exact E4|exact Hn]. by intros o. }
  rej_step rej_lqr H H4. rej_step rej_cbcp H H4. rej_step rej_long H H4.
  rej_step rej_void H H4. rej_step rej_void H H4.
  destruct (_ =? 0); [|done]. by simplify_eq/=.
Qed.

(** ** Naks *)

Definition nak_quiet (f : nak_state -> parse nak_state) : Prop :=
  forall s s', f s = Good s' -> neg_chap (ns_try s) = false -> neg_chap (ns_try s') = false.

Definition quiet_code (code : nak_state -> nak_state) : Prop :=
  forall s, neg_chap (ns_try s) = false -> neg_chap (ns_try (code s)) = false.

Lemma nak_quiet_bind f g : nak_quiet f -> nak_quiet g -> nak_quiet (fun s => s ← f s; g s).
Proof. intros Hf Hg s s' H Hn. bind_inv H. eauto. Qed.

Lemma nak_quiet_if (b : bool) f : nak_quiet f -> nak_quiet (fun s => if b then f s else Good s).
Proof. intros Hf s s' H Hn. destruct b; [by eapply Hf|by simplify_eq]. Qed.

Lemma quiet_void opt neg mark code : quiet_code code -> nak_quiet (NAKCIVOID opt neg mark code).
Proof. intros Hc s s' H Hn. unfold NAKCIVOID in H. parsed H; auto. Qed.
Lemma quiet_char opt neg mark code :
  (forall v, quiet_code (code v)) -> nak_quiet (NAKCICHAR opt neg mark code).
Proof. intros Hc s s' H Hn. unfold NAKCICHAR in H. parsed H; try done; by apply Hc. Qed.
Lemma quiet_short opt neg mark code :
  (forall v, quiet_code (code v)) -> nak_quiet (NAKCISHORT opt neg mark code).
Proof. intros Hc s s' H Hn. unfold NAKCISHORT in H. parsed H; try done; by apply Hc. Qed.
Lemma quiet_long opt neg mark code :
  (forall v, quiet_code (code v)) -> nak_quiet (NAKCILONG opt neg mark code).
Proof. intros Hc s s' H Hn. unfold NAKCILONG in H. parsed H; try done; by apply Hc. Qed.
Lemma quiet_lqr opt neg mark code :
  (forall v v', quiet_code (code v v')) -> nak_quiet (NAKCILQR opt neg mark code).
Proof. intros Hc s s' H Hn. unfold NAKCILQR in H. parsed H; try done; by apply Hc. Qed.

Lemma quiet_authtype go : nak_quiet (nak_authtype go).
Proof. intros s s' H Hn. unfold nak_authtype in H. parsed H; try done; by case_tests. Qed.

Lemma quiet_extra go : nak_quiet (nak_extra go).
Proof. intros s s' H Hn. unfold nak_extra in H. parsed H; try done; by case_tests. Qed.

Lemma quiet_loop go fuel : nak_quiet (nak_loop go fuel).
Proof.
  induction fuel as [|fuel IH]; intros s s' H Hn; simpl in H; [by simplify_eq|].
  destruct (_ <? _); [|by simplify_eq]. bind_inv H. eapply IH; [exact H|]. by eapply quiet_extra.
Qed.

Lemma quiet_requested magic go wo : nak_quiet (nak_requested magic go wo).
Proof.
  unfold nak_requested.
  apply nak_quiet_bind; [apply nak_quiet_if, quiet_short; intros v s ?; by case_tests|].
  apply nak_quiet_bind; [apply nak_quiet_if, quiet_long; by intros v s|].
  apply nak_quiet_bind; [apply quiet_authtype|].
  apply nak_quiet_bind; [apply quiet_lqr; intros v v' s ?; by case_tests|].
  apply nak_quiet_bind; [apply quiet_char; by intros v s|].
  apply nak_quiet_bind; [apply quiet_long; by intros v s|].
  apply nak_quiet_bind; [apply quiet_void; by intros s|apply quiet_void; by intros s].
Qed.

Lemma nakci_no_chap magic go wo seed p len ns :
  nakci_parse magic go wo seed p len = Good ns -> neg_chap go = false -> neg_chap (ns_try ns) = false.
Proof.
  intros H Hn. unfold nakci_parse in H. bind_inv H.
  eapply quiet_loop; [exact H|]. by eapply quiet_requested.
Qed.
