(* ===== verification/LcpReqciSpec.v ===== *)
(** * LCP options: theorems on the peer's request

    [lcp_reqci] against a reference that judges the options one after the other
    and never touches the packet: the verdict is the worst of the judgements,
    an Ack returns the request, a Reject the rejected options, a Nak the
    counter-proposals.  What is recorded of the peer respects what we allow.
    The Nak buffer holds the answer to requests of up to 1200 bytes, and not
    more. *)

From S2P Require Import Prelude Wire Fsm LcpOptions LcpOptionsSpec LcpReqci.

(** ** The reference *)

(** The judgement on one option: the verdict, the option's bytes, the
    counter-proposal. *)
Record judgement := Judgement { j_type : Z; j_code : Z; j_bytes : bytes; j_nak : bytes }.

(** After too many Naks the daemon rejects instead, save for magic numbers. *)
Definition harden (reject_if_disagree : bool) (citype orc : Z) : Z :=
  if (orc =? CONFNAK) && reject_if_disagree && negb (citype =? CI_MAGICNUMBER) then CONFREJ else orc.

Section Reference.
Context (magic : nat -> Z) (ao go : lcp_options) (reject_if_disagree : bool).

(** An option list that does not parse is one option to reject. *)
Fixpoint judge (fuel : nat) (rest : bytes) (l : Z) (ho : lcp_options) (seed : nat)
    : parse (list judgement * lcp_options * nat) :=
  match fuel with
  | O => Good ([], ho, seed)
  | S fuel' =>
      if l =? 0 then Good ([], ho, seed)
      else
        let bad := Good ([Judgement 0 CONFREJ (take (Z.to_nat l) rest) []], ho, seed) in
        if l <? 2 then bad else
        match rest with
        | citype :: cilen :: p =>
            if (cilen <? 2) || (l <? cilen) then bad else
            r ← ci_switch magic ao go citype cilen p ho seed;
            '(js, ho, seed) ← judge fuel' (drop (Z.to_nat cilen) rest) (l - cilen) (ci_ho r) (ci_seed r);
            Good (Judgement citype (harden reject_if_disagree citype (ci_orc r))
                    (take (Z.to_nat cilen) rest) (ci_nak r) :: js, ho, seed)
        | _ => Oob
        end
  end.
End Reference.

(** The worst verdict: a Reject beats a Nak, a Nak beats an Ack. *)
Definition worse (a b : Z) : Z :=
  if (a =? CONFREJ) || (b =? CONFREJ) then CONFREJ
  else if (a =? CONFNAK) || (b =? CONFNAK) then CONFNAK else CONFACK.

Definition verdict (js : list judgement) : Z := foldr (fun j => worse (j_code j)) CONFACK js.

Definition rejected (js : list judgement) : bytes :=
  concat (map j_bytes (filter (fun j => j_code j = CONFREJ) js)).

Definition proposals (js : list judgement) : bytes := concat (map j_nak js).

Definition reply (js : list judgement) (request : bytes) : bytes :=
  if verdict js =? CONFACK then request
  else if verdict js =? CONFNAK then proposals js else rejected js.

(** ** Verdicts *)

Definition is_verdict (c : Z) : Prop := c = CONFACK \/ c = CONFNAK \/ c = CONFREJ.

Lemma ci_switch_spec magic ao go citype cilen p ho seed :
  Forall byte_ok p -> 2 <= cilen -> cilen - 2 <= Z.of_nat (length p) ->
  exists r, ci_switch magic ao go citype cilen p ho seed = Good r /\ is_verdict (ci_orc r).
Proof.
  intros Hb Hc Hl. unfold ci_switch, is_verdict.
  assert (Hs : 4 <= cilen -> exists v p', GETSHORT p = Some (v, p') /\ Forall byte_ok p' /\
            Z.of_nat (length p) = Z.of_nat (length p') + 2).
  { intros ?. destruct (GETSHORT_within p) as (v & p' & ? & _ & ? & ?); [done|lia|eauto]. }
  assert (Hlg : 6 <= cilen -> exists v p', GETLONG p = Some (v, p')).
  { intros ?. destruct (GETLONG_within p) as (v & p' & ? & _); [done|lia|eauto]. }
  destruct (citype =? CI_MRU).
  { unfold ci_mru. destruct (negb _ || _) eqn:E; bool_props; [eauto 6|]. unfold CILEN_SHORT in *.
    destruct Hs as (v & p' & -> & _); [lia|]. simpl. destruct (_ <? _); eexists; simpl; eauto. }
  destruct (citype =? CI_ASYNCMAP).
  { unfold ci_asyncmap. destruct (negb _ || _) eqn:E; bool_props; [eauto 6|]. unfold CILEN_LONG in *.
    destruct Hlg as (v & p' & ->); [lia|]. simpl. destruct (negb _); eexists; simpl; eauto. }
  destruct (citype =? CI_AUTHTYPE).
  { unfold ci_authtype. destruct ((cilen <? CILEN_SHORT) || _) eqn:E; bool_props; [eauto 6|].
    unfold CILEN_SHORT in *. destruct Hs as (v & p' & -> & Hb' & Hlen); [lia|]. simpl.
    destruct (v =? PPP_PAP).
    { unfold ci_pap. destruct (_ || _); [eauto 6|]. destruct (negb _); eauto 6. }
    destruct (v =? PPP_CHAP); [|eauto 6].
    unfold ci_chap. destruct (neg_upap ho || _) eqn:E'; bool_props; [eauto 6|].
    destruct (negb (neg_chap ao)); [eauto 6|]. unfold CILEN_CHAP in *.
    destruct p' as [|d p']; [simpl in Hlen; lia|]. simpl. destruct (negb _); eauto 6. }
  destruct (citype =? CI_QUALITY).
  { unfold ci_quality. destruct (negb _ || _) eqn:E; bool_props; [eauto 6|]. unfold CILEN_LQR in *.
    destruct Hs as (v & p' & -> & Hb' & Hlen); [lia|]. simpl.
    destruct (GETLONG_within p') as (l & p'' & -> & _); [done|lia|]. simpl. destruct (negb _); eauto 6. }
  destruct (citype =? CI_MAGICNUMBER).
  { unfold ci_magicnumber. destruct (negb _ || _) eqn:E; bool_props; [eauto 6|]. unfold CILEN_LONG in *.
    destruct Hlg as (v & p' & ->); [lia|]. simpl. destruct (_ && _); eauto 6. }
  destruct (citype =? CI_PCOMPRESSION); [unfold ci_void; destruct (_ || _); eauto 6|].
  destruct (citype =? CI_ACCOMPRESSION); [unfold ci_void; destruct (_ || _); eauto 6|]. eauto 6.
Qed.

(** An option is rejected [gap] bytes behind the place it is moved to, and is
    longer than that. *)
Definition moves_onto (gap : nat) (code : Z) (n : nat) : bool :=
  bool_decide (code = CONFREJ) && (0 <? gap)%nat && (gap <? n)%nat.

(** Some rejected option is: [gap] is the length of the options before it that
    were not rejected. *)
Fixpoint copies_overlap (gap : nat) (js : list judgement) : bool :=
  match js with
  | [] => false
  | j :: js =>
      let n := length (j_bytes j) in
      moves_onto gap (j_code j) n || copies_overlap (if decide (j_code j = CONFREJ) then gap else gap + n)%nat js
  end.

(** ** The loop against the reference *)

Lemma BCOPY_spec buf cip rejp n :
  (rejp <= cip)%nat -> (cip + n <= length buf)%nat ->
  length (BCOPY buf cip rejp n) = length buf /\
  take (rejp + n) (BCOPY buf cip rejp n) = take rejp buf ++ take n (drop cip buf) /\
  drop (cip + n) (BCOPY buf cip rejp n) = drop (cip + n) buf.
Proof.
  intros Hle Hlen. unfold BCOPY.
  assert (Hr : length (take rejp buf) = rejp) by (rewrite length_take; lia).
  assert (Hn : length (take n (drop cip buf)) = n) by (rewrite length_take length_drop; lia).
  split_and!.
  - rewrite !length_app Hr Hn length_drop. lia.
  - rewrite app_assoc take_app_length' //. rewrite length_app Hr Hn. lia.
  - rewrite app_assoc drop_app_ge; [rewrite length_app Hr Hn; lia|].
    rewrite length_app Hr Hn drop_drop. f_equal. lia.
Qed.

(** The state of the loop, next to the rejected options so far. *)
Definition in_step (st : req_state) (rejd : bytes) : Prop :=
  take (rq_rejp st) (rq_buf st) = rejd /\ (rq_rejp st <= rq_next st <= length (rq_buf st))%nat /\
  Forall byte_ok (drop (rq_next st) (rq_buf st)) /\
  0 <= rq_l st <= Z.of_nat (length (drop (rq_next st) (rq_buf st))) /\ is_verdict (rq_rc st).

(** What the tail of the loop body does with a verdict. *)
Lemma endswitch_spec rid citype cilen cip orc st :
  is_verdict orc -> is_verdict (rq_rc st) ->
  (rq_rejp st <= cip)%nat -> 0 <= cilen -> (cip + Z.to_nat cilen <= length (rq_buf st))%nat ->
  let st' := endswitch rid citype cilen cip orc st in
  let code := harden rid citype orc in
  rq_next st' = rq_next st /\ rq_nak st' = rq_nak st /\ rq_ho st' = rq_ho st /\ rq_l st' = rq_l st /\
  rq_seed st' = rq_seed st /\ rq_rc st' = worse (rq_rc st) code /\ length (rq_buf st') = length (rq_buf st) /\
  drop (cip + Z.to_nat cilen) (rq_buf st') = drop (cip + Z.to_nat cilen) (rq_buf st) /\
  rq_overlap st' = rq_overlap st || moves_onto (cip - rq_rejp st) code (Z.to_nat cilen) /\
  if decide (code = CONFREJ)
  then rq_rejp st' = (rq_rejp st + Z.to_nat cilen)%nat /\
       take (rq_rejp st') (rq_buf st')
       = take (rq_rejp st) (rq_buf st) ++ take (Z.to_nat cilen) (drop cip (rq_buf st))
  else rq_rejp st' = rq_rejp st /\ rq_buf st' = rq_buf st.
Proof.
  intros Ho Hr Hle H0 Hlen. unfold endswitch, harden. set (tough := (orc =? CONFNAK) && rid && _).
  assert (Htough : tough = true -> orc = CONFNAK).
  { unfold tough. intros ?. by bool_props. }
  destruct (BCOPY_spec (rq_buf st) cip (rq_rejp st) (Z.to_nat cilen)) as (Hm1 & Hm2 & Hm3); [done..|].
  assert (Hmv : let buf := if decide (cip = rq_rejp st) then rq_buf st
                           else BCOPY (rq_buf st) cip (rq_rejp st) (Z.to_nat cilen) in
    length buf = length (rq_buf st) /\
    drop (cip + Z.to_nat cilen) buf = drop (cip + Z.to_nat cilen) (rq_buf st) /\
    take (rq_rejp st + Z.to_nat cilen) buf
      = take (rq_rejp st) (rq_buf st) ++ take (Z.to_nat cilen) (drop cip (rq_buf st))).
  { case_decide as E; [|done]. subst cip. split_and!; [done..|].
    by rewrite -{1}(take_drop (rq_rejp st) (rq_buf st)) take_app_add' // length_take; lia. }
  cbn zeta in Hmv. destruct Hmv as (Hb1 & Hb2 & Hb3).
  assert (Hov : (if decide (cip = rq_rejp st) then false else overlap cip (rq_rejp st) (Z.to_nat cilen))
                = moves_onto (cip - rq_rejp st) CONFREJ (Z.to_nat cilen)).
  { unfold overlap, moves_onto. rewrite bool_decide_true //. case_decide as E.
    - rewrite E Nat.sub_diag. done.
    - apply eq_true_iff_eq. rewrite !andb_true_iff !Nat.ltb_lt. split; [intros ?; split_and!; try done; lia|intros [[_ ?] ?]; lia]. }
  destruct tough; [rewrite Htough // in Ho |- *|].
  - destruct Hr as [->|[->| ->]]; simpl; rewrite Hov; split_and!; done.
  - destruct Ho as [->|[->| ->]], Hr as [Hr|[Hr|Hr]]; rewrite Hr; simpl; rewrite ?Hov; split_and!;
      first [done | by rewrite /moves_onto /= orb_false_r].
Qed.

Lemma worse_assoc a b c :
  is_verdict a -> is_verdict b -> is_verdict c -> worse (worse a b) c = worse a (worse b c).
Proof. by intros [->|[->| ->]] [->|[->| ->]] [->|[->| ->]]. Qed.

Lemma is_verdict_worse a b : is_verdict (worse a b).
Proof. unfold worse, is_verdict. case_tests; auto. Qed.

Lemma is_verdict_fold js : is_verdict (verdict js).
Proof. destruct js; simpl; [by left|apply is_verdict_worse]. Qed.

Lemma is_verdict_harden rid ty c : is_verdict c -> is_verdict (harden rid ty c).
Proof. unfold harden, is_verdict. case_tests; auto. Qed.

Lemma rejected_cons j js :
  rejected (j :: js) = (if decide (j_code j = CONFREJ) then j_bytes j else []) ++ rejected js.
Proof. unfold rejected. rewrite filter_cons. by case_decide. Qed.

Lemma worse_rej a b : worse (worse a CONFREJ) b = CONFREJ.
Proof. unfold worse. by rewrite orb_true_r. Qed.

Section Loop.
Context (magic : nat -> Z) (ao go : lcp_options) (rid : bool).

(** The end of a run that has judged [js] since [st]. *)
Definition run_ends (st st' : req_state) (rejd : bytes) (js : list judgement) (ho : lcp_options) (seed : nat)
    : Prop :=
  rq_ho st' = ho /\ rq_seed st' = seed /\ rq_rc st' = worse (rq_rc st) (verdict js) /\
  rq_nak st' = rq_nak st ++ proposals js /\ take (rq_rejp st') (rq_buf st') = rejd ++ rejected js /\
  length (rq_buf st') = length (rq_buf st) /\ (rq_rejp st' <= length (rq_buf st'))%nat /\
  (rq_rc st' = CONFACK ->
     rq_buf st' = rq_buf st /\ rq_next st' = (rq_next st + Z.to_nat (rq_l st))%nat) /\
  concat (map j_bytes js) = take (Z.to_nat (rq_l st)) (drop (rq_next st) (rq_buf st)) /\
  rq_overlap st' = rq_overlap st || copies_overlap (rq_next st - rq_rejp st) js.

Lemma run_ends_refl st rejd :
  take (rq_rejp st) (rq_buf st) = rejd -> (rq_rejp st <= length (rq_buf st))%nat ->
  is_verdict (rq_rc st) -> rq_l st = 0 -> run_ends st st rejd [] (rq_ho st) (rq_seed st).
Proof.
  intros Ht Hle Hr H0. unfold run_ends, proposals, rejected. simpl.
  rewrite H0 !app_nil_r. change (Z.to_nat 0) with 0%nat. rewrite Nat.add_0_r.
  split_and!; try done; [by destruct Hr as [->|[->| ->]]|by rewrite orb_false_r].
Qed.

(** One option followed by the rest of the run. *)
Lemma run_ends_cons st st1 st' rejd j js ho seed n :
  in_step st rejd -> is_verdict (j_code j) -> (Z.of_nat n <= rq_l st) ->
  j_bytes j = take n (drop (rq_next st) (rq_buf st)) ->
  rq_rc st1 = worse (rq_rc st) (j_code j) -> rq_nak st1 = rq_nak st ++ j_nak j ->
  length (rq_buf st1) = length (rq_buf st) ->
  drop (rq_next st + n) (rq_buf st1) = drop (rq_next st + n) (rq_buf st) ->
  (if decide (j_code j = CONFREJ) then True
   else rq_buf st1 = rq_buf st) ->
  (js = [] /\ rq_l st1 = 0 /\ j_code j = CONFREJ /\ Z.of_nat n = rq_l st
   \/ rq_next st1 = (rq_next st + n)%nat /\ rq_l st1 = rq_l st - Z.of_nat n /\
      rq_rejp st1 = (if decide (j_code j = CONFREJ) then rq_rejp st + n else rq_rejp st)%nat) ->
  rq_overlap st1 = rq_overlap st || moves_onto (rq_next st - rq_rejp st) (j_code j) n ->
  run_ends st1 st' (rejd ++ (if decide (j_code j = CONFREJ) then j_bytes j else [])) js ho seed ->
  run_ends st st' rejd (j :: js) ho seed.
Proof.
  intros (Ht & Hle & Hb & Hl & Hr) Hj Hn Hjb Hrc Hnak Hlen Hdrop Hbuf Hnext Hov
    (Hho & Hseed & Hrc' & Hnak' & Hrej' & Hlen' & Hrejp' & Hack & Hcat & Hov').
  unfold run_ends. split_and!; try done.
  - rewrite Hrc' Hrc. simpl. apply worse_assoc; [done|done|apply is_verdict_fold].
  - by rewrite Hnak' Hnak /proposals /= app_assoc.
  - by rewrite Hrej' rejected_cons app_assoc.
  - congruence.
  - intros Ha. destruct (Hack Ha) as [Hb' Hn']. rewrite Hrc' Hrc in Ha.
    destruct (decide (j_code j = CONFREJ)) as [Ej|Ej].
    { rewrite Ej worse_rej in Ha. done. }
    destruct Hnext as [(_ & _ & ? & _)|(Hn1 & Hl1 & _)]; [done|].
    split; [congruence|]. rewrite Hn' Hn1 Hl1. lia.
  - simpl. rewrite Hcat Hjb. destruct Hnext as [(-> & Hl1 & _ & Heq)|(Hn1 & Hl1 & _)].
    + rewrite Hl1. change (Z.to_nat 0) with 0%nat. simpl. rewrite app_nil_r. f_equal. lia.
    + rewrite Hn1 Hl1 Hdrop -drop_drop take_take_drop. f_equal. lia.
  - assert (Hjl : length (j_bytes j) = n) by (rewrite Hjb length_take; lia).
    rewrite Hov' Hov -orb_assoc. cbn [copies_overlap]. rewrite Hjl. do 2 f_equal.
    destruct Hnext as [(-> & _)|(Hn1 & _ & Hr1)]; [done|]. rewrite Hn1 Hr1. f_equal.
    case_decide; lia.
Qed.

(** An option list that does not parse ends the run. *)
Lemma loop_bad_ci fuel st rejd :
  in_step st rejd ->
  exists st', reqci_loop magic ao go rid fuel
      (endswitch rid 0 (rq_l st) (rq_next st) CONFREJ
         (ReqState (rq_buf st) (rq_next st) (rq_rejp st) (rq_nak st) (rq_ho st) (rq_rc st) 0 (rq_seed st)
            (rq_overlap st)))
      = Good st' /\
    run_ends st st' rejd [Judgement 0 CONFREJ (take (Z.to_nat (rq_l st)) (drop (rq_next st) (rq_buf st))) []]
      (rq_ho st) (rq_seed st).
Proof.
  intros Hst. pose proof Hst as (Ht & Hle & Hb & Hl & Hr). rewrite length_drop in Hl.
  set (st0 := ReqState _ _ _ _ _ _ 0 _ _).
  destruct (endswitch_spec rid 0 (rq_l st) (rq_next st) CONFREJ st0) as
    (Hn & Hk & Hh & Hl0 & Hs & Hrc & Hlen & Hdr & Hov & Hc); [by right; right|exact Hr|simpl; lia|lia|simpl; lia|].
  set (st1 := endswitch _ _ _ _ _ st0) in *. clearbody st1. simpl in Hn, Hk, Hh, Hl0, Hs, Hrc, Hlen, Hdr, Hov.
  destruct (decide _) as [_|Hne]; [|by destruct Hne]. destruct Hc as [Hp Htk]. simpl in Hp, Htk.
  exists st1. split; [destruct fuel; simpl; by rewrite ?Hl0|].
  apply (run_ends_cons st st1 st1 rejd _ [] _ _ (Z.to_nat (rq_l st))); simpl; try done.
  - by right; right.
  - lia.
  - by rewrite app_nil_r.
  - left. split_and!; [done|done|done|lia].
  - rewrite -Hh -Hs. apply run_ends_refl; [by rewrite Htk Ht|lia| |done].
    rewrite Hrc. apply is_verdict_worse.
Qed.

(** The state after an option that parses is in step again. *)
Lemma in_step_next st st1 rejd cilen code :
  in_step st rejd -> 0 <= cilen <= rq_l st ->
  rq_next st1 = (rq_next st + Z.to_nat cilen)%nat -> rq_l st1 = rq_l st - cilen ->
  rq_rc st1 = worse (rq_rc st) code -> length (rq_buf st1) = length (rq_buf st) ->
  drop (rq_next st1) (rq_buf st1) = drop (rq_next st1) (rq_buf st) ->
  (if decide (code = CONFREJ)
   then rq_rejp st1 = (rq_rejp st + Z.to_nat cilen)%nat /\
        take (rq_rejp st1) (rq_buf st1)
        = take (rq_rejp st) (rq_buf st) ++ take (Z.to_nat cilen) (drop (rq_next st) (rq_buf st))
   else rq_rejp st1 = rq_rejp st /\ rq_buf st1 = rq_buf st) ->
  in_step st1 (rejd ++ if decide (code = CONFREJ)
                       then take (Z.to_nat cilen) (drop (rq_next st) (rq_buf st)) else []).
Proof.
  intros (Ht & Hle & Hb & Hl & Hr) Hc Hn Hl1 Hrc Hlen Hdr Hrej.
  rewrite length_drop in Hl. unfold in_step. rewrite Hdr.
  assert (Hfull : rq_next st1 = (rq_next st + Z.to_nat cilen)%nat) by done.
  split; [|split_and!].
  - destruct (decide _); [destruct Hrej as [_ ->]; by rewrite Ht|].
    destruct Hrej as [-> ->]. by rewrite app_nil_r.
  - destruct (decide _); destruct Hrej as [-> _]; lia.
  - rewrite Hlen Hn. lia.
  - rewrite Hn -drop_drop. by apply Forall_drop.
  - lia.
  - rewrite length_drop. lia.
  - rewrite Hrc. apply is_verdict_worse.
Qed.

Lemma loop_judges fuel st rejd :
  in_step st rejd -> rq_l st <= Z.of_nat fuel ->
  exists js ho seed st',
    judge magic ao go rid fuel (drop (rq_next st) (rq_buf st)) (rq_l st) (rq_ho st) (rq_seed st)
      = Good (js, ho, seed) /\
    reqci_loop magic ao go rid fuel st = Good st' /\ run_ends st st' rejd js ho seed.
Proof.
  revert st rejd. induction fuel as [|fuel IH]; intros st rejd Hst Hf; simpl;
    pose proof Hst as (Ht & Hle & Hb & Hl & Hr).
  { eexists _, _, _, _. split_and!; [done|done|]. apply run_ends_refl; [done|lia|done|lia]. }
  destruct (Z.eqb_spec (rq_l st) 0) as [E0|E0].
  { eexists _, _, _, _. split_and!; [done|done|]. apply run_ends_refl; [done|lia|done|done]. }
  destruct (loop_bad_ci fuel st rejd Hst) as (stb & Hb1 & Hb2).
  unfold reqci_pass. destruct (Z.ltb_spec (rq_l st) 2) as [|Hl2].
  { eexists _, _, _, _. split_and!; [done|exact Hb1|exact Hb2]. }
  destruct (drop (rq_next st) (rq_buf st)) as [|citype [|cilen p]] eqn:Ed; [simpl in Hl; lia..|].
  destruct ((cilen <? 2) || (rq_l st <? cilen)) eqn:Ec.
  { eexists _, _, _, _. split_and!; [done|exact Hb1|exact Hb2]. }
  bool_props. simpl in Hl. clear Ht. decompose_Forall_hyps.
  destruct (ci_switch_spec magic ao go citype cilen p (rq_ho st) (rq_seed st)) as (r & Hsw & Hv); [done|lia|lia|].
  rewrite Hsw. simpl.
  set (st0 := ReqState _ _ _ _ _ _ _ _ _).
  assert (Hdl : length (drop (rq_next st) (rq_buf st)) = S (S (length p))) by (by rewrite Ed).
  rewrite length_drop in Hdl.
  destruct (endswitch_spec rid citype cilen (rq_next st) (ci_orc r) st0) as
    (Hn & Hk & Hh & Hl0 & Hs & Hrc & Hlen & Hdr & Hov & Hc); [done|exact Hr|simpl; lia|lia|simpl; lia|].
  set (st1 := endswitch _ _ _ _ _ st0) in *. clearbody st1. simpl in Hn, Hk, Hh, Hl0, Hs, Hrc, Hlen, Hdr, Hov, Hc.
  set (code := harden rid citype (ci_orc r)) in *.
  assert (Hst1 : in_step st1 (rejd ++ if decide (code = CONFREJ)
      then take (Z.to_nat cilen) (drop (rq_next st) (rq_buf st)) else [])).
  { apply (in_step_next st st1 rejd cilen code); try done; [lia|by rewrite Hn]. }
  destruct (IH st1 _ Hst1) as (js & ho & seed & st' & Hj & Hlp & Hends); [lia|].
  rewrite Hn Hdr Hl0 Hh Hs -drop_drop Ed in Hj. simpl in Hj.
  eexists _, _, _, st'. rewrite Hj. split_and!; [reflexivity|done|].
  apply (run_ends_cons st st1 st' rejd _ js ho seed (Z.to_nat cilen)); simpl; try done.
  - by apply is_verdict_harden.
  - lia.
  - by rewrite Ed.
  - destruct (decide _); [done|]. by destruct Hc.
  - right. split; [done|]. split; [lia|]. destruct (decide _); by destruct Hc.
  - rewrite Ed in Hends. done.
Qed.
End Loop.

(** The initial state is in step. *)
Lemma in_step_init inp len seed :
  Forall byte_ok inp -> 0 <= len <= Z.of_nat (length inp) ->
  in_step (ReqState inp 0 0 [] no_options CONFACK len seed false) [].
Proof. intros Hb Hl. unfold in_step, is_verdict. simpl. rewrite drop_0. split_and!; try done; try lia. Qed.

Lemma judge_loop magic ao go rid seed inp len :
  Forall byte_ok inp -> 0 <= len <= Z.of_nat (length inp) ->
  exists js ho seed' st',
    judge magic ao go rid (Z.to_nat len) inp len no_options seed = Good (js, ho, seed') /\
    lcp_reqci magic ao go seed inp len rid = Good (reqci_reply st') /\
    run_ends (ReqState inp 0 0 [] no_options CONFACK len seed false) st' [] js ho seed'.
Proof.
  intros Hb Hl.
  destruct (loop_judges magic ao go rid (Z.to_nat len) _ [] (in_step_init inp len seed Hb Hl))
    as (js & ho & seed' & st' & Hj & Hlp & He); [simpl; lia|].
  exists js, ho, seed', st'. unfold lcp_reqci. rewrite Hlp. split_and!; [exact Hj|done|done].
Qed.

Lemma worse_ack v : is_verdict v -> worse CONFACK v = v.
Proof. by intros [->|[->| ->]]. Qed.

(** Only what is rejected is moved. *)
Lemma copies_overlap_rejects gap js : verdict js <> CONFREJ -> copies_overlap gap js = false.
Proof.
  revert gap. induction js as [|j js IH]; intros gap; cbn [copies_overlap verdict foldr]; [done|].
  change (foldr _ CONFACK js) with (verdict js). intros Hv.
  assert (Hj : j_code j <> CONFREJ) by (intros E; apply Hv; by rewrite /worse E).
  rewrite /moves_onto bool_decide_false //=. apply IH. intros E. apply Hv. by rewrite /worse E orb_true_r.
Qed.

(** C25: the answer to a Configure-Request is the reference's.  The in-place
    walk returns the worst verdict on any option of the packet; a packet whose
    options are all acceptable is returned unchanged, a Nak carries the
    counter-proposals, a Reject is as long as the rejected options together and
    carries exactly their bytes in their order; every byte of the request
    belongs to one option, and no byte behind it is read.  The bytes of a Reject
    are what they should be unless a rejected option is copied onto a place that
    overlaps it, which [memcpy] leaves undefined; that happens exactly when it
    is longer than the options that were kept before it, and there are some. *)
Theorem lcp_reqci_verdict magic ao go rid seed inp len :
  Forall byte_ok inp -> 0 <= len <= Z.of_nat (length inp) ->
  exists js ho seed' r,
    judge magic ao go rid (Z.to_nat len) inp len no_options seed = Good (js, ho, seed') /\
    concat (map j_bytes js) = take (Z.to_nat len) inp /\
    lcp_reqci magic ao go seed inp len rid = Good r /\
    rr_code r = verdict js /\ rr_ho r = ho /\ rr_seed r = seed' /\
    rr_len r = Z.of_nat (length (reply js (take (Z.to_nat len) inp))) /\
    rr_overlap r = copies_overlap 0 js /\ (verdict js <> CONFREJ -> rr_overlap r = false) /\
    (rr_overlap r = false -> take (Z.to_nat (rr_len r)) (rr_buf r) = reply js (take (Z.to_nat len) inp)).
Proof.
  intros Hb Hl. destruct (judge_loop magic ao go rid seed inp len Hb Hl)
    as (js & ho & seed' & st' & Hj & Hlp & (Hho & Hseed & Hrc & Hnak & Hrej & Hlen & Hle & Hack & Hcat & Hov)).
  simpl in Hrc, Hnak, Hlen, Hack, Hcat, Hrej, Hov.
  rewrite worse_ack in Hrc; [apply is_verdict_fold|].
  exists js, ho, seed', (reqci_reply st'). split; [exact Hj|]. split; [exact Hcat|]. split; [exact Hlp|].
  assert (Ho : rr_overlap (reqci_reply st') = copies_overlap 0 js) by (rewrite -Hov; unfold reqci_reply; by case_tests).
  rewrite Ho. pose proof (copies_overlap_rejects 0 js) as Hn. clear Hov Ho.
  unfold reqci_reply, reply. rewrite Hrc.
  split_and!;
    destruct (is_verdict_fold js) as [E|[E|E]]; rewrite E in Hrc Hack |- *; simpl; try done; try (intros _).
  - destruct (Hack Hrc) as [_ ->]. rewrite length_take. lia.
  - by rewrite Hnak.
  - rewrite -Hrej length_take. lia.
  - apply Hn. by rewrite E.
  - apply Hn. by rewrite E.
  - destruct (Hack Hrc) as [-> ->]. by rewrite Nat2Z.id.
  - by rewrite Hnak Nat2Z.id take_app_length.
  - by rewrite Nat2Z.id.
Qed.

(** ** What is recorded of the peer *)

Record allowed (ao go ho : lcp_options) : Prop := {
  al_mru : neg_mru ho = true -> neg_mru ao = true /\ MINMRU <= mru ho < 65536;
  al_asyncmap : neg_asyncmap ho = true ->
    neg_asyncmap ao = true /\ Z.lor (asyncmap ao) (asyncmap ho) = asyncmap ho;
  al_upap : neg_upap ho = true -> neg_upap ao = true /\ neg_chap ho = false;
  al_chap : neg_chap ho = true ->
    neg_chap ao = true /\ neg_upap ho = false /\ chap_mdtype ho = CHAP_DIGEST_MD5;
  al_magic : neg_magicnumber ho = true -> neg_magicnumber go = true -> magicnumber ho <> magicnumber go;
  al_pcomp : neg_pcompression ho = true -> neg_pcompression ao = true;
  al_accomp : neg_accompression ho = true -> neg_accompression ao = true;
  al_lqr : neg_lqr ho = false
}.

Lemma asyncmap_superset a c :
  0 <= a < 2 ^ 32 -> Z.land a (u32 (Z.lnot c)) = 0 -> Z.lor a c = c.
Proof.
  intros Ha Hz. apply Z.bits_inj'. intros i Hi. rewrite Z.lor_spec.
  destruct (Z.testbit a i) eqn:Ea; [|done]. simpl.
  assert (Hi32 : i < 32).
  { destruct (Z.lt_ge_cases i 32); [done|]. rewrite Z.bits_above_log2 in Ea; [lia| |done].
    destruct (decide (a = 0)) as [->|]; [simpl; lia|]. apply Z.lt_le_trans with 32; [|done].
    apply Z.log2_lt_pow2; lia. }
  apply (f_equal (fun z => Z.testbit z i)) in Hz.
  rewrite Z.land_spec Ea Z.bits_0 /u32 /wrap Z.mod_pow2_bits_low // Z.lnot_spec // in Hz.
  simpl in Hz. by apply negb_false_iff in Hz.
Qed.

Ltac allow Ho :=
  destruct Ho; split; simpl; try assumption; intros;
  first [congruence | split_and!; first [done | lia | congruence]].

Lemma ci_switch_allowed magic ao go citype cilen p ho seed r :
  options_ok ao -> Forall byte_ok p -> allowed ao go ho ->
  ci_switch magic ao go citype cilen p ho seed = Good r -> allowed ao go (ci_ho r).
Proof.
  intros Hao Hb Ho. unfold ci_switch, ci_mru, ci_asyncmap, ci_authtype, ci_pap, ci_chap, ci_quality,
    ci_magicnumber, ci_void, ci_ack, ci_rej, ci_nak_with.
  destruct (citype =? CI_MRU).
  { destruct (negb (neg_mru ao) || _) eqn:E; bool_props; [by intros [= <-]|].
    destruct (GETSHORT p) as [[v p']|] eqn:Eg; simpl; [|done].
    pose proof (GETSHORT_range _ _ _ Hb Eg). destruct (Z.ltb_spec v MINMRU); intros [= <-]; [done|].
    allow Ho. }
  destruct (citype =? CI_ASYNCMAP).
  { destruct (negb (neg_asyncmap ao) || _) eqn:E; bool_props; [by intros [= <-]|].
    destruct (GETLONG p) as [[v p']|]; simpl; [|done].
    destruct (negb _) eqn:E'; intros [= <-]; [done|]. bool_props.
    assert (Z.lor (asyncmap ao) v = v).
    { apply asyncmap_superset; [|done]. by destruct Hao. }
    allow Ho. }
  destruct (citype =? CI_AUTHTYPE).
  { destruct ((cilen <? CILEN_SHORT) || _); [by intros [= <-]|].
    destruct (GETSHORT p) as [[v p']|]; simpl; [|done]. destruct (v =? PPP_PAP).
    { destruct (neg_chap ho || _) eqn:E; bool_props; [by intros [= <-]|].
      destruct (negb (neg_upap ao)) eqn:E'; intros [= <-]; [done|]. bool_props. allow Ho. }
    destruct (v =? PPP_CHAP); [|by intros [= <-]].
    destruct (neg_upap ho || _) eqn:E; bool_props; [by intros [= <-]|].
    destruct (negb (neg_chap ao)) eqn:E'; [by intros [= <-]|]. bool_props.
    destruct (GETCHAR p') as [[d p'']|]; simpl; [|done].
    destruct (Z.eqb_spec d CHAP_DIGEST_MD5); intros [= <-]; [|done]. allow Ho. }
  destruct (citype =? CI_QUALITY).
  { destruct (negb _ || _); [by intros [= <-]|]. destruct (GETSHORT p) as [[v p']|]; simpl; [|done].
    destruct (GETLONG p') as [[l p'']|]; simpl; [|done]. by destruct (negb _); intros [= <-]. }
  destruct (citype =? CI_MAGICNUMBER).
  { destruct (negb _ || _); [by intros [= <-]|]. destruct (GETLONG p) as [[v p']|]; simpl; [|done].
    destruct (neg_magicnumber go && _) eqn:E; intros [= <-]; [done|]. bool_props.
    destruct Ho; split; simpl; try done. intros _ Hg ->. destruct E as [E|E]; bool_props; congruence. }
  destruct (citype =? CI_PCOMPRESSION).
  { destruct (negb (neg_pcompression ao) || _) eqn:E; bool_props; intros [= <-]; [done|]. allow Ho. }
  destruct (citype =? CI_ACCOMPRESSION); [|by intros [= <-]].
  destruct (negb (neg_accompression ao) || _) eqn:E; bool_props; intros [= <-]; [done|]. allow Ho.
Qed.

(** A fact about every option of the packet: [P] of the judgement, under an
    invariant [I] of what is recorded. *)
Lemma judge_forall (I : lcp_options -> Prop) (P : judgement -> Prop) magic ao go rid fuel :
  (forall n bs, P (Judgement 0 CONFREJ (take n bs) [])) ->
  (forall citype cilen p ho seed r, Forall byte_ok p -> 2 <= cilen -> cilen - 2 <= Z.of_nat (length p) ->
     I ho -> ci_switch magic ao go citype cilen p ho seed = Good r ->
     I (ci_ho r) /\
     P (Judgement citype (harden rid citype (ci_orc r)) (take (Z.to_nat cilen) (citype :: cilen :: p)) (ci_nak r))) ->
  forall rest l ho seed js ho' seed',
    Forall byte_ok rest -> 0 <= l <= Z.of_nat (length rest) -> I ho ->
    judge magic ao go rid fuel rest l ho seed = Good (js, ho', seed') -> I ho' /\ Forall P js.
Proof.
  intros Hbad Hsw. induction fuel as [|fuel IH]; intros rest l ho seed js ho' seed' Hb Hl Hi; simpl.
  { intros [= <- <- <-]. by split. }
  destruct (l =? 0); [intros [= <- <- <-]; by split|].
  destruct (l <? 2); [intros [= <- <- <-]; split; [done|by constructor]|].
  destruct rest as [|citype [|cilen p]]; [done..|].
  destruct ((cilen <? 2) || (l <? cilen)) eqn:E; [intros [= <- <- <-]; split; [done|by constructor]|].
  bool_props. simpl in Hl. decompose_Forall_hyps.
  destruct (ci_switch magic ao go citype cilen p ho seed) as [r| |] eqn:Er; simpl; [|done..].
  destruct (Hsw citype cilen p ho seed r) as [Hi' Hp]; [done|lia|lia|done..|].
  destruct (judge magic ao go rid fuel _ _ _ _) as [[[js1 ho1] seed1]| |] eqn:Ej; simpl; [|done..].
  intros [= <- <- <-]. edestruct IH as [? ?]; [|..|exact Ej|].
  - apply Forall_drop. by do 2 (constructor; [done|]).
  - rewrite length_drop /=. lia.
  - done.
  - split; [done|by constructor].
Qed.

Lemma allowed_none ao go : allowed ao go no_options.
Proof. by split. Qed.

(** What is recorded of the peer is what we allow.  Whatever the request,
    the options noted in [hisoptions] are ones we allow, with an MRU of at
    least 128, an async map that contains ours, at most one authentication
    protocol (CHAP only with MD5), and a magic number that is not our own. *)
Theorem lcp_reqci_records_allowed magic ao go rid seed inp len r :
  options_ok ao -> Forall byte_ok inp -> 0 <= len <= Z.of_nat (length inp) ->
  lcp_reqci magic ao go seed inp len rid = Good r -> allowed ao go (rr_ho r).
Proof.
  intros Hao Hb Hl Hr. destruct (judge_loop magic ao go rid seed inp len Hb Hl)
    as (js & ho & seed' & st' & Hj & Hlp & (Hho & _)).
  rewrite Hlp in Hr. simplify_eq.
  assert (Hrho : rr_ho (reqci_reply st') = rq_ho st') by (unfold reqci_reply; by case_tests).
  rewrite Hrho.
  eapply (judge_forall (allowed ao go) (fun _ => True)); [done| |done|done|apply allowed_none|exact Hj].
  intros. split; [|done]. by eapply ci_switch_allowed.
Qed.

(** ** Naks *)

(** The bytes of our own magic number as an option. *)
Definition own_magic (go : lcp_options) : bytes :=
  CI_MAGICNUMBER :: CILEN_LONG :: PUTLONG (magicnumber go).

Lemma ci_nak_tough magic ao go citype cilen p ho seed r :
  options_ok go -> Forall byte_ok p -> 2 <= cilen -> cilen - 2 <= Z.of_nat (length p) ->
  ci_switch magic ao go citype cilen p ho seed = Good r ->
  harden true citype (ci_orc r) = CONFNAK ->
  neg_magicnumber go = true /\ take (Z.to_nat cilen) (citype :: cilen :: p) = own_magic go.
Proof.
  intros Hgo Hb Hc Hl Hsw. unfold harden. rewrite andb_true_r.
  destruct (Z.eqb_spec citype CI_MAGICNUMBER) as [->|]; simpl.
  - rewrite andb_false_r. intros Hn. unfold ci_switch, ci_magicnumber, ci_rej, ci_ack, ci_nak_with in Hsw. simpl in Hsw.
    destruct (negb _ || _) eqn:E; [by simplify_eq|]. bool_props. unfold CILEN_LONG in *. subst cilen.
    destruct (GETLONG_spec (magicnumber go) p) as (v & p' & Hg & _ & _ & Hq); [by destruct Hgo|done|lia|].
    rewrite Hg in Hsw. simpl in Hsw. destruct (neg_magicnumber go && _) eqn:E'; [|by simplify_eq].
    bool_props. split; [done|]. rewrite (proj2 (Hq p')); [by split|]. done.
  - rewrite andb_true_r. destruct (Z.eqb_spec (ci_orc r) CONFNAK); [done|]. done.
Qed.

Lemma verdict_nak js : verdict js = CONFNAK -> Exists (fun j => j_code j = CONFNAK) js.
Proof.
  induction js as [|j js IH]; simpl; [done|]. unfold worse.
  destruct (_ || _); [done|]. destruct (j_code j =? CONFNAK) eqn:E; bool_props; [by constructor|].
  simpl. destruct (verdict js =? CONFNAK) eqn:E'; bool_props; [|done]. intros _. apply Exists_cons_tl. by apply IH.
Qed.

(** A Nak survives [reject_if_disagree] only for a looped-back line.  When
    the daemon is tired of Naks it still answers with one, but only when the
    request carries the daemon's own magic number.
    (The comment on [lcp_reqci] says that it does not return [CONFNAK] then.) *)
Theorem lcp_reqci_tough_nak_is_loopback magic ao go seed inp len r :
  options_ok go -> Forall byte_ok inp -> 0 <= len <= Z.of_nat (length inp) ->
  lcp_reqci magic ao go seed inp len true = Good r -> rr_code r = CONFNAK ->
  neg_magicnumber go = true /\
  exists pre post, take (Z.to_nat len) inp = pre ++ own_magic go ++ post.
Proof.
  intros Hgo Hb Hl Hr Hc. destruct (judge_loop magic ao go true seed inp len Hb Hl)
    as (js & ho & seed' & st' & Hj & Hlp & (_ & _ & Hrc & _ & _ & _ & _ & _ & Hcat & _)).
  simpl in Hrc, Hcat. rewrite worse_ack in Hrc; [apply is_verdict_fold|].
  rewrite Hlp in Hr. simplify_eq.
  assert (Hv : verdict js = CONFNAK).
  { rewrite -Hrc. revert Hc. unfold reqci_reply. rewrite Hrc.
    by destruct (is_verdict_fold js) as [->|[->| ->]]. }
  assert (HP : Forall (fun j => j_code j = CONFNAK -> neg_magicnumber go = true /\ j_bytes j = own_magic go) js).
  { eapply (judge_forall (fun _ => True) _ magic ao go true); [done| |done|done|done|exact Hj].
    intros. split; [done|]. intros. by eapply ci_nak_tough. }
  apply verdict_nak in Hv. rewrite drop_0 in Hcat. rewrite -Hcat. clear Hcat Hj Hrc.
  induction Hv as [j js Hj|j js Hv IH]; inversion_clear HP as [|? ? Hj' HP'].
  - destruct (Hj' Hj) as [Hn Hbytes]. split; [done|]. exists [], (concat (map j_bytes js)). simpl. by rewrite Hbytes.
  - destruct (IH HP') as [Hn (pre & post & Heq)]. split; [done|]. exists (j_bytes j ++ pre), post.
    simpl. by rewrite Heq app_assoc.
Qed.

(** A counter-proposal is at most a quarter longer than the option. *)
Lemma ci_nak_length magic ao go citype cilen p ho seed r :
  2 <= cilen -> ci_switch magic ao go citype cilen p ho seed = Good r ->
  4 * Z.of_nat (length (ci_nak r)) <= 5 * cilen.
Proof.
  intros Hc. unfold ci_switch, ci_mru, ci_asyncmap, ci_authtype, ci_pap, ci_chap, ci_quality,
    ci_magicnumber, ci_void, ci_ack, ci_rej, ci_nak_with, unless_bad.
  repeat match goal with
  | |- (if ?b then _ else _) = _ -> _ => destruct b eqn:?
  | |- context [get ?g ≫= _] => destruct g as [[? ?]|]; simpl; [|done]
  end; intros [= <-]; simpl; bool_props;
  unfold CILEN_SHORT, CILEN_LONG, CILEN_CHAP, CILEN_LQR in *; try lia; case_tests; simpl; lia.
Qed.

(** The Nak fits for requests of up to 1200 bytes.  The counter-proposals
    overrun neither [nak_buffer] nor the packet's own buffer as long as five
    quarters of the request fit there. *)
Theorem lcp_reqci_nak_fits magic ao go rid seed inp len r :
  Forall byte_ok inp -> 0 <= len <= Z.of_nat (length inp) ->
  5 * len <= 4 * PPP_MRU -> 5 * len <= 4 * Z.of_nat (length inp) ->
  lcp_reqci magic ao go seed inp len rid = Good r -> rr_oob r = false.
Proof.
  intros Hb Hl Hm Hi Hr. destruct (judge_loop magic ao go rid seed inp len Hb Hl)
    as (js & ho & seed' & st' & Hj & Hlp & (_ & _ & _ & Hnak & _ & Hlen & _ & _ & Hcat & _)).
  simpl in Hnak, Hcat, Hlen. rewrite Hlp in Hr. simplify_eq.
  assert (HP : Forall (fun j => 4 * Z.of_nat (length (j_nak j)) <= 5 * Z.of_nat (length (j_bytes j))) js).
  { eapply (judge_forall (fun _ => True) _ magic ao go rid); [intros; simpl; lia| |done|done|done|exact Hj].
    intros citype cilen p ho0 seed0 r0 Hp H2 Hcl _ Hsw. split; [done|]. simpl j_nak. simpl j_bytes.
    apply ci_nak_length in Hsw; [|done]. rewrite length_take /=. lia. }
  assert (Hle : 4 * Z.of_nat (length (proposals js)) <= 5 * len).
  { rewrite drop_0 in Hcat. apply (f_equal length) in Hcat. rewrite length_take in Hcat.
    assert (4 * Z.of_nat (length (proposals js)) <= 5 * Z.of_nat (length (concat (map j_bytes js)))); [|lia].
    clear -HP. unfold proposals. induction HP as [|j js Hj HP IH]; simpl; [done|]. rewrite !length_app. lia. }
  unfold reqci_reply. rewrite Hnak Hlen.
  rewrite (proj2 (Z.ltb_ge PPP_MRU _)); [lia|]. rewrite (proj2 (Z.ltb_ge (Z.of_nat (length inp)) _)); [lia|].
  by case_tests.
Qed.
