(* ===== verification/LcpAgree.v ===== *)
(** * What two daemons have agreed on

    A Configure-Request that the peer acknowledges: what the peer has recorded of
    us ([hisoptions]) is what we asked for ([gotoptions]).  The settings of the
    line, each side's receiver on the one hand and the other side's transmitter
    on the other, are computed from these. *)

From S2P Require Import Prelude Wire Callout Fsm LcpOptions LcpReqci LcpOptionsSpec LcpReqciSpec.

(** The options that concern the line are the same. *)
Definition same_line_options (ho ho' : lcp_options) : Prop :=
  neg_mru ho' = neg_mru ho /\ mru ho' = mru ho /\ neg_asyncmap ho' = neg_asyncmap ho /\ asyncmap ho' = asyncmap ho /\
  neg_pcompression ho' = neg_pcompression ho /\ neg_accompression ho' = neg_accompression ho.

Lemma same_line_options_trans h1 h2 h3 : same_line_options h1 h2 -> same_line_options h2 h3 -> same_line_options h1 h3.
Proof. intros (?&?&?&?&?&?) (?&?&?&?&?&?). repeat split; congruence. Qed.

Section Agree.
Context (magic : nat -> Z) (ao go : lcp_options) (rid : bool).

(** The rest of a request is acknowledged; [ho'] are the options recorded at its
    end. *)
Definition acked (rest : bytes) (ho ho' : lcp_options) : Prop :=
  exists fuel seed js seed',
    judge magic ao go rid fuel rest (Z.of_nat (length rest)) ho seed = Good (js, ho', seed') /\
    verdict js = CONFACK /\ (length rest <= fuel)%nat.

Lemma acked_end ho ho' : acked [] ho ho' -> ho' = ho.
Proof. intros (fuel & seed & js & seed' & Hj & _ & _). destruct fuel; simpl in Hj; by simplify_eq. Qed.

Lemma lcp_verdict_ack j js : verdict (j :: js) = CONFACK -> j_code j <> CONFREJ /\ j_code j <> CONFNAK /\ verdict js = CONFACK.
Proof.
  cbn [verdict foldr]. fold (verdict js). unfold worse. destruct (Z.eqb_spec (j_code j) CONFREJ); [done|].
  destruct (Z.eqb_spec (verdict js) CONFREJ); [done|]. destruct (Z.eqb_spec (j_code j) CONFNAK); [done|].
  destruct (Z.eqb_spec (verdict js) CONFNAK); [done|]. intros _. split; [done|]. split; [done|].
  by destruct (is_verdict_fold js) as [?|[?|?]].
Qed.

(** One option. *)
Lemma acked_option citype cilen p rest ho ho' :
  Z.of_nat (length p) = cilen - 2 -> acked (citype :: cilen :: p ++ rest) ho ho' ->
  exists seed r, ci_switch magic ao go citype cilen (p ++ rest) ho seed = Good r /\
    ci_orc r <> CONFREJ /\ ci_orc r <> CONFNAK /\ acked rest (ci_ho r) ho'.
Proof.
  intros Hp (fuel & seed & js & seed' & Hj & Hv & Hf). destruct fuel as [|fuel]; [simpl in Hf; lia|].
  cbn [judge] in Hj. set (l := Z.of_nat (length (citype :: cilen :: p ++ rest))) in *.
  assert (Hl : l = cilen + Z.of_nat (length rest)) by (unfold l; simpl; rewrite length_app; lia).
  rewrite (proj2 (Z.eqb_neq l 0)) in Hj; [lia|]. rewrite (proj2 (Z.ltb_ge l 2)) in Hj; [lia|].
  rewrite (proj2 (Z.ltb_ge cilen 2)) in Hj; [lia|]. rewrite (proj2 (Z.ltb_ge l cilen)) in Hj; [lia|]. cbn [orb] in Hj.
  destruct (ci_switch magic ao go citype cilen (p ++ rest) ho seed) as [r| |] eqn:Er; [|done..].
  replace (drop (Z.to_nat cilen) (citype :: cilen :: p ++ rest)) with rest in Hj.
  2:{ replace (Z.to_nat cilen) with (length (citype :: cilen :: p)) by (simpl; lia).
      change (citype :: cilen :: p ++ rest) with ((citype :: cilen :: p) ++ rest). by rewrite drop_app_length. }
  replace (l - cilen) with (Z.of_nat (length rest)) in Hj by lia. cbn [mbind parse_bind] in Hj.
  destruct (judge magic ao go rid fuel rest (Z.of_nat (length rest)) (ci_ho r) (ci_seed r)) as [[[js1 ho1] seed1]| |] eqn:E1; [|done..].
  cbn in Hj. simplify_eq. apply lcp_verdict_ack in Hv as (H1 & H2 & Hv). cbn [j_code] in H1, H2. exists seed, r. split; [done|].
  split; [intros E; rewrite E in H1; by apply H1|].
  split; [intros E; rewrite E in H1, H2; unfold harden in H1, H2; cbn in H1, H2; destruct rid, (citype =? CI_MAGICNUMBER); by cbn in *|].
  exists fuel, (ci_seed r), js1, seed'. split; [done|]. split; [done|]. simpl in Hf. rewrite length_app in Hf. lia.
Qed.

(** Options that do not concern the line. *)
Lemma ci_switch_other citype cilen p ho seed r :
  citype <> CI_MRU -> citype <> CI_ASYNCMAP -> citype <> CI_PCOMPRESSION -> citype <> CI_ACCOMPRESSION ->
  ci_switch magic ao go citype cilen p ho seed = Good r -> same_line_options ho (ci_ho r).
Proof.
  intros H1 H2 H7 H8. unfold ci_switch. rewrite (proj2 (Z.eqb_neq _ _) H1) (proj2 (Z.eqb_neq _ _) H2) (proj2 (Z.eqb_neq _ _) H7) (proj2 (Z.eqb_neq _ _) H8).
  unfold ci_authtype, ci_pap, ci_chap, ci_quality, ci_magicnumber, ci_rej, ci_ack, ci_nak_with, get, mbind, parse_bind.
  repeat case_match; intros E; simplify_eq; by repeat split.
Qed.

Lemma acked_other citype cilen p rest ho ho' :
  citype <> CI_MRU -> citype <> CI_ASYNCMAP -> citype <> CI_PCOMPRESSION -> citype <> CI_ACCOMPRESSION ->
  Z.of_nat (length p) = cilen - 2 -> acked (citype :: cilen :: p ++ rest) ho ho' ->
  exists ho1, same_line_options ho ho1 /\ acked rest ho1 ho'.
Proof.
  intros H1 H2 H7 H8 Hp H. destruct (acked_option _ _ _ _ _ _ Hp H) as (seed & r & Hr & _ & _ & Ha).
  exists (ci_ho r). split; [|done]. by eapply (ci_switch_other citype cilen).
Qed.

(** The options of the line. *)
Lemma acked_mru b v rest ho ho' :
  0 <= v < 65536 -> acked (ADDCISHORT CI_MRU b v ++ rest) ho ho' ->
  acked rest (if b then set_mru v (set_neg_mru true ho) else ho) ho'.
Proof.
  intros Hv. destruct b; [|done]. intros H. apply (acked_option _ _ (PUTSHORT v)) in H as (seed & r & Hr & H1 & H2 & Ha); [|done].
  revert Hr. unfold ci_switch, ci_mru, ci_rej, ci_ack, ci_nak_with, get, mbind, parse_bind. rewrite GETSHORT_PUTSHORT (u16_small v Hv).
  repeat case_match; intros E; simplify_eq; try done; by cbn in *.
Qed.

Lemma acked_asyncmap b v rest ho ho' :
  0 <= v < 4294967296 -> acked (ADDCILONG CI_ASYNCMAP b v ++ rest) ho ho' ->
  acked rest (if b then set_asyncmap v (set_neg_asyncmap true ho) else ho) ho'.
Proof.
  intros Hv. destruct b; [|done]. intros H. apply (acked_option _ _ (PUTLONG v)) in H as (seed & r & Hr & H1 & H2 & Ha); [|done].
  revert Hr. unfold ci_switch, ci_asyncmap, ci_rej, ci_ack, ci_nak_with, get, mbind, parse_bind. rewrite GETLONG_PUTLONG (u32_small v Hv).
  repeat case_match; intros E; simplify_eq; try done; by cbn in *.
Qed.

Lemma acked_void opt (b : bool) (mark : lcp_options -> lcp_options) rest ho ho' :
  (opt = CI_PCOMPRESSION /\ mark = set_neg_pcompression true) \/ (opt = CI_ACCOMPRESSION /\ mark = set_neg_accompression true) ->
  acked (ADDCIVOID opt b ++ rest) ho ho' -> acked rest (if b then mark ho else ho) ho'.
Proof.
  intros Hor. destruct b; [|done].
  intros H. destruct Hor as [[-> ->]|[-> ->]]; apply (acked_option _ _ []) in H as (seed & r & Hr & H1 & H2 & Ha); try done;
    revert Hr; unfold ci_switch, ci_void, ci_rej, ci_ack; repeat case_match; intros E; simplify_eq; try done; by cbn in *.
Qed.

(** What is recorded of a request that is acknowledged. *)
Definition recorded (go ho : lcp_options) : Prop :=
  neg_mru ho = asks_mru go /\ (asks_mru go = true -> mru ho = mru go) /\
  neg_asyncmap ho = asks_asyncmap go /\ (asks_asyncmap go = true -> asyncmap ho = asyncmap go) /\
  neg_pcompression ho = neg_pcompression go /\ neg_accompression ho = neg_accompression go.

Lemma acked_request req ho' :
  options_ok req -> acked (lcp_addci req) no_options ho' -> recorded req ho'.
Proof.
  intros Hok H. unfold lcp_addci in H. apply acked_mru in H; [|apply Hok]. apply acked_asyncmap in H; [|apply Hok].
  set (ho2 := if asks_asyncmap req then _ else _) in H.
  assert (Hpieces : forall b opt piece rest ho1, acked (piece ++ rest) ho1 ho' ->
    (piece = if b : bool then opt else []) -> (exists ty n p, opt = ty :: n :: p /\ Z.of_nat (length p) = n - 2 /\
      ty <> CI_MRU /\ ty <> CI_ASYNCMAP /\ ty <> CI_PCOMPRESSION /\ ty <> CI_ACCOMPRESSION) ->
    exists ho3, same_line_options ho1 ho3 /\ acked rest ho3 ho').
  { intros b opt piece rest ho1 Ha -> (ty & n & p & -> & Hp & Hn1 & Hn2 & Hn7 & Hn8).
    destruct b; [by eapply (acked_other ty n p)|]. exists ho1. split; [by repeat split|done]. }
  destruct (Hpieces (neg_chap req) (PUTCHAR CI_AUTHTYPE ++ PUTCHAR CILEN_CHAP ++ PUTSHORT PPP_CHAP ++ PUTCHAR (chap_mdtype req)) _ _ _ H)
    as (h3 & S3 & H3); [done|by eexists _, _, _|].
  destruct (Hpieces (asks_upap req) (PUTCHAR CI_AUTHTYPE ++ PUTCHAR CILEN_SHORT ++ PUTSHORT PPP_PAP) _ _ _ H3)
    as (h4 & S4 & H4); [done|by eexists _, _, _|].
  destruct (Hpieces (neg_lqr req) (PUTCHAR CI_QUALITY ++ PUTCHAR CILEN_LQR ++ PUTSHORT PPP_LQR ++ PUTLONG (lqr_period req)) _ _ _ H4)
    as (h5 & S5 & H5); [done|by eexists _, _, _|].
  destruct (Hpieces (neg_cbcp req) (PUTCHAR CI_CALLBACK ++ PUTCHAR CILEN_CHAR ++ PUTCHAR CBCP_OPT) _ _ _ H5)
    as (h6 & S6 & H6); [done|by eexists _, _, _|].
  destruct (Hpieces (neg_magicnumber req) (PUTCHAR CI_MAGICNUMBER ++ PUTCHAR CILEN_LONG ++ PUTLONG (magicnumber req)) _ _ _ H6)
    as (h7 & S7 & H7); [done|by eexists _, _, _|].
  apply (acked_void _ _ (set_neg_pcompression true)) in H7; [|by left].
  rewrite -(app_nil_r (ADDCIVOID _ _)) in H7. apply (acked_void _ _ (set_neg_accompression true)) in H7; [|by right].
  apply acked_end in H7. subst ho'.
  pose proof (same_line_options_trans _ _ _ (same_line_options_trans _ _ _ (same_line_options_trans _ _ _ (same_line_options_trans _ _ _ S3 S4) S5) S6) S7)
    as (E1 & E2 & E3 & E4 & E5 & E6).
  unfold recorded. unfold ho2 in E1, E2, E3, E4, E5, E6.
  destruct (asks_mru req), (asks_asyncmap req), (neg_pcompression req), (neg_accompression req); cbn in *; repeat split; congruence.
Qed.

Lemma lcp_addci_ok req : Forall byte_ok (lcp_addci req).
Proof.
  unfold lcp_addci, ADDCISHORT, ADDCILONG, ADDCICHAP, ADDCILQR, ADDCICHAR, ADDCIVOID. rewrite !Forall_app.
  split_and!; case_match; rewrite ?Forall_app; split_and?; auto with bytes.
Qed.

(** A request as [lcp_reqci] gets it. *)
Lemma lcp_reqci_records req len seed r :
  options_ok req -> len = Z.of_nat (length (lcp_addci req)) ->
  lcp_reqci magic ao go seed (lcp_addci req) len rid = Good r -> rr_code r = CONFACK -> recorded req (rr_ho r).
Proof.
  intros Hok -> Hr Hack. assert (Hb : Forall byte_ok (lcp_addci req)) by apply lcp_addci_ok.
  destruct (judge_loop magic ao go rid seed (lcp_addci req) (Z.of_nat (length (lcp_addci req))) Hb ltac:(lia))
    as (js & ho & seed' & st' & Hj & Hlp & (Hho & _ & Hrc & _)).
  rewrite Hlp in Hr. simplify_eq. simpl in Hrc. rewrite worse_ack in Hrc; [apply is_verdict_fold|].
  assert (Hrho : rr_ho (reqci_reply st') = rq_ho st' /\ rr_code (reqci_reply st') = rq_rc st').
  { unfold reqci_reply. destruct (Z.eqb_spec (rq_rc st') CONFACK) as [E|E]; [done|]. case_match; [split; [done|]; symmetry; by apply Z.eqb_eq|].
    split; [done|]. cbn. destruct (is_verdict_fold js) as [?|[?|?]]; rewrite Hrc in E |- *; try congruence. rewrite Hrc in H. by rewrite H0 in H. }
  destruct Hrho as [Hrho Hcode]. rewrite Hrho. rewrite Hcode in Hack. apply acked_request; [done|].
  rewrite Nat2Z.id in Hj. exists (length (lcp_addci req)), seed, js, seed'. split; [exact Hj|]. split; [congruence|done].
Qed.
End Agree.
