(* ===== verification/Lcp.v ===== *)
(** * The Link Control Protocol: definitions

    [lcp.c] around its option code: initialisation, the entry points of the
    protocol, the callbacks it hands to the automaton, the LCP-specific codes
    (Protocol-Reject, Echo, Discard) and the echo timer.  The layers above the
    link, [auth.c] and the other protocols, are the interface [AuthLayer]. *)

From S2P Require Import Prelude Wire Callout Fsm LcpOptions LcpReqci.

Definition PROTREJ := 8.
Definition ECHOREQ := 9.
Definition ECHOREP := 10.
Definition DISCREQ := 11.

Definition PHASE_DEAD := 0.
Definition PHASE_TERMINATE := 9.
Definition EXIT_PEER_DEAD := 15.
Definition EXIT_LOOPBACK := 17.

(** What the daemon last told the interface: MTU or MRU, async map, protocol
    and address/control compression. *)
Record if_config := IfConfig { if_mtu : Z; if_accm : Z; if_pcomp : bool; if_accomp : bool }.

(** The settings of the line when the protocol comes up, from the options both
    sides have agreed on. *)
Definition up_xmit_config (ao ho : lcp_options) : if_config :=
  IfConfig (Z.min (mru ao) (if neg_mru ho then mru ho else PPP_MRU))
    (if neg_asyncmap ho then asyncmap ho else ALLONES) (neg_pcompression ho) (neg_accompression ho).
Definition up_recv_config (lax_recv : bool) (wo go : lcp_options) : if_config :=
  IfConfig (if neg_mru go then Z.max (mru wo) (mru go) else PPP_MRU)
    (if lax_recv then 0 else if neg_asyncmap go then asyncmap go else ALLONES)
    (neg_pcompression go) (neg_accompression go).

(** The static variables of [lcp.c], the phase and the exit status of the
    daemon, and the settings of the interface.  [magic_seed] counts the values
    [magic()] has given, those of a discarded Nak left out. *)
Record lcp := Lcp {
  wantoptions : lcp_options;
  gotoptions : lcp_options;
  allowoptions : lcp_options;
  hisoptions : lcp_options;
  xmit_accm : list Z;
  echos_pending : Z;
  echo_number : Z;
  echo_timer_running : bool;
  magic_seed : nat;
  pppd_phase : Z;
  pppd_status : Z;
  xmit_config : if_config;
  recv_config : if_config;
  xaccm : list Z
}.

Definition set_wantoptions v (o : lcp) : lcp :=
  Lcp v (gotoptions o) (allowoptions o) (hisoptions o) (xmit_accm o) (echos_pending o)
    (echo_number o) (echo_timer_running o) (magic_seed o) (pppd_phase o) (pppd_status o)
    (xmit_config o) (recv_config o) (xaccm o).
Definition set_gotoptions v (o : lcp) : lcp :=
  Lcp (wantoptions o) v (allowoptions o) (hisoptions o) (xmit_accm o) (echos_pending o)
    (echo_number o) (echo_timer_running o) (magic_seed o) (pppd_phase o) (pppd_status o)
    (xmit_config o) (recv_config o) (xaccm o).
Definition set_allowoptions v (o : lcp) : lcp :=
  Lcp (wantoptions o) (gotoptions o) v (hisoptions o) (xmit_accm o) (echos_pending o)
    (echo_number o) (echo_timer_running o) (magic_seed o) (pppd_phase o) (pppd_status o)
    (xmit_config o) (recv_config o) (xaccm o).
Definition set_hisoptions v (o : lcp) : lcp :=
  Lcp (wantoptions o) (gotoptions o) (allowoptions o) v (xmit_accm o) (echos_pending o)
    (echo_number o) (echo_timer_running o) (magic_seed o) (pppd_phase o) (pppd_status o)
    (xmit_config o) (recv_config o) (xaccm o).
Definition set_xmit_accm v (o : lcp) : lcp :=
  Lcp (wantoptions o) (gotoptions o) (allowoptions o) (hisoptions o) v (echos_pending o)
    (echo_number o) (echo_timer_running o) (magic_seed o) (pppd_phase o) (pppd_status o)
    (xmit_config o) (recv_config o) (xaccm o).
Definition set_echos_pending v (o : lcp) : lcp :=
  Lcp (wantoptions o) (gotoptions o) (allowoptions o) (hisoptions o) (xmit_accm o) v
    (echo_number o) (echo_timer_running o) (magic_seed o) (pppd_phase o) (pppd_status o)
    (xmit_config o) (recv_config o) (xaccm o).
Definition set_echo_number v (o : lcp) : lcp :=
  Lcp (wantoptions o) (gotoptions o) (allowoptions o) (hisoptions o) (xmit_accm o)
    (echos_pending o) v (echo_timer_running o) (magic_seed o) (pppd_phase o) (pppd_status o)
    (xmit_config o) (recv_config o) (xaccm o).
Definition set_echo_timer_running v (o : lcp) : lcp :=
  Lcp (wantoptions o) (gotoptions o) (allowoptions o) (hisoptions o) (xmit_accm o)
    (echos_pending o) (echo_number o) v (magic_seed o) (pppd_phase o) (pppd_status o)
    (xmit_config o) (recv_config o) (xaccm o).
Definition set_magic_seed v (o : lcp) : lcp :=
  Lcp (wantoptions o) (gotoptions o) (allowoptions o) (hisoptions o) (xmit_accm o)
    (echos_pending o) (echo_number o) (echo_timer_running o) v (pppd_phase o) (pppd_status o)
    (xmit_config o) (recv_config o) (xaccm o).
Definition set_pppd_phase v (o : lcp) : lcp :=
  Lcp (wantoptions o) (gotoptions o) (allowoptions o) (hisoptions o) (xmit_accm o)
    (echos_pending o) (echo_number o) (echo_timer_running o) (magic_seed o) v (pppd_status o)
    (xmit_config o) (recv_config o) (xaccm o).
Definition set_pppd_status v (o : lcp) : lcp :=
  Lcp (wantoptions o) (gotoptions o) (allowoptions o) (hisoptions o) (xmit_accm o)
    (echos_pending o) (echo_number o) (echo_timer_running o) (magic_seed o) (pppd_phase o) v
    (xmit_config o) (recv_config o) (xaccm o).
Definition set_xmit_config v (o : lcp) : lcp :=
  Lcp (wantoptions o) (gotoptions o) (allowoptions o) (hisoptions o) (xmit_accm o)
    (echos_pending o) (echo_number o) (echo_timer_running o) (magic_seed o) (pppd_phase o)
    (pppd_status o) v (recv_config o) (xaccm o).
Definition set_recv_config v (o : lcp) : lcp :=
  Lcp (wantoptions o) (gotoptions o) (allowoptions o) (hisoptions o) (xmit_accm o)
    (echos_pending o) (echo_number o) (echo_timer_running o) (magic_seed o) (pppd_phase o)
    (pppd_status o) (xmit_config o) v (xaccm o).
Definition set_xaccm v (o : lcp) : lcp :=
  Lcp (wantoptions o) (gotoptions o) (allowoptions o) (hisoptions o) (xmit_accm o)
    (echos_pending o) (echo_number o) (echo_timer_running o) (magic_seed o) (pppd_phase o)
    (pppd_status o) (xmit_config o) (recv_config o) v.

(** The settings of the configuration file. *)
Record lcp_config := LcpConfig {
  lcp_echo_interval : Z;
  lcp_echo_fails : Z;
  lcp_loopbackfail : Z;
  lax_recv : bool
}.

Class LcpWorld (W : Type) := {
  lcp_fsm_world :: FsmWorld W;
  w_lcp : W -> lcp;
  put_lcp : lcp -> W -> W
}.

(** The layers above the link: the functions of [auth.c] LCP calls, and the
    Protocol-Reject entry of every other protocol that is enabled. *)
Class AuthLayer (W : Type) := {
  link_required : W -> W;
  link_terminated : W -> W;
  link_down : W -> W;
  link_established : W -> W;
  auth_reset : W -> W;
  protocol_protrej : Z -> option (W -> W)
}.

(** ** Initialisation *)

Definition lcp_want_init (wo : lcp_options) : lcp_options :=
  LcpOptions false false false true true false false true true true false false
    DEFMRU CHAP_DIGEST_MD5 0 (magicnumber wo) (numloops wo) (lqr_period wo).

Definition lcp_allow_init (ao : lcp_options) : lcp_options :=
  LcpOptions (passive ao) (silent ao) (restart ao) true true true true true true true false false
    MAXMRU CHAP_DIGEST_MD5 0 (magicnumber ao) (numloops ao) (lqr_period ao).

(** [lcp_init]: the automaton and the static data. *)
Definition lcp_init (f : fsm) (s : lcp) : fsm * lcp :=
  (fsm_init (Fsm 0 PPP_LCP (state f) (flags f) (id f) (reqid f) (seen_ack f) (timeouttime f)
     (maxconfreqtransmits f) (retransmits f) (maxtermtransmits f) (nakloops f) (maxnakloops f)
     (term_reason f) (term_reason_len f)),
   set_xmit_accm [0; 0; 0; 1610612736; 0; 0; 0; 0]
     (set_allowoptions (lcp_allow_init (allowoptions s))
        (set_wantoptions (lcp_want_init (wantoptions s)) s))).

Section Lcp.
Context {W : Type} {HW : LcpWorld W} {HA : AuthLayer W}.
Context (cfg : lcp_config) (magic : nat -> Z).

Definition on_lcp (g : lcp -> lcp) (w : W) : W := put_lcp (g (w_lcp w)) w.

Definition fault (w : W) : W := on_link link_fault w.

Definition ppp_send_config (c : if_config) : W -> W := on_lcp (set_xmit_config c).
Definition ppp_recv_config (c : if_config) : W -> W := on_lcp (set_recv_config c).
Definition ppp_set_xaccm (accm : list Z) : W -> W := on_lcp (set_xaccm accm).
(** [new_phase_hook] is null. *)
Definition new_phase (p : Z) : W -> W := on_lcp (set_pppd_phase p).

(** ** Callbacks of the automaton *)

Definition lcp_resetci (w : W) : W :=
  let w := on_lcp (fun s =>
    let wo := set_numloops 0 (set_magicnumber (magic (magic_seed s)) (wantoptions s)) in
    set_gotoptions wo (set_wantoptions wo (set_magic_seed (S (magic_seed s)) s))) w in
  auth_reset (on_link (set_peer_mru PPP_MRU) w).

Definition cb_lcp_cilen (w : W) : Z * W := (lcp_cilen (gotoptions (w_lcp w)), w).

Definition cb_lcp_addci (len : Z) (w : W) : bytes * Z * W := (lcp_addci (gotoptions (w_lcp w)), len, w).

Definition cb_lcp_ackci (p : bytes) (len : Z) (w : W) : bool * W :=
  match lcp_ackci (gotoptions (w_lcp w)) p len with
  | Good _ => (true, w)
  | Bad => (false, w)
  | Oob => (false, fault w)
  end.

Definition cb_lcp_rejci (p : bytes) (len : Z) (w : W) : Z * W :=
  match lcp_rejci (gotoptions (w_lcp w)) p len with
  | Good try => (1, if decide (state (w_fsm w) = OPENED) then w else on_lcp (set_gotoptions try) w)
  | Bad => (0, w)
  | Oob => (0, fault w)
  end.

Definition cb_lcp_reqci (inp : bytes) (len : Z) (reject_if_disagree : bool) (w : W) : Z * bytes * Z * W :=
  let s := w_lcp w in
  match lcp_reqci magic (allowoptions s) (gotoptions s) (magic_seed s) inp len reject_if_disagree with
  | Good r =>
      let w := on_lcp (fun s => set_magic_seed (rr_seed r) (set_hisoptions (rr_ho r) s)) w in
      (rr_code r, rr_buf r, rr_len r, if rr_oob r || rr_overlap r then fault w else w)
  | _ => (CONFREJ, inp, len, fault w)
  end.

Definition lcp_starting (w : W) : W := link_required w.

Definition lcp_finished (w : W) : W := link_terminated w.

(** The echo timer, an entry of the callout list of its own. *)
Definition echo_timer : timer := Timer fn_LcpEchoTimeout fsm_addr.

Definition lcp_echo_lowerdown (w : W) : W :=
  if echo_timer_running (w_lcp w)
  then on_lcp (set_echo_timer_running false)
         (on_link (fun l => set_callouts (pppuntimeout echo_timer (callouts l)) l) w)
  else w.

Definition lcp_down (w : W) : W :=
  let w := link_down (lcp_echo_lowerdown w) in
  let w := ppp_send_config (IfConfig PPP_MRU ALLONES false false) w in
  let go := gotoptions (w_lcp w) in
  let w := ppp_recv_config (IfConfig PPP_MRU (if neg_asyncmap go then asyncmap go else ALLONES)
                              (neg_pcompression go) (neg_accompression go)) w in
  on_link (set_peer_mru PPP_MRU) w.

(** The callbacks that closing and rejecting the protocol need. *)
Definition lcp_closing_callbacks : fsm_callbacks W :=
  FsmCallbacks (Some lcp_resetci) (Some cb_lcp_cilen) (Some cb_lcp_addci) (Some cb_lcp_ackci) None
    (Some cb_lcp_rejci) (Some cb_lcp_reqci) None (Some lcp_down) (Some lcp_starting)
    (Some lcp_finished) None None.

Definition lcp_close (reason : option bytes) (w : W) : W :=
  let w := if pppd_phase (w_lcp w) =? PHASE_DEAD then w else new_phase PHASE_TERMINATE w in
  if bool_decide (state (w_fsm w) = STOPPED)
     && has_bits (flags (w_fsm w)) (Z.lor OPT_PASSIVE OPT_SILENT)
  then lcp_finished (goto CLOSED w)
  else fsm_close lcp_closing_callbacks reason w.

(** "Loopback detected" *)
Definition loopback_reason : bytes :=
  [76; 111; 111; 112; 98; 97; 99; 107; 32; 100; 101; 116; 101; 99; 116; 101; 100].

(** [lcp_nakci]: the parser and, behind it, the update of our options. *)
Definition cb_lcp_nakci (p : bytes) (len : Z) (w : W) : Z * W :=
  let s := w_lcp w in
  match nakci_parse magic (gotoptions s) (wantoptions s) (magic_seed s) p len with
  | Good ns =>
      let w := on_lcp (set_magic_seed (ns_seed ns)) w in
      (1, if decide (state (w_fsm w) = OPENED) then w
          else if ns_looped ns then
            let try := set_numloops (numloops (ns_try ns) + 1) (ns_try ns) in
            let w := if lcp_loopbackfail cfg <=? numloops try
                     then on_lcp (set_pppd_status EXIT_LOOPBACK) (lcp_close (Some loopback_reason) w)
                     else w in
            on_lcp (set_gotoptions try) w
          else on_lcp (set_gotoptions (set_numloops 0 (ns_try ns))) w)
  | Bad => (0, w)
  | Oob => (0, fault w)
  end.

(** ** Echoes *)

(** "Peer not responding" *)
Definition peer_dead_reason : bytes :=
  [80; 101; 101; 114; 32; 110; 111; 116; 32; 114; 101; 115; 112; 111; 110; 100; 105; 110; 103].

Definition LcpLinkFailure (w : W) : W :=
  if decide (state (w_fsm w) = OPENED)
  then on_lcp (set_pppd_status EXIT_PEER_DEAD) (lcp_close (Some peer_dead_reason) w)
  else w.

Definition LcpSendEchoRequest (w : W) : W :=
  let w :=
    if negb (lcp_echo_fails cfg =? 0) && (lcp_echo_fails cfg <=? echos_pending (w_lcp w))
    then on_lcp (set_echos_pending 0) (LcpLinkFailure w)
    else w in
  if decide (state (w_fsm w) = OPENED) then
    let pkt := PUTLONG (magicnumber (gotoptions (w_lcp w))) in
    let n := echo_number (w_lcp w) in
    let w := fsm_sdata ECHOREQ (Z.land n 255) (Data pkt) 4 (on_lcp (set_echo_number (n + 1)) w) in
    on_lcp (fun s => set_echos_pending (echos_pending s + 1) s) w
  else w.

Definition LcpEchoCheck (w : W) : W :=
  let w := LcpSendEchoRequest w in
  if decide (state (w_fsm w) = OPENED) then
    on_lcp (set_echo_timer_running true)
      (on_link (fun l => set_callouts
         (ppptimeout (clock l) echo_timer (lcp_echo_interval cfg) (callouts l)) l) w)
  else w.

Definition LcpEchoTimeout (w : W) : W :=
  if echo_timer_running (w_lcp w)
  then LcpEchoCheck (on_lcp (set_echo_timer_running false) w)
  else w.

Definition lcp_received_echo_reply (inp : bytes) (len : Z) (w : W) : W :=
  if len <? 4 then w else
  match GETLONG inp with
  | None => fault w
  | Some (m, _) =>
      let go := gotoptions (w_lcp w) in
      if neg_magicnumber go && (m =? magicnumber go) then w
      else on_lcp (set_echos_pending 0) w
  end.

Definition lcp_echo_lowerup (w : W) : W :=
  let w := on_lcp (fun s => set_echo_timer_running false (set_echo_number 0 (set_echos_pending 0 s))) w in
  if lcp_echo_interval cfg =? 0 then w else LcpEchoCheck w.

(** ** Up *)

Definition lcp_up (w : W) : W :=
  let w := on_lcp (fun s =>
    let go := gotoptions s in
    let ho := hisoptions s in
    set_hisoptions (if neg_magicnumber ho then ho else set_magicnumber 0 ho)
      (set_gotoptions (if neg_magicnumber go then go else set_magicnumber 0 go) s)) w in
  let wo := wantoptions (w_lcp w) in
  let ho := hisoptions (w_lcp w) in
  let go := gotoptions (w_lcp w) in
  let ao := allowoptions (w_lcp w) in
  let w := ppp_send_config (up_xmit_config ao ho) w in
  let w := ppp_recv_config (up_recv_config (lax_recv cfg) wo go) w in
  let w := if neg_mru ho then on_link (set_peer_mru (mru ho)) w else w in
  link_established (lcp_echo_lowerup w).

(** ** LCP-specific codes *)

Definition lcp_protrej (w : W) : W := fsm_protreject lcp_closing_callbacks w.

Definition lcp_rprotrej (inp : bytes) (len : Z) (w : W) : W :=
  if len <? 2 then w else
  match GETSHORT inp with
  | None => fault w
  | Some (prot, _) =>
      if decide (state (w_fsm w) = OPENED) then
        if prot =? PPP_LCP then lcp_protrej w
        else match protocol_protrej prot with Some protrej => protrej w | None => w end
      else w
  end.

(** [PUTLONG] over the first bytes at [inp], whether the packet has them or
    not: a packet buffer that ends there is overrun. *)
Definition lcp_extcode (code pid : Z) (inp : bytes) (len : Z) (w : W) : bool * W :=
  if code =? PROTREJ then (true, lcp_rprotrej inp len w)
  else if code =? ECHOREQ then
    (true,
     if decide (state (w_fsm w) = OPENED) then
       match store inp 0 (PUTLONG (magicnumber (gotoptions (w_lcp w)))) with
       | Some inp => fsm_sdata ECHOREP pid (Data inp) len w
       | None => fault w
       end
     else w)
  else if code =? ECHOREP then (true, lcp_received_echo_reply inp len w)
  else if code =? DISCREQ then (true, w)
  else (false, w).

Definition lcp_callbacks : fsm_callbacks W :=
  FsmCallbacks (Some lcp_resetci) (Some cb_lcp_cilen) (Some cb_lcp_addci) (Some cb_lcp_ackci)
    (Some cb_lcp_nakci) (Some cb_lcp_rejci) (Some cb_lcp_reqci) (Some lcp_up) (Some lcp_down)
    (Some lcp_starting) (Some lcp_finished) None (Some lcp_extcode).

(** ** Entry points *)

Definition lcp_open (w : W) : W :=
  let wo := wantoptions (w_lcp w) in
  let fl := Z.lor (if passive wo then OPT_PASSIVE else 0) (if silent wo then OPT_SILENT else 0) in
  fsm_open lcp_callbacks (on_fsm (set_flags fl) w).

Definition lcp_lowerup (w : W) : W :=
  let wo := wantoptions (w_lcp w) in
  let w := ppp_set_xaccm (xmit_accm (w_lcp w)) w in
  let w := ppp_send_config (IfConfig PPP_MRU ALLONES false false) w in
  let w := ppp_recv_config (IfConfig PPP_MRU (if lax_recv cfg then 0 else ALLONES)
                              (neg_pcompression wo) (neg_accompression wo)) w in
  let w := on_link (set_peer_mru PPP_MRU) w in
  let w := on_lcp (fun s => set_allowoptions
             (set_asyncmap (default 0 (head (xmit_accm s))) (allowoptions s)) s) w in
  fsm_lowerup lcp_callbacks w.

Definition lcp_lowerdown (w : W) : W := fsm_lowerdown lcp_callbacks w.

Definition lcp_input (p : bytes) (len : Z) (w : W) : W := fsm_input lcp_callbacks p len w.

Definition lcp_sprotrej (p : bytes) (len : Z) (w : W) : W :=
  let w := on_fsm next_id w in
  fsm_sdata PROTREJ (id (w_fsm w)) (Data (drop 2 p)) (len - 2) w.
End Lcp.
