(* ===== verification/LcpSpec.v ===== *)
(** * The Link Control Protocol: theorems

    LCP keeps its side of the automaton's interface, so that the automaton's
    invariant holds over every run of LCP, loopback detection and echo failure
    included; a peer that stops answering echoes is given up; and the Nak
    buffer overflow with the options LCP allows by default. *)

From S2P Require Import Prelude Wire Callout Fsm FsmSpec FsmPackets.
From S2P Require Import LcpOptions LcpOptionsSpec LcpReqci LcpReqciSpec Lcp.

(** ** Laws *)

Class LcpWorldLaws (W : Type) {HW : LcpWorld W} : Prop := {
  lcp_fsm_laws :: FsmWorldLaws W;
  lcp_put_lcp s w : w_lcp (put_lcp s w) = s;
  fsm_put_lcp s w : w_fsm (put_lcp s w) = w_fsm w;
  link_put_lcp s w : w_link (put_lcp s w) = w_link w;
  lcp_put_fsm f w : w_lcp (put_fsm f w) = w_lcp w;
  lcp_put_link l w : w_lcp (put_link l w) = w_lcp w
}.

(** What LCP relies on: the layers above leave its automaton and its timer
    alone, except that establishing the link or a
    rejected authentication protocol may close LCP again. *)
Class AuthLaws (W : Type) {HW : LcpWorld W} {HA : AuthLayer W} : Prop := {
  link_required_quiet w : quiet w (link_required w);
  link_terminated_quiet w : quiet w (link_terminated w);
  link_down_quiet w : quiet w (link_down w);
  auth_reset_quiet w : quiet w (auth_reset w);
  link_established_keeps w : keeps w (link_established w);
  protrej_keeps prot g w : protocol_protrej prot = Some g -> keeps w (g w)
}.

Section Laws.
Context {W : Type} {HW : LcpWorld W} {HL : LcpWorldLaws W} {HA : AuthLayer W} {HAL : AuthLaws W}.
Context (cfg : lcp_config) (magic : nat -> Z).
Implicit Types w : W.

Lemma quiet_refl w : quiet w w.
Proof. done. Qed.

Lemma quiet_trans w1 w2 w3 : quiet w1 w2 -> quiet w2 w3 -> quiet w1 w3.
Proof. intros [? ?] [? ?]. split; congruence. Qed.

Lemma quiet_on_lcp g w : quiet w (on_lcp g w).
Proof. split; [apply fsm_put_lcp|]. unfold pend, on_lcp. by rewrite link_put_lcp. Qed.

Lemma quiet_on_link g w :
  pending fsm_timer (callouts (g (w_link w))) = pending fsm_timer (callouts (w_link w)) ->
  quiet w (on_link g w).
Proof. intros Hp. split; [apply fsm_on_link|]. unfold pend. by rewrite link_on_link. Qed.

Lemma quiet_fault w : quiet w (fault w).
Proof. by apply quiet_on_link. Qed.

Lemma quiet_sdata code pid data n w : quiet w (fsm_sdata code pid data n w).
Proof. split; [apply fsm_fsm_sdata|apply pend_fsm_sdata]. Qed.

Lemma quiet_mru m w : quiet w (on_link (set_peer_mru m) w).
Proof. by apply quiet_on_link. Qed.

Lemma echo_timer_other : echo_timer <> fsm_timer.
Proof. done. Qed.

Lemma lcp_on_lcp g w : w_lcp (on_lcp g w) = g (w_lcp w).
Proof. apply lcp_put_lcp. Qed.
Lemma fsm_on_lcp g w : w_fsm (on_lcp g w) = w_fsm w.
Proof. apply fsm_put_lcp. Qed.
Lemma lcp_on_link g w : w_lcp (on_link g w) = w_lcp w.
Proof. apply lcp_put_link. Qed.
Lemma lcp_on_fsm g w : w_lcp (on_fsm g w) = w_lcp w.
Proof. apply lcp_put_fsm. Qed.

(** ** The interface of the automaton *)

Ltac quiets :=
  repeat first
    [ apply quiet_refl
    | eapply quiet_trans;
      [| first [ apply quiet_on_lcp | apply quiet_mru | apply quiet_fault | apply quiet_sdata
               | apply link_required_quiet | apply link_terminated_quiet
               | apply link_down_quiet | apply auth_reset_quiet ] ] ].

Lemma resetci_is_quiet w : quiet w (lcp_resetci magic w).
Proof. unfold lcp_resetci. quiets. Qed.

Lemma ackci_is_quiet p len w : quiet w (cb_lcp_ackci p len w).2.
Proof. unfold cb_lcp_ackci. destruct (lcp_ackci _ _ _); simpl; quiets. Qed.

Lemma rejci_is_quiet p len w : quiet w (cb_lcp_rejci p len w).2.
Proof. unfold cb_lcp_rejci. destruct (lcp_rejci _ _ _); simpl; try case_decide; quiets. Qed.

Lemma reqci_is_quiet inp len r w : quiet w (cb_lcp_reqci magic inp len r w).2.
Proof.
  unfold cb_lcp_reqci. destruct (lcp_reqci _ _ _ _ _ _ _) as [rep| |]; simpl; [|quiets..].
  destruct (rr_oob rep || rr_overlap rep); quiets.
Qed.

Lemma echo_lowerdown_quiet w : quiet w (lcp_echo_lowerdown w).
Proof.
  unfold lcp_echo_lowerdown. destruct (echo_timer_running _); [|done].
  eapply quiet_trans; [|apply quiet_on_lcp]. apply quiet_on_link.
  apply pending_untimeout_ne, echo_timer_other.
Qed.

Lemma down_is_quiet w : quiet w (lcp_down w).
Proof. unfold lcp_down, ppp_send_config, ppp_recv_config. quiets. apply echo_lowerdown_quiet. Qed.

#[export] Instance lcp_closing_protocol : FsmProtocol (lcp_closing_callbacks magic).
Proof.
  split; intros; simplify_eq/=; try done.
  - apply resetci_is_quiet.
  - apply ackci_is_quiet.
  - apply rejci_is_quiet.
  - apply reqci_is_quiet.
  - apply down_is_quiet.
  - apply link_required_quiet.
  - apply link_terminated_quiet.
Qed.

Lemma lcp_close_keeps reason w : keeps w (lcp_close magic reason w).
Proof.
  intros k Hi. unfold lcp_close. set (w1 := if _ =? _ then _ else _).
  assert (Hi1 : fsm_inv k w1).
  { subst w1. destruct (_ =? _); [done|]. eapply quiet_keeps; [apply quiet_on_lcp|done]. }
  clearbody w1. case_bool_decide as Es; simpl; [|by apply close_inv; [apply lcp_closing_protocol|]].
  destruct (has_bits _ _); [|by apply close_inv; [apply lcp_closing_protocol|]].
  eapply quiet_keeps; [apply link_terminated_quiet|]. destruct Hi1 as [Hp Hs].
  unfold fsm_inv, due in *. rewrite pend_goto fsm_goto. rewrite Es in Hp. split; [done|]. by intros _ [?|?].
Qed.

Lemma nakci_keeps_inv p len w : keeps w (cb_lcp_nakci cfg magic p len w).2.
Proof.
  intros k Hi. unfold cb_lcp_nakci. destruct (nakci_parse _ _ _ _ _ _) as [ns| |]; simpl;
    [|done|by eapply quiet_keeps; [apply quiet_fault|]].
  set (w1 := on_lcp _ w). assert (Hi1 : fsm_inv k w1) by (by eapply quiet_keeps; [apply quiet_on_lcp|]).
  clearbody w1. case_decide; [done|]. destruct (ns_looped ns).
  - eapply quiet_keeps; [apply quiet_on_lcp|]. destruct (_ <=? _); [|done].
    eapply quiet_keeps; [apply quiet_on_lcp|]. by apply lcp_close_keeps.
  - by eapply quiet_keeps; [apply quiet_on_lcp|].
Qed.

Lemma send_echo_keeps w : keeps w (LcpSendEchoRequest cfg magic w).
Proof.
  intros k Hi. unfold LcpSendEchoRequest, LcpLinkFailure. set (w1 := if _ && _ then _ else _).
  assert (Hi1 : fsm_inv k w1).
  { subst w1. destruct (_ && _); [|done]. eapply quiet_keeps; [apply quiet_on_lcp|].
    case_decide; [|done]. eapply quiet_keeps; [apply quiet_on_lcp|]. by apply lcp_close_keeps. }
  clearbody w1. case_decide; [|done]. eapply quiet_keeps; [|exact Hi1]. quiets.
Qed.

Lemma echo_check_keeps w : keeps w (LcpEchoCheck cfg magic w).
Proof.
  intros k Hi. unfold LcpEchoCheck. pose proof (send_echo_keeps w k Hi) as Hs.
  case_decide; [|done]. eapply quiet_keeps; [apply quiet_on_lcp|].
  eapply quiet_keeps; [|exact Hs]. apply quiet_on_link. simpl.
  by rewrite pending_timeout.
Qed.

Lemma up_keeps_inv w : keeps w (lcp_up cfg magic w).
Proof.
  intros k Hi. unfold lcp_up. apply link_established_keeps. unfold lcp_echo_lowerup.
  match goal with |- fsm_inv k (if _ then on_lcp ?g ?w1 else _) => assert (Hq : quiet w (on_lcp g w1)) end.
  { unfold ppp_send_config, ppp_recv_config. quiets. destruct (neg_mru _); quiets. }
  apply quiet_keeps in Hq. destruct (_ =? 0); [by apply Hq|]. by apply echo_check_keeps, Hq.
Qed.

Lemma protreject_keeps w : keeps w (lcp_protrej magic w).
Proof. intros k Hi. by apply protreject_inv; [apply lcp_closing_protocol|]. Qed.

Lemma extcode_keeps_inv code pid inp len w : keeps w (lcp_extcode magic code pid inp len w).2.
Proof.
  intros k Hi. unfold lcp_extcode. destruct (code =? PROTREJ); simpl.
  { unfold lcp_rprotrej. destruct (len <? 2); [done|].
    destruct (GETSHORT inp) as [[prot ?]|]; [|by eapply quiet_keeps; [apply quiet_fault|]].
    case_decide; [|done]. destruct (prot =? PPP_LCP); [by apply protreject_keeps|].
    destruct (protocol_protrej prot) eqn:E; [|done]. by eapply protrej_keeps. }
  destruct (code =? ECHOREQ); simpl.
  { case_decide; [|done]. destruct (store _ _ _); (eapply quiet_keeps; [|exact Hi]); quiets. }
  destruct (code =? ECHOREP); simpl; [|by destruct (code =? DISCREQ)].
  unfold lcp_received_echo_reply. destruct (len <? 4); [done|].
  destruct (GETLONG inp) as [[m ?]|]; [|by eapply quiet_keeps; [apply quiet_fault|]].
  destruct (_ && _); [done|]. by eapply quiet_keeps; [apply quiet_on_lcp|].
Qed.

#[export] Instance lcp_protocol : FsmProtocol (lcp_callbacks cfg magic).
Proof.
  split; intros; simplify_eq/=; try done.
  - apply resetci_is_quiet.
  - apply ackci_is_quiet.
  - apply rejci_is_quiet.
  - apply reqci_is_quiet.
  - apply down_is_quiet.
  - apply link_required_quiet.
  - apply link_terminated_quiet.
  - apply up_keeps_inv.
  - apply nakci_keeps_inv.
  - apply extcode_keeps_inv.
Qed.
End Laws.

(** ** Runs of LCP *)

Section Runs.
Context {W : Type} {HW : LcpWorld W} {HL : LcpWorldLaws W} {HA : AuthLayer W} {HAL : AuthLaws W}.
Context (cfg : lcp_config) (magic : nat -> Z).
Implicit Types w : W.

(** The calls of the daemon into LCP, its two timers, and steps of other parts
    of the daemon. *)
Inductive lcp_step : W -> W -> Prop :=
  | step_open w : lcp_step w (lcp_open cfg magic w)
  | step_close reason w : lcp_step w (lcp_close magic reason w)
  | step_lowerup w : lcp_step w (lcp_lowerup cfg magic w)
  | step_lowerdown w : lcp_step w (lcp_lowerdown cfg magic w)
  | step_input p len w : ~ stray_termack p len w -> lcp_step w (lcp_input cfg magic p len w)
  | step_protrej w : lcp_step w (lcp_protrej magic w)
  | step_sprotrej p len w : lcp_step w (lcp_sprotrej p len w)
  | step_fsm_timer w : pend w <> 0%nat -> lcp_step w (fire (lcp_callbacks cfg magic) w)
  | step_echo_timer w : lcp_step w (LcpEchoTimeout cfg magic w)
  | step_other w w' : quiet w w' -> lcp_step w w'.

(** The states of the runs of LCP, with the number of Terminate-Acks that
    have reached it while it was open. *)
Inductive lcp_runs : nat -> W -> Prop :=
  | lcp_run_init w f s : w_fsm w = (lcp_init f s).1 -> pend w = 0%nat -> lcp_runs 0 w
  | lcp_run_step k w w' : lcp_runs k w -> lcp_step w w' -> lcp_runs k w'
  | lcp_run_stray k w p len :
      lcp_runs k w -> stray_termack p len w -> lcp_runs (S k) (lcp_input cfg magic p len w).

Lemma lcp_step_keeps w w' : lcp_step w w' -> keeps w w'.
Proof.
  intros Hs k Hi. destruct Hs as [w|reason w|w|w|p len w Hst|w|p len w|w Hp|w|w w' Hq].
  - unfold lcp_open. apply open_inv; [apply lcp_protocol|]. destruct Hi as [? ?].
    unfold fsm_inv, due. rewrite pend_on_fsm fsm_on_fsm. by split.
  - by apply lcp_close_keeps.
  - unfold lcp_lowerup. apply lowerup_inv; [apply lcp_protocol|].
    unfold ppp_set_xaccm, ppp_send_config, ppp_recv_config.
    repeat (eapply quiet_keeps; [first [apply quiet_on_lcp|apply quiet_mru]|]). done.
  - apply lowerdown_inv; [apply lcp_protocol|done].
  - apply input_inv; [apply lcp_protocol|done|done].
  - by apply protreject_keeps.
  - unfold lcp_sprotrej. eapply quiet_keeps; [apply quiet_sdata|]. destruct Hi as [? ?].
    unfold fsm_inv, due. rewrite pend_on_fsm fsm_on_fsm. by split.
  - apply fire_inv; [apply lcp_protocol|done].
  - unfold LcpEchoTimeout. destruct (echo_timer_running _); [|done].
    apply echo_check_keeps. eapply quiet_keeps; [apply quiet_on_lcp|done].
  - by eapply quiet_keeps.
Qed.

(** LCP honours the automaton.  Over every run of LCP, with options
    negotiated, Naks that reveal a loopback, echo failures that close the link
    and Protocol-Rejects, the retransmission timer runs while LCP waits for the
    peer, with at most one timeout more than the state asks for per Terminate-Ack
    that has reached it while it was open; if there was none, an accepted Ack is
    remembered until the negotiation is restarted. *)
Theorem lcp_runs_keep_timer k w :
  lcp_runs k w ->
  (due w <= pend w <= due w + k)%nat /\
  (k = 0%nat -> state (w_fsm w) = ACKRCVD \/ state (w_fsm w) = OPENED -> seen_ack (w_fsm w) = true).
Proof.
  induction 1 as [w f s Hf Hp|k w w' _ IH Hs|k w p len _ IH Hs].
  - unfold due. rewrite Hf Hp. split; [done|]. by intros _ [?|?].
  - by apply (lcp_step_keeps w w').
  - by apply (stray_inv _ _ _ _ _ Hs).
Qed.

(** ** Echoes *)

(** The link is open and its echo timer runs. *)
Definition echoing w : Prop := state (w_fsm w) = OPENED /\ echo_timer_running (w_lcp w) = true.

Lemma fsm_close_opened cb reason w :
  FsmProtocol cb -> state (w_fsm w) = OPENED -> state (w_fsm (fsm_close cb reason w)) = CLOSING.
Proof.
  intros Hcb Ho. unfold fsm_close. rewrite fsm_on_fsm /= Ho.
  case_decide; by autorewrite with fsm.
Qed.

Lemma lcp_close_opened reason w :
  state (w_fsm w) = OPENED -> state (w_fsm (lcp_close magic reason w)) = CLOSING.
Proof.
  intros Ho. unfold lcp_close. set (w1 := if _ =? _ then _ else _).
  assert (Ho1 : state (w_fsm w1) = OPENED).
  { subst w1. destruct (_ =? _); [done|]. by rewrite fsm_on_lcp. }
  clearbody w1. rewrite bool_decide_false; [congruence|]. simpl.
  apply fsm_close_opened; [apply lcp_closing_protocol|done].
Qed.

(** An expiry of the echo timer with fewer unanswered echoes than tolerated
    sends one more. *)
Lemma echo_timeout_more w :
  echoing w -> lcp_echo_fails cfg <> 0 -> echos_pending (w_lcp w) < lcp_echo_fails cfg ->
  echoing (LcpEchoTimeout cfg magic w) /\
  echos_pending (w_lcp (LcpEchoTimeout cfg magic w)) = echos_pending (w_lcp w) + 1.
Proof.
  intros [Ho Hr] Hf Hlt. unfold LcpEchoTimeout, LcpEchoCheck, LcpSendEchoRequest, echoing. rewrite Hr.
  rewrite lcp_on_lcp /= (proj2 (Z.leb_gt _ _) Hlt) andb_false_r.
  assert (Hd : state (w_fsm (on_lcp (set_echo_timer_running false) w)) = OPENED) by by rewrite fsm_on_lcp.
  rewrite (decide_True _ _ Hd).
  set (w1 := on_lcp (fun s => set_echos_pending _ s) _).
  assert (Hw1 : state (w_fsm w1) = OPENED /\ echos_pending (w_lcp w1) = echos_pending (w_lcp w) + 1).
  { subst w1. rewrite fsm_on_lcp fsm_fsm_sdata fsm_on_lcp Hd lcp_on_lcp. split; [done|]. simpl.
    unfold fsm_sdata. by rewrite lcp_on_link !lcp_on_lcp. }
  clearbody w1. destruct Hw1 as [Hs1 He1]. rewrite (decide_True _ _ Hs1).
  rewrite !lcp_on_lcp fsm_on_lcp fsm_on_link lcp_on_link. simpl. by rewrite Hs1 He1.
Qed.

(** With as many unanswered echoes as tolerated it closes the link. *)
Lemma echo_timeout_last w :
  echoing w -> lcp_echo_fails cfg <> 0 -> lcp_echo_fails cfg <= echos_pending (w_lcp w) ->
  state (w_fsm (LcpEchoTimeout cfg magic w)) = CLOSING /\
  pppd_status (w_lcp (LcpEchoTimeout cfg magic w)) = EXIT_PEER_DEAD.
Proof.
  intros [Ho Hr] Hf Hle. unfold LcpEchoTimeout, LcpEchoCheck, LcpSendEchoRequest, LcpLinkFailure. rewrite Hr.
  rewrite lcp_on_lcp /= (proj2 (Z.leb_le _ _) Hle) (proj2 (Z.eqb_neq _ _) Hf). simpl.
  assert (Hd : state (w_fsm (on_lcp (set_echo_timer_running false) w)) = OPENED) by by rewrite fsm_on_lcp.
  rewrite (decide_True _ _ Hd).
  pose proof (lcp_close_opened (Some peer_dead_reason) _ Hd) as Hc.
  set (w1 := lcp_close _ _ _) in *. clearbody w1.
  assert (Hd1 : state (w_fsm (on_lcp (set_echos_pending 0) (on_lcp (set_pppd_status EXIT_PEER_DEAD) w1))) <> OPENED).
  { rewrite !fsm_on_lcp Hc. done. }
  rewrite !(decide_False _ _ Hd1) !fsm_on_lcp !lcp_on_lcp. by split.
Qed.

(** A dead peer is given up.  With a tolerance of [n] unanswered echoes,
    an open link on which no echo is answered is being closed, with the status
    that says so, after the expiries of the echo timer that use up the
    tolerance and one more. *)
Theorem lcp_echo_gives_up w k :
  echoing w -> lcp_echo_fails cfg <> 0 -> 0 <= echos_pending (w_lcp w) <= lcp_echo_fails cfg ->
  k = Z.to_nat (lcp_echo_fails cfg - echos_pending (w_lcp w)) ->
  let w' := Nat.iter (S k) (LcpEchoTimeout cfg magic) w in
  state (w_fsm w') = CLOSING /\ pppd_status (w_lcp w') = EXIT_PEER_DEAD.
Proof.
  intros He Hf Hp Hk w'. subst w'. rewrite Nat.iter_succ_r. revert w He Hp Hk.
  induction k as [|k IH]; intros w He Hp Hk; cbn [Nat.iter nat_rect].
  - apply echo_timeout_last; [done|done|lia].
  - destruct (echo_timeout_more w He Hf ltac:(lia)) as [He' Hp'].
    change (LcpEchoTimeout cfg magic (nat_rect _ ?a _ ?b)) with (Nat.iter (S b) (LcpEchoTimeout cfg magic) a).
    rewrite Nat.iter_succ_r. apply IH; [done|lia|lia].
Qed.
End Runs.

(** ** The Nak buffer *)

(** A request of [n] authentication options for a protocol nobody knows. *)
Definition auth_flood (n : nat) : bytes := concat (replicate n [CI_AUTHTYPE; CILEN_SHORT; 0; 1]).

(** The Nak buffer overflows.  With the options LCP allows after
    [lcp_init], a request that fills a packet with four-byte authentication
    options is answered by a Nak of five bytes for each: 1870 bytes in a buffer
    of 1500, whether or not the daemon then rejects instead. *)
Theorem lcp_reqci_nak_overflows magic go seed rid ao :
  exists r,
    lcp_reqci magic (lcp_allow_init ao) go seed (auth_flood 374) 1496 rid = Good r /\
    rr_oob r = true /\ (rid = false -> rr_code r = CONFNAK /\ rr_len r = 1870).
Proof.
  destruct rid; eexists; (split; [vm_compute; reflexivity|]); (split; [vm_compute; reflexivity|]); [done|].
  intros _. by vm_compute.
Qed.

(** ** A concrete daemon *)

Record ldaemon := LDaemon { d_fsm : fsm; d_link : link; d_lcp : lcp }.

Definition ldaemon_fsm : FsmWorld ldaemon := {|
  w_fsm := d_fsm;
  put_fsm f w := LDaemon f (d_link w) (d_lcp w);
  w_link := d_link;
  put_link l w := LDaemon (d_fsm w) l (d_lcp w);
  fsm_addr := 0
|}.

#[export] Instance ldaemon_lcp : LcpWorld ldaemon := {
  lcp_fsm_world := ldaemon_fsm;
  w_lcp := d_lcp;
  put_lcp s w := LDaemon (d_fsm w) (d_link w) s
}.

#[export] Instance ldaemon_laws : LcpWorldLaws ldaemon.
Proof. by repeat split. Qed.

(** Nothing above the link. *)
#[export] Instance no_auth : AuthLayer ldaemon := {
  link_required w := w; link_terminated w := w; link_down w := w; link_established w := w;
  auth_reset w := w; protocol_protrej _ := None
}.

#[export] Instance no_auth_laws : AuthLaws ldaemon.
Proof. split; try done; intros; simplify_eq/=; by intros ?. Qed.

Definition some_config : lcp_config := LcpConfig 10 3 10 false.
Definition some_magic (n : nat) : Z := 287454020 + Z.of_nat n.

Definition blank_lcp : lcp :=
  let c := IfConfig 0 0 false false in
  Lcp no_options no_options no_options no_options [] 0 0 false 0 1 0 c c [].

Definition booted : ldaemon :=
  let '(f, s) := lcp_init (Fsm 0 0 INITIAL 0 0 0 false 0 0 0 0 0 0 [] 0) blank_lcp in
  LDaemon f (Link PPP_MRU (replicate OUTPACKET_SIZE 0) [] false [] (Timeval 0 0)) s.

Definition pkt (code pid : Z) (data : bytes) : bytes :=
  PUTCHAR code ++ PUTCHAR pid ++ PUTSHORT (Z.of_nat (length data) + 4) ++ data.

(** Our request after [lcp_open] and [lcp_lowerup]. *)
Definition requesting : ldaemon :=
  lcp_lowerup some_config some_magic (lcp_open some_config some_magic booted).

Definition our_options : bytes := lcp_addci (gotoptions (d_lcp requesting)).

(** The peer asks for an MRU of 2000 and acknowledges our request. *)
Definition negotiated : ldaemon :=
  let ask := pkt CONFREQ 1 [CI_MRU; CILEN_SHORT; 7; 208] in
  let ack := pkt CONFACK 101 our_options in
  lcp_input some_config some_magic ack (Z.of_nat (length ack))
    (lcp_input some_config some_magic ask (Z.of_nat (length ask)) requesting).

Definition our_request : lcp_options := gotoptions (d_lcp requesting).
Definition our_allowance : lcp_options := allowoptions (d_lcp requesting).

Lemma our_request_ok : options_ok our_request.
Proof. split; by vm_compute. Qed.

Lemma our_allowance_ok : options_ok our_allowance.
Proof. split; by vm_compute. Qed.

(** Decide that a concrete packet is made of bytes. *)
Ltac bytes_ok := vm_compute; repeat constructor; discriminate.
Ltac len_ok := vm_compute; split; discriminate.

Lemma lcp_ackci_exact_witness :
  lcp_ackci our_request our_options (Z.of_nat (length our_options)) = Good tt.
Proof.
  rewrite (proj2 (lcp_ackci_exact our_request our_options (Z.of_nat (length our_options))
    our_request_ok ltac:(bytes_ok) ltac:(len_ok))).
  vm_compute. reflexivity.
Defined.

Lemma lcp_rejci_exact_witness :
  picked (rej_items our_request) [CI_PCOMPRESSION; 2] our_request (set_neg_pcompression false our_request).
Proof.
  apply (proj2 (lcp_rejci_exact our_request [CI_PCOMPRESSION; 2] 2 our_request_ok
                  ltac:(bytes_ok) ltac:(len_ok))).
  vm_compute. reflexivity.
Defined.

Lemma lcp_nakci_narrows_witness :
  exists s, nakci_parse (fun _ => 7) our_request our_request 0 [CI_ASYNCMAP; 6; 0; 10; 0; 0] 6 = Good s /\
    narrowed our_request our_request (ns_try s) /\ asyncmap (ns_try s) = 655360.
Proof.
  pose proof (lcp_nakci_narrows (fun _ => 7) our_request our_request 0 [CI_ASYNCMAP; 6; 0; 10; 0; 0] 6
    ltac:(intros n; lia) our_request_ok ltac:(bytes_ok) ltac:(len_ok)) as H.
  destruct (nakci_parse _ _ _ _ _ _) as [s| |] eqn:E; [|discriminate E|destruct H].
  exists s. split; [reflexivity|]. split; [exact (proj1 H)|].
  vm_compute in E. injection E as <-. reflexivity.
Defined.

(** An MRU that is too small, and protocol compression. *)
Definition small_mru : bytes := [CI_MRU; 4; 0; 64; CI_PCOMPRESSION; 2].

(** An option that is kept, and an unknown one that is as long, or longer. *)
Definition unknown_after (n : nat) : bytes := [CI_PCOMPRESSION; 2; 99; 2 + Z.of_nat n] ++ replicate n 7.

Lemma lcp_reqci_verdict_witness :
  (exists r, lcp_reqci some_magic our_allowance our_request 1 small_mru 6 false = Good r /\
     rr_code r = CONFNAK /\ take (Z.to_nat (rr_len r)) (rr_buf r) = [CI_MRU; 4; 0; 128]) /\
  (exists r, lcp_reqci some_magic our_allowance our_request 1 (unknown_after 0) 4 false = Good r /\
     rr_code r = CONFREJ /\ take (Z.to_nat (rr_len r)) (rr_buf r) = [99; 2]) /\
  (exists r, lcp_reqci some_magic our_allowance our_request 1 (unknown_after 2) 6 false = Good r /\
     rr_code r = CONFREJ /\ rr_len r = 4 /\ rr_overlap r = true).
Proof.
  split; [|split].
  - destruct (lcp_reqci_verdict some_magic our_allowance our_request false 1 small_mru 6
                ltac:(bytes_ok) ltac:(len_ok)) as (js & ho & seed & r & Hj & _ & Hr & Hc & _ & _ & _ & _ & Hov & Ht).
    vm_compute in Hj. injection Hj as <- _ _.
    exists r. split; [exact Hr|]. rewrite Hc. rewrite Ht; [apply Hov; vm_compute; discriminate|].
    vm_compute. split; reflexivity.
  - destruct (lcp_reqci_verdict some_magic our_allowance our_request false 1 (unknown_after 0) 4
                ltac:(bytes_ok) ltac:(len_ok)) as (js & ho & seed & r & Hj & _ & Hr & Hc & _ & _ & _ & Hov & _ & Ht).
    vm_compute in Hj. injection Hj as <- _ _.
    exists r. split; [exact Hr|]. rewrite Hc. rewrite Ht; [rewrite Hov; vm_compute; reflexivity|].
    vm_compute. split; reflexivity.
  - destruct (lcp_reqci_verdict some_magic our_allowance our_request false 1 (unknown_after 2) 6
                ltac:(bytes_ok) ltac:(len_ok)) as (js & ho & seed & r & Hj & _ & Hr & Hc & _ & _ & Hl & Hov & _ & _).
    vm_compute in Hj. injection Hj as <- _ _.
    exists r. split; [exact Hr|]. rewrite Hc Hl Hov. vm_compute. split_and!; reflexivity.
Defined.

Lemma lcp_reqci_records_allowed_witness :
  exists r, lcp_reqci some_magic our_allowance our_request 1 [CI_MRU; 4; 7; 208] 4 false = Good r /\
    allowed our_allowance our_request (rr_ho r) /\ mru (rr_ho r) = 2000.
Proof.
  eexists. split; [vm_compute; reflexivity|]. split; [|reflexivity].
  apply (lcp_reqci_records_allowed some_magic our_allowance our_request false 1 [CI_MRU; 4; 7; 208] 4);
    [exact our_allowance_ok|bytes_ok|len_ok|vm_compute; reflexivity].
Defined.

Lemma lcp_reqci_tough_nak_is_loopback_witness :
  exists r, lcp_reqci some_magic our_allowance our_request 1 (own_magic our_request) 6 true = Good r /\
    rr_code r = CONFNAK /\ neg_magicnumber our_request = true.
Proof.
  eexists. split; [vm_compute; reflexivity|]. split; [reflexivity|].
  apply (lcp_reqci_tough_nak_is_loopback some_magic our_allowance our_request 1 (own_magic our_request) 6
           _ our_request_ok ltac:(bytes_ok) ltac:(len_ok) ltac:(vm_compute; reflexivity) eq_refl).
Defined.

Lemma lcp_reqci_nak_fits_witness :
  exists r, lcp_reqci some_magic our_allowance our_request 1 (small_mru ++ [0; 0]) 6 false = Good r /\
    rr_oob r = false.
Proof.
  eexists. split; [vm_compute; reflexivity|].
  apply (lcp_reqci_nak_fits some_magic our_allowance our_request false 1 (small_mru ++ [0; 0]) 6);
    [bytes_ok|len_ok|vm_compute; discriminate|vm_compute; discriminate|vm_compute; reflexivity].
Defined.

Lemma lcp_runs_keep_timer_witness :
  state (w_fsm requesting) = REQSENT /\ pend requesting = 1%nat.
Proof.
  split; [reflexivity|].
  assert (Hr : lcp_runs some_config some_magic 0 requesting).
  { unfold requesting. eapply lcp_run_step; [|apply step_lowerup].
    eapply lcp_run_step; [|apply step_open].
    apply (lcp_run_init _ _ _ (Fsm 0 0 INITIAL 0 0 0 false 0 0 0 0 0 0 [] 0) blank_lcp); reflexivity. }
  destruct (lcp_runs_keep_timer some_config some_magic 0 requesting Hr) as [[H1 H2] _].
  apply (Nat.le_antisymm _ _ H2 H1).
Defined.

Lemma negotiated_echoing : echoing negotiated.
Proof. split; vm_compute; reflexivity. Qed.

Lemma negotiated_pending : 0 <= echos_pending (w_lcp negotiated) <= lcp_echo_fails some_config.
Proof. vm_compute. split; discriminate. Qed.

Lemma negotiated_left : 2%nat = Z.to_nat (lcp_echo_fails some_config - echos_pending (w_lcp negotiated)).
Proof. vm_compute. reflexivity. Qed.

Lemma lcp_echo_gives_up_witness :
  let w := Nat.iter 3 (LcpEchoTimeout some_config some_magic) negotiated in
  state (w_fsm w) = CLOSING /\ pppd_status (w_lcp w) = EXIT_PEER_DEAD.
Proof.
  exact (lcp_echo_gives_up some_config some_magic negotiated 2 negotiated_echoing
           ltac:(discriminate) negotiated_pending negotiated_left).
Defined.
