(* ===== verification/Upap.v ===== *)
(** * The Password Authentication Protocol: definitions

    [upap.c], function by function: the client that authenticates us with the
    peer and the server that authenticates the peer.  It runs over the state of
    the daemon's link ([FsmWorld]); what it reports to [auth.c] is the
    interface [AuthEvents]. *)

From S2P Require Import Prelude Wire Callout Fsm LcpOptions.

Definition UPAP_HEADERLEN := 4.
Definition UPAP_AUTHREQ := 1.
Definition UPAP_AUTHACK := 2.
Definition UPAP_AUTHNAK := 3.
Definition UPAP_DEFTIMEOUT := 5.
Definition UPAP_DEFREQTIME := 30.

Inductive upap_client :=
  | UPAPCS_INITIAL | UPAPCS_CLOSED | UPAPCS_PENDING | UPAPCS_AUTHREQ | UPAPCS_OPEN | UPAPCS_BADAUTH.

Inductive upap_server :=
  | UPAPSS_INITIAL | UPAPSS_CLOSED | UPAPSS_PENDING | UPAPSS_LISTEN | UPAPSS_OPEN | UPAPSS_BADAUTH.

#[export] Instance upap_client_eq_dec : EqDecision upap_client.
Proof. solve_decision. Defined.
#[export] Instance upap_server_eq_dec : EqDecision upap_server.
Proof. solve_decision. Defined.

(** Strings without their terminating zero; a null pointer is the empty one.
    The last two fields are not in memory.  They are history: has the server
    (the client) been open since it last began to wait? *)
Record upap_state := Upap {
  us_user : bytes;
  us_userlen : Z;
  us_passwd : bytes;
  us_passwdlen : Z;
  us_clientstate : upap_client;
  us_serverstate : upap_server;
  us_id : Z;
  us_timeouttime : Z;
  us_transmits : Z;
  us_maxtransmits : Z;
  us_reqtimeout : Z;
  us_peer_passed : bool;
  us_self_passed : bool
}.

(** The history a new state of the server, and of the client, leads to. *)
Definition server_passed (s : upap_server) (before : bool) : bool :=
  match s with
  | UPAPSS_OPEN => true
  | UPAPSS_PENDING | UPAPSS_LISTEN => false
  | _ => before
  end.
Definition client_passed (s : upap_client) (before : bool) : bool :=
  match s with
  | UPAPCS_OPEN => true
  | UPAPCS_PENDING | UPAPCS_AUTHREQ => false
  | _ => before
  end.

Definition set_credentials (user passwd : bytes) u :=
  Upap user (Z.of_nat (length user)) passwd (Z.of_nat (length passwd)) (us_clientstate u)
    (us_serverstate u) (us_id u) (us_timeouttime u) 0 (us_maxtransmits u) (us_reqtimeout u)
    (us_peer_passed u) (us_self_passed u).
Definition set_clientstate s u :=
  Upap (us_user u) (us_userlen u) (us_passwd u) (us_passwdlen u) s (us_serverstate u) (us_id u)
    (us_timeouttime u) (us_transmits u) (us_maxtransmits u) (us_reqtimeout u)
    (us_peer_passed u) (client_passed s (us_self_passed u)).
Definition set_serverstate s u :=
  Upap (us_user u) (us_userlen u) (us_passwd u) (us_passwdlen u) (us_clientstate u) s (us_id u)
    (us_timeouttime u) (us_transmits u) (us_maxtransmits u) (us_reqtimeout u)
    (server_passed s (us_peer_passed u)) (us_self_passed u).
Definition set_us_id v u :=
  Upap (us_user u) (us_userlen u) (us_passwd u) (us_passwdlen u) (us_clientstate u)
    (us_serverstate u) v (us_timeouttime u) (us_transmits u) (us_maxtransmits u) (us_reqtimeout u)
    (us_peer_passed u) (us_self_passed u).
Definition set_transmits v u :=
  Upap (us_user u) (us_userlen u) (us_passwd u) (us_passwdlen u) (us_clientstate u)
    (us_serverstate u) (us_id u) (us_timeouttime u) v (us_maxtransmits u) (us_reqtimeout u)
    (us_peer_passed u) (us_self_passed u).

(** [us_transmits] is the only field [upap_init] leaves as it is. *)
Definition upap_init (u : upap_state) : upap_state :=
  Upap [] 0 [] 0 UPAPCS_INITIAL UPAPSS_INITIAL 0 UPAP_DEFTIMEOUT (us_transmits u) 10 UPAP_DEFREQTIME
    false false.

(** ** Packets *)

(** What [upap_sauthreq] writes to [outpacket_buf]. *)
Definition authreq_packet (pid : Z) (u : upap_state) : bytes :=
  MAKEHEADER PPP_PAP ++ PUTCHAR UPAP_AUTHREQ ++ PUTCHAR pid
  ++ PUTSHORT (UPAP_HEADERLEN + 2 + us_userlen u + us_passwdlen u)
  ++ PUTCHAR (us_userlen u) ++ take (Z.to_nat (us_userlen u)) (us_user u)
  ++ PUTCHAR (us_passwdlen u) ++ take (Z.to_nat (us_passwdlen u)) (us_passwd u).

(** The same for [upap_sresp]. *)
Definition sresp_packet (code pid : Z) (msg : bytes) (msglen : Z) : bytes :=
  MAKEHEADER PPP_PAP ++ PUTCHAR code ++ PUTCHAR pid ++ PUTSHORT (UPAP_HEADERLEN + 1 + msglen)
  ++ PUTCHAR msglen ++ take (Z.to_nat msglen) msg.

(** The user name and the password of a request; [Bad] drops the packet, [Oob]
    is a read behind the bytes that are there. *)
Definition parse_authreq (inp : bytes) (len : Z) : parse (bytes * bytes) :=
  if len <? 1 then Bad else
  '(ruserlen, inp) ← get (GETCHAR inp);
  let len := len - (1 + ruserlen + 1) in
  if len <? 0 then Bad else
  let ruser := take (Z.to_nat ruserlen) inp in
  '(rpasswdlen, inp) ← get (GETCHAR (drop (Z.to_nat ruserlen) inp));
  if len <? rpasswdlen then Bad
  else if Z.of_nat (length inp) <? rpasswdlen then Oob
  else Good (ruser, take (Z.to_nat rpasswdlen) inp).

(** The message of an Ack or a Nak, which is only logged: [Bad] when it is
    longer than the packet. *)
Definition parse_message (inp : bytes) (len : Z) : parse () :=
  if len <? 1 then Good tt else
  '(msglen, inp) ← get (GETCHAR inp);
  if 0 <? msglen then
    if len - 1 <? msglen then Bad
    else if Z.of_nat (length inp) <? msglen then Oob
    else Good tt
  else Good tt.

(** The header checks of [upap_input]. *)
Definition upap_header (inpacket : bytes) (l : Z) : parse (Z * Z * Z * bytes) :=
  if l <? UPAP_HEADERLEN then Bad else
  '(code, inp) ← get (GETCHAR inpacket);
  '(pid, inp) ← get (GETCHAR inp);
  '(len, inp) ← get (GETSHORT inp);
  if len <? UPAP_HEADERLEN then Bad
  else if l <? len then Bad
  else Good (code, pid, len - UPAP_HEADERLEN, inp).

(** ** The state PAP runs in *)

Class UpapWorld (W : Type) {HF : FsmWorld W} := {
  w_upap : W -> upap_state;
  put_upap : upap_state -> W -> W;
  (** the address of the [upap_state], the argument of its timers *)
  upap_addr : Z
}.

(** What PAP and CHAP call in [auth.c].  [bad_msg] is the string the local
    variable [msg] of [upap_rauthreq] happens to point to: [check_passwd] never
    assigns it.  [get_secret client server am_server] is the secret, if there is
    one. *)
Class AuthEvents (W : Type) := {
  check_passwd : bytes -> bytes -> Z;
  bad_msg : bytes;
  get_secret : bytes -> bytes -> bool -> W -> option bytes;
  auth_peer_fail : Z -> W -> W;
  auth_peer_success : Z -> bytes -> W -> W;
  auth_withpeer_fail : Z -> W -> W;
  auth_withpeer_success : Z -> W -> W
}.

Section Upap.
Context {W : Type} {HF : FsmWorld W} {HW : UpapWorld W}.

Definition on_upap (g : upap_state -> upap_state) (w : W) : W := put_upap (g (w_upap w)) w.

(** [TIMEOUT(f, u, time)] and [UNTIMEOUT(f, u)] *)
Definition arm (t : timer) (time : Z) (w : W) : W :=
  on_link (fun l => set_callouts (ppptimeout (clock l) t time (callouts l)) l) w.
Definition disarm (t : timer) (w : W) : W :=
  on_link (fun l => set_callouts (pppuntimeout t (callouts l)) l) w.

Definition retry_timer : timer := Timer fn_upap_timeout upap_addr.
Definition request_timer : timer := Timer fn_upap_reqtimeout upap_addr.

(** ** Sending *)

Definition upap_sauthreq (w : W) : W :=
  let w := on_upap (fun u => set_us_id (u8 (us_id u + 1)) u) w in
  let u := w_upap w in
  let outlen := UPAP_HEADERLEN + 2 + us_userlen u + us_passwdlen u in
  let w := on_link (fun l => output (outlen + PPP_HDRLEN) (link_store 0 (authreq_packet (us_id u) u) l)) w in
  let w := arm retry_timer (us_timeouttime u) w in
  on_upap (fun u => set_clientstate UPAPCS_AUTHREQ (set_transmits (us_transmits u + 1) u)) w.

Definition upap_sresp (code pid : Z) (msg : bytes) (msglen : Z) (w : W) : W :=
  let outlen := UPAP_HEADERLEN + 1 + msglen in
  on_link (fun l => output (outlen + PPP_HDRLEN) (link_store 0 (sresp_packet code pid msg msglen) l)) w.

(** ** Starting *)

Definition upap_authwithpeer (user password : bytes) (w : W) : W :=
  let w := on_upap (set_credentials user password) w in
  match us_clientstate (w_upap w) with
  | UPAPCS_INITIAL | UPAPCS_PENDING => on_upap (set_clientstate UPAPCS_PENDING) w
  | _ => upap_sauthreq w
  end.

(** Enter LISTEN, with the timer that waits for a request. *)
Definition upap_listen (w : W) : W :=
  let w := on_upap (set_serverstate UPAPSS_LISTEN) w in
  if 0 <? us_reqtimeout (w_upap w) then arm request_timer (us_reqtimeout (w_upap w)) w else w.

Definition upap_authpeer (w : W) : W :=
  match us_serverstate (w_upap w) with
  | UPAPSS_INITIAL | UPAPSS_PENDING => on_upap (set_serverstate UPAPSS_PENDING) w
  | _ => upap_listen w
  end.

Definition upap_lowerup (w : W) : W :=
  let w :=
    match us_clientstate (w_upap w) with
    | UPAPCS_INITIAL => on_upap (set_clientstate UPAPCS_CLOSED) w
    | UPAPCS_PENDING => upap_sauthreq w
    | _ => w
    end in
  match us_serverstate (w_upap w) with
  | UPAPSS_INITIAL => on_upap (set_serverstate UPAPSS_CLOSED) w
  | UPAPSS_PENDING => upap_listen w
  | _ => w
  end.

Definition upap_lowerdown (w : W) : W :=
  let w := if decide (us_clientstate (w_upap w) = UPAPCS_AUTHREQ) then disarm retry_timer w else w in
  let w := if decide (us_serverstate (w_upap w) = UPAPSS_LISTEN /\ 0 < us_reqtimeout (w_upap w))
           then disarm request_timer w else w in
  on_upap (fun u => set_serverstate UPAPSS_INITIAL (set_clientstate UPAPCS_INITIAL u)) w.

(** ** Timers and packets *)

Context {HA : AuthEvents W}.

Definition upap_timeout (w : W) : W :=
  match us_clientstate (w_upap w) with
  | UPAPCS_AUTHREQ =>
      if us_maxtransmits (w_upap w) <=? us_transmits (w_upap w)
      then auth_withpeer_fail PPP_PAP (on_upap (set_clientstate UPAPCS_BADAUTH) w)
      else upap_sauthreq w
  | _ => w
  end.

Definition upap_reqtimeout (w : W) : W :=
  match us_serverstate (w_upap w) with
  | UPAPSS_LISTEN => on_upap (set_serverstate UPAPSS_BADAUTH) (auth_peer_fail PPP_PAP w)
  | _ => w
  end.

Definition upap_protrej (w : W) : W :=
  let w := if decide (us_clientstate (w_upap w) = UPAPCS_AUTHREQ) then auth_withpeer_fail PPP_PAP w else w in
  let w := if decide (us_serverstate (w_upap w) = UPAPSS_LISTEN) then auth_peer_fail PPP_PAP w else w in
  upap_lowerdown w.

(** A request whose fields are there: the verdict is sent, recorded and
    reported. *)
Definition upap_verdict (pid : Z) (ruser rpasswd : bytes) (w : W) : W :=
  let retcode := check_passwd ruser rpasswd in
  let msglen := if 255 <? Z.of_nat (length bad_msg) then 255 else Z.of_nat (length bad_msg) in
  let w := upap_sresp retcode pid bad_msg msglen w in
  let w :=
    if retcode =? UPAP_AUTHACK
    then auth_peer_success PPP_PAP ruser (on_upap (set_serverstate UPAPSS_OPEN) w)
    else auth_peer_fail PPP_PAP (on_upap (set_serverstate UPAPSS_BADAUTH) w) in
  if 0 <? us_reqtimeout (w_upap w) then disarm request_timer w else w.

Definition upap_rauthreq (pid : Z) (inp : bytes) (len : Z) (w : W) : W :=
  match us_serverstate (w_upap w) with
  | UPAPSS_INITIAL | UPAPSS_CLOSED | UPAPSS_PENDING => w
  | UPAPSS_OPEN => upap_sresp UPAP_AUTHACK pid [] 0 w
  | UPAPSS_BADAUTH => upap_sresp UPAP_AUTHNAK pid [] 0 w
  | UPAPSS_LISTEN =>
      match parse_authreq inp len with
      | Good (ruser, rpasswd) => upap_verdict pid ruser rpasswd w
      | Bad => w
      | Oob => on_link link_fault w
      end
  end.

Definition upap_rauthack (inp : bytes) (len : Z) (w : W) : W :=
  match us_clientstate (w_upap w) with
  | UPAPCS_AUTHREQ =>
      match parse_message inp len with
      | Good _ => auth_withpeer_success PPP_PAP (on_upap (set_clientstate UPAPCS_OPEN) w)
      | Bad => w
      | Oob => on_link link_fault w
      end
  | _ => w
  end.

Definition upap_rauthnak (inp : bytes) (len : Z) (w : W) : W :=
  match us_clientstate (w_upap w) with
  | UPAPCS_AUTHREQ =>
      match parse_message inp len with
      | Good _ => auth_withpeer_fail PPP_PAP (on_upap (set_clientstate UPAPCS_BADAUTH) w)
      | Bad => w
      | Oob => on_link link_fault w
      end
  | _ => w
  end.

Definition upap_input (inpacket : bytes) (l : Z) (w : W) : W :=
  match upap_header inpacket l with
  | Good (code, pid, len, inp) =>
      if code =? UPAP_AUTHREQ then upap_rauthreq pid inp len w
      else if code =? UPAP_AUTHACK then upap_rauthack inp len w
      else if code =? UPAP_AUTHNAK then upap_rauthnak inp len w
      else w
  | Bad => w
  | Oob => on_link link_fault w
  end.
End Upap.
