(* ===== verification/Chap.v ===== *)
(** * The Challenge Handshake Authentication Protocol: definitions

    [chap.c], function by function: the client that answers the peer's
    challenges and the server that challenges the peer.  Like PAP it runs over
    the state of the daemon's link and reports to [auth.c] through
    [AuthEvents].  MD5 is not part of the repository: it is a function of the
    settings. *)

From S2P Require Import Prelude Wire Callout Fsm LcpOptions Upap.

Definition CHAP_HEADERLEN := 4.
Definition CHAP_CHALLENGE := 1.
Definition CHAP_RESPONSE := 2.
Definition CHAP_SUCCESS := 3.
Definition CHAP_FAILURE := 4.
Definition MD5_SIGNATURE_SIZE := 16.
Definition MIN_CHALLENGE_LENGTH := 16.
Definition MAX_CHALLENGE_LENGTH := 24.
Definition MAX_RESPONSE_LENGTH := 64.
Definition CHAP_DEFTIMEOUT := 5.
Definition CHAP_DEFTRANSMITS := 10.

Inductive chap_client :=
  | CHAPCS_INITIAL | CHAPCS_CLOSED | CHAPCS_PENDING | CHAPCS_LISTEN | CHAPCS_RESPONSE | CHAPCS_OPEN.

Inductive chap_server :=
  | CHAPSS_INITIAL | CHAPSS_CLOSED | CHAPSS_PENDING | CHAPSS_INITIAL_CHAL | CHAPSS_OPEN
  | CHAPSS_RECHALLENGE | CHAPSS_BADAUTH.

#[export] Instance chap_client_eq_dec : EqDecision chap_client.
Proof. solve_decision. Defined.
#[export] Instance chap_server_eq_dec : EqDecision chap_server.
Proof. solve_decision. Defined.

(** Strings without their terminating zero; a null pointer is the empty one.
    [ch_draws] counts the calls of [drand48]; [ch_self_passed] is not in
    memory: has the client been open since it last began to listen? *)
Record chap_state := Chap {
  ch_clientstate : chap_client;
  ch_serverstate : chap_server;
  challenge : bytes;
  chal_len : Z;
  chal_id : Z;
  chal_type : Z;
  ch_id : Z;
  chal_name : bytes;
  chal_interval : Z;
  ch_timeouttime : Z;
  max_transmits : Z;
  chal_transmits : Z;
  resp_transmits : Z;
  response : bytes;
  resp_length : Z;
  resp_id : Z;
  resp_type : Z;
  resp_name : bytes;
  ch_draws : nat;
  ch_self_passed : bool
}.

(** The history a new state of the client leads to. *)
Definition client_opened (s : chap_client) (before : bool) : bool :=
  match s with
  | CHAPCS_OPEN => true
  | CHAPCS_PENDING | CHAPCS_LISTEN => false
  | _ => before
  end.

Definition set_ch_client v c :=
  Chap v (ch_serverstate c) (challenge c) (chal_len c) (chal_id c) (chal_type c) (ch_id c)
    (chal_name c) (chal_interval c) (ch_timeouttime c) (max_transmits c) (chal_transmits c)
    (resp_transmits c) (response c) (resp_length c) (resp_id c) (resp_type c) (resp_name c) (ch_draws c)
    (client_opened v (ch_self_passed c)).
Definition set_ch_server v c :=
  Chap (ch_clientstate c) v (challenge c) (chal_len c) (chal_id c) (chal_type c) (ch_id c)
    (chal_name c) (chal_interval c) (ch_timeouttime c) (max_transmits c) (chal_transmits c)
    (resp_transmits c) (response c) (resp_length c) (resp_id c) (resp_type c) (resp_name c) (ch_draws c)
    (ch_self_passed c).
Definition set_challenger name digest c :=
  Chap (ch_clientstate c) (ch_serverstate c) (challenge c) (chal_len c) (chal_id c) (u8 digest) (ch_id c)
    name (chal_interval c) (ch_timeouttime c) (max_transmits c) (chal_transmits c)
    (resp_transmits c) (response c) (resp_length c) (resp_id c) (resp_type c) (resp_name c) (ch_draws c)
    (ch_self_passed c).
Definition set_responder name digest c :=
  Chap (ch_clientstate c) (ch_serverstate c) (challenge c) (chal_len c) (chal_id c) (chal_type c) (ch_id c)
    (chal_name c) (chal_interval c) (ch_timeouttime c) (max_transmits c) (chal_transmits c)
    (resp_transmits c) (response c) (resp_length c) (resp_id c) (u8 digest) name (ch_draws c)
    (ch_self_passed c).
(** A fresh challenge, under the next identifier. *)
Definition set_fresh_challenge buf len draws c :=
  let i := u8 (ch_id c + 1) in
  Chap (ch_clientstate c) (ch_serverstate c) buf (u8 len) i (chal_type c) i
    (chal_name c) (chal_interval c) (ch_timeouttime c) (max_transmits c) 0
    (resp_transmits c) (response c) (resp_length c) (resp_id c) (resp_type c) (resp_name c) draws
    (ch_self_passed c).
Definition set_chal_transmits v c :=
  Chap (ch_clientstate c) (ch_serverstate c) (challenge c) (chal_len c) (chal_id c) (chal_type c) (ch_id c)
    (chal_name c) (chal_interval c) (ch_timeouttime c) (max_transmits c) v
    (resp_transmits c) (response c) (resp_length c) (resp_id c) (resp_type c) (resp_name c) (ch_draws c)
    (ch_self_passed c).
Definition set_resp_transmits v c :=
  Chap (ch_clientstate c) (ch_serverstate c) (challenge c) (chal_len c) (chal_id c) (chal_type c) (ch_id c)
    (chal_name c) (chal_interval c) (ch_timeouttime c) (max_transmits c) (chal_transmits c)
    v (response c) (resp_length c) (resp_id c) (resp_type c) (resp_name c) (ch_draws c)
    (ch_self_passed c).
Definition set_resp_id v c :=
  Chap (ch_clientstate c) (ch_serverstate c) (challenge c) (chal_len c) (chal_id c) (chal_type c) (ch_id c)
    (chal_name c) (chal_interval c) (ch_timeouttime c) (max_transmits c) (chal_transmits c)
    (resp_transmits c) (response c) (resp_length c) (u8 v) (resp_type c) (resp_name c) (ch_draws c)
    (ch_self_passed c).
(** [BCOPY(hash, cstate->response, MD5_SIGNATURE_SIZE)] *)
Definition set_digest hash c :=
  Chap (ch_clientstate c) (ch_serverstate c) (challenge c) (chal_len c) (chal_id c) (chal_type c) (ch_id c)
    (chal_name c) (chal_interval c) (ch_timeouttime c) (max_transmits c) (chal_transmits c)
    (resp_transmits c) (hash ++ drop (Z.to_nat MD5_SIGNATURE_SIZE) (response c)) MD5_SIGNATURE_SIZE
    (resp_id c) (resp_type c) (resp_name c) (ch_draws c)
    (ch_self_passed c).

Definition ChapInit (c : chap_state) : chap_state :=
  Chap CHAPCS_INITIAL CHAPSS_INITIAL (replicate (Z.to_nat MAX_CHALLENGE_LENGTH) 0) 0 0 0 0 [] 0
    CHAP_DEFTIMEOUT CHAP_DEFTRANSMITS 0 0 (replicate (Z.to_nat MAX_RESPONSE_LENGTH) 0) 0 0 0 [] (ch_draws c)
    false.

(** What CHAP is built with: the digest, the values of [drand48] in units of
    [2^-48], and three global variables. *)
Record chap_config := ChapConfig {
  md5 : bytes -> bytes;
  drand48 : nat -> Z;
  explicit_remote : bool;
  remote_name : bytes;
  hostname : bytes
}.

(** ** Challenges *)

(** The nearest number a double can hold, ties to even. *)
Definition round_double (n : Z) : Z :=
  let e := Z.log2 n - 52 in
  if e <=? 0 then n else
  let q := Z.shiftr n e in
  let r := n - Z.shiftl q e in
  let half := Z.shiftl 1 (e - 1) in
  Z.shiftl (if r <? half then q else if half <? r then q + 1 else q + q mod 2) e.

(** [drand48() * (MAX - MIN) + MIN] and [drand48() * 0xff], truncated. *)
Definition draw_length (d : Z) : Z :=
  Z.shiftr (round_double (d * (MAX_CHALLENGE_LENGTH - MIN_CHALLENGE_LENGTH) + Z.shiftl MIN_CHALLENGE_LENGTH 48)) 48.
Definition draw_byte (d : Z) : Z := Z.shiftr (round_double (d * 255)) 48.

(** ** Packets *)

Definition challenge_packet (c : chap_state) : bytes :=
  let name_len := Z.of_nat (length (chal_name c)) in
  MAKEHEADER PPP_CHAP ++ PUTCHAR CHAP_CHALLENGE ++ PUTCHAR (chal_id c)
  ++ PUTSHORT (CHAP_HEADERLEN + 1 + chal_len c + name_len)
  ++ PUTCHAR (chal_len c) ++ take (Z.to_nat (chal_len c)) (challenge c) ++ chal_name c.

Definition response_packet (c : chap_state) : bytes :=
  let name_len := Z.of_nat (length (resp_name c)) in
  MAKEHEADER PPP_CHAP ++ PUTCHAR CHAP_RESPONSE ++ PUTCHAR (resp_id c)
  ++ PUTSHORT (CHAP_HEADERLEN + 1 + resp_length c + name_len)
  ++ PUTCHAR (resp_length c) ++ take (Z.to_nat (resp_length c)) (response c) ++ resp_name c.

Definition status_message (cc : chap_config) (code : Z) : bytes :=
  take 255 (if code =? CHAP_SUCCESS then text "Welcome to " ++ hostname cc ++ text "."
            else text "I don't like you.  Go 'way.").

Definition status_packet (code pid : Z) (msg : bytes) : bytes :=
  MAKEHEADER PPP_CHAP ++ PUTCHAR code ++ PUTCHAR pid
  ++ PUTSHORT (CHAP_HEADERLEN + Z.of_nat (length msg)) ++ msg.

(** The value and the name of a Challenge or a Response; at most 255 bytes of
    the name are kept. *)
Definition parse_value (inp : bytes) (len : Z) : parse (bytes * bytes) :=
  if len <? 2 then Bad else
  '(vlen, inp) ← get (GETCHAR inp);
  let len := len - (1 + vlen) in
  if len <? 0 then Bad else
  if Z.of_nat (length inp) <? vlen + len then Oob else
  let len := if 256 <=? len then 255 else len in
  Good (take (Z.to_nat vlen) inp, take (Z.to_nat len) (drop (Z.to_nat vlen) inp)).

(** The header checks of [ChapInput]. *)
Definition chap_header (inpacket : bytes) (packet_len : Z) : parse (Z * Z * Z * bytes) :=
  if packet_len <? CHAP_HEADERLEN then Bad else
  '(code, inp) ← get (GETCHAR inpacket);
  '(pid, inp) ← get (GETCHAR inp);
  '(len, inp) ← get (GETSHORT inp);
  if len <? CHAP_HEADERLEN then Bad
  else if packet_len <? len then Bad
  else Good (code, pid, len - CHAP_HEADERLEN, inp).

(** The digest of an identifier, a secret and a challenge. *)
Definition digest (cc : chap_config) (pid : Z) (secret chal : bytes) : bytes :=
  take (Z.to_nat MD5_SIGNATURE_SIZE) (md5 cc (pid :: secret ++ chal)).

(** ** The state CHAP runs in *)

Class ChapWorld (W : Type) {HF : FsmWorld W} := {
  w_chap : W -> chap_state;
  put_chap : chap_state -> W -> W;
  (** the address of the [chap_state], the argument of its timers *)
  chap_addr : Z
}.

Section Chap.
Context {W : Type} {HF : FsmWorld W} {HC : ChapWorld W}.
Context (cc : chap_config).

Definition on_chap (g : chap_state -> chap_state) (w : W) : W := put_chap (g (w_chap w)) w.

Definition challenge_timer : timer := Timer fn_ChapChallengeTimeout chap_addr.
Definition response_timer : timer := Timer fn_ChapResponseTimeout chap_addr.
Definition rechallenge_timer : timer := Timer fn_ChapRechallenge chap_addr.

(** ** Sending *)

Definition ChapGenChallenge (w : W) : W :=
  let c := w_chap w in
  let n := draw_length (drand48 cc (ch_draws c)) in
  let bs := map (fun i => draw_byte (drand48 cc i)) (seq (S (ch_draws c)) (Z.to_nat n)) in
  match store (challenge c) 0 bs with
  | Some buf => on_chap (set_fresh_challenge buf n (S (ch_draws c) + Z.to_nat n)) w
  | None => on_link link_fault w
  end.

Definition ChapSendChallenge (w : W) : W :=
  let c := w_chap w in
  let outlen := CHAP_HEADERLEN + 1 + chal_len c + Z.of_nat (length (chal_name c)) in
  let w := on_link (fun l => output (outlen + PPP_HDRLEN) (link_store 0 (challenge_packet c) l)) w in
  let w := arm challenge_timer (ch_timeouttime c) w in
  on_chap (fun c => set_chal_transmits (chal_transmits c + 1) c) w.

Definition ChapSendStatus (code : Z) (w : W) : W :=
  let msg := status_message cc code in
  let outlen := CHAP_HEADERLEN + Z.of_nat (length msg) in
  on_link (fun l => output (outlen + PPP_HDRLEN)
                      (link_store 0 (status_packet code (chal_id (w_chap w)) msg) l)) w.

Definition ChapSendResponse (w : W) : W :=
  let c := w_chap w in
  let outlen := CHAP_HEADERLEN + 1 + resp_length c + Z.of_nat (length (resp_name c)) in
  let w := on_link (fun l => output (outlen + PPP_HDRLEN) (link_store 0 (response_packet c) l)) w in
  let w := on_chap (set_ch_client CHAPCS_RESPONSE) w in
  let w := arm response_timer (ch_timeouttime c) w in
  on_chap (fun c => set_resp_transmits (resp_transmits c + 1) c) w.

(** ** Starting *)

Definition ChapAuthWithPeer (our_name : bytes) (digest : Z) (w : W) : W :=
  let w := on_chap (set_responder our_name digest) w in
  match ch_clientstate (w_chap w) with
  | CHAPCS_INITIAL | CHAPCS_PENDING => on_chap (set_ch_client CHAPCS_PENDING) w
  | _ => on_chap (set_ch_client CHAPCS_LISTEN) w
  end.

(** Send a new challenge and wait for the response in state [s]. *)
Definition start_challenge (s : chap_server) (w : W) : W :=
  on_chap (set_ch_server s) (ChapSendChallenge (ChapGenChallenge w)).

Definition ChapAuthPeer (our_name : bytes) (digest : Z) (w : W) : W :=
  let w := on_chap (set_challenger our_name digest) w in
  match ch_serverstate (w_chap w) with
  | CHAPSS_INITIAL | CHAPSS_PENDING => on_chap (set_ch_server CHAPSS_PENDING) w
  | _ => start_challenge CHAPSS_INITIAL_CHAL w
  end.

Definition ChapLowerUp (w : W) : W :=
  let w :=
    match ch_clientstate (w_chap w) with
    | CHAPCS_INITIAL => on_chap (set_ch_client CHAPCS_CLOSED) w
    | CHAPCS_PENDING => on_chap (set_ch_client CHAPCS_LISTEN) w
    | _ => w
    end in
  match ch_serverstate (w_chap w) with
  | CHAPSS_INITIAL => on_chap (set_ch_server CHAPSS_CLOSED) w
  | CHAPSS_PENDING => start_challenge CHAPSS_INITIAL_CHAL w
  | _ => w
  end.

Definition ChapLowerDown (w : W) : W :=
  let w :=
    match ch_serverstate (w_chap w) with
    | CHAPSS_INITIAL_CHAL | CHAPSS_RECHALLENGE => disarm challenge_timer w
    | CHAPSS_OPEN => if chal_interval (w_chap w) =? 0 then w else disarm rechallenge_timer w
    | _ => w
    end in
  let w := if decide (ch_clientstate (w_chap w) = CHAPCS_RESPONSE) then disarm response_timer w else w in
  on_chap (fun c => set_ch_server CHAPSS_INITIAL (set_ch_client CHAPCS_INITIAL c)) w.

(** ** Timers *)

Context {HA : AuthEvents W}.

Definition ChapChallengeTimeout (w : W) : W :=
  match ch_serverstate (w_chap w) with
  | CHAPSS_INITIAL_CHAL | CHAPSS_RECHALLENGE =>
      if max_transmits (w_chap w) <=? chal_transmits (w_chap w)
      then auth_peer_fail PPP_CHAP (on_chap (set_ch_server CHAPSS_BADAUTH) w)
      else ChapSendChallenge w
  | _ => w
  end.

Definition ChapResponseTimeout (w : W) : W :=
  match ch_clientstate (w_chap w) with
  | CHAPCS_RESPONSE => ChapSendResponse w
  | _ => w
  end.

Definition ChapRechallenge (w : W) : W :=
  match ch_serverstate (w_chap w) with
  | CHAPSS_OPEN => start_challenge CHAPSS_RECHALLENGE w
  | _ => w
  end.

Definition ChapProtocolReject (w : W) : W :=
  let w :=
    match ch_serverstate (w_chap w) with
    | CHAPSS_INITIAL | CHAPSS_CLOSED => w
    | _ => auth_peer_fail PPP_CHAP w
    end in
  let w :=
    match ch_clientstate (w_chap w) with
    | CHAPCS_INITIAL | CHAPCS_CLOSED => w
    | _ => auth_withpeer_fail PPP_CHAP w
    end in
  ChapLowerDown w.

(** ** Packets *)

(** The rest of [ChapReceiveChallenge], the fields of the packet at hand. *)
Definition answer_challenge (pid : Z) (rchallenge name : bytes) (w : W) : W :=
  let rhostname := until_nul name in
  let rhostname := if explicit_remote cc || (bool_decide (remote_name cc <> []) && bool_decide (rhostname = []))
                   then take 255 (remote_name cc) else rhostname in
  let secret := default [] (get_secret (resp_name (w_chap w)) rhostname false w) in
  let w := if decide (ch_clientstate (w_chap w) = CHAPCS_RESPONSE) then disarm response_timer w else w in
  let w := on_chap (fun c => set_resp_transmits 0 (set_resp_id pid c)) w in
  if resp_type (w_chap w) =? CHAP_DIGEST_MD5
  then ChapSendResponse
         (on_chap (fun c => set_digest (digest cc (resp_id c) secret rchallenge) c) w)
  else w.

Definition ChapReceiveChallenge (inp : bytes) (pid len : Z) (w : W) : W :=
  match ch_clientstate (w_chap w) with
  | CHAPCS_CLOSED | CHAPCS_PENDING => w
  | _ =>
      match parse_value inp len with
      | Good (rchallenge, name) => answer_challenge pid rchallenge name w
      | Bad => w
      | Oob => on_link link_fault w
      end
  end.

(** Is [remmd] the digest the peer has to know? *)
Definition check_response (remmd name : bytes) (w : W) : Z :=
  let c := w_chap w in
  let client := if explicit_remote cc then remote_name cc else until_nul name in
  match get_secret client (chal_name c) true w with
  | None => CHAP_FAILURE
  | Some secret =>
      if (chal_type c =? CHAP_DIGEST_MD5) && (Z.of_nat (length remmd) =? MD5_SIGNATURE_SIZE)
         && bool_decide (digest cc (chal_id c) secret (take (Z.to_nat (chal_len c)) (challenge c)) = remmd)
      then CHAP_SUCCESS else CHAP_FAILURE
  end.

(** The rest of [ChapReceiveResponse], the fields of the packet at hand. *)
Definition judge_response (remmd name : bytes) (w : W) : W :=
  let w := disarm challenge_timer w in
  let code := check_response remmd name w in
  let w := ChapSendStatus code w in
  if code =? CHAP_SUCCESS then
    let old_state := ch_serverstate (w_chap w) in
    let w := on_chap (set_ch_server CHAPSS_OPEN) w in
    let w := if decide (old_state = CHAPSS_INITIAL_CHAL) then auth_peer_success PPP_CHAP name w else w in
    if chal_interval (w_chap w) =? 0 then w else arm rechallenge_timer (chal_interval (w_chap w)) w
  else auth_peer_fail PPP_CHAP (on_chap (set_ch_server CHAPSS_BADAUTH) w).

Definition ChapReceiveResponse (inp : bytes) (pid len : Z) (w : W) : W :=
  match ch_serverstate (w_chap w) with
  | CHAPSS_CLOSED | CHAPSS_PENDING => w
  | s =>
      if negb (pid =? chal_id (w_chap w)) then w else
      match s with
      | CHAPSS_OPEN => ChapSendStatus CHAP_SUCCESS w
      | CHAPSS_BADAUTH => ChapSendStatus CHAP_FAILURE w
      | _ =>
          match parse_value inp len with
          | Good (remmd, name) => judge_response remmd name w
          | Bad => w
          | Oob => on_link link_fault w
          end
      end
  end.

Definition ChapReceiveSuccess (w : W) : W :=
  match ch_clientstate (w_chap w) with
  | CHAPCS_RESPONSE =>
      auth_withpeer_success PPP_CHAP (on_chap (set_ch_client CHAPCS_OPEN) (disarm response_timer w))
  | _ => w
  end.

Definition ChapReceiveFailure (w : W) : W :=
  match ch_clientstate (w_chap w) with
  | CHAPCS_RESPONSE => auth_withpeer_fail PPP_CHAP (disarm response_timer w)
  | _ => w
  end.

Definition ChapInput (inpacket : bytes) (packet_len : Z) (w : W) : W :=
  match chap_header inpacket packet_len with
  | Good (code, pid, len, inp) =>
      if code =? CHAP_CHALLENGE then ChapReceiveChallenge inp pid len w
      else if code =? CHAP_RESPONSE then ChapReceiveResponse inp pid len w
      else if code =? CHAP_FAILURE then ChapReceiveFailure w
      else if code =? CHAP_SUCCESS then ChapReceiveSuccess w
      else w
  | Bad => w
  | Oob => on_link link_fault w
  end.
End Chap.
