(* ===== verification/Auth.v ===== *)
(** * Link phases and authentication: definitions

    [auth.c]: what happens when LCP comes up, goes down or ends, which
    authentication is outstanding, when the network phase starts, and the
    limits on a running link; and the packet demultiplexer of [rtemsmain.c]
    that feeds the protocols.  LCP, PAP and CHAP are the ones of [Lcp.v],
    [Upap.v] and [Chap.v]; IPCP and CCP are entries of the protocol table.

    [noauth_addrs] and [extra_options] are null: the options that would set
    them are not part of this port. *)

From S2P Require Import Prelude Wire Callout Fsm LcpOptions LcpReqci Lcp Upap Chap.

Definition PHASE_ESTABLISH := 4.
Definition PHASE_AUTHENTICATE := 5.
Definition PHASE_NETWORK := 7.
Definition PHASE_RUNNING := 8.

Definition EXIT_OK := 0.
Definition EXIT_PEER_AUTH_FAILED := 11.
Definition EXIT_IDLE_TIMEOUT := 12.
Definition EXIT_CONNECT_TIME := 13.
Definition EXIT_HANGUP := 16.
Definition EXIT_AUTH_TOPEER_FAILED := 19.

Definition NCP_LIMIT := 49152. (* 0xC000 *)

(** Bits of [auth_pending]. *)
Definition PAP_WITHPEER := 1.
Definition PAP_PEER := 2.
Definition CHAP_WITHPEER := 4.
Definition CHAP_PEER := 8.

Definition MAXNAMELEN := 256.
Definition MAXSECRETLEN := 256.
Definition MAXWORDLEN := 1024.

(** The static variables of [auth.c] and the globals of the daemon it writes;
    a script state is true when it is [s_up].  [agreed] is not in memory: the
    options LCP had agreed on, [gotoptions] and [hisoptions], when the
    authentications of the link were last started. *)
Record auth := Auth {
  auth_pending : Z;
  num_np_open : Z;
  num_np_up : Z;
  passwd : bytes;
  passwd_from_file : bool;
  peer_authname : bytes;
  auth_state : bool;
  auth_script_state : bool;
  unsuccess : Z;
  need_holdoff : Z;
  hungup : bool;
  agreed : option (lcp_options * lcp_options)
}.

Definition set_auth_pending v a :=
  Auth v (num_np_open a) (num_np_up a) (passwd a) (passwd_from_file a) (peer_authname a)
    (auth_state a) (auth_script_state a) (unsuccess a) (need_holdoff a) (hungup a) (agreed a).
Definition set_num_np_open v a :=
  Auth (auth_pending a) v (num_np_up a) (passwd a) (passwd_from_file a) (peer_authname a)
    (auth_state a) (auth_script_state a) (unsuccess a) (need_holdoff a) (hungup a) (agreed a).
Definition set_num_np_up v a :=
  Auth (auth_pending a) (num_np_open a) v (passwd a) (passwd_from_file a) (peer_authname a)
    (auth_state a) (auth_script_state a) (unsuccess a) (need_holdoff a) (hungup a) (agreed a).
Definition set_passwd v a :=
  Auth (auth_pending a) (num_np_open a) (num_np_up a) v (passwd_from_file a) (peer_authname a)
    (auth_state a) (auth_script_state a) (unsuccess a) (need_holdoff a) (hungup a) (agreed a).
Definition set_passwd_from_file v a :=
  Auth (auth_pending a) (num_np_open a) (num_np_up a) (passwd a) v (peer_authname a)
    (auth_state a) (auth_script_state a) (unsuccess a) (need_holdoff a) (hungup a) (agreed a).
Definition set_peer_authname v a :=
  Auth (auth_pending a) (num_np_open a) (num_np_up a) (passwd a) (passwd_from_file a) v
    (auth_state a) (auth_script_state a) (unsuccess a) (need_holdoff a) (hungup a) (agreed a).
Definition set_auth_state v a :=
  Auth (auth_pending a) (num_np_open a) (num_np_up a) (passwd a) (passwd_from_file a)
    (peer_authname a) v (auth_script_state a) (unsuccess a) (need_holdoff a) (hungup a) (agreed a).
Definition set_auth_script_state v a :=
  Auth (auth_pending a) (num_np_open a) (num_np_up a) (passwd a) (passwd_from_file a)
    (peer_authname a) (auth_state a) v (unsuccess a) (need_holdoff a) (hungup a) (agreed a).
Definition set_unsuccess v a :=
  Auth (auth_pending a) (num_np_open a) (num_np_up a) (passwd a) (passwd_from_file a)
    (peer_authname a) (auth_state a) (auth_script_state a) v (need_holdoff a) (hungup a) (agreed a).
Definition set_need_holdoff v a :=
  Auth (auth_pending a) (num_np_open a) (num_np_up a) (passwd a) (passwd_from_file a)
    (peer_authname a) (auth_state a) (auth_script_state a) (unsuccess a) v (hungup a) (agreed a).
Definition set_hungup v a :=
  Auth (auth_pending a) (num_np_open a) (num_np_up a) (passwd a) (passwd_from_file a)
    (peer_authname a) (auth_state a) (auth_script_state a) (unsuccess a) (need_holdoff a) v (agreed a).
Definition set_agreed v a :=
  Auth (auth_pending a) (num_np_open a) (num_np_up a) (passwd a) (passwd_from_file a)
    (peer_authname a) (auth_state a) (auth_script_state a) (unsuccess a) (need_holdoff a) (hungup a) v.

(** The options and the hooks.  [pap_auth_hook] judges a user and a password;
    [pap_passwd_hook] says whether it knows our password and what it writes to
    the buffer, if anything. *)
Record auth_config := AuthConfig {
  auth_required : bool;
  refuse_pap : bool;
  refuse_chap : bool;
  uselogin : bool;
  our_name : bytes;
  user : bytes;
  idle_time_limit : Z;
  maxconnect : Z;
  pap_auth_hook : option (bytes -> bytes -> bool);
  pap_passwd_hook : option (bytes -> bool * option bytes);
  stray_msg : bytes
}.

(** ** Checking a password *)

(** What the format [%v] makes of one character. *)
Definition visible (c : Z) : bytes :=
  let '(meta, c) := if 128 <=? c then ([77; 45], c - 128) else ([], c) in
  meta ++
  (if (c <? 32) || ((127 <=? c) && (c <? 160)) then
     if c =? 9 then [c] else [94; Z.lxor c 64]
   else [c]).

(** [slprintf(buf, sizeof(buf), "%.*v", len, p)] into 64 bytes, [field] the
    [len] bytes at [p]: the string ends at its first zero. *)
Definition visible_field (field : bytes) : bytes := take 63 (concat (map visible (until_nul field))).

Definition check_passwd_pap (ac : auth_config) (auser apasswd : bytes) : Z :=
  match pap_auth_hook ac with
  | Some hook => if hook (visible_field auser) (visible_field apasswd) then UPAP_AUTHACK else UPAP_AUTHNAK
  | None => UPAP_AUTHACK
  end.

(** [null_login], [have_pap_secret] and [have_chap_secret] are constants in
    this port. *)
Definition null_login : bool := false.
Definition have_pap_secret : bool := true.
Definition have_chap_secret : bool := false.

(** The check of the options before the first connection: the settings and the
    options to ask of the peer, and whether the daemon may start.  [route] is
    the answer of [have_route_to]. *)
Definition auth_check_options (hostname : bytes) (usehostname allow_any_ip route privileged : bool)
    (ac : auth_config) (wo : lcp_options) : auth_config * lcp_options * bool :=
  let name := if bool_decide (our_name ac = []) || usehostname
              then take (Z.to_nat (MAXNAMELEN - 1)) hostname else our_name ac in
  let usr := if bool_decide (user ac = []) then name else user ac in
  let required := auth_required ac || (negb allow_any_ip && route && negb privileged) in
  let wo :=
    if required then
      if negb (neg_chap wo) && negb (neg_upap wo) then set_neg_upap true (set_neg_chap true wo) else wo
    else set_neg_upap false (set_neg_chap false wo) in
  let can_auth := neg_upap wo && (uselogin ac || have_pap_secret) in
  let can_auth := if negb can_auth && neg_chap wo then have_chap_secret else can_auth in
  (AuthConfig required (refuse_pap ac) (refuse_chap ac) (uselogin ac) name usr (idle_time_limit ac)
     (maxconnect ac) (pap_auth_hook ac) (pap_passwd_hook ac) (stray_msg ac),
   wo, negb (required && negb can_auth)).

(** ** The protocol table *)

(** [struct protent], the entries that follow the link and the rest. *)
Record link_entry (W : Type) := LinkEntry {
  p_protocol : Z;
  p_enabled : bool;
  p_lowerup : option (W -> W);
  p_lowerdown : option (W -> W);
  p_open : option (W -> W);
  p_close : option (bytes -> W -> W)
}.
Arguments LinkEntry {W}. Arguments p_protocol {W}. Arguments p_enabled {W}.
Arguments p_lowerup {W}. Arguments p_lowerdown {W}. Arguments p_open {W}. Arguments p_close {W}.

Record protent (W : Type) := Protent {
  p_link : link_entry W;
  p_input : bytes -> Z -> W -> W;
  p_protrej : W -> W;
  p_datainput : option (bytes -> Z -> W -> W)
}.
Arguments Protent {W}. Arguments p_link {W}. Arguments p_input {W}.
Arguments p_protrej {W}. Arguments p_datainput {W}.

Class AuthWorld (W : Type) := {
  w_auth : W -> auth;
  put_auth : auth -> W -> W
}.

Section Auth.
Context {W : Type} {HW : LcpWorld W} {HU : UpapWorld W} {HC : ChapWorld W} {HV : AuthWorld W}.
Context (cfg : lcp_config) (ac : auth_config) (cc : chap_config) (magic : nat -> Z).
(** IPCP and CCP *)
Context (others : list (protent W)).

Definition on_auth (g : auth -> auth) (w : W) : W := put_auth (g (w_auth w)) w.

Definition pap_link : link_entry W :=
  LinkEntry PPP_PAP true (Some upap_lowerup) (Some upap_lowerdown) None None.

Definition chap_link : link_entry W :=
  LinkEntry PPP_CHAP true (Some (ChapLowerUp cc)) (Some ChapLowerDown) None None.

(** The table but for LCP's own entry, which the loops of [auth.c] skip. *)
Definition link_table : list (link_entry W) := pap_link :: chap_link :: map p_link others.

(** [auth_script], with null hooks. *)
Definition auth_script (s : bool) : W -> W := on_auth (set_auth_script_state s).

(** ** The link *)

Definition auth_link_required (w : W) : W := w.

Definition auth_link_terminated (w : W) : W :=
  if pppd_phase (w_lcp w) =? PHASE_DEAD then w else new_phase PHASE_DEAD w.

(** One pass of the loop of [link_down]. *)
Definition entry_down (w : W) (p : link_entry W) : W :=
  if negb (p_enabled p) then w else
  let w := if p_protocol p =? PPP_LCP then w else call (p_lowerdown p) w in
  if p_protocol p <? NCP_LIMIT
  then match p_close p with Some close => close (text "LCP down") w | None => w end
  else w.

Definition auth_link_down (w : W) : W :=
  let w := on_auth (set_auth_state false) w in
  let w := if auth_script_state (w_auth w) then auth_script false w else w in
  let w := fold_left entry_down link_table w in
  let w := on_auth (fun a => set_num_np_up 0 (set_num_np_open 0 a)) w in
  if pppd_phase (w_lcp w) =? PHASE_DEAD then w else new_phase PHASE_TERMINATE w.

Definition get_pap_passwd : bool * option bytes :=
  match pap_passwd_hook ac with Some hook => hook (user ac) | None => (false, None) end.

Definition have_passwd (w : W) : bool := bool_decide (passwd (w_auth w) <> []).

Definition auth_auth_reset (w : W) : W :=
  on_lcp (fun s =>
    let ao := allowoptions s in
    let go := gotoptions s in
    let ao := set_neg_upap (negb (refuse_pap ac) && (have_passwd w || get_pap_passwd.1)) ao in
    let ao := set_neg_chap (negb (refuse_chap ac) && (have_passwd w || have_chap_secret)) ao in
    let go := if neg_upap go && negb (uselogin ac) && negb have_pap_secret then set_neg_upap false go else go in
    let go := if neg_chap go && negb have_chap_secret then set_neg_chap false go else go in
    set_gotoptions go (set_allowoptions ao s)) w.

(** LCP as [auth.c] closes it: nothing of [link_established] is involved. *)
Definition closing_layer : AuthLayer W := {|
  link_required := auth_link_required;
  link_terminated := auth_link_terminated;
  link_down := auth_link_down;
  link_established w := w;
  auth_reset := auth_auth_reset;
  protocol_protrej _ := None
|}.

Definition close_lcp (reason : bytes) : W -> W := lcp_close (HA := closing_layer) magic (Some reason).

(** ** The network phase *)

Definition entry_open (w : W) (p : link_entry W) : W :=
  match p_open p with
  | Some open =>
      if (p_protocol p <? NCP_LIMIT) && p_enabled p then
        let w := open w in
        if p_protocol p =? PPP_CCP then w
        else on_auth (fun a => set_num_np_open (num_np_open a + 1) a) w
      else w
  | None => w
  end.

Definition start_networks (w : W) : W :=
  let w := fold_left entry_open link_table (new_phase PHASE_NETWORK w) in
  if num_np_open (w_auth w) =? 0 then close_lcp (text "No network protocols running") w else w.

Definition network_phase (w : W) : W :=
  let w := on_auth (set_auth_state true) w in
  let w := if auth_script_state (w_auth w) then w else auth_script true w in
  start_networks w.

(** ** Results of authentication *)

Definition ev_peer_fail (protocol : Z) (w : W) : W :=
  on_lcp (set_pppd_status EXIT_PEER_AUTH_FAILED) (close_lcp (text "Authentication failed") w).

(** [auth_pending &= ~bit], and the network phase when nothing is left. *)
Definition auth_done (bit : Z) (w : W) : W :=
  let w := on_auth (fun a => set_auth_pending (Z.ldiff (auth_pending a) bit) a) w in
  if auth_pending (w_auth w) =? 0 then network_phase w else w.

Definition ev_peer_success (protocol : Z) (name : bytes) (w : W) : W :=
  let finish bit := auth_done bit (on_auth (set_peer_authname (take (Z.to_nat (MAXNAMELEN - 1)) name)) w) in
  if protocol =? PPP_CHAP then finish CHAP_PEER
  else if protocol =? PPP_PAP then finish PAP_PEER
  else w.

Definition forget_passwd (w : W) : W :=
  if passwd_from_file (w_auth w) then on_auth (set_passwd []) w else w.

Definition ev_withpeer_fail (protocol : Z) (w : W) : W :=
  on_lcp (set_pppd_status EXIT_AUTH_TOPEER_FAILED)
    (close_lcp (text "Failed to authenticate ourselves to peer") (forget_passwd w)).

Definition ev_withpeer_success (protocol : Z) (w : W) : W :=
  if protocol =? PPP_CHAP then auth_done CHAP_WITHPEER w
  else if protocol =? PPP_PAP then auth_done PAP_WITHPEER (forget_passwd w)
  else auth_done 0 w.

(** Our own password is the only secret there is. *)
Definition chap_secret (client server : bytes) (am_server : bool) (w : W) : option bytes :=
  if negb am_server && have_passwd w
  then Some (take (Z.to_nat MAXSECRETLEN) (take (Z.to_nat (MAXWORDLEN - 1)) (passwd (w_auth w))))
  else None.

#[local] Instance auth_events : AuthEvents W := {|
  check_passwd := check_passwd_pap ac;
  bad_msg := stray_msg ac;
  get_secret := chap_secret;
  auth_peer_fail := ev_peer_fail;
  auth_peer_success := ev_peer_success;
  auth_withpeer_fail := ev_withpeer_fail;
  auth_withpeer_success := ev_withpeer_success
|}.

(** ** Link established *)

Definition entry_up (w : W) (p : link_entry W) : W :=
  if negb (p_protocol p =? PPP_LCP) && p_enabled p then call (p_lowerup p) w else w.

(** The start of the authentication protocols both sides agreed on. *)
Definition start_auth_peer (w : W) : Z * W :=
  let go := gotoptions (w_lcp w) in
  if neg_chap go then (CHAP_PEER, ChapAuthPeer cc (our_name ac) (chap_mdtype go) w)
  else if neg_upap go then (PAP_PEER, upap_authpeer w)
  else (0, w).

Definition start_auth_withpeer (w : W) : Z * W :=
  let ho := hisoptions (w_lcp w) in
  if neg_chap ho then (CHAP_WITHPEER, ChapAuthWithPeer (user ac) (chap_mdtype ho) w)
  else if neg_upap ho then
    let w :=
      if have_passwd w then w
      else on_auth (fun a => let a := set_passwd_from_file true a in
                             match get_pap_passwd.2 with Some pw => set_passwd pw a | None => a end) w in
    (PAP_WITHPEER, upap_authwithpeer (user ac) (passwd (w_auth w)) w)
  else (0, w).

Definition auth_link_established (w : W) : W :=
  let w := fold_left entry_up link_table w in
  let go := gotoptions (w_lcp w) in
  if auth_required ac && negb (neg_chap go || neg_upap go)
     && (negb (neg_upap (wantoptions (w_lcp w))) || negb null_login)
  then on_lcp (set_pppd_status EXIT_PEER_AUTH_FAILED) (close_lcp (text "peer refused to authenticate") w)
  else
    let w := new_phase PHASE_AUTHENTICATE w in
    let '(peer, w) := start_auth_peer w in
    let '(withpeer, w) := start_auth_withpeer w in
    let auth := Z.lor peer withpeer in
    let w := on_auth (fun a => set_agreed (Some (gotoptions (w_lcp w), hisoptions (w_lcp w))) (set_auth_pending auth a)) w in
    if auth =? 0 then network_phase w else w.

Definition pap_protent : protent W := Protent pap_link upap_input upap_protrej None.
Definition chap_protent : protent W := Protent chap_link (ChapInput cc) ChapProtocolReject None.

Definition auth_protrej (prot : Z) : option (W -> W) :=
  match list_find (fun p => p_protocol (p_link p) = prot /\ p_enabled (p_link p) = true)
          (pap_protent :: chap_protent :: others) with
  | Some (_, p) => Some (p_protrej p)
  | None => None
  end.

(** The layer LCP runs under. *)
#[local] Instance auth_layer : AuthLayer W := {|
  link_required := auth_link_required;
  link_terminated := auth_link_terminated;
  link_down := auth_link_down;
  link_established := auth_link_established;
  auth_reset := auth_auth_reset;
  protocol_protrej := auth_protrej
|}.

(** ** Network protocols and limits *)

Definition idle_timer : timer := Timer fn_check_idle 0.
Definition connect_timer : timer := Timer fn_connect_time_expired 0.

Definition np_up (w : W) : W :=
  let w :=
    if num_np_up (w_auth w) =? 0 then
      let w := on_lcp (set_pppd_status EXIT_OK) w in
      let w := new_phase PHASE_RUNNING (on_auth (set_unsuccess 0) w) in
      let w := if 0 <? idle_time_limit ac then arm idle_timer (idle_time_limit ac) w else w in
      if 0 <? maxconnect ac then arm connect_timer (maxconnect ac) w else w
    else w in
  on_auth (fun a => set_num_np_up (num_np_up a + 1) a) w.

Definition np_down (w : W) : W :=
  let w := on_auth (fun a => set_num_np_up (num_np_up a - 1) a) w in
  if num_np_up (w_auth w) =? 0 then new_phase PHASE_NETWORK (disarm idle_timer w) else w.

Definition np_finished (w : W) : W :=
  let w := on_auth (fun a => set_num_np_open (num_np_open a - 1) a) w in
  if num_np_open (w_auth w) <=? 0 then close_lcp (text "No network protocols running") w else w.

(** [idle] is the time since the last packet, [None] when [get_idle_time]
    fails. *)
Definition check_idle (idle : option Z) (w : W) : W :=
  match idle with
  | None => w
  | Some itime =>
      let tlim := idle_time_limit ac - itime in
      if tlim <=? 0
      then on_lcp (set_pppd_status EXIT_IDLE_TIMEOUT)
             (on_auth (set_need_holdoff 0) (close_lcp (text "Link inactive") w))
      else arm idle_timer tlim w
  end.

Definition connect_time_expired (w : W) : W :=
  on_lcp (set_pppd_status EXIT_CONNECT_TIME) (close_lcp (text "Connect time expired") w).

(** ** Incoming packets *)

Definition lcp_link : link_entry W :=
  LinkEntry PPP_LCP true (Some (lcp_lowerup cfg magic)) (Some (lcp_lowerdown cfg magic))
    (Some (lcp_open cfg magic)) (Some (fun reason => lcp_close magic (Some reason))).
Definition lcp_protent : protent W :=
  Protent lcp_link (lcp_input cfg magic) (lcp_protrej magic) None.
Definition protocols : list (protent W) := lcp_protent :: pap_protent :: chap_protent :: others.

(** The loop of [get_input] over the table. *)
Fixpoint demux (prot : Z) (p : bytes) (len : Z) (table : list (protent W)) : option (W -> W) :=
  match table with
  | [] => None
  | e :: table' =>
      if (p_protocol (p_link e) =? prot) && p_enabled (p_link e) then Some (p_input e p len)
      else match p_datainput e with
           | Some datainput =>
               if (prot =? Z.ldiff (p_protocol (p_link e)) 32768) && p_enabled (p_link e)
               then Some (datainput p len)
               else demux prot p len table'
           | None => demux prot p len table'
           end
  end.

(** [get_input] after [read_packet] has left [len] bytes in the buffer. *)
Definition get_input (inpacket_buf : bytes) (len : Z) (w : W) : W :=
  if len <? 0 then w
  else if len =? 0 then
    let w := on_auth (set_hungup true) w in
    let w := on_lcp (set_pppd_status EXIT_HANGUP) w in
    auth_link_terminated (lcp_lowerdown cfg magic w)
  else if len <? PPP_HDRLEN then w
  else match GETSHORT (drop 2 inpacket_buf) with
       | None => fault w
       | Some (prot, p) =>
           let len := len - PPP_HDRLEN in
           if negb (prot =? PPP_LCP) && negb (bool_decide (state (w_fsm w) = OPENED)) then w
           else if (pppd_phase (w_lcp w) <=? PHASE_AUTHENTICATE)
                   && negb ((prot =? PPP_LCP) || (prot =? PPP_LQR) || (prot =? PPP_PAP) || (prot =? PPP_CHAP))
           then w
           else match demux prot p len protocols with
                | Some input => input w
                | None => lcp_sprotrej inpacket_buf (len + PPP_HDRLEN) w
                end
       end.
End Auth.
