(* ===== verification/AuthSpec.v ===== *)
(** * Link phases and authentication: laws

    The daemon as one state, the interface it asks of the network protocols
    ([outside], [calm], [net_step], [NetLaws]), and the proof that [auth.c] is a
    layer LCP can run under ([AuthLaws]). *)

From S2P Require Import Prelude Wire Callout Fsm FsmSpec FsmGate.
From S2P Require Import LcpOptions LcpReqci Lcp LcpSpec Upap Chap Auth.

(** ** The daemon *)

(** [X] is the state of the network protocols. *)
Record daemon (X : Type) := Daemon {
  d_fsm : fsm;
  d_link : link;
  d_lcp : lcp;
  d_upap : upap_state;
  d_chap : chap_state;
  d_auth : auth;
  d_other : X
}.
Arguments Daemon {X}. Arguments d_fsm {X}. Arguments d_link {X}. Arguments d_lcp {X}.
Arguments d_upap {X}. Arguments d_chap {X}. Arguments d_auth {X}. Arguments d_other {X}.

(** The network protocols at rest: none of them has been opened since the link
    came up, or every one has been told that the link is down. *)
Class NetRest (X : Type) := { net_rest : X -> Prop }.

Section Daemon.
Context {X : Type}.
Abbreviation W := (daemon X).
Implicit Types w : W.

Definition daemon_fsm : FsmWorld W := {|
  w_fsm := d_fsm;
  put_fsm f w := Daemon f (d_link w) (d_lcp w) (d_upap w) (d_chap w) (d_auth w) (d_other w);
  w_link := d_link;
  put_link l w := Daemon (d_fsm w) l (d_lcp w) (d_upap w) (d_chap w) (d_auth w) (d_other w);
  fsm_addr := 0
|}.
#[export] Instance daemon_lcp : LcpWorld W := {
  lcp_fsm_world := daemon_fsm;
  w_lcp := d_lcp;
  put_lcp s w := Daemon (d_fsm w) (d_link w) s (d_upap w) (d_chap w) (d_auth w) (d_other w)
}.
#[export] Instance daemon_upap : UpapWorld W := {
  w_upap := d_upap;
  put_upap u w := Daemon (d_fsm w) (d_link w) (d_lcp w) u (d_chap w) (d_auth w) (d_other w);
  upap_addr := 1
}.
#[export] Instance daemon_chap : ChapWorld W := {
  w_chap := d_chap;
  put_chap c w := Daemon (d_fsm w) (d_link w) (d_lcp w) (d_upap w) c (d_auth w) (d_other w);
  chap_addr := 2
}.
#[export] Instance daemon_auth : AuthWorld W := {
  w_auth := d_auth;
  put_auth a w := Daemon (d_fsm w) (d_link w) (d_lcp w) (d_upap w) (d_chap w) a (d_other w)
}.
#[export] Instance daemon_fsm_laws : FsmWorldLaws W (HW := daemon_fsm).
Proof. by split. Qed.
#[export] Instance daemon_laws : LcpWorldLaws W.
Proof. by repeat split. Qed.

Definition pends (t : timer) w : nat := pending t (callouts (d_link w)).
Definition phase w : Z := pppd_phase (d_lcp w).

(** The timers of LCP, PAP and CHAP. *)
Definition watched (t : timer) : Prop :=
  t = fsm_timer \/ t = retry_timer \/ t = request_timer \/
  t = challenge_timer \/ t = response_timer \/ t = rechallenge_timer.

(** ** What the network protocols may do *)

(** A protocol that minds its own business: its state, its timers, packets, the
    count of the network protocols and the phase. *)
Record outside w w' : Prop := {
  out_fsm : d_fsm w' = d_fsm w;
  out_lcp : d_lcp w' = set_pppd_phase (phase w') (d_lcp w);
  out_upap : d_upap w' = d_upap w;
  out_chap : d_chap w' = d_chap w;
  out_pending : auth_pending (d_auth w') = auth_pending (d_auth w);
  out_agreed : agreed (d_auth w') = agreed (d_auth w);
  out_timers t : watched t -> pends t w' = pends t w
}.

Context (cfg : lcp_config) (ac : auth_config) (cc : chap_config) (magic : nat -> Z).
Context (others : list (protent W)).

Context {HR : NetRest X}.

(** It keeps the phase and, where all network protocols are at rest, that. *)
Definition calm w w' : Prop :=
  outside w w' /\ phase w' = phase w /\ (net_rest (d_other w) -> net_rest (d_other w')).

(** A protocol that is not at rest may come and go besides. *)
Inductive busy_step : W -> W -> Prop :=
  | busy_outside w w' : outside w w' -> phase w' = phase w -> busy_step w w'
  | busy_np_up w : busy_step w (np_up ac w)
  | busy_np_down w : busy_step w (np_down w).

(** What an event of a network protocol may consist of. *)
Inductive net_step : W -> W -> Prop :=
  | net_calm w w' : calm w w' -> net_step w w'
  | net_busy w w' : ~ net_rest (d_other w) -> rtc busy_step w w' -> net_step w w'
  | net_np_finished w : net_step w (np_finished ac cc magic others w).

(** When all are told that the link is down, all are at rest; nothing but
    opening them changes that. *)
Class NetLaws : Prop := {
  net_lowerup p g w : In p others -> p_lowerup (p_link p) = Some g -> calm w (g w);
  net_lowerdown p g w : In p others -> p_lowerdown (p_link p) = Some g -> outside w (g w);
  net_open p g w : In p others -> p_open (p_link p) = Some g -> outside w (g w);
  net_close p g reason w : In p others -> p_close (p_link p) = Some g -> outside w (g reason w);
  net_down w : net_rest (d_other (fold_left entry_down (map p_link others) w));
  net_protrej p w : In p others -> rtc net_step w (p_protrej p w);
  net_input p bs len w : In p others -> rtc net_step w (p_input p bs len w);
  net_datainput p g bs len w : In p others -> p_datainput p = Some g -> rtc net_step w (g bs len w)
}.

Lemma outside_refl w : outside w w.
Proof. split; try done. unfold phase. by destruct (d_lcp w). Qed.

Lemma outside_trans w1 w2 w3 : outside w1 w2 -> outside w2 w3 -> outside w1 w3.
Proof.
  intros [F1 L1 U1 C1 A1 G1 T1] [F2 L2 U2 C2 A2 G2 T2]. split; try congruence.
  - rewrite L2 L1. done.
  - intros t Ht. rewrite T2 // T1 //.
Qed.

Lemma calm_refl w : calm w w.
Proof. split; [apply outside_refl|done]. Qed.

Lemma calm_trans w1 w2 w3 : calm w1 w2 -> calm w2 w3 -> calm w1 w3.
Proof.
  intros (O1 & P1 & R1) (O2 & P2 & R2). split; [by eapply outside_trans|]. split; [congruence|auto].
Qed.

(** ** The automaton of LCP is left alone *)

Lemma outside_quiet w w' : outside w w' -> quiet w w'.
Proof. intros [Hf _ _ _ _ _ Ht]. split; [done|]. apply (Ht fsm_timer). by left. Qed.

Lemma quiet_on_upap g w : quiet w (on_upap g w).
Proof. done. Qed.

Lemma quiet_on_chap g w : quiet w (on_chap g w).
Proof. done. Qed.

Lemma quiet_on_auth g w : quiet w (on_auth g w).
Proof. done. Qed.

Lemma quiet_arm t time w : t <> fsm_timer -> quiet w (arm t time w).
Proof. intros Ht. apply quiet_on_link. simpl. rewrite pending_timeout. by rewrite decide_False. Qed.

Lemma quiet_disarm t w : t <> fsm_timer -> quiet w (disarm t w).
Proof. intros Ht. apply quiet_on_link. by apply pending_untimeout_ne. Qed.

Lemma quiet_send g n w :
  quiet w (on_link (fun l => output n (link_store 0 g l)) w).
Proof. apply quiet_on_link. by rewrite callouts_output callouts_link_store. Qed.

(** Follow the calls of a function from the last to the first. *)
Ltac quiets :=
  repeat lazymatch goal with
  | |- quiet ?w ?w => apply quiet_refl
  | |- quiet ?w (call None ?w) => apply quiet_refl
  | |- quiet _ (match ?x with _ => _ end) => destruct x
  | |- quiet _ (on_lcp ?g ?w) => apply (quiet_trans _ w); [|apply quiet_on_lcp]
  | |- quiet _ (on_upap ?g ?w) => apply (quiet_trans _ w); [|apply quiet_on_upap]
  | |- quiet _ (on_chap ?g ?w) => apply (quiet_trans _ w); [|apply quiet_on_chap]
  | |- quiet _ (on_auth ?g ?w) => apply (quiet_trans _ w); [|apply quiet_on_auth]
  | |- quiet _ (arm ?t ?n ?w) => apply (quiet_trans _ w); [|by apply quiet_arm]
  | |- quiet _ (disarm ?t ?w) => apply (quiet_trans _ w); [|by apply quiet_disarm]
  | |- quiet _ (on_link (fun l => output _ (link_store _ _ l)) ?w) =>
      apply (quiet_trans _ w); [|apply quiet_send]
  | |- quiet _ (on_link link_fault ?w) => apply (quiet_trans _ w); [|apply quiet_fault]
  end.

Lemma upap_sauthreq_quiet w : quiet w (upap_sauthreq w).
Proof. unfold upap_sauthreq. quiets. Qed.

Lemma upap_authwithpeer_quiet user passwd w : quiet w (upap_authwithpeer user passwd w).
Proof.
  unfold upap_authwithpeer. set (w1 := on_upap _ w). apply (quiet_trans _ w1); [apply quiet_on_upap|].
  clearbody w1. case_match; try apply upap_sauthreq_quiet; quiets.
Qed.

Lemma upap_listen_quiet w : quiet w (upap_listen w).
Proof. unfold upap_listen. quiets. Qed.

Lemma upap_authpeer_quiet w : quiet w (upap_authpeer w).
Proof. unfold upap_authpeer. case_match; try apply upap_listen_quiet; quiets. Qed.

Lemma upap_lowerup_quiet w : quiet w (upap_lowerup w).
Proof.
  unfold upap_lowerup. set (w1 := match us_clientstate _ with UPAPCS_INITIAL => _ | _ => _ end).
  assert (H1 : quiet w w1) by (subst w1; case_match; try apply upap_sauthreq_quiet; quiets).
  clearbody w1. eapply quiet_trans; [exact H1|]. case_match; try apply upap_listen_quiet; quiets.
Qed.

Lemma upap_lowerdown_quiet w : quiet w (upap_lowerdown w).
Proof.
  unfold upap_lowerdown. set (w1 := if decide (_ = UPAPCS_AUTHREQ) then _ else _).
  assert (H1 : quiet w w1) by (subst w1; case_decide; quiets). clearbody w1.
  eapply quiet_trans; [exact H1|]. quiets; case_decide; quiets.
Qed.

Lemma gen_challenge_quiet w : quiet w (ChapGenChallenge cc w).
Proof. unfold ChapGenChallenge. quiets. Qed.

Lemma send_challenge_quiet w : quiet w (ChapSendChallenge w).
Proof. unfold ChapSendChallenge. quiets. Qed.

Lemma start_challenge_quiet s w : quiet w (start_challenge cc s w).
Proof.
  unfold start_challenge. quiets. eapply quiet_trans; [apply gen_challenge_quiet|apply send_challenge_quiet].
Qed.

Lemma send_response_quiet w : quiet w (ChapSendResponse w).
Proof. unfold ChapSendResponse. quiets. Qed.

Lemma chap_authpeer_quiet name dig w : quiet w (ChapAuthPeer cc name dig w).
Proof.
  unfold ChapAuthPeer. set (w1 := on_chap _ w). apply (quiet_trans _ w1); [apply quiet_on_chap|].
  clearbody w1. case_match; try apply start_challenge_quiet; quiets.
Qed.

Lemma chap_authwithpeer_quiet name dig w : quiet w (ChapAuthWithPeer name dig w).
Proof.
  unfold ChapAuthWithPeer. set (w1 := on_chap _ w). apply (quiet_trans _ w1); [apply quiet_on_chap|].
  clearbody w1. quiets.
Qed.

Lemma chap_lowerup_quiet w : quiet w (ChapLowerUp cc w).
Proof.
  unfold ChapLowerUp. set (w1 := match ch_clientstate _ with CHAPCS_INITIAL => _ | _ => _ end).
  assert (H1 : quiet w w1) by (subst w1; quiets). clearbody w1.
  eapply quiet_trans; [exact H1|]. case_match; try apply start_challenge_quiet; quiets.
Qed.

Lemma chap_lowerdown_quiet w : quiet w (ChapLowerDown w).
Proof.
  unfold ChapLowerDown. set (w1 := match ch_serverstate _ with CHAPSS_INITIAL => _ | _ => _ end).
  assert (H1 : quiet w w1) by (subst w1; quiets). clearbody w1.
  eapply quiet_trans; [exact H1|]. quiets; case_decide; quiets.
Qed.

Context {HN : NetLaws}.

(** An entry of the table but for LCP. *)
Definition in_table (p : link_entry W) : Prop :=
  p = pap_link \/ p = chap_link cc \/ (exists e, In e others /\ p = p_link e).

(** A loop over the table is quiet when its passes are. *)
Lemma fold_table (R : W -> W -> Prop) (f : W -> link_entry W -> W) w :
  (forall w, R w w) -> (forall w1 w2 w3, R w1 w2 -> R w2 w3 -> R w1 w3) ->
  (forall p w, in_table p -> R w (f w p)) ->
  R w (fold_left f (link_table cc others) w).
Proof.
  intros Hr Ht Hf. unfold link_table.
  assert (Hall : Forall in_table (pap_link :: chap_link cc :: map p_link others)).
  { constructor; [by left|]. constructor; [by right; left|]. apply Forall_forall. intros p Hp. right. right.
    apply in_map_iff in Hp. destruct Hp as (e & <- & He). by exists e. }
  revert w. induction Hall as [|p l Hp _ IH]; intros w; simpl; [done|].
  eapply Ht; [by apply Hf|]. apply IH.
Qed.

Lemma entry_up_quiet p w :
  in_table p -> quiet w (entry_up w p).
Proof.
  intros Hp. unfold entry_up. destruct (_ && _); [|quiets].
  destruct Hp as [->|[->|(e & He & ->)]]; [apply upap_lowerup_quiet|apply chap_lowerup_quiet|].
  destruct (p_lowerup (p_link e)) eqn:E; [|quiets]. by apply outside_quiet, (net_lowerup e).
Qed.

Lemma entry_down_quiet p w :
  in_table p -> quiet w (entry_down w p).
Proof.
  intros Hp. unfold entry_down. destruct (negb _); [quiets|].
  set (w1 := if _ =? _ then _ else _). assert (H1 : quiet w w1).
  { subst w1. destruct (_ =? _); [quiets|]. destruct Hp as [->|[->|(e & He & ->)]];
      [apply upap_lowerdown_quiet|apply chap_lowerdown_quiet|].
    destruct (p_lowerdown (p_link e)) eqn:E; [|quiets]. by apply outside_quiet, (net_lowerdown e). }
  clearbody w1. eapply quiet_trans; [exact H1|]. destruct (_ <? _); [|quiets].
  destruct Hp as [->|[->|(e & He & ->)]]; [apply quiet_refl..|].
  destruct (p_close (p_link e)) eqn:E; [|quiets]. by apply outside_quiet, (net_close e).
Qed.

Lemma entry_open_quiet p w :
  in_table p -> quiet w (entry_open w p).
Proof.
  intros Hp. unfold entry_open. destruct Hp as [->|[->|(e & He & ->)]]; [apply quiet_refl..|].
  destruct (p_open (p_link e)) eqn:E; [|quiets]. destruct (_ && _); [|quiets].
  eapply quiet_trans; [by apply outside_quiet, (net_open e)|]. quiets.
Qed.

Lemma link_terminated_is_quiet w : quiet w (auth_link_terminated w).
Proof. unfold auth_link_terminated, new_phase. quiets. Qed.

Lemma link_down_is_quiet w : quiet w (auth_link_down cc others w).
Proof.
  unfold auth_link_down, auth_script, new_phase. set (w1 := if auth_script_state _ then _ else _).
  assert (H1 : quiet w w1) by (subst w1; quiets). clearbody w1.
  eapply quiet_trans; [exact H1|].
  assert (H2 : quiet w1 (fold_left entry_down (link_table cc others) w1)).
  { apply fold_table; [apply quiet_refl|apply quiet_trans|apply entry_down_quiet]. }
  quiets; done.
Qed.

#[local] Instance closing_layer_laws : AuthLaws W (HA := closing_layer ac cc others).
Proof.
  split; simpl; try done.
  - apply link_terminated_is_quiet.
  - apply link_down_is_quiet.
  - by intros w ?.
Qed.

Lemma close_lcp_keeps reason w : keeps w (close_lcp ac cc magic others reason w).
Proof. intros Hi. by apply lcp_close_keeps. Qed.

(** ** The reports keep the automaton's invariant *)

Lemma keeps_refl w : keeps w w.
Proof. by intros Hi. Qed.

Lemma keeps_trans w1 w2 w3 : keeps w1 w2 -> keeps w2 w3 -> keeps w1 w3.
Proof. unfold keeps. auto. Qed.

Lemma keeps_on_lcp g w1 w : keeps w1 w -> keeps w1 (on_lcp g w).
Proof. intros H Hi. exact (H Hi). Qed.
Lemma keeps_on_auth g w1 w : keeps w1 w -> keeps w1 (on_auth g w).
Proof. intros H Hi. exact (H Hi). Qed.
Lemma keeps_on_upap g w1 w : keeps w1 w -> keeps w1 (on_upap g w).
Proof. intros H Hi. exact (H Hi). Qed.

Lemma forget_passwd_quiet w : quiet w (forget_passwd w).
Proof. unfold forget_passwd. quiets. Qed.

Lemma peer_fail_keeps prot w : keeps w (ev_peer_fail ac cc magic others prot w).
Proof. apply keeps_on_lcp, close_lcp_keeps. Qed.

Lemma withpeer_fail_keeps prot w : keeps w (ev_withpeer_fail ac cc magic others prot w).
Proof.
  apply keeps_on_lcp. eapply keeps_trans; [|apply close_lcp_keeps].
  apply quiet_keeps, forget_passwd_quiet.
Qed.

Lemma start_networks_keeps w : keeps w (start_networks ac cc magic others w).
Proof.
  unfold start_networks. set (w1 := fold_left _ _ _).
  assert (H1 : keeps w w1).
  { apply quiet_keeps, (quiet_trans _ (new_phase PHASE_NETWORK w)); [apply quiet_on_lcp|].
    apply fold_table; [apply quiet_refl|apply quiet_trans|apply entry_open_quiet]. }
  clearbody w1. destruct (_ =? 0); [|done]. eapply keeps_trans; [exact H1|apply close_lcp_keeps].
Qed.

Lemma network_phase_keeps w : keeps w (network_phase ac cc magic others w).
Proof.
  unfold network_phase, auth_script. eapply keeps_trans; [|apply start_networks_keeps].
  apply quiet_keeps. quiets.
Qed.

Lemma auth_done_keeps bit w : keeps w (auth_done ac cc magic others bit w).
Proof.
  unfold auth_done. destruct (_ =? 0); [|apply keeps_on_auth, keeps_refl].
  eapply keeps_trans; [|apply network_phase_keeps]. apply keeps_on_auth, keeps_refl.
Qed.

Lemma peer_success_keeps prot name w : keeps w (ev_peer_success ac cc magic others prot name w).
Proof.
  unfold ev_peer_success. destruct (_ =? _); [|destruct (_ =? _); [|apply keeps_refl]].
  all: eapply keeps_trans; [|apply auth_done_keeps]; apply keeps_on_auth, keeps_refl.
Qed.

Lemma withpeer_success_keeps prot w : keeps w (ev_withpeer_success ac cc magic others prot w).
Proof.
  unfold ev_withpeer_success. destruct (_ =? _); [apply auth_done_keeps|].
  destruct (_ =? _); [|apply auth_done_keeps].
  eapply keeps_trans; [|apply auth_done_keeps]. apply quiet_keeps, forget_passwd_quiet.
Qed.

Lemma busy_quiet w w' : busy_step w w' -> quiet w w'.
Proof.
  intros [w1 w2 Ho _|w1|w1]; [by apply outside_quiet|unfold np_up, new_phase; quiets; done|].
  unfold np_down, new_phase. quiets; done.
Qed.

Lemma net_step_keeps w w' : net_step w w' -> keeps w w'.
Proof.
  intros [w1 w2 [Ho _]|w1 w2 _ Hb|].
  - by apply quiet_keeps, outside_quiet.
  - induction Hb as [|w1 w2 w3 H12 _ IH]; [apply keeps_refl|]. eapply keeps_trans; [|exact IH].
    by apply quiet_keeps, busy_quiet.
  - unfold np_finished. destruct (_ <=? 0); [|apply keeps_on_auth, keeps_refl].
    eapply keeps_trans; [|apply close_lcp_keeps]. apply keeps_on_auth, keeps_refl.
Qed.

Lemma net_run_keeps w w' : rtc net_step w w' -> keeps w w'.
Proof.
  induction 1 as [|w1 w2 w3 H12 _ IH]; [apply keeps_refl|]. eapply keeps_trans; [|exact IH]. by apply net_step_keeps.
Qed.

(** ** PAP *)

#[local] Existing Instance auth_events.

Lemma upap_timeout_keeps w : keeps w (upap_timeout (HA := auth_events ac cc magic others) w).
Proof.
  unfold upap_timeout. case_match; try apply keeps_refl. destruct (_ <=? _).
  - eapply keeps_trans; [|apply withpeer_fail_keeps]. apply keeps_on_upap, keeps_refl.
  - apply quiet_keeps, upap_sauthreq_quiet.
Qed.

Lemma upap_reqtimeout_keeps w : keeps w (upap_reqtimeout (HA := auth_events ac cc magic others) w).
Proof.
  unfold upap_reqtimeout. case_match; try apply keeps_refl. apply keeps_on_upap, peer_fail_keeps.
Qed.

Lemma upap_protrej_keeps w : keeps w (upap_protrej (HA := auth_events ac cc magic others) w).
Proof.
  unfold upap_protrej. set (w1 := if decide (_ = UPAPCS_AUTHREQ) then _ else _).
  assert (H1 : keeps w w1) by (subst w1; case_decide; [apply withpeer_fail_keeps|apply keeps_refl]).
  clearbody w1. set (w2 := if decide _ then _ else _).
  assert (H2 : keeps w1 w2) by (subst w2; case_decide; [apply peer_fail_keeps|apply keeps_refl]).
  clearbody w2. eapply keeps_trans; [exact H1|]. eapply keeps_trans; [exact H2|].
  apply quiet_keeps, upap_lowerdown_quiet.
Qed.

Lemma upap_verdict_keeps pid ruser rpasswd w :
  keeps w (upap_verdict (HA := auth_events ac cc magic others) pid ruser rpasswd w).
Proof.
  unfold upap_verdict, upap_sresp. set (w1 := on_link _ w).
  assert (H1 : keeps w w1) by (apply quiet_keeps, quiet_send). clearbody w1.
  set (w2 := if _ =? UPAP_AUTHACK then _ else _).
  assert (H2 : keeps w1 w2).
  { subst w2. destruct (_ =? UPAP_AUTHACK).
    - eapply keeps_trans; [|apply peer_success_keeps]. apply keeps_on_upap, keeps_refl.
    - eapply keeps_trans; [|apply peer_fail_keeps]. apply keeps_on_upap, keeps_refl. }
  clearbody w2. eapply keeps_trans; [exact H1|]. eapply keeps_trans; [exact H2|].
  apply quiet_keeps. quiets.
Qed.

Lemma upap_input_keeps p len w : keeps w (upap_input (HA := auth_events ac cc magic others) p len w).
Proof.
  unfold upap_input. destruct (upap_header p len) as [[[[code pid] n] inp]| |];
    [|apply keeps_refl|apply quiet_keeps, quiet_fault].
  destruct (code =? UPAP_AUTHREQ); [|destruct (code =? UPAP_AUTHACK); [|destruct (code =? UPAP_AUTHNAK);
    [|apply keeps_refl]]].
  - unfold upap_rauthreq. case_match; try apply keeps_refl; try apply quiet_keeps, quiet_send.
    destruct (parse_authreq inp n) as [[ruser rpasswd]| |];
      [apply upap_verdict_keeps|apply keeps_refl|apply quiet_keeps, quiet_fault].
  - unfold upap_rauthack. case_match; try apply keeps_refl.
    destruct (parse_message inp n); [|apply keeps_refl|apply quiet_keeps, quiet_fault].
    eapply keeps_trans; [|apply withpeer_success_keeps]. apply keeps_on_upap, keeps_refl.
  - unfold upap_rauthnak. case_match; try apply keeps_refl.
    destruct (parse_message inp n); [|apply keeps_refl|apply quiet_keeps, quiet_fault].
    eapply keeps_trans; [|apply withpeer_fail_keeps]. apply keeps_on_upap, keeps_refl.
Qed.

(** ** CHAP *)

Lemma keeps_on_chap g w1 w : keeps w1 w -> keeps w1 (on_chap g w).
Proof. intros H Hi. exact (H Hi). Qed.

Abbreviation events := (auth_events ac cc magic others).

Lemma challenge_timeout_keeps w : keeps w (ChapChallengeTimeout (HA := events) w).
Proof.
  unfold ChapChallengeTimeout. case_match; try apply keeps_refl.
  all: destruct (_ <=? _); [|apply quiet_keeps, send_challenge_quiet].
  all: eapply keeps_trans; [|apply peer_fail_keeps]; apply keeps_on_chap, keeps_refl.
Qed.

Lemma response_timeout_keeps w : keeps w (ChapResponseTimeout w).
Proof. unfold ChapResponseTimeout. case_match; try apply keeps_refl. apply quiet_keeps, send_response_quiet. Qed.

Lemma rechallenge_keeps w : keeps w (ChapRechallenge cc w).
Proof. unfold ChapRechallenge. case_match; try apply keeps_refl. apply quiet_keeps, start_challenge_quiet. Qed.

Lemma chap_protrej_keeps w : keeps w (ChapProtocolReject (HA := events) w).
Proof.
  unfold ChapProtocolReject. set (w1 := match ch_serverstate _ with CHAPSS_INITIAL => _ | _ => _ end).
  assert (H1 : keeps w w1) by (subst w1; case_match; solve [apply peer_fail_keeps|apply keeps_refl]).
  clearbody w1. set (w2 := match ch_clientstate _ with CHAPCS_INITIAL => _ | _ => _ end).
  assert (H2 : keeps w1 w2) by (subst w2; case_match; solve [apply withpeer_fail_keeps|apply keeps_refl]).
  clearbody w2. eapply keeps_trans; [exact H1|]. eapply keeps_trans; [exact H2|].
  apply quiet_keeps, chap_lowerdown_quiet.
Qed.

Lemma answer_challenge_keeps pid chal name w :
  keeps w (answer_challenge cc (HA := events) pid chal name w).
Proof.
  apply quiet_keeps. unfold answer_challenge. set (w1 := if decide _ then _ else w).
  assert (H1 : quiet w w1) by (subst w1; case_decide; quiets). clearbody w1.
  set (w2 := on_chap _ w1). apply (quiet_trans _ w2); [exact H1|].
  destruct (_ =? _); [|apply quiet_refl]. eapply quiet_trans; [|apply send_response_quiet]. quiets.
Qed.

Lemma judge_response_keeps remmd name w : keeps w (judge_response cc (HA := events) remmd name w).
Proof.
  unfold judge_response, ChapSendStatus. set (w1 := disarm _ w). set (w2 := on_link _ w1).
  assert (H2 : keeps w w2) by (apply quiet_keeps, (quiet_trans _ w1); [by apply quiet_disarm|apply quiet_send]).
  eapply keeps_trans; [exact H2|]. clearbody w2. destruct (_ =? CHAP_SUCCESS).
  - set (w3 := if decide _ then _ else _). assert (H3 : keeps w2 w3).
    { subst w3. case_decide; [|apply keeps_on_chap, keeps_refl].
      eapply keeps_trans; [|apply peer_success_keeps]. apply keeps_on_chap, keeps_refl. }
    clearbody w3. eapply keeps_trans; [exact H3|]. apply quiet_keeps. quiets.
  - eapply keeps_trans; [|apply peer_fail_keeps]. apply keeps_on_chap, keeps_refl.
Qed.

Lemma chap_input_keeps p len w : keeps w (ChapInput cc (HA := events) p len w).
Proof.
  unfold ChapInput. destruct (chap_header p len) as [[[[code pid] n] inp]| |];
    [|apply keeps_refl|apply quiet_keeps, quiet_fault].
  destruct (code =? CHAP_CHALLENGE); [|destruct (code =? CHAP_RESPONSE); [|destruct (code =? CHAP_FAILURE);
    [|destruct (code =? CHAP_SUCCESS); [|apply keeps_refl]]]].
  - unfold ChapReceiveChallenge. case_match; try apply keeps_refl.
    all: destruct (parse_value inp n) as [[chal name]| |];
      [apply answer_challenge_keeps|apply keeps_refl|apply quiet_keeps, quiet_fault].
  - unfold ChapReceiveResponse. case_match; try apply keeps_refl; (destruct (negb _); [apply keeps_refl|]);
      try apply quiet_keeps, quiet_send.
    all: destruct (parse_value inp n) as [[remmd name]| |];
      [apply judge_response_keeps|apply keeps_refl|apply quiet_keeps, quiet_fault].
  - unfold ChapReceiveFailure. case_match; try apply keeps_refl.
    eapply keeps_trans; [|apply withpeer_fail_keeps]. by apply quiet_keeps, quiet_disarm.
  - unfold ChapReceiveSuccess. case_match; try apply keeps_refl.
    eapply keeps_trans; [|apply withpeer_success_keeps]. by apply keeps_on_chap, quiet_keeps, quiet_disarm.
Qed.

(** ** The layer LCP runs under *)

Lemma start_auth_keeps w :
  keeps w (start_auth_withpeer ac (start_auth_peer ac cc w).2).2.
Proof.
  set (w1 := (start_auth_peer ac cc w).2). assert (H1 : quiet w w1).
  { subst w1. unfold start_auth_peer. destruct (neg_chap _); [apply chap_authpeer_quiet|].
    destruct (neg_upap _); [apply upap_authpeer_quiet|apply quiet_refl]. }
  clearbody w1. apply quiet_keeps. apply (quiet_trans _ w1); [exact H1|].
  unfold start_auth_withpeer. destruct (neg_chap _); [apply chap_authwithpeer_quiet|].
  destruct (neg_upap _); [|apply quiet_refl]. cbn [snd]. set (w2 := if have_passwd w1 then _ else _).
  assert (H2 : quiet w1 w2) by (subst w2; quiets). clearbody w2.
  apply (quiet_trans _ w2); [exact H2|apply upap_authwithpeer_quiet].
Qed.

Lemma link_established_is_keeping w : keeps w (auth_link_established ac cc magic others w).
Proof.
  unfold auth_link_established. set (w1 := fold_left _ _ w).
  assert (H1 : keeps w w1).
  { apply quiet_keeps, fold_table; [apply quiet_refl|apply quiet_trans|apply entry_up_quiet]. }
  clearbody w1. eapply keeps_trans; [exact H1|]. destruct (_ && _).
  - apply keeps_on_lcp, close_lcp_keeps.
  - set (w2 := new_phase _ w1). pose proof (start_auth_keeps w2) as H2.
    assert (H12 : keeps w1 w2) by apply keeps_on_lcp, keeps_refl. clearbody w2.
    destruct (start_auth_peer ac cc w2) as [peer w3]. simpl in H2.
    destruct (start_auth_withpeer ac w3) as [withpeer w4]. simpl in H2.
    eapply keeps_trans; [exact H12|]. eapply keeps_trans; [exact H2|].
    destruct (_ =? 0); [|apply keeps_on_auth, keeps_refl].
    eapply keeps_trans; [|apply network_phase_keeps]. apply keeps_on_auth, keeps_refl.
Qed.

Lemma protrej_entry prot g :
  auth_protrej ac cc magic others prot = Some g ->
  g = upap_protrej (HA := events) \/ g = ChapProtocolReject (HA := events) \/
  exists e, In e others /\ g = p_protrej e.
Proof.
  unfold auth_protrej. destruct (list_find _ _) as [[i e]|] eqn:E; [|done]. intros [= <-].
  apply list_find_Some in E. destruct E as (Hl & _ & _).
  destruct i as [|[|i]]; simplify_eq/=; [by left|by right; left|right; right]. exists e. split; [|done].
  by apply list_elem_of_In, list_elem_of_lookup_2 with i.
Qed.

#[export] Instance auth_layer_laws : AuthLaws W (HA := auth_layer ac cc magic others).
Proof.
  split; simpl; try done.
  - apply link_terminated_is_quiet.
  - apply link_down_is_quiet.
  - apply link_established_is_keeping.
  - intros prot g w Hg. destruct (protrej_entry prot g Hg) as [->|[->|(e & He & ->)]];
      [apply upap_protrej_keeps|apply chap_protrej_keeps|apply net_run_keeps, net_protrej; done].
Qed.
End Daemon.

Arguments net_lowerup {X ac cc magic others HR NetLaws} p g w.
Arguments net_lowerdown {X ac cc magic others HR NetLaws} p g w.
Arguments net_down {X ac cc magic others HR NetLaws} w.
Arguments net_open {X ac cc magic others HR NetLaws} p g w.
Arguments net_close {X ac cc magic others HR NetLaws} p g reason w.
Arguments net_protrej {X ac cc magic others HR NetLaws} p w.
Arguments net_input {X ac cc magic others HR NetLaws} p bs len w.
Arguments net_datainput {X ac cc magic others HR NetLaws} p g bs len w.
