(* ===== verification/DaemonGuard.v ===== *)
(** * The daemon: what guards the network phase

    The invariant that ties the phase of the link, the pending authentications
    and the states of PAP and CHAP to the state of LCP, and that the parts of
    the daemon keep it. *)

From S2P Require Import Prelude Wire Callout Fsm FsmSpec FsmGate.
From S2P Require Import LcpOptions LcpAuthtype LcpReqci Lcp LcpSpec Upap Chap Auth AuthSpec.

Section Guard.
Context {X : Type}.
Abbreviation W := (daemon X).
Implicit Types w : W.
Context (ac : auth_config) (cc : chap_config) (magic : nat -> Z).
Context (others : list (protent W)) {HR : NetRest X}.

(** ** The invariant *)

Definition networking w : Prop := phase w = PHASE_NETWORK \/ phase w = PHASE_RUNNING.
Definition live w : Prop := phase w = PHASE_AUTHENTICATE \/ networking w.

(** An authentication that has not been reported yet. *)
Definition owes (bit : Z) w : bool := Z.testbit (auth_pending (d_auth w)) bit.

(** PAP has been open since it last began to wait; it is open still, or was told
    later that the link is down. *)
Definition server_settled w : Prop :=
  us_peer_passed (d_upap w) = true /\
  (us_serverstate (d_upap w) = UPAPSS_OPEN \/ us_serverstate (d_upap w) = UPAPSS_INITIAL).
Definition client_settled w : Prop :=
  us_self_passed (d_upap w) = true /\
  (us_clientstate (d_upap w) = UPAPCS_OPEN \/ us_clientstate (d_upap w) = UPAPCS_INITIAL).

(** CHAP has been open since it last began to listen; it is open still, or
    answers a challenge that came later. *)
Definition chap_settled w : Prop :=
  ch_self_passed (d_chap w) = true /\
  (ch_clientstate (d_chap w) = CHAPCS_OPEN \/ ch_clientstate (d_chap w) = CHAPCS_RESPONSE).

(** What LCP had agreed on when the authentications were started: the peer, and
    we, authenticate by PAP, and we by CHAP. *)
Definition peer_by_pap w : bool := if agreed (d_auth w) is Some (go, _) then asks_upap go else false.
Definition self_by_pap w : bool := if agreed (d_auth w) is Some (_, ho) then asks_upap ho else false.
Definition self_by_chap w : bool := if agreed (d_auth w) is Some (_, ho) then neg_chap ho else false.

(** The peer is not asked to use CHAP. *)
Definition no_chap w : Prop := neg_chap (gotoptions (d_lcp w)) = false.

(** The link is down for the layers above: PAP waits for nothing; where it did
    not settle, its report is still missing; the network protocols rest. *)
Definition idle w : Prop :=
  ~ live w /\ no_chap w /\
  (us_serverstate (d_upap w) <> UPAPSS_LISTEN /\ us_serverstate (d_upap w) <> UPAPSS_PENDING) /\
  (us_clientstate (d_upap w) <> UPAPCS_AUTHREQ /\ us_clientstate (d_upap w) <> UPAPCS_PENDING) /\
  (peer_by_pap w = true -> server_settled w \/ owes 1 w = true) /\
  (self_by_pap w = true -> client_settled w \/ owes 0 w = true) /\
  net_rest (d_other w).

(** In the network phase, and when a network protocol is not at rest, nothing is
    outstanding; an authentication that was agreed on and is not outstanding is
    settled; PAP waits for what it owes. *)
Definition working w : Prop :=
  (networking w \/ ~ net_rest (d_other w) -> auth_pending (d_auth w) = 0) /\ no_chap w /\
  (peer_by_pap w = true -> owes 1 w = false -> server_settled w) /\
  (self_by_pap w = true -> owes 0 w = false -> client_settled w) /\
  (self_by_chap w = true -> owes 2 w = false -> chap_settled w) /\
  (us_serverstate (d_upap w) = UPAPSS_LISTEN -> owes 1 w = true) /\
  (us_clientstate (d_upap w) = UPAPCS_AUTHREQ -> owes 0 w = true) /\
  us_serverstate (d_upap w) <> UPAPSS_PENDING /\ us_clientstate (d_upap w) <> UPAPCS_PENDING.

(** What holds all the time. *)
Definition sound w : Prop :=
  no_chap w /\
  (peer_by_pap w = true -> us_peer_passed (d_upap w) = true \/ owes 1 w = true) /\
  (self_by_pap w = true -> us_self_passed (d_upap w) = true \/ owes 0 w = true).

Abbreviation guarded := (gate idle working).

(** An open link on which nothing is outstanding, and every authentication LCP
    had agreed on has succeeded since it was started. *)
Definition authenticated w : Prop :=
  state (d_fsm w) = OPENED /\ auth_pending (d_auth w) = 0 /\ no_chap w /\
  (peer_by_pap w = true -> server_settled w) /\
  (self_by_pap w = true -> client_settled w) /\
  (self_by_chap w = true -> chap_settled w).

(** ** Steps of other protocols *)

Lemma networking_live w : networking w -> live w.
Proof. by right. Qed.

Lemma idle_no_chap w : idle w -> no_chap w.
Proof. by intros (_ & ? & _). Qed.

Lemma working_no_chap w : working w -> no_chap w.
Proof. by intros (_ & ? & _). Qed.

Lemma guarded_no_chap w : guarded w -> no_chap w.
Proof. intros [?|[_ ?]]; [by apply idle_no_chap|by apply working_no_chap]. Qed.

Lemma idle_sound w : idle w -> sound w.
Proof.
  intros (_ & Hn & _ & _ & Hs & Hc & _). split; [done|].
  split; intros Ha; [destruct (Hs Ha) as [[? _]|?]|destruct (Hc Ha) as [[? _]|?]]; auto.
Qed.

Lemma working_sound w : working w -> sound w.
Proof.
  intros (_ & Hn & Hs & Hc & _). split; [done|]. split; intros Ha.
  - destruct (owes 1 w); [by right|]. left. by apply Hs.
  - destruct (owes 0 w); [by right|]. left. by apply Hc.
Qed.

(** What [sound] looks at. *)
Lemma sound_same w w' :
  agreed (d_auth w') = agreed (d_auth w) -> auth_pending (d_auth w') = auth_pending (d_auth w) ->
  us_peer_passed (d_upap w') = us_peer_passed (d_upap w) ->
  us_self_passed (d_upap w') = us_self_passed (d_upap w) -> (no_chap w -> no_chap w') -> sound w -> sound w'.
Proof.
  intros Ea Ep E1 E2 En (Hn & Hs & Hc). unfold sound, peer_by_pap, self_by_pap, owes in *.
  rewrite Ea Ep E1 E2. auto.
Qed.

Lemma idle_calm w w' : calm w w' -> idle w -> idle w'.
Proof.
  intros (Ho & Hp & Hr) (Hl & Hn & Hu).
  unfold idle, live, networking, no_chap, server_settled, client_settled, peer_by_pap, self_by_pap, owes in *.
  rewrite Hp (out_upap _ _ Ho) (out_pending _ _ Ho) (out_agreed _ _ Ho) (out_lcp _ _ Ho). split; [done|]. split; [done|].
  split_and!; try apply Hu. by apply Hr, Hu.
Qed.

(** With nothing outstanding a protocol may leave its rest, in every phase. *)
Lemma working_outside w w' :
  outside w w' -> auth_pending (d_auth w) = 0 -> working w -> working w'.
Proof.
  intros Ho Hz (_ & H2). 
  unfold working, no_chap, server_settled, client_settled, chap_settled, peer_by_pap, self_by_pap, self_by_chap, owes in *.
  rewrite (out_upap _ _ Ho) (out_chap _ _ Ho) (out_pending _ _ Ho) (out_agreed _ _ Ho) (out_lcp _ _ Ho). by split.
Qed.

Lemma working_calm w w' : calm w w' -> working w -> working w'.
Proof.
  intros (Ho & Hp & Hr) (H1 & H2).
  unfold working, networking, no_chap, server_settled, client_settled, chap_settled, peer_by_pap, self_by_pap,
    self_by_chap, owes in *.
  rewrite Hp (out_upap _ _ Ho) (out_chap _ _ Ho) (out_pending _ _ Ho) (out_agreed _ _ Ho) (out_lcp _ _ Ho). split; [|exact H2].
  intros [Hn|Hn]; apply H1; [by left|right; auto].
Qed.

Lemma guarded_calm w w' : calm w w' -> guarded w -> guarded w'.
Proof.
  intros Hc [Hi|[Hs Hw]]; [left; by eapply idle_calm|right].
  split; [by rewrite /= (out_fsm _ _ (proj1 Hc))|by eapply working_calm].
Qed.

Lemma outside_on_auth g w :
  auth_pending (g (d_auth w)) = auth_pending (d_auth w) -> agreed (g (d_auth w)) = agreed (d_auth w) ->
  outside w (on_auth g w).
Proof. intros Hp Ha. destruct (outside_refl w) as [? ? ? ? ? ? ?]. by split. Qed.

Context {HN : NetLaws ac cc magic others}.

(** A loop over the network protocols. *)
Lemma fold_others (R : W -> W -> Prop) (f : W -> link_entry W -> W) w :
  (forall w, R w w) -> (forall w1 w2 w3, R w1 w2 -> R w2 w3 -> R w1 w3) ->
  (forall e w, In e others -> R w (f w (p_link e))) ->
  R w (fold_left f (map p_link others) w).
Proof.
  intros Hr Ht Hf. assert (Hincl : incl others others) by apply incl_refl. revert w Hincl.
  generalize others at 1 3. intros l. induction l as [|e l IH]; intros w Hincl; simpl; [apply Hr|].
  apply (Ht _ (f w (p_link e))); [apply Hf, Hincl; by left|].
  apply IH. intros x Hx. apply Hincl. by right.
Qed.

Lemma entry_up_calm e w : In e others -> calm w (entry_up w (p_link e)).
Proof.
  intros He. unfold entry_up. destruct (_ && _); [|apply calm_refl].
  destruct (p_lowerup (p_link e)) as [g|] eqn:E; [|apply calm_refl]. by apply (net_lowerup e g).
Qed.

Lemma fold_up_calm w : calm w (fold_left entry_up (map p_link others) w).
Proof. apply fold_others; [apply calm_refl|apply calm_trans|apply entry_up_calm]. Qed.

Lemma entry_down_outside e w : In e others -> outside w (entry_down w (p_link e)).
Proof.
  intros He. unfold entry_down. destruct (negb _); [apply outside_refl|].
  set (w1 := if _ =? _ then _ else _). assert (H1 : outside w w1).
  { subst w1. destruct (_ =? _); [apply outside_refl|].
    destruct (p_lowerdown (p_link e)) eqn:E; [|apply outside_refl]. by apply (net_lowerdown e). }
  clearbody w1. apply (outside_trans _ w1); [done|]. destruct (_ <? _); [|apply outside_refl].
  destruct (p_close (p_link e)) eqn:E; [|apply outside_refl]. by apply (net_close e).
Qed.

Lemma fold_down_outside w : outside w (fold_left entry_down (map p_link others) w).
Proof. apply fold_others; [apply outside_refl|apply outside_trans|apply entry_down_outside]. Qed.

Lemma entry_open_outside e w : In e others -> outside w (entry_open w (p_link e)).
Proof.
  intros He. unfold entry_open. destruct (p_open (p_link e)) as [open|] eqn:E; [|apply outside_refl].
  destruct (_ && _); [|apply outside_refl]. pose proof (net_open e open w He E) as Ho.
  destruct (_ =? _); [done|]. eapply outside_trans; [exact Ho|]. by apply outside_on_auth.
Qed.

Lemma fold_open_outside w : outside w (fold_left entry_open (map p_link others) w).
Proof. apply fold_others; [apply outside_refl|apply outside_trans|apply entry_open_outside]. Qed.

(** ** Going down *)

(** Both authentication protocols are told that the link is down. *)
Definition auths_down w : W := ChapLowerDown (upap_lowerdown w).

Lemma fold_down w :
  fold_left entry_down (link_table cc others) w = fold_left entry_down (map p_link others) (auths_down w).
Proof. done. Qed.

Lemma chap_lowerdown_rest w :
  let w' := ChapLowerDown w in
  d_upap w' = d_upap w /\ d_lcp w' = d_lcp w /\ d_auth w' = d_auth w /\ d_fsm w' = d_fsm w /\
  d_other w' = d_other w.
Proof. unfold ChapLowerDown. destruct (ch_serverstate _); repeat case_decide; by try case_match. Qed.

Lemma upap_lowerdown_rest w :
  let w' := upap_lowerdown w in
  d_lcp w' = d_lcp w /\ d_auth w' = d_auth w /\ d_fsm w' = d_fsm w /\ d_other w' = d_other w.
Proof. unfold upap_lowerdown. by repeat case_decide. Qed.

Lemma auths_down_spec w :
  let w' := auths_down w in
  us_serverstate (d_upap w') = UPAPSS_INITIAL /\ us_clientstate (d_upap w') = UPAPCS_INITIAL /\
  d_lcp w' = d_lcp w /\ d_auth w' = d_auth w /\ (sound w -> sound w').
Proof.
  unfold auths_down. destruct (chap_lowerdown_rest (upap_lowerdown w)) as (Eu & El & Ea & _).
  destruct (upap_lowerdown_rest w) as (El' & Ea' & _). rewrite Eu El Ea El' Ea'.
  split_and!; try done. apply sound_same; [by rewrite Ea Ea'|by rewrite Ea Ea'|..].
  1-2: rewrite Eu; unfold upap_lowerdown; by repeat case_decide.
  unfold no_chap. by rewrite El El'.
Qed.

Lemma link_down_idle w : sound w -> idle (auth_link_down cc others w).
Proof.
  intros Hn. unfold auth_link_down. set (w1 := if auth_script_state _ then _ else _).
  assert (Hn1 : sound w1) by (subst w1; by destruct (auth_script_state _)). clearbody w1.
  rewrite fold_down. pose proof (fold_down_outside (auths_down w1)) as Ho.
  pose proof (net_down (auths_down w1)) as Hr.
  destruct (auths_down_spec w1) as (Hs & Hc & Hl & _ & H2). specialize (H2 Hn1).
  set (w2 := auths_down w1) in *. clearbody w2. set (w3 := fold_left _ _ _) in *. clearbody w3.
  assert (Hu : us_serverstate (d_upap w3) = UPAPSS_INITIAL /\ us_clientstate (d_upap w3) = UPAPCS_INITIAL /\ sound w3).
  { split; [by rewrite (out_upap _ _ Ho)|]. split; [by rewrite (out_upap _ _ Ho)|]. revert H2.
    apply sound_same; [apply (out_agreed _ _ Ho)|apply (out_pending _ _ Ho)|by rewrite (out_upap _ _ Ho)..|].
    unfold no_chap. by rewrite (out_lcp _ _ Ho). }
  clear Ho Hs Hc Hl H2. destruct Hu as (Hs & Hc & Hn3 & Hp3 & Hq3).
  assert (Hp : peer_by_pap w3 = true -> server_settled w3 \/ owes 1 w3 = true).
  { intros Ha. destruct (Hp3 Ha); [left; split; [done|by right]|by right]. }
  assert (Hq : self_by_pap w3 = true -> client_settled w3 \/ owes 0 w3 = true).
  { intros Ha. destruct (Hq3 Ha); [left; split; [done|by right]|by right]. }
  clear Hp3 Hq3. unfold idle, live, networking.
  destruct (pppd_phase _ =? PHASE_DEAD) eqn:Ep.
  - apply Z.eqb_eq in Ep. change (phase w3 = PHASE_DEAD) in Ep.
    change (phase (on_auth _ w3)) with (phase w3). change (d_upap (on_auth _ w3)) with (d_upap w3).
    rewrite Hs Hc Ep. split_and!; try done; by intros [?|[?|?]].
  - change (d_upap (new_phase _ (on_auth _ w3))) with (d_upap w3).
    rewrite Hs Hc. split_and!; try done; by intros [?|[?|?]].
Qed.

(** ** LCP under the gate *)

(** The two predicates look at the phase, the negotiated options, PAP, CHAP
    and the pending authentication only. *)
Lemma idle_on_lcp g w :
  pppd_phase (g (d_lcp w)) = pppd_phase (d_lcp w) -> neg_chap (gotoptions (g (d_lcp w))) = false ->
  idle w -> idle (on_lcp g w).
Proof.
  intros Hg Hn (Hl & _ & H). split; [|split; [exact Hn|exact H]].
  unfold live, networking, phase. change (d_lcp (on_lcp g w)) with (g (d_lcp w)). by rewrite Hg.
Qed.

Lemma working_on_lcp g w :
  pppd_phase (g (d_lcp w)) = pppd_phase (d_lcp w) ->
  gotoptions (g (d_lcp w)) = gotoptions (d_lcp w) -> working w -> working (on_lcp g w).
Proof.
  intros Hp Hg Hw. unfold working, networking, phase, no_chap in *.
  change (d_lcp (on_lcp g w)) with (g (d_lcp w)). rewrite Hp Hg. exact Hw.
Qed.

Lemma guarded_on_lcp g w :
  pppd_phase (g (d_lcp w)) = pppd_phase (d_lcp w) ->
  gotoptions (g (d_lcp w)) = gotoptions (d_lcp w) -> guarded w -> guarded (on_lcp g w).
Proof.
  intros Hp Hg Hw. pose proof (guarded_no_chap _ Hw) as Hn. destruct Hw as [Hi|[Hs Hw]].
  - left. apply idle_on_lcp; [done|by rewrite Hg|done].
  - right. split; [done|by apply working_on_lcp].
Qed.

Lemma guarded_status v w : guarded w -> guarded (on_lcp (set_pppd_status v) w).
Proof. by apply guarded_on_lcp. Qed.

Lemma idle_status v w : idle w -> idle (on_lcp (set_pppd_status v) w).
Proof. intros Hi. exact Hi. Qed.

Lemma idle_new_phase p w :
  p <> PHASE_AUTHENTICATE -> p <> PHASE_NETWORK -> p <> PHASE_RUNNING -> idle w -> idle (new_phase p w).
Proof. intros Ha Hn Hr (_ & Hu). split; [|exact Hu]. by intros [?|[?|?]]. Qed.

Lemma guarded_new_phase p w :
  p <> PHASE_AUTHENTICATE -> p <> PHASE_NETWORK -> p <> PHASE_RUNNING ->
  guarded w -> guarded (new_phase p w).
Proof.
  intros Ha Hn Hr [Hi|[Hs (H1 & Hw)]]; [left; by apply idle_new_phase|right].
  split; [done|]. split; [|exact Hw]. intros [[?|?]|?]; [done..|]. apply H1. by right.
Qed.

Lemma link_terminated_idle w : idle w -> idle (auth_link_terminated w).
Proof. intros Hi. unfold auth_link_terminated. destruct (_ =? _); [done|by apply idle_new_phase]. Qed.

Lemma ackci_guarded p len w : guarded w -> guarded (cb_lcp_ackci p len w).2.
Proof. intros Hg. unfold cb_lcp_ackci. by destruct (lcp_ackci _ _ _). Qed.

Lemma rejci_guarded p len w : guarded w -> guarded (cb_lcp_rejci p len w).2.
Proof.
  intros Hg. unfold cb_lcp_rejci. destruct (lcp_rejci _ _ _) as [try| |] eqn:Er; [|done|done]. simpl.
  case_decide as Hs; [done|]. apply gate_not_opened in Hg; [|done]. left.
  apply idle_on_lcp; [done|exact (rejci_no_chap _ _ _ _ Er (idle_no_chap _ Hg))|done].
Qed.

Lemma reqci_idle inp len r w : idle w -> idle (cb_lcp_reqci magic inp len r w).2.
Proof.
  intros Hi. unfold cb_lcp_reqci. destruct (lcp_reqci _ _ _ _ _ _ _) as [rep| |]; [|done|done]. simpl.
  destruct (rr_oob rep || rr_overlap rep); exact Hi.
Qed.

(** CHAP is taken off the options to ask for at every reset. *)
Lemma auth_reset_no_chap w : no_chap (auth_auth_reset ac w).
Proof.
  unfold no_chap, auth_auth_reset. simpl.
  set (go := if neg_upap _ && _ && _ then _ else _). clearbody go. by destruct (neg_chap go) eqn:E.
Qed.

Lemma auth_reset_idle w :
  ~ live w /\ (us_serverstate (d_upap w) <> UPAPSS_LISTEN /\ us_serverstate (d_upap w) <> UPAPSS_PENDING) /\
  (us_clientstate (d_upap w) <> UPAPCS_AUTHREQ /\ us_clientstate (d_upap w) <> UPAPCS_PENDING) /\
  (peer_by_pap w = true -> server_settled w \/ owes 1 w = true) /\
  (self_by_pap w = true -> client_settled w \/ owes 0 w = true) /\ net_rest (d_other w) ->
  idle (auth_auth_reset ac w).
Proof. intros (Hl & Hu). split; [exact Hl|]. split; [apply auth_reset_no_chap|exact Hu]. Qed.

Lemma resetci_idle (A : AuthLayer W) w :
  (forall w, @auth_reset W A w = auth_auth_reset ac w) -> idle w -> idle (lcp_resetci (HA := A) magic w).
Proof. intros HA (Hl & _ & Hu). unfold lcp_resetci. rewrite HA. apply auth_reset_idle. split; [exact Hl|exact Hu]. Qed.

Lemma lcp_down_idle (A : AuthLayer W) w :
  (forall w, @link_down W A w = auth_link_down cc others w) -> sound w -> idle (lcp_down (HA := A) w).
Proof.
  intros HA Hn. unfold lcp_down. rewrite HA.
  assert (Hn1 : sound (lcp_echo_lowerdown w)) by (unfold lcp_echo_lowerdown; by destruct (echo_timer_running _)).
  pose proof (link_down_idle _ Hn1) as Hi. set (w1 := auth_link_down _ _ _) in *. clearbody w1. exact Hi.
Qed.

#[export] Instance closing_gated :
  Gated (lcp_closing_callbacks (HA := closing_layer ac cc others) magic) sound idle working.
Proof.
  split; intros; take_callback; try done.
  - by apply resetci_idle.
  - by apply reqci_idle.
  - by apply link_terminated_idle.
  - by apply idle_sound.
  - by apply working_sound.
  - by apply lcp_down_idle.
  - by left.
  - by apply ackci_guarded.
  - by apply rejci_guarded.
Qed.

(** Closing ends the link, also while it comes up. *)
Definition closable w : Prop := sound w /\ (state (d_fsm w) <> OPENED -> idle w).

Lemma guarded_sound w : guarded w -> sound w.
Proof. intros [?|[_ ?]]; [by apply idle_sound|by apply working_sound]. Qed.

Lemma guarded_closable w : guarded w -> closable w.
Proof. intros Hg. split; [by apply guarded_sound|]. exact (gate_not_opened idle working w Hg). Qed.

Lemma close_lcp_idle reason w : closable w -> idle (close_lcp ac cc magic others reason w).
Proof.
  intros Hc. unfold close_lcp, lcp_close. set (w1 := if _ =? _ then _ else _).
  assert (H1 : closable w1).
  { subst w1. destruct (_ =? _); [done|]. destruct Hc as [Hn Hi]. split; [done|]. intros Hs.
    apply idle_new_phase; [done..|by apply Hi]. }
  clearbody w1. destruct H1 as [Hn Hi].
  assert (Hf : idle (fsm_close (lcp_closing_callbacks (HA := closing_layer ac cc others) magic) (Some reason) w1)).
  { destruct (decide (state (d_fsm w1) = OPENED)) as [Ho|Ho].
    - by apply (close_opened_off _ sound idle working).
    - by apply (off_close _ sound idle working), Hi. }
  case_bool_decide as Hs; [|exact Hf]. destruct (has_bits _ _); [|exact Hf].
  apply link_terminated_idle. refine (off_fsm _ sound idle working (set_state CLOSED) w1 (Hi _)).
  change (state (d_fsm w1) = STOPPED) in Hs. by rewrite Hs.
Qed.

Lemma close_lcp_guarded reason w : guarded w -> guarded (close_lcp ac cc magic others reason w).
Proof. intros Hg. left. by apply close_lcp_idle, guarded_closable. Qed.

(** ** Reports *)

Lemma peer_fail_idle prot w : closable w -> idle (ev_peer_fail ac cc magic others prot w).
Proof. intros Hc. by apply idle_status, close_lcp_idle. Qed.

Lemma forget_closable w : closable w -> closable (forget_passwd w).
Proof. intros Hc. unfold forget_passwd. by destruct (passwd_from_file _). Qed.

Lemma withpeer_fail_idle prot w : closable w -> idle (ev_withpeer_fail ac cc magic others prot w).
Proof. intros Hc. by apply idle_status, close_lcp_idle, forget_closable. Qed.

Lemma network_phase_guarded w :
  state (d_fsm w) = OPENED -> working w -> auth_pending (d_auth w) = 0 ->
  guarded (network_phase ac cc magic others w).
Proof.
  intros Hs (_ & Hw) Hz. unfold network_phase, start_networks.
  set (w1 := if auth_script_state _ then _ else _).
  assert (H1 : state (d_fsm w1) = OPENED /\ working (new_phase PHASE_NETWORK w1) /\ auth_pending (d_auth w1) = 0).
  { subst w1. destruct (auth_script_state _); (split; [done|]; split; [split; [done|exact Hw]|done]). }
  clearbody w1. set (w2 := new_phase _ w1) in *. destruct H1 as (Hs2 & Hw2 & Hz2).
  change (auth_pending (d_auth w2) = 0) in Hz2. change (state (d_fsm w2) = OPENED) in Hs2. clearbody w2.
  assert (Hf : guarded (fold_left entry_open (link_table cc others) w2)).
  { change (fold_left entry_open (link_table cc others) w2)
      with (fold_left entry_open (map p_link others) w2).
    pose proof (fold_open_outside w2) as Ho. right.
    split; [by rewrite /= (out_fsm _ _ Ho)|by eapply working_outside]. }
  set (w3 := fold_left _ _ _) in *. clearbody w3.
  destruct (_ =? 0); [by apply close_lcp_guarded|done].
Qed.

Lemma owes_done bit i w :
  Z.testbit (Z.ldiff (auth_pending (d_auth w)) bit) i = owes i w && negb (Z.testbit bit i).
Proof. apply Z.ldiff_spec. Qed.

(** What a report has to bring along. *)
Definition reports (bit : Z) w : Prop :=
  (Z.testbit bit 1 = true -> server_settled w) /\ (Z.testbit bit 0 = true -> client_settled w) /\
  (Z.testbit bit 2 = true -> chap_settled w).

Lemma done_working bit w : working w -> reports bit w ->
  working (on_auth (fun a => set_auth_pending (Z.ldiff (auth_pending a) bit) a) w).
Proof.
  intros (H1 & Hn & H2 & H3 & H4 & H5 & H6 & H7 & H8) (Hb1 & Hb0 & Hb2).
  set (w1 := on_auth _ w).
  assert (E : forall i, owes i w1 = owes i w && negb (Z.testbit bit i)) by (intros i; apply owes_done).
  assert (Hset : forall i (P : Prop), (owes i w = false -> P) -> (Z.testbit bit i = true -> P) -> owes i w1 = false -> P).
  { intros i P Ha Hb Ho. rewrite E in Ho. destruct (owes i w); [|by apply Ha]. apply Hb. by destruct (Z.testbit bit i). }
  assert (Hkeep : forall i (P : Prop), (P -> owes i w = true) -> (Z.testbit bit i = true -> ~ P) -> P -> owes i w1 = true).
  { intros i P Ha Hb HP. rewrite E (Ha HP). destruct (Z.testbit bit i); [by destruct Hb|done]. }
  split_and!; try done.
  - intros Hx. change (auth_pending (d_auth w1)) with (Z.ldiff (auth_pending (d_auth w)) bit).
    rewrite (H1 Hx). apply Z.ldiff_0_l.
  - intros Ha. apply Hset; [exact (H2 Ha)|exact Hb1].
  - intros Ha. apply Hset; [exact (H3 Ha)|exact Hb0].
  - intros Ha. apply Hset; [exact (H4 Ha)|exact Hb2].
  - apply Hkeep; [exact H5|]. intros Hb HP. change (us_serverstate (d_upap w) = UPAPSS_LISTEN) in HP. destruct (Hb1 Hb) as [_ [?|?]]; congruence.
  - apply Hkeep; [exact H6|]. intros Hb HP. change (us_clientstate (d_upap w) = UPAPCS_AUTHREQ) in HP. destruct (Hb0 Hb) as [_ [?|?]]; congruence.
Qed.

(** A report clears its bit; the network phase starts when it was the last. *)
Lemma auth_done_guarded bit w :
  state (d_fsm w) = OPENED -> working w -> reports bit w -> guarded (auth_done ac cc magic others bit w).
Proof.
  intros Hs Hw Hb. unfold auth_done. pose proof (done_working bit w Hw Hb) as Hw1.
  set (w1 := on_auth _ w) in *. assert (Hs1 : state (d_fsm w1) = OPENED) by done. clearbody w1.
  destruct (Z.eqb_spec (auth_pending (w_auth w1)) 0); [by apply network_phase_guarded|by right].
Qed.

(** An automaton that was left open by a Terminate-Ack still lets CHAP in. *)
Lemma idle_done w :
  state (d_fsm w) = OPENED -> idle w -> chap_settled w -> guarded (auth_done ac cc magic others CHAP_WITHPEER w).
Proof.
  intros Hs (Hl & Hn & (Hs1 & Hs2) & (Hc1 & Hc2) & Hsv & Hcl & Hr) Hc. unfold auth_done. set (w1 := on_auth _ w).
  assert (E : forall i, owes i w1 = owes i w && negb (Z.testbit CHAP_WITHPEER i)) by (intros i; apply owes_done).
  destruct (Z.eqb_spec (auth_pending (w_auth w1)) 0) as [Hz|_].
  - assert (Ho : forall i, owes i w1 = false).
    { intros i. unfold owes. change (auth_pending (d_auth w1)) with (auth_pending (w_auth w1)).
      by rewrite Hz Z.bits_0. }
    pose proof (E 0) as E0. pose proof (E 1) as E1. rewrite Ho andb_true_r in E0. rewrite Ho andb_true_r in E1.
    assert (Hsv' : peer_by_pap w = true -> server_settled w) by (intros Ha; destruct (Hsv Ha); [done|congruence]).
    assert (Hcl' : self_by_pap w = true -> client_settled w) by (intros Ha; destruct (Hcl Ha); [done|congruence]).
    apply network_phase_guarded; [done| |done].
    split_and!; try done; intros Ha _; [by apply Hsv'|by apply Hcl'].
  - left. split_and!; try done; intros Ha; [destruct (Hsv Ha) as [|Ho]|destruct (Hcl Ha) as [|Ho]]; try (by left);
      right; by rewrite E Ho.
Qed.

(** An open link with nothing outstanding. *)
Definition clear w : Prop := state (d_fsm w) = OPENED /\ working w /\ auth_pending (d_auth w) = 0.

Lemma clear_authenticated w : clear w -> authenticated w.
Proof.
  intros (Hs & (_ & Hn & H2 & H3 & H4 & _) & Hz). unfold owes in *. rewrite Hz in H2, H3, H4. split_and!; auto.
Qed.

Lemma np_up_clear w : clear w -> clear (np_up ac w).
Proof.
  intros (Hs & (_ & Hw) & Hz). unfold np_up, arm.
  destruct (num_np_up _ =? 0); [destruct (0 <? _), (0 <? _)|]; exact (conj Hs (conj (conj (fun _ => Hz) Hw) Hz)).
Qed.

Lemma np_down_clear w : clear w -> clear (np_down w).
Proof.
  intros (Hs & (_ & Hw) & Hz). unfold np_down.
  destruct (_ =? 0); exact (conj Hs (conj (conj (fun _ => Hz) Hw) Hz)).
Qed.

Lemma busy_clear w w' : busy_step ac w w' -> clear w -> clear w'.
Proof.
  intros [w1 w2 Ho _|w1|w1] Hc; [|by apply np_up_clear|by apply np_down_clear].
  destruct Hc as (Hs & Hw & Hz).
  split; [by rewrite (out_fsm _ _ Ho)|]. split; [by eapply working_outside|by rewrite (out_pending _ _ Ho)].
Qed.

(** A network protocol that is not at rest has a link with nothing outstanding. *)
Lemma guarded_busy w : guarded w -> ~ net_rest (d_other w) -> clear w.
Proof.
  intros [Hi|[Hs Hw]] Hr; [by destruct Hr; apply Hi|]. split; [done|]. split; [done|]. apply Hw. by right.
Qed.

Lemma net_step_guarded w w' : net_step ac cc magic others w w' -> guarded w -> guarded w'.
Proof.
  intros [w1 w2 Hc|w1 w2 Hr Hb|w1] Hg.
  - by eapply guarded_calm.
  - right. assert (Hc : clear w2); [|by destruct Hc as (? & ? & _)].
    pose proof (guarded_busy w1 Hg Hr) as H1. clear Hg Hr.
    induction Hb as [|w1 w2 w3 H12 _ IH]; [done|]. apply IH. by eapply busy_clear.
  - unfold np_finished. destruct (_ <=? 0); [apply close_lcp_guarded|]; exact Hg.
Qed.

Lemma net_run_guarded w w' : rtc (net_step ac cc magic others) w w' -> guarded w -> guarded w'.
Proof. induction 1; [done|]. intros Hg. eauto using net_step_guarded. Qed.

(** ** The pending authentications outlive the link *)

Definition pending_is (k : Z) w : Prop := auth_pending (d_auth w) = k.

Lemma link_down_pending k w : pending_is k w -> pending_is k (auth_link_down cc others w).
Proof.
  intros Hp. unfold auth_link_down. set (w1 := if auth_script_state _ then _ else _).
  assert (Hp1 : pending_is k w1) by (subst w1; by destruct (auth_script_state _)). clearbody w1.
  rewrite fold_down. pose proof (fold_down_outside (auths_down w1)) as Ho.
  destruct (auths_down_spec w1) as (_ & _ & _ & Ha & _). set (w2 := auths_down w1) in *. clearbody w2.
  set (w3 := fold_left _ _ _) in *. clearbody w3. unfold pending_is in *.
  destruct (_ =? PHASE_DEAD); simpl; by rewrite (out_pending _ _ Ho) Ha.
Qed.

#[local] Instance closing_pending k :
  Gated (lcp_closing_callbacks (HA := closing_layer ac cc others) magic) (pending_is k) (pending_is k) never.
Proof.
  pose proof (gate_only (pending_is k)) as Hg.
  split; intros; take_callback; rewrite ?Hg;
    repeat match goal with H : gate _ _ _ |- _ => apply Hg in H end; try done.
  - unfold cb_lcp_reqci. destruct (lcp_reqci _ _ _ _ _ _ _) as [rep| |]; [|exact H0..].
    cbn [snd]. destruct (rr_oob rep || rr_overlap rep); exact H0.
  - change (pending_is k (auth_link_terminated w)). unfold auth_link_terminated. by destruct (_ =? _).
  - change (pending_is k (lcp_down (HA := closing_layer ac cc others) w)). pose proof (link_down_pending k (lcp_echo_lowerdown w)) as Hd. unfold lcp_down. cbn [link_down closing_layer].
    assert (H1 : pending_is k (auth_link_down cc others (lcp_echo_lowerdown w))).
    { apply Hd. unfold lcp_echo_lowerdown. by destruct (echo_timer_running _). }
    set (w1 := auth_link_down _ _ _) in *. clearbody w1. exact H1.
  - unfold cb_lcp_ackci. by destruct (lcp_ackci _ _ _).
  - unfold cb_lcp_rejci. destruct (lcp_rejci _ _ _); [simpl; by case_decide|done..].
Qed.

Lemma close_lcp_pending reason w :
  auth_pending (d_auth (close_lcp ac cc magic others reason w)) = auth_pending (d_auth w).
Proof.
  unfold close_lcp, lcp_close. set (w1 := if _ =? _ then _ else _).
  assert (H1 : pending_is (auth_pending (d_auth w)) w1) by (subst w1; by destruct (_ =? _)). clearbody w1.
  destruct (_ && _); [unfold lcp_finished; simpl; unfold auth_link_terminated; by destruct (_ =? PHASE_DEAD)|].
  exact (gate_close _ (pending_is _) (pending_is _) never (Some reason) w1 (or_introl H1)).
Qed.

(** ** PAP *)

Abbreviation events := (auth_events ac cc magic others).

(** A client that waits for its answer owes it; so does a server that listens. *)
Lemma authreq_owed w : guarded w -> us_clientstate (d_upap w) = UPAPCS_AUTHREQ ->
  state (d_fsm w) = OPENED /\ working w /\ owes 0 w = true.
Proof.
  intros [(_ & _ & _ & (Hc & _) & _)|[Hs Hw]] Hq; [done|]. split; [done|]. split; [done|].
  destruct Hw as (_ & _ & _ & _ & _ & _ & H & _). by apply H.
Qed.

Lemma listen_owed w : guarded w -> us_serverstate (d_upap w) = UPAPSS_LISTEN ->
  state (d_fsm w) = OPENED /\ working w /\ owes 1 w = true.
Proof.
  intros [(_ & _ & (Hc & _) & _)|[Hs Hw]] Hq; [done|]. split; [done|]. split; [done|].
  destruct Hw as (_ & _ & _ & _ & _ & H & _). by apply H.
Qed.

Lemma opened_closable w : state (d_fsm w) = OPENED -> sound w -> closable w.
Proof. by intros Hs Hn. Qed.

Lemma upap_timeout_guarded w : guarded w -> guarded (upap_timeout (HA := events) w).
Proof.
  intros Hg. unfold upap_timeout. destruct (us_clientstate (w_upap w)) eqn:Ec; try done.
  destruct (authreq_owed w Hg Ec) as (Hs & Hw & Ho). destruct (_ <=? _).
  - left. apply withpeer_fail_idle. apply opened_closable; [done|exact (working_sound w Hw)].
  - right. split; [done|]. destruct Hw as (H1 & Hn & H2 & _ & H4 & H5 & _ & H7 & _).
    split_and!; try done. intros _ Hf. change (owes 0 w = false) in Hf. congruence.
Qed.

Lemma upap_reqtimeout_guarded w : guarded w -> guarded (upap_reqtimeout (HA := events) w).
Proof.
  intros Hg. unfold upap_reqtimeout. destruct (us_serverstate (w_upap w)) eqn:Ec; try done.
  destruct (listen_owed w Hg Ec) as (Hs & Hw & Ho). left.
  pose proof (peer_fail_idle PPP_PAP w (opened_closable w Hs (working_sound w Hw))) as (Hl & Hn & _ & Hc & _ & Hcl & Hr).
  pose proof (close_lcp_pending (text "Authentication failed") w) as Hp.
  change (auth_peer_fail PPP_PAP w) with (ev_peer_fail ac cc magic others PPP_PAP w).
  change (d_auth (close_lcp ac cc magic others (text "Authentication failed") w))
    with (d_auth (ev_peer_fail ac cc magic others PPP_PAP w)) in Hp.
  set (w1 := ev_peer_fail _ _ _ _ _ _) in *. clearbody w1. split_and!; try done; [by apply Hc..|].
  right. unfold owes in *. by rewrite -Hp in Ho.
Qed.

Lemma upap_lowerdown_guarded w : guarded w -> guarded (upap_lowerdown w).
Proof.
  assert (Hu : us_serverstate (d_upap (upap_lowerdown w)) = UPAPSS_INITIAL /\
    us_clientstate (d_upap (upap_lowerdown w)) = UPAPCS_INITIAL /\
    us_peer_passed (d_upap (upap_lowerdown w)) = us_peer_passed (d_upap w) /\
    us_self_passed (d_upap (upap_lowerdown w)) = us_self_passed (d_upap w) /\ d_fsm (upap_lowerdown w) = d_fsm w /\
    d_lcp (upap_lowerdown w) = d_lcp w /\ d_auth (upap_lowerdown w) = d_auth w /\
    d_chap (upap_lowerdown w) = d_chap w /\ d_other (upap_lowerdown w) = d_other w).
  { unfold upap_lowerdown. by repeat case_decide. }
  set (w1 := upap_lowerdown w) in *. clearbody w1. destruct Hu as (Es & Ec & Ep & Eq & Ef & El & Ea & Eh & Ex).
  intros [(Hl & Hn & _ & _ & H2 & H3 & Hr)|[Hs (H1 & Hn & H2 & H3 & H4 & _)]]; [left|right].
  - unfold idle, live, networking, phase, no_chap, server_settled, client_settled, peer_by_pap, self_by_pap, owes in *.
    rewrite El Ea Es Ec Ep Eq Ex. split_and!; try done; intros Ha.
    + destruct (H2 Ha) as [[? _]|?]; [left; split; [done|by right]|by right].
    + destruct (H3 Ha) as [[? _]|?]; [left; split; [done|by right]|by right].
  - unfold working, networking, phase, owes, no_chap, server_settled, client_settled, chap_settled, peer_by_pap,
      self_by_pap, self_by_chap in *.
    rewrite /= Ef El Ea Es Ec Ep Eq Eh Ex. split; [done|]. split_and!; try done; intros Ha Ho.
    + split; [by apply (H2 Ha Ho)|by right].
    + split; [by apply (H3 Ha Ho)|by right].
Qed.

Lemma upap_protrej_guarded w : guarded w -> guarded (upap_protrej (HA := events) w).
Proof.
  intros Hg. unfold upap_protrej. apply upap_lowerdown_guarded.
  set (w1 := if decide (_ = UPAPCS_AUTHREQ) then _ else _).
  assert (H1 : guarded w1).
  { subst w1. case_decide; [left; by apply withpeer_fail_idle, guarded_closable|done]. }
  clearbody w1. case_decide; [left; by apply peer_fail_idle, guarded_closable|done].
Qed.

Lemma peer_success_guarded name w :
  state (d_fsm w) = OPENED -> working w -> server_settled w ->
  guarded (ev_peer_success ac cc magic others PPP_PAP name w).
Proof.
  intros Hs Hw Ho. change (ev_peer_success ac cc magic others PPP_PAP name w) with
    (auth_done ac cc magic others PAP_PEER
       (on_auth (set_peer_authname (take (Z.to_nat (MAXNAMELEN - 1)) name)) w)).
  apply auth_done_guarded; [done|exact Hw|]. by split_and!.
Qed.

Lemma withpeer_success_guarded w :
  state (d_fsm w) = OPENED -> working w -> client_settled w ->
  guarded (ev_withpeer_success ac cc magic others PPP_PAP w).
Proof.
  intros Hs Hw Ho. change (ev_withpeer_success ac cc magic others PPP_PAP w) with
    (auth_done ac cc magic others PAP_WITHPEER (forget_passwd w)).
  unfold forget_passwd. destruct (passwd_from_file _);
    (apply auth_done_guarded; [done|exact Hw|by split_and!]).
Qed.

Lemma upap_verdict_guarded pid ruser rpasswd w :
  us_serverstate (d_upap w) = UPAPSS_LISTEN -> guarded w ->
  guarded (upap_verdict (HA := events) pid ruser rpasswd w).
Proof.
  intros Hl Hg. destruct (listen_owed w Hg Hl) as (Hs & Hw & Ho).
  unfold upap_verdict. set (w1 := upap_sresp _ _ _ _ w).
  set (w2 := if _ =? UPAP_AUTHACK then _ else _).
  assert (H : guarded w2); [|clearbody w2; by destruct (0 <? _)].
  subst w2. destruct (_ =? UPAP_AUTHACK).
  - apply peer_success_guarded; [done| |by split; [|left]].
    destruct Hw as (H1 & Hn & _ & H3 & H4 & _ & H6 & _ & H8). split_and!; try done. intros. by split; [|left].
  - left. apply peer_fail_idle. apply opened_closable; [done|exact (working_sound w Hw)].
Qed.

Lemma upap_input_guarded p len w : guarded w -> guarded (upap_input (HA := events) p len w).
Proof.
  intros Hg. unfold upap_input. destruct (upap_header p len) as [[[[code pid] n] inp]| |]; [|exact Hg..].
  destruct (code =? UPAP_AUTHREQ); [|destruct (code =? UPAP_AUTHACK); [|destruct (code =? UPAP_AUTHNAK);
    [|exact Hg]]].
  - unfold upap_rauthreq. destruct (us_serverstate (w_upap w)) eqn:Es; try exact Hg.
    destruct (parse_authreq inp n) as [[ruser rpasswd]| |]; [|exact Hg..]. by apply upap_verdict_guarded.
  - unfold upap_rauthack. destruct (us_clientstate (w_upap w)) eqn:Ec; try exact Hg.
    destruct (parse_message inp n); [|exact Hg..].
    destruct (authreq_owed w Hg Ec) as (Hs & (H1 & Hn & H2 & _ & H4 & H5 & _ & H7 & _) & Ho).
    apply withpeer_success_guarded; [done| |by split; [|left]]. split_and!; try done. intros. by split; [|left].
  - unfold upap_rauthnak. destruct (us_clientstate (w_upap w)) eqn:Ec; try exact Hg.
    destruct (parse_message inp n); [|exact Hg..].
    destruct (authreq_owed w Hg Ec) as (Hs & Hw & Ho). left. apply withpeer_fail_idle.
    apply opened_closable; [done|exact (working_sound w Hw)].
Qed.

(** ** CHAP *)

Lemma guarded_on_chap g w :
  (chap_settled w -> chap_settled (on_chap g w)) -> guarded w -> guarded (on_chap g w).
Proof.
  intros Hc [Hi|[Hs (H1 & Hn & H2 & H3 & H4 & Hw)]]; [left; exact Hi|right].
  split; [done|]. split; [exact H1|]. split; [exact Hn|]. split; [exact H2|]. split; [exact H3|].
  split; [|exact Hw]. intros Ha Ho. apply Hc. by apply H4.
Qed.

Lemma challenge_timeout_guarded w : guarded w -> guarded (ChapChallengeTimeout (HA := events) w).
Proof.
  intros Hg. unfold ChapChallengeTimeout. destruct (ch_serverstate _); try exact Hg.
  all: destruct (_ <=? _); [|exact Hg].
  all: left; apply peer_fail_idle; exact (guarded_closable w Hg).
Qed.

Lemma send_response_guarded w : guarded w -> guarded (ChapSendResponse w).
Proof.
  intros Hg. unfold ChapSendResponse. set (w1 := on_link _ w). assert (H1 : guarded w1) by exact Hg.
  clearbody w1. set (w2 := on_chap (set_ch_client CHAPCS_RESPONSE) w1).
  assert (H2 : guarded w2) by (apply guarded_on_chap; [intros [? _]; by split; [|right]|done]). clearbody w2. exact H2.
Qed.

Lemma response_timeout_guarded w : guarded w -> guarded (ChapResponseTimeout w).
Proof. intros Hg. unfold ChapResponseTimeout. case_match; try exact Hg. by apply send_response_guarded. Qed.

Lemma start_challenge_guarded s w : guarded w -> guarded (start_challenge cc s w).
Proof. intros Hg. unfold start_challenge, ChapGenChallenge. by destruct (store _ _ _). Qed.

Lemma rechallenge_guarded w : guarded w -> guarded (ChapRechallenge cc w).
Proof. intros Hg. unfold ChapRechallenge. case_match; try exact Hg. by apply start_challenge_guarded. Qed.

(** CHAP is told that the link is down: it was, or CHAP had not settled. *)
Lemma chap_lowerdown_guarded w : idle w \/ (guarded w /\ ~ chap_settled w) -> guarded (ChapLowerDown w).
Proof.
  destruct (chap_lowerdown_rest w) as (Eu & El & Ea & Ef & Ex). set (w1 := ChapLowerDown w) in *. clearbody w1.
  assert (Hi : idle w -> idle w1).
  { unfold idle, live, networking, phase, no_chap, server_settled, client_settled, peer_by_pap, self_by_pap, owes.
    by rewrite Eu El Ea Ex. }
  intros [?|[[?|[Hs Hw]] Hc]]; [left; by apply Hi..|right].
  unfold working, networking, phase, no_chap, server_settled, client_settled, peer_by_pap, self_by_pap, self_by_chap,
    owes in *.
  rewrite /= Ef Eu El Ea Ex. split; [done|]. destruct Hw as (H1 & Hn & H2 & H3 & H4 & Hw).
  split_and!; try done; try apply Hw. intros Ha Ho. by destruct Hc; apply H4.
Qed.

Lemma chap_protrej_guarded w : guarded w -> guarded (ChapProtocolReject (HA := events) w).
Proof.
  intros Hg. unfold ChapProtocolReject. apply chap_lowerdown_guarded.
  set (w1 := match ch_serverstate _ with CHAPSS_INITIAL => _ | _ => _ end).
  assert (H1 : guarded w1).
  { subst w1. case_match; solve [done|left; by apply peer_fail_idle, guarded_closable]. }
  clearbody w1. destruct (ch_clientstate (w_chap w1)) eqn:Ec; try by left; apply withpeer_fail_idle, guarded_closable.
  all: right; split; [done|]; intros [_ [H|H]]; simpl in *; congruence.
Qed.

Lemma answer_challenge_guarded pid chal name w :
  guarded w -> guarded (answer_challenge cc (HA := events) pid chal name w).
Proof.
  intros Hg. unfold answer_challenge. set (w1 := if decide _ then _ else w).
  assert (H1 : guarded w1) by (subst w1; case_decide; exact Hg). clearbody w1.
  destruct (_ =? _); [|exact H1]. apply send_response_guarded. exact H1.
Qed.

(** There is no secret to check a response with. *)
Lemma check_response_fails remmd name w : check_response cc (HA := events) remmd name w = CHAP_FAILURE.
Proof. done. Qed.

Lemma judge_response_idle remmd name w : guarded w -> idle (judge_response cc (HA := events) remmd name w).
Proof.
  intros Hg. unfold judge_response. rewrite check_response_fails.
  exact (peer_fail_idle PPP_CHAP (on_chap (set_ch_server CHAPSS_BADAUTH)
    (ChapSendStatus cc CHAP_FAILURE (disarm challenge_timer w))) (guarded_closable w Hg)).
Qed.

Lemma chap_success_guarded w :
  state (d_fsm w) = OPENED -> guarded w -> guarded (ChapReceiveSuccess (HA := events) w).
Proof.
  intros Hs Hg. unfold ChapReceiveSuccess. destruct (ch_clientstate _); try exact Hg.
  set (w1 := on_chap _ _).
  assert (H1 : guarded w1) by (apply guarded_on_chap; [by split; [|left]|exact Hg]).
  assert (Hc : chap_settled w1) by by split; [|left]. assert (Hs1 : state (d_fsm w1) = OPENED) by done. clearbody w1.
  change (auth_withpeer_success PPP_CHAP w1) with (auth_done ac cc magic others CHAP_WITHPEER w1).
  destruct H1 as [Hi|[_ Hw]]; [by apply idle_done|]. apply auth_done_guarded; [done|done|]. by split_and!.
Qed.

Lemma chap_input_guarded p len w :
  state (d_fsm w) = OPENED -> guarded w -> guarded (ChapInput cc (HA := events) p len w).
Proof.
  intros Hs Hg. unfold ChapInput. destruct (chap_header p len) as [[[[code pid] n] inp]| |]; [|exact Hg..].
  destruct (code =? CHAP_CHALLENGE); [|destruct (code =? CHAP_RESPONSE); [|destruct (code =? CHAP_FAILURE);
    [|destruct (code =? CHAP_SUCCESS); [by apply chap_success_guarded|exact Hg]]]].
  - unfold ChapReceiveChallenge. case_match; try exact Hg.
    all: destruct (parse_value inp n) as [[chal name]| |]; [by apply answer_challenge_guarded|exact Hg..].
  - unfold ChapReceiveResponse. case_match; try exact Hg; (destruct (negb _); [exact Hg|]); try exact Hg.
    all: destruct (parse_value inp n) as [[remmd name]| |]; [left; by apply judge_response_idle|exact Hg..].
  - unfold ChapReceiveFailure. case_match; try exact Hg.
    left. apply withpeer_fail_idle. exact (guarded_closable w Hg).
Qed.

(** ** The link comes up *)

(** Nothing but PAP, CHAP, the timers and the network protocols is touched,
    and these stay at rest. *)
Definition same_link w w' : Prop :=
  d_fsm w' = d_fsm w /\ phase w' = phase w /\
  gotoptions (d_lcp w') = gotoptions (d_lcp w) /\ hisoptions (d_lcp w') = hisoptions (d_lcp w) /\
  (net_rest (d_other w) -> net_rest (d_other w')).

Lemma calm_same w w' : calm w w' -> same_link w w'.
Proof.
  intros (Ho & Hp & Hr). split_and!; [by rewrite (out_fsm _ _ Ho)|done|by rewrite (out_lcp _ _ Ho)..|done].
Qed.

Lemma same_trans w1 w2 w3 : same_link w1 w2 -> same_link w2 w3 -> same_link w1 w3.
Proof. intros (? & ? & ? & ? & ?) (? & ? & ? & ? & ?). split_and!; try congruence. auto. Qed.

(** PAP knows that the link is up and has not started. *)
Definition pap_ready w : Prop :=
  (us_serverstate (d_upap w) <> UPAPSS_INITIAL /\ us_serverstate (d_upap w) <> UPAPSS_PENDING /\
   us_serverstate (d_upap w) <> UPAPSS_LISTEN) /\
  (us_clientstate (d_upap w) <> UPAPCS_INITIAL /\ us_clientstate (d_upap w) <> UPAPCS_PENDING /\
   us_clientstate (d_upap w) <> UPAPCS_AUTHREQ).

Lemma lowerup_ready w : idle w ->
  pap_ready (upap_lowerup w) /\ same_link w (upap_lowerup w) /\ sound (upap_lowerup w).
Proof.
  intros Hi. pose proof (idle_sound w Hi) as Hd. revert Hi Hd.
  destruct w as [f l s u h a x]. intros (Hl & _ & (Hs1 & Hs2) & (Hc1 & Hc2) & _).
  intros Hd. unfold upap_lowerup, pap_ready, same_link; simpl in *.
  destruct (us_clientstate u) eqn:Ec; simpl; try done;
    destruct (us_serverstate u) eqn:Es; simpl; rewrite ?Ec ?Es; done.
Qed.

Lemma chap_lowerup_same w :
  same_link w (ChapLowerUp cc w) /\ d_upap (ChapLowerUp cc w) = d_upap w /\ d_auth (ChapLowerUp cc w) = d_auth w.
Proof.
  unfold ChapLowerUp, start_challenge, ChapGenChallenge.
  set (w1 := match ch_clientstate _ with CHAPCS_INITIAL => _ | _ => _ end).
  assert (H1 : same_link w w1 /\ d_upap w1 = d_upap w /\ d_auth w1 = d_auth w)
    by (subst w1; by destruct (ch_clientstate _)).
  clearbody w1. destruct H1 as (Hs & Hu & Ha). destruct (ch_serverstate _); try done. by destruct (store _ _ _).
Qed.

Lemma entries_up w : idle w ->
  let w' := fold_left entry_up (link_table cc others) w in
  pap_ready w' /\ same_link w w' /\ sound w'.
Proof.
  intros Hi. change (fold_left entry_up (link_table cc others) w)
    with (fold_left entry_up (map p_link others) (ChapLowerUp cc (upap_lowerup w))).
  destruct (lowerup_ready w Hi) as (Hr1 & Hs1 & Hd1). set (w1 := upap_lowerup w) in *. clearbody w1.
  destruct (chap_lowerup_same w1) as (Hs2 & Hu2 & Ha2). set (w2 := ChapLowerUp cc w1) in *. clearbody w2.
  pose proof (fold_up_calm w2) as Hc. set (w3 := fold_left _ _ _) in *. clearbody w3. simpl.
  pose proof (proj1 Hc) as Ho.
  split; [unfold pap_ready; by rewrite (out_upap _ _ Ho) Hu2|]. split.
  { apply (same_trans _ w1); [done|]. apply (same_trans _ w2); [done|]. by apply calm_same. }
  revert Hd1. apply sound_same; rewrite ?(out_agreed _ _ Ho) ?(out_pending _ _ Ho) ?(out_upap _ _ Ho) ?Hu2 ?Ha2 //.
  unfold no_chap. destruct Hs2 as (_ & _ & <- & _). by rewrite (out_lcp _ _ Ho).
Qed.

Lemma start_peer_spec w : no_chap w -> pap_ready w ->
  let r := start_auth_peer ac cc w in
  same_link w r.2 /\ us_serverstate (d_upap r.2) <> UPAPSS_PENDING /\
  us_clientstate (d_upap r.2) = us_clientstate (d_upap w) /\
  (us_serverstate (d_upap r.2) = UPAPSS_LISTEN -> Z.testbit r.1 1 = true) /\
  (asks_upap (gotoptions (d_lcp w)) = true -> Z.testbit r.1 1 = true).
Proof.
  intros Hn ((Hs1 & Hs2 & Hs3) & _). unfold start_auth_peer, asks_upap. simpl. rewrite Hn. simpl.
  destruct (neg_upap _); simpl; [|by split_and!].
  unfold upap_authpeer, upap_listen. destruct w as [f l s u h a x]. simpl in *.
  destruct (us_serverstate u); simpl; try done; by destruct (0 <? _).
Qed.

Lemma start_withpeer_spec w :
  us_clientstate (d_upap w) <> UPAPCS_INITIAL -> us_clientstate (d_upap w) <> UPAPCS_PENDING ->
  us_clientstate (d_upap w) <> UPAPCS_AUTHREQ ->
  let r := start_auth_withpeer ac w in
  same_link w r.2 /\ us_clientstate (d_upap r.2) <> UPAPCS_PENDING /\
  us_serverstate (d_upap r.2) = us_serverstate (d_upap w) /\
  (us_clientstate (d_upap r.2) = UPAPCS_AUTHREQ -> Z.testbit r.1 0 = true) /\
  (asks_upap (hisoptions (d_lcp w)) = true -> Z.testbit r.1 0 = true) /\
  (neg_chap (hisoptions (d_lcp w)) = true -> Z.testbit r.1 2 = true).
Proof.
  intros Hc1 Hc2 Hc3. unfold start_auth_withpeer, asks_upap. simpl.
  destruct (neg_chap _); simpl.
  { unfold ChapAuthWithPeer. by destruct (ch_clientstate _). }
  destruct (neg_upap _); simpl; [|by split_and!].
  unfold upap_authwithpeer. destruct w as [f l s u h a x]. destruct (have_passwd _); simpl in *;
    destruct (us_clientstate u); simpl; done.
Qed.

Lemma testbit_lor_l a b i : Z.testbit a i = true -> Z.testbit (Z.lor a b) i = true.
Proof. intros H. by rewrite Z.lor_spec H. Qed.

Lemma testbit_lor_r a b i : Z.testbit b i = true -> Z.testbit (Z.lor a b) i = true.
Proof. intros H. by rewrite Z.lor_spec H orb_true_r. Qed.

Lemma link_established_guarded w :
  idle w -> state (d_fsm w) = OPENED -> guarded (auth_link_established ac cc magic others w).
Proof.
  intros Hi Hs. unfold auth_link_established.
  destruct (entries_up w Hi) as (Hr1 & (Hf1 & _ & Hg1 & _ & Hx1) & Hd1).
  assert (Hr0 : net_rest (d_other w)) by apply Hi. specialize (Hx1 Hr0). set (w1 := fold_left _ _ w) in *. clearbody w1.
  assert (Hn1 : no_chap w1) by (unfold no_chap; rewrite Hg1; by apply idle_no_chap).
  destruct (_ && _).
  { apply guarded_status. left. apply close_lcp_idle. split; [done|]. intros Hno. by rewrite Hf1 in Hno. }
  set (w2 := new_phase _ w1). assert (Hr2 : pap_ready w2) by exact Hr1.
  assert (Hp2 : phase w2 = PHASE_AUTHENTICATE) by done. assert (Hn2 : no_chap w2) by exact Hn1.
  assert (Hs2 : state (d_fsm w2) = OPENED) by (by rewrite /= Hf1).
  assert (Hx2 : net_rest (d_other w2)) by exact Hx1. clearbody w2.
  destruct (start_peer_spec w2 Hn2 Hr2) as ((Hf3 & Hp3 & Hg3 & Hh3 & Hx3) & Hv3 & Hc3 & Hl3 & Hb3).
  destruct (start_auth_peer ac cc w2) as [peer w3]. cbn [fst snd] in *.
  destruct Hr2 as (_ & Hc1 & Hc2 & Hc2').
  destruct (start_withpeer_spec w3) as ((Hf4 & Hp4 & Hg4 & Hh4 & Hx4) & Hc4 & Hv4 & Hl4 & Hb4 & Hd4); [by rewrite Hc3..|].
  destruct (start_auth_withpeer ac w3) as [withpeer w4]. cbn [fst snd] in *.
  set (w5 := on_auth _ w4). assert (Hw5 : working w5).
  { split_and!; [|by unfold no_chap; rewrite /= Hg4 Hg3|..].
    - intros [[Hx|Hx]|Hx]; [change (phase w4 = PHASE_NETWORK) in Hx|change (phase w4 = PHASE_RUNNING) in Hx|];
        [by rewrite Hp4 Hp3 Hp2 in Hx..|]. destruct Hx. change (net_rest (d_other w4)). auto.
    - intros Ha Ho. change (Z.testbit (Z.lor peer withpeer) 1 = false) in Ho.
      rewrite testbit_lor_l in Ho; [|done]. apply Hb3. rewrite -Hg3 -Hg4. exact Ha.
    - intros Ha Ho. change (Z.testbit (Z.lor peer withpeer) 0 = false) in Ho.
      rewrite testbit_lor_r in Ho; [|done]. apply Hb4. rewrite -Hh4. exact Ha.
    - intros Ha Ho. change (Z.testbit (Z.lor peer withpeer) 2 = false) in Ho.
      rewrite testbit_lor_r in Ho; [|done]. apply Hd4. rewrite -Hh4. exact Ha.
    - change (us_serverstate (d_upap w4) = UPAPSS_LISTEN -> Z.testbit (Z.lor peer withpeer) 1 = true).
      rewrite Hv4. intros Hx. by apply testbit_lor_l, Hl3.
    - change (us_clientstate (d_upap w4) = UPAPCS_AUTHREQ -> Z.testbit (Z.lor peer withpeer) 0 = true).
      intros Hx. by apply testbit_lor_r, Hl4.
    - change (us_serverstate (d_upap w4) <> UPAPSS_PENDING). by rewrite Hv4.
    - exact Hc4. }
  assert (Hs5 : state (d_fsm w5) = OPENED) by (by rewrite /= Hf4 Hf3).
  destruct (Z.eqb_spec (Z.lor peer withpeer) 0) as [Hz|]; [|by right].
  by apply network_phase_guarded.
Qed.
End Guard.

Arguments fold_up_calm {X ac cc magic others HR HN} w.
Arguments fold_down_outside {X ac cc magic others HR HN} w.
Arguments fold_open_outside {X ac cc magic others HR HN} w.
Arguments entry_up_calm {X ac cc magic others HR HN} e w.
Arguments entry_down_outside {X ac cc magic others HR HN} e w.
Arguments entry_open_outside {X ac cc magic others HR HN} e w.
