(* ===== verification/DaemonSpec.v ===== *)
(** * The daemon: the network phase and authentication

    The daemon's steps, and over every run, whatever packets arrive: the network
    phase is entered only on an open link on which nothing of the agreed
    authentication is left. *)

From S2P Require Import Prelude Wire Callout Fsm FsmSpec FsmGate.
From S2P Require Import LcpOptions LcpAuthtype LcpReqci Lcp LcpSpec Upap Chap Auth AuthSpec DaemonGuard.

Section Invariant.
Context {X : Type}.
Abbreviation W := (daemon X).
Implicit Types w : W.
Context (cfg : lcp_config) (ac : auth_config) (cc : chap_config) (magic : nat -> Z).
Context (others : list (protent W)) {HR : NetRest X} {HN : NetLaws ac cc magic others}.

Abbreviation guarded := (gate idle working).
Abbreviation events := (auth_events ac cc magic others).

(** ** LCP with the layer above it *)

#[local] Existing Instance auth_layer.
Abbreviation layer := (auth_layer ac cc magic others).
Abbreviation callbacks := (lcp_callbacks (HA := layer) cfg magic).

Lemma lcp_close_idle reason w : guarded w -> idle (lcp_close (HA := layer) magic (Some reason) w).
Proof. intros Hg. exact (close_lcp_idle ac cc magic others reason w (guarded_closable w Hg)). Qed.

Lemma lcp_protrej_idle w : guarded w -> idle (lcp_protrej (HA := layer) magic w).
Proof. exact (gate_protreject (lcp_closing_callbacks (HA := closing_layer ac cc others) magic) sound idle working w). Qed.

Lemma nakci_guarded p len w : guarded w -> guarded (cb_lcp_nakci (HA := layer) cfg magic p len w).2.
Proof.
  intros Hg. unfold cb_lcp_nakci. destruct (nakci_parse _ _ _ _ _ _) as [ns| |] eqn:En; [|exact Hg..].
  pose proof (nakci_no_chap _ _ _ _ _ _ _ En (guarded_no_chap _ Hg)) as Hn. clear En.
  cbn [snd]. set (w1 := on_lcp _ w). assert (H1 : guarded w1) by by apply guarded_on_lcp. clearbody w1.
  case_decide as Hs; [done|]. apply gate_not_opened in H1; [|done]. left.
  destruct (ns_looped ns); [|by apply idle_on_lcp].
  assert (H2 : idle (if lcp_loopbackfail cfg <=? numloops (set_numloops (numloops (ns_try ns) + 1) (ns_try ns))
    then on_lcp (set_pppd_status EXIT_LOOPBACK) (lcp_close (HA := layer) magic (Some loopback_reason) w1) else w1)).
  { destruct (_ <=? _); [|done]. apply idle_status, lcp_close_idle. by left. }
  set (w2 := if _ <=? _ then _ else _) in *. clearbody w2. by apply idle_on_lcp.
Qed.

Lemma echo_lowerup_idle w : 0 <= lcp_echo_fails cfg -> idle w -> state (d_fsm w) = OPENED ->
  idle (lcp_echo_lowerup (HA := layer) cfg magic w) /\
  state (d_fsm (lcp_echo_lowerup (HA := layer) cfg magic w)) = OPENED.
Proof.
  intros Hf Hi Hs. unfold lcp_echo_lowerup. set (w1 := on_lcp _ w).
  assert (H1 : idle w1 /\ state (d_fsm w1) = OPENED /\ echos_pending (d_lcp w1) = 0) by done.
  clearbody w1. destruct H1 as (Hi1 & Hs1 & He). destruct (_ =? 0); [done|].
  unfold LcpEchoCheck, LcpSendEchoRequest. change (w_lcp w1) with (d_lcp w1).
  rewrite He. replace (negb (lcp_echo_fails cfg =? 0) && (lcp_echo_fails cfg <=? 0)) with false by lia.
  cbn [w_fsm]. change (w_fsm w1) with (d_fsm w1). rewrite (decide_True _ _ Hs1).
  set (w2 := on_lcp _ _). assert (H2 : idle w2 /\ state (d_fsm w2) = OPENED) by done. clearbody w2.
  case_decide; exact H2.
Qed.

Context (Hfails : 0 <= lcp_echo_fails cfg).

Lemma lcp_up_guarded w : idle w -> state (d_fsm w) = OPENED -> guarded (lcp_up (HA := layer) cfg magic w).
Proof.
  intros Hi Hs. unfold lcp_up.
  match goal with |- guarded (link_established (lcp_echo_lowerup cfg magic ?w0)) =>
    set (w1 := w0); assert (H1 : idle w1 /\ state (d_fsm w1) = OPENED) end.
  { assert (Hm : forall o, neg_chap o = false ->
      neg_chap (if neg_magicnumber o then o else set_magicnumber 0 o) = false) by (intros o; by case_match).
    subst w1. destruct Hi as (Hl & Hn & Hu). specialize (Hm _ Hn).
    destruct (neg_mru _); exact (conj (conj Hl (conj Hm Hu)) Hs). }
  clearbody w1. destruct H1 as [Hi1 Hs1]. destruct (echo_lowerup_idle w1 Hfails Hi1 Hs1) as [Hi2 Hs2].
  by apply link_established_guarded.
Qed.

Lemma protrej_guarded prot g w :
  auth_protrej ac cc magic others prot = Some g -> guarded w -> guarded (g w).
Proof.
  intros Hp Hg. destruct (protrej_entry ac cc magic others prot g Hp) as [->|[->|(e & He & ->)]].
  - by apply upap_protrej_guarded.
  - by apply chap_protrej_guarded.
  - eapply net_run_guarded; [exact HN| |exact Hg]. by apply net_protrej.
Qed.

Lemma extcode_guarded code pid inp n w :
  guarded w -> guarded (lcp_extcode (HA := layer) magic code pid inp n w).2.
Proof.
  intros Hg. unfold lcp_extcode. destruct (code =? PROTREJ); cbn [snd].
  { unfold lcp_rprotrej. destruct (_ <? _); [exact Hg|].
    destruct (GETSHORT inp) as [[prot ?]|]; [|exact Hg]. case_decide; [|exact Hg].
    destruct (prot =? PPP_LCP); [left; by apply lcp_protrej_idle|].
    destruct (protocol_protrej prot) as [g|] eqn:E; [|exact Hg]. exact (protrej_guarded prot g w E Hg). }
  destruct (code =? ECHOREQ); cbn [snd].
  { case_decide; [|exact Hg]. destruct (store _ _ _); exact Hg. }
  destruct (code =? ECHOREP); cbn [snd]; [|destruct (code =? DISCREQ); exact Hg].
  unfold lcp_received_echo_reply. destruct (n <? 4); [exact Hg|].
  destruct (GETLONG inp) as [[m ?]|]; [|exact Hg]. destruct (_ && _); [exact Hg|].
  by apply guarded_on_lcp.
Qed.

#[local] Instance lcp_gated : Gated callbacks sound idle working.
Proof.
  split; intros; take_callback; try done.
  - by apply (resetci_idle ac).
  - by apply reqci_idle.
  - by apply link_terminated_idle.
  - by apply idle_sound.
  - by apply working_sound.
  - by apply (lcp_down_idle ac cc magic others).
  - by apply lcp_up_guarded.
  - by apply ackci_guarded.
  - by apply nakci_guarded.
  - by apply rejci_guarded.
  - by apply extcode_guarded.
Qed.

Lemma echo_timeout_guarded w : guarded w -> guarded (LcpEchoTimeout (HA := layer) cfg magic w).
Proof.
  intros Hg. unfold LcpEchoTimeout, LcpEchoCheck, LcpSendEchoRequest, LcpLinkFailure.
  destruct (echo_timer_running _); [|exact Hg].
  set (w1 := on_lcp (set_echo_timer_running false) w).
  assert (H1 : guarded w1) by by apply guarded_on_lcp. clearbody w1.
  set (w2 := if _ && _ then _ else _). assert (H2 : guarded w2).
  { subst w2. destruct (_ && _); [|done]. apply guarded_on_lcp; [done..|].
    case_decide; [|done]. apply guarded_status. left. by apply lcp_close_idle. }
  clearbody w2. set (w3 := if decide _ then _ else w2). assert (H3 : guarded w3).
  { subst w3. case_decide; [|done]. by apply guarded_on_lcp. }
  clearbody w3. case_decide; [|done]. by apply guarded_on_lcp.
Qed.

(** ** Runs of the daemon *)

Lemma demux_other bs len prot l g :
  incl l others -> demux prot bs len l = Some g -> forall w, rtc (net_step ac cc magic others) w (g w).
Proof.
  induction l as [|e l IH]; simpl; intros Hincl Hd w; [done|].
  assert (He : In e others) by (apply Hincl; by left).
  assert (Hl : incl l others) by (intros x Hx; apply Hincl; by right).
  destruct (_ && _); [simplify_eq; by apply net_input|].
  destruct (p_datainput e) eqn:Ed; [|by apply IH].
  destruct (_ && _); [simplify_eq; by eapply net_datainput|by apply IH].
Qed.

(** A packet goes to LCP, PAP, CHAP or one of the other protocols. *)
Lemma demux_entry bs len prot g :
  demux prot bs len (protocols cfg ac cc magic others) = Some g ->
  g = lcp_input (HA := layer) cfg magic bs len \/ g = upap_input (HA := events) bs len \/
  (prot = PPP_CHAP /\ g = ChapInput cc (HA := events) bs len) \/
  (forall w, rtc (net_step ac cc magic others) w (g w)).
Proof.
  intros Hd. unfold protocols in Hd.
  cbn [demux p_protocol p_enabled p_link lcp_protent lcp_link pap_protent pap_link chap_protent chap_link
    p_input p_datainput] in Hd.
  destruct (_ && _); [simplify_eq; by left|]. destruct (_ && _); [simplify_eq; right; by left|].
  destruct (Z.eqb_spec PPP_CHAP prot) as [<-|_]; cbn [andb] in Hd; [injection Hd as <-; by right; right; left|].
  right. right. right. exact (demux_other bs len prot others g (incl_refl _) Hd).
Qed.

Lemma get_input_guarded buf len w : guarded w -> guarded (get_input cfg ac cc magic others buf len w).
Proof.
  intros Hg. unfold get_input. destruct (len <? 0); [done|]. destruct (len =? 0).
  { assert (H1 : guarded (lcp_lowerdown (HA := layer) cfg magic
        (on_lcp (set_pppd_status EXIT_HANGUP) (on_auth (set_hungup true) w)))).
    { apply (gate_lowerdown callbacks sound idle working), guarded_status. exact Hg. }
    unfold auth_link_terminated. destruct (_ =? _); [done|by apply guarded_new_phase]. }
  destruct (len <? PPP_HDRLEN); [done|]. destruct (GETSHORT _) as [[prot p]|]; [|exact Hg].
  destruct (negb (prot =? PPP_LCP) && _) eqn:Eo; [done|]. destruct ((_ <=? _) && _); [done|].
  destruct (demux _ _ _ _) as [g|] eqn:Ed; [|exact Hg].
  destruct (demux_entry _ _ _ _ Ed) as [->|[->|[[-> ->]|Hr]]].
  - by apply (gate_input callbacks sound idle working).
  - by apply upap_input_guarded.
  - apply negb_false_iff, bool_decide_eq_true in Eo.
    exact (chap_input_guarded ac cc magic others p (len - PPP_HDRLEN) w Eo Hg).
  - exact (net_run_guarded _ _ _ _ _ _ (Hr w) Hg).
Qed.

(** What can happen to the daemon: a packet or a hang-up, the expiry of a timer
    of LCP, PAP, CHAP or [auth.c], the calls and phases of the main loop; *)
Inductive link_step : W -> W -> Prop :=
  | ds_packet buf len w : link_step w (get_input cfg ac cc magic others buf len w)
  | ds_fsm_timer w : link_step w (fire callbacks w)
  | ds_echo_timer w : link_step w (LcpEchoTimeout (HA := layer) cfg magic (disarm (echo_timer (W := W)) w))
  | ds_retry_timer w : link_step w (upap_timeout (HA := events) (disarm (retry_timer (W := W)) w))
  | ds_request_timer w : link_step w (upap_reqtimeout (HA := events) (disarm (request_timer (W := W)) w))
  | ds_challenge_timer w :
      link_step w (ChapChallengeTimeout (HA := events) (disarm (challenge_timer (W := W)) w))
  | ds_response_timer w : link_step w (ChapResponseTimeout (disarm (response_timer (W := W)) w))
  | ds_rechallenge_timer w : link_step w (ChapRechallenge cc (disarm (rechallenge_timer (W := W)) w))
  | ds_idle_timer idle w : link_step w (check_idle ac cc magic others idle (disarm idle_timer w))
  | ds_connect_timer w : link_step w (connect_time_expired ac cc magic others (disarm connect_timer w))
  | ds_lowerup w : link_step w (lcp_lowerup (HA := layer) cfg magic w)
  | ds_open w : link_step w (lcp_open (HA := layer) cfg magic w)
  | ds_close reason w : link_step w (lcp_close (HA := layer) magic (Some reason) w)
  | ds_lowerdown w : link_step w (lcp_lowerdown (HA := layer) cfg magic w)
  | ds_phase p w :
      p <> PHASE_AUTHENTICATE -> p <> PHASE_NETWORK -> p <> PHASE_RUNNING ->
      link_step w (new_phase p w).

(** and what the other events of a network protocol consist of. *)
Inductive daemon_step : W -> W -> Prop :=
  | ds_link w w' : link_step w w' -> daemon_step w w'
  | ds_net w w' : net_step ac cc magic others w w' -> daemon_step w w'.

(** The daemon after the [init] functions, in the phase before a connection. *)
Definition daemon_start w : Prop :=
  (exists f s, d_fsm w = (lcp_init f s).1) /\ (exists u, d_upap w = upap_init u) /\
  (exists c, d_chap w = ChapInit c) /\ no_chap w /\ ~ live w /\ net_rest (d_other w) /\
  agreed (d_auth w) = None.

Inductive daemon_reachable : W -> Prop :=
  | dr_start w : daemon_start w -> daemon_reachable w
  | dr_step w w' : daemon_reachable w -> daemon_step w w' -> daemon_reachable w'.

Lemma link_step_guarded w w' : link_step w w' -> guarded w -> guarded w'.
Proof.
  intros [] Hg.
  - by apply get_input_guarded.
  - apply (gate_timeout callbacks sound idle working). exact Hg.
  - apply echo_timeout_guarded. exact Hg.
  - apply (upap_timeout_guarded ac cc magic others). exact Hg.
  - apply (upap_reqtimeout_guarded ac cc magic others). exact Hg.
  - apply (challenge_timeout_guarded ac cc magic others). exact Hg.
  - apply response_timeout_guarded. exact Hg.
  - apply rechallenge_guarded. exact Hg.
  - unfold check_idle. destruct idle as [itime|]; [|exact Hg]. destruct (_ <=? 0); [|exact Hg].
    apply guarded_status. exact (close_lcp_guarded ac cc magic others _ (disarm idle_timer w0) Hg).
  - apply guarded_status, (close_lcp_guarded ac cc magic others). exact Hg.
  - apply (gate_lowerup callbacks sound idle working). exact Hg.
  - apply (gate_open callbacks sound idle working). exact Hg.
  - left. by apply lcp_close_idle.
  - by apply (gate_lowerdown callbacks sound idle working).
  - by apply guarded_new_phase.
Qed.

Lemma daemon_step_guarded w w' : daemon_step w w' -> guarded w -> guarded w'.
Proof. intros [w1 w2 Hl|w1 w2 Hn]; [by apply link_step_guarded|by eapply net_step_guarded]. Qed.

Lemma reachable_guarded w : daemon_reachable w -> guarded w.
Proof.
  induction 1 as [w (_ & [u Hu] & _ & Hn & Hl & Hr & Ha)|w w' _ IH Hs]; [|by eapply daemon_step_guarded].
  left. unfold idle, peer_by_pap, self_by_pap. rewrite Hu Ha. by split_and!.
Qed.

(** C26: no network before authentication.  Over every run of the daemon,
    whatever packets arrive and whenever timers expire: in the network phase
    and while the link is running, LCP is open, no authentication is
    outstanding, the peer is not asked to use CHAP, and every authentication LCP
    had agreed on has succeeded since it was started.  If it was PAP, for either
    side, PAP has been open since it last began to wait (it still is, or was told
    later that the link is down); if we were to authenticate ourselves by CHAP,
    CHAP has been open (it still is, or answers a later challenge). *)
Theorem daemon_network_needs_auth w :
  daemon_reachable w -> networking w -> authenticated w.
Proof.
  intros Hr Hx. destruct (reachable_guarded w Hr) as [(Hl & _)|[Hs Hw]].
  - exfalso. by apply Hl, networking_live.
  - apply clear_authenticated. split; [done|]. split; [done|]. apply (proj1 Hw). by left.
Qed.
End Invariant.

Arguments demux_other {X ac cc magic others HR HN} bs len prot l g.
