(* ===== verification/DaemonAuth.v ===== *)
(** * The daemon: one protocol in the company of the rest

    A predicate on PAP, CHAP, their timers and the network protocols that the
    entries of the protocol table keep is kept by every step of the daemon, but
    for the packets and timers of PAP and CHAP themselves.  A predicate that is
    blind to the network protocols is kept by theirs, too. *)

From S2P Require Import Prelude Wire Callout Fsm FsmSpec FsmGate.
From S2P Require Import LcpOptions LcpReqci Lcp LcpSpec Upap Chap Auth AuthSpec DaemonGuard DaemonSpec.

Section Auths.
Context {X : Type}.
Abbreviation W := (daemon X).
Implicit Types w : W.
Context (cfg : lcp_config) (ac : auth_config) (cc : chap_config) (magic : nat -> Z).
Context (others : list (protent W)) {HR : NetRest X}.

Abbreviation events := (auth_events ac cc magic others).
Abbreviation layer := (auth_layer ac cc magic others).
Abbreviation callbacks := (lcp_callbacks (HA := layer) cfg magic).
Abbreviation closing := (lcp_closing_callbacks (HA := closing_layer ac cc others) magic).

(** ** Predicates on PAP and CHAP *)

Abbreviation retry := (retry_timer (W := W)).
Abbreviation request := (request_timer (W := W)).
Abbreviation challenging := (challenge_timer (W := W)).
Abbreviation responding := (response_timer (W := W)).
Abbreviation rechallenging := (rechallenge_timer (W := W)).

Definition auth_timer (t : timer) : Prop :=
  t = retry \/ t = request \/ t = challenging \/ t = responding \/ t = rechallenging.

(** The same PAP and CHAP, with the same timers. *)
Definition same_auths w w' : Prop :=
  d_upap w' = d_upap w /\ d_chap w' = d_chap w /\ forall t, auth_timer t -> pends t w' = pends t w.

(** The timers of LCP and of the limits on a connection. *)
Definition own_timer (t : timer) : Prop :=
  t = fsm_timer (W := W) \/ t = echo_timer (W := W) \/ t = idle_timer \/ t = connect_timer.

(** And the same network protocols, with the same timers. *)
Definition same_parts w w' : Prop :=
  d_upap w' = d_upap w /\ d_chap w' = d_chap w /\ d_other w' = d_other w /\
  forall t, ~ own_timer t -> pends t w' = pends t w.

(** What closing the link and the network phase keep; of an open link, [B] is enough. *)
Class AuthClosed (B P : W -> Prop) : Prop := {
  au_base w : P w -> B w;
  au_base_same w w' : same_parts w w' -> B w -> B w';
  au_same w w' : same_parts w w' -> P w -> P w';
  au_down w : B w -> P (auths_down w);
  au_entry_down e w : In e others -> P w -> P (entry_down w (p_link e));
  au_entry_open e w : In e others -> P w -> P (entry_open w (p_link e))
}.

(** What opening it and the packets of the network protocols keep as well. *)
Class AuthStable (B P : W -> Prop) : Prop := {
  au_closed :: AuthClosed B P;
  au_pap_up w : P w -> P (upap_lowerup w);
  au_chap_up w : P w -> P (ChapLowerUp cc w);
  au_pap_down w : P w -> P (upap_lowerdown w);
  au_chap_down w : P w -> P (ChapLowerDown w);
  au_authpeer w : P w -> P (upap_authpeer w);
  au_authwithpeer user passwd w : P w -> P (upap_authwithpeer user passwd w);
  au_chap_peer name dig w : P w -> P (ChapAuthPeer cc name dig w);
  au_chap_withpeer name dig w : P w -> P (ChapAuthWithPeer name dig w);
  au_entry_up e w : In e others -> P w -> P (entry_up w (p_link e));
  au_protrej e w : In e others -> P w -> P (p_protrej e w);
  au_input e bs len w : In e others -> P w -> P (p_input e bs len w);
  au_datainput e g bs len w : In e others -> p_datainput e = Some g -> P w -> P (g bs len w)
}.

Lemma pends_arm t time w : pends t (arm t time w) = S (pends t w).
Proof. unfold pends. simpl. by rewrite pending_timeout decide_True. Qed.

Lemma pends_arm_ne t t' time w : t <> t' -> pends t' (arm t time w) = pends t' w.
Proof. intros Hne. unfold pends. simpl. by rewrite pending_timeout decide_False. Qed.

Lemma pends_disarm_ne t t' w : t <> t' -> pends t' (disarm t w) = pends t' w.
Proof. intros Hne. by apply pending_untimeout_ne. Qed.

Lemma pends_send t n bs w : pends t (on_link (fun l => output n (link_store 0 bs l)) w) = pends t w.
Proof. unfold pends. simpl. by rewrite callouts_output callouts_link_store. Qed.

Lemma own_echo : own_timer (echo_timer (W := W)).
Proof. by right; left. Qed.

Lemma own_idle : own_timer idle_timer.
Proof. by right; right; left. Qed.

Lemma own_connect : own_timer connect_timer.
Proof. by right; right; right. Qed.

Lemma auth_not_own t : auth_timer t -> ~ own_timer t.
Proof. intros Ht Ho. destruct Ht as [->|[->|[->|[->| ->]]]], Ho as [Ho|[Ho|[Ho|Ho]]]; discriminate. Qed.

Lemma same_parts_auths w w' : same_parts w w' -> same_auths w w'.
Proof. intros (Hu & Hc & _ & Ht). split; [done|]. split; [done|]. intros t Ha. by apply Ht, auth_not_own. Qed.

Section Stable.
Context (B P : W -> Prop) {HC : AuthClosed B P}.

Ltac just_auth :=
  rewrite ?(gate_only P);
  repeat match goal with H : gate P never _ |- _ => apply (gate_only P) in H end.

(** Nothing PAP and CHAP depend on has changed. *)
Ltac same H := refine (au_same _ _ _ H); by split_and!.
Ltac same_base H := refine (au_base_same _ _ _ H); by split_and!.

Lemma fold_auth (f : W -> link_entry W -> W) w :
  (forall e w, In e others -> P w -> P (f w (p_link e))) ->
  P w -> P (fold_left f (map p_link others) w).
Proof. intros Hf. by apply (fold_others others (fun w1 w2 => P w1 -> P w2)); auto. Qed.

Lemma link_auth g w : link_quiet (W := W) g -> P w -> P (on_link g w).
Proof.
  intros Hq. apply au_same. split; [done|]. split; [done|]. split; [done|]. intros t Ht. apply Hq.
  intros ->. apply Ht. by left.
Qed.

Lemma link_down_auth w : B w -> P (auth_link_down cc others w).
Proof.
  intros Hb. unfold auth_link_down. set (w1 := if auth_script_state _ then _ else _).
  assert (H1 : B w1) by (subst w1; case_match; same_base Hb). clearbody w1. rewrite fold_down.
  pose proof (fold_auth entry_down (auths_down w1) au_entry_down (au_down w1 H1)) as Hs.
  set (w2 := fold_left _ _ _) in *. clearbody w2. destruct (_ =? _); same Hs.
Qed.

Lemma lcp_down_auth (A : AuthLayer W) w :
  (forall w, @link_down W A w = auth_link_down cc others w) -> B w -> P (lcp_down (HA := A) w).
Proof.
  intros HA Hb. unfold lcp_down. rewrite HA.
  assert (H1 : B (lcp_echo_lowerdown w)).
  { unfold lcp_echo_lowerdown. destruct (echo_timer_running _); [|done].
    refine (au_base_same _ _ _ Hb). split; [done|]. split; [done|]. split; [done|]. intros t Ht.
    apply pending_untimeout_ne. intros <-. apply Ht, own_echo. }
  pose proof (link_down_auth (lcp_echo_lowerdown w) H1) as Hs.
  set (w1 := auth_link_down _ _) in *. clearbody w1. same Hs.
Qed.

Lemma ackci_auth p len w : P w -> P (cb_lcp_ackci p len w).2.
Proof. intros Hs. unfold cb_lcp_ackci. destruct (lcp_ackci _ _ _); same Hs. Qed.

Lemma rejci_auth p len w : P w -> P (cb_lcp_rejci p len w).2.
Proof.
  intros Hs. unfold cb_lcp_rejci. destruct (lcp_rejci _ _ _); [simpl; case_decide|..]; same Hs.
Qed.

Lemma reqci_auth inp len r w : P w -> P (cb_lcp_reqci magic inp len r w).2.
Proof.
  intros Hs. unfold cb_lcp_reqci. destruct (lcp_reqci _ _ _ _ _ _ _) as [rep| |]; [|same Hs..].
  cbn [snd]. destruct (rr_oob rep || rr_overlap rep); same Hs.
Qed.

Lemma link_terminated_auth w : P w -> P (auth_link_terminated w).
Proof. intros Hs. unfold auth_link_terminated. destruct (_ =? _); same Hs. Qed.

#[local] Instance closing_stable : Gated closing B P never.
Proof.
  split; intros; take_callback; try done; just_auth.
  - same H.
  - by apply link_auth.
  - match goal with H : P w |- _ => same H end.
  - by apply reqci_auth.
  - by apply link_terminated_auth.
  - by apply au_base.
  - same_base H.
  - by apply lcp_down_auth.
  - done.
  - by apply ackci_auth.
  - by apply rejci_auth.
Qed.

(** ** Calls of [auth.c] *)

Lemma close_lcp_auth reason w : P w -> P (close_lcp ac cc magic others reason w).
Proof.
  intros Hs. unfold close_lcp, lcp_close. set (w1 := if _ =? _ then _ else _).
  assert (H1 : P w1) by (subst w1; destruct (_ =? _); same Hs). clearbody w1.
  destruct (_ && _); [apply link_terminated_auth; same H1|].
  apply (gate_close closing B P never). by apply gate_only.
Qed.

(** Closing an open link tells PAP and CHAP, whatever they were doing. *)
Lemma close_opened_auth reason w :
  state (d_fsm w) = OPENED -> B w -> P (close_lcp ac cc magic others reason w).
Proof.
  intros Ho Hb. unfold close_lcp, lcp_close. set (w1 := if _ =? _ then _ else _).
  assert (H1 : state (d_fsm w1) = OPENED /\ B w1).
  { subst w1. destruct (_ =? _); [done|]. split; [done|same_base Hb]. }
  clearbody w1. destruct H1 as [H1 Hb1]. rewrite bool_decide_eq_false_2; [by rewrite /= H1|].
  by apply (close_opened_off closing B P never).
Qed.

Lemma fold_open_auth w : P w -> P (fold_left entry_open (link_table cc others) w).
Proof.
  change (fold_left entry_open (link_table cc others) w)
    with (fold_left entry_open (map p_link others) w).
  apply fold_auth, au_entry_open.
Qed.

Lemma network_phase_auth w : P w -> P (network_phase ac cc magic others w).
Proof.
  intros Hs. unfold network_phase, start_networks. set (w1 := if auth_script_state _ then _ else _).
  assert (H1 : P (new_phase PHASE_NETWORK w1)) by (subst w1; case_match; same Hs). clearbody w1.
  pose proof (fold_open_auth (new_phase PHASE_NETWORK w1) H1) as H2.
  set (w2 := fold_left _ _ _) in *. clearbody w2. destruct (_ =? 0); [by apply close_lcp_auth|done].
Qed.

Lemma auth_done_auth bit w : P w -> P (auth_done ac cc magic others bit w).
Proof. intros Hs. unfold auth_done. destruct (_ =? 0); [apply network_phase_auth|]; same Hs. Qed.

Lemma peer_fail_auth prot w : P w -> P (ev_peer_fail ac cc magic others prot w).
Proof.
  intros Hs. pose proof (close_lcp_auth (text "Authentication failed") w Hs) as H1.
  unfold ev_peer_fail. set (w1 := close_lcp _ _ _ _ _ w) in *. clearbody w1. same H1.
Qed.

Lemma forget_passwd_auth w : P w -> P (forget_passwd w).
Proof. intros Hs. unfold forget_passwd. destruct (passwd_from_file _); same Hs. Qed.

Lemma withpeer_fail_auth prot w : P w -> P (ev_withpeer_fail ac cc magic others prot w).
Proof.
  intros Hs. pose proof (close_lcp_auth (text "Failed to authenticate ourselves to peer") _
    (forget_passwd_auth w Hs)) as H1.
  unfold ev_withpeer_fail. set (w1 := close_lcp _ _ _ _ _ _) in *. clearbody w1. same H1.
Qed.

Lemma arm_other_auth t time w : own_timer t -> P w -> P (arm t time w).
Proof.
  intros Ha. apply au_same. split; [done|]. split; [done|]. split; [done|]. intros t' Ht.
  apply pends_arm_ne. by intros <-.
Qed.

Lemma disarm_other_auth t w : own_timer t -> P w -> P (disarm t w).
Proof.
  intros Ha. apply au_same. split; [done|]. split; [done|]. split; [done|]. intros t' Ht.
  apply pends_disarm_ne. by intros <-.
Qed.

Lemma np_up_auth w : P w -> P (np_up ac w).
Proof.
  intros Hs. unfold np_up. set (w1 := if _ =? 0 then _ else w).
  assert (H1 : P w1); [|clearbody w1; same H1]. subst w1. destruct (_ =? 0); [|done].
  set (w2 := new_phase _ _). assert (H2 : P w2) by same Hs. clearbody w2.
  assert (H3 : P (if 0 <? idle_time_limit ac then arm idle_timer (idle_time_limit ac) w2 else w2))
    by (destruct (0 <? _); [apply arm_other_auth; [apply own_idle|done]|done]).
  destruct (0 <? maxconnect ac); [apply arm_other_auth; [apply own_connect|done]|done].
Qed.

Lemma np_down_auth w : P w -> P (np_down w).
Proof.
  intros Hs. unfold np_down. set (w1 := on_auth _ w). assert (H1 : P w1) by same Hs. clearbody w1.
  destruct (_ =? 0); [|done]. pose proof (disarm_other_auth idle_timer w1) as H2.
  set (w2 := disarm _ _) in *. assert (H3 : P w2) by (apply H2; [apply own_idle|done]). clearbody w2. same H3.
Qed.

(** ** The link comes up *)

Context {HP : AuthStable B P}.

Lemma start_auth_auth w : P w -> P (start_auth_withpeer ac (start_auth_peer ac cc w).2).2.
Proof.
  intros Hs. set (w1 := (start_auth_peer ac cc w).2). assert (H1 : P w1).
  { subst w1. unfold start_auth_peer.
    destruct (neg_chap _); [by apply au_chap_peer|].
    destruct (neg_upap _); [by apply au_authpeer|done]. }
  clearbody w1. unfold start_auth_withpeer.
  destruct (neg_chap _); [by apply au_chap_withpeer|].
  destruct (neg_upap _); [|exact H1]. cbn [snd]. apply au_authwithpeer.
  destruct (have_passwd w1); same H1.
Qed.

Lemma link_established_auth w : P w -> P (auth_link_established ac cc magic others w).
Proof.
  intros Hs. unfold auth_link_established.
  assert (H1 : P (fold_left entry_up (link_table cc others) w)).
  { change (fold_left entry_up (link_table cc others) w)
      with (fold_left entry_up (map p_link others) (ChapLowerUp cc (upap_lowerup w))).
    apply fold_auth; [apply au_entry_up|by apply au_chap_up, au_pap_up]. }
  set (w1 := fold_left _ _ w) in *. clearbody w1. destruct (_ && _).
  { pose proof (close_lcp_auth (text "peer refused to authenticate") w1 H1) as H2.
    set (w2 := close_lcp _ _ _ _ _ _) in *. clearbody w2. same H2. }
  assert (H1' : P (new_phase PHASE_AUTHENTICATE w1)) by same H1.
  pose proof (start_auth_auth _ H1') as H2.
  destruct (start_auth_peer _ _ _) as [peer w3]. cbn [snd] in H2.
  destruct (start_auth_withpeer _ _) as [withpeer w4]. cbn [snd] in H2.
  destruct (_ =? 0); [apply network_phase_auth|]; same H2.
Qed.

(** ** LCP *)

Lemma echo_check_auth w : P w -> P (LcpEchoCheck (HA := layer) cfg magic w).
Proof.
  intros Hs. unfold LcpEchoCheck, LcpSendEchoRequest, LcpLinkFailure.
  set (w2 := if _ && _ then _ else _). assert (H2 : P w2).
  { subst w2. destruct (_ && _); [|done]. case_decide; [|same Hs].
    pose proof (close_lcp_auth peer_dead_reason w Hs : P (lcp_close (HA := layer) _ _ _)) as H1.
    set (w1 := lcp_close _ _ _) in *. clearbody w1. same H1. }
  clearbody w2. set (w3 := if decide _ then _ else w2). assert (H3 : P w3).
  { subst w3. case_decide; [|done]. set (w4 := fsm_sdata _ _ _ _ _).
    assert (H4 : P w4) by (apply link_auth; [apply send_data_quiet|same H2]). clearbody w4. same H4. }
  clearbody w3. case_decide; [|done].
  assert (H4 : P (arm (echo_timer (W := W)) (lcp_echo_interval cfg) w3))
    by (apply arm_other_auth; [apply own_echo|done]). same H4.
Qed.

Lemma lcp_up_auth w : P w -> P (lcp_up (HA := layer) cfg magic w).
Proof.
  intros Hs. apply link_established_auth. unfold lcp_echo_lowerup.
  match goal with |- P (if _ then on_lcp ?g ?w0 else _) =>
    set (w1 := on_lcp g w0); assert (H1 : P w1) by (subst w1; destruct (neg_mru _); same Hs) end.
  clearbody w1. destruct (_ =? 0); [done|by apply echo_check_auth].
Qed.

Lemma nakci_auth p len w : P w -> P (cb_lcp_nakci (HA := layer) cfg magic p len w).2.
Proof.
  intros Hs. unfold cb_lcp_nakci. destruct (nakci_parse _ _ _ _ _ _) as [ns| |]; [|same Hs..].
  cbn [snd]. set (w1 := on_lcp _ w). assert (H1 : P w1) by same Hs. clearbody w1.
  case_decide; [done|]. destruct (ns_looped ns); [|same H1]. destruct (_ <=? _); [|same H1].
  pose proof (close_lcp_auth loopback_reason w1 H1 : P (lcp_close (HA := layer) _ _ _)) as H2.
  set (w2 := lcp_close _ _ _) in *. clearbody w2. same H2.
Qed.

Lemma lcp_protrej_auth w : P w -> P (lcp_protrej (HA := layer) magic w).
Proof.
  intros Hs. exact (gate_protreject closing B P never w (proj2 (gate_only P w) Hs)).
Qed.

Lemma upap_protrej_auth w : P w -> P (upap_protrej (HA := events) w).
Proof.
  intros Hs. unfold upap_protrej. apply au_pap_down. set (w1 := if decide _ then _ else w).
  assert (H1 : P w1) by (subst w1; case_decide; [by apply withpeer_fail_auth|done]). clearbody w1.
  case_decide; [by apply peer_fail_auth|done].
Qed.

Lemma chap_protrej_auth w : P w -> P (ChapProtocolReject (HA := events) w).
Proof.
  intros Hs. unfold ChapProtocolReject. apply au_chap_down.
  set (w1 := match ch_serverstate _ with CHAPSS_INITIAL => _ | _ => _ end).
  assert (H1 : P w1) by (subst w1; case_match; solve [done|by apply peer_fail_auth]). clearbody w1.
  case_match; solve [done|by apply withpeer_fail_auth].
Qed.

Lemma extcode_auth code pid inp n w : P w -> P (lcp_extcode (HA := layer) magic code pid inp n w).2.
Proof.
  intros Hs. unfold lcp_extcode. destruct (code =? PROTREJ); cbn [snd].
  { unfold lcp_rprotrej. destruct (_ <? _); [same Hs|].
    destruct (GETSHORT inp) as [[prot ?]|]; [|same Hs]. case_decide; [|same Hs].
    destruct (prot =? PPP_LCP); [by apply lcp_protrej_auth|].
    destruct (protocol_protrej prot) as [g|] eqn:E; [|same Hs].
    destruct (protrej_entry ac cc magic others prot g E) as [->|[->|(e & He & ->)]];
      [by apply upap_protrej_auth|by apply chap_protrej_auth|].
    by apply au_protrej. }
  destruct (code =? ECHOREQ); cbn [snd].
  { case_decide; [|same Hs]. destruct (store _ _ _); [|same Hs].
    apply link_auth; [apply send_data_quiet|done]. }
  destruct (code =? ECHOREP); cbn [snd]; [|destruct (code =? DISCREQ); same Hs].
  unfold lcp_received_echo_reply. destruct (n <? 4); [same Hs|].
  destruct (GETLONG inp) as [[m ?]|]; [|same Hs]. destruct (_ && _); same Hs.
Qed.

#[local] Instance lcp_stable : Gated callbacks B P never.
Proof.
  split; intros; take_callback; try done; just_auth.
  - same H.
  - by apply link_auth.
  - match goal with H : P w |- _ => same H end.
  - by apply reqci_auth.
  - by apply link_terminated_auth.
  - by apply au_base.
  - same_base H.
  - by apply lcp_down_auth.
  - by apply lcp_up_auth.
  - by apply ackci_auth.
  - by apply nakci_auth.
  - by apply rejci_auth.
  - by apply extcode_auth.
Qed.

Lemma echo_timeout_auth w : P w -> P (LcpEchoTimeout (HA := layer) cfg magic w).
Proof.
  intros Hs. unfold LcpEchoTimeout. destruct (echo_timer_running _); [|same Hs].
  apply echo_check_auth. same Hs.
Qed.

Lemma lowerdown_auth w : P w -> P (lcp_lowerdown (HA := layer) cfg magic w).
Proof. intros Hs. apply gate_only, (gate_lowerdown callbacks B P never). by apply gate_only. Qed.

Lemma lcp_input_auth p len w : P w -> P (lcp_input (HA := layer) cfg magic p len w).
Proof. intros Hs. apply gate_only, (gate_input callbacks B P never). by apply gate_only. Qed.

(** ** Steps of the daemon *)

(** A packet for a protocol, on an open link. *)
Definition auth_packet (prot : Z) (input : bytes -> Z -> W -> W) buf len w p : Prop :=
  state (d_fsm w) = OPENED /\ GETSHORT (drop 2 buf) = Some (prot, p) /\
  get_input cfg ac cc magic others buf len w = input p (len - PPP_HDRLEN) w.

Abbreviation pap_packet := (auth_packet PPP_PAP (upap_input (HA := events))).
Abbreviation chap_packet := (auth_packet PPP_CHAP (ChapInput cc (HA := events))).

Lemma demux_auth bs len prot l g w : incl l others -> demux prot bs len l = Some g -> P w -> P (g w).
Proof.
  intros Hincl Hd Hs. induction l as [|e l IH]; simpl in Hd; [done|].
  assert (He : In e others) by (apply Hincl; by left).
  assert (Hl : incl l others) by (intros x Hx; apply Hincl; by right).
  destruct (_ && _); [simplify_eq; by apply au_input|].
  destruct (p_datainput e) as [h|] eqn:Ed; [|by apply IH].
  destruct (_ && _); [simplify_eq; by apply (au_datainput e h)|by apply IH].
Qed.

Lemma get_input_auth buf len w :
  P w -> P (get_input cfg ac cc magic others buf len w) \/
         (exists p, pap_packet buf len w p) \/ (exists p, chap_packet buf len w p).
Proof.
  intros Hs. unfold auth_packet, get_input. destruct (len <? 0); [by left|]. destruct (len =? 0).
  { left. apply link_terminated_auth, lowerdown_auth. same Hs. }
  destruct (len <? PPP_HDRLEN); [by left|]. destruct (GETSHORT _) as [[prot p]|]; [|left; same Hs].
  destruct (negb (prot =? PPP_LCP) && _) eqn:Eo; [by left|]. destruct ((_ <=? _) && _); [by left|].
  unfold protocols. cbn [demux p_protocol p_enabled p_link lcp_protent lcp_link pap_protent pap_link
    chap_protent chap_link p_input p_datainput].
  rewrite !andb_true_r. destruct (Z.eqb_spec PPP_LCP prot) as [<-|Hne].
  { left. by apply lcp_input_auth. }
  rewrite (proj2 (Z.eqb_neq _ _) (not_eq_sym Hne)) /= in Eo. apply negb_false_iff, bool_decide_eq_true in Eo.
  destruct (Z.eqb_spec PPP_PAP prot) as [<-|_]; [right; left; by exists p|].
  destruct (Z.eqb_spec PPP_CHAP prot) as [<-|_]; [right; right; by exists p|].
  left. destruct (demux _ _ _ _) as [g|] eqn:Ed.
  - by eapply demux_auth; [apply incl_refl|exact Ed|].
  - apply link_auth; [apply send_data_quiet|same Hs].
Qed.

(** The events of PAP and of CHAP themselves. *)
Inductive pap_event w : W -> Prop :=
  | pe_packet buf len p : pap_packet buf len w p -> pap_event w (get_input cfg ac cc magic others buf len w)
  | pe_retry : pap_event w (upap_timeout (HA := events) (disarm retry w))
  | pe_request : pap_event w (upap_reqtimeout (HA := events) (disarm request w)).

Inductive chap_event w : W -> Prop :=
  | ce_packet buf len p : chap_packet buf len w p -> chap_event w (get_input cfg ac cc magic others buf len w)
  | ce_challenge : chap_event w (ChapChallengeTimeout (HA := events) (disarm challenging w))
  | ce_response : chap_event w (ChapResponseTimeout (disarm responding w))
  | ce_rechallenge : chap_event w (ChapRechallenge cc (disarm rechallenging w)).

(** Every step keeps the predicate, but for these events. *)
Lemma link_step_auth w w' :
  link_step cfg ac cc magic others w w' -> P w -> P w' \/ pap_event w w' \/ chap_event w w'.
Proof.
  intros [] Hs; [|left|left|right; left; constructor|right; left; constructor|right; right; constructor|
    right; right; constructor|right; right; constructor|left..].
  - destruct (get_input_auth buf len w0 Hs) as [?|[[p Hp]|[p Hp]]]; [by left|right; left|right; right];
      by econstructor.
  - apply gate_only, (gate_timeout callbacks B P never), gate_only.
    apply link_auth; [|done]. intros l t Ht. by apply pending_untimeout_ne.
  - apply echo_timeout_auth, disarm_other_auth; [apply own_echo|done].
  - assert (H2 : P (disarm idle_timer w0)) by (apply disarm_other_auth; [apply own_idle|done]).
    unfold check_idle. destruct idle as [itime|]; [|done].
    destruct (_ <=? 0); [|apply arm_other_auth; [apply own_idle|done]].
    pose proof (close_lcp_auth (text "Link inactive") _ H2) as H3.
    set (w1 := close_lcp _ _ _ _ _ _) in *. clearbody w1. same H3.
  - assert (H2 : P (disarm connect_timer w0)) by (apply disarm_other_auth; [apply own_connect|done]).
    unfold connect_time_expired.
    pose proof (close_lcp_auth (text "Connect time expired") _ H2) as H3.
    set (w1 := close_lcp _ _ _ _ _ _) in *. clearbody w1. same H3.
  - apply gate_only, (gate_lowerup callbacks B P never), gate_only. same Hs.
  - apply gate_only, (gate_open callbacks B P never), gate_only. same Hs.
  - exact (close_lcp_auth reason w0 Hs).
  - by apply lowerdown_auth.
  - same Hs.
Qed.
End Stable.

(** ** Predicates on PAP and CHAP only *)

Section Blind.
Context {HN : NetLaws ac cc magic others}.
Context (P : W -> Prop) (Hblind : forall w w', same_auths w w' -> P w -> P w').

Lemma outside_auth w w' : outside w w' -> P w -> P w'.
Proof.
  intros Ho. apply Hblind. split; [apply (out_upap _ _ Ho)|]. split; [apply (out_chap _ _ Ho)|].
  intros t Ht. apply (out_timers _ _ Ho). by right.
Qed.

Lemma blind_closed : (forall w, P (auths_down w)) -> AuthClosed anything P.
Proof.
  intros Hd. split; [done|done| |by intros w _| |].
  - intros w w' Hs. by apply Hblind, same_parts_auths.
  - intros e w He. apply outside_auth. by apply (entry_down_outside e).
  - intros e w He. apply outside_auth. by apply (entry_open_outside e).
Qed.

Context {HC : AuthClosed anything P}.

Lemma net_step_auth w w' : net_step ac cc magic others w w' -> P w -> P w'.
Proof.
  intros [w1 w2 [Ho _]|w1 w2 _ Hb|w1] Hs; [by eapply outside_auth| |].
  { induction Hb as [|w1 w2 w3 [w4 w5 Ho _|w4|w4] _ IH]; [done|..]; apply IH;
      [by eapply outside_auth|by apply (np_up_auth anything P)|by apply (np_down_auth anything P)]. }
  unfold np_finished. destruct (_ <=? 0); [apply (close_lcp_auth anything P)|]; by refine (Hblind w1 _ _ Hs).
Qed.

Lemma net_run_auth w w' : rtc (net_step ac cc magic others) w w' -> P w -> P w'.
Proof. induction 1; [done|]. intros. eauto using net_step_auth. Qed.


(** What is left to show of a blind predicate. *)
Class BlindStable : Prop := {
  bl_pap_up w : P w -> P (upap_lowerup w);
  bl_chap_up w : P w -> P (ChapLowerUp cc w);
  bl_pap_down w : P w -> P (upap_lowerdown w);
  bl_chap_down w : P w -> P (ChapLowerDown w);
  bl_authpeer w : P w -> P (upap_authpeer w);
  bl_authwithpeer user passwd w : P w -> P (upap_authwithpeer user passwd w);
  bl_chap_peer name dig w : P w -> P (ChapAuthPeer cc name dig w);
  bl_chap_withpeer name dig w : P w -> P (ChapAuthWithPeer name dig w)
}.

Lemma blind_stable : BlindStable -> AuthStable anything P.
Proof.
  intros []. split; auto.
  - intros e w He. apply outside_auth. by apply (entry_up_calm e).
  - intros e w He. by apply net_run_auth, net_protrej.
  - intros e bs len w He. by apply net_run_auth, net_input.
  - intros e g bs len w He Hg. by apply net_run_auth, (net_datainput e).
Qed.

(** Every step keeps it, but for the events of PAP and CHAP. *)
Lemma daemon_step_auth w w' :
  BlindStable -> daemon_step cfg ac cc magic others w w' -> P w -> P w' \/ pap_event w w' \/ chap_event w w'.
Proof.
  intros HB [w1 w2 Hl|w1 w2 Hn] Hs; [|left; by eapply net_step_auth].
  pose proof (blind_stable HB). by apply (link_step_auth anything P).
Qed.
End Blind.
End Auths.
