(* ===== verification/DaemonPap.v ===== *)
(** * The daemon: PAP in the company of the rest

    The server side of PAP reaches OPEN only by a request that was accepted,
    and PAP never waits for the peer without a timer. *)

From S2P Require Import Prelude Wire Callout Fsm FsmSpec FsmGate.
From S2P Require Import LcpOptions LcpReqci Lcp LcpSpec Upap Chap Auth AuthSpec DaemonGuard DaemonSpec DaemonAuth.

Section Pap.
Context {X : Type}.
Abbreviation W := (daemon X).
Implicit Types w : W.
Context (cfg : lcp_config) (ac : auth_config) (cc : chap_config) (magic : nat -> Z).
Context (others : list (protent W)) {HR : NetRest X} {HN : NetLaws ac cc magic others}.

Abbreviation events := (auth_events ac cc magic others).
Abbreviation retry := (retry_timer (W := W)).
Abbreviation request := (request_timer (W := W)).

Abbreviation after_peer_fail := (peer_fail_auth ac cc magic others anything).
Abbreviation after_withpeer_fail := (withpeer_fail_auth ac cc magic others anything).
Abbreviation after_auth_done := (auth_done_auth ac cc magic others anything).

(** ** Predicates on PAP *)

(** The same PAP, with the same timers. *)
Definition same_pap w w' : Prop :=
  d_upap w' = d_upap w /\ pends retry w' = pends retry w /\ pends request w' = pends request w.

Class PapClosed (P : W -> Prop) : Prop := {
  pap_same w w' : same_pap w w' -> P w -> P w';
  pap_down w : P (upap_lowerdown w)
}.

Class PapStable (P : W -> Prop) : Prop := {
  pap_closed :: PapClosed P;
  pap_up w : P w -> P (upap_lowerup w);
  pap_authpeer w : P w -> P (upap_authpeer w);
  pap_authwithpeer user passwd w : P w -> P (upap_authwithpeer user passwd w)
}.

(** ** CHAP leaves PAP alone *)

Lemma same_pap_refl w : same_pap w w.
Proof. done. Qed.

Lemma same_pap_trans w1 w2 w3 : same_pap w1 w2 -> same_pap w2 w3 -> same_pap w1 w3.
Proof. intros (? & ? & ?) (? & ? & ?). split_and!; congruence. Qed.

Lemma same_pap_chap g w : same_pap w (on_chap g w).
Proof. done. Qed.

Lemma same_pap_arm t time w : t <> retry -> t <> request -> same_pap w (arm t time w).
Proof. intros ? ?. split; [done|]. split; by apply pends_arm_ne. Qed.

Lemma same_pap_disarm t w : t <> retry -> t <> request -> same_pap w (disarm t w).
Proof. intros ? ?. split; [done|]. split; by apply pends_disarm_ne. Qed.

Lemma same_pap_send n bs w : same_pap w (on_link (fun l => output n (link_store 0 bs l)) w).
Proof. split; [done|]. split; apply pends_send. Qed.

(** Follow the calls of a function of CHAP from the last to the first. *)
Ltac chap_calls :=
  repeat lazymatch goal with
  | |- same_pap ?w ?w => apply same_pap_refl
  | |- same_pap ?w (on_link link_fault ?w) => done
  | |- same_pap _ (match ?x with _ => _ end) => destruct x
  | |- same_pap _ (on_chap ?g ?w) => apply (same_pap_trans _ w); [|apply same_pap_chap]
  | |- same_pap _ (arm ?t ?n ?w) => apply (same_pap_trans _ w); [|by apply same_pap_arm]
  | |- same_pap _ (disarm ?t ?w) => apply (same_pap_trans _ w); [|by apply same_pap_disarm]
  | |- same_pap _ (on_link (fun l => output _ (link_store _ _ l)) ?w) =>
      apply (same_pap_trans _ w); [|apply same_pap_send]
  end.

Lemma send_challenge_pap w : same_pap w (ChapSendChallenge w).
Proof. unfold ChapSendChallenge. chap_calls. Qed.

Lemma start_challenge_pap s w : same_pap w (start_challenge cc s w).
Proof.
  unfold start_challenge. chap_calls. eapply same_pap_trans; [|apply send_challenge_pap].
  unfold ChapGenChallenge. chap_calls.
Qed.

Lemma send_response_pap w : same_pap w (ChapSendResponse w).
Proof. unfold ChapSendResponse. chap_calls. Qed.

Lemma chap_lowerdown_pap w : same_pap w (ChapLowerDown w).
Proof.
  unfold ChapLowerDown. set (w1 := match ch_serverstate _ with CHAPSS_INITIAL => _ | _ => _ end).
  assert (H1 : same_pap w w1) by (subst w1; chap_calls). clearbody w1.
  apply (same_pap_trans _ w1); [done|]. chap_calls; case_decide; chap_calls.
Qed.

Lemma chap_lowerup_pap w : same_pap w (ChapLowerUp cc w).
Proof.
  unfold ChapLowerUp. set (w1 := match ch_clientstate _ with CHAPCS_INITIAL => _ | _ => _ end).
  assert (H1 : same_pap w w1) by (subst w1; chap_calls). clearbody w1.
  apply (same_pap_trans _ w1); [done|]. case_match; try apply start_challenge_pap; chap_calls.
Qed.

Lemma chap_authpeer_pap name dig w : same_pap w (ChapAuthPeer cc name dig w).
Proof.
  unfold ChapAuthPeer. set (w1 := on_chap _ w). apply (same_pap_trans _ w1); [done|]. clearbody w1.
  case_match; try apply start_challenge_pap; chap_calls.
Qed.

Lemma chap_authwithpeer_pap name dig w : same_pap w (ChapAuthWithPeer name dig w).
Proof.
  unfold ChapAuthWithPeer. set (w1 := on_chap _ w). apply (same_pap_trans _ w1); [done|]. clearbody w1. chap_calls.
Qed.

Section Stable.
Context (P : W -> Prop).

Lemma pap_blind {HC : PapClosed P} w w' : same_auths w w' -> P w -> P w'.
Proof. intros (Hu & _ & Ht). apply pap_same. split; [done|]. split; apply Ht; [by left|by right; left]. Qed.

#[export] Instance pap_auth_closed {HC : PapClosed P} : AuthClosed others anything P.
Proof.
  apply (blind_closed ac cc magic others P); [apply pap_blind|]. intros w.
  eapply pap_same; [apply chap_lowerdown_pap|apply pap_down].
Qed.

Lemma pap_blind_stable {HP : PapStable P} : BlindStable cc P.
Proof.
  split; intros.
  - by apply pap_up.
  - by eapply pap_same; [apply chap_lowerup_pap|].
  - apply pap_down.
  - by eapply pap_same; [apply chap_lowerdown_pap|].
  - by apply pap_authpeer.
  - by apply pap_authwithpeer.
  - by eapply pap_same; [apply chap_authpeer_pap|].
  - by eapply pap_same; [apply chap_authwithpeer_pap|].
Qed.

Context {HC : PapClosed P}.

Lemma chap_input_pap p len w : P w -> P (ChapInput cc (HA := events) p len w).
Proof.
  intros Hw. unfold ChapInput. destruct (chap_header p len) as [[[[code pid] n] inp]| |];
    [|done|by refine (pap_same w _ _ Hw)].
  destruct (code =? CHAP_CHALLENGE); [|destruct (code =? CHAP_RESPONSE); [|destruct (code =? CHAP_FAILURE);
    [|destruct (code =? CHAP_SUCCESS); [|done]]]].
  - unfold ChapReceiveChallenge. case_match; try done.
    all: destruct (parse_value inp n) as [[chal name]| |]; [|done|by refine (pap_same w _ _ Hw)].
    all: eapply pap_same, Hw; unfold answer_challenge; set (w1 := if decide _ then _ else w);
      assert (H1 : same_pap w w1) by (subst w1; case_decide; chap_calls); clearbody w1;
      apply (same_pap_trans _ w1); [done|]; destruct (_ =? _); [|done];
      eapply same_pap_trans; [|apply send_response_pap]; done.
  - unfold ChapReceiveResponse, ChapSendStatus. case_match; try done; (destruct (negb _); [done|]);
      try exact (pap_same w _ (same_pap_send _ _ w) Hw).
    all: destruct (parse_value inp n) as [[remmd name]| |]; [|done|by refine (pap_same w _ _ Hw)].
    all: unfold judge_response; rewrite check_response_fails; apply (after_peer_fail P);
      eapply pap_same, Hw; unfold ChapSendStatus; chap_calls.
  - unfold ChapReceiveFailure. case_match; try done. apply (after_withpeer_fail P).
    refine (pap_same w _ _ Hw). by apply same_pap_disarm.
  - unfold ChapReceiveSuccess. case_match; try done. apply (after_auth_done P).
    eapply pap_same, Hw. chap_calls.
Qed.

Lemma chap_event_pap w w' : chap_event cfg ac cc magic others w w' -> P w -> P w'.
Proof.
  intros [buf len p (_ & _ & ->)| | |] Hw.
  - by apply chap_input_pap.
  - assert (H1 : P (disarm (challenge_timer (W := W)) w)) by (eapply pap_same, Hw; by apply same_pap_disarm).
    set (w1 := disarm _ w) in *. clearbody w1. unfold ChapChallengeTimeout.
    case_match; try done; (destruct (_ <=? _); [|eapply pap_same, H1; apply send_challenge_pap]).
    all: apply (after_peer_fail P); by refine (pap_same w1 _ _ H1).
  - eapply pap_same, Hw. set (w1 := disarm _ w).
    apply (same_pap_trans _ w1); [by apply same_pap_disarm|]. clearbody w1. unfold ChapResponseTimeout.
    case_match; try done. apply send_response_pap.
  - eapply pap_same, Hw. set (w1 := disarm _ w).
    apply (same_pap_trans _ w1); [by apply same_pap_disarm|]. clearbody w1. unfold ChapRechallenge.
    case_match; try done. apply start_challenge_pap.
Qed.

(** Every step keeps the predicate, but for the events of PAP itself. *)
Lemma daemon_step_pap {HP : PapStable P} w w' :
  daemon_step cfg ac cc magic others w w' -> P w -> P w' \/ pap_event cfg ac cc magic others w w'.
Proof.
  intros Hd Hw. destruct (daemon_step_auth cfg ac cc magic others P pap_blind w w' pap_blind_stable Hd Hw) as [?|[?|?]]; [by left|by right|].
  left. by eapply chap_event_pap.
Qed.
End Stable.

(** ** Who opens the server side of PAP *)

Definition shut w : Prop := us_serverstate (d_upap w) <> UPAPSS_OPEN.

#[local] Instance shut_stable : PapStable shut.
Proof.
  split; [split|..].
  - intros w w' (Hu & _). unfold shut. by rewrite Hu.
  - done.
  - intros [f l s u h a x]. unfold shut, upap_lowerup, upap_listen. simpl. intros Hs.
    destruct (us_clientstate u); simpl; destruct (us_serverstate u) eqn:Es; simpl; rewrite ?Es;
      try done; by destruct (0 <? _).
  - intros w Hs. unfold upap_authpeer, upap_listen. case_match; try done; by destruct (0 <? _).
  - intros user passwd w Hs. unfold upap_authwithpeer. case_match; exact Hs.
Qed.

Lemma upap_refused_shut pid ruser rpasswd w :
  check_passwd_pap ac ruser rpasswd <> UPAP_AUTHACK -> shut (upap_verdict (HA := events) pid ruser rpasswd w).
Proof.
  intros Hk. unfold upap_verdict. cbn [check_passwd auth_events]. rewrite (proj2 (Z.eqb_neq _ _) Hk).
  set (w1 := upap_sresp _ _ _ _ w). set (w2 := on_upap (set_serverstate UPAPSS_BADAUTH) w1).
  assert (H2 : shut w2) by done. clearbody w2.
  change (auth_peer_fail PPP_PAP w2) with (ev_peer_fail ac cc magic others PPP_PAP w2).
  pose proof (after_peer_fail shut PPP_PAP w2 H2) as H3.
  set (w3 := ev_peer_fail ac cc magic others PPP_PAP w2) in *. clearbody w3. by destruct (0 <? _).
Qed.

Lemma upap_input_opens p len w :
  shut w -> ~ shut (upap_input (HA := events) p len w) ->
  exists pid n inp ruser rpasswd,
    upap_header p len = Good (UPAP_AUTHREQ, pid, n, inp) /\
    us_serverstate (d_upap w) = UPAPSS_LISTEN /\
    parse_authreq inp n = Good (ruser, rpasswd) /\
    check_passwd_pap ac ruser rpasswd = UPAP_AUTHACK.
Proof.
  intros Hs Hn. unfold upap_input in Hn. destruct (upap_header p len) as [[[[code pid] n] inp]| |]; [|done..].
  destruct (Z.eqb_spec code UPAP_AUTHREQ) as [->|]; [|destruct Hn; destruct (code =? UPAP_AUTHACK);
    [|destruct (code =? UPAP_AUTHNAK); [|exact Hs]]].
  - unfold upap_rauthreq in Hn. destruct (us_serverstate (w_upap w)) eqn:Es; try done.
    destruct (parse_authreq inp n) as [[ruser rpasswd]| |] eqn:Ep; [|done..].
    exists pid, n, inp, ruser, rpasswd. split_and!; try done.
    destruct (Z.eqb_spec (check_passwd_pap ac ruser rpasswd) UPAP_AUTHACK) as [|Hk]; [done|].
    destruct Hn. by apply upap_refused_shut.
  - unfold upap_rauthack. case_match; try exact Hs. destruct (parse_message inp n); [|exact Hs..].
    by apply (after_auth_done shut), (forget_passwd_auth others anything shut).
  - unfold upap_rauthnak. case_match; try exact Hs. destruct (parse_message inp n); [|exact Hs..].
    by apply (after_withpeer_fail shut).
Qed.

(** C27: the peer is authenticated by its password only.  The one step of the
    daemon that takes the server side of PAP to OPEN is the arrival of an
    Authenticate-Request, on an open link and while PAP waits for one, whose
    user and password the check accepts. *)
Theorem daemon_peer_needs_accept w w' :
  daemon_step cfg ac cc magic others w w' ->
  us_serverstate (d_upap w) <> UPAPSS_OPEN -> us_serverstate (d_upap w') = UPAPSS_OPEN ->
  exists buf len p pid n inp ruser rpasswd,
    w' = get_input cfg ac cc magic others buf len w /\
    state (d_fsm w) = OPENED /\ us_serverstate (d_upap w) = UPAPSS_LISTEN /\
    GETSHORT (drop 2 buf) = Some (PPP_PAP, p) /\
    upap_header p (len - PPP_HDRLEN) = Good (UPAP_AUTHREQ, pid, n, inp) /\
    parse_authreq inp n = Good (ruser, rpasswd) /\
    check_passwd_pap ac ruser rpasswd = UPAP_AUTHACK.
Proof.
  intros Hd Hs Ho. assert (Hn : ~ shut w') by (intros Hn; by apply Hn).
  destruct (daemon_step_pap shut w w' Hd Hs) as [|Hev]; [done|].
  destruct Hev as [buf len p (Hst & Hg & He)| |].
  - rewrite He in Hn. destruct (upap_input_opens p (len - PPP_HDRLEN) w Hs Hn) as (pid & n & inp & ruser & rpasswd & ? & ? & ? & ?).
    by exists buf, len, p, pid, n, inp, ruser, rpasswd.
  - destruct Hn. unfold upap_timeout. case_match; try exact Hs. destruct (_ <=? _); [|exact Hs].
    by apply (after_withpeer_fail shut).
  - destruct Hn. unfold upap_reqtimeout. by case_match.
Qed.

(** ** PAP and its timers *)

Definition client_timed w : Prop :=
  us_clientstate (d_upap w) = UPAPCS_AUTHREQ -> (0 < pends retry w)%nat.
Definition server_timed w : Prop :=
  us_serverstate (d_upap w) = UPAPSS_LISTEN -> 0 < us_reqtimeout (d_upap w) -> (0 < pends request w)%nat.

(** A request sets the retry timer and touches nothing of the server side. *)
Lemma sauthreq_timers w :
  pends retry (upap_sauthreq w) = S (pends retry w) /\
  pends request (upap_sauthreq w) = pends request w /\
  us_serverstate (d_upap (upap_sauthreq w)) = us_serverstate (d_upap w) /\
  us_reqtimeout (d_upap (upap_sauthreq w)) = us_reqtimeout (d_upap w).
Proof.
  unfold upap_sauthreq. set (w1 := on_upap _ w). set (w2 := on_link _ w1).
  change (pends ?t (on_upap ?g ?x)) with (pends t x).
  rewrite pends_arm pends_arm_ne // !pends_send. done.
Qed.

Lemma listen_timers w :
  server_timed (upap_listen w) /\ pends retry (upap_listen w) = pends retry w /\
  us_clientstate (d_upap (upap_listen w)) = us_clientstate (d_upap w).
Proof.
  unfold upap_listen, server_timed. set (w1 := on_upap _ w).
  assert (H1 : pends retry w1 = pends retry w /\ us_clientstate (d_upap w1) = us_clientstate (d_upap w)) by done.
  clearbody w1. destruct H1 as [<- <-]. destruct (Z.ltb_spec 0 (us_reqtimeout (w_upap w1))) as [Hr|Hr].
  - rewrite pends_arm pends_arm_ne //. split; [lia|done].
  - split; [|done]. intros _ Hp. change (us_reqtimeout (w_upap w1) <= 0) in Hr. simpl in *. lia.
Qed.

Lemma lowerup_timers w :
  (client_timed w -> client_timed (upap_lowerup w)) /\ (server_timed w -> server_timed (upap_lowerup w)).
Proof.
  unfold upap_lowerup. set (w1 := match us_clientstate _ with UPAPCS_INITIAL => _ | _ => _ end).
  assert (H1 : (client_timed w -> client_timed w1) /\ (server_timed w -> server_timed w1)).
  { subst w1. destruct (us_clientstate (w_upap w)) eqn:Ec; try done.
    destruct (sauthreq_timers w) as (E1 & E2 & E3 & E4). unfold client_timed, server_timed.
    rewrite E1 E2 E3 E4. split; [lia|done]. }
  clearbody w1. destruct H1 as [Hc Hs].
  destruct (us_serverstate (w_upap w1)) eqn:Es; try done.
  destruct (listen_timers w1) as (Hl & E1 & E2). split; [|done].
  intros H. unfold client_timed. rewrite E1 E2. by apply Hc.
Qed.

Lemma authpeer_timers w :
  (client_timed w -> client_timed (upap_authpeer w)) /\ (server_timed w -> server_timed (upap_authpeer w)).
Proof.
  unfold upap_authpeer. destruct (listen_timers w) as (Hl & E1 & E2).
  assert (Hc : client_timed w -> client_timed (upap_listen w)) by (unfold client_timed; by rewrite E1 E2).
  by destruct (us_serverstate (w_upap w)) eqn:Es.
Qed.

Lemma authwithpeer_timers user passwd w :
  client_timed (upap_authwithpeer user passwd w) /\
  (server_timed w -> server_timed (upap_authwithpeer user passwd w)).
Proof.
  unfold upap_authwithpeer. set (w1 := on_upap _ w).
  assert (H1 : server_timed w -> server_timed w1) by done. clearbody w1.
  destruct (sauthreq_timers w1) as (E1 & E2 & E3 & E4).
  assert (H2 : client_timed (upap_sauthreq w1) /\ (server_timed w -> server_timed (upap_sauthreq w1))).
  { unfold client_timed, server_timed in *. rewrite E1 E2 E3 E4. split; [lia|done]. }
  by destruct (us_clientstate (w_upap w1)).
Qed.

#[local] Instance client_stable : PapStable client_timed.
Proof.
  split; [split|..]; try done.
  - intros w w' (Hu & Hr & _). unfold client_timed. by rewrite Hu Hr.
  - intros w. apply lowerup_timers.
  - intros w. apply authpeer_timers.
  - intros user passwd w _. apply authwithpeer_timers.
Qed.

#[local] Instance server_stable : PapStable server_timed.
Proof.
  split; [split|..]; try done.
  - intros w w' (Hu & _ & Hr). unfold server_timed. by rewrite Hu Hr.
  - intros w. apply lowerup_timers.
  - intros w. apply authpeer_timers.
  - intros user passwd w. apply authwithpeer_timers.
Qed.

(** The server does not listen: kept by everything but opening the link. *)
Definition deaf w : Prop := us_serverstate (d_upap w) <> UPAPSS_LISTEN.

#[local] Instance deaf_closed : PapClosed deaf.
Proof. split; [|done]. intros w w' (Hu & _). unfold deaf. by rewrite Hu. Qed.

Lemma deaf_timed w : deaf w -> server_timed w.
Proof. by intros Hd Hl. Qed.

Lemma verdict_timed pid ruser rpasswd w :
  client_timed w ->
  client_timed (upap_verdict (HA := events) pid ruser rpasswd w) /\
  server_timed (upap_verdict (HA := events) pid ruser rpasswd w).
Proof.
  intros Hc. unfold upap_verdict, upap_sresp. set (w1 := on_link _ w).
  assert (Hc1 : client_timed w1) by (unfold client_timed; rewrite pends_send; exact Hc). clearbody w1.
  set (w2 := if _ =? UPAP_AUTHACK then _ else _).
  assert (H2 : client_timed w2 /\ deaf w2).
  { subst w2. destruct (_ =? UPAP_AUTHACK).
    - set (w3 := on_upap _ w1). assert (H3 : client_timed w3 /\ deaf w3) by done. clearbody w3.
      destruct H3 as [? ?].
      split; by apply (after_auth_done _ PAP_PEER (on_auth (set_peer_authname _) w3)).
    - set (w3 := on_upap _ w1). assert (H3 : client_timed w3 /\ deaf w3) by done. clearbody w3.
      destruct H3 as [Hc3 Hd3].
      exact (conj (after_peer_fail client_timed PPP_PAP w3 Hc3) (after_peer_fail deaf PPP_PAP w3 Hd3)). }
  clearbody w2. destruct H2 as [Hc2 Hd2]. destruct (0 <? _).
  - split; [|by apply deaf_timed]. unfold client_timed. rewrite pends_disarm_ne //.
  - split; [done|by apply deaf_timed].
Qed.

Lemma upap_input_timed p len w :
  client_timed w -> server_timed w ->
  client_timed (upap_input (HA := events) p len w) /\ server_timed (upap_input (HA := events) p len w).
Proof.
  intros Hc Hs. assert (Hr : forall code pid msg n,
    client_timed (upap_sresp code pid msg n w) /\ server_timed (upap_sresp code pid msg n w)).
  { intros. unfold client_timed, server_timed, upap_sresp. by rewrite !pends_send. }
  unfold upap_input. destruct (upap_header p len) as [[[[code pid] n] inp]| |]; [|by split..].
  destruct (code =? UPAP_AUTHREQ); [|destruct (code =? UPAP_AUTHACK); [|destruct (code =? UPAP_AUTHNAK);
    [|by split]]].
  - unfold upap_rauthreq. case_match; try (by split); try apply Hr.
    destruct (parse_authreq inp n) as [[ruser rpasswd]| |]; [|by split..]. by apply verdict_timed.
  - unfold upap_rauthack. case_match; try (by split). destruct (parse_message inp n); [|by split..].
    split; [by apply (after_auth_done client_timed), (forget_passwd_auth others anything client_timed)|
            by apply (after_auth_done server_timed), (forget_passwd_auth others anything server_timed)].
  - unfold upap_rauthnak. case_match; try (by split). destruct (parse_message inp n); [|by split..].
    split; [by apply (after_withpeer_fail client_timed)|by apply (after_withpeer_fail server_timed)].
Qed.

Lemma upap_timeout_timed w :
  server_timed w ->
  client_timed (upap_timeout (HA := events) (disarm retry w)) /\
  server_timed (upap_timeout (HA := events) (disarm retry w)).
Proof.
  intros Hs. assert (Hs1 : server_timed (disarm retry w)).
  { unfold server_timed. rewrite pends_disarm_ne //. }
  set (w1 := disarm retry w) in *. clearbody w1. unfold upap_timeout.
  destruct (us_clientstate (w_upap w1)) eqn:Ec; try by split; [intros Ha; simpl in *; congruence|].
  destruct (_ <=? _); [split; [by apply (after_withpeer_fail client_timed)|by apply (after_withpeer_fail server_timed)]|].
  destruct (sauthreq_timers w1) as (E1 & E2 & E3 & E4). unfold client_timed, server_timed in *.
  rewrite E1 E2 E3 E4. split; [lia|done].
Qed.

Lemma upap_reqtimeout_timed w :
  client_timed w ->
  client_timed (upap_reqtimeout (HA := events) (disarm request w)) /\
  server_timed (upap_reqtimeout (HA := events) (disarm request w)).
Proof.
  intros Hc. assert (Hc1 : client_timed (disarm request w)).
  { unfold client_timed. rewrite pends_disarm_ne //. }
  set (w1 := disarm request w) in *. clearbody w1. unfold upap_reqtimeout.
  destruct (us_serverstate (w_upap w1)) eqn:Es; try by split; [|intros Ha; simpl in *; congruence].
  split; [|done]. pose proof (after_peer_fail client_timed PPP_PAP w1 Hc1) as H2.
  change (auth_peer_fail PPP_PAP w1) with (ev_peer_fail ac cc magic others PPP_PAP w1).
  set (w2 := ev_peer_fail ac cc magic others PPP_PAP w1) in *. clearbody w2. done.
Qed.

End Pap.
