(* ===== verification/DaemonChap.v ===== *)
(** * The daemon: CHAP in the company of the rest

    CHAP never waits for the peer without a timer.  Two weaknesses of the
    client: it repeats an unanswered Response for ever, and a Success that
    answers a later challenge starts the network phase over again. *)

From S2P Require Import Prelude Wire Callout Fsm FsmSpec FsmGate.
From S2P Require Import LcpOptions LcpReqci Lcp LcpSpec Upap Chap Auth AuthSpec DaemonGuard DaemonSpec DaemonAuth.

Section Chap.
Context {X : Type}.
Abbreviation W := (daemon X).
Implicit Types w : W.
Context (cfg : lcp_config) (ac : auth_config) (cc : chap_config) (magic : nat -> Z).
Context (others : list (protent W)) {HR : NetRest X} {HN : NetLaws ac cc magic others}.

Abbreviation events := (auth_events ac cc magic others).
Abbreviation challenging := (challenge_timer (W := W)).
Abbreviation responding := (response_timer (W := W)).
Abbreviation rechallenging := (rechallenge_timer (W := W)).
Abbreviation after_peer_fail := (peer_fail_auth ac cc magic others anything).
Abbreviation after_withpeer_fail := (withpeer_fail_auth ac cc magic others anything).
Abbreviation after_auth_done := (auth_done_auth ac cc magic others anything).

(** ** Predicates on CHAP *)

Definition chap_timer (t : timer) : Prop := t = challenging \/ t = responding \/ t = rechallenging.

(** The same CHAP, with the same timers. *)
Definition same_chap w w' : Prop :=
  d_chap w' = d_chap w /\ forall t, chap_timer t -> pends t w' = pends t w.

Class ChapClosed (P : W -> Prop) : Prop := {
  chap_same w w' : same_chap w w' -> P w -> P w';
  chap_down w : P (ChapLowerDown w)
}.

Class ChapStable (P : W -> Prop) : Prop := {
  chap_closed :: ChapClosed P;
  chap_up w : P w -> P (ChapLowerUp cc w);
  chap_authpeer name dig w : P w -> P (ChapAuthPeer cc name dig w);
  chap_authwithpeer name dig w : P w -> P (ChapAuthWithPeer name dig w)
}.

(** ** PAP leaves CHAP alone *)

Lemma same_chap_refl w : same_chap w w.
Proof. done. Qed.

Lemma same_chap_trans w1 w2 w3 : same_chap w1 w2 -> same_chap w2 w3 -> same_chap w1 w3.
Proof. intros (E1 & H1) (E2 & H2). split; [congruence|]. intros t Ht. by rewrite H2 // H1. Qed.

Lemma same_chap_upap g w : same_chap w (on_upap g w).
Proof. done. Qed.

Lemma same_chap_auth g w : same_chap w (on_auth g w).
Proof. done. Qed.

Lemma same_chap_arm t time w : ~ chap_timer t -> same_chap w (arm t time w).
Proof. intros Hn. split; [done|]. intros t' Ht. apply pends_arm_ne. by intros ->. Qed.

Lemma same_chap_disarm t w : ~ chap_timer t -> same_chap w (disarm t w).
Proof. intros Hn. split; [done|]. intros t' Ht. apply pends_disarm_ne. by intros ->. Qed.

Lemma same_chap_send n bs w : same_chap w (on_link (fun l => output n (link_store 0 bs l)) w).
Proof. split; [done|]. intros t _. apply pends_send. Qed.

Lemma retry_not_chap : ~ chap_timer (retry_timer (W := W)).
Proof. by intros [?|[?|?]]. Qed.
Lemma request_not_chap : ~ chap_timer (request_timer (W := W)).
Proof. by intros [?|[?|?]]. Qed.

(** Follow the calls of a function of PAP from the last to the first. *)
Ltac pap_calls :=
  repeat lazymatch goal with
  | |- same_chap ?w ?w => apply same_chap_refl
  | |- same_chap ?w (on_link link_fault ?w) => done
  | |- same_chap _ (match ?x with _ => _ end) => destruct x
  | |- same_chap _ (on_upap ?g ?w) => apply (same_chap_trans _ w); [|apply same_chap_upap]
  | |- same_chap _ (on_auth ?g ?w) => apply (same_chap_trans _ w); [|apply same_chap_auth]
  | |- same_chap _ (arm ?t ?n ?w) =>
      apply (same_chap_trans _ w); [|apply same_chap_arm; first [apply retry_not_chap|apply request_not_chap]]
  | |- same_chap _ (disarm ?t ?w) =>
      apply (same_chap_trans _ w); [|apply same_chap_disarm; first [apply retry_not_chap|apply request_not_chap]]
  | |- same_chap _ (on_link (fun l => output _ (link_store _ _ l)) ?w) =>
      apply (same_chap_trans _ w); [|apply same_chap_send]
  end.

Lemma sauthreq_chap w : same_chap w (upap_sauthreq w).
Proof. unfold upap_sauthreq. pap_calls. Qed.

Lemma listen_chap w : same_chap w (upap_listen w).
Proof. unfold upap_listen. pap_calls. Qed.

Lemma upap_lowerup_chap w : same_chap w (upap_lowerup w).
Proof.
  unfold upap_lowerup. set (w1 := match us_clientstate _ with UPAPCS_INITIAL => _ | _ => _ end).
  assert (H1 : same_chap w w1) by (subst w1; case_match; try apply sauthreq_chap; pap_calls). clearbody w1.
  apply (same_chap_trans _ w1); [done|]. case_match; try apply listen_chap; pap_calls.
Qed.

Lemma upap_lowerdown_chap w : same_chap w (upap_lowerdown w).
Proof.
  unfold upap_lowerdown. set (w1 := if decide (_ = UPAPCS_AUTHREQ) then _ else _).
  assert (H1 : same_chap w w1) by (subst w1; case_decide; pap_calls). clearbody w1.
  apply (same_chap_trans _ w1); [done|]. pap_calls; case_decide; pap_calls.
Qed.

Lemma upap_authpeer_chap w : same_chap w (upap_authpeer w).
Proof. unfold upap_authpeer. case_match; try apply listen_chap; pap_calls. Qed.

Lemma upap_authwithpeer_chap user passwd w : same_chap w (upap_authwithpeer user passwd w).
Proof.
  unfold upap_authwithpeer. set (w1 := on_upap _ w). apply (same_chap_trans _ w1); [done|]. clearbody w1.
  case_match; try apply sauthreq_chap; pap_calls.
Qed.

Section Stable.
Context (P : W -> Prop).

Lemma chap_blind {HC : ChapClosed P} w w' : same_auths w w' -> P w -> P w'.
Proof. intros (_ & Hc & Ht). apply chap_same. split; [done|]. intros t Hx. apply Ht. by right; right. Qed.

#[export] Instance chap_auth_closed {HC : ChapClosed P} : AuthClosed others anything P.
Proof. apply (blind_closed ac cc magic others P); [apply chap_blind|]. intros w. apply chap_down. Qed.

Lemma chap_blind_stable {HP : ChapStable P} : BlindStable cc P.
Proof.
  split; intros.
  - by eapply chap_same; [apply upap_lowerup_chap|].
  - by apply chap_up.
  - by eapply chap_same; [apply upap_lowerdown_chap|].
  - apply chap_down.
  - by eapply chap_same; [apply upap_authpeer_chap|].
  - by eapply chap_same; [apply upap_authwithpeer_chap|].
  - by apply chap_authpeer.
  - by apply chap_authwithpeer.
Qed.

Context {HC : ChapClosed P}.

Lemma upap_input_chap p len w : P w -> P (upap_input (HA := events) p len w).
Proof.
  intros Hw. unfold upap_input. destruct (upap_header p len) as [[[[code pid] n] inp]| |];
    [|done|by refine (chap_same w _ _ Hw)].
  destruct (code =? UPAP_AUTHREQ); [|destruct (code =? UPAP_AUTHACK); [|destruct (code =? UPAP_AUTHNAK); [|done]]].
  - unfold upap_rauthreq. case_match; try done; try exact (chap_same w _ (same_chap_send _ _ w) Hw).
    destruct (parse_authreq inp n) as [[ruser rpasswd]| |]; [|done|by refine (chap_same w _ _ Hw)].
    unfold upap_verdict, upap_sresp. set (w1 := on_link _ w).
    assert (H1 : P w1) by exact (chap_same w _ (same_chap_send _ _ w) Hw). clearbody w1.
    set (w2 := if _ =? UPAP_AUTHACK then _ else _). assert (H2 : P w2).
    { subst w2. destruct (_ =? UPAP_AUTHACK).
      - by apply (after_auth_done P PAP_PEER), (chap_same w1).
      - by apply (after_peer_fail P PPP_PAP), (chap_same w1). }
    clearbody w2. refine (chap_same w2 _ _ H2). pap_calls.
  - unfold upap_rauthack. case_match; try done.
    destruct (parse_message inp n); [|done|by refine (chap_same w _ _ Hw)].
    by apply (after_auth_done P PAP_WITHPEER), (forget_passwd_auth others anything P), (chap_same w).
  - unfold upap_rauthnak. case_match; try done.
    destruct (parse_message inp n); [|done|by refine (chap_same w _ _ Hw)].
    by apply (after_withpeer_fail P PPP_PAP), (chap_same w).
Qed.

Lemma pap_event_chap w w' : pap_event cfg ac cc magic others w w' -> P w -> P w'.
Proof.
  intros [buf len p (_ & _ & ->)| |] Hw.
  - by apply upap_input_chap.
  - assert (H1 : P (disarm (retry_timer (W := W)) w)) by (eapply chap_same, Hw; pap_calls).
    set (w1 := disarm _ w) in *. clearbody w1. unfold upap_timeout. case_match; try done.
    destruct (_ <=? _); [by apply (after_withpeer_fail P PPP_PAP), (chap_same w1)|].
    exact (chap_same w1 _ (sauthreq_chap w1) H1).
  - assert (H1 : P (disarm (request_timer (W := W)) w)) by (eapply chap_same, Hw; pap_calls).
    set (w1 := disarm _ w) in *. clearbody w1. unfold upap_reqtimeout. case_match; try done.
    pose proof (after_peer_fail P PPP_PAP w1 H1) as H2.
    change (auth_peer_fail PPP_PAP w1) with (ev_peer_fail ac cc magic others PPP_PAP w1).
    set (w2 := ev_peer_fail _ _ _ _ _ _) in *. clearbody w2. by refine (chap_same w2 _ _ H2).
Qed.

(** Every step keeps the predicate, but for the events of CHAP itself. *)
Lemma daemon_step_chap {HP : ChapStable P} w w' :
  daemon_step cfg ac cc magic others w w' -> P w -> P w' \/ chap_event cfg ac cc magic others w w'.
Proof.
  intros Hd Hw. destruct (daemon_step_auth cfg ac cc magic others P chap_blind w w' chap_blind_stable Hd Hw) as [?|[?|?]]; [by left| |by right].
  left. by eapply pap_event_chap.
Qed.
End Stable.

(** ** CHAP and its timers *)

Definition response_timed w : Prop :=
  ch_clientstate (d_chap w) = CHAPCS_RESPONSE ->
  (0 < pends responding w)%nat /\ resp_type (d_chap w) = CHAP_DIGEST_MD5.
Definition challenge_timed w : Prop :=
  ch_serverstate (d_chap w) = CHAPSS_INITIAL_CHAL \/ ch_serverstate (d_chap w) = CHAPSS_RECHALLENGE ->
  (0 < pends challenging w)%nat.

(** The client side of CHAP as [response_timed] sees it, and the server side. *)
Definition same_client w w' : Prop :=
  ch_clientstate (d_chap w') = ch_clientstate (d_chap w) /\ resp_type (d_chap w') = resp_type (d_chap w) /\
  pends responding w' = pends responding w.
Definition same_server w w' : Prop :=
  ch_serverstate (d_chap w') = ch_serverstate (d_chap w) /\ pends challenging w' = pends challenging w.

Lemma same_client_timed w w' : same_client w w' -> response_timed w -> response_timed w'.
Proof. intros (E1 & E2 & E3). unfold response_timed. by rewrite E1 E2 E3. Qed.

Lemma same_server_timed w w' : same_server w w' -> challenge_timed w -> challenge_timed w'.
Proof. intros (E1 & E2). unfold challenge_timed. by rewrite E1 E2. Qed.

Lemma send_challenge_timers w :
  pends challenging (ChapSendChallenge w) = S (pends challenging w) /\ same_client w (ChapSendChallenge w).
Proof.
  unfold ChapSendChallenge, same_client. change (pends ?t (on_chap ?g ?x)) with (pends t x).
  rewrite pends_arm pends_arm_ne // !pends_send. done.
Qed.

Lemma gen_challenge_client w : same_client w (ChapGenChallenge cc w).
Proof.
  unfold ChapGenChallenge. set (n := draw_length _). clearbody n. set (bs := map _ _). clearbody bs.
  destruct (store _ _ bs) as [buf|]; [|done]. set (k := (_ + _)%nat). by clearbody k.
Qed.

Lemma set_server_timers s w : (0 < pends challenging w)%nat ->
  challenge_timed (on_chap (set_ch_server s) w) /\ same_client w (on_chap (set_ch_server s) w).
Proof. intros Hp. split; [by intros _|done]. Qed.

Lemma same_client_trans w1 w2 w3 : same_client w1 w2 -> same_client w2 w3 -> same_client w1 w3.
Proof. intros (? & ? & ?) (? & ? & ?). split_and!; congruence. Qed.

Lemma start_challenge_timers s w :
  challenge_timed (start_challenge cc s w) /\ same_client w (start_challenge cc s w).
Proof.
  destruct (send_challenge_timers (ChapGenChallenge cc w)) as [E Hs].
  destruct (set_server_timers s (ChapSendChallenge (ChapGenChallenge cc w))) as [Hc Ht]; [rewrite E; lia|].
  split; [exact Hc|].
  exact (same_client_trans _ _ _ (gen_challenge_client w) (same_client_trans _ _ _ Hs Ht)).
Qed.

Lemma send_response_timers w : resp_type (d_chap w) = CHAP_DIGEST_MD5 ->
  response_timed (ChapSendResponse w) /\ same_server w (ChapSendResponse w).
Proof.
  intros Ht. unfold ChapSendResponse, response_timed, same_server.
  change (pends ?t (on_chap ?g ?x)) with (pends t x).
  rewrite pends_arm pends_arm_ne //. change (pends ?t (on_chap ?g ?x)) with (pends t x).
  rewrite !pends_send. split; [|done]. intros _. split; [lia|done].
Qed.

#[local] Instance response_stable : ChapStable response_timed.
Proof.
  split; [split|..].
  - intros w w' (E & Ht). apply same_client_timed. split_and!; [by rewrite E..|]. apply Ht. by right; left.
  - done.
  - intros w Hw. unfold ChapLowerUp. set (w1 := match ch_clientstate _ with CHAPCS_INITIAL => _ | _ => _ end).
    assert (H1 : response_timed w1) by (subst w1; by destruct (ch_clientstate (w_chap w))). clearbody w1.
    case_match; try done. eapply same_client_timed; [apply start_challenge_timers|done].
  - intros name dig w Hw. unfold ChapAuthPeer. set (w1 := on_chap _ w).
    assert (H1 : response_timed w1) by done. clearbody w1.
    case_match; try done; (eapply same_client_timed; [apply start_challenge_timers|done]).
  - intros name dig w _. unfold ChapAuthWithPeer. by case_match.
Qed.

#[local] Instance challenge_stable : ChapStable challenge_timed.
Proof.
  split; [split|..].
  - intros w w' (E & Ht). apply same_server_timed. split; [by rewrite E|]. apply Ht. by left.
  - intros w [?|?]; done.
  - intros w Hw. unfold ChapLowerUp. set (w1 := match ch_clientstate _ with CHAPCS_INITIAL => _ | _ => _ end).
    assert (H1 : challenge_timed w1) by (subst w1; by destruct (ch_clientstate (w_chap w))). clearbody w1.
    case_match; try done; [by intros [?|?]|apply start_challenge_timers].
  - intros name dig w Hw. unfold ChapAuthPeer. set (w1 := on_chap _ w).
    assert (H1 : challenge_timed w1) by done. clearbody w1.
    destruct (ch_serverstate (w_chap w1)); first [apply start_challenge_timers|by intros [?|?]].
  - intros name dig w Hw. unfold ChapAuthWithPeer. by case_match.
Qed.

Definition timed w : Prop := response_timed w /\ challenge_timed w.

Lemma answer_timed pid chal name w : timed w -> timed (answer_challenge cc (HA := events) pid chal name w).
Proof.
  intros [Hr Hc]. unfold answer_challenge. set (w1 := if decide _ then _ else w).
  assert (H1 : d_chap w1 = d_chap w /\ same_server w w1 /\
    (ch_clientstate (d_chap w) <> CHAPCS_RESPONSE -> pends responding w1 = pends responding w)).
  { subst w1. case_decide; [|done]. split; [done|]. split; [|done]. split; [done|by apply pends_disarm_ne]. }
  clearbody w1. destruct H1 as (E & Hs & Hp). set (w2 := on_chap (fun c => set_resp_transmits 0 _) w1).
  destruct (Z.eqb_spec (resp_type (w_chap w2)) CHAP_DIGEST_MD5) as [Ht|Ht].
  - set (w3 := on_chap _ w2). destruct (send_response_timers w3) as [H1 H2]; [done|]. split; [done|].
    eapply same_server_timed; [exact H2|]. exact (same_server_timed _ _ Hs Hc).
  - change (resp_type (d_chap w1) <> CHAP_DIGEST_MD5) in Ht. rewrite E in Ht. split.
    + intros Hx. change (ch_clientstate (d_chap w1) = CHAPCS_RESPONSE) in Hx. rewrite E in Hx.
      by destruct (Hr Hx).
    + exact (same_server_timed _ _ Hs Hc).
Qed.

(** A failed link is told to CHAP; so is one that was up. *)
Lemma withpeer_fail_timed w : state (d_fsm w) = OPENED -> timed (ev_withpeer_fail ac cc magic others PPP_CHAP w).
Proof.
  intros Ho. assert (Hf : state (d_fsm (forget_passwd w)) = OPENED) by (unfold forget_passwd; by case_match).
  pose proof (close_opened_auth ac cc magic others anything response_timed
    (text "Failed to authenticate ourselves to peer") _ Hf I) as H1.
  pose proof (close_opened_auth ac cc magic others anything challenge_timed
    (text "Failed to authenticate ourselves to peer") _ Hf I) as H2.
  unfold ev_withpeer_fail. set (w1 := close_lcp _ _ _ _ _ _) in *. clearbody w1. done.
Qed.

Lemma peer_fail_timed prot w : timed w -> timed (ev_peer_fail ac cc magic others prot w).
Proof.
  intros [H1 H2].
  exact (conj (after_peer_fail response_timed prot w H1) (after_peer_fail challenge_timed prot w H2)).
Qed.

Lemma chap_input_timed p len w :
  state (d_fsm w) = OPENED -> timed w -> timed (ChapInput cc (HA := events) p len w).
Proof.
  intros Ho Hw. unfold ChapInput. destruct (chap_header p len) as [[[[code pid] n] inp]| |]; [|exact Hw..].
  destruct (code =? CHAP_CHALLENGE); [|destruct (code =? CHAP_RESPONSE); [|destruct (code =? CHAP_FAILURE);
    [|destruct (code =? CHAP_SUCCESS); [|exact Hw]]]].
  - unfold ChapReceiveChallenge. case_match; try exact Hw.
    all: destruct (parse_value inp n) as [[chal name]| |]; [by apply answer_timed|exact Hw..].
  - assert (Hst : forall code, timed (ChapSendStatus cc code w)).
    { intros. destruct Hw as [Hr Hc]. unfold timed, response_timed, challenge_timed, ChapSendStatus.
      by rewrite !pends_send. }
    unfold ChapReceiveResponse. case_match; try exact Hw; (destruct (negb _); [exact Hw|]); try apply Hst.
    all: destruct (parse_value inp n) as [[remmd name]| |]; [|exact Hw..].
    all: unfold judge_response; rewrite check_response_fails; apply (peer_fail_timed PPP_CHAP);
      split; [|by intros [?|?]]; destruct Hw as [Hr _]; unfold response_timed, ChapSendStatus;
      change (pends ?t (on_chap ?g ?x)) with (pends t x); rewrite pends_send pends_disarm_ne //.
  - unfold ChapReceiveFailure. case_match; try exact Hw. by apply withpeer_fail_timed.
  - unfold ChapReceiveSuccess. case_match; try exact Hw. destruct Hw as [Hr Hc].
    assert (H1 : timed (on_chap (set_ch_client CHAPCS_OPEN) (disarm responding w))).
    { split; [done|]. unfold challenge_timed. change (pends ?t (on_chap ?g ?x)) with (pends t x).
      by rewrite pends_disarm_ne. }
    set (w1 := on_chap _ _) in *. clearbody w1. destruct H1 as [H1 H2].
    exact (conj (after_auth_done response_timed CHAP_WITHPEER w1 H1) (after_auth_done challenge_timed CHAP_WITHPEER w1 H2)).
Qed.

Lemma chap_event_timed w w' : chap_event cfg ac cc magic others w w' -> timed w -> timed w'.
Proof.
  intros [buf len p (Ho & _ & ->)| | |] Hw.
  - by apply chap_input_timed.
  - destruct Hw as [Hr Hc]. set (w1 := disarm _ w).
    assert (H1 : response_timed w1) by (unfold response_timed, w1; by rewrite pends_disarm_ne). clearbody w1.
    unfold ChapChallengeTimeout. destruct (ch_serverstate (w_chap w1)) eqn:Es;
      try (split; [exact H1|intros [Hx|Hx]; simpl in *; congruence]).
    all: destruct (_ <=? _); [apply (peer_fail_timed PPP_CHAP); split; [exact H1|by intros [?|?]]|].
    all: destruct (send_challenge_timers w1) as [E Hs]; split; [exact (same_client_timed _ _ Hs H1)|intros _; lia].
  - destruct Hw as [Hr Hc]. set (w1 := disarm _ w).
    assert (H1 : challenge_timed w1) by (unfold challenge_timed, w1; by rewrite pends_disarm_ne).
    assert (Ht : ch_clientstate (d_chap w1) = CHAPCS_RESPONSE -> resp_type (d_chap w1) = CHAP_DIGEST_MD5).
    { intros Hx. by destruct (Hr Hx). }
    clearbody w1. unfold ChapResponseTimeout. destruct (ch_clientstate (w_chap w1)) eqn:Ec;
      try (split; [intros Hx; simpl in *; congruence|exact H1]).
    destruct (send_response_timers w1 (Ht Ec)) as [H2 Hs]. split; [done|exact (same_server_timed _ _ Hs H1)].
  - destruct Hw as [Hr Hc]. set (w1 := disarm _ w).
    assert (H1 : timed w1) by (unfold timed, response_timed, challenge_timed, w1; by rewrite !pends_disarm_ne).
    clearbody w1. unfold ChapRechallenge. case_match; try exact H1.
    destruct (start_challenge_timers CHAPSS_RECHALLENGE w1) as [H2 Hs]. destruct H1 as [H1 _].
    split; [exact (same_client_timed _ _ Hs H1)|done].
Qed.

(** CHAP never waits in vain.  Over every run of the daemon, a client that
    has sent a Response has its timer on the callout list and knows how to
    compute the next one, and a server that waits for the answer to its
    challenge has the timer that repeats it or gives the peer up. *)
Theorem daemon_chap_waits_timed w :
  daemon_reachable cfg ac cc magic others w -> response_timed w /\ challenge_timed w.
Proof.
  induction 1 as [w (_ & _ & [c Hc] & _)|w w' _ [Hr Hc] Hd].
  { unfold response_timed, challenge_timed. rewrite Hc. split; [done|by intros [?|?]]. }
  assert (Hev : chap_event cfg ac cc magic others w w' -> timed w') by (intros Hev; by apply (chap_event_timed w)).
  destruct (daemon_step_chap response_timed w w' Hd Hr) as [Hr'|?]; [|by apply Hev].
  destruct (daemon_step_chap challenge_timed w w' Hd Hc) as [Hc'|?]; [done|by apply Hev].
Qed.

(** ** The client does not give up *)

(** The response timer expires. *)
Definition response_expires w : W := ChapResponseTimeout (disarm responding w).

(** However often the timer expires without an answer, the client sends its
    Response once more and leaves the link as it is: nothing bounds
    [resp_transmits]. *)
Theorem chap_client_never_gives_up w k :
  ch_clientstate (d_chap w) = CHAPCS_RESPONSE ->
  let w' := Nat.iter k response_expires w in
  ch_clientstate (d_chap w') = CHAPCS_RESPONSE /\ d_fsm w' = d_fsm w /\ d_lcp w' = d_lcp w /\
  resp_transmits (d_chap w') = resp_transmits (d_chap w) + Z.of_nat k.
Proof.
  intros Hc w'. subst w'. induction k as [|k (E1 & E2 & E3 & E4)]; [simpl; split_and!; [done..|lia]|].
  rewrite Nat.iter_succ. set (w1 := Nat.iter k response_expires w) in *. clearbody w1.
  unfold response_expires, ChapResponseTimeout. change (w_chap (disarm responding w1)) with (d_chap w1).
  rewrite E1. unfold ChapSendResponse. cbn [d_chap d_fsm d_lcp on_chap put_chap daemon_chap w_chap arm disarm
    on_link put_link w_link lcp_fsm_world daemon_lcp daemon_fsm set_resp_transmits set_ch_client ch_clientstate
    resp_transmits]. rewrite E2 E3 E4. split_and!; [done..|lia].
Qed.
End Chap.
