(* ===== verification/DaemonNet.v ===== *)
(** * The daemon: the network protocols in the company of the rest

    LCP, PAP, CHAP and the limits on a connection leave the states of the network
    protocols and their timers alone but for the calls through the protocol
    table.  A predicate on the network protocols that the entries of the table
    keep is kept by every step of the daemon. *)

From S2P Require Import Prelude Wire Callout Fsm FsmSpec FsmGate.
From S2P Require Import LcpOptions LcpReqci Lcp LcpSpec Upap Chap Auth AuthSpec DaemonGuard DaemonSpec DaemonAuth.

Section DaemonNet.
Context {X : Type}.
Abbreviation W := (daemon X).
Implicit Types w : W.
Context (cfg : lcp_config) (ac : auth_config) (cc : chap_config) (magic : nat -> Z).
Context (others : list (protent W)) {HR : NetRest X}.

Abbreviation events := (auth_events ac cc magic others).
Abbreviation retry := (retry_timer (W := W)).
Abbreviation request := (request_timer (W := W)).
Abbreviation challenging := (challenge_timer (W := W)).
Abbreviation responding := (response_timer (W := W)).
Abbreviation rechallenging := (rechallenge_timer (W := W)).

(** The timers that are not a network protocol's. *)
Definition daemon_timer (t : timer) : Prop := own_timer (X := X) t \/ auth_timer (X := X) t.

(** The same network protocols, with the same timers. *)
Definition net_frame w w' : Prop :=
  d_other w' = d_other w /\ forall t, ~ daemon_timer t -> pends t w' = pends t w.

(** What closing the link and the network phase keep. *)
Class NetClosed (P : W -> Prop) : Prop := {
  nc_frame w w' : net_frame w w' -> P w -> P w';
  nc_entry_down e w : In e others -> P w -> P (entry_down w (p_link e));
  nc_entry_open e w : In e others -> P w -> P (entry_open w (p_link e))
}.

(** What opening it and the packets of the network protocols keep as well. *)
Class NetStable (P : W -> Prop) : Prop := {
  ns_closed :: NetClosed P;
  ns_entry_up e w : In e others -> P w -> P (entry_up w (p_link e));
  ns_protrej e w : In e others -> P w -> P (p_protrej e w);
  ns_input e bs len w : In e others -> P w -> P (p_input e bs len w);
  ns_datainput e g bs len w : In e others -> p_datainput e = Some g -> P w -> P (g bs len w)
}.

Lemma same_parts_frame w w' : same_parts w w' -> net_frame w w'.
Proof. intros (_ & _ & Ho & Ht). split; [done|]. intros t Hn. apply Ht. intros ?. apply Hn. by left. Qed.

Lemma frame_arm t time w : daemon_timer t -> net_frame w (arm t time w).
Proof. intros Ht. split; [done|]. intros t' Ht'. apply pends_arm_ne. by intros ->. Qed.

Lemma frame_disarm t w : daemon_timer t -> net_frame w (disarm t w).
Proof. intros Ht. split; [done|]. intros t' Ht'. apply pends_disarm_ne. by intros ->. Qed.

Lemma frame_send n bs w : net_frame w (on_link (fun l => output n (link_store 0 bs l)) w).
Proof. split; [done|]. intros t _. apply pends_send. Qed.

Section Stable.
Context (P : W -> Prop) {HC : NetClosed P}.

Lemma net_upap g w : P w -> P (on_upap g w).
Proof. by apply nc_frame. Qed.
Lemma net_chap g w : P w -> P (on_chap g w).
Proof. by apply nc_frame. Qed.
Lemma net_auth g w : P w -> P (on_auth g w).
Proof. by apply nc_frame. Qed.
Lemma net_lcp g w : P w -> P (on_lcp g w).
Proof. by apply nc_frame. Qed.
Lemma net_fault w : P w -> P (on_link link_fault w).
Proof. by apply nc_frame. Qed.
Lemma net_send n bs w : P w -> P (on_link (fun l => output n (link_store 0 bs l)) w).
Proof. apply nc_frame, frame_send. Qed.
Lemma net_arm t time w : daemon_timer t -> P w -> P (arm t time w).
Proof. intros Ht. by apply nc_frame, frame_arm. Qed.
Lemma net_disarm t w : daemon_timer t -> P w -> P (disarm t w).
Proof. intros Ht. by apply nc_frame, frame_disarm. Qed.

Ltac daemon_timer := red; unfold own_timer, auth_timer; tauto.

(** Follow a chain of calls. *)
Ltac nets :=
  repeat first
    [ assumption
    | apply net_upap | apply net_chap | apply net_auth | apply net_lcp | apply net_fault | apply net_send
    | apply net_arm; [daemon_timer|] | apply net_disarm; [daemon_timer|]
    | match goal with |- P (match ?x with _ => _ end) => destruct x end ].

(** ** PAP and CHAP *)

Lemma net_sauthreq w : P w -> P (upap_sauthreq w).
Proof. intros. unfold upap_sauthreq. nets. Qed.

Lemma net_listen w : P w -> P (upap_listen w).
Proof. intros. unfold upap_listen. nets. Qed.

Lemma net_upap_lowerup w : P w -> P (upap_lowerup w).
Proof.
  intros. unfold upap_lowerup. set (w1 := match us_clientstate _ with UPAPCS_INITIAL => _ | _ => _ end).
  assert (P w1) by (subst w1; nets; by apply net_sauthreq). clearbody w1. nets. by apply net_listen.
Qed.

Lemma net_upap_lowerdown w : P w -> P (upap_lowerdown w).
Proof.
  intros. unfold upap_lowerdown. apply net_upap. set (w1 := if decide _ then _ else w).
  assert (P w1) by (subst w1; nets). clearbody w1. nets.
Qed.

Lemma net_upap_authpeer w : P w -> P (upap_authpeer w).
Proof. intros. unfold upap_authpeer. nets; by apply net_listen. Qed.

Lemma net_upap_authwithpeer user passwd w : P w -> P (upap_authwithpeer user passwd w).
Proof.
  intros. unfold upap_authwithpeer. set (w1 := on_upap _ w). assert (P w1) by (subst w1; nets). clearbody w1.
  nets; by apply net_sauthreq.
Qed.

Lemma net_SendChallenge w : P w -> P (ChapSendChallenge w).
Proof. intros. unfold ChapSendChallenge. nets. Qed.

Lemma net_GenChallenge w : P w -> P (ChapGenChallenge cc w).
Proof. intros. unfold ChapGenChallenge. nets. Qed.

Lemma net_start_challenge s w : P w -> P (start_challenge cc s w).
Proof. intros. by apply net_chap, net_SendChallenge, net_GenChallenge. Qed.

Lemma net_SendResponse w : P w -> P (ChapSendResponse w).
Proof. intros. unfold ChapSendResponse. nets. Qed.

Lemma net_chap_lowerup w : P w -> P (ChapLowerUp cc w).
Proof.
  intros. unfold ChapLowerUp. set (w1 := match ch_clientstate _ with CHAPCS_INITIAL => _ | _ => _ end).
  assert (P w1) by (subst w1; nets). clearbody w1. nets. by apply net_GenChallenge.
Qed.

Lemma net_chap_lowerdown w : P w -> P (ChapLowerDown w).
Proof.
  intros. unfold ChapLowerDown. apply net_chap. set (w1 := match ch_serverstate _ with CHAPSS_OPEN => _ | _ => _ end).
  assert (P w1) by (subst w1; nets). clearbody w1. nets.
Qed.

Lemma net_chap_authpeer name dig w : P w -> P (ChapAuthPeer cc name dig w).
Proof.
  intros. unfold ChapAuthPeer. set (w1 := on_chap _ w). assert (P w1) by (subst w1; nets). clearbody w1.
  nets; by apply net_GenChallenge.
Qed.

Lemma net_chap_authwithpeer name dig w : P w -> P (ChapAuthWithPeer name dig w).
Proof.
  intros. unfold ChapAuthWithPeer. set (w1 := on_chap _ w). assert (P w1) by (subst w1; nets). clearbody w1. nets.
Qed.

(** ** The rest of the daemon *)

#[export] Instance net_closed : AuthClosed others P P.
Proof.
  split; [done|by intros w w' Hs; apply nc_frame, same_parts_frame..| |apply nc_entry_down|apply nc_entry_open].
  intros w Hw. unfold auths_down. by apply net_chap_lowerdown, net_upap_lowerdown.
Qed.

Abbreviation after_peer_fail := (peer_fail_auth ac cc magic others P P).
Abbreviation after_withpeer_fail := (withpeer_fail_auth ac cc magic others P P).
Abbreviation after_auth_done := (auth_done_auth ac cc magic others P P).

Lemma np_finished_net w : P w -> P (np_finished ac cc magic others w).
Proof.
  intros Hw. unfold np_finished. destruct (_ <=? 0); [apply (close_lcp_auth ac cc magic others P P)|]; nets.
Qed.

(** ** The events of PAP and CHAP *)

Lemma upap_verdict_net pid ruser rpasswd w : P w -> P (upap_verdict (HA := events) pid ruser rpasswd w).
Proof.
  intros Hw. unfold upap_verdict. set (w1 := upap_sresp _ _ _ _ w).
  assert (H1 : P w1) by (subst w1; unfold upap_sresp; nets). clearbody w1.
  set (w2 := if _ =? UPAP_AUTHACK then _ else _). assert (H2 : P w2); [|clearbody w2; nets].
  subst w2. destruct (_ =? UPAP_AUTHACK).
  - apply (after_auth_done PAP_PEER). nets.
  - apply (after_peer_fail PPP_PAP). nets.
Qed.

Lemma upap_input_net p len w : P w -> P (upap_input (HA := events) p len w).
Proof.
  intros Hw. unfold upap_input. destruct (upap_header p len) as [[[[code pid] n] inp]| |]; [|done|nets].
  destruct (code =? UPAP_AUTHREQ); [|destruct (code =? UPAP_AUTHACK); [|destruct (code =? UPAP_AUTHNAK);
    [|done]]].
  - unfold upap_rauthreq, upap_sresp. case_match; try done; try solve [nets].
    destruct (parse_authreq inp n) as [[ruser rpasswd]| |]; [by apply upap_verdict_net|done|nets].
  - unfold upap_rauthack. case_match; try done. destruct (parse_message inp n); [|done|nets].
    apply (after_auth_done PAP_WITHPEER), (forget_passwd_auth others P P). nets.
  - unfold upap_rauthnak. case_match; try done. destruct (parse_message inp n); [|done|nets].
    apply (after_withpeer_fail PPP_PAP). nets.
Qed.

Lemma pap_event_net w w' : pap_event cfg ac cc magic others w w' -> P w -> P w'.
Proof.
  intros [buf len p (_ & _ & ->)| |] Hw; [by apply upap_input_net|..].
  - set (w1 := disarm _ w). assert (H1 : P w1) by (subst w1; nets). clearbody w1. unfold upap_timeout.
    case_match; try done. destruct (_ <=? _); [apply (after_withpeer_fail PPP_PAP); nets|by apply net_sauthreq].
  - set (w1 := disarm _ w). assert (H1 : P w1) by (subst w1; nets). clearbody w1. unfold upap_reqtimeout.
    case_match; try done. pose proof (after_peer_fail PPP_PAP w1 H1) as H2.
    change (auth_peer_fail PPP_PAP w1) with (ev_peer_fail ac cc magic others PPP_PAP w1).
    set (w2 := ev_peer_fail _ _ _ _ _ w1) in *. clearbody w2. nets.
Qed.

Lemma answer_net pid chal name w : P w -> P (answer_challenge (HA := events) cc pid chal name w).
Proof.
  intros Hw. unfold answer_challenge. set (w1 := if decide _ then _ else w). assert (P w1) by (subst w1; nets).
  clearbody w1. set (w2 := on_chap _ w1). assert (P w2) by (subst w2; nets). clearbody w2.
  nets.
Qed.

Lemma chap_input_net p len w : P w -> P (ChapInput cc (HA := events) p len w).
Proof.
  intros Hw. unfold ChapInput. destruct (chap_header p len) as [[[[code pid] n] inp]| |]; [|done|nets].
  destruct (code =? CHAP_CHALLENGE); [|destruct (code =? CHAP_RESPONSE); [|destruct (code =? CHAP_FAILURE);
    [|destruct (code =? CHAP_SUCCESS); [|done]]]].
  - unfold ChapReceiveChallenge. case_match; try done.
    all: destruct (parse_value inp n) as [[chal name]| |]; [by apply answer_net|done|nets].
  - unfold ChapReceiveResponse, ChapSendStatus. case_match; try done; (destruct (negb _); [done|]); try solve [nets].
    all: destruct (parse_value inp n) as [[remmd name]| |]; [|done|nets].
    all: unfold judge_response; rewrite check_response_fails; apply (after_peer_fail PPP_CHAP); unfold ChapSendStatus; nets.
  - unfold ChapReceiveFailure. case_match; try done. apply (after_withpeer_fail PPP_CHAP). nets.
  - unfold ChapReceiveSuccess. case_match; try done. apply (after_auth_done CHAP_WITHPEER). nets.
Qed.

Lemma chap_event_net w w' : chap_event cfg ac cc magic others w w' -> P w -> P w'.
Proof.
  intros [buf len p (_ & _ & ->)| | |] Hw; [by apply chap_input_net|..]; set (w1 := disarm _ w);
    assert (H1 : P w1) by (subst w1; nets); clearbody w1.
  - unfold ChapChallengeTimeout. case_match; try done; (destruct (_ <=? _); [|by apply net_SendChallenge]).
    all: apply (after_peer_fail PPP_CHAP); nets.
  - unfold ChapResponseTimeout. case_match; try done. by apply net_SendResponse.
  - unfold ChapRechallenge. case_match; try done. by apply net_start_challenge.
Qed.

(** ** Steps of the link *)

Context {HS : NetStable P}.

#[export] Instance net_stable : AuthStable cc others P P.
Proof.
  split; [apply _|apply net_upap_lowerup|apply net_chap_lowerup|apply net_upap_lowerdown|apply net_chap_lowerdown|
    apply net_upap_authpeer|apply net_upap_authwithpeer|apply net_chap_authpeer|apply net_chap_authwithpeer|
    apply ns_entry_up|apply ns_protrej|apply ns_input|apply ns_datainput].
Qed.

Lemma link_step_net w w' : link_step cfg ac cc magic others w w' -> P w -> P w'.
Proof.
  intros Hl Hw. destruct (link_step_auth cfg ac cc magic others P P w w' Hl Hw) as [?|[?|?]]; [done|..].
  - by eapply pap_event_net.
  - by eapply chap_event_net.
Qed.
End Stable.
End DaemonNet.
