(* ===== verification/UpapSpec.v ===== *)
(** * The Password Authentication Protocol: theorems

    What the client sends is what a server reads; an unanswered client gives up
    and closes the link; a server whose peer stays silent does not come back to
    its initial state; a packet of a protocol nobody knows is rejected. *)

From S2P Require Import Prelude Wire Callout Fsm FsmSpec FsmPackets.
From S2P Require Import LcpOptions LcpReqci Lcp LcpSpec Upap Chap Auth AuthSpec.

(** ** Packets *)

(** A whole packet written to the start of the buffer and sent. *)
Lemma send_whole bs n l :
  n = Z.of_nat (length bs) -> (length bs <= length (outpacket_buf l))%nat ->
  output n (link_store 0 bs l)
  = Link (peer_mru l) (bs ++ drop (length bs) (outpacket_buf l)) (sent l ++ [bs])
      (lk_oob l) (callouts l) (clock l).
Proof.
  intros -> Hle. rewrite link_store_fits /output; [done|]. simpl.
  rewrite length_app length_drop (proj2 (Z.ltb_ge _ _)); [lia|].
  by rewrite Nat2Z.id take_app_length.
Qed.

(** A length as one byte on the wire. *)
Lemma put_length (s : bytes) : (length s <= 255)%nat -> PUTCHAR (Z.of_nat (length s)) = [Z.of_nat (length s)].
Proof. intros Hs. unfold PUTCHAR. rewrite u8_small //. lia. Qed.

Lemma take_all (s : bytes) : take (Z.to_nat (Z.of_nat (length s))) s = s.
Proof. rewrite Nat2Z.id. by apply take_ge. Qed.

(** The body of a request parses to its two strings. *)
Lemma parse_authreq_fields (user passwd : bytes) :
  parse_authreq (Z.of_nat (length user) :: user ++ Z.of_nat (length passwd) :: passwd)
    (2 + Z.of_nat (length user) + Z.of_nat (length passwd)) = Good (user, passwd).
Proof.
  unfold parse_authreq. rewrite (proj2 (Z.ltb_ge _ _)); [lia|]. cbn.
  rewrite (proj2 (Z.ltb_ge _ _)); [lia|]. rewrite Nat2Z.id drop_app_length. cbn.
  rewrite (proj2 (Z.ltb_ge _ _)); [lia|]. rewrite Z.ltb_irrefl.
  by rewrite Nat2Z.id take_app_length firstn_all.
Qed.

(** The parsers never read behind a packet of the length they are told. *)
Lemma parse_authreq_in_bounds inp len :
  Forall byte_ok inp -> len <= Z.of_nat (length inp) -> parse_authreq inp len <> Oob.
Proof.
  intros Hb Hl. unfold parse_authreq. destruct (Z.ltb_spec len 1); [done|].
  destruct inp as [|n inp]; [simpl in *; lia|]. cbn. inversion_clear Hb as [|? ? Hn Hb'].
  unfold byte_ok in Hn. destruct (Z.ltb_spec (len - (1 + n + 1)) 0); [done|]. simpl in Hl.
  destruct (drop (Z.to_nat n) inp) as [|m rest] eqn:Ed; cbn.
  { apply (f_equal length) in Ed. rewrite length_drop in Ed. simpl in Ed. lia. }
  destruct (Z.ltb_spec (len - (1 + n + 1)) m); [done|].
  destruct (Z.ltb_spec (Z.of_nat (length rest)) m); [|done].
  apply (f_equal length) in Ed. rewrite length_drop in Ed. simpl in Ed. lia.
Qed.

Lemma parse_message_in_bounds inp len : len <= Z.of_nat (length inp) -> parse_message inp len <> Oob.
Proof.
  intros Hl. unfold parse_message. destruct (Z.ltb_spec len 1); [done|].
  destruct inp as [|n inp]; [simpl in *; lia|]. cbn. simpl in Hl. destruct (0 <? n); [|done].
  destruct (Z.ltb_spec (len - 1) n); [done|]. destruct (Z.ltb_spec (Z.of_nat (length inp)) n); [lia|done].
Qed.

Lemma upap_header_in_bounds p l :
  l <= Z.of_nat (length p) -> Forall byte_ok p ->
  match upap_header p l with
  | Good (_, _, len, inp) => 0 <= len <= Z.of_nat (length inp) /\ Forall byte_ok inp
  | Bad => True
  | Oob => False
  end.
Proof.
  intros Hl Hb. unfold upap_header, UPAP_HEADERLEN. destruct (Z.ltb_spec l 4); [done|].
  destruct p as [|a [|b [|c [|d p]]]]; simpl in Hl; try lia. cbn.
  destruct (Z.ltb_spec (Z.lor (Z.shiftl c 8) d) 4); [done|].
  destruct (Z.ltb_spec l (Z.lor (Z.shiftl c 8) d)); [done|]. decompose_Forall_hyps. split; [lia|done].
Qed.

Section Daemon.
Context {X : Type}.
Abbreviation W := (daemon X).
Implicit Types w : W.

(** C29: passwords arrive as they were given.  The request that
    [upap_authwithpeer] puts on the wire fits the output buffer, and the header
    and field parsers of a PAP server recover the user name and the password
    from it. *)
Theorem pap_request_roundtrip w user passwd :
  (length user <= 255)%nat -> (length passwd <= 255)%nat -> buf_ok (d_link w) ->
  us_clientstate (d_upap w) = UPAPCS_CLOSED ->
  let w' := upap_authwithpeer user passwd w in
  exists pkt n inp,
    sent (d_link w') = sent (d_link w) ++ [MAKEHEADER PPP_PAP ++ pkt] /\
    lk_oob (d_link w') = lk_oob (d_link w) /\
    upap_header pkt (Z.of_nat (length pkt)) = Good (UPAP_AUTHREQ, us_id (d_upap w'), n, inp) /\
    parse_authreq inp n = Good (user, passwd).
Proof.
  intros Hu Hp Hb Hc w'. subst w'. unfold upap_authwithpeer. set (w1 := on_upap (set_credentials _ _) w).
  assert (Hc1 : us_clientstate (w_upap w1) = UPAPCS_CLOSED) by done. rewrite Hc1.
  set (nu := Z.of_nat (length user)). set (np := Z.of_nat (length passwd)).
  set (body := nu :: user ++ np :: passwd).
  set (pid := u8 (us_id (d_upap w) + 1)).
  set (pkt := UPAP_AUTHREQ :: pid :: PUTSHORT (6 + nu + np) ++ body).
  exists pkt, (2 + nu + np), body.
  assert (Hpid : u8 pid = pid) by (apply u8_small, u8_range).
  assert (Hpkt : authreq_packet pid (set_us_id pid (d_upap w1)) = MAKEHEADER PPP_PAP ++ pkt).
  { unfold authreq_packet. cbn [us_userlen us_passwdlen us_user us_passwd set_us_id set_credentials d_upap w1
      on_upap put_upap w_upap daemon_upap]. fold nu np.
    replace (PUTCHAR nu) with [nu] by (symmetry; by apply put_length).
    replace (PUTCHAR np) with [np] by (symmetry; by apply put_length).
    unfold nu at 3, np at 3. rewrite !take_all. unfold PUTCHAR at 2. by rewrite Hpid. }
  assert (Hlen : Z.of_nat (length (MAKEHEADER PPP_PAP ++ pkt)) = 6 + nu + np + PPP_HDRLEN).
  { rewrite length_app /= length_app /=. unfold nu, np, PPP_HDRLEN. lia. }
  unfold upap_sauthreq. set (w2 := on_upap (fun u => set_us_id _ u) w1).
  change (w_upap w2) with (set_us_id pid (d_upap w1)). cbn [us_id set_us_id]. rewrite Hpkt.
  cbn [d_link on_upap put_upap daemon_upap arm on_link put_link w_link w_fsm lcp_fsm_world daemon_lcp daemon_fsm
       set_callouts sent lk_oob d_upap].
  rewrite send_whole; [rewrite Hlen; cbn; unfold nu, np, UPAP_HEADERLEN; lia| |].
  { change (d_link w2) with (d_link w). unfold buf_ok, OUTPACKET_SIZE, PPP_MRU, PPP_HDRLEN in *.
    unfold nu, np in Hlen. lia. }
  split; [done|]. split; [done|]. split; [|apply parse_authreq_fields].
  assert (Hl2 : Z.of_nat (length pkt) = 6 + nu + np).
  { rewrite length_app in Hlen. simpl in Hlen. unfold PPP_HDRLEN in Hlen. simpl. lia. }
  rewrite Hl2. unfold upap_header, UPAP_HEADERLEN.
  rewrite (proj2 (Z.ltb_ge _ _)); [unfold nu, np; lia|]. unfold pkt. cbn [GETCHAR get mbind parse_bind].
  rewrite GETSHORT_PUTSHORT u16_small; [unfold nu, np; lia|]. cbn [get mbind parse_bind].
  rewrite (proj2 (Z.ltb_ge _ _)); [unfold nu, np; lia|]. rewrite Z.ltb_irrefl.
  replace (6 + nu + np - 4) with (2 + nu + np) by lia. done.
Qed.

Context (cfg : lcp_config) (ac : auth_config) (cc : chap_config) (magic : nat -> Z).
Context (others : list (protent W)) {HR : NetRest X} {HN : NetLaws ac cc magic others}.
Abbreviation events := (auth_events ac cc magic others).
#[local] Existing Instance closing_layer_laws.

(** ** Silence *)

Lemma close_lcp_opened reason w :
  state (d_fsm w) = OPENED -> state (d_fsm (close_lcp ac cc magic others reason w)) = CLOSING.
Proof.
  intros Ho.
  exact (lcp_close_opened (HA := closing_layer ac cc others) (HAL := closing_layer_laws ac cc magic others)
           magic (Some reason) w Ho).
Qed.

(** The retry timer expires. *)
Definition retry_expires w : W := upap_timeout (HA := events) (disarm (retry_timer (W := W)) w).

Lemma retry_again w :
  us_clientstate (d_upap w) = UPAPCS_AUTHREQ -> us_transmits (d_upap w) < us_maxtransmits (d_upap w) ->
  let w' := retry_expires w in
  us_clientstate (d_upap w') = UPAPCS_AUTHREQ /\ d_fsm w' = d_fsm w /\
  us_transmits (d_upap w') = us_transmits (d_upap w) + 1 /\
  us_maxtransmits (d_upap w') = us_maxtransmits (d_upap w).
Proof.
  intros Hc Ht w'. subst w'. unfold retry_expires, upap_timeout.
  change (w_upap (disarm _ w)) with (d_upap w). rewrite Hc (proj2 (Z.leb_gt _ _) Ht). done.
Qed.

Lemma retry_last w :
  us_clientstate (d_upap w) = UPAPCS_AUTHREQ -> us_maxtransmits (d_upap w) <= us_transmits (d_upap w) ->
  state (d_fsm w) = OPENED ->
  state (d_fsm (retry_expires w)) = CLOSING /\
  pppd_status (d_lcp (retry_expires w)) = EXIT_AUTH_TOPEER_FAILED.
Proof.
  intros Hc Ht Ho. unfold retry_expires, upap_timeout.
  change (w_upap (disarm _ w)) with (d_upap w). rewrite Hc (proj2 (Z.leb_le _ _) Ht).
  split; [|done]. apply (close_lcp_opened _ (forget_passwd _)).
  unfold forget_passwd. by case_match.
Qed.

(** A client that gets no answer gives up.  On an open link, a client
    that waits for the answer to its request sends as many requests as it has
    left and then closes the link, with the status that says why. *)
Theorem pap_client_gives_up w k :
  us_clientstate (d_upap w) = UPAPCS_AUTHREQ -> state (d_fsm w) = OPENED ->
  us_transmits (d_upap w) <= us_maxtransmits (d_upap w) ->
  k = Z.to_nat (us_maxtransmits (d_upap w) - us_transmits (d_upap w)) ->
  let w' := Nat.iter (S k) retry_expires w in
  state (d_fsm w') = CLOSING /\ pppd_status (d_lcp w') = EXIT_AUTH_TOPEER_FAILED.
Proof.
  intros Hc Ho Hle Hk w'. subst w'. rewrite Nat.iter_succ_r. revert w Hc Ho Hle Hk.
  induction k as [|k IH]; intros w Hc Ho Hle Hk.
  - apply retry_last; [done|lia|done].
  - destruct (retry_again w Hc ltac:(lia)) as (Hc' & Hf' & Ht' & Hm').
    rewrite Nat.iter_succ_r. apply IH; [done|by rewrite Hf'|lia|lia].
Qed.

(** A peer that stays silent leaves PAP behind.  When the timer of a
    listening server expires on an open link, the link is closed and PAP is
    told that the lower layer is down; the state it ends in is BADAUTH all the
    same, not INITIAL, and the next link finds it there: [upap_lowerup] does
    not take it to CLOSED. *)
Theorem pap_silent_peer_leaves_badauth w :
  us_serverstate (d_upap w) = UPAPSS_LISTEN -> state (d_fsm w) = OPENED ->
  let w' := upap_reqtimeout (HA := events) (disarm (request_timer (W := W)) w) in
  state (d_fsm w') = CLOSING /\ us_serverstate (d_upap w') = UPAPSS_BADAUTH /\
  us_serverstate (d_upap (upap_lowerup w')) = UPAPSS_BADAUTH.
Proof.
  intros Hs Ho w'. subst w'. unfold upap_reqtimeout.
  change (w_upap (disarm _ w)) with (d_upap w). rewrite Hs.
  pose proof (close_lcp_opened (text "Authentication failed") (disarm (request_timer (W := W)) w) Ho) as Hc.
  change (auth_peer_fail PPP_PAP ?v) with (ev_peer_fail ac cc magic others PPP_PAP v). unfold ev_peer_fail.
  set (w1 := close_lcp _ _ _ _ _ _) in *. clearbody w1. destruct w1 as [f l s u h a x]. simpl in Hc.
  split; [done|]. split; [done|]. unfold upap_lowerup. simpl. by destruct (us_clientstate u).
Qed.

(** ** Protocols nobody knows *)

(** C30: an unknown protocol is rejected.  A packet on an open link past
    authentication whose protocol no entry of the table takes is answered by
    one LCP Protocol-Reject under a fresh identifier, which carries the
    protocol number and the data of the packet up to the peer's MRU; LCP stays
    open. *)
Theorem daemon_unknown_protocol_rejected w buf len prot p :
  len = Z.of_nat (length buf) -> PPP_HDRLEN <= len -> GETSHORT (drop 2 buf) = Some (prot, p) ->
  state (d_fsm w) = OPENED -> protocol (d_fsm w) = PPP_LCP -> PHASE_AUTHENTICATE < phase w ->
  demux prot p (len - PPP_HDRLEN) (protocols cfg ac cc magic others) = None ->
  buf_ok (d_link w) -> HEADERLEN <= peer_mru (d_link w) <= PPP_MRU ->
  let w' := get_input cfg ac cc magic others buf len w in
  let n := Z.min (len - 2) (peer_mru (d_link w) - HEADERLEN) in
  exists pkt,
    sent (d_link w') = sent (d_link w) ++ [MAKEHEADER PPP_LCP ++ pkt] /\
    parse_header pkt (n + HEADERLEN) = Some (PROTREJ, u8 (id (d_fsm w) + 1), n, take (Z.to_nat n) (drop 2 buf)) /\
    state (d_fsm w') = OPENED.
Proof.
  intros Hlen Hle Hg Ho Hpr Hph Hd Hb Hm w' n. unfold PPP_HDRLEN, HEADERLEN, PPP_MRU in *.
  assert (Hw : w' = lcp_sprotrej buf (len - PPP_HDRLEN + PPP_HDRLEN) w).
  { subst w'. unfold get_input. rewrite (proj2 (Z.ltb_ge _ _)); [lia|]. rewrite (proj2 (Z.eqb_neq _ _)); [lia|].
    rewrite (proj2 (Z.ltb_ge _ _)); [done|]. rewrite Hg.
    rewrite (bool_decide_eq_true_2 (state (w_fsm w) = OPENED)); [done|]. rewrite andb_false_r.
    rewrite (proj2 (Z.leb_gt _ _)); [done|]. simpl andb. unfold PPP_HDRLEN. by rewrite Hd. }
  clearbody w'. subst w'. replace (len - PPP_HDRLEN + PPP_HDRLEN) with len by lia. unfold lcp_sprotrej.
  set (w1 := on_fsm next_id w). set (pid := id (w_fsm w1)).
  destruct (send_data_sent PPP_LCP PROTREJ pid (drop 2 buf) (len - 2) (d_link w)) as [Hs _];
    [done|rewrite length_drop; lia|unfold HEADERLEN; lia|unfold clamp, PPP_MRU, HEADERLEN; lia|].
  change (sent (d_link (fsm_sdata PROTREJ pid (Data (drop 2 buf)) (len - 2) w1)))
    with (sent (send_data (protocol (d_fsm w)) PROTREJ pid (Data (drop 2 buf)) (len - 2) (d_link w))).
  rewrite Hpr Hs. fold (clamp (d_link w) (len - 2)) in n. fold n in Hs |- *.
  assert (Hn : 0 <= n <= 1496) by (unfold n, clamp, HEADERLEN in *; lia).
  exists ([u8 PROTREJ; u8 pid] ++ PUTSHORT (n + HEADERLEN) ++ take (Z.to_nat n) (drop 2 buf)).
  split; [done|]. split; [|done].
  unfold parse_header, HEADERLEN. rewrite (proj2 (Z.ltb_ge _ _)); [lia|]. cbv iota beta. cbn [app].
  rewrite GETSHORT_PUTSHORT u16_small; [lia|].
  rewrite (proj2 (Z.ltb_ge _ _)); [lia|]. rewrite (proj2 (Z.ltb_ge _ _)); [lia|].
  replace (u8 pid) with (u8 (id (d_fsm w) + 1)) by (symmetry; apply u8_small, u8_range).
  do 3 f_equal. lia.
Qed.
End Daemon.
