(* ===== verification/ChapSpec.v ===== *)
(** * The Challenge Handshake Authentication Protocol: theorems

    A challenge and the answer to it fit together: a server can read the digest
    of the client's password from the answer.  The server of this port refuses
    it, as it has no secrets. *)

From S2P Require Import Prelude Wire Callout Fsm FsmSpec FsmPackets.
From S2P Require Import LcpOptions LcpReqci Lcp LcpSpec Upap Chap Auth AuthSpec UpapSpec.

(** ** Packets with a value and a name *)

Definition value_body (value name : bytes) : bytes := Z.of_nat (length value) :: value ++ name.
Definition value_packet (code pid : Z) (value name : bytes) : bytes :=
  [code; pid] ++ PUTSHORT (4 + Z.of_nat (length (value_body value name))) ++ value_body value name.

Lemma length_value_body value name :
  Z.of_nat (length (value_body value name)) = 1 + Z.of_nat (length value) + Z.of_nat (length name).
Proof. simpl. rewrite length_app. lia. Qed.

Lemma length_value_packet code pid value name :
  Z.of_nat (length (value_packet code pid value name)) = 5 + Z.of_nat (length value) + Z.of_nat (length name).
Proof. simpl. rewrite length_app. lia. Qed.

Lemma chap_header_value code pid value name :
  (length value <= 255)%nat -> (length name <= 255)%nat ->
  let p := value_packet code pid value name in
  chap_header p (Z.of_nat (length p)) =
    Good (code, pid, Z.of_nat (length (value_body value name)), value_body value name).
Proof.
  intros Hv Hn p. pose proof (length_value_packet code pid value name) as Hp. fold p in Hp.
  pose proof (length_value_body value name) as Hb. unfold chap_header, CHAP_HEADERLEN.
  rewrite Hp (proj2 (Z.ltb_ge _ _)); [lia|]. unfold p, value_packet. cbn [app GETCHAR get mbind parse_bind].
  rewrite GETSHORT_PUTSHORT u16_small; [lia|]. cbn [get mbind parse_bind].
  rewrite (proj2 (Z.ltb_ge _ _)); [lia|]. rewrite (proj2 (Z.ltb_ge _ _)); [lia|].
  do 2 f_equal. f_equal. lia.
Qed.

Lemma parse_value_body value name :
  (1 <= length value <= 255)%nat -> (length name <= 255)%nat ->
  parse_value (value_body value name) (Z.of_nat (length (value_body value name))) = Good (value, name).
Proof.
  intros Hv Hn. rewrite length_value_body. unfold parse_value. rewrite (proj2 (Z.ltb_ge _ _)); [lia|].
  cbn [value_body GETCHAR get mbind parse_bind].
  replace (1 + Z.of_nat (length value) + Z.of_nat (length name) - (1 + Z.of_nat (length value)))
    with (Z.of_nat (length name)) by lia.
  rewrite (proj2 (Z.ltb_ge _ _)); [lia|]. rewrite (proj2 (Z.ltb_ge _ _)); [rewrite length_app; lia|].
  rewrite (proj2 (Z.leb_gt _ _)); [lia|]. rewrite !Nat2Z.id take_app_length drop_app_length. by rewrite firstn_all.
Qed.

(** ** What the daemon sends has this form *)

Section Handshake.
Context {X : Type}.
Abbreviation W := (daemon X).
Implicit Types w : W.
Context (cc : chap_config).

(** A challenge at hand and a name that fits. *)
Definition challenging (c : chap_state) : Prop :=
  byte_ok (chal_id c) /\ (1 <= chal_len c <= Z.of_nat (length (challenge c)))%Z /\
  (length (challenge c) <= 255)%nat /\ (length (chal_name c) <= 255)%nat /\ chal_type c = CHAP_DIGEST_MD5.

Definition challenge_value (c : chap_state) : bytes := take (Z.to_nat (chal_len c)) (challenge c).

Lemma length_challenge_value c : challenging c -> Z.of_nat (length (challenge_value c)) = chal_len c.
Proof. intros (_ & Hl & _). unfold challenge_value. rewrite length_take. lia. Qed.

Lemma challenge_packet_value c : challenging c ->
  challenge_packet c = MAKEHEADER PPP_CHAP ++ value_packet CHAP_CHALLENGE (chal_id c) (challenge_value c) (chal_name c).
Proof.
  intros Hc. pose proof (length_challenge_value c Hc) as Hl. destruct Hc as (Hi & Hn & Hm & _).
  unfold challenge_packet, value_packet, value_body. fold (challenge_value c).
  unfold byte_ok in Hi. unfold PUTCHAR. rewrite !u8_small; [done|done|lia|]. rewrite -Hl.
  replace (CHAP_HEADERLEN + 1 + Z.of_nat (length (challenge_value c)) + Z.of_nat (length (chal_name c)))
    with (4 + Z.of_nat (length (value_body (challenge_value c) (chal_name c)))); [done|].
  rewrite length_value_body. unfold CHAP_HEADERLEN. lia.
Qed.

(** ** Fresh challenges *)

Lemma draw_length_range d : 0 <= d < 2 ^ 48 -> 16 <= draw_length d < 24.
Proof.
  intros Hd. unfold draw_length, round_double, MAX_CHALLENGE_LENGTH, MIN_CHALLENGE_LENGTH.
  change (Z.shiftl 16 48) with (2 ^ 52). set (n := d * (24 - 16) + 2 ^ 52).
  assert (Hn : 2 ^ 52 <= n < 2 ^ 53) by (subst n; lia).
  rewrite (Z.log2_unique n 52); [lia|lia|]. change (52 - 52 <=? 0) with true. cbv iota.
  rewrite Z.shiftr_div_pow2; [lia|]. split; [apply Z.div_le_lower_bound; lia|apply Z.div_lt_upper_bound; lia].
Qed.

(** A new challenge fits its array and goes out under a new identifier. *)
Lemma gen_challenge_fits w :
  (forall n, 0 <= drand48 cc n < 2 ^ 48) -> length (challenge (d_chap w)) = 24%nat ->
  let w' := ChapGenChallenge cc w in
  lk_oob (d_link w') = lk_oob (d_link w) /\ length (challenge (d_chap w')) = 24%nat /\
  16 <= chal_len (d_chap w') < 24 /\ chal_id (d_chap w') = u8 (ch_id (d_chap w) + 1) /\
  chal_transmits (d_chap w') = 0.
Proof.
  intros Hd Hl w'. subst w'. unfold ChapGenChallenge. change (w_chap w) with (d_chap w).
  pose proof (draw_length_range _ (Hd (ch_draws (d_chap w)))) as Hn. set (n := draw_length _) in *. clearbody n.
  set (bs := map _ _). assert (Hb : length bs = Z.to_nat n) by (unfold bs; by rewrite length_map length_seq).
  clearbody bs. rewrite store_Some; [lia|]. split; [done|]. split.
  - simpl. rewrite length_app length_drop Hl. lia.
  - split; [|done]. simpl. rewrite u8_small; lia.
Qed.

(** What the client sends after [digest] has been computed. *)
Lemma send_response_value w :
  byte_ok (resp_id (d_chap w)) -> resp_length (d_chap w) = MD5_SIGNATURE_SIZE ->
  (16 <= length (response (d_chap w)))%nat -> (length (resp_name (d_chap w)) <= 255)%nat -> buf_ok (d_link w) ->
  let w' := ChapSendResponse w in
  sent (d_link w') = sent (d_link w) ++
    [MAKEHEADER PPP_CHAP ++ value_packet CHAP_RESPONSE (resp_id (d_chap w))
       (take 16 (response (d_chap w))) (resp_name (d_chap w))] /\
  lk_oob (d_link w') = lk_oob (d_link w) /\ ch_clientstate (d_chap w') = CHAPCS_RESPONSE.
Proof.
  intros Hi Hl Hr Hn Hb w'. set (c := d_chap w) in *.
  assert (Hlen : length (take 16 (response c)) = 16%nat) by (rewrite length_take; lia).
  assert (Hpkt : response_packet c = MAKEHEADER PPP_CHAP ++
    value_packet CHAP_RESPONSE (resp_id c) (take 16 (response c)) (resp_name c)).
  { unfold response_packet, value_packet, value_body. rewrite Hl. unfold byte_ok in Hi.
    unfold PUTCHAR. rewrite !u8_small; [done|done|done|].
    replace (CHAP_HEADERLEN + 1 + MD5_SIGNATURE_SIZE + Z.of_nat (length (resp_name c)))
      with (4 + Z.of_nat (length (value_body (take 16 (response c)) (resp_name c))));
      [by unfold value_body; rewrite Hlen|].
    rewrite length_value_body Hlen. unfold CHAP_HEADERLEN, MD5_SIGNATURE_SIZE. lia. }
  subst w'. unfold ChapSendResponse. change (w_chap w) with c. rewrite Hpkt.
  cbn [d_link on_chap put_chap daemon_chap arm on_link put_link w_link lcp_fsm_world daemon_lcp daemon_fsm
       set_callouts sent lk_oob].
  pose proof (length_value_packet CHAP_RESPONSE (resp_id c) (take 16 (response c)) (resp_name c)) as Hp.
  rewrite Hlen in Hp. set (pkt := value_packet _ _ _ _) in *. clearbody pkt.
  assert (Hw : Z.of_nat (length (MAKEHEADER PPP_CHAP ++ pkt)) = 25 + Z.of_nat (length (resp_name c)))
    by (rewrite length_app; simpl length; lia).
  rewrite send_whole; [rewrite Hw Hl; unfold CHAP_HEADERLEN, MD5_SIGNATURE_SIZE, PPP_HDRLEN; lia| |done].
  unfold buf_ok, OUTPACKET_SIZE, PPP_MRU, PPP_HDRLEN in Hb. lia.
Qed.

(** The client takes a challenge up whenever CHAP is under way. *)
Definition answering (c : chap_state) : Prop :=
  ch_clientstate c <> CHAPCS_CLOSED /\ ch_clientstate c <> CHAPCS_PENDING /\
  resp_type c = CHAP_DIGEST_MD5 /\ (length (resp_name c) <= 255)%nat.

Lemma answer_value {HA : AuthEvents W} pid chal name w :
  (forall bs, length (md5 cc bs) = 16%nat) -> answering (d_chap w) -> byte_ok pid -> buf_ok (d_link w) ->
  let server := if explicit_remote cc || (bool_decide (remote_name cc <> []) && bool_decide (until_nul name = []))
                then take 255 (remote_name cc) else until_nul name in
  let secret := default [] (get_secret (resp_name (d_chap w)) server false w) in
  let w' := answer_challenge cc pid chal name w in
  sent (d_link w') = sent (d_link w) ++
    [MAKEHEADER PPP_CHAP ++ value_packet CHAP_RESPONSE pid (digest cc pid secret chal) (resp_name (d_chap w))] /\
  lk_oob (d_link w') = lk_oob (d_link w) /\ ch_clientstate (d_chap w') = CHAPCS_RESPONSE.
Proof.
  intros Hmd (_ & _ & Ht & Hn) Hi Hb server secret w'. subst w'. unfold answer_challenge.
  fold server. change (get_secret (resp_name (w_chap w)) server false w)
    with (get_secret (resp_name (d_chap w)) server false w). fold secret.
  set (w1 := if decide _ then _ else w).
  assert (H1 : d_chap w1 = d_chap w /\ sent (d_link w1) = sent (d_link w) /\ lk_oob (d_link w1) = lk_oob (d_link w) /\
    buf_ok (d_link w1)) by (subst w1; by case_decide).
  clearbody w1. destruct H1 as (Ec & Es & Eo & Hb1). set (w2 := on_chap (fun c => set_resp_transmits 0 _) w1).
  change (resp_type (w_chap w2)) with (resp_type (d_chap w1)). rewrite Ec Ht Z.eqb_refl. cbv iota.
  set (w3 := on_chap _ w2). assert (Hid : u8 pid = pid) by by apply u8_small.
  assert (Hd : digest cc (resp_id (d_chap w2)) secret chal = digest cc pid secret chal) by (simpl; by rewrite Hid).
  assert (Hlen : length (digest cc pid secret chal) = 16%nat) by (unfold digest; rewrite length_take Hmd; done).
  assert (Hr : response (d_chap w3) = digest cc pid secret chal ++ drop 16 (response (d_chap w)))
    by (rewrite -Hd /= Ec; done).
  destruct (send_response_value w3) as (H1 & H2 & H3).
  - simpl. by rewrite Hid.
  - done.
  - rewrite Hr length_app Hlen. lia.
  - simpl. by rewrite Ec.
  - exact Hb1.
  - rewrite H1 H2 H3 Hr take_app_length' //. simpl. by rewrite Hid Es Eo Ec.
Qed.

Context (ac : auth_config) (magic : nat -> Z) (others : list (protent W)).
Abbreviation events := (auth_events ac cc magic others).

(** The secret of a client: its password, cut to the size of the buffers. *)
Definition client_secret w : bytes :=
  take (Z.to_nat MAXSECRETLEN) (take (Z.to_nat (MAXWORDLEN - 1)) (passwd (d_auth w))).

Lemma client_secret_got client server w :
  default [] (get_secret (AuthEvents := events) client server false w) = client_secret w.
Proof.
  unfold client_secret. cbn [get_secret auth_events]. unfold chap_secret, have_passwd.
  change (w_auth w) with (d_auth w). destruct (passwd (d_auth w)) eqn:E.
  - done.
  - by rewrite bool_decide_eq_true_2.
Qed.

(** C31: challenge and response.  A client that receives a Challenge answers
    with one Response, under the same identifier, that fits the output buffer;
    the parsers of a server recover from it the name and the digest of the
    identifier, the client's password and the challenge.  But the server of this
    port refuses every Response to a challenge of its own, also one made with the
    right password: it has no secrets, sends a Failure and reports that the peer
    has failed.  MD5 is any function whose results have sixteen bytes. *)
Theorem chap_handshake (ws wc : W) :
  (forall bs, length (md5 cc bs) = 16%nat) ->
  challenging (d_chap ws) -> ch_serverstate (d_chap ws) = CHAPSS_INITIAL_CHAL ->
  answering (d_chap wc) -> buf_ok (d_link wc) ->
  exists pkt rpkt m inp,
    let wc' := ChapInput cc (HA := events) pkt (Z.of_nat (length pkt)) wc in
    let pid := chal_id (d_chap ws) in
    challenge_packet (d_chap ws) = MAKEHEADER PPP_CHAP ++ pkt /\
    sent (d_link wc') = sent (d_link wc) ++ [MAKEHEADER PPP_CHAP ++ rpkt] /\
    lk_oob (d_link wc') = lk_oob (d_link wc) /\ ch_clientstate (d_chap wc') = CHAPCS_RESPONSE /\
    chap_header rpkt (Z.of_nat (length rpkt)) = Good (CHAP_RESPONSE, pid, m, inp) /\
    parse_value inp m = Good (digest cc pid (client_secret wc) (challenge_value (d_chap ws)), resp_name (d_chap wc)) /\
    ChapInput cc (HA := events) rpkt (Z.of_nat (length rpkt)) ws =
      ev_peer_fail ac cc magic others PPP_CHAP
        (on_chap (set_ch_server CHAPSS_BADAUTH) (ChapSendStatus cc CHAP_FAILURE (disarm (challenge_timer (W := W)) ws))).
Proof.
  intros Hmd Hc Hsv Ha Hb. pose proof (length_challenge_value _ Hc) as Hl.
  pose proof (challenge_packet_value _ Hc) as Hpkt. destruct Hc as (Hi & Hcl & Hm & Hn & Ht).
  set (chal := challenge_value (d_chap ws)) in *. set (pid := chal_id (d_chap ws)) in *.
  set (pkt := value_packet CHAP_CHALLENGE pid chal (chal_name (d_chap ws))) in *.
  set (value := digest cc pid (client_secret wc) chal).
  assert (Hlen : length value = 16%nat) by (unfold value, digest; rewrite length_take Hmd; done).
  assert (Hin : ChapInput cc (HA := events) pkt (Z.of_nat (length pkt)) wc
                = answer_challenge cc (HA := events) pid chal (chal_name (d_chap ws)) wc).
  { unfold ChapInput, pkt. rewrite chap_header_value; [lia|done|]. cbn [CHAP_CHALLENGE]. simpl (_ =? _). cbv iota.
    unfold ChapReceiveChallenge. change (w_chap wc) with (d_chap wc). rewrite parse_value_body; [lia|done|].
    destruct Ha as (Ha1 & Ha2 & _). by destruct (ch_clientstate (d_chap wc)). }
  destruct (answer_value (HA := events) pid chal (chal_name (d_chap ws)) wc Hmd Ha Hi Hb) as (H1 & H2 & H3).
  rewrite client_secret_got in H1. fold value in H1. destruct Ha as (_ & _ & _ & Hrn).
  set (name := resp_name (d_chap wc)) in *. set (rpkt := value_packet CHAP_RESPONSE pid value name) in *.
  assert (Hh : chap_header rpkt (Z.of_nat (length rpkt)) =
               Good (CHAP_RESPONSE, pid, Z.of_nat (length (value_body value name)), value_body value name))
    by (apply chap_header_value; [lia|done]).
  assert (Hv : parse_value (value_body value name) (Z.of_nat (length (value_body value name))) = Good (value, name))
    by (apply parse_value_body; [lia|done]).
  exists pkt, rpkt, (Z.of_nat (length (value_body value name))), (value_body value name).
  cbn zeta. rewrite Hin. split_and!; try done.
  unfold ChapInput. rewrite Hh. simpl (_ =? _). cbv iota. unfold ChapReceiveResponse. change (w_chap ws) with (d_chap ws).
  rewrite Hsv. fold pid. rewrite Z.eqb_refl. cbn [negb]. by rewrite Hv.
Qed.
End Handshake.
