(* ===== verification/Inet.v ===== *)
(** * Internet addresses

    The byte order of the machine, the classes of addresses, the addresses the
    daemon refuses ([auth.c]) and the mask it gives to its interface
    ([sys-rtems.c]).  An address is kept the way the code keeps it, as the
    32-bit number whose bytes in memory are in network order. *)

From S2P Require Import Prelude Wire.

(** ** Byte order *)

Class ByteOrder := { big_endian : bool }.

(** The four bytes of a number in the opposite order. *)
Definition bswap32 (x : Z) : Z :=
  Z.lor (Z.lor (Z.lor (Z.shiftl (u8 x) 24) (Z.shiftl (u8 (Z.shiftr x 8)) 16))
           (Z.shiftl (u8 (Z.shiftr x 16)) 8)) (u8 (Z.shiftr x 24)).

Definition htonl `{ByteOrder} (x : Z) : Z := if big_endian then u32 x else bswap32 x.
Definition ntohl `{ByteOrder} (x : Z) : Z := htonl x.

(** ** Address classes, of an address in host order *)

Definition IN_CLASSA_NSHIFT := 24.
Definition IN_LOOPBACKNET := 127.
Definition IN_CLASSA_NET := 4278190080. (* 0xff000000 *)
Definition IN_CLASSB_NET := 4294901760. (* 0xffff0000 *)
Definition IN_CLASSC_NET := 4294967040. (* 0xffffff00 *)
Definition IN_CLASSA (i : Z) : bool := Z.land i 2147483648 =? 0.
Definition IN_CLASSB (i : Z) : bool := Z.land i 3221225472 =? 2147483648.
Definition IN_MULTICAST (i : Z) : bool := Z.land i 4026531840 =? 3758096384.
Definition IN_BADCLASS (i : Z) : bool := Z.land i 4026531840 =? 4026531840.

Section Addresses.
Context `{ByteOrder}.

Definition bad_ip_adrs (addr : Z) : bool :=
  let addr := ntohl addr in
  (Z.shiftr addr IN_CLASSA_NSHIFT =? IN_LOOPBACKNET) || IN_MULTICAST addr || IN_BADCLASS addr.

(** The lists of permitted addresses are compiled out. *)
Definition auth_ip_addr (addr : Z) : bool := negb (bad_ip_adrs addr).

(** ** The mask of the interface *)

Definition IFF_UP := 1.
Definition IFF_BROADCAST := 2.
Definition IFF_LOOPBACK := 8.
Definition IFF_POINTOPOINT := 16.
Definition IFF_NOARP := 128.

(** An entry of the list [SIOCGIFCONF] gives: the name of the interface, its
    internet address or whether it is a link-level address, and the answers to
    [SIOCGIFFLAGS] and [SIOCGIFNETMASK]. *)
Record sys_interface := SysInterface {
  si_name : bytes; si_addr : option Z; si_link : bool; si_flags : option Z; si_netmask : option Z
}.

Definition mask_of (addr nmask mask : Z) (i : sys_interface) : Z :=
  match si_addr i with
  | None => mask
  | Some ina =>
      if negb (Z.land (ntohl ina) nmask =? Z.land addr nmask) then mask else
      match si_flags i with
      | None => mask
      | Some fl =>
          if negb (Z.land fl (Z.lor IFF_UP (Z.lor IFF_POINTOPOINT IFF_LOOPBACK)) =? IFF_UP) then mask
          else match si_netmask i with None => mask | Some m => Z.lor mask m end
      end
  end.

(** [netmask] is the mask of the configuration; [interfaces] is [None] when the
    list cannot be read. *)
Definition GetMask (netmask : Z) (interfaces : option (list sys_interface)) (addr : Z) : Z :=
  let addr := ntohl addr in
  let nmask := if IN_CLASSA addr then IN_CLASSA_NET
               else if IN_CLASSB addr then IN_CLASSB_NET else IN_CLASSC_NET in
  let mask := Z.lor netmask (htonl nmask) in
  match interfaces with
  | None => mask
  | Some l => fold_left (mask_of addr nmask) l mask
  end.

(** [get_ether_addr]: whether an interface on the subnet of the address has a
    link-level address. *)
Definition on_subnet (ipaddr : Z) (i : sys_interface) : bool :=
  match si_addr i, si_flags i, si_netmask i with
  | Some ina, Some fl, Some mask =>
      (Z.land fl (Z.lor IFF_UP (Z.lor IFF_BROADCAST (Z.lor IFF_POINTOPOINT (Z.lor IFF_LOOPBACK IFF_NOARP))))
         =? Z.lor IFF_UP IFF_BROADCAST)
      && (Z.land ipaddr mask =? Z.land ina mask)
  | _, _, _ => false
  end.

Definition get_ether_addr (interfaces : option (list sys_interface)) (ipaddr : Z) : bool :=
  match interfaces with
  | None => false
  | Some l =>
      match list_find (fun i => on_subnet ipaddr i = true) l with
      | None => false
      | Some (_, ifp) => existsb (fun i => bool_decide (si_name ifp = si_name i) && si_link i) l
      end
  end.
End Addresses.

(** ** Lemmas *)

Lemma bswap32_bytes a b c d :
  byte_ok a -> byte_ok b -> byte_ok c -> byte_ok d ->
  bswap32 (a * 16777216 + b * 65536 + c * 256 + d) = d * 16777216 + c * 65536 + b * 256 + a.
Proof.
  unfold byte_ok. intros Ha Hb Hc Hd. unfold bswap32. rewrite -!Z.lor_assoc.
  set (x := _ + d).
  assert (E0 : u8 x = d) by (unfold u8, wrap; change (2 ^ 8) with 256; Z.to_euclidean_division_equations; lia).
  assert (E1 : u8 (Z.shiftr x 8) = c).
  { rewrite Z.shiftr_div_pow2 //. unfold u8, wrap. change (2 ^ 8) with 256. Z.to_euclidean_division_equations. lia. }
  assert (E2 : u8 (Z.shiftr x 16) = b).
  { rewrite Z.shiftr_div_pow2 //. unfold u8, wrap. change (2 ^ 8) with 256. change (2 ^ 16) with 65536.
    Z.to_euclidean_division_equations. lia. }
  assert (E3 : u8 (Z.shiftr x 24) = a).
  { rewrite Z.shiftr_div_pow2 //. unfold u8, wrap. change (2 ^ 8) with 256. change (2 ^ 24) with 16777216.
    Z.to_euclidean_division_equations. lia. }
  rewrite E0 E1 E2 E3. rewrite (lor_shiftl_add b); [lia..|]. rewrite (lor_shiftl_add c); [lia..|].
  rewrite (lor_shiftl_add d); lia.
Qed.

Lemma long_bytes x :
  0 <= x < 4294967296 ->
  exists a b c d, byte_ok a /\ byte_ok b /\ byte_ok c /\ byte_ok d /\
    x = a * 16777216 + b * 65536 + c * 256 + d.
Proof.
  intros Hx. exists (x / 16777216), (x / 65536 mod 256), (x / 256 mod 256), (x mod 256).
  unfold byte_ok. Z.to_euclidean_division_equations. lia.
Qed.

Section ByteOrderLemmas.
Context `{ByteOrder}.

Lemma htonl_range x : 0 <= x < 4294967296 -> 0 <= htonl x < 4294967296.
Proof.
  intros Hx. unfold htonl. destruct big_endian; [apply u32_range|].
  destruct (long_bytes x Hx) as (a & b & c & d & Ha & Hb & Hc & Hd & ->).
  rewrite bswap32_bytes //. unfold byte_ok in *. lia.
Qed.

Lemma htonl_involutive x : 0 <= x < 4294967296 -> htonl (htonl x) = x.
Proof.
  intros Hx. unfold htonl. destruct big_endian; [rewrite !u32_small //; apply u32_range|].
  destruct (long_bytes x Hx) as (a & b & c & d & Ha & Hb & Hc & Hd & ->).
  by rewrite bswap32_bytes // bswap32_bytes.
Qed.

Lemma htonl_0 : htonl 0 = 0.
Proof. unfold htonl. by destruct big_endian. Qed.

Lemma htonl_eq x y :
  0 <= x < 4294967296 -> 0 <= y < 4294967296 -> htonl x = y <-> x = htonl y.
Proof. intros Hx Hy. split; [intros <-|intros ->]; [symmetry|]; by apply htonl_involutive. Qed.

Lemma htonl_eqb x y :
  0 <= x < 4294967296 -> 0 <= y < 4294967296 -> (htonl x =? y) = (x =? htonl y).
Proof.
  intros Hx Hy. pose proof (htonl_eq x y Hx Hy) as Heq.
  destruct (Z.eqb_spec (htonl x) y) as [E|E], (Z.eqb_spec x (htonl y)) as [F|F]; tauto.
Qed.
End ByteOrderLemmas.
