(* ===== verification/Netif.v ===== *)
(** * The interface the daemon configures

    The part of [sys-rtems.c] IPCP uses: the system-dependent calls that set
    the interface up and take it down, with the variables the file keeps.  The
    outcome of the system calls, one after the other, is a parameter. *)

From S2P Require Import Prelude Wire Inet.

Inductive NPmode := NPMODE_PASS | NPMODE_DROP | NPMODE_ERROR | NPMODE_QUEUE.

#[export] Instance NPmode_eq_dec : EqDecision NPmode.
Proof. solve_decision. Defined.

Definition SC_COMP_TCP := 4.
Definition SC_NO_TCP_CCID := 8.

(** The variables of [sys-rtems.c] and, with them, what the system was told:
    the flags of the PPP device, the largest slot, the mode for IP packets, and
    the gateway of the default route it took from us (0 when there is none). *)
Record netif := Netif {
  ni_calls : nat;
  ni_flags : Z;
  ni_maxcid : Z;
  ni_npmode : NPmode;
  if_is_up : bool;
  ifaddrs : Z * Z;
  default_route_gateway : Z;
  proxy_arp_addr : Z;
  arpmsg_valid : bool;
  ni_route : Z
}.

Definition set_ni_flags v (n : netif) : netif :=
  Netif (ni_calls n) v (ni_maxcid n) (ni_npmode n) (if_is_up n) (ifaddrs n) (default_route_gateway n)
    (proxy_arp_addr n) (arpmsg_valid n) (ni_route n).
Definition set_ni_maxcid v (n : netif) : netif :=
  Netif (ni_calls n) (ni_flags n) v (ni_npmode n) (if_is_up n) (ifaddrs n) (default_route_gateway n)
    (proxy_arp_addr n) (arpmsg_valid n) (ni_route n).
Definition set_npmode v (n : netif) : netif :=
  Netif (ni_calls n) (ni_flags n) (ni_maxcid n) v (if_is_up n) (ifaddrs n) (default_route_gateway n)
    (proxy_arp_addr n) (arpmsg_valid n) (ni_route n).
Definition set_if_is_up v (n : netif) : netif :=
  Netif (ni_calls n) (ni_flags n) (ni_maxcid n) (ni_npmode n) v (ifaddrs n) (default_route_gateway n)
    (proxy_arp_addr n) (arpmsg_valid n) (ni_route n).
Definition set_ifaddrs v (n : netif) : netif :=
  Netif (ni_calls n) (ni_flags n) (ni_maxcid n) (ni_npmode n) (if_is_up n) v (default_route_gateway n)
    (proxy_arp_addr n) (arpmsg_valid n) (ni_route n).
Definition set_gateway v (n : netif) : netif :=
  Netif (ni_calls n) (ni_flags n) (ni_maxcid n) (ni_npmode n) (if_is_up n) (ifaddrs n) v
    (proxy_arp_addr n) (arpmsg_valid n) (ni_route n).
Definition set_proxy v (n : netif) : netif :=
  Netif (ni_calls n) (ni_flags n) (ni_maxcid n) (ni_npmode n) (if_is_up n) (ifaddrs n) (default_route_gateway n)
    v (arpmsg_valid n) (ni_route n).
Definition set_arpmsg_valid v (n : netif) : netif :=
  Netif (ni_calls n) (ni_flags n) (ni_maxcid n) (ni_npmode n) (if_is_up n) (ifaddrs n) (default_route_gateway n)
    (proxy_arp_addr n) v (ni_route n).
Definition set_ni_route v (n : netif) : netif :=
  Netif (ni_calls n) (ni_flags n) (ni_maxcid n) (ni_npmode n) (if_is_up n) (ifaddrs n) (default_route_gateway n)
    (proxy_arp_addr n) (arpmsg_valid n) v.

Definition EEXIST := 17.

Section Netif.
(** The error number of each system call, [None] if it succeeds; the list of
    interfaces. *)
Context (syscall : nat -> option Z) (interfaces : option (list sys_interface)).

(** One system call. *)
Definition sys (n : netif) : option Z * netif :=
  (syscall (ni_calls n),
   Netif (S (ni_calls n)) (ni_flags n) (ni_maxcid n) (ni_npmode n) (if_is_up n) (ifaddrs n)
     (default_route_gateway n) (proxy_arp_addr n) (arpmsg_valid n) (ni_route n)).

(** [if (ioctl(...) < 0) return 0; ...] *)
Definition sys_then (k : netif -> bool * netif) (n : netif) : bool * netif :=
  let '(err, n) := sys n in match err with Some _ => (false, n) | None => k n end.

Definition sifvjcomp (vjcomp cidcomp : bool) (maxcid : Z) : netif -> bool * netif :=
  sys_then (fun n =>
    let x := ni_flags n in
    let x := if vjcomp then Z.lor x SC_COMP_TCP else Z.ldiff x SC_COMP_TCP in
    let x := if cidcomp then Z.ldiff x SC_NO_TCP_CCID else Z.lor x SC_NO_TCP_CCID in
    sys_then (fun n =>
      let n := set_ni_flags x n in
      if vjcomp then sys_then (fun n => (true, set_ni_maxcid maxcid n)) n else (true, n)) n).

Definition sifup : netif -> bool * netif :=
  sys_then (sys_then (fun n => (true, set_if_is_up true n))).

Definition sifnpmode (mode : NPmode) : netif -> bool * netif :=
  sys_then (fun n => (true, set_npmode mode n)).

Definition sifdown (n : netif) : bool * netif :=
  let '(err, n) := sys n in
  let n := match err with None => set_npmode NPMODE_ERROR n | Some _ => n end in
  sys_then (sys_then (fun n => (true, set_if_is_up false n))) n.

(** Removing an old address may fail; that the new one exists already is no
    failure. *)
Definition sifaddr (o h m : Z) (n : netif) : bool * netif :=
  let '(_, n) := sys n in
  let '(err, n) := sys n in
  match err with
  | Some e => if e =? EEXIST then (true, set_ifaddrs (o, h) n) else (false, n)
  | None => (true, set_ifaddrs (o, h) n)
  end.

Definition cifaddr (o h : Z) (n : netif) : bool * netif :=
  let n := set_ifaddrs (0, (ifaddrs n).2) n in
  let '(err, n) := sys n in
  (match err with None => true | Some _ => false end, n).

(** [dodefaultroute] does not look at the result of the request. *)
Definition dodefaultroute (g : Z) (n : netif) : bool * netif :=
  let '(err, n) := sys n in
  let n := match err with None => set_ni_route g n | Some _ => n end in
  (true, set_gateway g n).
Definition sifdefaultroute (l g : Z) : netif -> bool * netif := dodefaultroute g.
Definition cifdefaultroute (l g : Z) : netif -> bool * netif := dodefaultroute 0.

(** A socket is opened and a message written to it. *)
Definition sifproxyarp (hisaddr : Z) (n : netif) : bool * netif :=
  if negb (get_ether_addr interfaces hisaddr) then (false, n)
  else sys_then (sys_then (fun n => (true, set_proxy hisaddr (set_arpmsg_valid true n)))) n.

Definition cifproxyarp (hisaddr : Z) (n : netif) : bool * netif :=
  if negb (arpmsg_valid n) then (false, n)
  else sys_then (sys_then (fun n => (true, set_proxy 0 n))) (set_arpmsg_valid false n).
End Netif.
