(* ===== verification/IpcpOptions.v ===== *)
(** * IPCP options: requests and the answers to them

    The configuration options of the IP Control Protocol ([ipcp.c], [ipcp.h]):
    addresses in the new form (one address) and the old (both), Van Jacobson
    compression in a long and a short form, and name servers.  As in [lcp.c]
    the macros are definitions of the same names.  [ipcp_cilen] and
    [ipcp_addci] change the options they announce. *)

From S2P Require Import Prelude Wire Inet LcpOptions.

(** ** Constants *)

Definition CI_ADDRS := 1.
Definition CI_COMPRESSTYPE := 2.
Definition CI_ADDR := 3.
Definition CI_MS_DNS1 := 129.
Definition CI_MS_WINS1 := 130.
Definition CI_MS_DNS2 := 131.
Definition CI_MS_WINS2 := 132.

Definition CILEN_COMPRESS := 4.
Definition CILEN_VJ := 6.
Definition CILEN_ADDR := 6.
Definition CILEN_ADDRS := 10.

Definition MAX_STATES := 16.
Definition IPCP_VJ_COMP := 45.     (* 0x002d *)
Definition IPCP_VJ_COMP_OLD := 55. (* 0x0037 *)

(** ** Options *)

Record ipcp_options := IpcpOptions {
  neg_addr : bool;
  old_addrs : bool;
  req_addr : bool;
  default_route : bool;
  proxy_arp : bool;
  neg_vj : bool;
  old_vj : bool;
  accept_local : bool;
  accept_remote : bool;
  req_dns1 : bool;
  req_dns2 : bool;
  vj_protocol : Z;
  maxslotindex : Z;
  cflag : bool;
  ouraddr : Z;
  hisaddr : Z;
  dnsaddr0 : Z;
  dnsaddr1 : Z;
  winsaddr0 : Z;
  winsaddr1 : Z
}.

Definition set_neg_addr v (o : ipcp_options) : ipcp_options :=
  IpcpOptions v (old_addrs o) (req_addr o) (default_route o) (proxy_arp o) (neg_vj o)
    (old_vj o) (accept_local o) (accept_remote o) (req_dns1 o) (req_dns2 o) (vj_protocol o)
    (maxslotindex o) (cflag o) (ouraddr o) (hisaddr o) (dnsaddr0 o) (dnsaddr1 o) (winsaddr0 o)
    (winsaddr1 o).
Definition set_old_addrs v (o : ipcp_options) : ipcp_options :=
  IpcpOptions (neg_addr o) v (req_addr o) (default_route o) (proxy_arp o) (neg_vj o) (old_vj o)
    (accept_local o) (accept_remote o) (req_dns1 o) (req_dns2 o) (vj_protocol o)
    (maxslotindex o) (cflag o) (ouraddr o) (hisaddr o) (dnsaddr0 o) (dnsaddr1 o) (winsaddr0 o)
    (winsaddr1 o).
Definition set_req_addr v (o : ipcp_options) : ipcp_options :=
  IpcpOptions (neg_addr o) (old_addrs o) v (default_route o) (proxy_arp o) (neg_vj o)
    (old_vj o) (accept_local o) (accept_remote o) (req_dns1 o) (req_dns2 o) (vj_protocol o)
    (maxslotindex o) (cflag o) (ouraddr o) (hisaddr o) (dnsaddr0 o) (dnsaddr1 o) (winsaddr0 o)
    (winsaddr1 o).
Definition set_neg_vj v (o : ipcp_options) : ipcp_options :=
  IpcpOptions (neg_addr o) (old_addrs o) (req_addr o) (default_route o) (proxy_arp o) v
    (old_vj o) (accept_local o) (accept_remote o) (req_dns1 o) (req_dns2 o) (vj_protocol o)
    (maxslotindex o) (cflag o) (ouraddr o) (hisaddr o) (dnsaddr0 o) (dnsaddr1 o) (winsaddr0 o)
    (winsaddr1 o).
Definition set_old_vj v (o : ipcp_options) : ipcp_options :=
  IpcpOptions (neg_addr o) (old_addrs o) (req_addr o) (default_route o) (proxy_arp o)
    (neg_vj o) v (accept_local o) (accept_remote o) (req_dns1 o) (req_dns2 o) (vj_protocol o)
    (maxslotindex o) (cflag o) (ouraddr o) (hisaddr o) (dnsaddr0 o) (dnsaddr1 o) (winsaddr0 o)
    (winsaddr1 o).
Definition set_accept_local v (o : ipcp_options) : ipcp_options :=
  IpcpOptions (neg_addr o) (old_addrs o) (req_addr o) (default_route o) (proxy_arp o)
    (neg_vj o) (old_vj o) v (accept_remote o) (req_dns1 o) (req_dns2 o) (vj_protocol o)
    (maxslotindex o) (cflag o) (ouraddr o) (hisaddr o) (dnsaddr0 o) (dnsaddr1 o) (winsaddr0 o)
    (winsaddr1 o).
Definition set_accept_remote v (o : ipcp_options) : ipcp_options :=
  IpcpOptions (neg_addr o) (old_addrs o) (req_addr o) (default_route o) (proxy_arp o)
    (neg_vj o) (old_vj o) (accept_local o) v (req_dns1 o) (req_dns2 o) (vj_protocol o)
    (maxslotindex o) (cflag o) (ouraddr o) (hisaddr o) (dnsaddr0 o) (dnsaddr1 o) (winsaddr0 o)
    (winsaddr1 o).
Definition set_req_dns1 v (o : ipcp_options) : ipcp_options :=
  IpcpOptions (neg_addr o) (old_addrs o) (req_addr o) (default_route o) (proxy_arp o)
    (neg_vj o) (old_vj o) (accept_local o) (accept_remote o) v (req_dns2 o) (vj_protocol o)
    (maxslotindex o) (cflag o) (ouraddr o) (hisaddr o) (dnsaddr0 o) (dnsaddr1 o) (winsaddr0 o)
    (winsaddr1 o).
Definition set_req_dns2 v (o : ipcp_options) : ipcp_options :=
  IpcpOptions (neg_addr o) (old_addrs o) (req_addr o) (default_route o) (proxy_arp o)
    (neg_vj o) (old_vj o) (accept_local o) (accept_remote o) (req_dns1 o) v (vj_protocol o)
    (maxslotindex o) (cflag o) (ouraddr o) (hisaddr o) (dnsaddr0 o) (dnsaddr1 o) (winsaddr0 o)
    (winsaddr1 o).
Definition set_vj_protocol v (o : ipcp_options) : ipcp_options :=
  IpcpOptions (neg_addr o) (old_addrs o) (req_addr o) (default_route o) (proxy_arp o)
    (neg_vj o) (old_vj o) (accept_local o) (accept_remote o) (req_dns1 o) (req_dns2 o) v
    (maxslotindex o) (cflag o) (ouraddr o) (hisaddr o) (dnsaddr0 o) (dnsaddr1 o) (winsaddr0 o)
    (winsaddr1 o).
Definition set_maxslotindex v (o : ipcp_options) : ipcp_options :=
  IpcpOptions (neg_addr o) (old_addrs o) (req_addr o) (default_route o) (proxy_arp o)
    (neg_vj o) (old_vj o) (accept_local o) (accept_remote o) (req_dns1 o) (req_dns2 o)
    (vj_protocol o) v (cflag o) (ouraddr o) (hisaddr o) (dnsaddr0 o) (dnsaddr1 o) (winsaddr0 o)
    (winsaddr1 o).
Definition set_cflag v (o : ipcp_options) : ipcp_options :=
  IpcpOptions (neg_addr o) (old_addrs o) (req_addr o) (default_route o) (proxy_arp o)
    (neg_vj o) (old_vj o) (accept_local o) (accept_remote o) (req_dns1 o) (req_dns2 o)
    (vj_protocol o) (maxslotindex o) v (ouraddr o) (hisaddr o) (dnsaddr0 o) (dnsaddr1 o)
    (winsaddr0 o) (winsaddr1 o).
Definition set_ouraddr v (o : ipcp_options) : ipcp_options :=
  IpcpOptions (neg_addr o) (old_addrs o) (req_addr o) (default_route o) (proxy_arp o)
    (neg_vj o) (old_vj o) (accept_local o) (accept_remote o) (req_dns1 o) (req_dns2 o)
    (vj_protocol o) (maxslotindex o) (cflag o) v (hisaddr o) (dnsaddr0 o) (dnsaddr1 o)
    (winsaddr0 o) (winsaddr1 o).
Definition set_hisaddr v (o : ipcp_options) : ipcp_options :=
  IpcpOptions (neg_addr o) (old_addrs o) (req_addr o) (default_route o) (proxy_arp o)
    (neg_vj o) (old_vj o) (accept_local o) (accept_remote o) (req_dns1 o) (req_dns2 o)
    (vj_protocol o) (maxslotindex o) (cflag o) (ouraddr o) v (dnsaddr0 o) (dnsaddr1 o)
    (winsaddr0 o) (winsaddr1 o).
Definition set_dnsaddr0 v (o : ipcp_options) : ipcp_options :=
  IpcpOptions (neg_addr o) (old_addrs o) (req_addr o) (default_route o) (proxy_arp o)
    (neg_vj o) (old_vj o) (accept_local o) (accept_remote o) (req_dns1 o) (req_dns2 o)
    (vj_protocol o) (maxslotindex o) (cflag o) (ouraddr o) (hisaddr o) v (dnsaddr1 o)
    (winsaddr0 o) (winsaddr1 o).
Definition set_dnsaddr1 v (o : ipcp_options) : ipcp_options :=
  IpcpOptions (neg_addr o) (old_addrs o) (req_addr o) (default_route o) (proxy_arp o)
    (neg_vj o) (old_vj o) (accept_local o) (accept_remote o) (req_dns1 o) (req_dns2 o)
    (vj_protocol o) (maxslotindex o) (cflag o) (ouraddr o) (hisaddr o) (dnsaddr0 o) v
    (winsaddr0 o) (winsaddr1 o).
Definition set_winsaddr0 v (o : ipcp_options) : ipcp_options :=
  IpcpOptions (neg_addr o) (old_addrs o) (req_addr o) (default_route o) (proxy_arp o)
    (neg_vj o) (old_vj o) (accept_local o) (accept_remote o) (req_dns1 o) (req_dns2 o)
    (vj_protocol o) (maxslotindex o) (cflag o) (ouraddr o) (hisaddr o) (dnsaddr0 o)
    (dnsaddr1 o) v (winsaddr1 o).
Definition set_winsaddr1 v (o : ipcp_options) : ipcp_options :=
  IpcpOptions (neg_addr o) (old_addrs o) (req_addr o) (default_route o) (proxy_arp o)
    (neg_vj o) (old_vj o) (accept_local o) (accept_remote o) (req_dns1 o) (req_dns2 o)
    (vj_protocol o) (maxslotindex o) (cflag o) (ouraddr o) (hisaddr o) (dnsaddr0 o)
    (dnsaddr1 o) (winsaddr0 o) v.

(** [BZERO] of an option record. *)
Definition no_ip_options : ipcp_options :=
  IpcpOptions false false false false false false false false false false false 0 0 false 0 0 0 0 0 0.

(** What [ipcp_init] leaves in our wishes and in what we allow. *)
Definition ipcp_want_init : ipcp_options :=
  set_cflag true (set_maxslotindex (MAX_STATES - 1) (set_vj_protocol IPCP_VJ_COMP
    (set_neg_vj true (set_neg_addr true no_ip_options)))).
Definition ipcp_allow_init : ipcp_options :=
  IpcpOptions true false false true true true false false false false false 0 (MAX_STATES - 1) true 0 0 0 0 0 0.

(** ** Our options *)

(** [disable_defaultip] and [usepeerdns] are settings of the configuration; the
    first options are [wo], the second [go]. *)
Definition ipcp_reset (disable_defaultip usepeerdns : bool) (wo ao : ipcp_options)
    : ipcp_options * ipcp_options :=
  let wo := set_req_addr (neg_addr wo && neg_addr ao) wo in
  let wo := if (ouraddr wo =? 0) || disable_defaultip then set_accept_local true wo else wo in
  let wo := if hisaddr wo =? 0 then set_accept_remote true wo else wo in
  let wo := set_req_dns2 usepeerdns (set_req_dns1 usepeerdns wo) in
  (wo, if disable_defaultip then set_ouraddr 0 wo else wo).

Definition LENCIVJ (neg old : bool) : Z := if neg then (if old then CILEN_COMPRESS else CILEN_VJ) else 0.
Definition LENCIADDR (neg old : bool) : Z := if neg then (if old then CILEN_ADDRS else CILEN_ADDR) else 0.
Definition LENCIDNS (neg : bool) : Z := if neg then CILEN_ADDR else 0.

(** The change to the old forms of the options. *)
Definition fall_back (wo ho go : ipcp_options) : ipcp_options :=
  let go := if neg_addr wo && negb (neg_addr go) && negb (old_addrs go)
            then set_old_addrs true (set_neg_addr true go) else go in
  if neg_vj wo && negb (neg_vj go) && negb (old_vj go) && (neg_vj ho && old_vj ho)
  then set_vj_protocol (vj_protocol ho) (set_old_vj true (set_neg_vj true go)) else go.

Definition cilen_of (go : ipcp_options) : Z :=
  LENCIADDR (neg_addr go) (old_addrs go) + LENCIVJ (neg_vj go) (old_vj go)
  + LENCIDNS (req_dns1 go) + LENCIDNS (req_dns2 go).

Definition ipcp_cilen (wo ho go : ipcp_options) : Z * ipcp_options :=
  let go := fall_back wo ho go in (cilen_of go, go).

Section Options.
Context `{ByteOrder}.

(** The room that is left, our options and the bytes written at [ucp]. *)
Record add_state := AddState { as_len : Z; as_go : ipcp_options; as_out : bytes }.

(** The common part of the [ADDCI] macros: an option that does not fit is
    dropped from the request. *)
Definition add_option (neg : bool) (n : Z) (enc : bytes) (drop_it : ipcp_options -> ipcp_options)
    (s : add_state) : add_state :=
  if neg then
    if n <=? as_len s then AddState (as_len s - n) (as_go s) (as_out s ++ enc)
    else AddState (as_len s) (drop_it (as_go s)) (as_out s)
  else s.

Definition vj_bytes (opt val : Z) (old : bool) (maxslot : Z) (cf : bool) : bytes :=
  PUTCHAR opt ++ PUTCHAR (if old then CILEN_COMPRESS else CILEN_VJ) ++ PUTSHORT val
  ++ (if old then [] else PUTCHAR maxslot ++ PUTCHAR (if cf then 1 else 0)).
Definition addr_bytes (opt : Z) (old : bool) (val1 val2 : Z) : bytes :=
  PUTCHAR opt ++ PUTCHAR (if old then CILEN_ADDRS else CILEN_ADDR) ++ PUTLONG (ntohl val1)
  ++ (if old then PUTLONG (ntohl val2) else []).
Definition dns_bytes (opt addr : Z) : bytes := PUTCHAR opt ++ PUTCHAR CILEN_ADDR ++ PUTLONG (ntohl addr).

Definition ADDCIVJ (opt : Z) (neg : bool) (val : Z) (old : bool) (maxslot : Z) (cf : bool)
    : add_state -> add_state :=
  add_option neg (if old then CILEN_COMPRESS else CILEN_VJ) (vj_bytes opt val old maxslot cf) (set_neg_vj false).
Definition ADDCIADDR (opt : Z) (neg old : bool) (val1 val2 : Z) : add_state -> add_state :=
  add_option neg (if old then CILEN_ADDRS else CILEN_ADDR) (addr_bytes opt old val1 val2) (set_neg_addr false).
Definition ADDCIDNS (opt : Z) (neg : bool) (addr : Z) (drop_it : ipcp_options -> ipcp_options)
    : add_state -> add_state :=
  add_option neg CILEN_ADDR (dns_bytes opt addr) drop_it.

(** The type of the address option in use. *)
Definition addr_type (go : ipcp_options) : Z := if old_addrs go then CI_ADDRS else CI_ADDR.

(** The bytes of the request, the value left in [*lenp], our options. *)
Definition ipcp_addci (go : ipcp_options) (len : Z) : bytes * Z * ipcp_options :=
  let s := AddState len go [] in
  let s := ADDCIADDR (addr_type go) (neg_addr go) (old_addrs go) (ouraddr go) (hisaddr go) s in
  let s := ADDCIVJ CI_COMPRESSTYPE (neg_vj go) (vj_protocol go) (old_vj go) (maxslotindex go) (cflag go) s in
  let s := ADDCIDNS CI_MS_DNS1 (req_dns1 go) (dnsaddr0 go) (set_req_dns1 false) s in
  let s := ADDCIDNS CI_MS_DNS2 (req_dns2 go) (dnsaddr1 go) (set_req_dns2 false) s in
  (as_out s, len - as_len s, as_go s).

(** ** Configure-Ack *)

(** [GETLONG(l, p); if (val != htonl(l)) goto bad;] *)
Definition check_addr (val : Z) (c : cursor) : parse cursor :=
  '(l, p) ← get (GETLONG (cu_p c));
  unless_bad (htonl l =? val) (Good (Cursor p (cu_len c))).
Definition check_char (val : Z) (c : cursor) : parse cursor :=
  '(ch, p) ← get (GETCHAR (cu_p c));
  unless_bad (ch =? val) (Good (Cursor p (cu_len c))).
Definition check_short (val : Z) (c : cursor) : parse cursor :=
  '(s, p) ← get (GETSHORT (cu_p c));
  unless_bad (s =? val) (Good (Cursor p (cu_len c))).

Definition ACKCIVJ (opt : Z) (neg : bool) (val : Z) (old : bool) (maxslot : Z) (cf : bool) (c : cursor)
    : parse cursor :=
  if neg then
    c ← ack_head opt (if old then CILEN_COMPRESS else CILEN_VJ) c;
    c ← check_short val c;
    if old then Good c else c ← check_char maxslot c; check_char (if cf then 1 else 0) c
  else Good c.

Definition ACKCIADDR (opt : Z) (neg old : bool) (val1 val2 : Z) (c : cursor) : parse cursor :=
  if neg then
    c ← ack_head opt (if old then CILEN_ADDRS else CILEN_ADDR) c;
    c ← check_addr val1 c;
    if old then check_addr val2 c else Good c
  else Good c.

Definition ACKCIDNS (opt : Z) (neg : bool) (addr : Z) (c : cursor) : parse cursor :=
  if neg then c ← ack_head opt CILEN_ADDR c; check_addr addr c else Good c.

Definition ipcp_ack_options (go : ipcp_options) (c : cursor) : parse cursor :=
  c ← ACKCIADDR (addr_type go) (neg_addr go) (old_addrs go) (ouraddr go) (hisaddr go) c;
  c ← ACKCIVJ CI_COMPRESSTYPE (neg_vj go) (vj_protocol go) (old_vj go) (maxslotindex go) (cflag go) c;
  c ← ACKCIDNS CI_MS_DNS1 (req_dns1 go) (dnsaddr0 go) c;
  ACKCIDNS CI_MS_DNS2 (req_dns2 go) (dnsaddr1 go) c.

Definition ipcp_ackci (go : ipcp_options) (p : bytes) (len : Z) : parse () :=
  c ← ipcp_ack_options go (Cursor p len);
  unless_bad (cu_len c =? 0) (Good tt).

(** ** Conditions of the Nak and Reject macros *)

(** A test that looks at [p[1]] first and at the room last: [p[1]] is one of
    the lengths, the packet has them, and [p[0]] is the type. *)
Definition starts_late (opt : Z) (lens : list Z) (c : cursor) : parse (option Z) :=
  match cu_p c with
  | p0 :: p1 :: _ =>
      Good (if bool_decide (p1 ∈ lens) && (p1 <=? cu_len c) && (p0 =? opt) then Some p1 else None)
  | _ => Oob
  end.

(** ** Configure-Reject *)

(** A cursor over the packet and the options to ask for next. *)
Abbreviation rej_state := (cursor * ipcp_options)%type.

Definition REJCIADDR (opt : Z) (neg old : bool) (val1 val2 : Z) (st : rej_state) : parse rej_state :=
  let '(c, try) := st in
  let n := if old then CILEN_ADDRS else CILEN_ADDR in
  if neg then
    m ← starts opt n c;
    if (m : bool) then
      c ← check_addr val1 (take_head n c);
      c ← (if old then check_addr val2 c else Good c);
      Good (c, set_neg_addr false try)
    else Good st
  else Good st.

Definition REJCIVJ (opt : Z) (neg : bool) (val : Z) (old : bool) (maxslot : Z) (cf : bool)
    (st : rej_state) : parse rej_state :=
  let '(c, try) := st in
  if neg then
    m ← starts_late opt [if old then CILEN_COMPRESS else CILEN_VJ] c;
    match m with
    | Some n =>
        c ← check_short val (take_head n c);
        c ← (if old then Good c else c ← check_char maxslot c; check_char (if cf then 1 else 0) c);
        Good (c, set_neg_vj false try)
    | None => Good st
    end
  else Good st.

Definition REJCIDNS (opt : Z) (neg : bool) (addr : Z) (drop_it : ipcp_options -> ipcp_options)
    (st : rej_state) : parse rej_state :=
  let '(c, try) := st in
  if neg then
    m ← starts_late opt [CILEN_ADDR] c;
    match m with
    | Some n => c ← check_addr addr (take_head n c); Good (c, drop_it try)
    | None => Good st
    end
  else Good st.

(** The options to ask for after a good Reject. *)
Definition ipcp_rejci (go : ipcp_options) (p : bytes) (len : Z) : parse ipcp_options :=
  st ← REJCIADDR (addr_type go) (neg_addr go) (old_addrs go) (ouraddr go) (hisaddr go) (Cursor p len, go);
  st ← REJCIVJ CI_COMPRESSTYPE (neg_vj go) (vj_protocol go) (old_vj go) (maxslotindex go) (cflag go) st;
  st ← REJCIDNS CI_MS_DNS1 (req_dns1 go) (dnsaddr0 go) (set_req_dns1 false) st;
  st ← REJCIDNS CI_MS_DNS2 (req_dns2 go) (dnsaddr1 go) (set_req_dns2 false) st;
  unless_bad (cu_len st.1 =? 0) (Good st.2).

(** ** Configure-Nak *)

(** The locals of [ipcp_nakci]. *)
Record ipcp_nak := IpcpNak { in_c : cursor; in_no : ipcp_options; in_try : ipcp_options }.

Definition get_addr (c : cursor) : parse (Z * cursor) :=
  '(l, p) ← get (GETLONG (cu_p c)); Good (htonl l, Cursor p (cu_len c)).

(** Take the peer's idea of our address and of his, where we may. *)
Definition accept_addrs (go : ipcp_options) (ciaddr1 ciaddr2 : Z) (try : ipcp_options) : ipcp_options :=
  let try := if accept_local go && negb (ciaddr1 =? 0) then set_ouraddr ciaddr1 try else try in
  if accept_remote go && negb (ciaddr2 =? 0) then set_hisaddr ciaddr2 try else try.

Definition NAKCIADDR (go : ipcp_options) (opt : Z) (old : bool) (s : ipcp_nak) : parse ipcp_nak :=
  let n := if old then CILEN_ADDRS else CILEN_ADDR in
  if neg_addr go then
    m ← starts opt n (in_c s);
    if (m : bool) then
      '(ciaddr1, c) ← get_addr (take_head n (in_c s));
      '(ciaddr2, c) ← (if old then get_addr c else Good (0, c));
      let no := if old then set_old_addrs true (in_no s) else in_no s in
      Good (IpcpNak c (set_neg_addr true no) (accept_addrs go ciaddr1 ciaddr2 (in_try s)))
    else Good s
  else Good s.

Definition NAKCIVJ (go : ipcp_options) (opt : Z) (s : ipcp_nak) : parse ipcp_nak :=
  if neg_vj go then
    m ← starts_late opt [CILEN_COMPRESS; CILEN_VJ] (in_c s);
    match m with
    | Some n =>
        let c := take_head n (in_c s) in
        '(cishort, p) ← get (GETSHORT (cu_p c));
        let no := set_neg_vj true (in_no s) in
        let try := in_try s in
        if n =? CILEN_VJ then
          '(cimaxslotindex, p) ← get (GETCHAR p);
          '(cicflag, p) ← get (GETCHAR p);
          let try :=
            if cishort =? IPCP_VJ_COMP then
              let try := set_old_vj false try in
              let try := if cimaxslotindex <? maxslotindex go then set_maxslotindex cimaxslotindex try else try in
              if cicflag =? 0 then set_cflag false try else try
            else set_neg_vj false try in
          Good (IpcpNak (Cursor p (cu_len c)) no try)
        else
          let try :=
            if (cishort =? IPCP_VJ_COMP) || (cishort =? IPCP_VJ_COMP_OLD)
            then set_vj_protocol cishort (set_old_vj true try) else set_neg_vj false try in
          Good (IpcpNak (Cursor p (cu_len c)) no try)
    | None => Good s
    end
  else Good s.

Definition NAKCIDNS (opt : Z) (neg : bool) (mark : ipcp_options -> ipcp_options)
    (code : Z -> ipcp_options -> ipcp_options) (s : ipcp_nak) : parse ipcp_nak :=
  if neg then
    m ← starts_late opt [CILEN_ADDR] (in_c s);
    match m with
    | Some n =>
        '(cidnsaddr, c) ← get_addr (take_head n (in_c s));
        Good (IpcpNak c (mark (in_no s)) (code cidnsaddr (in_try s)))
    | None => Good s
    end
  else Good s.

Definition ipcp_nak_requested (go : ipcp_options) (s : ipcp_nak) : parse ipcp_nak :=
  s ← NAKCIADDR go (addr_type go) (old_addrs go) s;
  s ← NAKCIVJ go CI_COMPRESSTYPE s;
  s ← NAKCIDNS CI_MS_DNS1 (req_dns1 go) (set_req_dns1 true) set_dnsaddr0 s;
  NAKCIDNS CI_MS_DNS2 (req_dns2 go) (set_req_dns2 true) set_dnsaddr1 s.

(** One pass of the loop over the options we did not ask for.  The next pass
    starts [cilen] bytes behind the start of this one. *)
Definition ipcp_nak_extra (go : ipcp_options) (s : ipcp_nak) : parse ipcp_nak :=
  '(citype, p) ← get (GETCHAR (cu_p (in_c s)));
  '(cilen, p) ← get (GETCHAR p);
  let len := cu_len (in_c s) - cilen in
  unless_bad (negb (len <? 0)) (
  let next := Cursor (drop (Z.to_nat cilen) (cu_p (in_c s))) len in
  let no := in_no s in
  let try := in_try s in
  if citype =? CI_COMPRESSTYPE then
    unless_bad (negb (neg_vj go || neg_vj no || (negb (cilen =? CILEN_VJ) && negb (cilen =? CILEN_COMPRESS))))
      (Good (IpcpNak next (set_neg_vj true no) try))
  else if citype =? CI_ADDRS then
    unless_bad (negb ((neg_addr go && old_addrs go) || old_addrs no || negb (cilen =? CILEN_ADDRS))) (
    '(ciaddr1, c) ← get_addr (Cursor p len);
    '(ciaddr2, _) ← get_addr c;
    let try := set_old_addrs true (set_neg_addr true try) in
    Good (IpcpNak next (set_old_addrs true no) (accept_addrs go ciaddr1 ciaddr2 try)))
  else if citype =? CI_ADDR then
    unless_bad (negb (neg_addr go || neg_addr no || negb (cilen =? CILEN_ADDR))) (
    '(ciaddr1, _) ← get_addr (Cursor p len);
    let try := accept_addrs go ciaddr1 0 (set_old_addrs false try) in
    let try := if ouraddr try =? 0 then try else set_neg_addr true try in
    Good (IpcpNak next (set_neg_addr true no) try))
  else Good (IpcpNak next no try)).

(** [while (len > CILEN_VOID)]; [None]: the passes are used up and the loop has
    not ended. *)
Fixpoint ipcp_nak_loop (go : ipcp_options) (fuel : nat) (s : ipcp_nak) : option (parse ipcp_nak) :=
  if CILEN_VOID <? cu_len (in_c s) then
    match fuel with
    | O => None
    | S fuel' =>
        match ipcp_nak_extra go s with
        | Good s => ipcp_nak_loop go fuel' s
        | Bad => Some Bad
        | Oob => Some Oob
        end
    end
  else Some (Good s).

(** The parsing half of [ipcp_nakci]: the options to try next. *)
Definition ipcp_nakci (go : ipcp_options) (fuel : nat) (p : bytes) (len : Z) : option (parse ipcp_options) :=
  match ipcp_nak_requested go (IpcpNak (Cursor p len) no_ip_options go) with
  | Good s => option_map (fun r => s ← r; Good (in_try s)) (ipcp_nak_loop go fuel s)
  | Bad => Some Bad
  | Oob => Some Oob
  end.
End Options.
