(* ===== verification/IpcpOptionsSpec.v ===== *)
(** * IPCP options: theorems on our own request

    An Ack is accepted exactly when it repeats the request; a Reject is accepted
    exactly when it names options of the request, and turns off just these. *)

From S2P Require Import Prelude Wire Inet LcpOptions LcpOptionsSpec IpcpOptions.

Definition addr_ok (a : Z) : Prop := 0 <= a < 4294967296.

(** Option values in the range of their C types; the largest slot fits the
    byte it is sent in. *)
Record ip_options_ok (o : ipcp_options) : Prop := {
  ouraddr_ok : addr_ok (ouraddr o);
  hisaddr_ok : addr_ok (hisaddr o);
  dns0_ok : addr_ok (dnsaddr0 o);
  dns1_ok : addr_ok (dnsaddr1 o);
  vj_ok : 0 <= vj_protocol o < 65536;
  slot_ok : byte_ok (maxslotindex o)
}.

Section Spec.
Context `{ByteOrder}.

(** ** Acks *)

Lemma reads_bind enc1 enc2 rd1 rd2 :
  reads enc1 rd1 -> reads enc2 rd2 -> reads (enc1 ++ enc2) (fun c => c ← rd1 c; rd2 c).
Proof.
  intros H1 H2 c Hb Hl. rewrite length_app in Hl. specialize (H1 c Hb ltac:(lia)).
  destruct (rd1 c) as [c1| |]; simpl; [|intros (q & Hq); apply H1; exists (enc2 ++ q); by rewrite Hq app_assoc|done].
  destruct H1 as [Hp1 Hl1]. specialize (H2 c1).
  destruct (rd2 c1) as [c2| |]; rewrite Hp1 in Hb, Hl; rewrite length_app in Hl; apply Forall_app in Hb as [_ Hb].
  - destruct H2 as [Hp2 Hl2]; [done|lia|]. split; [by rewrite Hp1 Hp2 app_assoc|congruence].
  - intros (q & Hq). apply H2; [done|lia|]. exists q. rewrite Hp1 -app_assoc in Hq. by apply app_inv_head in Hq.
  - apply H2; [done|lia].
Qed.

Lemma reads_if (b : bool) enc rd :
  reads enc rd -> reads (if b then enc else []) (fun c => if b then rd c else Good c).
Proof. intros Hr. destruct b; [done|apply reads_void]. Qed.

Lemma reads_addr val : addr_ok val -> reads (PUTLONG (ntohl val)) (check_addr val).
Proof.
  intros Hv. eapply reads_agree; [apply (reads_long (ntohl val)); by apply htonl_range|].
  intros [p len] Hb Hl. simpl in *. destruct (GETLONG_within p Hb Hl) as (v & p' & Hg & Hr & _).
  unfold check_addr. simpl. rewrite Hg /= htonl_eqb //.
Qed.

Lemma takes_addr opt (neg old : bool) val1 val2 :
  byte_ok opt -> addr_ok val1 -> addr_ok val2 ->
  takes (if neg then addr_bytes opt old val1 val2 else []) (ACKCIADDR opt neg old val1 val2).
Proof.
  intros Ho H1 H2. apply takes_if, takes_option; [done|by destruct old|by destruct old|].
  apply (reads_bind _ _ (check_addr val1) (fun c => if old then check_addr val2 c else Good c)); [by apply reads_addr|].
  by apply reads_if, reads_addr.
Qed.

Lemma takes_vj opt (neg : bool) val (old : bool) slot (cf : bool) :
  byte_ok opt -> 0 <= val < 65536 -> byte_ok slot ->
  takes (if neg then vj_bytes opt val old slot cf else []) (ACKCIVJ opt neg val old slot cf).
Proof.
  intros Ho Hv Hs. apply takes_if, takes_option; [done|by destruct old|by destruct old|].
  apply (reads_bind _ _ (check_short val)
    (fun c => if old then Good c else c ← check_char slot c; check_char (if cf then 1 else 0) c)).
  - by apply reads_short.
  - destruct old; [apply reads_void|]. apply reads_bind; [by apply reads_char|]. apply reads_char. by destruct cf.
Qed.

Lemma takes_dns opt (neg : bool) addr :
  byte_ok opt -> addr_ok addr -> takes (if neg then dns_bytes opt addr else []) (ACKCIDNS opt neg addr).
Proof. intros Ho Ha. apply takes_if, takes_option; [done..|]. by apply reads_addr. Qed.

(** The bytes of a request nothing is dropped from. *)
Definition request (go : ipcp_options) : bytes :=
  (if neg_addr go then addr_bytes (addr_type go) (old_addrs go) (ouraddr go) (hisaddr go) else [])
  ++ (if neg_vj go then vj_bytes CI_COMPRESSTYPE (vj_protocol go) (old_vj go) (maxslotindex go) (cflag go) else [])
  ++ (if req_dns1 go then dns_bytes CI_MS_DNS1 (dnsaddr0 go) else [])
  ++ (if req_dns2 go then dns_bytes CI_MS_DNS2 (dnsaddr1 go) else []).

Lemma length_request go : Z.of_nat (length (request go)) = cilen_of go.
Proof.
  unfold request, cilen_of. rewrite !length_app !Nat2Z.inj_add. unfold LENCIADDR, LENCIVJ, LENCIDNS.
  by destruct (neg_addr go), (old_addrs go), (neg_vj go), (old_vj go), (req_dns1 go), (req_dns2 go).
Qed.

Lemma add_option_room (neg : bool) n enc drop_it len go out :
  (if neg then n else 0) <= len ->
  add_option neg n enc drop_it (AddState len go out)
  = AddState (len - if neg then n else 0) go (out ++ if neg then enc else []).
Proof.
  intros Hl. unfold add_option. destruct neg; [|by rewrite app_nil_r Z.sub_0_r].
  by rewrite (proj2 (Z.leb_le _ _) Hl).
Qed.

(** With room for all of them, all options are in the request. *)
Lemma addci_request go len :
  cilen_of go <= len -> ipcp_addci go len = (request go, cilen_of go, go).
Proof.
  intros Hl. unfold ipcp_addci, ADDCIADDR, ADDCIVJ, ADDCIDNS, request.
  unfold cilen_of, LENCIADDR, LENCIVJ, LENCIDNS, CILEN_ADDRS, CILEN_ADDR, CILEN_COMPRESS, CILEN_VJ in *.
  rewrite add_option_room; [destruct (neg_addr go), (old_addrs go), (neg_vj go), (old_vj go), (req_dns1 go), (req_dns2 go); lia|].
  rewrite add_option_room; [destruct (neg_addr go), (old_addrs go), (neg_vj go), (old_vj go), (req_dns1 go), (req_dns2 go); lia|].
  rewrite add_option_room; [destruct (neg_addr go), (old_addrs go), (neg_vj go), (old_vj go), (req_dns1 go), (req_dns2 go); lia|].
  rewrite add_option_room; [destruct (neg_addr go), (old_addrs go), (neg_vj go), (old_vj go), (req_dns1 go), (req_dns2 go); lia|].
  cbn [as_out as_len as_go]. rewrite !app_nil_l -!app_assoc. f_equal. f_equal. lia.
Qed.

Lemma takes_ip_request go : ip_options_ok go -> takes (request go) (ipcp_ack_options go).
Proof.
  intros [? ? ? ? ? ?]. unfold request, ipcp_ack_options.
  apply takes_bind; [apply takes_addr; [unfold addr_type; by destruct (old_addrs go)|done..]|].
  apply takes_bind; [by apply takes_vj|]. apply takes_bind; by apply takes_dns.
Qed.

(** An Ack of IPCP is accepted exactly when it is the request: the bytes
    [ipcp_addci] wrote with the length [ipcp_cilen] announced, nothing missing
    and nothing behind them; and the parser never reads behind the packet. *)
Theorem ipcp_ackci_exact go p len :
  ip_options_ok go -> Forall byte_ok p -> 0 <= len <= Z.of_nat (length p) ->
  let '(req, n, go') := ipcp_addci go (cilen_of go) in
  go' = go /\ n = Z.of_nat (length req) /\
  ipcp_ackci go p len = (if decide (take (Z.to_nat len) p = req) then Good tt else Bad).
Proof.
  intros Hgo Hb Hl. rewrite addci_request; [lia|]. split; [done|]. split; [symmetry; apply length_request|].
  pose proof (takes_ip_request go Hgo (Cursor p len) (conj Hb Hl)) as Ht. unfold ipcp_ackci.
  destruct (ipcp_ack_options go (Cursor p len)) as [c| |]; simpl in *; [| |done].
  - destruct Ht as (-> & Hlen & Hc). destruct (Z.eqb_spec (cu_len c) 0); simpl.
    + rewrite decide_True //. replace (Z.to_nat len) with (length (request go)) by lia.
      by rewrite take_app_length.
    + rewrite decide_False //. intros Heq. apply (f_equal length) in Heq.
      rewrite length_take in Heq. destruct Hc as [_ Hc]. lia.
  - rewrite decide_False //. intros Heq. apply Ht. exists (drop (Z.to_nat len) p).
    rewrite -Heq take_drop length_take. split; [done|lia].
Qed.

(** ** Rejects *)

(** The packet's bytes are there, and two more behind them: most of the macros
    look at the length of an option before they look at what is left. *)
Definition room (c : cursor) : Prop :=
  Forall byte_ok (cu_p c) /\ 0 <= cu_len c /\ cu_len c + 2 <= Z.of_nat (length (cu_p c)).

Lemma room_suffix enc c p' n :
  room c -> cu_p c = enc ++ p' -> n = cu_len c - Z.of_nat (length enc) -> 0 <= n -> room (Cursor p' n).
Proof.
  intros (Hb & Hl & Hr) Hp -> H0. rewrite Hp in Hb Hr. apply Forall_app in Hb as [_ Hb].
  rewrite length_app in Hr. split_and!; simpl; [done|lia|lia].
Qed.

(** A macro of [ipcp_rejci]: it takes the option's very bytes and stops asking
    for it, or leaves the packet to the next macro; on the option's bytes it
    does the former, on another option or an empty packet the latter. *)
Definition rej_macro (opt : Z) (neg : bool) (enc : bytes) (clear : ipcp_options -> ipcp_options)
    (f : cursor * ipcp_options -> parse (cursor * ipcp_options)) : Prop :=
  (forall c try, room c ->
     match f (c, try) with
     | Good (c', try') =>
         c' = c /\ try' = try \/
         neg = true /\ cu_p c = enc ++ cu_p c' /\ cu_len c' = cu_len c - Z.of_nat (length enc) /\
         room c' /\ try' = clear try
     | Bad => True
     | Oob => False
     end) /\
  (forall rest len try, neg = true -> room (Cursor (enc ++ rest) len) -> Z.of_nat (length enc) <= len ->
     f (Cursor (enc ++ rest) len, try) = Good (Cursor rest (len - Z.of_nat (length enc)), clear try)) /\
  (forall c try, room c -> cu_len c < 2 \/ head (cu_p c) <> Some opt -> f (c, try) = Good (c, try)).

(** The macros have a test, a reader of the option's value, and the bit to
    clear. *)
Lemma rej_macro_intro opt (neg : bool) n enc rd clear (test : cursor -> parse bool) f :
  byte_ok opt -> byte_ok n -> 4 <= n -> Z.of_nat (length enc) = n - 2 -> reads enc rd ->
  (forall c, room c ->
     test c = match cu_p c with
              | p0 :: p1 :: _ => Good ((n <=? cu_len c) && (p1 =? n) && (p0 =? opt))
              | _ => Oob
              end) ->
  (forall c try, f (c, try) =
     if neg then b ← test c; if (b : bool) then c' ← rd (take_head n c); Good (c', clear try) else Good (c, try)
     else Good (c, try)) ->
  rej_macro opt neg (PUTCHAR opt ++ PUTCHAR n ++ enc) clear f.
Proof.
  intros Ho Hn H4 He Hrd Htest Hf. rewrite !PUTCHAR_byte //. unfold rej_macro.
  assert (Hlen : Z.of_nat (length ([opt] ++ [n] ++ enc)) = n) by (rewrite !length_app /=; lia).
  rewrite Hlen. split_and!.
  - intros c try Hc. rewrite Hf. destruct neg; [|by left]. rewrite Htest //.
    pose proof Hc as (Hb & Hl & Hr). destruct (cu_p c) as [|p0 [|p1 p]] eqn:Ep; [simpl in Hr; lia..|].
    simpl. destruct ((n <=? cu_len c) && (p1 =? n) && (p0 =? opt)) eqn:Et; [|by left]. bool_props. subst p1 p0.
    pose proof (Hrd (take_head n c)) as Hrd'. apply Forall_cons_1 in Hb as [_ [_ Hb]%Forall_cons_1]. simpl in Hr.
    unfold take_head in *. rewrite Ep /= drop_0 in Hrd' |- *.
    destruct (rd _) as [c'| |]; simpl; [|done|apply Hrd'; [done|lia]].
    destruct Hrd' as [Hp' Hl']; [done|lia|]. right. split_and!; [done|by rewrite Hp'|lia| |done].
    apply (room_suffix ([opt; n] ++ enc) c (cu_p c') (cu_len c')) in Hc as Hx.
    + by destruct c'.
    + by rewrite Ep Hp'.
    + rewrite length_app /=. lia.
    + lia.
  - intros rest len try -> Hc Hle. rewrite Hf Htest //. simpl.
    rewrite (proj2 (Z.leb_le n len)); [lia|]. rewrite !Z.eqb_refl /=. unfold take_head. simpl.
    pose proof (Hrd (Cursor (enc ++ rest) (len - n))) as Hrd'. simpl in Hrd'.
    destruct Hc as (Hb & Hl & Hr). simpl in Hb, Hr. apply Forall_cons_1 in Hb as [_ [_ Hb]%Forall_cons_1].
    destruct (rd _) as [c'| |]; simpl.
    + destruct Hrd' as [Hp' Hl']; [done|rewrite length_app; lia|]. apply app_inv_head in Hp'.
      destruct c' as [p' l']. simpl in *. by subst.
    + exfalso. apply Hrd'; [done|rewrite length_app; lia|by exists rest].
    + exfalso. apply Hrd'; [done|rewrite length_app; lia].
  - intros c try Hc Hno. rewrite Hf. destruct neg; [|done]. rewrite Htest //.
    pose proof Hc as (Hb & Hl & Hr). destruct (cu_p c) as [|p0 [|p1 p]] eqn:Ep; [simpl in Hr; lia..|].
    simpl. replace (_ && _ && _) with false; [done|]. symmetry. apply not_true_iff_false. intros Et. bool_props.
    destruct Hno as [?|Hne]; [lia|]. apply Hne. simpl. congruence.
Qed.

Lemma starts_room opt n c :
  2 <= n -> room c ->
  starts opt n c = match cu_p c with
                   | p0 :: p1 :: _ => Good ((n <=? cu_len c) && (p1 =? n) && (p0 =? opt))
                   | _ => Oob
                   end.
Proof.
  intros Hn (Hb & Hl & Hr). unfold starts. destruct (cu_p c) as [|p0 [|p1 p]]; [simpl in Hr; lia..|].
  destruct (Z.ltb_spec (cu_len c) n), (Z.leb_spec n (cu_len c)); [lia|done|done|lia].
Qed.

Lemma rej_addr opt (neg old : bool) val1 val2 :
  byte_ok opt -> addr_ok val1 -> addr_ok val2 ->
  rej_macro opt neg (addr_bytes opt old val1 val2) (set_neg_addr false) (REJCIADDR opt neg old val1 val2).
Proof.
  intros Ho H1 H2. set (n := if old then CILEN_ADDRS else CILEN_ADDR).
  apply (rej_macro_intro opt neg n _ (fun c => c ← check_addr val1 c; if old then check_addr val2 c else Good c)
           _ (starts opt n)).
  1-4: first [done|by destruct old].
  - apply reads_bind; [by apply reads_addr|]. by apply reads_if, reads_addr.
  - intros c. apply starts_room. by destruct old.
  - intros c try. unfold REJCIADDR. destruct neg; [|done]. fold n. destruct (starts opt n c) as [[]| |]; simpl; [|done..].
    by destruct (check_addr val1 _).
Qed.

(** The late test, as a boolean. *)
Definition late (opt n : Z) (c : cursor) : parse bool :=
  m ← starts_late opt [n] c; Good (match m with Some _ => true | None => false end).

Lemma late_room opt n c :
  room c ->
  late opt n c = match cu_p c with
                 | p0 :: p1 :: _ => Good ((n <=? cu_len c) && (p1 =? n) && (p0 =? opt))
                 | _ => Oob
                 end.
Proof.
  intros _. unfold late, starts_late. destruct (cu_p c) as [|p0 [|p1 p]]; [done..|]. simpl. f_equal.
  destruct (Z.eqb_spec p1 n) as [->|Hne].
  - rewrite bool_decide_eq_true_2; [by apply list_elem_of_singleton|]. simpl. rewrite andb_true_r. by destruct (_ && _).
  - rewrite bool_decide_eq_false_2; [by intros ?%list_elem_of_singleton|]. by rewrite andb_false_r.
Qed.

Lemma late_is opt n c :
  starts_late opt [n] c = (b ← late opt n c; Good (if (b : bool) then Some n else None)).
Proof.
  unfold late, starts_late. destruct (cu_p c) as [|p0 [|p1 p]]; [done..|]. simpl.
  destruct (_ && _ && _) eqn:E; [|done]. bool_props.
  match goal with H : _ ∈ _ |- _ => by apply list_elem_of_singleton in H; subst end.
Qed.

Lemma rej_vj opt (neg : bool) val (old : bool) slot (cf : bool) :
  byte_ok opt -> 0 <= val < 65536 -> byte_ok slot ->
  rej_macro opt neg (vj_bytes opt val old slot cf) (set_neg_vj false) (REJCIVJ opt neg val old slot cf).
Proof.
  intros Ho Hv Hs. set (n := if old then CILEN_COMPRESS else CILEN_VJ).
  apply (rej_macro_intro opt neg n _ (fun c => c ← check_short val c;
           if old then Good c else c ← check_char slot c; check_char (if cf then 1 else 0) c) _ (late opt n)).
  1-4: first [done|by destruct old].
  - apply reads_bind; [by apply reads_short|]. destruct old; [apply reads_void|].
    apply reads_bind; [by apply reads_char|]. apply reads_char. by destruct cf.
  - intros c. apply late_room.
  - intros c try. unfold REJCIVJ. destruct neg; [|done]. fold n. rewrite late_is.
    destruct (late opt n c) as [[]| |]; simpl; [|done..]. by destruct (check_short val _).
Qed.

Lemma rej_dns opt (neg : bool) addr clear :
  byte_ok opt -> addr_ok addr -> rej_macro opt neg (dns_bytes opt addr) clear (REJCIDNS opt neg addr clear).
Proof.
  intros Ho Ha. apply (rej_macro_intro opt neg CILEN_ADDR _ (check_addr addr) _ (late opt CILEN_ADDR)); [done..| | |].
  - by apply reads_addr.
  - intros c. apply late_room.
  - intros c try. unfold REJCIDNS. destruct neg; [|done]. rewrite late_is.
    by destruct (late opt CILEN_ADDR c) as [[]| |].
Qed.

Definition pick (b : bool) (bs : bytes) : bytes := if b then bs else [].

Lemma rej_macro_pick opt neg enc clear f (b : bool) rest len try :
  rej_macro opt neg enc clear f -> (b = true -> neg = true) ->
  room (Cursor (pick b enc ++ rest) len) -> Z.of_nat (length (pick b enc)) <= len ->
  len - Z.of_nat (length (pick b enc)) < 2 \/ head rest <> Some opt ->
  f (Cursor (pick b enc ++ rest) len, try)
  = Good (Cursor rest (len - Z.of_nat (length (pick b enc))), if b then clear try else try).
Proof.
  intros (_ & Htake & Hskip) Hb Hc Hl Hno. destruct b; [by apply Htake; auto|].
  simpl in *. rewrite Z.sub_0_r in Hno |- *. by apply Hskip.
Qed.

(** A selection from the options of the request, and the options without it. *)
Definition selection (go : ipcp_options) (a v d1 d2 : bool) : bytes :=
  pick a (addr_bytes (addr_type go) (old_addrs go) (ouraddr go) (hisaddr go))
  ++ pick v (vj_bytes CI_COMPRESSTYPE (vj_protocol go) (old_vj go) (maxslotindex go) (cflag go))
  ++ pick d1 (dns_bytes CI_MS_DNS1 (dnsaddr0 go)) ++ pick d2 (dns_bytes CI_MS_DNS2 (dnsaddr1 go)).

Definition without (a v d1 d2 : bool) (go : ipcp_options) : ipcp_options :=
  let go := if a then set_neg_addr false go else go in
  let go := if v then set_neg_vj false go else go in
  let go := if d1 then set_req_dns1 false go else go in
  if d2 then set_req_dns2 false go else go.

(** The options [a], [v], [d1], [d2] name are in the request. *)
Definition asked (go : ipcp_options) (a v d1 d2 : bool) : Prop :=
  (a = true -> neg_addr go = true) /\ (v = true -> neg_vj go = true) /\
  (d1 = true -> req_dns1 go = true) /\ (d2 = true -> req_dns2 go = true).

Section Rejci.
Context (go : ipcp_options) (Hgo : ip_options_ok go).

Let macro1 := REJCIADDR (addr_type go) (neg_addr go) (old_addrs go) (ouraddr go) (hisaddr go).
Let macro2 := REJCIVJ CI_COMPRESSTYPE (neg_vj go) (vj_protocol go) (old_vj go) (maxslotindex go) (cflag go).
Let macro3 := REJCIDNS CI_MS_DNS1 (req_dns1 go) (dnsaddr0 go) (set_req_dns1 false).
Let macro4 := REJCIDNS CI_MS_DNS2 (req_dns2 go) (dnsaddr1 go) (set_req_dns2 false).

Lemma macro1_ok : rej_macro (addr_type go) (neg_addr go)
  (addr_bytes (addr_type go) (old_addrs go) (ouraddr go) (hisaddr go)) (set_neg_addr false) macro1.
Proof. destruct Hgo. apply rej_addr; [unfold addr_type; by destruct (old_addrs go)|done..]. Qed.
Lemma macro2_ok : rej_macro CI_COMPRESSTYPE (neg_vj go)
  (vj_bytes CI_COMPRESSTYPE (vj_protocol go) (old_vj go) (maxslotindex go) (cflag go)) (set_neg_vj false) macro2.
Proof. destruct Hgo. by apply rej_vj. Qed.
Lemma macro3_ok : rej_macro CI_MS_DNS1 (req_dns1 go) (dns_bytes CI_MS_DNS1 (dnsaddr0 go)) (set_req_dns1 false) macro3.
Proof. destruct Hgo. by apply rej_dns. Qed.
Lemma macro4_ok : rej_macro CI_MS_DNS2 (req_dns2 go) (dns_bytes CI_MS_DNS2 (dnsaddr1 go)) (set_req_dns2 false) macro4.
Proof. destruct Hgo. by apply rej_dns. Qed.

(** What a macro took, as a choice. *)
Lemma rej_macro_choice opt neg enc clear f c try :
  rej_macro opt neg enc clear f -> room c ->
  f (c, try) = Bad \/
  exists (b : bool) c', f (c, try) = Good (c', if b then clear try else try) /\ (b = true -> neg = true) /\
    cu_p c = pick b enc ++ cu_p c' /\ cu_len c' = cu_len c - Z.of_nat (length (pick b enc)) /\ room c'.
Proof.
  intros (Hf & _) Hc. specialize (Hf c try Hc). destruct (f (c, try)) as [[c' try']| |]; [right|by left|done].
  destruct Hf as [[-> ->]|(Hn & Hp & Hl & Hc' & ->)].
  - exists false, c. split_and!; try done. simpl. lia.
  - by exists true, c'.
Qed.

Lemma rejci_sound p len :
  Forall byte_ok p -> 0 <= len -> len + 2 <= Z.of_nat (length p) ->
  ipcp_rejci go p len = Bad \/
  exists a v d1 d2, asked go a v d1 d2 /\ take (Z.to_nat len) p = selection go a v d1 d2 /\
    ipcp_rejci go p len = Good (without a v d1 d2 go).
Proof.
  intros Hb H0 Hr. unfold ipcp_rejci. assert (Hc : room (Cursor p len)) by by split_and!.
  destruct (rej_macro_choice _ _ _ _ _ _ go macro1_ok Hc) as [E|(a & c1 & E & Ha & Hp1 & Hl1 & Hc1)];
    unfold macro1 in E; rewrite E; cbn [mbind parse_bind fst snd]; [by left|].
  destruct (rej_macro_choice _ _ _ _ _ _ (if a then set_neg_addr false go else go) macro2_ok Hc1)
    as [E2|(v & c2 & E2 & Hv & Hp2 & Hl2 & Hc2)]; unfold macro2 in E2; rewrite E2; cbn [mbind parse_bind fst snd]; [by left|].
  set (t2 := if v then _ else _).
  destruct (rej_macro_choice _ _ _ _ _ _ t2 macro3_ok Hc2) as [E3|(d1 & c3 & E3 & Hd1 & Hp3 & Hl3 & Hc3)];
    unfold macro3 in E3; rewrite E3; cbn [mbind parse_bind fst snd]; [by left|].
  set (t3 := if d1 then _ else _).
  destruct (rej_macro_choice _ _ _ _ _ _ t3 macro4_ok Hc3) as [E4|(d2 & c4 & E4 & Hd2 & Hp4 & Hl4 & Hc4)];
    unfold macro4 in E4; rewrite E4; cbn [mbind parse_bind fst snd]; [by left|].
  destruct (Z.eqb_spec (cu_len c4) 0) as [Hz|]; simpl; [right|by left].
  exists a, v, d1, d2. split_and!; [done..| |done].
  simpl in Hp1, Hl1. unfold selection. rewrite Hp1 Hp2 Hp3 Hp4 !app_assoc.
  rewrite take_app_length' //. rewrite !length_app. lia.
Qed.

(** Another option than the first comes next, or nothing at all. *)
Lemma rejci_complete p len a v d1 d2 :
  Forall byte_ok p -> 0 <= len -> len + 2 <= Z.of_nat (length p) ->
  asked go a v d1 d2 -> take (Z.to_nat len) p = selection go a v d1 d2 ->
  ipcp_rejci go p len = Good (without a v d1 d2 go).
Proof.
  intros Hb H0 Hr (Ha & Hv & Hd1 & Hd2) Hsel.
  assert (Hp : p = selection go a v d1 d2 ++ drop (Z.to_nat len) p) by by rewrite -Hsel take_drop.
  assert (Hlen : Z.of_nat (length (selection go a v d1 d2)) = len) by (rewrite -Hsel length_take; lia).
  set (rest := drop _ p) in Hp. clearbody rest. subst p. clear Hsel. unfold selection in *.
  rewrite !length_app in Hlen. rewrite -!app_assoc in Hb Hr |- *.
  assert (Hroom : room (Cursor (pick a (addr_bytes (addr_type go) (old_addrs go) (ouraddr go) (hisaddr go))
    ++ pick v (vj_bytes CI_COMPRESSTYPE (vj_protocol go) (old_vj go) (maxslotindex go) (cflag go))
    ++ pick d1 (dns_bytes CI_MS_DNS1 (dnsaddr0 go)) ++ pick d2 (dns_bytes CI_MS_DNS2 (dnsaddr1 go)) ++ rest) len))
    by by split_and!.
  unfold ipcp_rejci.
  assert (E1 := rej_macro_pick _ _ _ _ _ a _ len go macro1_ok Ha Hroom).
  unfold macro1 in E1. rewrite E1; clear E1; [lia| |].
  { destruct v, d1, d2; simpl in Hlen; try (left; lia); right; unfold addr_type; by destruct (old_addrs go). }
  cbn [mbind parse_bind].
  eapply room_suffix in Hroom as Hroom1; [|reflexivity|reflexivity|simpl; lia]. simpl cu_len in Hroom1.
  assert (E2 := rej_macro_pick _ _ _ _ _ v _ _ (if a then set_neg_addr false go else go) macro2_ok Hv Hroom1).
  unfold macro2 in E2. rewrite E2; clear E2; [lia| |].
  { destruct d1, d2; simpl in Hlen; try (left; lia); by right. }
  cbn [mbind parse_bind].
  eapply room_suffix in Hroom1 as Hroom2; [|reflexivity|reflexivity|simpl; lia]. simpl cu_len in Hroom2.
  set (t2 := if v then _ else _).
  assert (E3 := rej_macro_pick _ _ _ _ _ d1 _ _ t2 macro3_ok Hd1 Hroom2).
  unfold macro3 in E3. rewrite E3; clear E3; [lia| |].
  { destruct d2; simpl in Hlen; try (left; lia); by right. }
  cbn [mbind parse_bind].
  eapply room_suffix in Hroom2 as Hroom3; [|reflexivity|reflexivity|simpl; lia]. simpl cu_len in Hroom3.
  set (t3 := if d1 then _ else _).
  assert (E4 := rej_macro_pick _ _ _ _ _ d2 _ _ t3 macro4_ok Hd2 Hroom3).
  unfold macro4 in E4. rewrite E4; clear E4; [lia|left; lia|]. cbn [mbind parse_bind fst snd cu_len].
  rewrite (proj2 (Z.eqb_eq _ _)); [lia|done].
Qed.

(** A Reject of IPCP is accepted exactly when it is a selection of the
    options of our request, in order and with the values we sent; then just the
    selected ones are turned off.  With two readable bytes behind the packet,
    which the input buffer has, the parser stays inside it. *)
Theorem ipcp_rejci_exact p len try :
  Forall byte_ok p -> 0 <= len -> len + 2 <= Z.of_nat (length p) ->
  ipcp_rejci go p len <> Oob /\
  (ipcp_rejci go p len = Good try <->
   exists a v d1 d2, asked go a v d1 d2 /\ take (Z.to_nat len) p = selection go a v d1 d2 /\
     try = without a v d1 d2 go).
Proof.
  intros Hb H0 Hr. split.
  - destruct (rejci_sound p len Hb H0 Hr) as [->|(? & ? & ? & ? & _ & _ & ->)]; done.
  - split.
    + destruct (rejci_sound p len Hb H0 Hr) as [->|(a & v & d1 & d2 & Hq & Hs & ->)]; [done|].
      intros [= <-]. by exists a, v, d1, d2.
    + intros (a & v & d1 & d2 & Hq & Hs & ->). by apply rejci_complete.
Qed.
End Rejci.
End Spec.
