(* ===== verification/IpcpNakSpec.v ===== *)
(** * IPCP options: theorems on Naks

    A Nak that is accepted changes an address only where we are ready to accept
    one.  The loop over its options ends unless an option of length zero comes
    up, and then it never ends. *)

From S2P Require Import Prelude Wire Inet LcpOptions LcpOptionsSpec IpcpOptions IpcpOptionsSpec.

Section NakSpec.
Context `{ByteOrder}.

(** ** Naks *)

(** The options to try next respect what we asked for: an address is the
    peer's idea only where we accept that, and then it is one; compression is
    not added nor widened; a name server is new only if we asked for one. *)
Record respects (go try : ipcp_options) : Prop := {
  rs_ouraddr : ouraddr try = ouraddr go \/ (accept_local go = true /\ ouraddr try <> 0);
  rs_hisaddr : hisaddr try = hisaddr go \/ (accept_remote go = true /\ hisaddr try <> 0);
  rs_vj : neg_vj try = true -> neg_vj go = true;
  rs_slots : maxslotindex try <= maxslotindex go;
  rs_cflag : cflag try = true -> cflag go = true;
  rs_dns0 : dnsaddr0 try = dnsaddr0 go \/ req_dns1 go = true;
  rs_dns1 : dnsaddr1 try = dnsaddr1 go \/ req_dns2 go = true;
  rs_asks : req_dns1 try = req_dns1 go /\ req_dns2 try = req_dns2 go /\ req_addr try = req_addr go;
  rs_ok : ip_options_ok try
}.

Lemma respects_refl go : ip_options_ok go -> respects go go.
Proof. intros Hgo. split; auto; lia. Qed.

Definition nak_fine (go : ipcp_options) (s : ipcp_nak) : Prop := room (in_c s) /\ respects go (in_try s).

(** A step of the Nak parser. *)
Definition nak_step (go : ipcp_options) (f : ipcp_nak -> parse ipcp_nak) : Prop :=
  forall s, nak_fine go s -> match f s with Good s' => nak_fine go s' | Bad => True | Oob => False end.

Lemma nak_step_bind go f g : nak_step go f -> nak_step go g -> nak_step go (fun s => s ← f s; g s).
Proof. intros Hf Hg s Hs. specialize (Hf s Hs). destruct (f s) as [s'| |]; [by apply Hg|done..]. Qed.

Lemma get_addr_spec c :
  Forall byte_ok (cu_p c) -> 4 <= Z.of_nat (length (cu_p c)) ->
  exists a p', get_addr c = Good (a, Cursor p' (cu_len c)) /\ addr_ok a /\ cu_p c = take 4 (cu_p c) ++ p' /\
    length (take 4 (cu_p c)) = 4%nat.
Proof.
  destruct c as [p len]. simpl. intros Hb Hl. destruct (GETLONG_within p Hb Hl) as (v & p' & Hg & Hv & _).
  exists (htonl v), p'. unfold get_addr. simpl. rewrite Hg. split; [done|]. split; [by apply htonl_range|].
  open_bytes 4 p Hl. simpl in Hg. simplify_eq. done.
Qed.

Lemma accept_addrs_respects go a1 a2 try :
  addr_ok a1 -> addr_ok a2 -> respects go try -> respects go (accept_addrs go a1 a2 try).
Proof.
  intros H1 H2 Hr. unfold accept_addrs. set (t1 := if accept_local go && _ then _ else _).
  assert (Hr1 : respects go t1).
  { subst t1. destruct (accept_local go) eqn:Ea, (Z.eqb_spec a1 0); simpl; try done.
    destruct Hr as [? ? ? ? ? ? ? ? [? ? ? ? ? ?]]. split; simpl; auto. by split. }
  clearbody t1. destruct (accept_remote go) eqn:Ea, (Z.eqb_spec a2 0); simpl; try done.
  destruct Hr1 as [? ? ? ? ? ? ? ? [? ? ? ? ? ?]]. split; simpl; auto. by split.
Qed.

(** Taking an option's head keeps two bytes of room behind the packet. *)
Lemma take_head_room n k c p' :
  room c -> 2 <= n -> n <= cu_len c -> cu_p (take_head n c) = take k (cu_p (take_head n c)) ++ p' ->
  length (take k (cu_p (take_head n c))) = k -> n = 2 + Z.of_nat k -> room (Cursor p' (cu_len c - n)).
Proof.
  intros Hc Hn Hle Hp Hk E. apply (room_suffix (take 2 (cu_p c) ++ take k (cu_p (take_head n c))) c).
  - done.
  - rewrite -app_assoc -Hp. simpl. by rewrite take_drop.
  - destruct Hc as (_ & ? & Hr). rewrite length_app Hk length_take. lia.
  - lia.
Qed.

Lemma starts_true opt n c : starts opt n c = Good true -> n <= cu_len c.
Proof. unfold starts. destruct (Z.ltb_spec (cu_len c) n); [done|]. intros _. lia. Qed.

Lemma starts_not_oob opt n c : room c -> starts opt n c <> Oob.
Proof.
  intros (_ & ? & Hr). unfold starts. destruct (_ <? n); [done|].
  destruct (cu_p c) as [|? [|? ?]]; [simpl in Hr; lia..|done].
Qed.

Lemma drop2_room c : room c -> Forall byte_ok (drop 2 (cu_p c)) /\ cu_len c <= Z.of_nat (length (drop 2 (cu_p c))).
Proof. intros (Hb & Hl & Hr). split; [by apply Forall_drop|]. rewrite length_drop. lia. Qed.

Lemma nak_addr go opt old : nak_step go (NAKCIADDR go opt old).
Proof.
  intros s [Hc Hr]. unfold NAKCIADDR. destruct (neg_addr go); [|done]. set (n := if old then CILEN_ADDRS else CILEN_ADDR).
  assert (Hn : 2 <= n) by (subst n; by destruct old).
  pose proof (starts_not_oob opt n _ Hc). destruct (starts opt n (in_c s)) as [[]| |] eqn:Es; simpl; try done.
  apply starts_true in Es. destruct (drop2_room _ Hc) as [Hb2 Hl2].
  assert (H4 : 4 <= Z.of_nat (length (drop 2 (cu_p (in_c s))))).
  { subst n. unfold CILEN_ADDRS, CILEN_ADDR in Es. destruct old; lia. }
  destruct (get_addr_spec (take_head n (in_c s)) Hb2 H4) as (a1 & p1 & -> & Ha1 & Hp1 & Hk1). simpl.
  destruct old; simpl.
  - assert (Hb3 : Forall byte_ok p1) by (simpl in Hp1; rewrite Hp1 in Hb2; by apply Forall_app in Hb2 as [_ ?]).
    assert (H8 : 4 <= Z.of_nat (length p1)).
    { simpl in Hp1, Hk1. rewrite Hp1 length_app Hk1 in Hl2. unfold n, CILEN_ADDRS in Es. lia. }
    destruct (get_addr_spec (Cursor p1 (cu_len (in_c s) - n)) Hb3 H8) as (a2 & p2 & -> & Ha2 & Hp2 & Hk2).
    simpl. split; simpl; [|by apply accept_addrs_respects].
    apply (take_head_room n 8 (in_c s)); try done.
    + simpl. simpl in Hp1, Hp2, Hk1. rewrite Hp1 (take_app_add' _ _ 4 4) // -app_assoc -Hp2. done.
    + simpl. simpl in Hp1, Hk1. rewrite length_take. rewrite Hp1 length_app Hk1. lia.
  - split; simpl; [|by apply accept_addrs_respects]. by apply (take_head_room n 4 (in_c s)).
Qed.

Lemma starts_late_some opt lens c n : starts_late opt lens c = Good (Some n) -> n ∈ lens /\ n <= cu_len c.
Proof.
  unfold starts_late. destruct (cu_p c) as [|? [|? ?]]; [done..|]. destruct (_ && _ && _) eqn:E; [|done].
  intros [= <-]. by bool_props.
Qed.

Lemma starts_late_not_oob opt lens c : room c -> starts_late opt lens c <> Oob.
Proof.
  intros (_ & ? & Hr). unfold starts_late. destruct (cu_p c) as [|? [|? ?]]; [simpl in Hr; lia..|done].
Qed.

Lemma nak_dns go opt neg mark code :
  (forall a try, neg = true -> addr_ok a -> respects go try -> respects go (code a try)) ->
  nak_step go (NAKCIDNS opt neg mark code).
Proof.
  intros Hcode s [Hc Hr]. unfold NAKCIDNS. destruct neg; [|done].
  pose proof (starts_late_not_oob opt [CILEN_ADDR] _ Hc).
  destruct (starts_late opt [CILEN_ADDR] (in_c s)) as [[n|]| |] eqn:Es; simpl; try done.
  apply starts_late_some in Es as [->%list_elem_of_singleton Hle]. destruct (drop2_room _ Hc) as [Hb2 Hl2].
  unfold CILEN_ADDR in *.
  destruct (get_addr_spec (take_head 6 (in_c s)) Hb2) as (a1 & p1 & -> & Ha1 & Hp1 & Hk1); [simpl; lia|]. simpl.
  split; simpl; [|by apply Hcode]. by apply (take_head_room 6 4 (in_c s)).
Qed.

(** The change a Nak of compression makes, in its long and its short form. *)
Lemma nak_vj go : ip_options_ok go -> nak_step go (NAKCIVJ go CI_COMPRESSTYPE).
Proof.
  intros Hgo s [Hc Hr]. unfold NAKCIVJ. destruct (neg_vj go) eqn:Ev; [|done].
  pose proof (starts_late_not_oob CI_COMPRESSTYPE [CILEN_COMPRESS; CILEN_VJ] _ Hc).
  destruct (starts_late _ _ (in_c s)) as [[n|]| |] eqn:Es; simpl; try done.
  apply starts_late_some in Es as [Hin Hle]. destruct (drop2_room _ Hc) as [Hb2 Hl2].
  assert (Hn : n = 4 \/ n = 6).
  { apply list_elem_of_In in Hin. unfold CILEN_COMPRESS, CILEN_VJ in Hin. simpl in Hin. lia. }
  clear Hin. pose proof (fun k => take_head_room n k (in_c s)) as Hroom. simpl in Hroom.
  set (p := drop 2 (cu_p (in_c s))) in *. clearbody p.
  assert (H2 : 2 <= Z.of_nat (length p)) by lia.
  destruct (GETSHORT_within p Hb2 H2) as (v & p' & Hg & Hv & Hb' & Hlen').
  rewrite Hg. simpl. destruct (Z.eqb_spec n CILEN_VJ) as [->|Hne].
  - unfold CILEN_VJ in *. open_bytes 4 p Hl2. simpl in Hg. simplify_eq/=. split; simpl.
    + apply (Hroom 4%nat); done.
    + decompose_Forall_hyps.
      destruct Hr as [? ? ? ? ? ? ? ? [? ? ? ? ? ?]].
      destruct (_ =? IPCP_VJ_COMP); [|split; simpl; auto; try done; by split].
      destruct (Z.ltb_spec z1 (maxslotindex go)), (z2 =? 0); split; simpl; auto; try done; try lia; by split.
  - assert (n = 4) as -> by (unfold CILEN_VJ in Hne; lia).
    open_bytes 2 p Hl2. simpl in Hg. simplify_eq/=. split; simpl; [by apply (Hroom 2%nat)|].
    destruct Hr as [? ? ? ? ? ? ? ? [? ? ? ? ? ?]].
    destruct (_ || _); split; simpl; auto; try done; by split.
Qed.

Lemma nak_extra go : ip_options_ok go -> forall s, nak_fine go s -> CILEN_VOID < cu_len (in_c s) ->
  match ipcp_nak_extra go s with Good s' => nak_fine go s' | Bad => True | Oob => False end.
Proof.
  intros Hgo s [Hc Hr] Hgt. unfold ipcp_nak_extra, CILEN_VOID in *. pose proof Hc as (Hb & Hl & Hlen).
  destruct (cu_p (in_c s)) as [|citype [|cilen p]] eqn:Ep; [simpl in Hlen; lia..|]. simpl.
  apply Forall_cons_1 in Hb as [_ [Hcl Hb]%Forall_cons_1]. unfold byte_ok in Hcl.
  destruct (Z.ltb_spec (cu_len (in_c s) - cilen) 0); simpl; [done|].
  set (next := Cursor _ _). assert (Hnext : room next).
  { apply (room_suffix (take (Z.to_nat cilen) (cu_p (in_c s))) (in_c s)); [done|by rewrite Ep take_drop| |done].
    simpl in Hlen. rewrite Ep length_take /=. lia. }
  clearbody next. destruct (citype =? CI_COMPRESSTYPE); [destruct (negb _); [split; [done|exact Hr]|done]|].
  simpl in Hlen. destruct (citype =? CI_ADDRS).
  { destruct (negb (_ || negb (cilen =? CILEN_ADDRS))) eqn:E; [|done]. bool_props. unfold CILEN_ADDRS in *. simpl.
    destruct (get_addr_spec (Cursor p (cu_len (in_c s) - cilen)) Hb) as (a1 & p1 & -> & Ha1 & Hp1 & Hk1);
      [simpl; lia|]. simpl in Hp1, Hk1 |- *.
    destruct (get_addr_spec (Cursor p1 (cu_len (in_c s) - cilen))) as (a2 & p2 & -> & Ha2 & _).
    - simpl. rewrite Hp1 in Hb. by apply Forall_app in Hb as [_ ?].
    - simpl. rewrite Hp1 length_app Hk1 in Hlen. lia.
    - simpl. split; [done|]. simpl. apply accept_addrs_respects; [done..|].
      destruct Hr as [? ? ? ? ? ? ? ? [? ? ? ? ? ?]]. split; simpl; auto. by split. }
  destruct (citype =? CI_ADDR); [|by split].
  destruct (negb (_ || negb (cilen =? CILEN_ADDR))) eqn:E; [|done]. bool_props. unfold CILEN_ADDR in *. simpl.
  destruct (get_addr_spec (Cursor p (cu_len (in_c s) - cilen)) Hb) as (a1 & p1 & -> & Ha1 & _); [simpl; lia|].
  simpl. split; [done|]. simpl.
  set (t1 := accept_addrs go a1 0 _). assert (Ht1 : respects go t1).
  { apply accept_addrs_respects; [done|done|]. destruct Hr as [? ? ? ? ? ? ? ? [? ? ? ? ? ?]]. split; simpl; auto. by split. }
  clearbody t1. destruct (ouraddr t1 =? 0); [done|].
  destruct Ht1 as [? ? ? ? ? ? ? ? [? ? ? ? ? ?]]. split; simpl; auto. by split.
Qed.

Lemma nak_loop_fine go fuel s :
  ip_options_ok go -> nak_fine go s ->
  match ipcp_nak_loop go fuel s with
  | Some (Good s') => nak_fine go s'
  | Some Oob => False
  | _ => True
  end.
Proof.
  intros Hgo. revert s. induction fuel as [|fuel IH]; intros s Hs; simpl;
    destruct (Z.ltb_spec CILEN_VOID (cu_len (in_c s))); try done.
  pose proof (nak_extra go Hgo s Hs ltac:(done)) as Hx. destruct (ipcp_nak_extra go s); [by apply IH|done..].
Qed.

(** A Nak of IPCP respects our wishes.  Whatever the packet, the parser
    stays inside the input buffer, and what we try next is what we asked for but
    for what we are open to: an address changes only where we accept the peer's
    and is never zero, compression is neither added nor widened, a name server
    is taken only if we asked for one. *)
Theorem ipcp_nakci_respects go fuel p len :
  ip_options_ok go -> Forall byte_ok p -> 0 <= len -> len + 2 <= Z.of_nat (length p) ->
  ipcp_nakci go fuel p len <> Some Oob /\
  forall try, ipcp_nakci go fuel p len = Some (Good try) -> respects go try.
Proof.
  intros Hgo Hb H0 Hr. unfold ipcp_nakci.
  assert (Hst : nak_step go (ipcp_nak_requested go)).
  { unfold ipcp_nak_requested. repeat apply nak_step_bind; [apply nak_addr|by apply nak_vj|apply nak_dns..];
      intros a try Hq Ha [? ? ? ? ? ? ? ? [? ? ? ? ? ?]]; split; simpl; auto; by split. }
  specialize (Hst (IpcpNak (Cursor p len) no_ip_options go)).
  destruct (ipcp_nak_requested _ _) as [s| |]; [|done|destruct Hst; split; [by split_and!|by apply respects_refl]].
  pose proof (nak_loop_fine go fuel s Hgo) as Hl.
  destruct (ipcp_nak_loop go fuel s) as [[s'| |]|]; simpl; try done.
  - split; [done|]. intros try [= <-]. apply Hl, Hst. split; [by split_and!|by apply respects_refl].
  - destruct Hl. apply Hst. split; [by split_and!|by apply respects_refl].
Qed.

(** ** The end of the loop over a Nak *)

(** A pass takes bytes off the packet, or it changes nothing at all. *)
Lemma nak_extra_progress go s s' :
  Forall byte_ok (cu_p (in_c s)) -> ipcp_nak_extra go s = Good s' ->
  Forall byte_ok (cu_p (in_c s')) /\ 0 <= cu_len (in_c s') /\ (s' = s \/ cu_len (in_c s') < cu_len (in_c s)).
Proof.
  intros Hb. unfold ipcp_nak_extra. destruct s as [[p len] no try]. simpl in *.
  destruct p as [|citype [|cilen p]]; [done..|]. cbn [GETCHAR get mbind parse_bind].
  apply Forall_cons_1 in Hb as Hb'. destruct Hb' as [_ [Hc _]%Forall_cons_1]. unfold byte_ok in Hc.
  destruct (Z.ltb_spec (len - cilen) 0); simpl; [done|].
  assert (Hd : Forall byte_ok (drop (Z.to_nat cilen) (citype :: cilen :: p))) by by apply Forall_drop.
  set (next := drop _ _) in *.
  destruct (citype =? CI_COMPRESSTYPE).
  { destruct (negb (_ || _)) eqn:E; [|done]. intros [= <-]. simpl. split_and!; [done|lia|right].
    bool_props. unfold CILEN_VJ, CILEN_COMPRESS in *.
    match goal with H : _ \/ _ |- _ => destruct H; bool_props; lia end. }
  destruct (citype =? CI_ADDRS).
  { destruct (negb (_ || negb (cilen =? CILEN_ADDRS))) eqn:E; [|done]. bool_props. unfold CILEN_ADDRS in *. simpl.
    destruct (get_addr _) as [[a1 c1]| |]; [|done..]. simpl. destruct (get_addr c1) as [[a2 c2]| |]; [|done..].
    intros [= <-]. simpl. split_and!; [done|lia|right; lia]. }
  destruct (citype =? CI_ADDR).
  { destruct (negb (_ || negb (cilen =? CILEN_ADDR))) eqn:E; [|done]. bool_props. unfold CILEN_ADDR in *. simpl.
    destruct (get_addr _) as [[a1 c1]| |]; [|done..]. intros [= <-]. simpl. split_and!; [done|lia|right; lia]. }
  intros [= <-]. simpl. split_and!; [done|lia|]. destruct (decide (cilen = 0)) as [->|]; [left|right; lia].
  by rewrite Z.sub_0_r.
Qed.

(** A loop that outlasts the bytes of the packet never ends. *)
Lemma nak_loop_hangs go fuel s :
  Forall byte_ok (cu_p (in_c s)) -> cu_len (in_c s) <= Z.of_nat fuel ->
  ipcp_nak_loop go fuel s = None -> forall fuel', ipcp_nak_loop go fuel' s = None.
Proof.
  revert s. induction fuel as [|fuel IH]; intros s Hb Hl Hn fuel'.
  { simpl in Hn. destruct (Z.ltb_spec CILEN_VOID (cu_len (in_c s))); [unfold CILEN_VOID in *; lia|done]. }
  simpl in Hn. destruct fuel' as [|fuel']; simpl; destruct (CILEN_VOID <? cu_len (in_c s)); try done.
  destruct (ipcp_nak_extra go s) as [s'| |] eqn:Ex; [|done..].
  destruct (nak_extra_progress go s s' Hb Ex) as (Hb' & H0 & [->|Hlt]).
  - clear -Hn Ex. assert (Hall : forall n, ipcp_nak_loop go n s = None -> ipcp_nak_extra go s = Good s ->
      forall m, ipcp_nak_loop go m s = None).
    { intros n Hn' He. assert (Hgt : (CILEN_VOID <? cu_len (in_c s)) = true).
      { destruct n; simpl in Hn'; by destruct (_ <? _). }
      induction m as [|m IHm]; simpl; rewrite Hgt; [done|]. by rewrite He. }
    by apply (Hall fuel).
  - apply IH; [done|lia|done].
Qed.

Lemma nak_loop_more go fuel fuel' s r :
  (fuel <= fuel')%nat -> ipcp_nak_loop go fuel s = Some r -> ipcp_nak_loop go fuel' s = Some r.
Proof.
  revert fuel' s. induction fuel as [|fuel IH]; intros fuel' s Hle; destruct fuel' as [|fuel']; simpl; try done; try lia;
    destruct (CILEN_VOID <? cu_len (in_c s)); try done.
  destruct (ipcp_nak_extra go s); [|done..]. apply IH. lia.
Qed.

(** Every option the loop comes to has a length. *)
Inductive lengths_ok : bytes -> Z -> Prop :=
  | lo_end p len : len <= CILEN_VOID -> lengths_ok p len
  | lo_option citype cilen p len :
      0 < cilen -> lengths_ok (drop (Z.to_nat cilen) (citype :: cilen :: p)) (len - cilen) ->
      lengths_ok (citype :: cilen :: p) len.

(** A macro takes the option in front, or nothing. *)
Definition advances (c c' : cursor) : Prop :=
  c' = c \/
  exists citype cilen p, cu_p c = citype :: cilen :: p /\ CILEN_VOID < cilen <= cu_len c /\
    cu_p c' = drop (Z.to_nat cilen) (cu_p c) /\ cu_len c' = cu_len c - cilen.

Lemma advances_lengths c c' :
  advances c c' -> lengths_ok (cu_p c) (cu_len c) -> lengths_ok (cu_p c') (cu_len c') /\ cu_len c' <= cu_len c.
Proof.
  unfold CILEN_VOID. intros [->|(t & n & p & Hp & Hn & Hp' & Hl')] Hk; [split; [done|lia]|].
  rewrite Hp' Hl' Hp. split; [|unfold CILEN_VOID in *; lia]. rewrite Hp in Hk.
  inversion Hk; subst; unfold CILEN_VOID in *; [lia|done].
Qed.

Lemma get_addr_drop c a c' : get_addr c = Good (a, c') -> cu_p c' = drop 4 (cu_p c) /\ cu_len c' = cu_len c.
Proof.
  unfold get_addr. destruct (cu_p c) as [|? [|? [|? [|? p]]]]; try done. cbn [GETLONG get mbind parse_bind].
  intros Heq. by simplify_eq/=.
Qed.

Lemma starts_head opt n c : starts opt n c = Good true -> exists p, cu_p c = opt :: n :: p.
Proof.
  unfold starts. destruct (_ <? n); [done|]. destruct (cu_p c) as [|p0 [|p1 p]]; [done..|]. intros [= E].
  bool_props. subst. by exists p.
Qed.

Lemma starts_late_head opt lens c n : starts_late opt lens c = Good (Some n) -> exists p, cu_p c = opt :: n :: p.
Proof.
  unfold starts_late. destruct (cu_p c) as [|p0 [|p1 p]]; [done..|]. destruct (_ && _ && _) eqn:E; [|done].
  intros [= <-]. bool_props. subst. by exists p.
Qed.

Lemma nak_addr_advances go opt old s s' : NAKCIADDR go opt old s = Good s' -> advances (in_c s) (in_c s').
Proof.
  unfold NAKCIADDR. destruct (neg_addr go); [|intros [= <-]; by left]. set (n := if old then CILEN_ADDRS else CILEN_ADDR).
  destruct (starts opt n (in_c s)) as [[]| |] eqn:Es; cbn [mbind parse_bind]; try done; [|intros [= <-]; by left].
  destruct (starts_head _ _ _ Es) as [p Hp]. apply starts_true in Es.
  destruct (get_addr (take_head n (in_c s))) as [[a1 c1]| |] eqn:E1; [|done..]. cbn [mbind parse_bind].
  apply get_addr_drop in E1 as [Hp1 Hl1]. simpl in Hp1, Hl1. rewrite drop_drop in Hp1.
  destruct old; subst n; cbn [mbind parse_bind].
  - destruct (get_addr c1) as [[a2 c2]| |] eqn:E2; [|done..]. intros [= <-]. simpl.
    apply get_addr_drop in E2 as [Hp2 Hl2]. rewrite Hp1 drop_drop in Hp2.
    right. exists opt, CILEN_ADDRS, p. split_and!; [done|done|done|done|congruence].
  - intros [= <-]. simpl. right. by exists opt, CILEN_ADDR, p.
Qed.

Lemma nak_vj_advances go s s' : NAKCIVJ go CI_COMPRESSTYPE s = Good s' -> advances (in_c s) (in_c s').
Proof.
  unfold NAKCIVJ. destruct (neg_vj go); [|intros [= <-]; by left].
  destruct (starts_late _ _ (in_c s)) as [[n|]| |] eqn:Es; cbn [mbind parse_bind]; try done; [|intros [= <-]; by left].
  destruct (starts_late_head _ _ _ _ Es) as [p Hp]. apply starts_late_some in Es as [Hin Hle].
  assert (Hn : n = 4 \/ n = 6).
  { apply list_elem_of_In in Hin. unfold CILEN_COMPRESS, CILEN_VJ in Hin. simpl in Hin. lia. }
  simpl. rewrite Hp. simpl. rewrite drop_0. destruct p as [|b0 [|b1 p]]; [done..|]. cbn [GETSHORT get mbind parse_bind].
  destruct (Z.eqb_spec n CILEN_VJ) as [->|Hne].
  - destruct p as [|b2 [|b3 p]]; [done..|]. cbn [GETCHAR get mbind parse_bind]. intros [= <-]. simpl.
    right. eexists _, _, _. split_and!; [done|done|done|by rewrite Hp|done].
  - assert (n = 4) as -> by (unfold CILEN_VJ in Hne; lia). intros [= <-]. simpl.
    right. eexists _, _, _. split_and!; [done|done|done|by rewrite Hp|done].
Qed.

Lemma nak_dns_advances opt neg mark code s s' :
  NAKCIDNS opt neg mark code s = Good s' -> advances (in_c s) (in_c s').
Proof.
  unfold NAKCIDNS. destruct neg; [|intros [= <-]; by left].
  destruct (starts_late _ _ (in_c s)) as [[n|]| |] eqn:Es; cbn [mbind parse_bind]; try done; [|intros [= <-]; by left].
  destruct (starts_late_head _ _ _ _ Es) as [p Hp]. apply starts_late_some in Es as [->%list_elem_of_singleton Hle].
  destruct (get_addr _) as [[a c]| |] eqn:E; [|done..]. intros [= <-]. simpl.
  apply get_addr_drop in E as [Hp1 Hl1]. simpl in Hp1. rewrite drop_drop in Hp1.
  right. by exists opt, CILEN_ADDR, p.
Qed.

Lemma requested_lengths go s s' :
  ipcp_nak_requested go s = Good s' -> lengths_ok (cu_p (in_c s)) (cu_len (in_c s)) ->
  lengths_ok (cu_p (in_c s')) (cu_len (in_c s')) /\ cu_len (in_c s') <= cu_len (in_c s).
Proof.
  unfold ipcp_nak_requested. intros E Hk.
  destruct (NAKCIADDR _ _ _ s) as [s1| |] eqn:E1; cbn [mbind parse_bind] in E; [|done..].
  destruct (advances_lengths _ _ (nak_addr_advances _ _ _ _ _ E1) Hk) as [Hk1 Hl1].
  destruct (NAKCIVJ _ _ s1) as [s2| |] eqn:E2; cbn [mbind parse_bind] in E; [|done..].
  destruct (advances_lengths _ _ (nak_vj_advances _ _ _ E2) Hk1) as [Hk2 Hl2].
  destruct (NAKCIDNS _ _ _ _ s2) as [s3| |] eqn:E3; cbn [mbind parse_bind] in E; [|done..].
  destruct (advances_lengths _ _ (nak_dns_advances _ _ _ _ _ _ E3) Hk2) as [Hk3 Hl3].
  destruct (advances_lengths _ _ (nak_dns_advances _ _ _ _ _ _ E) Hk3) as [Hk4 Hl4]. split; [done|lia].
Qed.

Lemma advances_bytes c c' :
  advances c c' -> Forall byte_ok (cu_p c) -> Forall byte_ok (cu_p c') /\ cu_len c' <= cu_len c.
Proof.
  intros [->|(t & n & p & Hp & Hn & Hp' & Hl')] Hb; [split; [done|lia]|].
  rewrite Hp' Hl'. split; [by apply Forall_drop|unfold CILEN_VOID in *; lia].
Qed.

Lemma requested_bytes go s s' :
  ipcp_nak_requested go s = Good s' -> Forall byte_ok (cu_p (in_c s)) ->
  Forall byte_ok (cu_p (in_c s')) /\ cu_len (in_c s') <= cu_len (in_c s).
Proof.
  unfold ipcp_nak_requested. intros E Hk.
  destruct (NAKCIADDR _ _ _ s) as [s1| |] eqn:E1; cbn [mbind parse_bind] in E; [|done..].
  destruct (advances_bytes _ _ (nak_addr_advances _ _ _ _ _ E1) Hk) as [Hk1 Hl1].
  destruct (NAKCIVJ _ _ s1) as [s2| |] eqn:E2; cbn [mbind parse_bind] in E; [|done..].
  destruct (advances_bytes _ _ (nak_vj_advances _ _ _ E2) Hk1) as [Hk2 Hl2].
  destruct (NAKCIDNS _ _ _ _ s2) as [s3| |] eqn:E3; cbn [mbind parse_bind] in E; [|done..].
  destruct (advances_bytes _ _ (nak_dns_advances _ _ _ _ _ _ E3) Hk2) as [Hk3 Hl3].
  destruct (advances_bytes _ _ (nak_dns_advances _ _ _ _ _ _ E) Hk3) as [Hk4 Hl4]. split; [done|lia].
Qed.

Lemma nak_extra_next go s s' :
  ipcp_nak_extra go s = Good s' ->
  exists citype cilen p, cu_p (in_c s) = citype :: cilen :: p /\
    in_c s' = Cursor (drop (Z.to_nat cilen) (cu_p (in_c s))) (cu_len (in_c s) - cilen).
Proof.
  unfold ipcp_nak_extra. destruct (cu_p (in_c s)) as [|citype [|cilen p]]; [done..|].
  cbn [GETCHAR get mbind parse_bind]. intros E. exists citype, cilen, p. split; [done|].
  destruct (negb (_ <? 0)); [|done]. cbn [unless_bad] in E.
  destruct (citype =? CI_COMPRESSTYPE); [destruct (negb _); simplify_eq/=; done|].
  destruct (citype =? CI_ADDRS).
  { destruct (negb _); [|done]. simpl in E. destruct (get_addr _) as [[a1 c1]| |]; [|done..]. simpl in E.
    destruct (get_addr c1) as [[a2 c2]| |]; [|done..]. by simplify_eq/=. }
  destruct (citype =? CI_ADDR); [|by simplify_eq/=].
  destruct (negb _); [|done]. simpl in E. destruct (get_addr _) as [[a1 c1]| |]; [|done..]. by simplify_eq/=.
Qed.

Lemma nak_loop_ends go fuel s :
  lengths_ok (cu_p (in_c s)) (cu_len (in_c s)) -> cu_len (in_c s) <= Z.of_nat fuel ->
  ipcp_nak_loop go fuel s <> None.
Proof.
  revert s. induction fuel as [|fuel IH]; intros s Hk Hl; simpl;
    destruct (Z.ltb_spec CILEN_VOID (cu_len (in_c s))) as [Hlt|]; try done.
  { unfold CILEN_VOID in Hlt. lia. }
  destruct (ipcp_nak_extra go s) as [s'| |] eqn:Ex; [|done..].
  destruct (nak_extra_next go s s' Ex) as (t & n & p & Hp & Hc). rewrite Hp in Hk.
  inversion Hk as [|? ? ? ? Hn Hrest]; subst; [lia|].
  apply IH; rewrite Hc; simpl; [by rewrite Hp|lia].
Qed.

(** When the parser of a Nak ends.  If every option of the packet has a
    length, as many passes over the options as the packet has bytes suffice and
    more of them change nothing; a parser that is not done then is never done.
    Three zeroes, whatever we asked for, keep the daemon in the loop for
    ever. *)
Theorem ipcp_nakci_ends go :
  (forall p len, lengths_ok p len ->
     exists r, forall fuel, (Z.to_nat len <= fuel)%nat -> ipcp_nakci go fuel p len = Some r) /\
  (forall p len, Forall byte_ok p -> ipcp_nakci go (Z.to_nat len) p len = None ->
     forall fuel, ipcp_nakci go fuel p len = None) /\
  (forall fuel rest, ipcp_nakci go fuel (0 :: 0 :: 0 :: rest) 3 = None).
Proof.
  split_and!.
  - intros p len Hk. unfold ipcp_nakci. destruct (ipcp_nak_requested go _) as [s| |] eqn:E; [|by eexists..].
    destruct (requested_lengths _ _ _ E Hk) as [Hk' Hl']. simpl in Hl'.
    destruct (ipcp_nak_loop go (Z.to_nat len) s) as [r|] eqn:El.
    + eexists. intros fuel Hf. by rewrite (nak_loop_more go _ fuel s r Hf El).
    + exfalso. by apply (nak_loop_ends go (Z.to_nat len) s); [|lia|].
  - intros p len Hb. unfold ipcp_nakci. destruct (ipcp_nak_requested go _) as [s| |] eqn:E; [|done..].
    destruct (requested_bytes _ _ _ E Hb) as [Hb' Hl']. simpl in Hl'. intros Hn fuel.
    destruct (ipcp_nak_loop go (Z.to_nat len) s) eqn:El; [done|].
    by rewrite (nak_loop_hangs go (Z.to_nat len) s Hb' ltac:(lia) El fuel).
  - intros fuel rest. unfold ipcp_nakci.
    assert (E : ipcp_nak_requested go (IpcpNak (Cursor (0 :: 0 :: 0 :: rest) 3) no_ip_options go)
                = Good (IpcpNak (Cursor (0 :: 0 :: 0 :: rest) 3) no_ip_options go)).
    { unfold ipcp_nak_requested, NAKCIADDR, NAKCIVJ, NAKCIDNS.
      destruct (neg_addr go), (old_addrs go), (neg_vj go), (req_dns1 go), (req_dns2 go); reflexivity. }
    rewrite E. set (s := IpcpNak _ _ _). assert (Hl : ipcp_nak_loop go fuel s = None); [|by rewrite Hl].
    induction fuel as [|fuel IH]; [done|]. exact IH.
Qed.
End NakSpec.
