(* ===== verification/IpcpReqci.v ===== *)
(** * IPCP options: the peer's Configure-Request

    [ipcp_reqci] walks over the options of the peer's request.  It writes its
    counter-proposals over the options themselves, moves the options of the
    answer to the front of the buffer, and appends an address option when the
    peer sent none.  Besides what it records of the peer it changes our own
    wishes and the address we got.  The case of each option type is a
    definition of its own. *)

From S2P Require Import Prelude Wire Inet Fsm LcpOptions LcpReqci IpcpOptions.

(** What a case of the switch leaves: the verdict, the buffer and the options. *)
Record ip_ci := IpCi {
  ic_orc : Z; ic_buf : bytes; ic_wo : ipcp_options; ic_go : ipcp_options; ic_ho : ipcp_options
}.

(** [PUT] at an offset of the buffer. *)
Definition put (buf : bytes) (off : nat) (bs : bytes) : parse bytes := get (store buf off bs).

Section Reqci.
Context `{ByteOrder}.
Context (ao : ipcp_options) (reject_if_disagree : bool).

(** The address the peer says is his, read at [off]: the verdict on it, the
    address, and the buffer with ours written over it if it is to be ours. *)
Definition his_address (wo : ipcp_options) (buf : bytes) (off : nat) : parse (Z * Z * bytes) :=
  '(tl, _) ← get (GETLONG (drop off buf));
  let ciaddr1 := htonl tl in
  if negb (ciaddr1 =? hisaddr wo) && ((ciaddr1 =? 0) || negb (accept_remote wo)) then
    buf ← (if reject_if_disagree then Good buf else put buf off (PUTLONG (ntohl (hisaddr wo))));
    Good (CONFNAK, ciaddr1, buf)
  else if (ciaddr1 =? 0) && (hisaddr wo =? 0) then Good (CONFREJ, ciaddr1, buf)
  else Good (CONFACK, ciaddr1, buf).

(** The address he says is ours: besides, the address we got. *)
Definition our_address (orc : Z) (wo go : ipcp_options) (buf : bytes) (off : nat)
    : parse (Z * Z * bytes * ipcp_options) :=
  '(tl, _) ← get (GETLONG (drop off buf));
  let ciaddr2 := htonl tl in
  if negb (ciaddr2 =? ouraddr wo) then
    if (ciaddr2 =? 0) || negb (accept_local wo) then
      buf ← (if reject_if_disagree then Good buf else put buf off (PUTLONG (ntohl (ouraddr wo))));
      Good (CONFNAK, ciaddr2, buf, go)
    else Good (orc, ciaddr2, buf, set_ouraddr ciaddr2 go)
  else Good (orc, ciaddr2, buf, go).

Definition ci_addrs (cilen : Z) (cip : nat) (buf : bytes) (wo go ho : ipcp_options) : parse ip_ci :=
  if negb (neg_addr ao) || negb (cilen =? CILEN_ADDRS) then Good (IpCi CONFREJ buf wo go ho) else
  '(orc, ciaddr1, buf) ← his_address wo buf (cip + 2);
  if orc =? CONFREJ then Good (IpCi CONFREJ buf (set_req_addr false wo) go ho) else
  '(orc, ciaddr2, buf, go) ← our_address orc wo go buf (cip + 6);
  Good (IpCi orc buf wo go
          (set_ouraddr ciaddr2 (set_hisaddr ciaddr1 (set_old_addrs true (set_neg_addr true ho))))).

Definition ci_addr (cilen : Z) (cip : nat) (buf : bytes) (wo go ho : ipcp_options) : parse ip_ci :=
  if negb (neg_addr ao) || negb (cilen =? CILEN_ADDR) then Good (IpCi CONFREJ buf wo go ho) else
  '(orc, ciaddr1, buf) ← his_address wo buf (cip + 2);
  if orc =? CONFREJ then Good (IpCi CONFREJ buf (set_req_addr false wo) go ho)
  else Good (IpCi orc buf wo go (set_hisaddr ciaddr1 (set_neg_addr true ho))).

(** A name server: [addr] is the address we have for the peer. *)
Definition ci_server (addr cilen : Z) (cip : nat) (buf : bytes) (wo go ho : ipcp_options) : parse ip_ci :=
  if (addr =? 0) || negb (cilen =? CILEN_ADDR) then Good (IpCi CONFREJ buf wo go ho) else
  '(tl, _) ← get (GETLONG (drop (cip + 2) buf));
  if negb (htonl tl =? addr) then
    buf ← put buf (cip + 2) (PUTLONG (ntohl addr));
    Good (IpCi CONFNAK buf wo go ho)
  else Good (IpCi CONFACK buf wo go ho).

(** The slots and the flag of the long form. *)
Definition vj_slots (cip : nat) (buf : bytes) (wo : ipcp_options) : parse (Z * bytes * Z * Z) :=
  '(slot, _) ← get (GETCHAR (drop (cip + 4) buf));
  '(orc, buf) ← (if maxslotindex ao <? slot then
                   buf ← (if reject_if_disagree then Good buf else put buf (cip + 4) (PUTCHAR (maxslotindex ao)));
                   Good (CONFNAK, buf)
                 else Good (CONFACK, buf));
  '(cf, _) ← get (GETCHAR (drop (cip + 5) buf));
  '(orc, buf) ← (if negb (cf =? 0) && negb (cflag ao) then
                   buf ← (if reject_if_disagree then Good buf
                          else put buf (cip + 5) (PUTCHAR (if cflag wo then 1 else 0)));
                   Good (CONFNAK, buf)
                 else Good (orc, buf));
  Good (orc, buf, slot, cf).

Definition ci_compress (cilen : Z) (cip : nat) (buf : bytes) (wo go ho : ipcp_options) : parse ip_ci :=
  if negb (neg_vj ao) || (negb (cilen =? CILEN_VJ) && negb (cilen =? CILEN_COMPRESS))
  then Good (IpCi CONFREJ buf wo go ho) else
  '(cishort, _) ← get (GETSHORT (drop (cip + 2) buf));
  if negb ((cishort =? IPCP_VJ_COMP) || ((cishort =? IPCP_VJ_COMP_OLD) && (cilen =? CILEN_COMPRESS)))
  then Good (IpCi CONFREJ buf wo go ho) else
  let ho := set_vj_protocol cishort (set_neg_vj true ho) in
  if cilen =? CILEN_VJ then
    '(orc, buf, slot, cf) ← vj_slots cip buf wo;
    Good (IpCi orc buf wo go (set_cflag (negb (cf =? 0)) (set_maxslotindex slot ho)))
  else Good (IpCi CONFACK buf wo go (set_cflag true (set_maxslotindex (MAX_STATES - 1) (set_old_vj true ho)))).

(** [switch (citype)] *)
Definition ip_switch (citype cilen : Z) (cip : nat) (buf : bytes) (wo go ho : ipcp_options) : parse ip_ci :=
  if citype =? CI_ADDRS then ci_addrs cilen cip buf wo go ho
  else if citype =? CI_ADDR then ci_addr cilen cip buf wo go ho
  else if citype =? CI_MS_DNS1 then ci_server (dnsaddr0 ao) cilen cip buf wo go ho
  else if citype =? CI_MS_DNS2 then ci_server (dnsaddr1 ao) cilen cip buf wo go ho
  else if citype =? CI_MS_WINS1 then ci_server (winsaddr0 ao) cilen cip buf wo go ho
  else if citype =? CI_MS_WINS2 then ci_server (winsaddr1 ao) cilen cip buf wo go ho
  else if citype =? CI_COMPRESSTYPE then ci_compress cilen cip buf wo go ho
  else Good (IpCi CONFREJ buf wo go ho).

(** The locals of [ipcp_reqci]: the buffer from [inp] on, [next - inp],
    [ucp - inp], [rc], [l], the options it changes; and whether a copy inside the
    buffer has been undefined. *)
Record ip_req := IpReq {
  iq_buf : bytes;
  iq_next : nat;
  iq_ucp : nat;
  iq_rc : Z;
  iq_l : Z;
  iq_wo : ipcp_options;
  iq_go : ipcp_options;
  iq_ho : ipcp_options;
  iq_overlap : bool
}.

(** The code behind [endswitch:], of a state whose buffer, options, [next] and
    [l] are up to date. *)
Definition ip_endswitch (cilen : Z) (cip : nat) (orc : Z) (st : ip_req) : ip_req :=
  let rc := iq_rc st in
  if (orc =? CONFACK) && negb (rc =? CONFACK) then st
  else if (orc =? CONFNAK) && negb reject_if_disagree && (rc =? CONFREJ) then st
  else
    let '(orc, rc, ucp) :=
      if orc =? CONFNAK then
        if reject_if_disagree then (CONFREJ, rc, iq_ucp st)
        else if rc =? CONFACK then (orc, CONFNAK, 0%nat) else (orc, rc, iq_ucp st)
      else (orc, rc, iq_ucp st) in
    let '(rc, ucp) := if (orc =? CONFREJ) && negb (rc =? CONFREJ) then (CONFREJ, 0%nat) else (rc, ucp) in
    let n := Z.to_nat cilen in
    IpReq (if decide (ucp = cip) then iq_buf st else BCOPY (iq_buf st) cip ucp n)
      (iq_next st) (ucp + n) rc (iq_l st) (iq_wo st) (iq_go st) (iq_ho st)
      (iq_overlap st || if decide (ucp = cip) then false else overlap cip ucp n).

(** One pass of the loop. *)
Definition ip_pass (st : ip_req) : parse ip_req :=
  let cip := iq_next st in
  let l := iq_l st in
  let bad_ci :=
    Good (ip_endswitch l cip CONFREJ
            (IpReq (iq_buf st) (iq_next st) (iq_ucp st) (iq_rc st) 0 (iq_wo st) (iq_go st) (iq_ho st)
               (iq_overlap st))) in
  if l <? 2 then bad_ci else
  match drop cip (iq_buf st) with
  | citype :: cilen :: _ =>
      if (cilen <? 2) || (l <? cilen) then bad_ci else
      r ← ip_switch citype cilen cip (iq_buf st) (iq_wo st) (iq_go st) (iq_ho st);
      Good (ip_endswitch cilen cip (ic_orc r)
              (IpReq (ic_buf r) (cip + Z.to_nat cilen) (iq_ucp st) (iq_rc st) (l - cilen)
                 (ic_wo r) (ic_go r) (ic_ho r) (iq_overlap st)))
  | _ => Oob
  end.

(** [while (l)]: every pass takes a byte at least. *)
Fixpoint ip_loop (fuel : nat) (st : ip_req) : parse ip_req :=
  match fuel with
  | O => Good st
  | S fuel' => if iq_l st =? 0 then Good st else st ← ip_pass st; ip_loop fuel' st
  end.

(** The verdict, what is at [inp], the length of the answer, the options, and
    whether the appended option ran over the end of the buffer, and whether a
    copy was undefined. *)
Record ip_reply := IpReply {
  ir_code : Z; ir_buf : bytes; ir_len : Z;
  ir_wo : ipcp_options; ir_go : ipcp_options; ir_ho : ipcp_options; ir_oob : bool;
  ir_overlap : bool
}.

(** The address option the peer should have sent. *)
Definition asked_addr (wo : ipcp_options) : bytes :=
  PUTCHAR CI_ADDR ++ PUTCHAR CILEN_ADDR ++ PUTLONG (ntohl (hisaddr wo)).

(** The code behind the loop. *)
Definition ip_finish (st : ip_req) : ip_reply :=
  if negb (iq_rc st =? CONFREJ) && negb (neg_addr (iq_ho st)) && req_addr (iq_wo st) && negb reject_if_disagree
  then
    let '(ucp, wo) := if iq_rc st =? CONFACK then (0%nat, set_req_addr false (iq_wo st)) else (iq_ucp st, iq_wo st) in
    let bs := asked_addr (iq_wo st) in
    let '(buf, oob) := match store (iq_buf st) ucp bs with
                       | Some buf => (buf, false)
                       | None => (take ucp (iq_buf st) ++ bs, true)
                       end in
    IpReply CONFNAK buf (Z.of_nat (ucp + length bs)) wo (iq_go st) (iq_ho st) oob (iq_overlap st)
  else
    IpReply (iq_rc st) (iq_buf st) (Z.of_nat (iq_ucp st)) (iq_wo st) (iq_go st) (iq_ho st) false (iq_overlap st).

Definition ipcp_reqci (wo go : ipcp_options) (inp : bytes) (len : Z) : parse ip_reply :=
  st ← ip_loop (Z.to_nat len) (IpReq inp 0 0 CONFACK len wo go no_ip_options false);
  Good (ip_finish st).
End Reqci.
