(* ===== verification/IpcpReqciSpec.v ===== *)
(** * IPCP options: theorems on the peer's request

    [ipcp_reqci], which works in the packet's own buffer, against a reference
    that judges every option on its own, away from the buffer: the verdict is
    the worst of the judgements and the answer is made of the options with that
    verdict.  What is acknowledged respects our options. *)

From S2P Require Import Prelude Wire Inet Fsm LcpOptions LcpOptionsSpec LcpReqci LcpReqciSpec.
From S2P Require Import IpcpOptions IpcpOptionsSpec IpcpReqci.

(** ** Reading and writing one option of a buffer *)

Section Local.
Context (pre o post : bytes).

Lemma drop_local k : (k <= length o)%nat -> drop (length pre + k) (pre ++ o ++ post) = drop k o ++ post.
Proof. intros Hk. rewrite -drop_drop drop_app_length drop_app_le //. Qed.

Lemma GETLONG_local k :
  (k + 4 <= length o)%nat ->
  exists v p q, GETLONG (drop k o) = Some (v, p) /\ GETLONG (drop (length pre + k) (pre ++ o ++ post)) = Some (v, q).
Proof.
  intros Hk. rewrite drop_local; [lia|]. assert (Hl : (4 <= length (drop k o))%nat) by (rewrite length_drop; lia).
  destruct (drop k o) as [|a [|b [|c [|d p]]]]; simpl in Hl; [lia..|]. simpl. by eexists _, _, _.
Qed.

Lemma GETSHORT_local k :
  (k + 2 <= length o)%nat ->
  exists v p q, GETSHORT (drop k o) = Some (v, p) /\ GETSHORT (drop (length pre + k) (pre ++ o ++ post)) = Some (v, q).
Proof.
  intros Hk. rewrite drop_local; [lia|]. assert (Hl : (2 <= length (drop k o))%nat) by (rewrite length_drop; lia).
  destruct (drop k o) as [|a [|b p]]; simpl in Hl; [lia..|]. simpl. by eexists _, _, _.
Qed.

Lemma GETCHAR_local k :
  (k < length o)%nat ->
  exists v p q, GETCHAR (drop k o) = Some (v, p) /\ GETCHAR (drop (length pre + k) (pre ++ o ++ post)) = Some (v, q).
Proof.
  intros Hk. rewrite drop_local; [lia|]. assert (Hl : (1 <= length (drop k o))%nat) by (rewrite length_drop; lia).
  destruct (drop k o) as [|a p]; simpl in Hl; [lia|]. simpl. by eexists _, _, _.
Qed.

Lemma put_local k bs :
  (k + length bs <= length o)%nat ->
  exists o', put o k bs = Good o' /\ length o' = length o /\
    put (pre ++ o ++ post) (length pre + k) bs = Good (pre ++ o' ++ post).
Proof.
  intros Hk. unfold put. rewrite store_Some; [done|]. rewrite store_Some; [rewrite !length_app; lia|].
  eexists. split; [done|]. split.
  - rewrite !length_app length_take length_drop. lia.
  - simpl. f_equal. rewrite take_app_add take_app_le; [lia|].
    replace (length pre + k + length bs)%nat with (length pre + (k + length bs))%nat by lia.
    rewrite drop_local; [lia|]. by rewrite -!app_assoc.
Qed.
End Local.

Section Spec.
Context `{ByteOrder}.

(** ** A case of the switch looks at its option only *)

(** The result of a case on an option in a buffer, from that on the option
    alone. *)
Definition in_buffer (pre post : bytes) (r : ip_ci) : ip_ci :=
  IpCi (ic_orc r) (pre ++ ic_buf r ++ post) (ic_wo r) (ic_go r) (ic_ho r).

Definition local_case (n : nat) (f : nat -> bytes -> parse ip_ci) : Prop :=
  forall pre o post, length o = n ->
    exists r, f 0%nat o = Good r /\ f (length pre) (pre ++ o ++ post) = Good (in_buffer pre post r) /\
      length (ic_buf r) = n /\ is_verdict (ic_orc r) /\ (ic_orc r = CONFACK -> ic_buf r = o).

Context (ao : ipcp_options) (rid : bool).

Lemma his_address_local wo k pre o post :
  (k + 4 <= length o)%nat ->
  exists orc a o', his_address rid wo o k = Good (orc, a, o') /\
    his_address rid wo (pre ++ o ++ post) (length pre + k) = Good (orc, a, pre ++ o' ++ post) /\
    length o' = length o /\ is_verdict orc /\ (orc <> CONFNAK -> o' = o).
Proof.
  intros Hk. unfold his_address, is_verdict.
  destruct (GETLONG_local pre o post k Hk) as (v & p & q & -> & ->). simpl.
  destruct (put_local pre o post k (PUTLONG (ntohl (hisaddr wo)))) as (o' & Ho & Hl & Hp); [done|].
  rewrite Ho Hp.
  destruct (_ && _); [destruct rid; simpl; eexists _, _, _; split_and!; eauto; done|].
  destruct (_ && _); eexists _, _, _; split_and!; eauto.
Qed.

Lemma our_address_local orc wo go k pre o post :
  (k + 4 <= length o)%nat -> is_verdict orc ->
  exists orc' a o' go', our_address rid orc wo go o k = Good (orc', a, o', go') /\
    our_address rid orc wo go (pre ++ o ++ post) (length pre + k) = Good (orc', a, pre ++ o' ++ post, go') /\
    length o' = length o /\ is_verdict orc' /\ (orc' <> CONFNAK -> orc' = orc /\ o' = o).
Proof.
  intros Hk Hv. unfold our_address.
  destruct (GETLONG_local pre o post k Hk) as (v & p & q & -> & ->). simpl.
  destruct (put_local pre o post k (PUTLONG (ntohl (ouraddr wo)))) as (o' & Ho & Hl & Hp); [done|].
  rewrite Ho Hp. destruct (negb _); [|by eexists _, _, _, _; split_and!; eauto].
  destruct (_ || _); [|by eexists _, _, _, _; split_and!; eauto].
  unfold is_verdict. destruct rid; simpl; eexists _, _, _, _; split_and!; eauto; done.
Qed.

Ltac rejects := intros pre o post Ho; eexists; split_and!; [reflexivity|reflexivity|done|by right; right|done].

Lemma addrs_local cilen wo go ho :
  local_case (Z.to_nat cilen) (fun cip buf => ci_addrs ao rid cilen cip buf wo go ho).
Proof.
  unfold ci_addrs. destruct (_ || _) eqn:E; [rejects|]. bool_props. subst cilen.
  intros pre o post Ho. unfold CILEN_ADDRS in Ho. change (Z.to_nat 10) with 10%nat in Ho.
  destruct (his_address_local wo 2 pre o post) as (orc & a & o1 & E1 & E2 & Hl & Hv & Hsame); [lia|].
  change (0 + 2)%nat with 2%nat. rewrite E1 E2. simpl.
  destruct (Z.eqb_spec orc CONFREJ) as [->|Hne].
  { eexists. split_and!; [reflexivity|reflexivity|by rewrite /= Hl Ho|by right; right|done]. }
  destruct (our_address_local orc wo go 6 pre o1 post) as (orc' & b & o2 & go' & F1 & F2 & Hl2 & Hv2 & Hsame2); [lia|done|].
  rewrite F1 F2. simpl. eexists. split_and!; [reflexivity|reflexivity|by rewrite /= Hl2 Hl Ho|done|].
  simpl. intros Ha. destruct (Hsame2 ltac:(by rewrite Ha)) as [Heq ->]. apply Hsame. by rewrite -Heq Ha.
Qed.

Lemma addr_local cilen wo go ho :
  local_case (Z.to_nat cilen) (fun cip buf => ci_addr ao rid cilen cip buf wo go ho).
Proof.
  unfold ci_addr. destruct (_ || _) eqn:E; [rejects|]. bool_props. subst cilen.
  intros pre o post Ho. unfold CILEN_ADDR in Ho. change (Z.to_nat 6) with 6%nat in Ho.
  destruct (his_address_local wo 2 pre o post) as (orc & a & o1 & E1 & E2 & Hl & Hv & Hsame); [lia|].
  change (0 + 2)%nat with 2%nat. rewrite E1 E2. simpl.
  destruct (Z.eqb_spec orc CONFREJ) as [->|Hne]; eexists;
    (split_and!; [reflexivity|reflexivity|by rewrite /= Hl Ho|first [done|by right; right]|simpl; try done]).
  intros ->. by apply Hsame.
Qed.

Lemma server_local a cilen wo go ho :
  local_case (Z.to_nat cilen) (fun cip buf => ci_server a cilen cip buf wo go ho).
Proof.
  unfold ci_server. destruct (_ || _) eqn:E; [rejects|]. bool_props. subst cilen.
  intros pre o post Ho. unfold CILEN_ADDR in Ho. change (Z.to_nat 6) with 6%nat in Ho.
  destruct (GETLONG_local pre o post 2) as (v & p & q & E1 & E2); [lia|].
  destruct (put_local pre o post 2 (PUTLONG (ntohl a))) as (o' & F1 & Hl & F2); [simpl; lia|].
  change (0 + 2)%nat with 2%nat. rewrite E1 E2. simpl. rewrite F1 F2.
  destruct (negb _); simpl; eexists;
    (split_and!; [reflexivity|reflexivity|by rewrite /= ?Hl Ho|first [by left|by right; left]|done]).
Qed.

Lemma slots_local wo pre o post :
  length o = 6%nat ->
  exists orc o' slot cf, vj_slots ao rid 0 o wo = Good (orc, o', slot, cf) /\
    vj_slots ao rid (length pre) (pre ++ o ++ post) wo = Good (orc, pre ++ o' ++ post, slot, cf) /\
    length o' = 6%nat /\ is_verdict orc /\ (orc = CONFACK -> o' = o).
Proof.
  intros Ho. unfold vj_slots. change (0 + 4)%nat with 4%nat. change (0 + 5)%nat with 5%nat.
  destruct (GETCHAR_local pre o post 4) as (s & p & q & -> & ->); [lia|]. simpl.
  assert (H1 : exists orc o1,
    (if maxslotindex ao <? s then buf ← (if rid then Good o else put o 4 (PUTCHAR (maxslotindex ao))); Good (CONFNAK, buf)
     else Good (CONFACK, o)) = Good (orc, o1) /\
    (if maxslotindex ao <? s then buf ← (if rid then Good (pre ++ o ++ post)
        else put (pre ++ o ++ post) (length pre + 4) (PUTCHAR (maxslotindex ao))); Good (CONFNAK, buf)
     else Good (CONFACK, pre ++ o ++ post)) = Good (orc, pre ++ o1 ++ post) /\
    length o1 = 6%nat /\ is_verdict orc /\ (orc = CONFACK -> o1 = o)).
  { unfold is_verdict. destruct (put_local pre o post 4 (PUTCHAR (maxslotindex ao))) as (o' & F1 & Hl & F2); [simpl; lia|].
    rewrite F1 F2. destruct (_ <? s); [destruct rid|]; simpl; eexists _, _; split_and!; eauto; try lia; done. }
  destruct H1 as (orc & o1 & -> & -> & Hl1 & Hv1 & Hs1). simpl.
  destruct (GETCHAR_local pre o1 post 5) as (f & p' & q' & -> & ->); [lia|]. simpl.
  unfold is_verdict. destruct (put_local pre o1 post 5 (PUTCHAR (if cflag wo then 1 else 0))) as (o' & F1 & Hl & F2); [simpl; lia|].
  rewrite F1 F2. destruct (negb (f =? 0) && _); [destruct rid|]; simpl; eexists _, _, _, _; split_and!; eauto; try lia; done.
Qed.

Lemma compress_local cilen wo go ho :
  local_case (Z.to_nat cilen) (fun cip buf => ci_compress ao rid cilen cip buf wo go ho).
Proof.
  unfold ci_compress. destruct (negb (neg_vj ao) || _) eqn:E; [rejects|]. bool_props.
  assert (Hc : cilen = 6 \/ cilen = 4).
  { unfold CILEN_VJ, CILEN_COMPRESS in *. match goal with H : _ \/ _ |- _ => destruct H; bool_props; lia end. }
  intros pre o post Ho. destruct (GETSHORT_local pre o post 2) as (v & p & q & E1 & E2); [lia|].
  change (0 + 2)%nat with 2%nat. rewrite E1 E2. simpl.
  destruct (negb (_ || _)); [eexists; split_and!; [reflexivity|reflexivity|done|by right; right|done]|].
  destruct (Z.eqb_spec cilen CILEN_VJ) as [->|Hne].
  - destruct (slots_local wo pre o post Ho) as (orc & o' & s & f & F1 & F2 & Hl & Hv & Hs).
    rewrite F1 F2. simpl. eexists. by split_and!; [reflexivity|reflexivity|..].
  - eexists. split_and!; [reflexivity|reflexivity|done|by left|done].
Qed.

Lemma switch_local citype cilen wo go ho :
  local_case (Z.to_nat cilen) (fun cip buf => ip_switch ao rid citype cilen cip buf wo go ho).
Proof.
  unfold ip_switch. destruct (citype =? CI_ADDRS); [apply addrs_local|].
  destruct (citype =? CI_ADDR); [apply addr_local|].
  destruct (citype =? CI_MS_DNS1); [apply server_local|]. destruct (citype =? CI_MS_DNS2); [apply server_local|].
  destruct (citype =? CI_MS_WINS1); [apply server_local|]. destruct (citype =? CI_MS_WINS2); [apply server_local|].
  destruct (citype =? CI_COMPRESSTYPE); [apply compress_local|]. rejects.
Qed.

(** ** The reference *)

(** After too many Naks the daemon rejects instead. *)
Definition ip_harden (orc : Z) : Z := if (orc =? CONFNAK) && rid then CONFREJ else orc.

(** The judgements on the options, in order: the verdict and the bytes to send
    with it.  An option list that does not parse is one option to reject. *)
Fixpoint ip_judge (fuel : nat) (rest : bytes) (l : Z) (wo go ho : ipcp_options)
    : parse (list (Z * bytes) * ipcp_options * ipcp_options * ipcp_options) :=
  match fuel with
  | O => Good ([], wo, go, ho)
  | S fuel' =>
      if l =? 0 then Good ([], wo, go, ho)
      else
        let bad := Good ([(CONFREJ, take (Z.to_nat l) rest)], wo, go, ho) in
        if l <? 2 then bad else
        match rest with
        | citype :: cilen :: _ =>
            if (cilen <? 2) || (l <? cilen) then bad else
            r ← ip_switch ao rid citype cilen 0 (take (Z.to_nat cilen) rest) wo go ho;
            '(js, wo, go, ho) ←
              ip_judge fuel' (drop (Z.to_nat cilen) rest) (l - cilen) (ic_wo r) (ic_go r) (ic_ho r);
            Good ((ip_harden (ic_orc r), ic_buf r) :: js, wo, go, ho)
        | _ => Oob
        end
  end.

Definition ip_verdict (js : list (Z * bytes)) : Z := foldr (fun j => worse j.1) CONFACK js.

(** The options the answer consists of. *)
Definition with_verdict (v : Z) (js : list (Z * bytes)) : bytes :=
  concat (map snd (filter (fun j => j.1 = v) js)).
Definition ip_answer (js : list (Z * bytes)) : bytes := with_verdict (ip_verdict js) js.

(** ** The loop against the reference *)

(** The verdict and the bytes so far, and one more option. *)
Definition answer_step (a j : Z * bytes) : Z * bytes :=
  let rc' := worse a.1 j.1 in
  if j.1 =? rc' then (rc', (if a.1 =? rc' then a.2 else []) ++ j.2) else a.

(** Whether [n] octets are copied [gap] octets to the front, onto themselves. *)
Definition onto_itself (gap n : nat) : bool := (0 <? gap)%nat && (gap <? n)%nat.

(** Whether one more option, [next] octets into the packet, is copied onto
    itself: behind the answer so far, if it gets the same verdict, or to the
    front, if the verdict is a worse one. *)
Definition step_overlaps (a j : Z * bytes) (next : nat) : bool :=
  let rc' := worse a.1 j.1 in
  (j.1 =? rc') && onto_itself (next - length (if a.1 =? rc' then a.2 else [])) (length j.2).

Fixpoint answer_overlaps (a : Z * bytes) (next : nat) (js : list (Z * bytes)) : bool :=
  match js with
  | [] => false
  | j :: js => step_overlaps a j next || answer_overlaps (answer_step a j) (next + length j.2) js
  end.

Lemma is_verdict_ip_harden c : is_verdict c -> is_verdict (ip_harden c).
Proof. unfold ip_harden, is_verdict. case_tests; auto. Qed.

Lemma ip_endswitch_spec cilen cip orc st :
  is_verdict orc -> is_verdict (iq_rc st) -> (iq_ucp st <= cip)%nat ->
  (cip + Z.to_nat cilen <= length (iq_buf st))%nat ->
  let st' := ip_endswitch rid cilen cip orc st in
  let n := Z.to_nat cilen in
  (iq_rc st', take (iq_ucp st') (iq_buf st'))
    = answer_step (iq_rc st, take (iq_ucp st) (iq_buf st)) (ip_harden orc, take n (drop cip (iq_buf st))) /\
  is_verdict (iq_rc st') /\ (iq_ucp st' <= cip + n)%nat /\ length (iq_buf st') = length (iq_buf st) /\
  drop (cip + n) (iq_buf st') = drop (cip + n) (iq_buf st) /\
  iq_next st' = iq_next st /\ iq_l st' = iq_l st /\ iq_wo st' = iq_wo st /\ iq_go st' = iq_go st /\ iq_ho st' = iq_ho st.
Proof.
  intros Ho Hr Hle Hlen. set (n := Z.to_nat cilen) in *.
  assert (Hmv : forall ucp, (ucp <= cip)%nat ->
    let buf := if decide (ucp = cip) then iq_buf st else BCOPY (iq_buf st) cip ucp n in
    length buf = length (iq_buf st) /\ drop (cip + n) buf = drop (cip + n) (iq_buf st) /\
    take (ucp + n) buf = take ucp (iq_buf st) ++ take n (drop cip (iq_buf st))).
  { intros ucp Hu. destruct (BCOPY_spec (iq_buf st) cip ucp n Hu Hlen) as (H1 & H2 & H3).
    case_decide as E; [|done]. subst ucp. split_and!; [done..|].
    by rewrite -{1}(take_drop cip (iq_buf st)) take_app_add' // length_take; lia. }
  cbn zeta in Hmv. destruct (Hmv 0%nat ltac:(lia)) as (Z1 & Z2 & Z3). destruct (Hmv (iq_ucp st) Hle) as (U1 & U2 & U3).
  unfold ip_endswitch, ip_harden, answer_step. fold n. unfold is_verdict in *.
  destruct Ho as [->|[->| ->]], Hr as [Hr|[Hr|Hr]]; rewrite Hr; destruct rid; simpl;
    rewrite ?Z3 ?U3 ?Hr /=; split_and!; auto; lia.
Qed.

Lemma ip_endswitch_overlap cilen cip orc st :
  is_verdict orc -> is_verdict (iq_rc st) -> (iq_ucp st <= cip)%nat ->
  (cip + Z.to_nat cilen <= length (iq_buf st))%nat ->
  iq_overlap (ip_endswitch rid cilen cip orc st) = iq_overlap st ||
    step_overlaps (iq_rc st, take (iq_ucp st) (iq_buf st)) (ip_harden orc, take (Z.to_nat cilen) (drop cip (iq_buf st))) cip.
Proof.
  intros Ho Hr Hle Hlen. set (n := Z.to_nat cilen) in *.
  assert (Hov : forall ucp, (ucp <= cip)%nat ->
    (if decide (ucp = cip) then false else overlap cip ucp n) = onto_itself (cip - ucp) n).
  { intros ucp Hu. unfold overlap, onto_itself. case_decide as E.
    - by rewrite E Nat.sub_diag.
    - apply eq_true_iff_eq. rewrite !andb_true_iff !Nat.ltb_lt. lia. }
  pose proof (Hov 0%nat ltac:(lia)) as H0. pose proof (Hov _ Hle) as Hu.
  assert (Hl1 : length (take (iq_ucp st) (iq_buf st)) = iq_ucp st) by (rewrite length_take; lia).
  assert (Hl2 : length (take n (drop cip (iq_buf st))) = n) by (rewrite length_take length_drop; lia).
  unfold ip_endswitch, ip_harden, step_overlaps. cbn [fst snd]. fold n. rewrite Hl2. unfold is_verdict in *.
  destruct Ho as [->|[->| ->]], Hr as [Hr|[Hr|Hr]]; rewrite Hr; destruct rid; cbn -[onto_itself overlap decide];
    rewrite ?H0 ?Hu ?Hl1 ?orb_false_r //.
Qed.

Definition in_run (st : ip_req) : Prop :=
  (iq_ucp st <= iq_next st <= length (iq_buf st))%nat /\
  0 <= iq_l st <= Z.of_nat (length (drop (iq_next st) (iq_buf st))) /\ is_verdict (iq_rc st).

(** The end of a run that has judged [js] since [st]. *)
Definition ip_run_ends (st st' : ip_req) (js : list (Z * bytes)) : Prop :=
  (iq_rc st', take (iq_ucp st') (iq_buf st'))
    = fold_left answer_step js (iq_rc st, take (iq_ucp st) (iq_buf st)) /\
  is_verdict (iq_rc st') /\ (iq_ucp st' <= length (iq_buf st'))%nat /\ length (iq_buf st') = length (iq_buf st) /\
  Forall (fun j => is_verdict j.1) js /\
  iq_overlap st' = iq_overlap st || answer_overlaps (iq_rc st, take (iq_ucp st) (iq_buf st)) (iq_next st) js.

Lemma ip_run_ends_refl st : in_run st -> ip_run_ends st st [].
Proof. intros (? & _ & ?). split_and!; [done|done|lia|done|done|by rewrite orb_false_r]. Qed.

Lemma ip_run_ends_cons st st1 st' j js :
  (iq_rc st1, take (iq_ucp st1) (iq_buf st1)) = answer_step (iq_rc st, take (iq_ucp st) (iq_buf st)) j ->
  is_verdict j.1 -> length (iq_buf st1) = length (iq_buf st) ->
  iq_overlap st1 = iq_overlap st || step_overlaps (iq_rc st, take (iq_ucp st) (iq_buf st)) j (iq_next st) ->
  js = [] \/ iq_next st1 = (iq_next st + length j.2)%nat ->
  ip_run_ends st1 st' js -> ip_run_ends st st' (j :: js).
Proof.
  intros Hs Hj Hl Ho Hn (Hf & Hv & Hu & Hl' & Hjs & Ho').
  split_and!; [by rewrite Hf Hs|done|done|congruence|by constructor|].
  rewrite Ho' Ho -orb_assoc. cbn [answer_overlaps]. rewrite -Hs. by destruct Hn as [-> | ->].
Qed.

(** An option list that does not parse ends the run. *)
Lemma ip_loop_bad fuel st :
  in_run st ->
  exists st', ip_loop ao rid fuel
      (ip_endswitch rid (iq_l st) (iq_next st) CONFREJ
         (IpReq (iq_buf st) (iq_next st) (iq_ucp st) (iq_rc st) 0 (iq_wo st) (iq_go st) (iq_ho st)
            (iq_overlap st))) = Good st' /\
    ip_run_ends st st' [(CONFREJ, take (Z.to_nat (iq_l st)) (drop (iq_next st) (iq_buf st)))] /\
    iq_wo st' = iq_wo st /\ iq_go st' = iq_go st /\ iq_ho st' = iq_ho st.
Proof.
  intros (Hle & Hl & Hr). rewrite length_drop in Hl. set (st0 := IpReq _ _ _ _ 0 _ _ _ _).
  destruct (ip_endswitch_spec (iq_l st) (iq_next st) CONFREJ st0) as
    (Hs & Hv & Hu & Hlen & _ & _ & Hl0 & Hw & Hg & Hh); [by right; right|done|simpl; lia|simpl; lia|].
  pose proof (ip_endswitch_overlap (iq_l st) (iq_next st) CONFREJ st0) as Hov.
  lapply Hov; [clear Hov; intros Hov|by right; right]. specialize (Hov Hr ltac:(simpl; lia) ltac:(simpl; lia)).
  set (st1 := ip_endswitch _ _ _ _ st0) in *. clearbody st1. simpl in *.
  exists st1. split; [destruct fuel; simpl; by rewrite ?Hl0|]. split; [|done].
  eapply ip_run_ends_cons; [exact Hs|by right; right|done|exact Hov|by left|].
  split_and!; [done|done|lia|done|done|by rewrite orb_false_r].
Qed.

Lemma ip_loop_judges fuel st :
  in_run st -> iq_l st <= Z.of_nat fuel ->
  exists js wo go ho st',
    ip_judge fuel (drop (iq_next st) (iq_buf st)) (iq_l st) (iq_wo st) (iq_go st) (iq_ho st) = Good (js, wo, go, ho) /\
    ip_loop ao rid fuel st = Good st' /\ ip_run_ends st st' js /\
    iq_wo st' = wo /\ iq_go st' = go /\ iq_ho st' = ho.
Proof.
  revert st. induction fuel as [|fuel IH]; intros st Hst Hf; simpl; pose proof Hst as (Hle & Hl & Hr).
  { eexists _, _, _, _, _. split_and!; [done|done|by apply ip_run_ends_refl|done..]. }
  destruct (Z.eqb_spec (iq_l st) 0) as [E0|E0].
  { eexists _, _, _, _, _. split_and!; [done|done|by apply ip_run_ends_refl|done..]. }
  destruct (ip_loop_bad fuel st Hst) as (stb & Hb1 & Hb2 & Hb3).
  unfold ip_pass. destruct (Z.ltb_spec (iq_l st) 2) as [|Hl2].
  { eexists _, _, _, _, _. split_and!; [done|exact Hb1|exact Hb2|apply Hb3..]. }
  destruct (drop (iq_next st) (iq_buf st)) as [|citype [|cilen p]] eqn:Ed; [simpl in Hl; lia..|].
  destruct ((cilen <? 2) || (iq_l st <? cilen)) eqn:Ec.
  { eexists _, _, _, _, _. split_and!; [done|exact Hb1|exact Hb2|apply Hb3..]. }
  bool_props. clear Hb1 Hb2 Hb3 stb.
  set (pre := take (iq_next st) (iq_buf st)). set (n := Z.to_nat cilen).
  set (o := take n (citype :: cilen :: p)). set (post := drop n (citype :: cilen :: p)).
  assert (Hpre : length pre = iq_next st) by (subst pre; rewrite length_take; lia).
  assert (Ho : length o = n) by (subst o; rewrite length_take; lia).
  assert (Hbuf : iq_buf st = pre ++ o ++ post) by (subst pre o post; by rewrite take_drop -Ed take_drop).
  destruct (switch_local citype cilen (iq_wo st) (iq_go st) (iq_ho st) pre o post Ho)
    as (r & Hr1 & Hr2 & Hlr & Hvr & _).
  rewrite Hpre -Hbuf in Hr2. rewrite Hr1 Hr2. cbn [mbind parse_bind].
  set (st0 := IpReq (ic_buf (in_buffer pre post r)) _ _ _ _ _ _ _ _).
  assert (Hb0 : iq_buf st0 = pre ++ ic_buf r ++ post) by done.
  assert (Hlen0 : length (iq_buf st0) = length (iq_buf st)) by (rewrite Hb0 Hbuf !length_app Hlr Ho; lia).
  assert (Hlen1 : (iq_next st + n <= length (iq_buf st))%nat) by (rewrite Hbuf !length_app Hpre Ho; lia).
  destruct (ip_endswitch_spec cilen (iq_next st) (ic_orc r) st0) as
    (Hs & Hv & Hu & Hlen & Hdr & Hn & Hl0 & Hw & Hg & Hh); [done|done|simpl; lia|rewrite Hlen0; lia|].
  pose proof (ip_endswitch_overlap cilen (iq_next st) (ic_orc r) st0 Hvr Hr (proj1 Hle) ltac:(rewrite Hlen0; lia)) as Hov.
  fold n in Hs, Hu, Hdr, Hov. change (ic_orc (in_buffer pre post r)) with (ic_orc r).
  set (st1 := ip_endswitch _ _ _ _ st0) in *. clearbody st1.
  assert (Htk : take (iq_ucp st0) (iq_buf st0) = take (iq_ucp st) (iq_buf st)).
  { rewrite Hb0 Hbuf. change (iq_ucp st0) with (iq_ucp st). rewrite !take_app_le //; lia. }
  rewrite Htk Hb0 drop_app_length' // take_app_length' // in Hs Hov.
  assert (Hpost : drop (iq_next st + n) (iq_buf st1) = post).
  { rewrite Hdr Hb0 app_assoc drop_app_length' //. rewrite length_app. lia. }
  change (iq_next st0) with (iq_next st + n)%nat in Hn. change (iq_l st0) with (iq_l st - cilen) in Hl0.
  assert (Hpl : Z.of_nat (length post) = Z.of_nat (length (citype :: cilen :: p)) - cilen).
  { subst post n. rewrite length_drop. lia. }
  assert (Hst1 : in_run st1).
  { split_and!; [lia|lia| |rewrite Hn Hpost; lia|done]. lia. }
  destruct (IH st1 Hst1) as (js & wo & go & ho & st' & Hj & Hlp & Hends & Hx); [lia|].
  rewrite Hn Hpost Hl0 Hw Hg Hh in Hj. change (iq_wo st0) with (ic_wo r) in Hj.
  change (iq_go st0) with (ic_go r) in Hj. change (iq_ho st0) with (ic_ho r) in Hj.
  eexists _, _, _, _, st'. rewrite Hj. split; [reflexivity|]. split; [exact Hlp|]. split; [|exact Hx].
  eapply ip_run_ends_cons; [exact Hs|by apply is_verdict_ip_harden|congruence|exact Hov| |done].
  right. cbn [snd]. by rewrite Hn Hlr.
Qed.

(** ** The answer *)

Lemma is_verdict_ip js : is_verdict (ip_verdict js).
Proof. destruct js; simpl; [by left|apply is_verdict_worse]. Qed.

Lemma with_verdict_cons v j js :
  with_verdict v (j :: js) = (if decide (j.1 = v) then j.2 else []) ++ with_verdict v js.
Proof. unfold with_verdict. rewrite filter_cons. by case_decide. Qed.

Lemma fold_answer js rc out :
  is_verdict rc -> Forall (fun j => is_verdict j.1) js ->
  fold_left answer_step js (rc, out)
  = (worse rc (ip_verdict js),
     (if rc =? worse rc (ip_verdict js) then out else []) ++ with_verdict (worse rc (ip_verdict js)) js).
Proof.
  intros Hr Hjs. revert rc out Hr. induction Hjs as [|[c b] js Hc _ IH]; intros rc out Hr.
  { by destruct Hr as [->|[->| ->]]; rewrite /= app_nil_r. }
  cbn [fst] in Hc. rewrite with_verdict_cons. cbn [fold_left ip_verdict foldr fst snd].
  change (foldr (fun j : Z * bytes => worse j.1) CONFACK js) with (ip_verdict js).
  assert (Hv := is_verdict_ip js). unfold answer_step at 2. cbn [fst snd].
  destruct Hr as [->|[->| ->]], Hc as [->|[->| ->]]; cbn -[with_verdict decide]; rewrite IH;
    try (unfold is_verdict; auto; fail);
    destruct Hv as [->|[->| ->]]; cbn -[with_verdict decide]; case_decide; try done; by rewrite -?app_assoc.
Qed.

Lemma length_answer_step js rc out :
  (length (fold_left answer_step js (rc, out)).2 <= length out + length (concat (map snd js)))%nat.
Proof.
  revert rc out. induction js as [|[c b] js IH]; intros rc out; simpl; [lia|]. rewrite length_app.
  unfold answer_step at 2. cbn [fst snd]. set (o := (if _ =? _ then out else []) ++ b).
  assert (Ho : (length o <= length out + length b)%nat) by (subst o; rewrite length_app; case_match; simpl; lia).
  destruct (c =? _); [pose proof (IH (worse rc c) o)|pose proof (IH rc out)]; lia.
Qed.

(** Judged options are as long as the options. *)
Lemma judge_length fuel rest l wo go ho js wo' go' ho' :
  0 <= l <= Z.of_nat (length rest) -> ip_judge fuel rest l wo go ho = Good (js, wo', go', ho') ->
  Z.of_nat (length (concat (map snd js))) <= l.
Proof.
  revert rest l wo go ho js wo' go' ho'. induction fuel as [|fuel IH]; intros rest l wo go ho js wo' go' ho' Hl; simpl.
  { intros [= <- _ _ _]. simpl. lia. }
  destruct (Z.eqb_spec l 0); [intros [= <- _ _ _]; simpl; lia|].
  assert (Hbad : Z.of_nat (length (concat (map snd [(CONFREJ, take (Z.to_nat l) rest)]))) <= l).
  { simpl. rewrite app_nil_r length_take. lia. }
  destruct (Z.ltb_spec l 2); [intros [= <- _ _ _]; done|].
  destruct rest as [|citype [|cilen p]]; [done..|].
  destruct ((cilen <? 2) || (l <? cilen)) eqn:E; [intros [= <- _ _ _]; done|]. bool_props.
  set (o := take (Z.to_nat cilen) (citype :: cilen :: p)).
  assert (Ho : length o = Z.to_nat cilen) by (subst o; rewrite length_take; lia).
  destruct (switch_local citype cilen wo go ho [] o [] Ho) as (r & -> & _ & Hlr & _). cbn [mbind parse_bind].
  destruct (ip_judge fuel _ _ _ _ _) as [[[[js1 wo1] go1] ho1]| |] eqn:Ej; [|done..].
  intros [= <- _ _ _]. apply IH in Ej; [|rewrite length_drop; lia]. simpl. rewrite length_app. lia.
Qed.

Lemma judge_verdicts fuel rest l wo go ho js wo' go' ho' :
  ip_judge fuel rest l wo go ho = Good (js, wo', go', ho') -> 0 <= l <= Z.of_nat (length rest) ->
  Forall (fun j => is_verdict j.1) js.
Proof.
  revert rest l wo go ho js wo' go' ho'. induction fuel as [|fuel IH]; intros rest l wo go ho js wo' go' ho'; simpl.
  { by intros [= <- _ _ _]. }
  destruct (Z.eqb_spec l 0); [by intros [= <- _ _ _]|].
  assert (Hbad : Forall (fun j : Z * bytes => is_verdict j.1) [(CONFREJ, take (Z.to_nat l) rest)]).
  { by repeat constructor; right; right. }
  destruct (Z.ltb_spec l 2); [by intros [= <- _ _ _]|]. destruct rest as [|citype [|cilen p]]; [done..|].
  destruct ((cilen <? 2) || (l <? cilen)) eqn:E; [by intros [= <- _ _ _]|]. bool_props. intros Ej Hl.
  set (o := take (Z.to_nat cilen) (citype :: cilen :: p)) in Ej.
  assert (Ho : length o = Z.to_nat cilen) by (subst o; rewrite length_take; lia).
  destruct (switch_local citype cilen wo go ho [] o [] Ho) as (r & Er & _ & _ & Hv & _).
  rewrite Er in Ej. cbn [mbind parse_bind] in Ej.
  destruct (ip_judge fuel _ _ _ _ _) as [[[[js1 wo1] go1] ho1]| |] eqn:Ej1; [|done..].
  injection Ej as <- _ _ _. constructor; [by apply is_verdict_ip_harden|].
  eapply IH; [exact Ej1|]. rewrite length_drop. lia.
Qed.

Lemma verdict_ack js : Forall (fun j => is_verdict j.1) js -> ip_verdict js = CONFACK -> Forall (fun j => j.1 = CONFACK) js.
Proof.
  induction 1 as [|[c b] js Hc _ IH]; [by constructor|]. simpl in Hc. cbn [ip_verdict foldr fst].
  change (foldr _ CONFACK js) with (ip_verdict js). intros Hw.
  assert (Hv := is_verdict_ip js).
  destruct Hc as [->|[->| ->]], Hv as [Hv|[Hv|Hv]]; rewrite Hv in Hw; try done. constructor; [done|]. by apply IH.
Qed.

(** Nothing is copied onto itself as long as all options are acceptable. *)
Lemma acks_do_not_overlap js :
  Forall (fun j => is_verdict j.1) js -> ip_verdict js = CONFACK -> answer_overlaps (CONFACK, []) 0 js = false.
Proof.
  intros Hjs Hv. apply verdict_ack in Hv; [|done]. clear Hjs.
  assert (Hgen : forall out, answer_overlaps (CONFACK, out) (length out) js = false); [|apply (Hgen [])].
  induction Hv as [|[c b] js Hc _ IH]; intros out; [done|]. cbn [fst] in Hc. subst c.
  cbn [answer_overlaps]. unfold step_overlaps, onto_itself, answer_step. cbn [fst snd].
  change (worse CONFACK CONFACK) with CONFACK. rewrite Z.eqb_refl Nat.sub_diag /=.
  rewrite -length_app. apply IH.
Qed.

(** Our request of an address is added to the answer. *)
Definition adds_addr (js : list (Z * bytes)) (wo ho : ipcp_options) : bool :=
  negb (ip_verdict js =? CONFREJ) && negb (neg_addr ho) && req_addr wo && negb rid.

Definition ip_reply_bytes (js : list (Z * bytes)) (wo ho : ipcp_options) : bytes :=
  if adds_addr js wo ho
  then (if ip_verdict js =? CONFACK then [] else ip_answer js) ++ asked_addr wo
  else ip_answer js.

(** The answer to the peer's request, next to the reference's. *)
Lemma ipcp_reqci_judged wo go inp len :
  0 <= len <= Z.of_nat (length inp) ->
  exists js wo' go' ho' r,
    ip_judge (Z.to_nat len) inp len wo go no_ip_options = Good (js, wo', go', ho') /\
    ipcp_reqci ao rid wo go inp len = Good r /\
    ir_code r = (if adds_addr js wo' ho' then CONFNAK else ip_verdict js) /\
    ir_len r = Z.of_nat (length (ip_reply_bytes js wo' ho')) /\
    ir_wo r = (if adds_addr js wo' ho' && (ip_verdict js =? CONFACK) then set_req_addr false wo' else wo') /\
    ir_go r = go' /\ ir_ho r = ho' /\
    (ir_oob r = true <-> (length inp < length (ip_reply_bytes js wo' ho'))%nat) /\
    ir_overlap r = answer_overlaps (CONFACK, []) 0 js /\
    (ir_overlap r = false -> take (Z.to_nat (ir_len r)) (ir_buf r) = ip_reply_bytes js wo' ho').
Proof.
  intros Hl. set (st0 := IpReq inp 0 0 CONFACK len wo go no_ip_options false).
  assert (Hst0 : in_run st0) by (split_and!; simpl; rewrite ?drop_0; try lia; by left).
  destruct (ip_loop_judges (Z.to_nat len) st0 Hst0) as (js & wo' & go' & ho' & st & Hj & Hlp & Hends & <- & <- & <-);
    [simpl; lia|]. simpl in Hj. rewrite drop_0 in Hj.
  destruct Hends as (Hf & Hv & Hu & Hlen & Hjs & Hov). change (iq_rc st0) with CONFACK in Hf.
  change (take (iq_ucp st0) (iq_buf st0)) with (@nil Z) in Hf. change (iq_buf st0) with inp in Hlen.
  change (iq_overlap st = answer_overlaps (CONFACK, []) 0 js) in Hov.
  pose proof (length_answer_step js CONFACK []) as Hsz. rewrite -Hf in Hsz. simpl in Hsz.
  pose proof (judge_length _ _ _ _ _ _ _ _ _ _ Hl Hj) as Hsz'.
  rewrite fold_answer // in Hf; [by left|].
  assert (Hw : worse CONFACK (ip_verdict js) = ip_verdict js) by (by destruct (is_verdict_ip js) as [->|[->| ->]]).
  rewrite Hw in Hf. injection Hf as Hrc Htk.
  assert (Ha : take (iq_ucp st) (iq_buf st) = ip_answer js).
  { rewrite Htk. assert (Hnil : forall b : bool, (if b then @nil Z else []) = []) by by intros []. by rewrite Hnil. }
  assert (Hal : length (ip_answer js) = iq_ucp st) by (rewrite -Ha length_take; lia).
  exists js, (iq_wo st), (iq_go st), (iq_ho st), (ip_finish rid st).
  split; [done|]. split; [unfold ipcp_reqci; fold st0; by rewrite Hlp|].
  unfold ip_finish, ip_reply_bytes. rewrite Hrc. fold (adds_addr js (iq_wo st) (iq_ho st)).
  destruct (adds_addr js (iq_wo st) (iq_ho st)); cbn [andb].
  2:{ simpl. rewrite Nat2Z.id Ha Hal. split_and!; try done. split; [done|]. lia. }
  set (bs := asked_addr (iq_wo st)).
  assert (Hgen : forall ucp, (ucp <= length (iq_buf st))%nat ->
    let '(buf, oob) := match store (iq_buf st) ucp bs with
                       | Some buf => (buf, false) | None => (take ucp (iq_buf st) ++ bs, true) end in
    take (ucp + length bs) buf = take ucp (iq_buf st) ++ bs /\
    (oob = true <-> (length inp < ucp + length bs)%nat)).
  { intros ucp Hucp. unfold store. destruct (Nat.leb_spec (ucp + length bs) (length (iq_buf st))).
    - split; [|split; [done|lia]]. rewrite app_assoc take_app_length' //. rewrite length_app length_take. lia.
    - split; [|split; [lia|done]]. rewrite take_ge // length_app length_take. lia. }
  destruct (ip_verdict js =? CONFACK).
  - specialize (Hgen 0%nat ltac:(lia)). clearbody bs. rewrite take_0 /= in Hgen.
    destruct (store _ 0 bs); destruct Hgen as [Hg1 Hg2];
      cbn [ir_code ir_buf ir_len ir_wo ir_go ir_ho ir_oob ir_overlap app]; rewrite Nat2Z.id; by split_and!.
  - specialize (Hgen (iq_ucp st) Hu). clearbody bs. rewrite Ha in Hgen.
    destruct (store _ _ bs); destruct Hgen as [Hg1 Hg2];
      cbn [ir_code ir_buf ir_len ir_wo ir_go ir_ho ir_oob ir_overlap]; rewrite ?Ha Nat2Z.id length_app Hal; by split_and!.
Qed.

(** C32: the answer to the peer's IPCP request is the reference's.  The in-place
    walk returns the verdict and the length of the answer of a reference that
    judges the options one by one and never touches the packet: the worst
    verdict, the options that got it, and behind them our question for an address
    the peer did not name; it leaves our options and the peer's as the reference
    does, and overruns the packet's buffer exactly when the answer is longer than
    it.  The bytes are the reference's too, unless an option of the answer is
    copied onto a place that overlaps it, which [memcpy] leaves undefined; that
    happens exactly when such an option is longer than what is left out of the
    answer in front of it, and something is; never in an answer that accepts. *)
Theorem ipcp_reqci_reference wo go inp len :
  0 <= len <= Z.of_nat (length inp) ->
  exists js wo' go' ho' r,
    ip_judge (Z.to_nat len) inp len wo go no_ip_options = Good (js, wo', go', ho') /\
    ipcp_reqci ao rid wo go inp len = Good r /\
    ir_code r = (if adds_addr js wo' ho' then CONFNAK else ip_verdict js) /\
    ir_len r = Z.of_nat (length (ip_reply_bytes js wo' ho')) /\
    ir_wo r = (if adds_addr js wo' ho' && (ip_verdict js =? CONFACK) then set_req_addr false wo' else wo') /\
    ir_go r = go' /\ ir_ho r = ho' /\
    (ir_oob r = true <-> (length inp < length (ip_reply_bytes js wo' ho'))%nat) /\
    ir_overlap r = answer_overlaps (CONFACK, []) 0 js /\
    (ir_overlap r = false -> take (Z.to_nat (ir_len r)) (ir_buf r) = ip_reply_bytes js wo' ho') /\
    (ip_verdict js = CONFACK -> ir_overlap r = false).
Proof.
  intros Hl. destruct (ipcp_reqci_judged wo go inp len Hl)
    as (js & wo' & go' & ho' & r & Hj & Hr & Hc & Hln & Hw & Hg & Hh & Hoob & Hov & Hb).
  exists js, wo', go', ho', r. do 10 (split; [done|]). intros Hv. rewrite Hov.
  apply acks_do_not_overlap; [by eapply judge_verdicts|done].
Qed.
End Spec.
