(* ===== verification/IpcpAnswer.v ===== *)
(** * IPCP options: what the answers mean

    Consequences of the reference for the peer's request: what an Ack admits,
    when the appended address runs over the packet buffer, and the Reject of a
    name server that names another one. *)

From S2P Require Import Prelude Wire Inet Fsm LcpOptions LcpOptionsSpec LcpReqci LcpReqciSpec.
From S2P Require Import IpcpOptions IpcpOptionsSpec IpcpReqci IpcpReqciSpec.

Section Answer.
Context `{ByteOrder}.
Context (ao : ipcp_options) (rid : bool).

(** ** What an Ack admits *)

(** The peer's options [ho], against what we want and allow: an address is one,
    and is ours for him if we insist; compression is allowed, and as wide as we
    allow unless it is the old form. *)
Definition admitted (wo ho : ipcp_options) : Prop :=
  (neg_addr ho = true -> hisaddr ho <> 0 /\ (hisaddr ho = hisaddr wo \/ accept_remote wo = true)) /\
  (neg_vj ho = true -> neg_vj ao = true /\ (vj_protocol ho = IPCP_VJ_COMP \/ vj_protocol ho = IPCP_VJ_COMP_OLD) /\
     (old_vj ho = false -> maxslotindex ho <= maxslotindex ao /\ (cflag ho = true -> cflag ao = true))).

(** Our address is the one we had, or one of the peer's that we accept. *)
Definition own_address (wo go go' : ipcp_options) : Prop :=
  ouraddr go' = ouraddr go \/ (accept_local wo = true /\ ouraddr go' <> 0).

Lemma own_address_trans wo go1 go2 go3 : own_address wo go1 go2 -> own_address wo go2 go3 -> own_address wo go1 go3.
Proof. unfold own_address. intros [->|[? ?]] [->|[? ?]]; auto. Qed.

(** A case of the switch that acknowledges. *)
Definition good_case (f : nat -> bytes -> ipcp_options -> ipcp_options -> ipcp_options -> parse ip_ci) : Prop :=
  forall cip buf wo go ho r, f cip buf wo go ho = Good r -> ic_orc r = CONFACK ->
    ic_wo r = wo /\ own_address wo go (ic_go r) /\ (admitted wo ho -> admitted wo (ic_ho r)).

Lemma his_address_ack wo buf off a buf' :
  his_address rid wo buf off = Good (CONFACK, a, buf') ->
  a <> 0 /\ (a = hisaddr wo \/ accept_remote wo = true).
Proof.
  unfold his_address. destruct (GETLONG _) as [[tl p]|]; [|done]. cbn [get mbind parse_bind].
  destruct (negb (_ =? hisaddr wo) && _) eqn:E1; [destruct rid; [done|]; by destruct (put _ _ _)|].
  destruct ((_ =? 0) && _) eqn:E2; [done|]. intros [= <- _].
  destruct (Z.eqb_spec (htonl tl) (hisaddr wo)) as [Heq|Hne]; simpl in E1.
  - split; [|by left]. intros H0. by rewrite -Heq H0 in E2.
  - apply orb_false_iff in E1 as [E0 E1]. bool_props. split; [done|by right].
Qed.

Lemma our_address_ack orc wo go buf off a buf' go' :
  our_address rid orc wo go buf off = Good (CONFACK, a, buf', go') ->
  orc = CONFACK /\ own_address wo go go'.
Proof.
  unfold our_address, own_address. destruct (GETLONG _) as [[tl p]|]; [|done]. cbn [get mbind parse_bind].
  destruct (negb _); [|intros [= -> _ _ <-]; auto].
  destruct (_ || _) eqn:E; [destruct rid; [done|]; by destruct (put _ _ _)|].
  intros [= -> _ _ <-]. bool_props. split; [done|]. right. by split.
Qed.

Lemma ci_addrs_good cilen : good_case (ci_addrs ao rid cilen).
Proof.
  intros cip buf wo go ho r. unfold ci_addrs. destruct (_ || _); [by intros [= <-]|].
  destruct (his_address _ _ _ _) as [[[orc a] buf1]| |] eqn:E1; cbn [mbind parse_bind]; [|done..].
  destruct (Z.eqb_spec orc CONFREJ) as [->|Hne]; [by intros [= <-]|].
  destruct (our_address _ _ _ _ _ _) as [[[[orc' b] buf2] go']| |] eqn:E2; cbn [mbind parse_bind]; [|done..].
  intros [= <-] Ho. simpl in Ho. subst orc'. simpl.
  destruct (our_address_ack _ _ _ _ _ _ _ _ E2) as [-> Hown].
  destruct (his_address_ack _ _ _ _ _ E1) as [Ha1 Ha2].
  split; [done|]. split; [done|]. intros [_ Hv]. by split.
Qed.

Lemma ci_addr_good cilen : good_case (ci_addr ao rid cilen).
Proof.
  intros cip buf wo go ho r. unfold ci_addr. destruct (_ || _); [by intros [= <-]|].
  destruct (his_address _ _ _ _) as [[[orc a] buf1]| |] eqn:E1; cbn [mbind parse_bind]; [|done..].
  destruct (Z.eqb_spec orc CONFREJ) as [->|Hne]; [by intros [= <-]|].
  intros [= <-] Ho. simpl in Ho. subst orc. simpl.
  destruct (his_address_ack _ _ _ _ _ E1) as [Ha1 Ha2].
  split; [done|]. split; [by left|]. intros [_ Hv]. by split.
Qed.

Lemma ci_server_good a cilen : good_case (ci_server a cilen).
Proof.
  intros cip buf wo go ho r. unfold ci_server. destruct (_ || _); [by intros [= <-]|].
  destruct (GETLONG _) as [[tl p]|]; [|done]. cbn [get mbind parse_bind].
  destruct (negb _); [destruct (put _ _ _); [by intros [= <-]|done..]|].
  intros [= <-] _. simpl. split; [done|]. split; [by left|done].
Qed.

Lemma vj_slots_ack cip buf wo buf' slot cf :
  vj_slots ao rid cip buf wo = Good (CONFACK, buf', slot, cf) ->
  slot <= maxslotindex ao /\ (negb (cf =? 0) = true -> cflag ao = true).
Proof.
  unfold vj_slots. destruct (GETCHAR _) as [[s p]|]; [|done]. cbn [get mbind parse_bind].
  destruct (Z.ltb_spec (maxslotindex ao) s) as [Hlt|Hle].
  - set (b := if rid then _ else _). destruct b as [buf1| |]; cbn [mbind parse_bind]; [|done..].
    destruct (GETCHAR _) as [[f q]|]; [|done]. cbn [get mbind parse_bind]. destruct (_ && _); [|done].
    set (b' := if rid then _ else _). by destruct b'.
  - cbn [mbind parse_bind]. destruct (GETCHAR _) as [[f q]|]; [|done]. cbn [get mbind parse_bind].
    destruct (_ && _) eqn:E.
    + set (b' := if rid then _ else _). by destruct b'.
    + intros [= _ <- <-]. split; [done|]. intros Hf. rewrite Hf in E. simpl in E. by bool_props.
Qed.

Lemma ci_compress_good cilen : good_case (ci_compress ao rid cilen).
Proof.
  intros cip buf wo go ho r. unfold ci_compress. destruct (negb (neg_vj ao) || _) eqn:Ev; [by intros [= <-]|].
  bool_props. destruct (GETSHORT _) as [[s p]|]; [|done]. cbn [get mbind parse_bind].
  destruct (negb (_ || _)) eqn:Es; [by intros [= <-]|]. apply negb_false_iff, orb_true_iff in Es.
  assert (Hs : s = IPCP_VJ_COMP \/ s = IPCP_VJ_COMP_OLD) by (destruct Es; bool_props; auto).
  destruct (cilen =? CILEN_VJ).
  - destruct (vj_slots _ _ _ _ _) as [[[[orc buf'] slot] cf]| |] eqn:E; cbn [mbind parse_bind]; [|done..].
    intros [= <-] Ho. simpl in Ho. subst orc. destruct (vj_slots_ack _ _ _ _ _ _ E) as [Hsl Hcf].
    simpl. split; [done|]. split; [by left|]. intros [Ha _]. split; [done|]. by intros _.
  - intros [= <-] _. simpl. split; [done|]. split; [by left|]. intros [Ha _]. split; [done|]. by intros _.
Qed.

Lemma ip_switch_good citype cilen : good_case (ip_switch ao rid citype cilen).
Proof.
  intros cip buf wo go ho r. unfold ip_switch.
  destruct (citype =? CI_ADDRS); [apply ci_addrs_good|]. destruct (citype =? CI_ADDR); [apply ci_addr_good|].
  destruct (citype =? CI_MS_DNS1); [apply ci_server_good|]. destruct (citype =? CI_MS_DNS2); [apply ci_server_good|].
  destruct (citype =? CI_MS_WINS1); [apply ci_server_good|]. destruct (citype =? CI_MS_WINS2); [apply ci_server_good|].
  destruct (citype =? CI_COMPRESSTYPE); [apply ci_compress_good|]. by intros [= <-].
Qed.

Lemma harden_ack orc : ip_harden rid orc = CONFACK -> orc = CONFACK.
Proof. unfold ip_harden. by destruct (_ && _). Qed.

(** A request of which every option is acknowledged. *)
Lemma judge_acks fuel rest l wo go ho js wo' go' ho' :
  0 <= l <= Z.of_nat (length rest) -> l <= Z.of_nat fuel ->
  ip_judge ao rid fuel rest l wo go ho = Good (js, wo', go', ho') -> Forall (fun j => j.1 = CONFACK) js ->
  concat (map snd js) = take (Z.to_nat l) rest /\ wo' = wo /\ own_address wo go go' /\
  (admitted wo ho -> admitted wo ho').
Proof.
  revert rest l wo go ho js wo' go' ho'. induction fuel as [|fuel IH]; intros rest l wo go ho js wo' go' ho' Hl Hf; simpl.
  { intros [= <- <- <- <-] _. assert (l = 0) as -> by lia. simpl. split; [done|]. split; [done|]. split; [by left|done]. }
  destruct (Z.eqb_spec l 0) as [->|].
  { intros [= <- <- <- <-] _. simpl. split; [done|]. split; [done|]. split; [by left|done]. }
  destruct (Z.ltb_spec l 2); [intros [= <- _ _ _]; by inversion 1|].
  destruct rest as [|citype [|cilen p]]; [done..|].
  destruct ((cilen <? 2) || (l <? cilen)) eqn:E; [intros [= <- _ _ _]; by inversion 1|]. bool_props.
  set (o := take (Z.to_nat cilen) (citype :: cilen :: p)).
  assert (Ho : length o = Z.to_nat cilen) by (subst o; rewrite length_take; lia).
  destruct (switch_local ao rid citype cilen wo go ho [] o [] Ho) as (r & Er & _ & Hlr & _ & Hsame).
  rewrite Er. cbn [mbind parse_bind].
  destruct (ip_judge _ _ _ _ _ _ _ _) as [[[[js1 wo1] go1] ho1]| |] eqn:Ej; [|done..].
  intros [= <- <- <- <-] Hall. apply Forall_cons_1 in Hall as [Hc Hall]. simpl in Hc. apply harden_ack in Hc.
  destruct (ip_switch_good citype cilen 0%nat o wo go ho r Er Hc) as (Hw & Hg & Hh). rewrite Hw in Ej.
  apply IH in Ej as (Hcat & -> & Hg' & Hh'); [|rewrite length_drop; lia|lia|done].
  split; [|split; [done|]; split; [by eapply own_address_trans|auto]].
  simpl. rewrite Hcat (Hsame Hc). subst o. rewrite take_take_drop. f_equal. lia.
Qed.

Lemma answer_acks js : Forall (fun j => j.1 = CONFACK) js -> ip_verdict js = CONFACK -> ip_answer js = concat (map snd js).
Proof.
  intros Hall Hv. unfold ip_answer, with_verdict. rewrite Hv filter_all //.
Qed.

(** What an Ack of the peer's IPCP request admits.  It repeats the request;
    the address recorded for the peer is not zero, and is ours for him unless we
    accept his; compression is allowed and, but for the old form, no wider than
    we allow; our own address has changed at most to one we accept; and the peer
    has named an address unless we do not ask for one or have lost patience. *)
Theorem ipcp_reqci_acks wo go inp len r :
  0 <= len <= Z.of_nat (length inp) -> ipcp_reqci ao rid wo go inp len = Good r -> ir_code r = CONFACK ->
  ir_len r = len /\ take (Z.to_nat len) (ir_buf r) = take (Z.to_nat len) inp /\ ir_oob r = false /\
  admitted wo (ir_ho r) /\ own_address wo go (ir_go r) /\
  (neg_addr (ir_ho r) = true \/ req_addr wo = false \/ rid = true).
Proof.
  intros Hl Hr Hc.
  destruct (ipcp_reqci_judged ao rid wo go inp len Hl) as
    (js & wo' & go' & ho' & r' & Hj & Hr' & Hcode & Hlen & Hwo & <- & <- & Hoob & Hov & Hbytes).
  rewrite Hr in Hr'. injection Hr' as <-. rewrite Hc in Hcode.
  assert (Hnov : ir_overlap r = false).
  { rewrite Hov. apply acks_do_not_overlap; [by eapply judge_verdicts|].
    by destruct (adds_addr rid js wo' (ir_ho r)). }
  specialize (Hbytes Hnov).
  unfold ip_reply_bytes in *. destruct (adds_addr rid js wo' (ir_ho r)) eqn:Ea; [done|].
  assert (Hall : Forall (fun j => j.1 = CONFACK) js).
  { apply verdict_ack; [|done]. by eapply judge_verdicts. }
  assert (Hf : len <= Z.of_nat (Z.to_nat len)) by lia.
  destruct (judge_acks _ _ _ _ _ _ _ _ _ _ Hl Hf Hj Hall) as (Hcat & -> & Hg & Hh).
  rewrite answer_acks // Hcat in Hbytes, Hlen, Hoob. rewrite length_take in Hlen Hoob.
  assert (Hlen' : ir_len r = len) by lia.
  rewrite Hlen' in Hbytes. split; [done|]. split; [done|]. split; [destruct (ir_oob r); [exfalso; destruct Hoob as [Hoob _]; specialize (Hoob eq_refl); lia|done]|].
  split; [by apply Hh|]. split; [done|].
  unfold adds_addr in Ea. rewrite -Hcode in Ea. simpl in Ea.
  destruct (neg_addr (ir_ho r)); [by left|right]. destruct (req_addr wo); [right|by left]. by destruct rid.
Qed.
End Answer.

Section Overrun.
Context `{ByteOrder}.

(** A request of 249 options for compression, with more slots than there can
    be, in what is left of the packet buffer behind the headers. *)
Definition vj_flood : bytes := concat (replicate 249 [CI_COMPRESSTYPE; CILEN_VJ; 0; 45; 16; 1]).
Definition packet_room : Z := PPP_MRU + PPP_HDRLEN - (PPP_HDRLEN + HEADERLEN).

(** What [ipcp_init] wants, at the start of a negotiation. *)
Definition default_wishes : ipcp_options := (ipcp_reset false false ipcp_want_init ipcp_allow_init).1.

(** C33: the bounds of the answer.  For every request it overruns the buffer
    exactly when it is longer than what there is, and it is at most one address
    option longer than the request.  That is enough: with the options of
    [ipcp_init] a request of 249 compression options, which fits the input
    buffer, gets an answer four bytes longer than the buffer. *)
Theorem ipcp_reqci_overrun :
  (forall ao rid wo go inp len r,
     0 <= len <= Z.of_nat (length inp) -> ipcp_reqci ao rid wo go inp len = Good r ->
     (ir_oob r = true <-> Z.of_nat (length inp) < ir_len r) /\ ir_len r <= len + CILEN_ADDR) /\
  (Z.of_nat (length (vj_flood ++ [0; 0])) = packet_room /\
   exists r, ipcp_reqci ipcp_allow_init false default_wishes default_wishes (vj_flood ++ [0; 0])
               (Z.of_nat (length vj_flood)) = Good r /\
     ir_oob r = true /\ ir_len r = packet_room + 4).
Proof.
  split.
  - intros ao rid wo go inp len r Hl Hr.
    destruct (ipcp_reqci_judged ao rid wo go inp len Hl) as
      (js & wo' & go' & ho' & r' & Hj & Hr' & _ & Hlen & _ & _ & _ & Hoob & _).
    rewrite Hr in Hr'. injection Hr' as <-. split; [rewrite Hoob Hlen; lia|].
    rewrite Hlen. pose proof (judge_length _ _ _ _ _ _ _ _ _ _ _ _ Hl Hj) as Hsz.
    assert (Ha : (length (ip_answer js) <= length (concat (map snd js)))%nat).
    { unfold ip_answer, with_verdict. clear. generalize (ip_verdict js). intros v.
      induction js as [|j js IH]; [done|]. rewrite filter_cons. case_decide; simpl; rewrite !length_app; lia. }
    unfold ip_reply_bytes. destruct (adds_addr _ _ _ _); [|unfold CILEN_ADDR; lia]. rewrite length_app.
    change (length (asked_addr wo')) with 6%nat. unfold CILEN_ADDR. destruct (_ =? _); simpl; lia.
  - split; [vm_compute; reflexivity|]. eexists. vm_compute. split_and!; reflexivity.
Qed.

(** ** A Reject that does not name what was asked *)

Lemma dns_bytes_inj opt a x :
  addr_ok a -> addr_ok x -> dns_bytes opt a = dns_bytes opt x -> a = x.
Proof.
  intros Ha Hx Heq. unfold dns_bytes in Heq. apply app_inv_head, app_inv_head in Heq.
  pose proof (GETLONG_PUTLONG (ntohl a) []) as H1. pose proof (GETLONG_PUTLONG (ntohl x) []) as H2.
  rewrite Heq H2 in H1. injection H1 as H1.
  rewrite !u32_small in H1; [by apply htonl_range..|]. apply (f_equal htonl) in H1.
  unfold ntohl in H1. by rewrite !htonl_involutive in H1.
Qed.

(** A Reject that does not name what was asked: with [reject_if_disagree] a name
    server that is not ours to give is overwritten with ours before it is
    rejected, and a peer with the same code discards that Reject. *)
Theorem ipcp_reject_alters ao wo go a x rest :
  dnsaddr0 ao = a -> a <> 0 -> addr_ok a -> addr_ok x -> x <> a ->
  (exists r, ipcp_reqci ao true wo go (dns_bytes CI_MS_DNS1 x ++ rest) CILEN_ADDR = Good r /\
     ir_code r = CONFREJ /\ take (Z.to_nat (ir_len r)) (ir_buf r) = dns_bytes CI_MS_DNS1 a) /\
  (forall peer tail try, ip_options_ok peer -> dnsaddr0 peer = x ->
     Forall byte_ok tail -> (2 <= length tail)%nat ->
     ipcp_rejci peer (dns_bytes CI_MS_DNS1 a ++ tail) CILEN_ADDR <> Good try).
Proof.
  intros Ha Hn Hao Hxo Hne. split.
  - set (inp := dns_bytes CI_MS_DNS1 x ++ rest).
    assert (Hl : 0 <= CILEN_ADDR <= Z.of_nat (length inp)) by (unfold inp, CILEN_ADDR; rewrite length_app; simpl; lia).
    destruct (ipcp_reqci_judged ao true wo go inp CILEN_ADDR Hl) as
      (js & wo' & go' & ho' & r & Hj & Hr & Hcode & _ & _ & _ & _ & _ & Hov & Hbytes).
    exists r. split; [done|].
    assert (Ej : js = [(CONFREJ, dns_bytes CI_MS_DNS1 a)]).
    { assert (Hg : GETLONG (PUTLONG (ntohl x) ++ []) = Some (ntohl x, [])).
      { rewrite GETLONG_PUTLONG u32_small //. by apply htonl_range. }
      assert (Hx : (htonl (ntohl x) =? dnsaddr0 ao) = false).
      { unfold ntohl. rewrite htonl_involutive // Ha. by apply Z.eqb_neq. }
      assert (Hcase : ci_server (dnsaddr0 ao) CILEN_ADDR 0 (dns_bytes CI_MS_DNS1 x) wo go no_ip_options
                = Good (IpCi CONFNAK (dns_bytes CI_MS_DNS1 a) wo go no_ip_options)).
      { unfold ci_server. rewrite (proj2 (Z.eqb_neq (dnsaddr0 ao) 0)); [by rewrite Ha|]. simpl orb. cbn match.
        change (drop (0 + 2) (dns_bytes CI_MS_DNS1 x)) with (PUTLONG (ntohl x) ++ []). rewrite Hg.
        cbn [get mbind parse_bind]. rewrite Hx Ha. done. }
      unfold inp, CILEN_ADDR in Hj. change (Z.to_nat 6) with 6%nat in Hj. cbn [ip_judge] in Hj.
      change (6 =? 0) with false in Hj. change (6 <? 2) with false in Hj. cbn match in Hj.
      change (dns_bytes CI_MS_DNS1 x ++ rest) with (129 :: 6 :: PUTLONG (ntohl x) ++ rest) in Hj.
      change ((6 <? 2) || (6 <? 6)) with false in Hj. cbn match in Hj.
      change (take (Z.to_nat 6) (129 :: 6 :: PUTLONG (ntohl x) ++ rest)) with (dns_bytes CI_MS_DNS1 x) in Hj.
      change (ip_switch ao true 129 6 0 (dns_bytes CI_MS_DNS1 x) wo go no_ip_options)
        with (ci_server (dnsaddr0 ao) CILEN_ADDR 0 (dns_bytes CI_MS_DNS1 x) wo go no_ip_options) in Hj.
      rewrite Hcase in Hj. cbn in Hj. by injection Hj as <- _ _ _. }
    rewrite Ej in Hcode, Hov, Hbytes. specialize (Hbytes Hov). split; [exact Hcode|]. rewrite Hbytes. reflexivity.
  - intros peer tail try Hp Hx Ht Hlt Hgood.
    destruct (ipcp_rejci_exact peer Hp (dns_bytes CI_MS_DNS1 a ++ tail) CILEN_ADDR try) as [_ Hiff].
    { apply Forall_app. split; [|done]. unfold dns_bytes. rewrite !Forall_app. split_and!; auto with bytes. }
    { done. }
    { unfold CILEN_ADDR. rewrite length_app. simpl. lia. }
    apply Hiff in Hgood as (b1 & v & d1 & d2 & _ & Hsel & _).
    change (take (Z.to_nat CILEN_ADDR) (dns_bytes CI_MS_DNS1 a ++ tail)) with (dns_bytes CI_MS_DNS1 a) in Hsel.
    unfold selection in Hsel. destruct b1; [unfold addr_type in Hsel; by destruct (old_addrs peer)|].
    destruct v; [done|]. destruct d1; simpl pick in Hsel.
    + rewrite Hx in Hsel. apply Hne. symmetry. apply (dns_bytes_inj CI_MS_DNS1); [done..|].
      rewrite Hsel. destruct d2; [|by rewrite /= ?app_nil_r]. by apply (f_equal length) in Hsel.
    + by destruct d2.
Qed.
End Overrun.
