(* ===== verification/IpcpWitness.v ===== *)
(** * IPCP options: concrete inputs

    The theorems on the options of IPCP at a request, a Nak and a Reject of a
    machine with the address 10.0.0.1. *)

From S2P Require Import Prelude Wire Inet Fsm LcpOptions LcpOptionsSpec LcpReqci.
From S2P Require Import IpcpOptions IpcpOptionsSpec IpcpNakSpec IpcpReqci IpcpReqciSpec IpcpAnswer.

#[local] Instance big : ByteOrder := {| big_endian := true |}.

(** The options of [ipcp_init], with our address; we accept the peer's idea of
    both addresses. *)
Definition some_wishes : ipcp_options :=
  IpcpOptions true false true false false true false true true false false IPCP_VJ_COMP (MAX_STATES - 1) true
    167772161 0 0 0 0 0.

Lemma some_wishes_ok : ip_options_ok some_wishes.
Proof. split; unfold addr_ok, byte_ok; simpl; unfold IPCP_VJ_COMP, MAX_STATES; lia. Qed.

Definition some_request : bytes := [3; 6; 10; 0; 0; 1; 2; 6; 0; 45; 15; 1].

Lemma bytes_ok_of bs : forallb (fun b => (0 <=? b) && (b <? 256)) bs = true -> Forall byte_ok bs.
Proof.
  intros Hb. apply List.Forall_forall. intros b Hin. unfold byte_ok. eapply forallb_forall in Hb; [|exact Hin]. lia.
Qed.

Lemma ipcp_ackci_exact_witness :
  ipcp_ackci some_wishes some_request 12 = Good tt /\ ipcp_ackci some_wishes (some_request ++ [2; 2]) 14 = Bad.
Proof.
  pose proof (ipcp_ackci_exact some_wishes some_request 12 some_wishes_ok ltac:(by apply bytes_ok_of)
    ltac:(vm_compute; split; discriminate)) as H1.
  pose proof (ipcp_ackci_exact some_wishes (some_request ++ [2; 2]) 14 some_wishes_ok ltac:(by apply bytes_ok_of)
    ltac:(vm_compute; split; discriminate)) as H2.
  vm_compute in H1, H2. destruct H1 as (_ & _ & H1), H2 as (_ & _ & H2). vm_compute. by split.
Defined.

(** The peer does not do compression. *)
Lemma ipcp_rejci_exact_witness :
  ipcp_rejci some_wishes [2; 6; 0; 45; 15; 1; 0; 0] 6 = Good (set_neg_vj false some_wishes).
Proof.
  apply (ipcp_rejci_exact some_wishes some_wishes_ok [2; 6; 0; 45; 15; 1; 0; 0] 6 (set_neg_vj false some_wishes)
    ltac:(by apply bytes_ok_of) ltac:(lia) ltac:(vm_compute; discriminate)).
  exists false, true, false, false. vm_compute. split_and!; first [reflexivity|discriminate].
Defined.

(** The peer has another address for us. *)
Lemma ipcp_nakci_respects_witness :
  exists try, ipcp_nakci some_wishes 6 [3; 6; 10; 0; 0; 9; 0; 0] 6 = Some (Good try) /\
    ouraddr try = 167772169 /\ respects some_wishes try.
Proof.
  destruct (ipcp_nakci_respects some_wishes 6 [3; 6; 10; 0; 0; 9; 0; 0] 6 some_wishes_ok ltac:(by apply bytes_ok_of)
    ltac:(lia) ltac:(vm_compute; discriminate)) as [_ Hr].
  eexists. split; [vm_compute; reflexivity|]. split; [reflexivity|]. apply Hr. vm_compute. reflexivity.
Defined.

(** The peer asks for 10.0.0.2 and for compression. *)
Definition his_wishes : bytes := [3; 6; 10; 0; 0; 2; 2; 6; 0; 45; 15; 1].

(** An option we do not know, behind the address. *)
Definition his_unknown (bs : bytes) : bytes := [3; 6; 10; 0; 0; 2; 99; 2 + Z.of_nat (length bs)] ++ bs.

Lemma ipcp_reqci_reference_witness :
  (exists r, ipcp_reqci ipcp_allow_init false some_wishes some_wishes his_wishes 12 = Good r /\
     ir_code r = CONFACK /\ take (Z.to_nat (ir_len r)) (ir_buf r) = his_wishes) /\
  (exists r, ipcp_reqci ipcp_allow_init false some_wishes some_wishes (his_unknown [1; 2]) 10 = Good r /\
     ir_code r = CONFREJ /\ take (Z.to_nat (ir_len r)) (ir_buf r) = [99; 4; 1; 2]) /\
  (exists r, ipcp_reqci ipcp_allow_init false some_wishes some_wishes (his_unknown [1; 2; 3; 4; 5; 6]) 14 = Good r /\
     ir_code r = CONFREJ /\ ir_len r = 8 /\ ir_overlap r = true).
Proof.
  split; [|split].
  - destruct (ipcp_reqci_reference ipcp_allow_init false some_wishes some_wishes his_wishes 12
      ltac:(vm_compute; split; discriminate)) as (js & wo & go & ho & r & Hj & Hr & Hc & _ & _ & _ & _ & _ & _ & Hb & Hov).
    vm_compute in Hj. injection Hj as <- <- <- <-. exists r. split; [exact Hr|]. rewrite Hc.
    rewrite Hb; [apply Hov; reflexivity|]. split; vm_compute; reflexivity.
  - destruct (ipcp_reqci_reference ipcp_allow_init false some_wishes some_wishes (his_unknown [1; 2]) 10
      ltac:(vm_compute; split; discriminate)) as (js & wo & go & ho & r & Hj & Hr & Hc & _ & _ & _ & _ & _ & Hov & Hb & _).
    vm_compute in Hj. injection Hj as <- <- <- <-. exists r. split; [exact Hr|]. rewrite Hc.
    rewrite Hb; [rewrite Hov; vm_compute; reflexivity|]. split; vm_compute; reflexivity.
  - destruct (ipcp_reqci_reference ipcp_allow_init false some_wishes some_wishes (his_unknown [1; 2; 3; 4; 5; 6]) 14
      ltac:(vm_compute; split; discriminate)) as (js & wo & go & ho & r & Hj & Hr & Hc & Hl & _ & _ & _ & _ & Hov & _ & _).
    vm_compute in Hj. injection Hj as <- <- <- <-. exists r. split; [exact Hr|]. rewrite Hc Hl Hov.
    split_and!; vm_compute; reflexivity.
Defined.

Lemma ipcp_reqci_acks_witness :
  exists r, ipcp_reqci ipcp_allow_init false some_wishes some_wishes his_wishes 12 = Good r /\
    hisaddr (ir_ho r) = 167772162 /\ admitted ipcp_allow_init some_wishes (ir_ho r).
Proof.
  destruct (ipcp_reqci ipcp_allow_init false some_wishes some_wishes his_wishes 12) as [r| |] eqn:Er;
    [|vm_compute in Er; discriminate Er..].
  exists r. split; [reflexivity|]. assert (Hc : ir_code r = CONFACK /\ hisaddr (ir_ho r) = 167772162).
  { vm_compute in Er. injection Er as <-. split; reflexivity. }
  destruct Hc as [Hc Hh].
  destruct (ipcp_reqci_acks ipcp_allow_init false some_wishes some_wishes his_wishes 12 r
    ltac:(vm_compute; split; discriminate) Er Hc) as (_ & _ & _ & Ha & _).
  exact (conj Hh Ha).
Defined.

Lemma ipcp_nakci_ends_witness : exists r, ipcp_nakci some_wishes 6 [3; 6; 10; 0; 0; 9] 6 = Some r.
Proof.
  destruct (ipcp_nakci_ends some_wishes) as (Hends & _ & _).
  destruct (Hends [3; 6; 10; 0; 0; 9] 6) as [r Hr]; [|exists r; apply Hr; lia].
  apply lo_option; [lia|]. by apply lo_end.
Defined.
