(* ===== verification/Ipcp.v ===== *)
(** * The IP Control Protocol: definitions

    [ipcp.c] around its option code: initialisation, the callbacks it hands to
    the automaton, the configuration of the interface when the protocol comes up
    and its removal when it goes down, and the entry points.  The automaton is
    the one LCP uses, on a state of its own.  What IPCP reports to [auth.c] is
    the interfaces [NetEvents] and [NetFinish]. *)

From S2P Require Import Prelude Wire Inet Netif Callout Fsm LcpOptions IpcpOptions IpcpReqci.


(** The variables of [ipcp.c]; the interface; the packets [demand.c] saved up;
    the name servers last written to the resolver's file, [None] for a file
    that was not written; and whether a loop of the parser did not end. *)
Record ipcp := Ipcp {
  ip_fsm : fsm;
  ip_want : ipcp_options;
  ip_got : ipcp_options;
  ip_allow : ipcp_options;
  ip_his : ipcp_options;
  ipcp_is_up : bool;
  default_route_set : bool;
  proxy_arp_set : bool;
  disable_defaultip : bool;
  ip_netif : netif;
  pend_q : list bytes;
  resolv_conf : option (Z * Z);
  ip_hung : bool
}.

Definition set_ip_fsm v (o : ipcp) : ipcp :=
  Ipcp v (ip_want o) (ip_got o) (ip_allow o) (ip_his o) (ipcp_is_up o) (default_route_set o)
    (proxy_arp_set o) (disable_defaultip o) (ip_netif o) (pend_q o) (resolv_conf o) (ip_hung o).
Definition set_ip_want v (o : ipcp) : ipcp :=
  Ipcp (ip_fsm o) v (ip_got o) (ip_allow o) (ip_his o) (ipcp_is_up o) (default_route_set o)
    (proxy_arp_set o) (disable_defaultip o) (ip_netif o) (pend_q o) (resolv_conf o) (ip_hung o).
Definition set_ip_got v (o : ipcp) : ipcp :=
  Ipcp (ip_fsm o) (ip_want o) v (ip_allow o) (ip_his o) (ipcp_is_up o) (default_route_set o)
    (proxy_arp_set o) (disable_defaultip o) (ip_netif o) (pend_q o) (resolv_conf o) (ip_hung o).
Definition set_ip_allow v (o : ipcp) : ipcp :=
  Ipcp (ip_fsm o) (ip_want o) (ip_got o) v (ip_his o) (ipcp_is_up o) (default_route_set o)
    (proxy_arp_set o) (disable_defaultip o) (ip_netif o) (pend_q o) (resolv_conf o) (ip_hung o).
Definition set_ip_his v (o : ipcp) : ipcp :=
  Ipcp (ip_fsm o) (ip_want o) (ip_got o) (ip_allow o) v (ipcp_is_up o) (default_route_set o)
    (proxy_arp_set o) (disable_defaultip o) (ip_netif o) (pend_q o) (resolv_conf o) (ip_hung o).
Definition set_ipcp_is_up v (o : ipcp) : ipcp :=
  Ipcp (ip_fsm o) (ip_want o) (ip_got o) (ip_allow o) (ip_his o) v (default_route_set o)
    (proxy_arp_set o) (disable_defaultip o) (ip_netif o) (pend_q o) (resolv_conf o) (ip_hung o).
Definition set_default_route_set v (o : ipcp) : ipcp :=
  Ipcp (ip_fsm o) (ip_want o) (ip_got o) (ip_allow o) (ip_his o) (ipcp_is_up o) v
    (proxy_arp_set o) (disable_defaultip o) (ip_netif o) (pend_q o) (resolv_conf o) (ip_hung o).
Definition set_proxy_arp_set v (o : ipcp) : ipcp :=
  Ipcp (ip_fsm o) (ip_want o) (ip_got o) (ip_allow o) (ip_his o) (ipcp_is_up o)
    (default_route_set o) v (disable_defaultip o) (ip_netif o) (pend_q o) (resolv_conf o)
    (ip_hung o).
Definition set_disable_defaultip v (o : ipcp) : ipcp :=
  Ipcp (ip_fsm o) (ip_want o) (ip_got o) (ip_allow o) (ip_his o) (ipcp_is_up o)
    (default_route_set o) (proxy_arp_set o) v (ip_netif o) (pend_q o) (resolv_conf o)
    (ip_hung o).
Definition set_ip_netif v (o : ipcp) : ipcp :=
  Ipcp (ip_fsm o) (ip_want o) (ip_got o) (ip_allow o) (ip_his o) (ipcp_is_up o)
    (default_route_set o) (proxy_arp_set o) (disable_defaultip o) v (pend_q o) (resolv_conf o)
    (ip_hung o).
Definition set_pend_q v (o : ipcp) : ipcp :=
  Ipcp (ip_fsm o) (ip_want o) (ip_got o) (ip_allow o) (ip_his o) (ipcp_is_up o)
    (default_route_set o) (proxy_arp_set o) (disable_defaultip o) (ip_netif o) v
    (resolv_conf o) (ip_hung o).
Definition set_resolv_conf v (o : ipcp) : ipcp :=
  Ipcp (ip_fsm o) (ip_want o) (ip_got o) (ip_allow o) (ip_his o) (ipcp_is_up o)
    (default_route_set o) (proxy_arp_set o) (disable_defaultip o) (ip_netif o) (pend_q o) v
    (ip_hung o).
Definition set_ip_hung v (o : ipcp) : ipcp :=
  Ipcp (ip_fsm o) (ip_want o) (ip_got o) (ip_allow o) (ip_his o) (ipcp_is_up o)
    (default_route_set o) (proxy_arp_set o) (disable_defaultip o) (ip_netif o) (pend_q o)
    (resolv_conf o) v.

(** The settings of the configuration and the system the daemon runs on. *)
Record ip_config := IpConfig {
  usepeerdns : bool;
  demand : bool;
  pppifunit : Z;
  ip_netmask : Z;
  interfaces : option (list sys_interface);
  syscall : nat -> option Z;
  fopen_ok : bool
}.

Class IpcpWorld (W : Type) {HF : FsmWorld W} := {
  w_ipcp : W -> ipcp;
  put_ipcp : ipcp -> W -> W;
  (** the address of IPCP's automaton, the argument of its timer *)
  ipcp_addr : Z
}.

(** What IPCP reports to [auth.c]. *)
Class NetEvents (W : Type) := {
  ev_np_up : W -> W;
  ev_np_down : W -> W
}.

Class NetFinish (W : Type) := {
  ev_np_finished : W -> W
}.

(** ** Initialisation *)

Definition ipcp_init (s : ipcp) : ipcp :=
  let f := ip_fsm s in
  set_ip_allow ipcp_allow_init
    (set_ip_want ipcp_want_init
       (set_ip_fsm (fsm_init (Fsm 0 PPP_IPCP (state f) (flags f) (id f) (reqid f) (seen_ack f) (timeouttime f)
          (maxconfreqtransmits f) (retransmits f) (maxtermtransmits f) (nakloops f) (maxnakloops f)
          (term_reason f) (term_reason_len f))) s)).

(** [ip_check_options]: [hostaddr] is the address of our host name. *)
Definition ip_check_options `{ByteOrder} (hostaddr : option Z) (s : ipcp) : ipcp :=
  let wo := ip_want s in
  if (ouraddr wo =? 0) && negb (disable_defaultip s) then
    let wo := set_accept_local true wo in
    let wo := match hostaddr with
              | Some local => if negb (local =? 0) && negb (bad_ip_adrs local) then set_ouraddr local wo else wo
              | None => wo
              end in
    set_ip_want wo s
  else s.

(** The options of the command line that have a function: the number of slots
    and the servers for the peer. *)
Definition setvjslots (value : Z) (s : ipcp) : option ipcp :=
  if (value <? 2) || (16 <? value) then None
  else Some (set_ip_allow (set_maxslotindex (value - 1) (ip_allow s))
               (set_ip_want (set_maxslotindex (value - 1) (ip_want s)) s)).

(** [addr] is the address the parameter stands for, if it stands for one. *)
Definition setdnsaddr (addr : option Z) (s : ipcp) : option ipcp :=
  match addr with
  | None => None
  | Some dns =>
      let ao := ip_allow s in
      let ao := if dnsaddr0 ao =? 0 then set_dnsaddr0 dns ao else ao in
      Some (set_ip_allow (set_dnsaddr1 dns ao) s)
  end.

Definition setwinsaddr (addr : option Z) (s : ipcp) : option ipcp :=
  match addr with
  | None => None
  | Some wins =>
      let ao := ip_allow s in
      let ao := if winsaddr0 ao =? 0 then set_winsaddr0 wins ao else ao in
      Some (set_ip_allow (set_winsaddr1 wins ao) s)
  end.

Section Ipcp.
Context `{ByteOrder}.
Context {W : Type} {HF : FsmWorld W} {HI : IpcpWorld W} {HN : NetEvents W} {HE : NetFinish W}.
Context (ic : ip_config).

(** The automaton of IPCP, on the link all protocols share. *)
Definition ipcp_fsm_world : FsmWorld W := {|
  w_fsm w := ip_fsm (w_ipcp w);
  put_fsm f w := put_ipcp (set_ip_fsm f (w_ipcp w)) w;
  w_link := @w_link W HF;
  put_link := @put_link W HF;
  fsm_addr := ipcp_addr
|}.

Definition on_ipcp (g : ipcp -> ipcp) (w : W) : W := put_ipcp (g (w_ipcp w)) w.

Definition ip_fault (w : W) : W := on_link link_fault w.

(** A call that configures the interface. *)
Definition on_netif (call : netif -> bool * netif) (w : W) : bool * W :=
  let '(ok, n) := call (ip_netif (w_ipcp w)) in (ok, on_ipcp (set_ip_netif n) w).

(** A call whose result is ignored. *)
Definition do_netif (call : netif -> bool * netif) (w : W) : W := (on_netif call w).2.

(** ** Callbacks of the automaton *)

Definition ipcp_resetci (w : W) : W :=
  on_ipcp (fun s =>
    let '(wo, go) := ipcp_reset (disable_defaultip s) (usepeerdns ic) (ip_want s) (ip_allow s) in
    set_ip_got go (set_ip_want wo s)) w.

Definition cb_ipcp_cilen (w : W) : Z * W :=
  let s := w_ipcp w in
  let '(n, go) := ipcp_cilen (ip_want s) (ip_his s) (ip_got s) in (n, on_ipcp (set_ip_got go) w).

Definition cb_ipcp_addci (len : Z) (w : W) : bytes * Z * W :=
  let '(bs, n, go) := ipcp_addci (ip_got (w_ipcp w)) len in (bs, n, on_ipcp (set_ip_got go) w).

Definition cb_ipcp_ackci (p : bytes) (len : Z) (w : W) : bool * W :=
  match ipcp_ackci (ip_got (w_ipcp w)) p len with
  | Good _ => (true, w)
  | Bad => (false, w)
  | Oob => (false, ip_fault w)
  end.

Definition cb_ipcp_nakci (p : bytes) (len : Z) (w : W) : Z * W :=
  match ipcp_nakci (ip_got (w_ipcp w)) (Z.to_nat len) p len with
  | Some (Good try) =>
      (1, if decide (state (ip_fsm (w_ipcp w)) = OPENED) then w else on_ipcp (set_ip_got try) w)
  | Some Bad => (0, w)
  | Some Oob => (0, ip_fault w)
  | None => (0, on_ipcp (set_ip_hung true) w)
  end.

Definition cb_ipcp_rejci (p : bytes) (len : Z) (w : W) : Z * W :=
  match ipcp_rejci (ip_got (w_ipcp w)) p len with
  | Good try => (1, if decide (state (ip_fsm (w_ipcp w)) = OPENED) then w else on_ipcp (set_ip_got try) w)
  | Bad => (0, w)
  | Oob => (0, ip_fault w)
  end.

Definition cb_ipcp_reqci (inp : bytes) (len : Z) (reject_if_disagree : bool) (w : W) : Z * bytes * Z * W :=
  let s := w_ipcp w in
  match ipcp_reqci (ip_allow s) reject_if_disagree (ip_want s) (ip_got s) inp len with
  | Good r =>
      let w := on_ipcp (fun s => set_ip_his (ir_ho r) (set_ip_got (ir_go r) (set_ip_want (ir_wo r) s))) w in
      (ir_code r, ir_buf r, ir_len r, if ir_oob r || ir_overlap r then ip_fault w else w)
  | _ => (CONFREJ, inp, len, ip_fault w)
  end.

(** ** The interface goes down *)

Definition ipcp_clear_addrs (ours his : Z) (w : W) : W :=
  let w := if proxy_arp_set (w_ipcp w)
           then on_ipcp (set_proxy_arp_set false) (do_netif (cifproxyarp (syscall ic) his) w) else w in
  let w := if default_route_set (w_ipcp w)
           then on_ipcp (set_default_route_set false) (do_netif (cifdefaultroute (syscall ic) ours his) w) else w in
  do_netif (cifaddr (syscall ic) ours his) w.

Definition ipcp_down (w : W) : W :=
  let w := if ipcp_is_up (w_ipcp w) then ev_np_down (on_ipcp (set_ipcp_is_up false) w) else w in
  let w := do_netif (sifvjcomp (syscall ic) false false 0) w in
  if demand ic then do_netif (sifnpmode (syscall ic) NPMODE_QUEUE) w
  else
    let w := do_netif (sifnpmode (syscall ic) NPMODE_DROP) w in
    let w := do_netif (sifdown (syscall ic)) w in
    ipcp_clear_addrs (ouraddr (ip_got (w_ipcp w))) (hisaddr (ip_his (w_ipcp w))) w.

(** The callbacks that raising, lowering, opening and closing need. *)
Definition ipcp_link_callbacks : fsm_callbacks W :=
  FsmCallbacks (Some ipcp_resetci) (Some cb_ipcp_cilen) (Some cb_ipcp_addci) (Some cb_ipcp_ackci)
    (Some cb_ipcp_nakci) (Some cb_ipcp_rejci) (Some cb_ipcp_reqci) None (Some ipcp_down) None None None None.

Definition ipcp_close (reason : bytes) (w : W) : W :=
  fsm_close (HW := ipcp_fsm_world) ipcp_link_callbacks (Some reason) w.

(** ** The interface comes up *)

(** [if (wo->default_route && sifdefaultroute(...)) default_route_set = 1;] and
    the same for the ARP entry. *)
Definition set_routes (ours his : Z) (w : W) : W :=
  let w := if default_route (ip_want (w_ipcp w)) then
             let '(ok, w) := on_netif (sifdefaultroute (syscall ic) ours his) w in
             if (ok : bool) then on_ipcp (set_default_route_set true) w else w
           else w in
  if proxy_arp (ip_want (w_ipcp w)) then
    let '(ok, w) := on_netif (sifproxyarp (syscall ic) (interfaces ic) his) w in
    if (ok : bool) then on_ipcp (set_proxy_arp_set true) w else w
  else w.

Definition create_resolv (peerdns1 peerdns2 : Z) (w : W) : W :=
  if fopen_ok ic then on_ipcp (set_resolv_conf (Some (peerdns1, peerdns2))) w else w.

(** [demand_rexmit]: the saved frames of a protocol, in order. *)
Definition demand_rexmit (proto : Z) (w : W) : W :=
  let mine := filter (fun p => PPP_PROTOCOL p = proto) (pend_q (w_ipcp w)) in
  let w := on_link (fun l => Link (peer_mru l) (outpacket_buf l) (sent l ++ mine) (lk_oob l) (callouts l) (clock l)) w in
  on_ipcp (fun s => set_pend_q (filter (fun p => PPP_PROTOCOL p <> proto) (pend_q s)) s) w.

(** The end of [ipcp_up]. *)
Definition ipcp_now_up (w : W) : W := on_ipcp (set_ipcp_is_up true) (ev_np_up w).

(** The interface has been up for dial-on-demand: with new addresses, if they
    have changed. *)
Definition demand_up (w : W) : W :=
  let s := w_ipcp w in
  let ours := ouraddr (ip_got s) in
  let his := hisaddr (ip_his s) in
  let go_on w := ipcp_now_up (do_netif (sifnpmode (syscall ic) NPMODE_PASS) (demand_rexmit PPP_IP w)) in
  if negb (ours =? ouraddr (ip_want s)) || negb (his =? hisaddr (ip_want s)) then
    let w := ipcp_clear_addrs (ouraddr (ip_want s)) (hisaddr (ip_want s)) w in
    let w := on_ipcp (fun s => set_ip_want (set_hisaddr his (set_ouraddr ours (ip_want s))) s) w in
    let '(ok, w) := on_netif (sifaddr (syscall ic) ours his (GetMask (ip_netmask ic) (interfaces ic) ours)) w in
    if (ok : bool) then go_on (set_routes ours his w)
    else ipcp_close (text "Interface configuration failed") w
  else go_on w.

Definition plain_up (w : W) : W :=
  let ours := ouraddr (ip_got (w_ipcp w)) in
  let his := hisaddr (ip_his (w_ipcp w)) in
  let '(ok, w) := on_netif (sifaddr (syscall ic) ours his (GetMask (ip_netmask ic) (interfaces ic) ours)) w in
  if negb ok then ipcp_close (text "Interface configuration failed") w else
  let '(ok, w) := on_netif (sifup (syscall ic)) w in
  if negb ok then ipcp_close (text "Interface configuration failed") w else
  let w := do_netif (sifnpmode (syscall ic) NPMODE_PASS) w in
  let w := set_routes ours his w in
  let w := on_ipcp (fun s => set_ip_want (set_ouraddr ours (ip_want s)) s) w in
  ipcp_now_up w.

Definition ipcp_up (w : W) : W :=
  let w := on_ipcp (fun s => let ho := ip_his s in
             set_ip_his (if neg_addr ho then ho else set_hisaddr (hisaddr (ip_want s)) ho) s) w in
  let ho := ip_his (w_ipcp w) in
  let go := ip_got (w_ipcp w) in
  if hisaddr ho =? 0 then ipcp_close (text "Could not determine remote IP address") w
  else if ouraddr go =? 0 then ipcp_close (text "Could not determine local IP address") w
  else
    let w := if usepeerdns ic && (negb (dnsaddr0 go =? 0) || negb (dnsaddr1 go =? 0))
             then create_resolv (dnsaddr0 go) (dnsaddr1 go) w else w in
    if negb (auth_ip_addr (hisaddr ho)) then ipcp_close (text "Unauthorized remote IP address") w
    else
      let w := do_netif (sifvjcomp (syscall ic) (neg_vj ho) (cflag ho) (maxslotindex ho)) w in
      if demand ic then demand_up w else plain_up w.

Definition ipcp_finished (w : W) : W := ev_np_finished w.

Definition ipcp_callbacks : fsm_callbacks W :=
  FsmCallbacks (Some ipcp_resetci) (Some cb_ipcp_cilen) (Some cb_ipcp_addci) (Some cb_ipcp_ackci)
    (Some cb_ipcp_nakci) (Some cb_ipcp_rejci) (Some cb_ipcp_reqci) (Some ipcp_up) (Some ipcp_down) None
    (Some ipcp_finished) None None.

(** ** Entry points *)

Definition ipcp_open (w : W) : W := fsm_open (HW := ipcp_fsm_world) ipcp_link_callbacks w.
Definition ipcp_lowerup (w : W) : W := fsm_lowerup (HW := ipcp_fsm_world) ipcp_link_callbacks w.
Definition ipcp_lowerdown (w : W) : W := fsm_lowerdown (HW := ipcp_fsm_world) ipcp_link_callbacks w.
Definition ipcp_protrej (w : W) : W := fsm_lowerdown (HW := ipcp_fsm_world) ipcp_link_callbacks w.
Definition ipcp_input (p : bytes) (len : Z) (w : W) : W :=
  fsm_input (HW := ipcp_fsm_world) ipcp_callbacks p len w.
Definition ipcp_timeout (w : W) : W := fsm_timeout (HW := ipcp_fsm_world) ipcp_callbacks w.

(** ** Dialling on demand *)

(** [if (!call) return 0; ...] *)
Definition netif_then (call : netif -> bool * netif) (k : W -> bool * W) (w : W) : bool * W :=
  let '(ok, w) := on_netif call w in if (ok : bool) then k w else (false, w).

(** The interface as though IPCP were up, with made-up addresses. *)
Definition ip_demand_conf (w : W) : bool * W :=
  let w := on_ipcp (fun s =>
    let s := if hisaddr (ip_want s) =? 0
             then set_ip_want (set_accept_remote true (set_hisaddr (htonl (175140976 + pppifunit ic)) (ip_want s))) s
             else s in
    if ouraddr (ip_want s) =? 0
    then set_disable_defaultip true
           (set_ip_want (set_accept_local true (set_ouraddr (htonl (171982912 + pppifunit ic)) (ip_want s))) s)
    else s) w in
  let ours := ouraddr (ip_want (w_ipcp w)) in
  let his := hisaddr (ip_want (w_ipcp w)) in
  netif_then (sifaddr (syscall ic) ours his (GetMask (ip_netmask ic) (interfaces ic) ours))
    (netif_then (sifup (syscall ic))
       (netif_then (sifnpmode (syscall ic) NPMODE_QUEUE) (fun w => (true, set_routes ours his w)))) w.
End Ipcp.

(** ** Packets worth dialling for *)

Definition IP_HDRLEN := 20.
Definition IP_OFFMASK := 8191.
Definition IPPROTO_TCP := 6.
Definition TCP_HDRLEN := 20.
Definition TH_FIN := 1.

(** [None] is a read behind the packet. *)
Definition ip_active_pkt (pkt : bytes) (len : Z) : option bool :=
  let len := len - PPP_HDRLEN in
  let pkt := drop (Z.to_nat PPP_HDRLEN) pkt in
  if len <? IP_HDRLEN then Some false else
  '(ipoff, _) ← GETSHORT (drop 6 pkt);
  if negb (Z.land ipoff IP_OFFMASK =? 0) then Some false else
  '(ipproto, _) ← GETCHAR (drop 9 pkt);
  if negb (ipproto =? IPPROTO_TCP) then Some true else
  '(vhl, _) ← GETCHAR pkt;
  let hlen := Z.land vhl 15 * 4 in
  if len <? hlen + TCP_HDRLEN then Some false else
  let tcp := drop (Z.to_nat hlen) pkt in
  '(tcpflags, _) ← GETCHAR (drop 13 tcp);
  if Z.land tcpflags TH_FIN =? 0 then Some true else
  '(tcpoff, _) ← GETCHAR (drop 12 tcp);
  Some (negb (len =? hlen + Z.shiftr tcpoff 4 * 4)).
