(* ===== verification/Demand.v ===== *)
(** * Dialling on demand

    [demand.c] and [get_loop_output] of [sys-rtems.c]: while the line is down, the
    interface hands its packets to a loopback; the daemon assembles the frames,
    keeps the packets that are worth dialling for and sends them when the line
    is up.  [demand_rexmit], which does that, is part of [Ipcp.v], and so is the
    queue. *)

From S2P Require Import Prelude Wire Callout Fsm Fcs LcpOptions Lcp Inet Netif IpcpOptions Ipcp.

(** The static variables of the file; [frame] is the whole of the memory behind
    the pointer, and [frame_oob] records a store outside of it. *)
Record loopback := Loopback {
  frame : bytes;
  framelen : nat;
  framemax : nat;
  escape_flag : bool;
  flush_flag : bool;
  lp_fcs : Z;
  frame_oob : bool
}.

(** The four assignments between two frames. *)
Definition new_frame (lp : loopback) : loopback :=
  Loopback (frame lp) 0 (framemax lp) false false PPP_INITFCS (frame_oob lp).
Definition set_escape_flag v (lp : loopback) : loopback :=
  Loopback (frame lp) (framelen lp) (framemax lp) v (flush_flag lp) (lp_fcs lp) (frame_oob lp).
Definition set_flush_flag v (lp : loopback) : loopback :=
  Loopback (frame lp) (framelen lp) (framemax lp) (escape_flag lp) v (lp_fcs lp) (frame_oob lp).

(** [frame[framelen++] = c; fcs = PPP_FCS(fcs, c);] *)
Definition frame_put (c : Z) (lp : loopback) : loopback :=
  let oob := frame_oob lp || negb (framelen lp <? length (frame lp))%nat in
  Loopback (<[framelen lp := c]> (frame lp)) (S (framelen lp)) (framemax lp) (escape_flag lp) (flush_flag lp)
    (PPP_FCS (lp_fcs lp) c) oob.

Section Demand.
Context `{ByteOrder}.
Context {W : Type} {HW : LcpWorld W} {HI : IpcpWorld W}.
Context (ic : ip_config).
(** Whether [malloc] has memory for a packet. *)
Context (malloc_ok : bytes -> bool).

(** What the entries of [protocols] have for this. *)
Record demand_protent := DemandProtent {
  dp_protocol : Z;
  dp_enabled : bool;
  demand_conf_proc : option (W -> bool * W);
  active_pkt : option (bytes -> Z -> option bool)
}.

(** Of a kernel without IPv6, AppleTalk and IPX. *)
Definition demand_protocols : list demand_protent :=
  [DemandProtent PPP_LCP true None None; DemandProtent PPP_PAP true None None; DemandProtent PPP_CHAP true None None;
   DemandProtent PPP_IPCP true (Some (ip_demand_conf ic)) (Some ip_active_pkt); DemandProtent PPP_CCP true None None].

(** ** The modes of the network protocols *)

Definition has_demand_conf (e : demand_protent) : bool :=
  dp_enabled e && match demand_conf_proc e with Some _ => true | None => false end.

(** [sifnpmode(0, protp->protocol & ~0x8000, mode)] for each of them. *)
Definition set_np_modes (mode : NPmode) (w : W) : W :=
  foldl (fun w e => if has_demand_conf e then do_netif (sifnpmode (syscall ic) mode) w else w) w demand_protocols.

Definition demand_unblock (w : W) : W := set_np_modes NPMODE_PASS w.

(** The daemon dies, [None], if a protocol cannot be configured. *)
Fixpoint demand_conf_loop (table : list demand_protent) (w : W) : option W :=
  match table with
  | [] => Some w
  | e :: table =>
      match demand_conf_proc e with
      | Some conf =>
          if dp_enabled e then let '(ok, w) := conf w in if (ok : bool) then demand_conf_loop table w else None
          else demand_conf_loop table w
      | None => demand_conf_loop table w
      end
  end.

(** [memory] is what [malloc] returns for the frame. *)
Definition demand_conf (memory : nat -> option bytes) (w : W) : option (loopback * W) :=
  let max := Z.to_nat (PPP_MRU + PPP_HDRLEN + PPP_FCSLEN) in
  match memory max with
  | None => None
  | Some mem =>
      let lp := Loopback mem 0 max false false PPP_INITFCS false in
      let w := on_ipcp (set_pend_q []) w in
      let w := ppp_send_config (IfConfig PPP_MRU 0 false false) w in
      let w := ppp_recv_config (IfConfig PPP_MRU 0 false false) w in
      option_map (fun w => (lp, w)) (demand_conf_loop demand_protocols w)
  end.

(** ** Frames from the loopback *)

Fixpoint active_scan (table : list demand_protent) (proto : Z) (p : bytes) (len : Z) : option bool :=
  match table with
  | [] => Some false
  | e :: table =>
      if (dp_protocol e <? 0xC000) && (Z.ldiff (dp_protocol e) 0x8000 =? proto) then
        if negb (dp_enabled e) then Some false
        else match active_pkt e with
             | None => Some true
             | Some active => active p len
             end
      else active_scan table proto p len
  end.

(** [None] is a read behind the packet. *)
Definition active_packet (p : bytes) (len : Z) : option bool :=
  if len <? PPP_HDRLEN then Some false else active_scan demand_protocols (PPP_PROTOCOL p) p len.

Definition loop_frame (frame : bytes) (len : Z) (w : W) : bool * W :=
  if len <? PPP_HDRLEN then (false, w)
  else if negb (Z.land (PPP_PROTOCOL frame) 0x8000 =? 0) then (false, w)
  else match active_packet frame len with
       | None => (false, ip_fault w)
       | Some false => (false, w)
       | Some true =>
           let pkt := take (Z.to_nat len) frame in
           (true, if malloc_ok pkt then on_ipcp (fun s => set_pend_q (pend_q s ++ [pkt]) s) w else w)
       end.

Definition loop_char (c : Z) (lp : loopback) (w : W) : bool * loopback * W :=
  if c =? PPP_FLAG then
    let '(rv, w) :=
      if negb (escape_flag lp) && negb (flush_flag lp) && (2 <? framelen lp)%nat && (lp_fcs lp =? PPP_GOODFCS)
      then loop_frame (frame lp) (Z.of_nat (framelen lp) - 2) w else (false, w) in
    (rv, new_frame lp, w)
  else if flush_flag lp then (false, lp, w)
  else if negb (escape_flag lp) && (c =? PPP_ESCAPE) then (false, set_escape_flag true lp, w)
  else
    let '(c, lp) := if escape_flag lp then (Z.lxor c PPP_TRANS, set_escape_flag false lp) else (c, lp) in
    if (framemax lp <=? framelen lp)%nat then (false, set_flush_flag true lp, w)
    else (false, frame_put c lp, w).

Fixpoint loop_chars (p : bytes) (lp : loopback) (w : W) : bool * loopback * W :=
  match p with
  | [] => (false, lp, w)
  | c :: p =>
      let '(rv, lp, w) := loop_char c lp w in
      let '(rv', lp, w) := loop_chars p lp w in
      (rv || rv', lp, w)
  end.

(** [reads] are the results of [read] until it fails; an empty one does not end
    the loop.  [None]: the error is another than [EWOULDBLOCK], and the daemon
    dies. *)
Fixpoint loop_reads (reads : list bytes) (lp : loopback) (w : W) : bool * loopback * W :=
  match reads with
  | [] => (false, lp, w)
  | inbuf :: reads =>
      let '(rv, lp, w) := loop_chars inbuf lp w in
      let '(rv', lp, w) := loop_reads reads lp w in
      (rv || rv', lp, w)
  end.

Definition get_loop_output (reads : list bytes) (wouldblock : bool) (lp : loopback) (w : W) : option (bool * loopback * W) :=
  let r := loop_reads reads lp w in if wouldblock then Some r else None.

Definition demand_block (reads : list bytes) (wouldblock : bool) (lp : loopback) (w : W) : option (loopback * W) :=
  match get_loop_output reads wouldblock lp (set_np_modes NPMODE_QUEUE w) with
  | Some (_, lp, w) => Some (lp, w)
  | None => None
  end.

Definition demand_discard (reads : list bytes) (wouldblock : bool) (lp : loopback) (w : W) : option (loopback * W) :=
  match get_loop_output reads wouldblock lp (set_np_modes NPMODE_ERROR w) with
  | Some (_, lp, w) => Some (new_frame lp, on_ipcp (set_pend_q []) w)
  | None => None
  end.
End Demand.
