(* ===== verification/IpcpNet.v ===== *)
(** * IPCP as a network protocol of the daemon

    IPCP's automaton next to LCP's on one link, its entry of the protocol table,
    and the proof that it keeps the laws [NetLaws] the daemon's theorems ask of
    network protocols.  The remaining entries of the table, protocols that never
    touch the link's phase, are asked to be [apart] from the rest. *)

From S2P Require Import Prelude Wire Inet Netif Callout Fsm FsmSpec FsmGate.
From S2P Require Import LcpOptions LcpReqci Lcp LcpSpec Upap Chap Auth AuthSpec.
From S2P Require Import IpcpOptions IpcpReqci Ipcp.

(** A protocol at rest has not started to negotiate. *)
Definition resting (s : fsm_state) : Prop := s = INITIAL \/ s = CLOSED.

Section Net.
Context `{ByteOrder} {Y : Type} {HY : NetRest Y}.
Abbreviation W := (daemon (ipcp * Y)).
Implicit Types w : W.

#[export] Instance daemon_ipcp : IpcpWorld W := {
  w_ipcp w := (d_other w).1;
  put_ipcp s w :=
    Daemon (d_fsm w) (d_link w) (d_lcp w) (d_upap w) (d_chap w) (d_auth w) (s, (d_other w).2);
  ipcp_addr := 3
}.

#[export] Instance ipcp_rest : NetRest (ipcp * Y) := {
  net_rest x := resting (state (ip_fsm x.1)) /\ net_rest x.2
}.

Context (ic : ip_config) (ac : auth_config) (cc : chap_config) (magic : nat -> Z).
Context (more : list (protent W)).

#[export] Instance ipcp_events : NetEvents W := {| ev_np_up := np_up ac; ev_np_down := np_down |}.

Definition ipcp_link : link_entry W :=
  LinkEntry PPP_IPCP true (Some (ipcp_lowerup ic)) (Some (ipcp_lowerdown ic)) (Some (ipcp_open ic))
    (Some (ipcp_close ic)).

(** [np_finished] goes through the links of the table only. *)
Definition link_only (l : link_entry W) : protent W := Protent l (fun _ _ w => w) (fun w => w) None.

#[export] Instance ipcp_finish : NetFinish W :=
  {| ev_np_finished := np_finished ac cc magic (link_only ipcp_link :: more) |}.

Definition ipcp_protent : protent W := Protent ipcp_link (ipcp_input ic) (ipcp_protrej ic) None.

(** The table behind LCP, PAP and CHAP. *)
Definition net_table : list (protent W) := ipcp_protent :: more.

Lemma finished_of_table w : ipcp_finished w = np_finished ac cc magic net_table w.
Proof. done. Qed.

(** ** The other entries *)

(** They leave IPCP alone, and at rest stay at rest until they are opened. *)
Definition apart w w' : Prop := calm w w' /\ w_ipcp w' = w_ipcp w.
Definition beside w w' : Prop := outside w w' /\ w_ipcp w' = w_ipcp w.

Class ApartTable : Prop := {
  apart_lowerup p g w : In p more -> p_lowerup (p_link p) = Some g -> apart w (g w);
  apart_lowerdown p g w : In p more -> p_lowerdown (p_link p) = Some g -> beside w (g w);
  apart_open p g w : In p more -> p_open (p_link p) = Some g -> beside w (g w);
  apart_close p g reason w : In p more -> p_close (p_link p) = Some g -> beside w (g reason w);
  apart_down w : net_rest (d_other (fold_left entry_down (map p_link more) w)).2;
  apart_protrej p w : In p more -> apart w (p_protrej p w);
  apart_input p bs len w : In p more -> apart w (p_input p bs len w);
  apart_datainput p g bs len w : In p more -> p_datainput p = Some g -> apart w (g bs len w)
}.

(** ** What leaves the daemon alone *)

Abbreviation IW := (ipcp_fsm_world (W := W)).

#[export] Instance ipcp_world_laws : FsmWorldLaws W (HW := IW).
Proof. by split. Qed.

(** The state of IPCP, packets and IPCP's timer. *)
Record steady w w' : Prop := {
  st_outside : outside w w';
  st_phase : phase w' = phase w;
  st_other : (d_other w').2 = (d_other w).2;
  st_timers t : t <> fsm_timer (HW := IW) -> pends t w' = pends t w
}.

Lemma steady_refl w : steady w w.
Proof. by split; [apply outside_refl|..]. Qed.

Lemma steady_trans w1 w2 w3 : steady w1 w2 -> steady w2 w3 -> steady w1 w3.
Proof.
  intros [O1 P1 Q1 T1] [O2 P2 Q2 T2]. split; [by eapply outside_trans|congruence..|].
  intros t Ht. by rewrite T2 // T1.
Qed.

Lemma steady_calm w w' :
  steady w w' -> (resting (state (ip_fsm (w_ipcp w))) -> resting (state (ip_fsm (w_ipcp w')))) -> calm w w'.
Proof. intros [Ho Hp Hx _] Hr. split; [done|]. split; [done|]. intros [H1 H2]. split; [by apply Hr|]. by rewrite Hx. Qed.

Lemma steady_ipcp s w : steady w (put_ipcp s w).
Proof. split; [|done..]. split; try done. simpl. unfold phase. by destruct (d_lcp w). Qed.

Lemma steady_link g w : link_quiet (HW := IW) g -> steady w (on_link (HW := IW) g w).
Proof.
  intros Hq. split; [|done..|intros t Ht; by apply Hq]. split; try done; [simpl; unfold phase; by destruct (d_lcp w)|].
  intros t Ht. apply Hq. intros ->. by destruct Ht as [Ht|[Ht|[Ht|[Ht|[Ht|Ht]]]]].
Qed.

Lemma steady_fault w : steady w (ip_fault w).
Proof. by apply (steady_link link_fault). Qed.

Lemma steady_netif call w : steady w (on_netif call w).2.
Proof. unfold on_netif. destruct (call _) as [ok n]. apply steady_ipcp. Qed.

(** ** Predicates the automaton of IPCP keeps *)

Section Kept.
Context (P : W -> Prop) (Hsteady : forall w w', steady w w' -> P w -> P w').

Lemma kept_ipcp g w : P w -> P (on_ipcp g w).
Proof. apply Hsteady, steady_ipcp. Qed.

Lemma kept_netif call w : P w -> P (on_netif call w).2.
Proof. apply Hsteady, steady_netif. Qed.

Lemma kept_do call w : P w -> P (do_netif call w).
Proof. apply kept_netif. Qed.

Lemma kept_fault w : P w -> P (ip_fault w).
Proof. apply Hsteady, steady_fault. Qed.

Lemma kept_fsm g w : P w -> P (on_fsm (HW := IW) g w).
Proof. apply Hsteady, steady_ipcp. Qed.

Lemma kept_link g w : link_quiet (HW := IW) g -> P w -> P (on_link (HW := IW) g w).
Proof. intros Hq. by apply Hsteady, steady_link. Qed.

(** Follow a chain of calls. *)
Ltac kept :=
  repeat first [ assumption | apply kept_ipcp | apply kept_do | apply kept_fault | apply kept_netif ].

Lemma kept_resetci w : P w -> P (ipcp_resetci ic w).
Proof. intros. unfold ipcp_resetci. kept. Qed.

Lemma kept_cilen w : P w -> P (cb_ipcp_cilen w).2.
Proof. intros. unfold cb_ipcp_cilen. destruct (ipcp_cilen _ _ _). simpl. kept. Qed.

Lemma kept_addci n w : P w -> P (cb_ipcp_addci n w).2.
Proof. intros. unfold cb_ipcp_addci. destruct (ipcp_addci _ _) as [[bs m] go]. simpl. kept. Qed.

Lemma kept_ackci p n w : P w -> P (cb_ipcp_ackci p n w).2.
Proof. intros. unfold cb_ipcp_ackci. destruct (ipcp_ackci _ _ _); simpl; kept. Qed.

Lemma kept_nakci p n w : P w -> P (cb_ipcp_nakci p n w).2.
Proof.
  intros. unfold cb_ipcp_nakci. destruct (ipcp_nakci _ _ _ _) as [[try| |]|]; simpl; try case_decide; kept.
Qed.

Lemma kept_rejci p n w : P w -> P (cb_ipcp_rejci p n w).2.
Proof. intros. unfold cb_ipcp_rejci. destruct (ipcp_rejci _ _ _) as [try| |]; simpl; try case_decide; kept. Qed.

Lemma kept_reqci p n r w : P w -> P (cb_ipcp_reqci p n r w).2.
Proof.
  intros. unfold cb_ipcp_reqci. destruct (ipcp_reqci _ _ _ _ _ _) as [rep| |]; cbn [snd]; [|kept..].
  destruct (ir_oob rep || ir_overlap rep); kept.
Qed.

(** The callbacks that negotiate, without those that report. *)
Definition bare_callbacks : fsm_callbacks W :=
  FsmCallbacks (Some (ipcp_resetci ic)) (Some cb_ipcp_cilen) (Some cb_ipcp_addci) (Some cb_ipcp_ackci)
    (Some cb_ipcp_nakci) (Some cb_ipcp_rejci) (Some cb_ipcp_reqci) None None None None None None.

Ltac gated :=
  split; intros; take_callback;
  repeat match goal with G : gate (HW := IW) P never _ |- _ => apply (gate_only (HW := IW) P) in G end;
  rewrite ?(gate_only (HW := IW) P);
  first [ done | by apply kept_fsm | by apply kept_link | by apply kept_resetci | by apply kept_cilen
        | by apply kept_addci | by apply kept_ackci | by apply kept_nakci | by apply kept_rejci
        | by apply kept_reqci | idtac ].

#[local] Instance bare_gated : Gated (HW := IW) bare_callbacks P P never.
Proof. gated. Qed.

Lemma kept_lowerup_starting w : state (ip_fsm (w_ipcp w)) = STARTING -> P w -> P (ipcp_lowerup ic w).
Proof.
  intros Hs Hp. unfold ipcp_lowerup, fsm_lowerup. cbn [w_fsm ipcp_fsm_world]. rewrite Hs.
  pose proof (gate_lowerup (HW := IW) bare_callbacks P P never w) as Hg. unfold fsm_lowerup in Hg.
  cbn [w_fsm ipcp_fsm_world] in Hg. rewrite Hs in Hg.
  by apply (gate_only (HW := IW) P), Hg, (gate_only (HW := IW) P).
Qed.

Context (Hdown : forall w, P w -> P (np_down w)).

Lemma kept_clear_addrs ours his w : P w -> P (ipcp_clear_addrs ic ours his w).
Proof.
  intros. unfold ipcp_clear_addrs. apply kept_do.
  set (w1 := if proxy_arp_set _ then _ else w). assert (P w1) by (subst w1; case_match; kept). clearbody w1.
  case_match; kept.
Qed.

Lemma kept_down w : P w -> P (ipcp_down ic w).
Proof.
  intros Hp. unfold ipcp_down. set (w1 := if ipcp_is_up _ then _ else w).
  assert (H1 : P w1) by (subst w1; case_match; [apply Hdown; kept|done]). clearbody w1.
  case_match; [kept|]. apply kept_clear_addrs. kept.
Qed.

#[local] Instance link_gated : Gated (HW := IW) (ipcp_link_callbacks ic) P P never.
Proof. gated. by apply kept_down. Qed.

Lemma kept_lowerdown w : P w -> P (ipcp_lowerdown ic w).
Proof. intros Hp. apply (gate_only (HW := IW) P), (gate_lowerdown (HW := IW) (ipcp_link_callbacks ic) P P never). by left. Qed.

Lemma kept_open w : P w -> P (ipcp_open ic w).
Proof. intros Hp. apply (gate_only (HW := IW) P), (gate_open (HW := IW) (ipcp_link_callbacks ic) P P never). by left. Qed.

Lemma kept_close reason w : P w -> P (ipcp_close ic reason w).
Proof. intros Hp. apply (gate_close (HW := IW) (ipcp_link_callbacks ic) P P never). by left. Qed.

Context (Hup : forall w, P w -> P (np_up ac w)).

Lemma kept_set_routes ours his w : P w -> P (set_routes ic ours his w).
Proof.
  intros Hp. unfold set_routes. set (w1 := if default_route _ then _ else w). assert (H1 : P w1).
  { subst w1. destruct (default_route _); [|done].
    pose proof (kept_netif (sifdefaultroute (syscall ic) ours his) w Hp) as H1.
    destruct (on_netif _ w) as [[] w2]; simpl in H1; kept. }
  clearbody w1. destruct (proxy_arp _); [|done].
  pose proof (kept_netif (sifproxyarp (syscall ic) (interfaces ic) his) w1 H1) as H2.
  destruct (on_netif _ w1) as [[] w2]; simpl in H2; kept.
Qed.

Lemma kept_now_up w : P w -> P (ipcp_now_up w).
Proof. intros Hp. unfold ipcp_now_up. apply kept_ipcp. by apply Hup. Qed.

Lemma rexmit_quiet proto w :
  link_quiet (HW := IW) (fun l => Link (peer_mru l) (outpacket_buf l)
    (sent l ++ filter (fun p => PPP_PROTOCOL p = proto) (pend_q (w_ipcp w))) (lk_oob l) (callouts l) (clock l)).
Proof. by intros l t _. Qed.

Lemma kept_rexmit proto w : P w -> P (demand_rexmit proto w).
Proof. intros Hp. unfold demand_rexmit. apply kept_ipcp. by apply (kept_link _ w (rexmit_quiet proto w)). Qed.

Lemma kept_demand_up w : P w -> P (demand_up ic w).
Proof.
  intros Hp. unfold demand_up. destruct (_ || _); [|by apply kept_now_up, kept_do, kept_rexmit].
  set (w1 := on_ipcp _ _). assert (H1 : P w1) by by apply kept_ipcp, kept_clear_addrs. clearbody w1.
  set (call := sifaddr _ _ _ _). pose proof (kept_netif call w1 H1) as H2.
  destruct (on_netif call w1) as [[] w2]; simpl in H2; [|by apply kept_close].
  by apply kept_now_up, kept_do, kept_rexmit, kept_set_routes.
Qed.

Lemma kept_plain_up w : P w -> P (plain_up ic w).
Proof.
  intros Hp. unfold plain_up. set (call := sifaddr _ _ _ _). pose proof (kept_netif call w Hp) as H1.
  destruct (on_netif call w) as [[] w1]; simpl in H1; [|by apply kept_close].
  pose proof (kept_netif (sifup (syscall ic)) w1 H1) as H2. cbn [negb].
  destruct (on_netif (sifup _) w1) as [[] w2]; simpl in H2; [|by apply kept_close]. cbn [negb].
  by apply kept_now_up, kept_ipcp, kept_set_routes, kept_do.
Qed.

Lemma kept_up w : P w -> P (ipcp_up ic w).
Proof.
  intros Hp. unfold ipcp_up. set (w1 := on_ipcp _ w). assert (H1 : P w1) by by apply kept_ipcp. clearbody w1.
  destruct (_ =? 0); [by apply kept_close|]. destruct (_ =? 0); [by apply kept_close|].
  set (w2 := if _ && _ then _ else w1).
  assert (H2 : P w2) by (subst w2; destruct (_ && _); [unfold create_resolv; case_match; kept|done]). clearbody w2.
  destruct (negb _); [by apply kept_close|].
  destruct (demand ic); [by apply kept_demand_up, kept_do|by apply kept_plain_up, kept_do].
Qed.

(** All callbacks but [finished]. *)
#[local] Instance quiet_gated : Gated (HW := IW) (without_finished (ipcp_callbacks ic)) P P never.
Proof. gated; [by apply kept_down|by apply kept_up]. Qed.

Lemma kept_input p len w : P w -> P (fsm_input (HW := IW) (without_finished (ipcp_callbacks ic)) p len w).
Proof. intros Hp. apply (gate_only (HW := IW) P), (gate_input (HW := IW) _ P P never). by left. Qed.

Lemma kept_timeout w : P w -> P (fsm_timeout (HW := IW) (without_finished (ipcp_callbacks ic)) w).
Proof. intros Hp. apply (gate_only (HW := IW) P), (gate_timeout (HW := IW) _ P P never). by left. Qed.
End Kept.

(** ** At rest *)

Abbreviation ip_state w := (state (ip_fsm (w_ipcp w))).

Lemma calm_link g w : link_quiet (HW := IW) g -> calm w (on_link (HW := IW) g w).
Proof. intros Hq. by apply steady_calm; [apply steady_link|]. Qed.

Lemma calm_ipcp g w :
  (resting (ip_state w) -> resting (state (ip_fsm (g (w_ipcp w))))) -> calm w (on_ipcp g w).
Proof. intros Hr. by apply steady_calm; [apply steady_ipcp|]. Qed.

Lemma calm_fault w : calm w (ip_fault w).
Proof. by apply (calm_link link_fault). Qed.

Lemma calm_sdata code pid data n w : calm w (fsm_sdata (HW := IW) code pid data n w).
Proof. apply calm_link, send_data_quiet. Qed.

Lemma calm_on_fsm g w : state (g (ip_fsm (w_ipcp w))) = ip_state w -> calm w (on_fsm (HW := IW) g w).
Proof. intros Hg. apply (calm_ipcp (fun s => set_ip_fsm (g (ip_fsm s)) s)). simpl. by rewrite Hg. Qed.

(** The answer to a reply in CLOSED. *)
Lemma calm_reply pid w :
  ip_state w = CLOSED ->
  calm w (fsm_sdata (HW := IW) TERMACK pid (Data []) 0 (on_fsm (HW := IW) (set_seen_ack true) w)).
Proof. intros _. eapply calm_trans; [by apply (calm_on_fsm (set_seen_ack true))|apply calm_sdata]. Qed.

Lemma calm_nakrej code p n w :
  ip_state w = CLOSED ->
  let '(ret, w') := (if code =? CONFNAK then cb_ipcp_nakci else cb_ipcp_rejci) p n w in
  calm w w' /\ ip_state w' = CLOSED.
Proof.
  intros Hs. destruct (code =? CONFNAK).
  - unfold cb_ipcp_nakci. destruct (ipcp_nakci _ _ _ _) as [[try| |]|].
    + case_decide; [by split; [apply calm_refl|]|]. by split; [apply (calm_ipcp (set_ip_got try))|].
    + by split; [apply calm_refl|].
    + by split; [apply calm_fault|].
    + by split; [apply (calm_ipcp (set_ip_hung true))|].
  - unfold cb_ipcp_rejci. destruct (ipcp_rejci _ _ _) as [try| |].
    + case_decide; [by split; [apply calm_refl|]|]. by split; [apply (calm_ipcp (set_ip_got try))|].
    + by split; [apply calm_refl|].
    + by split; [apply calm_fault|].
Qed.

Lemma closed_rconfack pid inp n w :
  ip_state w = CLOSED -> calm w (fsm_rconfack (HW := IW) (ipcp_callbacks ic) pid inp n w).
Proof.
  intros Hs. unfold fsm_rconfack. destruct (_ || _); [apply calm_refl|].
  cbn [cb_ackci ipcp_callbacks]. unfold cb_ipcp_ackci.
  destruct (ipcp_ackci _ _ _); cbn [negb]; [|apply calm_refl|apply calm_fault].
  cbn [w_fsm ipcp_fsm_world on_fsm put_fsm]. change (state (ip_fsm (w_ipcp (put_ipcp ?s w)))) with (state (ip_fsm s)).
  cbn [ip_fsm set_ip_fsm set_seen_ack state]. rewrite Hs. by apply calm_reply.
Qed.

Lemma closed_rconfnakrej code pid inp n w :
  ip_state w = CLOSED -> calm w (fsm_rconfnakrej (HW := IW) (ipcp_callbacks ic) code pid inp n w).
Proof.
  intros Hs. unfold fsm_rconfnakrej. destruct (_ || _); [apply calm_refl|].
  pose proof (calm_nakrej code inp n w Hs) as Hc.
  assert (Hr : match (if code =? CONFNAK then cb_nakci (ipcp_callbacks ic) else cb_rejci (ipcp_callbacks ic)) with
    | Some proc => proc inp n w | None => (0, w) end
    = (if code =? CONFNAK then cb_ipcp_nakci else cb_ipcp_rejci) inp n w) by by destruct (code =? CONFNAK).
  rewrite Hr. destruct ((if code =? CONFNAK then _ else _) inp n w) as [ret w1]. destruct Hc as [Hc Hs1].
  destruct (ret =? 0); [done|]. change (state (w_fsm (on_fsm (HW := IW) (set_seen_ack true) w1))) with (ip_state w1).
  rewrite Hs1. eapply calm_trans; [exact Hc|]. by apply calm_reply.
Qed.

Lemma closed_input p n w : ip_state w = CLOSED -> calm w (ipcp_input ic p n w).
Proof.
  intros Hs. unfold ipcp_input, fsm_input. destruct (parse_header p n) as [[[[code pid] m] inp]|]; [|apply calm_refl].
  cbn [w_fsm ipcp_fsm_world]. rewrite Hs. unfold fsm_dispatch.
  destruct (code =? CONFREQ).
  { unfold fsm_rconfreq, rconfreq_enter. cbn [w_fsm ipcp_fsm_world]. rewrite Hs. apply calm_sdata. }
  destruct (code =? CONFACK); [by apply closed_rconfack|].
  destruct (_ || _); [by apply closed_rconfnakrej|].
  destruct (code =? TERMREQ).
  { unfold fsm_rtermreq. cbn [w_fsm ipcp_fsm_world]. rewrite Hs. apply calm_sdata. }
  destruct (code =? TERMACK).
  { unfold fsm_rtermack. cbn [w_fsm ipcp_fsm_world]. rewrite Hs. apply calm_refl. }
  destruct (code =? CODEREJ).
  { unfold fsm_rcoderej. destruct (_ <? _); [apply calm_refl|]. destruct inp as [|? [|? ?]]; [apply calm_fault..|].
    case_decide as Hd; [by rewrite /= Hs in Hd|apply calm_refl]. }
  cbn [cb_extcode ipcp_callbacks]. eapply calm_trans; [by apply (calm_on_fsm next_id)|apply calm_sdata].
Qed.

Lemma resting_input p n w : resting (ip_state w) -> calm w (ipcp_input ic p n w).
Proof.
  intros [Hs|Hs]; [|by apply closed_input]. unfold ipcp_input, fsm_input.
  destruct (parse_header p n) as [[[[code pid] m] inp]|]; [|apply calm_refl].
  cbn [w_fsm ipcp_fsm_world]. rewrite Hs. apply calm_refl.
Qed.

Lemma resting_timeout w : resting (ip_state w) -> calm w (ipcp_timeout ic w).
Proof.
  intros Hs. unfold ipcp_timeout, fsm_timeout. cbn [w_fsm ipcp_fsm_world].
  destruct Hs as [Hs|Hs]; rewrite Hs; apply calm_refl.
Qed.

Lemma resting_lowerdown w : resting (ip_state w) -> calm w (ipcp_lowerdown ic w).
Proof.
  intros Hs. unfold ipcp_lowerdown, fsm_lowerdown. cbn [w_fsm ipcp_fsm_world].
  destruct Hs as [Hs|Hs]; rewrite Hs; [apply calm_refl|].
  apply (calm_ipcp (fun s => set_ip_fsm (set_state INITIAL (ip_fsm s)) s)). intros _. by left.
Qed.

Lemma lowerup_calm w : calm w (ipcp_lowerup ic w).
Proof.
  destruct (decide (ip_state w = STARTING)) as [Hs|Hs].
  - apply steady_calm; [|intros [Hr|Hr]; congruence].
    refine (kept_lowerup_starting (steady w) _ w Hs (steady_refl w)).
    intros w1 w2 H12 H1. by eapply steady_trans.
  - unfold ipcp_lowerup, fsm_lowerup. cbn [w_fsm ipcp_fsm_world].
    destruct (ip_state w) eqn:E; try apply calm_refl; [|done].
    apply (calm_ipcp (fun s => set_ip_fsm (set_state CLOSED (ip_fsm s)) s)). intros _. by right.
Qed.

(** ** Under way *)

Abbreviation busy := (rtc (busy_step ac)).

Lemma busy_steady w0 w w' : steady w w' -> busy w0 w -> busy w0 w'.
Proof. intros [Ho Hp _ _] Hb. eapply rtc_r; [exact Hb|]. by apply busy_outside. Qed.

Lemma busy_down w0 w : busy w0 w -> busy w0 (np_down w).
Proof. intros Hb. eapply rtc_r; [exact Hb|]. apply busy_np_down. Qed.

Lemma busy_up w0 w : busy w0 w -> busy w0 (np_up ac w).
Proof. intros Hb. eapply rtc_r; [exact Hb|]. apply busy_np_up. Qed.

Abbreviation net_run := (rtc (net_step ac cc magic net_table)).

Lemma net_run_calm w w' : calm w w' -> net_run w w'.
Proof. intros Hc. by apply rtc_once, net_calm. Qed.

Lemma net_run_busy w w' : ~ resting (ip_state w) -> busy w w' -> net_run w w'.
Proof. intros Hr Hb. apply rtc_once. apply net_busy; [|done]. by intros [? _]. Qed.

(** An event of IPCP: calm at rest; otherwise the link may be counted up and
    down, and at the very end [np_finished] may close it. *)
Lemma event_net_run (event : fsm_callbacks W -> W -> W) w :
  (resting (ip_state w) -> calm w (event (ipcp_callbacks ic) w)) ->
  finished_last (ipcp_callbacks ic) event ->
  (busy w w -> busy w (event (without_finished (ipcp_callbacks ic)) w)) ->
  net_run w (event (ipcp_callbacks ic) w).
Proof.
  intros Hc Hf Hb. destruct (decide (ip_state w = INITIAL \/ ip_state w = CLOSED)) as [Hr|Hr];
    [by apply net_run_calm, Hc|].
  assert (H1 : net_run w (event (without_finished (ipcp_callbacks ic)) w)) by by apply net_run_busy, Hb.
  destruct (Hf w) as [->| ->]; [exact H1|]. eapply rtc_r; [exact H1|].
  set (w1 := event _ w). change (call (cb_finished (ipcp_callbacks ic)) w1) with (ipcp_finished w1).
  rewrite finished_of_table. apply net_np_finished.
Qed.

Lemma input_net_run p n w : net_run w (ipcp_input ic p n w).
Proof.
  apply (event_net_run (fun cb => fsm_input (HW := IW) cb p n)); [apply resting_input|apply input_finished_last|].
  apply (kept_input (busy w)); [apply busy_steady|apply busy_down|apply busy_up].
Qed.

Lemma timeout_net_run w : net_run w (ipcp_timeout ic w).
Proof.
  apply (event_net_run (fun cb => fsm_timeout (HW := IW) cb)); [apply resting_timeout|apply timeout_finished_last|].
  apply (kept_timeout (busy w)); [apply busy_steady|apply busy_down|apply busy_up].
Qed.

Lemma protrej_net_run w : net_run w (ipcp_protrej ic w).
Proof.
  change (ipcp_protrej ic w) with (ipcp_lowerdown ic w).
  destruct (decide (ip_state w = INITIAL \/ ip_state w = CLOSED)) as [Hr|Hr];
    [by apply net_run_calm, resting_lowerdown|].
  apply net_run_busy; [done|]. apply (kept_lowerdown (busy w)); [apply busy_steady|apply busy_down|done].
Qed.

(** ** The link goes down *)

Lemma outside_np_down w : outside w (np_down w).
Proof.
  unfold np_down. assert (Hp : set_pppd_phase (phase w) (d_lcp w) = d_lcp w)
    by (unfold phase; by destruct (d_lcp w)).
  destruct (_ =? 0); split; try done. intros t Ht. apply pending_untimeout_ne. intros <-.
  by destruct Ht as [Ht|[Ht|[Ht|[Ht|[Ht|Ht]]]]].
Qed.

Lemma outside_steady w0 w w' : steady w w' -> outside w0 w -> outside w0 w'.
Proof. intros [Ho _ _ _] H0. by eapply outside_trans. Qed.

Lemma outside_down w0 w : outside w0 w -> outside w0 (np_down w).
Proof. intros H0. eapply outside_trans; [exact H0|apply outside_np_down]. Qed.

Lemma lowerdown_outside w : outside w (ipcp_lowerdown ic w).
Proof. apply (kept_lowerdown (outside w)); [apply outside_steady|apply outside_down|apply outside_refl]. Qed.

Lemma open_outside w : outside w (ipcp_open ic w).
Proof. apply (kept_open (outside w)); [apply outside_steady|apply outside_down|apply outside_refl]. Qed.

Lemma close_outside reason w : outside w (ipcp_close ic reason w).
Proof. apply (kept_close (outside w)); [apply outside_steady|apply outside_down|apply outside_refl]. Qed.

Lemma lowerdown_state w : ip_state (ipcp_lowerdown ic w) = INITIAL \/ ip_state (ipcp_lowerdown ic w) = STARTING.
Proof.
  unfold ipcp_lowerdown, fsm_lowerdown. cbn [w_fsm ipcp_fsm_world].
  destruct (ip_state w) eqn:E; first [by left|by right].
Qed.

Lemma close_state reason w : ip_state w = INITIAL \/ ip_state w = STARTING -> ip_state (ipcp_close ic reason w) = INITIAL.
Proof.
  intros Hs. unfold ipcp_close, fsm_close. set (w1 := on_fsm _ w).
  assert (H1 : ip_state w1 = ip_state w) by done. clearbody w1. cbn [w_fsm ipcp_fsm_world]. rewrite H1.
  by destruct Hs as [Hs|Hs]; rewrite Hs; [rewrite H1|].
Qed.

Lemma entry_down_rest w : ip_state (entry_down w ipcp_link) = INITIAL.
Proof. apply close_state, lowerdown_state. Qed.

(** ** The laws *)

Context {HA : ApartTable}.

Lemma apart_refl w : apart w w.
Proof. split; [apply calm_refl|done]. Qed.

Lemma apart_entry_down p w : In p more -> ip_state w = INITIAL -> ip_state (entry_down w (p_link p)) = INITIAL.
Proof.
  intros Hp Hs. unfold entry_down. destruct (negb _); [done|].
  set (w1 := if _ =? _ then _ else _). assert (H1 : ip_state w1 = INITIAL).
  { subst w1. destruct (_ =? _); [done|]. destruct (p_lowerdown (p_link p)) as [g|] eqn:E; [|done].
    destruct (apart_lowerdown p g w Hp E) as [_ He]. simpl in *. by rewrite He. }
  clearbody w1. destruct (_ <? _); [|done]. destruct (p_close (p_link p)) as [g|] eqn:E; [|done].
  destruct (apart_close p g (text "LCP down") w1 Hp E) as [_ He]. simpl in *. by rewrite He.
Qed.

Lemma table_down w : net_rest (d_other (fold_left entry_down (map p_link net_table) w)).
Proof.
  split; [left|exact (apart_down (entry_down w ipcp_link))]. unfold net_table. simpl. pose proof (entry_down_rest w) as Hs. set (w1 := entry_down w _) in *. clearbody w1.
  assert (Hincl : incl more more) by apply incl_refl. revert w1 Hs Hincl.
  generalize more at 1 3. intros l. induction l as [|p l IH]; intros w1 Hs Hincl; [done|]. simpl.
  apply IH; [apply apart_entry_down; [apply Hincl; by left|done]|]. intros x Hx. apply Hincl. by right.
Qed.

#[export] Instance net_table_laws : NetLaws ac cc magic net_table.
Proof.
  assert (Hcases : forall p, In p net_table -> p = ipcp_protent \/ In p more) by by intros p [<-|Hp]; auto.
  split.
  - intros p g w Hp Hg. destruct (Hcases p Hp) as [->|Hm]; [simplify_eq/=; apply lowerup_calm|by apply (apart_lowerup p g)].
  - intros p g w Hp Hg. destruct (Hcases p Hp) as [->|Hm]; [simplify_eq/=; apply lowerdown_outside|].
    by apply (apart_lowerdown p g).
  - intros p g w Hp Hg. destruct (Hcases p Hp) as [->|Hm]; [simplify_eq/=; apply open_outside|by apply (apart_open p g)].
  - intros p g reason w Hp Hg. destruct (Hcases p Hp) as [->|Hm]; [simplify_eq/=; apply close_outside|].
    by apply (apart_close p g).
  - apply table_down.
  - intros p w Hp. destruct (Hcases p Hp) as [->|Hm]; [apply protrej_net_run|]. by apply net_run_calm, apart_protrej.
  - intros p bs n w Hp. destruct (Hcases p Hp) as [->|Hm]; [apply input_net_run|]. by apply net_run_calm, apart_input.
  - intros p g bs n w Hp Hg. destruct (Hcases p Hp) as [->|Hm]; [done|]. by apply net_run_calm, (apart_datainput p g).
Qed.
End Net.
