(* ===== verification/IpcpGate.v ===== *)
(** * IPCP: what the interface is configured for

    The interface passes IP packets only while IPCP is open; its addresses, the
    default route and the proxy ARP entry are there only then, and are the ones
    that were agreed on. *)

From S2P Require Import Prelude Wire Inet Netif Callout Fsm FsmSpec FsmGate.
From S2P Require Import LcpOptions LcpReqci Lcp LcpSpec Upap Chap Auth AuthSpec.
From S2P Require Import IpcpOptions IpcpReqci Ipcp IpcpNet.

Section IpGate.
Context `{ByteOrder} {Y : Type} {HY : NetRest Y}.
Abbreviation W := (daemon (ipcp * Y)).
Implicit Types w : W.
Context (ic : ip_config) (ac : auth_config) (cc : chap_config) (magic : nat -> Z).
Context (more : list (protent W)).

Abbreviation IW := (ipcp_fsm_world (W := W)).
Abbreviation cbs := (ipcp_callbacks (HN := ipcp_events ac) (HE := ipcp_finish ic ac cc magic more) ic).
Abbreviation link_cbs := (ipcp_link_callbacks (HN := ipcp_events ac) ic).
Abbreviation closing := (ipcp_close (HN := ipcp_events ac) ic).

(** ** The two sides of the gate *)

(** No system call fails; *)
Definition obeys : Prop := forall i, syscall ic i = None.

(** enough of them succeed to turn the interface off, which takes one call when
    dialling on demand and two, one after the other, when not. *)
Definition silences : Prop :=
  obeys \/ (demand ic = false /\ forall i, syscall ic i = None \/ syscall ic (S i) = None).

(** The flags of [ipcp.c] know of every route. *)
Definition traced (s : ipcp) : Prop :=
  let n := ip_netif s in
  (default_route_gateway n <> 0 -> default_route_set s = true) /\
  (obeys -> (ni_route n <> 0 -> default_route_set s = true) /\
            (proxy_arp_addr n <> 0 -> proxy_arp_set s = true /\ arpmsg_valid n = true)).

(** Nothing points to the peer, *)
Definition no_routes (s : ipcp) : Prop :=
  let n := ip_netif s in
  default_route_set s = false /\ proxy_arp_set s = false /\ default_route_gateway n = 0 /\
  (obeys -> ni_route n = 0 /\ proxy_arp_addr n = 0).

(** or what does points to [his]. *)
Definition routes_to (his : Z) (s : ipcp) : Prop :=
  let n := ip_netif s in
  (default_route_set s = true -> default_route_gateway n = his) /\
  (proxy_arp_set s = true -> proxy_arp_addr n = his) /\
  (obeys -> ni_route n = 0 \/ ni_route n = his).

(** The interface carries no IP; but when dialling on demand nothing points to
    the peer. *)
Definition down_state (s : ipcp) : Prop :=
  ipcp_is_up s = false /\
  (silences -> ni_npmode (ip_netif s) <> NPMODE_PASS) /\
  (demand ic = false -> no_routes s).

(** Both addresses are there and the peer's is acceptable; but when dialling on
    demand the interface has them, and what points to the peer points there. *)
Definition up_state (s : ipcp) : Prop :=
  let ours := ouraddr (ip_got s) in
  let his := hisaddr (ip_his s) in
  ours <> 0 /\ his <> 0 /\ auth_ip_addr his = true /\
  (demand ic = false ->
   if_is_up (ip_netif s) = true /\ ifaddrs (ip_netif s) = (ours, his) /\ traced s /\ routes_to his s).

Definition ip_off w : Prop := down_state (w_ipcp w).
Definition ip_on w : Prop := up_state (w_ipcp w).

(** What going down counts on. *)
Definition ip_traced w : Prop := demand ic = false -> traced (w_ipcp w).

Lemma off_traced w : ip_off w -> ip_traced w.
Proof.
  intros (_ & _ & Hn) Hd. destruct (Hn Hd) as (Hr & Hp & Hg & Ho). split; [done|].
  intros Hc. by destruct (Ho Hc).
Qed.

Lemma on_traced w : ip_on w -> ip_traced w.
Proof. intros (_ & _ & _ & Hn) Hd. by apply Hn. Qed.

(** ** Going down *)

(** The routes of the interface and what is needed to delete them. *)
Definition routes (n : netif) : Z * Z * Z * bool :=
  (default_route_gateway n, ni_route n, proxy_arp_addr n, arpmsg_valid n).

Lemma routes_sifvjcomp a b c n :
  let n' := (sifvjcomp (syscall ic) a b c n).2 in routes n' = routes n /\ ni_npmode n' = ni_npmode n.
Proof. unfold sifvjcomp, sys_then. simpl. by repeat case_match. Qed.

Lemma routes_sifnpmode mode n : routes (sifnpmode (syscall ic) mode n).2 = routes n.
Proof. unfold sifnpmode, sys_then. simpl. by repeat case_match. Qed.

Lemma routes_sifdown n : routes (sifdown (syscall ic) n).2 = routes n.
Proof. unfold sifdown, sys_then. simpl. by repeat case_match. Qed.

(** Dropping packets and taking the interface down: one of the two works. *)
Lemma silenced n : silences -> demand ic = false ->
  ni_npmode (sifdown (syscall ic) (sifnpmode (syscall ic) NPMODE_DROP n).2).2 <> NPMODE_PASS.
Proof.
  intros Hq Hd. assert (H1 : syscall ic (ni_calls n) = None \/ syscall ic (S (ni_calls n)) = None).
  { destruct Hq as [Hq|[_ Hq]]; [left|]; apply Hq. }
  unfold sifdown, sifnpmode, sys_then. simpl. destruct H1 as [-> | H1]; simpl.
  - by repeat case_match.
  - destruct (syscall ic (ni_calls n)); simpl; rewrite H1; by repeat case_match.
Qed.

Lemma npmode_cifproxyarp a n : ni_npmode (cifproxyarp (syscall ic) a n).2 = ni_npmode n.
Proof. unfold cifproxyarp, sys_then. simpl. by repeat case_match. Qed.

Lemma npmode_cifdefaultroute a b n : ni_npmode (cifdefaultroute (syscall ic) a b n).2 = ni_npmode n.
Proof. unfold cifdefaultroute, dodefaultroute. simpl. by repeat case_match. Qed.

Lemma keeps_cifaddr a b n :
  let n' := (cifaddr (syscall ic) a b n).2 in routes n' = routes n /\ ni_npmode n' = ni_npmode n.
Proof. done. Qed.

(** ** Coming up *)

Lemma np_up_other w : d_other (np_up ac w) = d_other w.
Proof. unfold np_up. repeat case_match; done. Qed.

Lemma np_down_other w : d_other (np_down w) = d_other w.
Proof. unfold np_down. by case_match. Qed.

Lemma do_netif_ipcp call w : w_ipcp (do_netif call w) = set_ip_netif (call (ip_netif (w_ipcp w))).2 (w_ipcp w).
Proof. unfold do_netif, on_netif. by destruct (call _). Qed.

(** The ARP entry is deleted, *)
Lemma proxy_cleared his w :
  traced (w_ipcp w) ->
  let w' := if proxy_arp_set (w_ipcp w)
            then on_ipcp (set_proxy_arp_set false) (do_netif (cifproxyarp (syscall ic) his) w) else w in
  let s := w_ipcp w in
  let s' := w_ipcp w' in
  ipcp_is_up s' = ipcp_is_up s /\ ni_npmode (ip_netif s') = ni_npmode (ip_netif s) /\
  traced s' /\ proxy_arp_set s' = false /\ (obeys -> proxy_arp_addr (ip_netif s') = 0).
Proof.
  intros Ht. pose proof Ht as (Hg & Ho). destruct (proxy_arp_set (w_ipcp w)) eqn:Ep; cbn zeta.
  - assert (E : w_ipcp (on_ipcp (set_proxy_arp_set false) (do_netif (cifproxyarp (syscall ic) his) w))
              = set_proxy_arp_set false (w_ipcp (do_netif (cifproxyarp (syscall ic) his) w))) by done.
    rewrite E do_netif_ipcp. clear E. clear Ht. set (s := w_ipcp w) in *. clearbody s.
    pose proof (npmode_cifproxyarp his (ip_netif s)) as Hm. revert Hm.
    unfold traced. simpl. unfold cifproxyarp, sys_then. destruct (arpmsg_valid (ip_netif s)) eqn:Ev; simpl.
    + destruct (syscall ic (ni_calls (ip_netif s))) eqn:E1; simpl; [|destruct (syscall ic (S _)) eqn:E2; simpl].
      all: intros Hm; split_and!; try done; try (intros Hc; rewrite /obeys in Hc; congruence).
      all: intros Hc; destruct (Ho Hc); by split.
    + intros _. split_and!; try done; intros Hc; destruct (Ho Hc) as [H1 H2].
      * split; [done|]. intros Hx. by destruct (H2 Hx).
      * destruct (Z.eq_dec (proxy_arp_addr (ip_netif s)) 0) as [|Hx]; [done|]. by destruct (H2 Hx).
  - split; [done|]. split; [done|]. split; [done|]. split; [done|]. intros Hc. destruct (Ho Hc) as [_ H2].
    destruct (Z.eq_dec (proxy_arp_addr (ip_netif (w_ipcp w))) 0) as [|Hx]; [done|]. by destruct (H2 Hx).
Qed.

(** and the default route. *)
Lemma clear_addrs_off ours his w :
  traced (w_ipcp w) ->
  let s := w_ipcp w in
  let s' := w_ipcp (ipcp_clear_addrs ic ours his w) in
  ipcp_is_up s' = ipcp_is_up s /\ ni_npmode (ip_netif s') = ni_npmode (ip_netif s) /\ no_routes s'.
Proof.
  intros Ht. unfold ipcp_clear_addrs. pose proof (proxy_cleared his w Ht) as H1. cbn zeta in H1.
  set (w1 := if proxy_arp_set _ then _ else w) in *. clearbody w1. destruct H1 as (E1 & E2 & (Hg & Ho) & Hp & Hq).
  cbn zeta. rewrite -E1 -E2. clear E1 E2 Ht. set (w2 := if default_route_set _ then _ else w1).
  assert (H2 : ipcp_is_up (w_ipcp w2) = ipcp_is_up (w_ipcp w1) /\
    ni_npmode (ip_netif (w_ipcp w2)) = ni_npmode (ip_netif (w_ipcp w1)) /\ no_routes (w_ipcp w2)).
  { subst w2. destruct (default_route_set (w_ipcp w1)) eqn:Ed.
    - set (w3 := do_netif _ w1).
      assert (E : w_ipcp (on_ipcp (set_default_route_set false) w3) = set_default_route_set false (w_ipcp w3)) by done.
      rewrite E. subst w3. rewrite do_netif_ipcp. clear E. unfold no_routes, cifdefaultroute, dodefaultroute. simpl.
      destruct (syscall ic _) eqn:E1; simpl; split_and!; try done; intros Hc; [by rewrite Hc in E1|].
      split; [done|by apply Hq].
    - unfold no_routes. split_and!; try done; [destruct (Z.eq_dec (default_route_gateway (ip_netif (w_ipcp w1))) 0) as [|Hx];
        [done|by pose proof (Hg Hx)]|].
      intros Hc. split; [|by apply Hq]. destruct (Ho Hc) as [H1 _].
      destruct (Z.eq_dec (ni_route (ip_netif (w_ipcp w1))) 0) as [|Hx]; [done|by pose proof (H1 Hx)]. }
  clearbody w2. destruct H2 as (<- & <- & Hn). rewrite do_netif_ipcp. split_and!; done.
Qed.

Lemma ipcp_down_off w : ip_traced w -> ip_off (ipcp_down (HN := ipcp_events ac) ic w).
Proof.
  intros Ht. unfold ipcp_down, ip_off, down_state. set (w1 := if ipcp_is_up _ then _ else w).
  assert (H1 : ipcp_is_up (w_ipcp w1) = false /\ ip_traced w1).
  { subst w1. destruct (ipcp_is_up (w_ipcp w)) eqn:E; [|done].
    unfold ip_traced. cbn [ev_np_down ipcp_events]. by rewrite /= np_down_other. }
  clearbody w1. clear Ht. destruct H1 as [H1 Ht]. set (w2 := do_netif _ w1).
  assert (H2 : ipcp_is_up (w_ipcp w2) = false /\ ip_traced w2).
  { subst w2. unfold ip_traced. rewrite do_netif_ipcp. split; [exact H1|]. intros Hd. specialize (Ht Hd). revert Ht.
    destruct (routes_sifvjcomp false false 0 (ip_netif (w_ipcp w1))) as [E _]. unfold routes in E.
    injection E as E1 E2 E3 E4. unfold traced. simpl. by rewrite E1 E2 E3 E4. }
  clearbody w2. clear H1 Ht. destruct H2 as [H2 Ht]. destruct (demand ic) eqn:Ed.
  - rewrite do_netif_ipcp. split; [exact H2|]. split; [|done].
    intros [Hq|[Hx _]]; [|congruence]. unfold sifnpmode, sys_then. simpl. by rewrite Hq.
  - set (w3 := do_netif (sifnpmode _ _) w2). set (w4 := do_netif (sifdown _) w3).
    assert (H4 : ipcp_is_up (w_ipcp w4) = false /\ (silences -> ni_npmode (ip_netif (w_ipcp w4)) <> NPMODE_PASS) /\
                 traced (w_ipcp w4)).
    { subst w4. rewrite do_netif_ipcp. subst w3. rewrite do_netif_ipcp. split; [exact H2|].
      split; [intros Hq; by apply silenced|]. specialize (Ht Ed). revert Ht.
      set (n3 := (sifnpmode _ _ _).2). pose proof (routes_sifnpmode NPMODE_DROP (ip_netif (w_ipcp w2))) as E3.
      pose proof (routes_sifdown n3) as E4. rewrite -/n3 in E3. rewrite E3 in E4. unfold routes in E4.
      injection E4 as E5 E6 E7 E8. unfold traced. simpl. by rewrite E5 E6 E7 E8. }
    clearbody w4. clear w3 H2 Ht. destruct H4 as (H4 & Hm & Ht).
    destruct (clear_addrs_off (ouraddr (ip_got (w_ipcp w4))) (hisaddr (ip_his (w_ipcp w4))) w4 Ht) as (-> & -> & Hn).
    by split_and!.
Qed.

#[export] Instance link_gate : Gated (HW := IW) link_cbs ip_traced ip_off ip_on.
Proof.
  split; intros; take_callback; try done.
  - unfold cb_ipcp_reqci. destruct (ipcp_reqci _ _ _ _ _ _) as [rep| |]; [|done..]. by destruct (ir_oob rep || ir_overlap rep).
  - by apply off_traced.
  - by apply on_traced.
  - by apply ipcp_down_off.
  - by left.
  - unfold cb_ipcp_ackci. by destruct (ipcp_ackci _ _ _).
  - unfold cb_ipcp_nakci. destruct (ipcp_nakci _ _ _ _) as [[try| |]|]; [|done..].
    simpl. case_decide as Hs; [done|]. left. by apply (gate_not_opened (HW := IW) ip_off ip_on) in H1.
  - unfold cb_ipcp_rejci. destruct (ipcp_rejci _ _ _) as [try| |]; [|done..].
    simpl. case_decide as Hs; [done|]. left. by apply (gate_not_opened (HW := IW) ip_off ip_on) in H1.
Qed.

(** A refusal closes the automaton, which takes the interface down. *)
Lemma refused reason w :
  ip_off w \/ (state (ip_fsm (w_ipcp w)) = OPENED /\ ip_traced w) ->
  gate (HW := IW) ip_off ip_on (closing reason w).
Proof.
  intros Hw. left. destruct (decide (state (ip_fsm (w_ipcp w)) = OPENED)) as [Hs|Hs].
  - apply (close_opened_off (HW := IW) link_cbs ip_traced ip_off ip_on); [done|].
    destruct Hw as [Hw|[_ Hw]]; [by apply off_traced|done].
  - apply (off_close (HW := IW) link_cbs ip_traced ip_off ip_on). by destruct Hw as [Hw|[? _]].
Qed.

(** What the calls that configure the interface leave of it. *)
Lemma sifaddr_sets o h m n :
  (sifaddr (syscall ic) o h m n).1 = true -> ifaddrs (sifaddr (syscall ic) o h m n).2 = (o, h).
Proof. unfold sifaddr. simpl. by repeat case_match. Qed.

Lemma sifup_sets n :
  (sifup (syscall ic) n).1 = true ->
  if_is_up (sifup (syscall ic) n).2 = true /\ ifaddrs (sifup (syscall ic) n).2 = ifaddrs n.
Proof. unfold sifup, sys_then. simpl. by repeat case_match. Qed.

Lemma sifnpmode_keeps mode n :
  let n' := (sifnpmode (syscall ic) mode n).2 in
  if_is_up n' = if_is_up n /\ ifaddrs n' = ifaddrs n.
Proof. unfold sifnpmode, sys_then. simpl. by repeat case_match. Qed.

Lemma routes_sifaddr o h m n : routes (sifaddr (syscall ic) o h m n).2 = routes n.
Proof. unfold sifaddr. simpl. by repeat case_match. Qed.

Lemma routes_sifup n : routes (sifup (syscall ic) n).2 = routes n.
Proof. unfold sifup, sys_then. simpl. by repeat case_match. Qed.

Lemma no_routes_netif s n : routes n = routes (ip_netif s) -> no_routes s -> no_routes (set_ip_netif n s).
Proof.
  intros E. unfold routes in E. injection E as E1 E2 E3 E4. unfold no_routes. simpl. by rewrite E1 E2 E3.
Qed.

Lemma no_routes_traced s : no_routes s -> traced s.
Proof. intros (Hd & Hp & Hg & Ho). split; [done|]. intros Hc. by destruct (Ho Hc). Qed.

Lemma sifproxyarp_keeps his n :
  let r := sifproxyarp (syscall ic) (interfaces ic) his n in
  if_is_up r.2 = if_is_up n /\ ifaddrs r.2 = ifaddrs n /\ default_route_gateway r.2 = default_route_gateway n /\
  ni_route r.2 = ni_route n /\
  (if r.1 then proxy_arp_addr r.2 = his /\ arpmsg_valid r.2 = true else proxy_arp_addr r.2 = proxy_arp_addr n).
Proof. unfold sifproxyarp, sys_then. simpl. by repeat case_match. Qed.

(** The routes of an interface that had none: the default route, *)
Lemma default_route_made ours his w :
  no_routes (w_ipcp w) ->
  let w' := if default_route (ip_want (w_ipcp w)) then
              let '(ok, w) := on_netif (sifdefaultroute (syscall ic) ours his) w in
              if (ok : bool) then on_ipcp (set_default_route_set true) w else w
            else w in
  let s := w_ipcp w in
  let s' := w_ipcp w' in
  ip_fsm s' = ip_fsm s /\ ip_got s' = ip_got s /\ ip_his s' = ip_his s /\
  if_is_up (ip_netif s') = if_is_up (ip_netif s) /\ ifaddrs (ip_netif s') = ifaddrs (ip_netif s) /\
  proxy_arp_set s' = false /\ traced s' /\ routes_to his s'.
Proof.
  intros (Hd & Hp & Hg & Ho). destruct (default_route _); cbn zeta.
  - unfold on_netif, sifdefaultroute, dodefaultroute. simpl in *. set (s := (d_other w).1) in *. clearbody s.
    unfold traced, routes_to. destruct (syscall ic (ni_calls (ip_netif s))) eqn:E; simpl; split_and!; try done.
    all: try (intros Hc; by rewrite Hc in E).
    all: try (by intros Hx; rewrite Hx in Hp).
    + intros Hc. by destruct (Ho Hc).
    + by right.
  - split_and!; try done; [by apply no_routes_traced|].
    unfold routes_to. rewrite Hd Hp. split_and!; try done. intros Hc. left. by apply Ho.
Qed.

(** and the ARP entry. *)
Lemma set_routes_sets ours his w :
  no_routes (w_ipcp w) ->
  let s := w_ipcp w in
  let s' := w_ipcp (set_routes ic ours his w) in
  ip_fsm s' = ip_fsm s /\ ip_got s' = ip_got s /\ ip_his s' = ip_his s /\
  if_is_up (ip_netif s') = if_is_up (ip_netif s) /\ ifaddrs (ip_netif s') = ifaddrs (ip_netif s) /\
  traced s' /\ routes_to his s'.
Proof.
  intros Hn. unfold set_routes. pose proof (default_route_made ours his w Hn) as H1. cbn zeta in H1.
  set (w1 := if default_route _ then _ else w) in *. clearbody w1. cbn zeta.
  destruct H1 as (<- & <- & <- & <- & <- & Hp & Ht & Hr). clear Hn. set (s := w_ipcp w1) in *.
  destruct (proxy_arp _); [|by split_and!]. unfold on_netif. fold s.
  destruct (sifproxyarp_keeps his (ip_netif s)) as (K1 & K2 & K3 & K4 & K5). destruct Ht as [Ht Ho].
  destruct Hr as (Hr & _ & Hx). destruct (sifproxyarp _ _ _ _) as [[] n]; cbn [fst snd] in *.
  - destruct K5 as [K5 K6]. unfold traced, routes_to. simpl. fold s. rewrite K1 K2 K3 K4 K5 K6.
    split_and!; try done. intros Hc. split; [by apply Ho|done].
  - unfold traced, routes_to. simpl. fold s. rewrite K1 K2 K3 K4 K5 Hp. split_and!; try done.
    intros Hc. destruct (Ho Hc) as [H1 H2]. split; [exact H1|]. intros Hy. destruct (H2 Hy). congruence.
Qed.

Abbreviation now_up := (ipcp_now_up (HN := ipcp_events ac)).

Lemma now_up_ipcp w : w_ipcp (now_up w) = set_ipcp_is_up true (w_ipcp w).
Proof.
  unfold ipcp_now_up. cbn [ev_np_up ipcp_events]. pose proof (np_up_other w) as Ho.
  set (w1 := np_up ac w) in *. clearbody w1. simpl. by rewrite Ho.
Qed.

Lemma now_up_gate w :
  state (ip_fsm (w_ipcp w)) = OPENED -> up_state (w_ipcp w) -> gate (HW := IW) ip_off ip_on (now_up w).
Proof.
  intros Hs Hu. right. unfold ip_on. cbn [w_fsm ipcp_fsm_world]. rewrite now_up_ipcp. by split.
Qed.

Abbreviation plain := (plain_up (HN := ipcp_events ac) ic).
Abbreviation on_demand := (demand_up (HN := ipcp_events ac) ic).

(** The addresses IPCP comes up with. *)
Definition accepted w : Prop :=
  ouraddr (ip_got (w_ipcp w)) <> 0 /\ hisaddr (ip_his (w_ipcp w)) <> 0 /\
  auth_ip_addr (hisaddr (ip_his (w_ipcp w))) = true.

Lemma plain_up_gate w :
  demand ic = false -> ip_off w -> state (ip_fsm (w_ipcp w)) = OPENED -> accepted w ->
  gate (HW := IW) ip_off ip_on (plain w).
Proof.
  intros Hdem (Hup & _ & Hoff) Hs (Ho & Hh & Ha). pose proof (Hoff Hdem) as H0. unfold plain_up, on_netif.
  set (ours := ouraddr _) in *. set (his := hisaddr _) in *. set (m := GetMask _ _ _).
  pose proof (sifaddr_sets ours his m (ip_netif (w_ipcp w))) as K1.
  pose proof (no_routes_netif _ _ (routes_sifaddr ours his m (ip_netif (w_ipcp w))) H0) as H1.
  destruct (sifaddr _ _ _ _ _) as [[] n1]; cbn [fst snd negb] in *;
    [|apply refused; right; split; [done|intros _; by apply no_routes_traced]].
  pose proof (sifup_sets n1) as K2. change (ip_netif (w_ipcp (on_ipcp (set_ip_netif n1) w))) with n1.
  pose proof (no_routes_netif (set_ip_netif n1 (w_ipcp w)) _ (routes_sifup n1) H1) as H2.
  destruct (sifup _ _) as [[] n2]; cbn [fst snd negb] in *;
    [|apply refused; right; split; [done|intros _; by apply no_routes_traced]].
  unfold do_netif, on_netif. set (n2' := ip_netif _). change n2' with n2. clear n2'.
  pose proof (sifnpmode_keeps NPMODE_PASS n2) as K3. cbn zeta in K3.
  pose proof (no_routes_netif (set_ip_netif n2 (set_ip_netif n1 (w_ipcp w))) _ (routes_sifnpmode NPMODE_PASS n2) H2) as H3.
  destruct (sifnpmode _ _ _) as [b3 n3]; cbn [fst snd] in *. set (w3 := on_ipcp (set_ip_netif n3) _).
  destruct (set_routes_sets ours his w3 H3) as (Ef & Eg & Eh & Eu & Ea & Er & Eq).
  set (w4 := set_routes _ _ _ _) in *. clearbody w4.
  apply now_up_gate; unfold up_state; simpl; simpl in Ef, Eg, Eh, Eu, Ea; [by rewrite Ef|]. rewrite Eg Eh.
  split; [exact Ho|]. split; [exact Hh|]. split; [exact Ha|]. intros _.
  destruct (K2 eq_refl) as [K2a K2b]. destruct K3 as [K3a K3b]. rewrite Eu Ea K3a K3b K2b.
  split; [exact K2a|]. split; [by apply K1|]. by split.
Qed.

(** The automaton and what was agreed on. *)
Definition same_terms w w' : Prop :=
  ip_fsm (w_ipcp w') = ip_fsm (w_ipcp w) /\ ip_got (w_ipcp w') = ip_got (w_ipcp w) /\
  ip_his (w_ipcp w') = ip_his (w_ipcp w).

Lemma same_terms_trans w1 w2 w3 : same_terms w1 w2 -> same_terms w2 w3 -> same_terms w1 w3.
Proof. intros (? & ? & ?) (? & ? & ?). split_and!; congruence. Qed.

Lemma netif_terms call w : same_terms w (on_netif call w).2.
Proof. unfold on_netif. by destruct (call _). Qed.

Lemma clear_addrs_terms ours his w : same_terms w (ipcp_clear_addrs ic ours his w).
Proof.
  unfold ipcp_clear_addrs. set (w1 := if proxy_arp_set _ then _ else w).
  assert (H1 : same_terms w w1) by (subst w1; case_match; [apply (netif_terms (cifproxyarp (syscall ic) his))|done]).
  clearbody w1. set (w2 := if default_route_set _ then _ else w1).
  assert (H2 : same_terms w1 w2).
  { subst w2. case_match; [apply (netif_terms (cifdefaultroute (syscall ic) ours his))|done]. }
  clearbody w2. eapply same_terms_trans; [exact H1|]. eapply same_terms_trans; [exact H2|]. apply netif_terms.
Qed.

Lemma set_routes_terms ours his w : same_terms w (set_routes ic ours his w).
Proof.
  unfold set_routes. set (w1 := if default_route _ then _ else w).
  assert (H1 : same_terms w w1).
  { subst w1. case_match; [|done]. pose proof (netif_terms (sifdefaultroute (syscall ic) ours his) w) as H1.
    destruct (on_netif _ w) as [[] w2]; exact H1. }
  clearbody w1. case_match; [|exact H1]. pose proof (netif_terms (sifproxyarp (syscall ic) (interfaces ic) his) w1) as H2.
  destruct (on_netif _ w1) as [[] w2]; (eapply same_terms_trans; [exact H1|exact H2]).
Qed.

(** Ready to come up, but for the interface. *)
Definition ready w : Prop := state (ip_fsm (w_ipcp w)) = OPENED /\ accepted w.

Lemma ready_terms w w' : same_terms w w' -> ready w -> ready w'.
Proof. intros (Ef & Eg & Eh). unfold ready, accepted. by rewrite Ef Eg Eh. Qed.

Lemma pass_gate w :
  demand ic = true -> ready w ->
  gate (HW := IW) ip_off ip_on (now_up (do_netif (sifnpmode (syscall ic) NPMODE_PASS) (demand_rexmit PPP_IP w))).
Proof.
  intros Hd Hr. set (w1 := demand_rexmit PPP_IP w). assert (H1 : ready w1) by exact Hr. clearbody w1.
  pose proof (ready_terms _ _ (netif_terms (sifnpmode (syscall ic) NPMODE_PASS) w1) H1) as H2.
  change (ready (do_netif (sifnpmode (syscall ic) NPMODE_PASS) w1)) in H2.
  set (w2 := do_netif _ w1) in *. clearbody w2. destruct H2 as (Hs & Ho & Hh & Ha).
  apply now_up_gate; [done|]. split_and!; [done..|congruence].
Qed.

Lemma demand_up_gate w :
  demand ic = true -> ready w -> gate (HW := IW) ip_off ip_on (on_demand w).
Proof.
  intros Hdem H0. unfold demand_up. destruct (_ || _); [|by apply pass_gate].
  set (w0 := ipcp_clear_addrs _ _ _ w). pose proof (ready_terms _ _ (clear_addrs_terms _ _ w) H0 : ready w0) as H1.
  clearbody w0. set (w1 := on_ipcp _ w0). assert (H1' : ready w1) by exact H1. clearbody w1.
  set (setaddr := sifaddr _ _ _ _). pose proof (ready_terms _ _ (netif_terms setaddr w1) H1') as H2.
  destruct (on_netif setaddr w1) as [[] w2]; cbn [snd] in H2; 
    [|apply refused; right; split; [apply H2|intros Hx; congruence]].
  apply pass_gate; [done|]. eapply ready_terms; [apply set_routes_terms|exact H2].
Qed.

Lemma ipcp_up_gate w :
  ip_off w -> state (ip_fsm (w_ipcp w)) = OPENED ->
  gate (HW := IW) ip_off ip_on (ipcp_up (HN := ipcp_events ac) ic w).
Proof.
  intros Ho Hs. unfold ipcp_up. set (w1 := on_ipcp _ w).
  assert (H1 : ip_off w1 /\ state (ip_fsm (w_ipcp w1)) = OPENED) by done. clearbody w1. destruct H1 as [Ho1 Hs1].
  destruct (Z.eqb_spec (hisaddr (ip_his (w_ipcp w1))) 0) as [|Hh]; [by apply refused; left|].
  destruct (Z.eqb_spec (ouraddr (ip_got (w_ipcp w1))) 0) as [|Hg]; [by apply refused; left|].
  set (w2 := if _ && _ then _ else w1).
  assert (H2 : ip_off w2 /\ ip_fsm (w_ipcp w2) = ip_fsm (w_ipcp w1) /\ ip_got (w_ipcp w2) = ip_got (w_ipcp w1) /\
               ip_his (w_ipcp w2) = ip_his (w_ipcp w1)).
  { subst w2. destruct (_ && _); [|done]. unfold create_resolv. by destruct (fopen_ok ic). }
  clearbody w2. destruct H2 as (Ho2 & Ef & Eg & Eh).
  destruct (auth_ip_addr (hisaddr (ip_his (w_ipcp w1)))) eqn:Ea; [|by apply refused; left]. cbn [negb].
  set (w3 := do_netif _ w2).
  assert (H3 : ip_off w3 /\ ip_fsm (w_ipcp w3) = ip_fsm (w_ipcp w2) /\ ip_got (w_ipcp w3) = ip_got (w_ipcp w2) /\
               ip_his (w_ipcp w3) = ip_his (w_ipcp w2)).
  { subst w3. unfold ip_off. rewrite do_netif_ipcp. split_and!; [|done..]. destruct Ho2 as (Hu & Hm & Hn).
    set (call := sifvjcomp _ _ _ _). destruct (routes_sifvjcomp (neg_vj (ip_his (w_ipcp w1))) (cflag (ip_his (w_ipcp w1)))
      (maxslotindex (ip_his (w_ipcp w1))) (ip_netif (w_ipcp w2))) as [E Em]. fold call in E, Em.
    split; [exact Hu|]. split; [intros Hq; rewrite /= Em; by apply Hm|]. intros Hd. by apply no_routes_netif; [|apply Hn]. }
  clearbody w3. destruct H3 as (Ho3 & Ef3 & Eg3 & Eh3).
  assert (Hs3 : state (ip_fsm (w_ipcp w3)) = OPENED) by by rewrite Ef3 Ef.
  assert (Hacc : accepted w3) by by rewrite /accepted Eg3 Eg Eh3 Eh.
  destruct (demand ic) eqn:Ed; [apply demand_up_gate; [done|by split]|by apply plain_up_gate].
Qed.

#[export] Instance quiet_gate : Gated (HW := IW) (without_finished cbs) ip_traced ip_off ip_on.
Proof.
  destruct link_gate as [? ? ? ? ? ? ? ? ? ? ? ? ? ? ? ? ? ? ? ?].
  split; intros; take_callback; eauto. by apply ipcp_up_gate.
Qed.
End IpGate.
