(* ===== verification/DaemonIpcp.v ===== *)
(** * The daemon: IPCP in the company of the rest

    A predicate on IPCP's state that the events of its automaton keep is kept by
    every step of the daemon.  With it: the interface carries IP packets, and a
    default route or a proxy ARP entry points to the peer, only while IPCP is
    open, on an authenticated link, with addresses the daemon accepts. *)

From S2P Require Import Prelude Wire Inet Netif Callout Fsm FsmSpec FsmGate.
From S2P Require Import LcpOptions LcpReqci Lcp LcpSpec Upap Chap Auth AuthSpec DaemonGuard DaemonSpec DaemonAuth DaemonNet.
From S2P Require Import IpcpOptions IpcpReqci Ipcp IpcpNet IpcpGate.

Section DaemonIpcp.
Context `{ByteOrder} {Y : Type} {HY : NetRest Y}.
Abbreviation W := (daemon (ipcp * Y)).
Implicit Types w : W.
Context (ic : ip_config) (cfg : lcp_config) (ac : auth_config) (cc : chap_config) (magic : nat -> Z).
Context (more : list (protent W)) {HA : ApartTable more}.

Abbreviation IW := (ipcp_fsm_world (W := W)).
Abbreviation table := (net_table ic ac cc magic more).
Abbreviation cbs := (ipcp_callbacks (HN := ipcp_events ac) (HE := ipcp_finish ic ac cc magic more) ic).
Abbreviation events := (auth_events ac cc magic table).
Abbreviation lowerup := (ipcp_lowerup (HN := ipcp_events ac) ic).
Abbreviation lowerdown := (ipcp_lowerdown (HN := ipcp_events ac) ic).
Abbreviation opening := (ipcp_open (HN := ipcp_events ac) ic).
Abbreviation closing := (ipcp_close (HN := ipcp_events ac) ic).
Abbreviation input := (ipcp_input (HN := ipcp_events ac) (HE := ipcp_finish ic ac cc magic more) ic).
Abbreviation timeout := (ipcp_timeout (HN := ipcp_events ac) (HE := ipcp_finish ic ac cc magic more) ic).

(** ** What IPCP's automaton keeps, the daemon keeps *)

Class IpStable (P : W -> Prop) : Prop := {
  ips_same w w' : w_ipcp w' = w_ipcp w -> P w -> P w';
  ips_lowerup w : P w -> P (lowerup w);
  ips_lowerdown w : P w -> P (lowerdown w);
  ips_open w : P w -> P (opening w);
  ips_close reason w : P w -> P (closing reason w);
  ips_input p n w : P w -> P (fsm_input (HW := IW) (without_finished cbs) p n w);
  ips_timeout w : P w -> P (fsm_timeout (HW := IW) (without_finished cbs) w)
}.

Section Stable.
Context (P : W -> Prop) {HP : IpStable P}.

Lemma frame_kept w w' : net_frame w w' -> P w -> P w'.
Proof. intros [Ho _]. apply ips_same. simpl. by rewrite Ho. Qed.

Lemma apart_kept w w' : apart w w' -> P w -> P w'.
Proof. intros [_ He]. by apply ips_same. Qed.

Lemma beside_kept w w' : beside w w' -> P w -> P w'.
Proof. intros [_ He]. by apply ips_same. Qed.

(** An entry of the table is IPCP's or another one. *)
Lemma entry_cases e : In e table -> e = ipcp_protent ic ac cc magic more \/ In e more.
Proof. intros [<-|He]; auto. Qed.

Lemma entry_down_kept e w : In e table -> P w -> P (entry_down w (p_link e)).
Proof.
  intros He Hw. destruct (entry_cases e He) as [->|Hm].
  { exact (ips_close (text "LCP down") _ (ips_lowerdown w Hw)). }
  unfold entry_down. destruct (negb _); [done|]. set (w1 := if _ =? _ then _ else _).
  assert (H1 : P w1).
  { subst w1. destruct (_ =? _); [done|]. destruct (p_lowerdown (p_link e)) as [g|] eqn:E; [|done].
    eapply beside_kept; [by apply (apart_lowerdown more e g)|done]. }
  clearbody w1. destruct (_ <? _); [|done]. destruct (p_close (p_link e)) as [g|] eqn:E; [|done].
  eapply beside_kept; [by apply (apart_close more e g)|done].
Qed.

Lemma entry_open_kept e w : In e table -> P w -> P (entry_open w (p_link e)).
Proof.
  intros He Hw. destruct (entry_cases e He) as [->|Hm].
  { pose proof (ips_open w Hw) as H1. by refine (ips_same (opening w) _ _ H1). }
  unfold entry_open. destruct (p_open (p_link e)) as [g|] eqn:E; [|done]. destruct (_ && _); [|done].
  assert (H1 : P (g w)) by (eapply beside_kept; [by apply (apart_open more e g)|done]).
  destruct (_ =? _); [done|]. by refine (ips_same (g w) _ _ H1).
Qed.

Lemma entry_up_kept e w : In e table -> P w -> P (entry_up w (p_link e)).
Proof.
  intros He Hw. destruct (entry_cases e He) as [->|Hm]; [exact (ips_lowerup w Hw)|].
  unfold entry_up. destruct (_ && _); [|done]. destruct (p_lowerup (p_link e)) as [g|] eqn:E; [|done].
  eapply apart_kept; [by apply (apart_lowerup more e g)|done].
Qed.

#[export] Instance ip_closed : NetClosed table P.
Proof. split; [apply frame_kept|apply entry_down_kept|apply entry_open_kept]. Qed.

Lemma event_kept (event : fsm_callbacks W -> W -> W) w :
  finished_last cbs event -> P (event (without_finished cbs) w) -> P (event cbs w).
Proof.
  intros Hf Hw. destruct (Hf w) as [->| ->]; [done|]. set (w1 := event _ w) in *.
  change (call (cb_finished cbs) w1) with (ipcp_finished (HE := ipcp_finish ic ac cc magic more) w1).
  rewrite finished_of_table. by apply (np_finished_net ac cc magic table P).
Qed.

Lemma ipcp_input_kept p n w : P w -> P (input p n w).
Proof.
  intros Hw. apply (event_kept (fun cb => fsm_input (HW := IW) cb p n)); [apply input_finished_last|by apply ips_input].
Qed.

Lemma ipcp_timeout_kept w : P w -> P (timeout w).
Proof.
  intros Hw. apply (event_kept (fun cb => fsm_timeout (HW := IW) cb)); [apply timeout_finished_last|by apply ips_timeout].
Qed.

#[export] Instance ip_stable : NetStable table P.
Proof.
  split; [apply _|apply entry_up_kept|..].
  - intros e w He Hw. destruct (entry_cases e He) as [->|Hm]; [by apply ips_lowerdown|].
    eapply apart_kept; [by apply (apart_protrej more e)|done].
  - intros e bs n w He Hw. destruct (entry_cases e He) as [->|Hm]; [by apply ipcp_input_kept|].
    eapply apart_kept; [by apply (apart_input more e)|done].
  - intros e g bs n w He Hg Hw. destruct (entry_cases e He) as [->|Hm]; [done|].
    eapply apart_kept; [by apply (apart_datainput more e g)|done].
Qed.
End Stable.

(** ** Runs of the daemon with IPCP *)

(** A step of the daemon, the expiry of IPCP's timer, or what the remaining
    protocols do by themselves. *)
Inductive ppp_step : W -> W -> Prop :=
  | ps_link w w' : link_step cfg ac cc magic table w w' -> ppp_step w w'
  | ps_ipcp_timer w : ppp_step w (timeout (UNTIMEOUT (HW := IW) w))
  | ps_more w w' : apart w w' -> ppp_step w w'.

Inductive ppp_reachable : W -> Prop :=
  | pr_start w : daemon_start w -> down_state ic (w_ipcp w) -> ppp_reachable w
  | pr_step w w' : ppp_reachable w -> ppp_step w w' -> ppp_reachable w'.

Lemma ppp_step_kept P {HP : IpStable P} w w' : ppp_step w w' -> P w -> P w'.
Proof.
  intros [w1 w2 Hl|w1|w1 w2 Ha] Hw.
  - by eapply (link_step_net cfg ac cc magic table P).
  - apply (ipcp_timeout_kept P). by apply (ips_same w1).
  - by eapply (apart_kept P).
Qed.

(** Each is a run of the daemon over the interface of the network protocols. *)
Lemma ppp_step_run w w' : ppp_step w w' -> rtc (daemon_step cfg ac cc magic table) w w'.
Proof.
  assert (Hrun : forall w1 w2, rtc (net_step ac cc magic table) w1 w2 -> rtc (daemon_step cfg ac cc magic table) w1 w2).
  { induction 1; [done|]. eapply rtc_l; [by apply ds_net|done]. }
  intros [w1 w2 Hl|w1|w1 w2 [Hc _]].
  - by apply rtc_once, ds_link.
  - apply Hrun. eapply rtc_l; [|apply timeout_net_run]. apply net_calm, calm_link.
    intros l t Ht. by apply pending_untimeout_ne.
  - apply Hrun. by apply net_run_calm.
Qed.

Lemma ppp_daemon_reachable w : ppp_reachable w -> daemon_reachable cfg ac cc magic table w.
Proof.
  induction 1 as [w Hs _|w w' _ IH Hs]; [by apply dr_start|]. apply ppp_step_run in Hs.
  clear -IH Hs. induction Hs as [|w1 w2 w3 H12 _ IH2]; [done|]. apply IH2. by eapply dr_step.
Qed.

(** ** The interface *)

Abbreviation ip_gate := (gate (HW := IW) (ip_off ic) (ip_on ic)).
Abbreviation link_cbs := (ipcp_link_callbacks (HN := ipcp_events ac) ic).

#[local] Instance ip_gate_stable : IpStable ip_gate.
Proof.
  split.
  - intros w w' He. unfold gate, ip_off, ip_on. cbn [w_fsm ipcp_fsm_world]. by rewrite He.
  - exact (gate_lowerup (HW := IW) link_cbs (ip_traced ic) (ip_off ic) (ip_on ic)).
  - exact (gate_lowerdown (HW := IW) link_cbs (ip_traced ic) (ip_off ic) (ip_on ic)).
  - exact (gate_open (HW := IW) link_cbs (ip_traced ic) (ip_off ic) (ip_on ic)).
  - intros reason w Hw. left.
    exact (gate_close (HW := IW) link_cbs (ip_traced ic) (ip_off ic) (ip_on ic) (Some reason) w Hw).
  - exact (gate_input (HW := IW) (without_finished cbs) (ip_traced ic) (ip_off ic) (ip_on ic)).
  - exact (gate_timeout (HW := IW) (without_finished cbs) (ip_traced ic) (ip_off ic) (ip_on ic)).
Qed.

Lemma reachable_gate w : ppp_reachable w -> ip_gate w.
Proof.
  induction 1 as [w _ Hd|w w' _ IH Hs]; [by left|]. by eapply (ppp_step_kept ip_gate).
Qed.

(** C34: no IP before authentication.  Over every run of the daemon, whatever
    packets arrive: while the interface passes IP packets, IPCP is open, LCP is
    open, nothing is outstanding and every authentication that was agreed on has
    succeeded; both ends of the link have an address, and the peer's is none of
    those the daemon refuses.  For the interface it takes that of the two system
    calls, one after the other, that turn it off one succeeds (all calls, when
    dialling on demand); while the daemon takes the interface to be up, it holds
    whatever the system calls answer. *)
Theorem daemon_ip_needs_auth w :
  0 <= lcp_echo_fails cfg -> ppp_reachable w ->
  (silences ic /\ ni_npmode (ip_netif (w_ipcp w)) = NPMODE_PASS) \/ ipcp_is_up (w_ipcp w) = true ->
  state (ip_fsm (w_ipcp w)) = OPENED /\ authenticated w /\
  ouraddr (ip_got (w_ipcp w)) <> 0 /\ hisaddr (ip_his (w_ipcp w)) <> 0 /\
  bad_ip_adrs (hisaddr (ip_his (w_ipcp w))) = false.
Proof.
  intros Hf Hr Hu. destruct (reachable_gate w Hr) as [(Hn & Hm & _)|[Hs Hon]].
  { destruct Hu as [[Hq Hp]|Hu]; [by destruct (Hm Hq)|congruence]. }
  pose proof (reachable_guarded cfg ac cc magic table Hf w (ppp_daemon_reachable w Hr)) as Hg.
  apply guarded_busy in Hg; [|intros [[Hx|Hx] _]; simpl in *; congruence].
  destruct Hon as (Ho & Hh & Ha & _). apply negb_true_iff in Ha.
  split_and!; try done; by apply clear_authenticated.
Qed.

(** C35: nothing points to a peer that is not there.  Over every run of a
    daemon that does not dial on demand: while it has asked the kernel for a
    default route and not yet asked for its removal - and, when no system call
    fails, while the kernel has its default route or its proxy ARP entry - IPCP
    is open, the interface is up and has both addresses, and route and entry
    lead to the address agreed on for the peer. *)
Theorem daemon_routes_lead_to_peer w :
  demand ic = false -> ppp_reachable w ->
  let s := w_ipcp w in
  let n := ip_netif s in
  let his := hisaddr (ip_his s) in
  default_route_gateway n <> 0 \/ (obeys ic /\ (ni_route n <> 0 \/ proxy_arp_addr n <> 0)) ->
  state (ip_fsm s) = OPENED /\ if_is_up n = true /\ ifaddrs n = (ouraddr (ip_got s), his) /\
  (default_route_gateway n <> 0 -> default_route_gateway n = his) /\
  (obeys ic -> (ni_route n <> 0 -> ni_route n = his) /\ (proxy_arp_addr n <> 0 -> proxy_arp_addr n = his)).
Proof.
  intros Hd Hr s n his Hset. destruct (reachable_gate w Hr) as [(_ & _ & Hn)|[Hs Hon]].
  - destruct (Hn Hd) as (_ & _ & Hg & Ho). destruct Hset as [|[Hc [|]]]; [done|by destruct (Ho Hc)..].
  - destruct Hon as (_ & _ & _ & Hc). destruct (Hc Hd) as (Hu & Ha & (Ht & Ho) & Hg & Hp & Hx).
    split_and!; try done; [intros Hy; by apply Hg, Ht|].
    intros Hq. destruct (Ho Hq) as [_ H2]. split; [intros Hy; by destruct (Hx Hq)|].
    intros Hy. by apply Hp, H2.
Qed.
End DaemonIpcp.
