(* ===== verification/CcpOptions.v ===== *)
(** * CCP options: requests and the answers to them

    The compression methods the daemon asks for ([ccp.c], [ccp.h],
    [ppp_comp.h]): what it resets to, the request it writes while the kernel is
    asked for each method, and the parsers of the peer's Ack, Nak and Reject.
    The kernel's answers to the test of a method, one after the other, are a
    parameter. *)

From S2P Require Import Prelude Wire Fsm LcpOptions.

(** ** Constants *)

Definition CI_PREDICTOR_1 := 1.
Definition CI_PREDICTOR_2 := 2.
Definition CI_BSD_COMPRESS := 21.
Definition CI_DEFLATE := 26.
Definition CI_DEFLATE_DRAFT := 24.

Definition CILEN_PREDICTOR_1 := 2.
Definition CILEN_PREDICTOR_2 := 2.
Definition CILEN_BSD_COMPRESS := 3.
Definition CILEN_DEFLATE := 4.

Definition BSD_NBITS (x : Z) : Z := Z.land x 31.
Definition BSD_VERSION (x : Z) : Z := Z.shiftr x 5.
Definition BSD_CURRENT_VERSION := 1.
Definition BSD_MAKE_OPT (v n : Z) : Z := Z.lor (Z.shiftl v 5) n.
Definition BSD_MIN_BITS := 9.
Definition BSD_MAX_BITS := 15.

Definition DEFLATE_MIN_SIZE := 8.
Definition DEFLATE_MAX_SIZE := 15.
Definition DEFLATE_METHOD_VAL := 8.
Definition DEFLATE_SIZE (x : Z) : Z := Z.shiftr x 4 + DEFLATE_MIN_SIZE.
Definition DEFLATE_METHOD (x : Z) : Z := Z.land x 15.
Definition DEFLATE_MAKE_OPT (w : Z) : Z := Z.shiftl (w - DEFLATE_MIN_SIZE) 4 + DEFLATE_METHOD_VAL.
Definition DEFLATE_CHK_SEQUENCE := 0.

(** ** Options *)

Record ccp_options := CcpOptions {
  bsd_compress : bool;
  deflate : bool;
  predictor_1 : bool;
  predictor_2 : bool;
  deflate_correct : bool;
  deflate_draft : bool;
  bsd_bits : Z;
  deflate_size : Z;
  method : Z
}.

Definition set_bsd_compress v (o : ccp_options) : ccp_options :=
  CcpOptions v (deflate o) (predictor_1 o) (predictor_2 o) (deflate_correct o) (deflate_draft o)
    (bsd_bits o) (deflate_size o) (method o).
Definition set_deflate v (o : ccp_options) : ccp_options :=
  CcpOptions (bsd_compress o) v (predictor_1 o) (predictor_2 o) (deflate_correct o) (deflate_draft o)
    (bsd_bits o) (deflate_size o) (method o).
Definition set_predictor_1 v (o : ccp_options) : ccp_options :=
  CcpOptions (bsd_compress o) (deflate o) v (predictor_2 o) (deflate_correct o) (deflate_draft o)
    (bsd_bits o) (deflate_size o) (method o).
Definition set_predictor_2 v (o : ccp_options) : ccp_options :=
  CcpOptions (bsd_compress o) (deflate o) (predictor_1 o) v (deflate_correct o) (deflate_draft o)
    (bsd_bits o) (deflate_size o) (method o).
Definition set_deflate_correct v (o : ccp_options) : ccp_options :=
  CcpOptions (bsd_compress o) (deflate o) (predictor_1 o) (predictor_2 o) v (deflate_draft o)
    (bsd_bits o) (deflate_size o) (method o).
Definition set_deflate_draft v (o : ccp_options) : ccp_options :=
  CcpOptions (bsd_compress o) (deflate o) (predictor_1 o) (predictor_2 o) (deflate_correct o) v
    (bsd_bits o) (deflate_size o) (method o).
Definition set_bsd_bits v (o : ccp_options) : ccp_options :=
  CcpOptions (bsd_compress o) (deflate o) (predictor_1 o) (predictor_2 o) (deflate_correct o) (deflate_draft o)
    v (deflate_size o) (method o).
Definition set_deflate_size v (o : ccp_options) : ccp_options :=
  CcpOptions (bsd_compress o) (deflate o) (predictor_1 o) (predictor_2 o) (deflate_correct o) (deflate_draft o)
    (bsd_bits o) v (method o).
Definition set_method v (o : ccp_options) : ccp_options :=
  CcpOptions (bsd_compress o) (deflate o) (predictor_1 o) (predictor_2 o) (deflate_correct o) (deflate_draft o)
    (bsd_bits o) (deflate_size o) v.

(** [memset] of an option record, and what [ccp_init] leaves. *)
Definition no_ccp_options : ccp_options := CcpOptions false false false false false false 0 0 0.
Definition ccp_want_init : ccp_options :=
  CcpOptions true true false false true true BSD_MAX_BITS DEFLATE_MAX_SIZE 0.
Definition ccp_allow_init : ccp_options := set_predictor_1 true ccp_want_init.

(** Do we want, did we get any compression? *)
Definition ANY_COMPRESS (o : ccp_options) : bool := deflate o || bsd_compress o || predictor_1 o || predictor_2 o.

(** The options as they stand in packets. *)
Definition deflate_option (code size : Z) : bytes :=
  [code; CILEN_DEFLATE; DEFLATE_MAKE_OPT size; DEFLATE_CHK_SEQUENCE].
Definition bsd_option (bits : Z) : bytes :=
  [CI_BSD_COMPRESS; CILEN_BSD_COMPRESS; BSD_MAKE_OPT BSD_CURRENT_VERSION bits].
Definition predictor_1_option : bytes := [CI_PREDICTOR_1; CILEN_PREDICTOR_1].
Definition predictor_2_option : bytes := [CI_PREDICTOR_2; CILEN_PREDICTOR_2].

(** The code of the first Deflate option of a request. *)
Definition deflate_code (go : ccp_options) : Z := if deflate_correct go then CI_DEFLATE else CI_DEFLATE_DRAFT.

(** ** The kernel *)

(** The outcome of [PPPIOCSCOMPRESS]: the method is taken, there are no buffers
    for it, any other error. *)
Inductive compress_outcome := CO_taken | CO_nobufs | CO_error.

Section Kernel.
(** The [n]-th outcome, of an option for receiving or transmitting. *)
Context (kernel : nat -> bytes -> bool -> compress_outcome).

Definition ccp_test (n : nat) (opt : bytes) (for_transmit : bool) : Z :=
  match kernel n opt for_transmit with CO_taken => 1 | CO_nobufs => 0 | CO_error => -1 end.

(** ** Our options *)

(** [if (ccp_test(...) <= 0) clear] *)
Definition try_method (opt : bytes) (clear : ccp_options -> ccp_options) (st : ccp_options * nat)
    : ccp_options * nat :=
  let '(go, n) := st in (if ccp_test n opt false <=? 0 then clear go else go, S n).

Definition when (b : bool) {A} (f : A -> A) (a : A) : A := if b then f a else a.

Definition ccp_reset (wo : ccp_options) (n : nat) : ccp_options * nat :=
  let st := (wo, n) in
  let st := when (bsd_compress st.1) (try_method (bsd_option BSD_MIN_BITS) (set_bsd_compress false)) st in
  let st :=
    if deflate st.1 then
      let st := when (deflate_correct st.1)
                  (try_method (deflate_option CI_DEFLATE DEFLATE_MIN_SIZE) (set_deflate_correct false)) st in
      let st := when (deflate_draft st.1)
                  (try_method (deflate_option CI_DEFLATE_DRAFT DEFLATE_MIN_SIZE) (set_deflate_draft false)) st in
      if negb (deflate_correct st.1) && negb (deflate_draft st.1) then (set_deflate false st.1, st.2) else st
    else st in
  let st := when (predictor_1 st.1) (try_method predictor_1_option (set_predictor_1 false)) st in
  when (predictor_2 st.1) (try_method predictor_2_option (set_predictor_2 false)) st.

Definition ccp_cilen (go : ccp_options) : Z :=
  (if bsd_compress go then CILEN_BSD_COMPRESS else 0) + (if deflate go then CILEN_DEFLATE else 0)
  + (if predictor_1 go then CILEN_PREDICTOR_1 else 0) + (if predictor_2 go then CILEN_PREDICTOR_2 else 0).

(** The locals of [ccp_addci]: the bytes written from [p0] on, [p - p0]. *)
Record ccp_add := CcpAdd { ca_out : bytes; ca_p : nat; ca_go : ccp_options; ca_n : nat }.

(** Stores at [p] and behind it. *)
Definition write_at (off : nat) (bs out : bytes) : bytes :=
  take off out ++ map u8 bs ++ drop (off + length bs) out.
Definition ca_write (bs : bytes) (s : ccp_add) : ccp_add :=
  CcpAdd (write_at (ca_p s) bs (ca_out s)) (ca_p s) (ca_go s) (ca_n s).
Definition ca_step (k : Z) (s : ccp_add) : ccp_add :=
  CcpAdd (ca_out s) (ca_p s + Z.to_nat k) (ca_go s) (ca_n s).
Definition ca_drop (clear : ccp_options -> ccp_options) (s : ccp_add) : ccp_add :=
  CcpAdd (ca_out s) (ca_p s) (clear (ca_go s)) (ca_n s).

(** [ccp_test] of the option at [p], for receiving. *)
Definition ca_test (k : Z) (s : ccp_add) : Z * ccp_add :=
  (ccp_test (ca_n s) (take (Z.to_nat k) (drop (ca_p s) (ca_out s))) false,
   CcpAdd (ca_out s) (ca_p s) (ca_go s) (S (ca_n s))).

(** The loops that shrink an option until the kernel takes it.  [k] passes are
    left; with [k] the distance to the minimum the last of them leaves. *)
Fixpoint shrink_option (k : nat) (clen min : Z) (size : ccp_options -> Z) (set_size : Z -> ccp_options -> ccp_options)
    (make : Z -> Z) (clear : ccp_options -> ccp_options) (s : ccp_add) : ccp_add :=
  let '(res, s) := ca_test clen s in
  if 0 <? res then ca_step clen s
  else if (res <? 0) || (size (ca_go s) <=? min) then ca_drop clear s
  else
    match k with
    | O => ca_drop clear s
    | S k =>
        let go := set_size (size (ca_go s) - 1) (ca_go s) in
        shrink_option k clen min size set_size make clear
          (CcpAdd (write_at (ca_p s + 2) [make (size go)] (ca_out s)) (ca_p s) go (ca_n s))
    end.

Definition add_deflate (s : ccp_add) : ccp_add :=
  let go := ca_go s in
  if deflate go then
    let s := ca_write (deflate_option (deflate_code go) (deflate_size go)) s in
    let s := shrink_option (Z.to_nat (deflate_size go - DEFLATE_MIN_SIZE)) CILEN_DEFLATE DEFLATE_MIN_SIZE
               deflate_size set_deflate_size DEFLATE_MAKE_OPT (set_deflate false) s in
    let go := ca_go s in
    if negb (ca_p s =? 0)%nat && deflate_correct go && deflate_draft go then
      ca_step CILEN_DEFLATE
        (ca_write [CI_DEFLATE_DRAFT; CILEN_DEFLATE; nth (ca_p s - 2) (ca_out s) 0; DEFLATE_CHK_SEQUENCE] s)
    else s
  else s.

Definition add_bsd (s : ccp_add) : ccp_add :=
  let go := ca_go s in
  if bsd_compress go then
    let s := ca_write (bsd_option (bsd_bits go)) s in
    if negb (ca_p s =? 0)%nat then ca_step CILEN_BSD_COMPRESS s
    else shrink_option (Z.to_nat (bsd_bits go - BSD_MIN_BITS)) CILEN_BSD_COMPRESS BSD_MIN_BITS
           bsd_bits set_bsd_bits (BSD_MAKE_OPT BSD_CURRENT_VERSION) (set_bsd_compress false) s
  else s.

(** [p == p0 && ccp_test(...) <= 0] *)
Definition add_predictor (neg : bool) (opt : bytes) (clear : ccp_options -> ccp_options) (s : ccp_add) : ccp_add :=
  if neg then
    let s := ca_write opt s in
    if (ca_p s =? 0)%nat then
      let '(res, s) := ca_test (Z.of_nat (length opt)) s in
      if res <=? 0 then ca_drop clear s else ca_step (Z.of_nat (length opt)) s
    else ca_step (Z.of_nat (length opt)) s
  else s.

(** The bytes written, the length of the request, our options. *)
Definition ccp_addci (go : ccp_options) (n : nat) : bytes * Z * ccp_options * nat :=
  let s := add_bsd (add_deflate (CcpAdd [] 0 go n)) in
  let s := add_predictor (predictor_1 (ca_go s)) predictor_1_option (set_predictor_1 false) s in
  let s := add_predictor (predictor_2 (ca_go s)) predictor_2_option (set_predictor_2 false) s in
  let m := if (0 <? ca_p s)%nat then nth 0 (ca_out s) 0 else -1 in
  (ca_out s, Z.of_nat (ca_p s), set_method m (ca_go s), ca_n s).
End Kernel.

(** ** Answers to our request *)

(** [p[0] == e0 && p[1] == e1 && ...], evaluated left to right. *)
Fixpoint same_bytes (enc p : bytes) : parse bool :=
  match enc, p with
  | [], _ => Good true
  | e :: enc, c :: p => if c =? e then same_bytes enc p else Good false
  | _ :: _, [] => Oob
  end.

(** An option of [clen] bytes that starts with [enc] is next. *)
Definition next_is (clen : Z) (enc : bytes) (c : cursor) : parse bool :=
  if cu_len c <? clen then Good false else same_bytes enc (cu_p c).

(** [p += clen; len -= clen;] *)
Definition skip (clen : Z) (c : cursor) : cursor := Cursor (drop (Z.to_nat clen) (cu_p c)) (cu_len c - clen).

(** An option that has to be there. *)
Definition expect (enc : bytes) (c : cursor) : parse cursor :=
  b ← next_is (Z.of_nat (length enc)) enc c;
  unless_bad b (Good (skip (Z.of_nat (length enc)) c)).

(** [None]: the packet has been accepted. *)
Definition ack_deflate (go : ccp_options) (c : cursor) : parse (option cursor) :=
  if deflate go then
    c ← expect (deflate_option (deflate_code go) (deflate_size go)) c;
    if cu_len c =? 0 then Good None
    else if deflate_correct go && deflate_draft go
    then c ← expect (deflate_option CI_DEFLATE_DRAFT (deflate_size go)) c; Good (Some c)
    else Good (Some c)
  else Good (Some c).

(** The test [p == p0] behind the other options fails: [p] has moved. *)
Definition ack_plain (neg : bool) (enc : bytes) (c : cursor) : parse cursor :=
  if neg then expect enc c else Good c.

Definition ccp_ackci (go : ccp_options) (p : bytes) (len : Z) : parse () :=
  r ← ack_deflate go (Cursor p len);
  match r with
  | None => Good tt
  | Some c =>
      c ← ack_plain (bsd_compress go) (bsd_option (bsd_bits go)) c;
      c ← ack_plain (predictor_1 go) predictor_1_option c;
      c ← ack_plain (predictor_2 go) predictor_2_option c;
      unless_bad (cu_len c =? 0) (Good tt)
  end.

(** The byte at [p[k]]. *)
Definition byte_at (k : nat) (c : cursor) : parse Z := get (cu_p c !! k).

(** The second Deflate option is skipped. *)
Definition nak_deflate (go try : ccp_options) (c : cursor) : parse (ccp_options * cursor) :=
  if deflate go then
    b ← next_is CILEN_DEFLATE [deflate_code go; CILEN_DEFLATE] c;
    if (b : bool) then
      p2 ← byte_at 2 c;
      p3 ← byte_at 3 c;
      let try :=
        if negb (DEFLATE_METHOD p2 =? DEFLATE_METHOD_VAL) || (DEFLATE_SIZE p2 <? DEFLATE_MIN_SIZE)
           || negb (p3 =? DEFLATE_CHK_SEQUENCE) then set_deflate false try
        else if DEFLATE_SIZE p2 <? deflate_size go then set_deflate_size (DEFLATE_SIZE p2) try else try in
      let c := skip CILEN_DEFLATE c in
      if deflate_correct go && deflate_draft go then
        b ← next_is CILEN_DEFLATE [CI_DEFLATE_DRAFT; CILEN_DEFLATE] c;
        Good (try, if (b : bool) then skip CILEN_DEFLATE c else c)
      else Good (try, c)
    else Good (try, c)
  else Good (try, c).

Definition nak_bsd (go try : ccp_options) (c : cursor) : parse ccp_options :=
  if bsd_compress go then
    b ← next_is CILEN_BSD_COMPRESS [CI_BSD_COMPRESS; CILEN_BSD_COMPRESS] c;
    if (b : bool) then
      p2 ← byte_at 2 c;
      Good (if negb (BSD_VERSION p2 =? BSD_CURRENT_VERSION) then set_bsd_compress false try
            else if BSD_NBITS p2 <? bsd_bits go then set_bsd_bits (BSD_NBITS p2) try else try)
    else Good try
  else Good try.

(** The options to try next; what follows is ignored. *)
Definition ccp_nakci (go : ccp_options) (p : bytes) (len : Z) : parse ccp_options :=
  '(try, c) ← nak_deflate go go (Cursor p len);
  nak_bsd go try c.

(** A rejected Deflate option, whose value must be ours. *)
Definition rej_deflate (go try : ccp_options) (c : cursor) : parse (ccp_options * cursor) :=
  if deflate go then
    b ← next_is CILEN_DEFLATE [deflate_code go; CILEN_DEFLATE] c;
    if (b : bool) then
      c ← expect (deflate_option (deflate_code go) (deflate_size go)) c;
      let try := if deflate_correct go then set_deflate_correct false try else set_deflate_draft false try in
      '(try, c) ←
        (if deflate_correct go && deflate_draft go then
           b ← next_is CILEN_DEFLATE [CI_DEFLATE_DRAFT; CILEN_DEFLATE] c;
           if (b : bool) then
             c ← expect (deflate_option CI_DEFLATE_DRAFT (deflate_size go)) c;
             Good (set_deflate_draft false try, c)
           else Good (try, c)
         else Good (try, c));
      Good (if negb (deflate_correct try) && negb (deflate_draft try) then set_deflate false try else try, c)
    else Good (try, c)
  else Good (try, c).

(** Any other: [hd] of its [clen] bytes say that it is there. *)
Definition rej_plain (neg : bool) (hd : nat) (enc : bytes) (clear : ccp_options -> ccp_options)
    (st : ccp_options * cursor) : parse (ccp_options * cursor) :=
  let '(try, c) := st in
  if neg then
    b ← next_is (Z.of_nat (length enc)) (take hd enc) c;
    if (b : bool) then c ← expect enc c; Good (clear try, c) else Good st
  else Good st.

(** [None] is the answer -1: no further requests. *)
Definition ccp_rejci (all_rejected : bool) (go : ccp_options) (p : bytes) (len : Z) : parse (option ccp_options) :=
  if (len =? 0) && all_rejected then Good None else
  st ← rej_deflate go go (Cursor p len);
  st ← rej_plain (bsd_compress go) 2 (bsd_option (bsd_bits go)) (set_bsd_compress false) st;
  st ← rej_plain (predictor_1 go) 2 predictor_1_option (set_predictor_1 false) st;
  st ← rej_plain (predictor_2 go) 2 predictor_2_option (set_predictor_2 false) st;
  unless_bad (cu_len st.2 =? 0) (Good (Some st.1)).
