(* ===== verification/CcpReqci.v ===== *)
(** * CCP options: the peer's Configure-Request

    [ccp_reqci] judges the methods the peer wants to use one by one, in place.
    The first of them is put to the kernel, whose transmit side is set up by the
    test; where the kernel has no buffers for it the loop behind the test asks
    for less. *)

From S2P Require Import Prelude Wire Fsm LcpOptions LcpReqci CcpOptions.

(** What judging an option leaves: the verdict, the buffer, the options of the
    peer, the calls of the kernel, and whether a loop did not end. *)
Record ccp_ci := CcpCi { cj_ret : Z; cj_buf : bytes; cj_ho : ccp_options; cj_n : nat; cj_hung : bool }.

Section Reqci.
Context (kernel : nat -> bytes -> bool -> compress_outcome).
(** The passes of the loops we follow beyond the distance to the minimum. *)
Context (patience : nat).
Context (ao : ccp_options) (dont_nak : bool).

(** A byte stored at [off]. *)
Definition poke (buf : bytes) (off : nat) (v : Z) : bytes := take off buf ++ [u8 v] ++ drop (S off) buf.

(** [for (;;) { res = ccp_test(...); ... }]: the size [nb] is decremented until
    the kernel takes the option, refuses it, or the minimum is reached; [back]
    is the value put back with a rejection.  [None]: the passes are used up. *)
Fixpoint fit_option (k : nat) (clen min : Z) (make : Z -> Z) (back : Z) (p : nat) (nb newret : Z) (buf : bytes) (n : nat)
    : option (Z * bytes * nat) :=
  let res := ccp_test kernel n (take (Z.to_nat clen) (drop p buf)) true in
  if 0 <? res then Some (newret, buf, S n)
  else if (res <? 0) || (nb =? min) || dont_nak then Some (CONFREJ, poke buf (p + 2) (make back), S n)
  else
    match k with
    | O => None
    | S k => fit_option k clen min make back p (nb - 1) CONFNAK (poke buf (p + 2) (make (nb - 1))) (S n)
    end.

(** The loop, of the first option only. *)
Definition fit_first (clen min : Z) (make : Z -> Z) (nb : Z) (p : nat) (newret : Z) (buf : bytes) (ho : ccp_options) (n : nat)
    : ccp_ci :=
  if (p =? 0)%nat then
    match fit_option (patience + S (Z.to_nat (nb - min))) clen min make nb p nb newret buf n with
    | Some (newret, buf, n) => CcpCi newret buf ho n false
    | None => CcpCi newret buf ho n true
    end
  else CcpCi newret buf ho n false.

Definition judge_deflate (type clen : Z) (p : nat) (buf : bytes) (ho : ccp_options) (n : nat) : parse ccp_ci :=
  if negb (deflate ao) || negb (clen =? CILEN_DEFLATE)
     || (negb (deflate_correct ao) && (type =? CI_DEFLATE)) || (negb (deflate_draft ao) && (type =? CI_DEFLATE_DRAFT))
  then Good (CcpCi CONFREJ buf ho n false) else
  p2 ← get (buf !! (p + 2)%nat);
  p3 ← get (buf !! (p + 3)%nat);
  let nb := DEFLATE_SIZE p2 in
  let ho := set_deflate_size nb (set_deflate true ho) in
  if negb (DEFLATE_METHOD p2 =? DEFLATE_METHOD_VAL) || negb (p3 =? DEFLATE_CHK_SEQUENCE)
     || (deflate_size ao <? nb) || (nb <? DEFLATE_MIN_SIZE) then
    if dont_nak then Good (CcpCi CONFNAK buf ho n false)
    else
      let buf := poke (poke buf (p + 2) (DEFLATE_MAKE_OPT (deflate_size ao))) (p + 3) DEFLATE_CHK_SEQUENCE in
      Good (fit_first CILEN_DEFLATE DEFLATE_MIN_SIZE DEFLATE_MAKE_OPT nb p CONFNAK buf ho n)
  else Good (fit_first CILEN_DEFLATE DEFLATE_MIN_SIZE DEFLATE_MAKE_OPT nb p CONFACK buf ho n).

Definition judge_bsd (clen : Z) (p : nat) (buf : bytes) (ho : ccp_options) (n : nat) : parse ccp_ci :=
  if negb (bsd_compress ao) || negb (clen =? CILEN_BSD_COMPRESS) then Good (CcpCi CONFREJ buf ho n false) else
  p2 ← get (buf !! (p + 2)%nat);
  let nb := BSD_NBITS p2 in
  let ho := set_bsd_bits nb (set_bsd_compress true ho) in
  let make := BSD_MAKE_OPT BSD_CURRENT_VERSION in
  if negb (BSD_VERSION p2 =? BSD_CURRENT_VERSION) || (bsd_bits ao <? nb) || (nb <? BSD_MIN_BITS) then
    if dont_nak then Good (CcpCi CONFNAK buf ho n false)
    else Good (fit_first CILEN_BSD_COMPRESS BSD_MIN_BITS make nb p CONFNAK (poke buf (p + 2) (make (bsd_bits ao))) ho n)
  else Good (fit_first CILEN_BSD_COMPRESS BSD_MIN_BITS make nb p CONFACK buf ho n).

Definition judge_predictor (allowed : bool) (clen cilen : Z) (mark : ccp_options -> ccp_options) (p : nat) (buf : bytes)
    (ho : ccp_options) (n : nat) : parse ccp_ci :=
  if negb allowed || negb (clen =? cilen) then Good (CcpCi CONFREJ buf ho n false)
  else if (p =? 0)%nat then
    Good (CcpCi (if ccp_test kernel n (take (Z.to_nat cilen) (drop p buf)) true <=? 0 then CONFREJ else CONFACK)
            buf (mark ho) (S n) false)
  else Good (CcpCi CONFACK buf (mark ho) n false).

(** [switch (type)] *)
Definition judge_option (type clen : Z) (p : nat) (buf : bytes) (ho : ccp_options) (n : nat) : parse ccp_ci :=
  if (type =? CI_DEFLATE) || (type =? CI_DEFLATE_DRAFT) then judge_deflate type clen p buf ho n
  else if type =? CI_BSD_COMPRESS then judge_bsd clen p buf ho n
  else if type =? CI_PREDICTOR_1 then
    judge_predictor (predictor_1 ao) clen CILEN_PREDICTOR_1 (set_predictor_1 true) p buf ho n
  else if type =? CI_PREDICTOR_2 then
    judge_predictor (predictor_2 ao) clen CILEN_PREDICTOR_2 (set_predictor_2 true) p buf ho n
  else Good (CcpCi CONFREJ buf ho n false).

(** The locals of [ccp_reqci]: the buffer from [p0] on, [p - p0], [retp - p0],
    [ret], [len], besides what judging an option changes; and whether a copy
    inside the buffer has been undefined. *)
Record ccp_req := CcpReq {
  cr_buf : bytes; cr_p : nat; cr_retp : nat; cr_ret : Z; cr_len : Z; cr_ho : ccp_options; cr_n : nat; cr_hung : bool;
  cr_overlap : bool
}.

(** The end of a pass: the option is returned, or it is not. *)
Definition return_option (clen newret : Z) (st : ccp_req) : ccp_req :=
  let newret := if (newret =? CONFNAK) && dont_nak then CONFREJ else newret in
  let ret := cr_ret st in
  let clen' := Z.to_nat clen in
  let '(buf, retp, ret, undefined) :=
    if negb ((newret =? CONFACK) || ((newret =? CONFNAK) && (ret =? CONFREJ))) then
      let retp := if (newret =? CONFREJ) && (ret =? CONFNAK) then 0%nat else cr_retp st in
      (if (cr_p st =? retp)%nat then cr_buf st else BCOPY (cr_buf st) (cr_p st) retp clen', (retp + clen')%nat, newret,
       negb (cr_p st =? retp)%nat && overlap (cr_p st) retp clen')
    else (cr_buf st, cr_retp st, ret, false) in
  CcpReq buf (cr_p st + clen') retp ret (cr_len st - clen) (cr_ho st) (cr_n st) (cr_hung st) (cr_overlap st || undefined).

(** One pass of the loop. *)
Definition judge_pass (st : ccp_req) : parse ccp_req :=
  let len := cr_len st in
  let bad_length := Good (return_option len CONFREJ st) in
  if len <? 2 then bad_length else
  match drop (cr_p st) (cr_buf st) with
  | type :: clen :: _ =>
      if (clen <? 2) || (len <? clen) then bad_length else
      r ← judge_option type clen (cr_p st) (cr_buf st) (cr_ho st) (cr_n st);
      let st := CcpReq (cj_buf r) (cr_p st) (cr_retp st) (cr_ret st) len (cj_ho r) (cj_n r) (cj_hung r) (cr_overlap st) in
      Good (if cj_hung r then st else return_option clen (cj_ret r) st)
  | _ => Oob
  end.

(** [while (len > 0)]: every pass takes a byte at least. *)
Fixpoint judge_loop (fuel : nat) (st : ccp_req) : parse ccp_req :=
  match fuel with
  | O => Good st
  | S fuel => if (cr_len st <=? 0) || cr_hung st then Good st else st ← judge_pass st; judge_loop fuel st
  end.

(** The verdict, what is at [p0], the value left in [*lenp], whether all of the
    request was rejected, the peer's options, the calls of the kernel, and
    whether a loop did not end, and whether a copy was undefined. *)
Record ccp_reply := CcpReply {
  cy_ret : Z; cy_buf : bytes; cy_len : Z; cy_rejected : bool; cy_ho : ccp_options; cy_n : nat; cy_hung : bool;
  cy_overlap : bool
}.

Definition ccp_finish (lenp : Z) (st : ccp_req) : ccp_reply :=
  let retlen := Z.of_nat (cr_retp st) in
  let '(len, rejected) :=
    if negb (cr_ret st =? CONFACK) then
      if (cr_ret st =? CONFREJ) && (lenp =? retlen) then (lenp, true) else (retlen, false)
    else (lenp, false) in
  CcpReply (cr_ret st) (cr_buf st) len rejected (cr_ho st) (cr_n st) (cr_hung st) (cr_overlap st).

Definition ccp_reqci (inp : bytes) (len : Z) (n : nat) : parse ccp_reply :=
  m ← (if 0 <? len then get (inp !! 0%nat) else Good (-1));
  st ← judge_loop (Z.to_nat len) (CcpReq inp 0 0 CONFACK len (set_method m no_ccp_options) n false false);
  Good (ccp_finish len st).
End Reqci.
