(* ===== verification/CcpSpec.v ===== *)
(** * CCP: our request and the answers to it

    The request [ccp_addci] writes, whatever the kernel answers to the tests on
    the way, and the exact set of packets that are taken for its Ack. *)

From S2P Require Import Prelude Wire Fsm LcpOptions LcpReqci CcpOptions.

(** The request for a set of options. *)
Definition ask (neg : bool) (enc : bytes) : bytes := if neg then enc else [].
Definition ccp_request (go : ccp_options) : bytes :=
  ask (deflate go) (deflate_option (deflate_code go) (deflate_size go))
  ++ ask (deflate go && deflate_correct go && deflate_draft go) (deflate_option CI_DEFLATE_DRAFT (deflate_size go))
  ++ ask (bsd_compress go) (bsd_option (bsd_bits go))
  ++ ask (predictor_1 go) predictor_1_option ++ ask (predictor_2 go) predictor_2_option.

(** Sizes that an option has room for. *)
Record ccp_sizes_ok (go : ccp_options) : Prop := {
  size_ok : DEFLATE_MIN_SIZE <= deflate_size go <= DEFLATE_MAX_SIZE;
  bits_ok : 0 <= bsd_bits go <= BSD_MAX_BITS
}.

Lemma make_deflate_ok w : DEFLATE_MIN_SIZE <= w <= DEFLATE_MAX_SIZE -> byte_ok (DEFLATE_MAKE_OPT w).
Proof.
  unfold DEFLATE_MAKE_OPT, DEFLATE_MIN_SIZE, DEFLATE_MAX_SIZE, DEFLATE_METHOD_VAL, byte_ok. intros Hw.
  rewrite Z.shiftl_mul_pow2 //. lia.
Qed.

Lemma make_bsd_small n : 0 <= n < 32 -> BSD_MAKE_OPT BSD_CURRENT_VERSION n = 32 + n.
Proof. intros Hn. unfold BSD_MAKE_OPT, BSD_CURRENT_VERSION. rewrite lor_shiftl_add; simpl; lia. Qed.

Lemma make_bsd_ok n : 0 <= n < 32 -> byte_ok (BSD_MAKE_OPT BSD_CURRENT_VERSION n).
Proof. intros Hn. rewrite make_bsd_small //. unfold byte_ok. lia. Qed.

Lemma u8_bytes bs : Forall byte_ok bs -> map u8 bs = bs.
Proof.
  induction 1 as [|b bs Hb _ IH]; [done|]. simpl. rewrite IH. f_equal. by apply wrap_small.
Qed.

Lemma deflate_option_ok code w :
  byte_ok code -> DEFLATE_MIN_SIZE <= w <= DEFLATE_MAX_SIZE -> Forall byte_ok (deflate_option code w).
Proof. intros Hc Hw. apply Forall_cons_2; [done|]. apply Forall_cons_2; [done|].
  apply Forall_cons_2; [by apply make_deflate_ok|]. by apply Forall_cons_2. Qed.

Lemma bsd_option_ok n : 0 <= n < 32 -> Forall byte_ok (bsd_option n).
Proof. intros Hn. do 2 (apply Forall_cons_2; [done|]). apply Forall_cons_2; [by apply make_bsd_ok|done]. Qed.

Lemma deflate_code_ok go : byte_ok (deflate_code go).
Proof. unfold deflate_code. by destruct (deflate_correct go). Qed.

Lemma length_ask neg enc : length (ask neg enc) = if neg then length enc else 0%nat.
Proof. by destruct neg. Qed.

(** ** Writing the request *)

Section Addci.
Context (kernel : nat -> bytes -> bool -> compress_outcome).

(** [e] has been written, and [bs] behind [p]. *)
Definition pending_at (e bs : bytes) (s : ccp_add) : Prop :=
  ca_p s = length e /\ exists junk, ca_out s = e ++ bs ++ junk.

Lemma write_app e bs out :
  Forall byte_ok bs -> exists junk, write_at (length e) bs (e ++ out) = e ++ bs ++ junk.
Proof.
  intros Hb. unfold write_at. rewrite take_app_length u8_bytes //. by eexists.
Qed.

Lemma pending_write e bs s : Forall byte_ok bs -> pending_at e [] s -> pending_at e bs (ca_write bs s).
Proof.
  intros Hb [Hp [junk Ho]]. split; [done|]. simpl. rewrite Hp Ho. by apply write_app.
Qed.

Lemma pending_step e bs s k : k = Z.of_nat (length bs) -> pending_at e bs s -> pending_at (e ++ bs) [] (ca_step k s).
Proof.
  intros -> [Hp [junk Ho]]. split; [cbn; rewrite Hp length_app Nat2Z.id; lia|]. exists junk. cbn. by rewrite Ho -app_assoc.
Qed.

Lemma pending_drop e bs clear s : pending_at e bs s -> pending_at e [] (ca_drop clear s).
Proof. intros [Hp [junk Ho]]. split; [done|]. exists (bs ++ junk). by rewrite Ho. Qed.

Lemma pending_forget e bs s : pending_at e bs s -> pending_at e [] s.
Proof. intros [Hp [junk Ho]]. split; [done|]. exists (bs ++ junk). by rewrite Ho. Qed.

Lemma write_value e a b v v' tl junk :
  byte_ok v' -> write_at (length e + 2) [v'] (e ++ (a :: b :: v :: tl) ++ junk) = e ++ (a :: b :: v' :: tl) ++ junk.
Proof.
  intros Hv. unfold write_at. cbn [length map]. replace (length e + 2 + 1)%nat with (length e + 3)%nat by lia.
  rewrite take_app_add drop_app_add. cbn. rewrite -app_assoc. cbn. do 4 f_equal. by apply wrap_small.
Qed.

(** A loop that shrinks an option ends with an option that stands there, or with
    none and the option cleared. *)
Section Shrink.
Context (size : ccp_options -> Z) (set_size : Z -> ccp_options -> ccp_options) (clear : ccp_options -> ccp_options).
Context (a b min max : Z) (make : Z -> Z) (tl : bytes).
Hypothesis size_set : forall v go, size (set_size v go) = v.
Hypothesis set_set : forall v v' go, set_size v (set_size v' go) = set_size v go.
Hypothesis set_same : forall go, set_size (size go) go = go.
Hypothesis make_ok : forall v, v <= max -> min <= v -> byte_ok (make v).

Definition shrunk (e : bytes) (go : ccp_options) (s : ccp_add) : Prop :=
  exists v, Z.min min (size go) <= v <= size go /\
    ((ca_go s = set_size v go /\ pending_at (e ++ a :: b :: make v :: tl) [] s) \/
     (ca_go s = clear (set_size v go) /\ pending_at e [] s)).

Lemma shrink_shrunk k e s :
  size (ca_go s) <= max -> pending_at e (a :: b :: make (size (ca_go s)) :: tl) s ->
  shrunk e (ca_go s) (shrink_option kernel k (Z.of_nat (3 + length tl)) min size set_size make clear s).
Proof.
  revert s. induction k as [|k IH]; intros s Hm Hp; cbn [shrink_option]; unfold ca_test;
    set (s1 := CcpAdd _ _ _ _); set (res := ccp_test _ _ _ _);
    (assert (Hp1 : pending_at e (a :: b :: make (size (ca_go s)) :: tl) s1) by exact Hp).
  all: destruct (0 <? res).
  1,3: exists (size (ca_go s)); split; [lia|]; left; rewrite set_same; split; [done|]; by apply pending_step.
  all: assert (Hd : shrunk e (ca_go s) (ca_drop clear s1)) by
    (exists (size (ca_go s)); split; [lia|]; right; rewrite set_same; split; [done|]; by eapply pending_drop).
  all: destruct (Z.leb_spec (size (ca_go s1)) min) as [Hmin|Hmin]; rewrite ?orb_true_r ?orb_false_r; [done|].
  all: destruct (res <? 0); [done|]; try done.
  change (ca_go s1) with (ca_go s) in *. set (go := set_size (size (ca_go s) - 1) (ca_go s)).
  set (s2 := CcpAdd _ _ go _).
  assert (Hs2 : size (ca_go s2) = size (ca_go s) - 1) by apply size_set.
  destruct (IH s2) as (v & Hv1 & Hv); [rewrite Hs2; lia| |].
  - destruct Hp1 as [Hp1 [junk Ho]]. split; [done|]. exists junk. simpl in *. rewrite Hp1 Ho Hs2.
    apply (write_value e a b _ _ tl), make_ok; lia.
  - rewrite Hs2 in Hv1. exists v. split; [lia|]. simpl in Hv. unfold go in Hv. by rewrite set_set in Hv.
Qed.
End Shrink.

Definition deflate_part (go : ccp_options) : bytes :=
  ask (deflate go) (deflate_option (deflate_code go) (deflate_size go))
  ++ ask (deflate go && deflate_correct go && deflate_draft go) (deflate_option CI_DEFLATE_DRAFT (deflate_size go)).

(** What writing a request does to our options: methods are given up, sizes
    shrink. *)
Record ccp_narrowed (go go' : ccp_options) : Prop := {
  nar_bsd : bsd_compress go' = true -> bsd_compress go = true;
  nar_deflate : deflate go' = true -> deflate go = true;
  nar_pred1 : predictor_1 go' = true -> predictor_1 go = true;
  nar_pred2 : predictor_2 go' = true -> predictor_2 go = true;
  nar_correct : deflate_correct go' = deflate_correct go;
  nar_draft : deflate_draft go' = deflate_draft go;
  nar_bits : Z.min BSD_MIN_BITS (bsd_bits go) <= bsd_bits go' <= bsd_bits go;
  nar_size : deflate_size go' <= deflate_size go
}.

Lemma ccp_narrowed_refl go : ccp_narrowed go go.
Proof. split; auto; lia. Qed.

Lemma ccp_narrowed_trans go1 go2 go3 : ccp_narrowed go1 go2 -> ccp_narrowed go2 go3 -> ccp_narrowed go1 go3.
Proof. intros [] []. split; auto; (congruence || lia). Qed.

(** A step of [ccp_addci] that leaves [e] behind, with options of which [part]
    describes what it wrote. *)
Definition wrote (part : ccp_options -> bytes) (e : bytes) (s s' : ccp_add) : Prop :=
  pending_at (e ++ part (ca_go s')) [] s' /\ ccp_narrowed (ca_go s) (ca_go s') /\ ccp_sizes_ok (ca_go s').

Lemma narrow_deflate v neg go :
  ccp_sizes_ok go -> DEFLATE_MIN_SIZE <= v <= deflate_size go -> (neg = true -> deflate go = true) ->
  let go' := set_deflate neg (set_deflate_size v go) in ccp_narrowed go go' /\ ccp_sizes_ok go'.
Proof. intros [? ?] ? ?. split; split; simpl; auto; lia. Qed.

Lemma narrow_bsd v neg go :
  ccp_sizes_ok go -> Z.min BSD_MIN_BITS (bsd_bits go) <= v <= bsd_bits go -> (neg = true -> bsd_compress go = true) ->
  let go' := set_bsd_compress neg (set_bsd_bits v go) in ccp_narrowed go go' /\ ccp_sizes_ok go'.
Proof. intros [? ?] ? ?. unfold BSD_MIN_BITS in *. split; split; simpl; unfold BSD_MIN_BITS; auto; lia. Qed.

Lemma set_deflate_same v go : deflate go = true -> set_deflate_size v go = set_deflate true (set_deflate_size v go).
Proof. destruct go. simpl. by intros ->. Qed.

Lemma set_bsd_same v go : bsd_compress go = true -> set_bsd_bits v go = set_bsd_compress true (set_bsd_bits v go).
Proof. destruct go. simpl. by intros ->. Qed.

(** The methods behind Deflate are not touched by it. *)
Definition plain_part (go : ccp_options) : bool * bool * bool := (bsd_compress go, predictor_1 go, predictor_2 go).

Lemma add_draft_pending code v s :
  DEFLATE_MIN_SIZE <= v <= DEFLATE_MAX_SIZE -> pending_at (deflate_option code v) [] s ->
  pending_at (deflate_option code v ++ deflate_option CI_DEFLATE_DRAFT v) []
    (ca_step CILEN_DEFLATE
       (ca_write [CI_DEFLATE_DRAFT; CILEN_DEFLATE; nth (ca_p s - 2) (ca_out s) 0; DEFLATE_CHK_SEQUENCE] s)).
Proof.
  intros Hv Hp. apply pending_step; [done|]. destruct Hp as [Hp [junk Ho]].
  replace (nth _ _ 0) with (DEFLATE_MAKE_OPT v) by by rewrite Hp Ho.
  apply pending_write; [by apply (deflate_option_ok CI_DEFLATE_DRAFT)|]. split; [done|]. by exists junk.
Qed.

Lemma add_deflate_wrote s :
  ccp_sizes_ok (ca_go s) -> pending_at [] [] s ->
  wrote deflate_part [] s (add_deflate kernel s) /\ plain_part (ca_go (add_deflate kernel s)) = plain_part (ca_go s).
Proof.
  intros Hok Hp. pose proof (size_ok _ Hok) as Hs. unfold add_deflate, wrote, deflate_part.
  destruct (deflate (ca_go s)) eqn:Ed; [|rewrite !Ed /=; split; [split; [done|split; [apply ccp_narrowed_refl|done]]|done]].
  set (s1 := ca_write _ s). set (k := Z.to_nat _).
  pose proof (shrink_shrunk deflate_size set_deflate_size (set_deflate false) (deflate_code (ca_go s)) CILEN_DEFLATE
    DEFLATE_MIN_SIZE DEFLATE_MAX_SIZE DEFLATE_MAKE_OPT [DEFLATE_CHK_SEQUENCE]) as Hsh.
  specialize (Hsh ltac:(done) ltac:(done) ltac:(by intros []) ltac:(intros; by apply make_deflate_ok) k [] s1).
  change (ca_go s1) with (ca_go s) in Hsh. change (Z.of_nat _) with CILEN_DEFLATE in Hsh.
  destruct Hsh as (v & Hv1 & Hv); [lia| |].
  { apply pending_write; [|done]. by apply deflate_option_ok; [apply deflate_code_ok|]. }
  set (s2 := shrink_option _ _ _ _ _ _ _ _ s1) in *. clearbody s2. clear s1 k.
  assert (Hn : forall neg, (neg = true -> deflate (ca_go s) = true) ->
    let go' := set_deflate neg (set_deflate_size v (ca_go s)) in ccp_narrowed (ca_go s) go' /\ ccp_sizes_ok go')
    by (intros; apply narrow_deflate; auto; lia).
  destruct Hv as [[Hg Hpend]|[Hg Hpend]].
  - rewrite set_deflate_same // in Hg. change ([] ++ _) with (deflate_option (deflate_code (ca_go s)) v) in Hpend.
    rewrite (proj1 Hpend) Hg. cbn [length deflate_option Nat.eqb negb andb deflate_correct deflate_draft set_deflate set_deflate_size].
    destruct (deflate_correct (ca_go s) && deflate_draft (ca_go s)) eqn:Ecd.
    + assert (Hv' : DEFLATE_MIN_SIZE <= v <= DEFLATE_MAX_SIZE) by lia.
      pose proof (add_draft_pending _ v s2 Hv' Hpend) as H3. rewrite (proj1 Hpend) in H3. cbn [ca_go ca_step ca_write]. rewrite Hg.
      cbn [deflate deflate_correct deflate_draft deflate_size set_deflate set_deflate_size ask andb]. rewrite Ecd.
      split; [|done]. split; [exact H3|]. by apply (Hn true).
    + rewrite Hg. cbn [deflate deflate_correct deflate_draft deflate_size set_deflate set_deflate_size ask andb].
      rewrite Ecd app_nil_r. split; [|done]. split; [exact Hpend|]. by apply (Hn true).
  - rewrite (proj1 Hpend) /= Hg /=. split; [|done]. split; [done|]. by apply (Hn false).
Qed.

Lemma add_bsd_wrote e s :
  ccp_sizes_ok (ca_go s) -> pending_at e [] s ->
  wrote (fun go => ask (bsd_compress go) (bsd_option (bsd_bits go))) e s (add_bsd kernel s) /\
  deflate_part (ca_go (add_bsd kernel s)) = deflate_part (ca_go s) /\
  (predictor_1 (ca_go (add_bsd kernel s)), predictor_2 (ca_go (add_bsd kernel s))) = (predictor_1 (ca_go s), predictor_2 (ca_go s)).
Proof.
  intros Hok Hp. pose proof (bits_ok _ Hok) as Hb. unfold add_bsd, wrote.
  destruct (bsd_compress (ca_go s)) eqn:Eb.
  2:{ rewrite Eb app_nil_r. split; [|done]. split; [done|]. by split; [apply ccp_narrowed_refl|]. }
  set (s1 := ca_write _ s). assert (H1 : pending_at e (bsd_option (bsd_bits (ca_go s))) s1).
  { apply pending_write; [|done]. apply bsd_option_ok. unfold BSD_MAX_BITS in Hb. lia. }
  destruct (negb _).
  { apply (pending_step _ _ _ CILEN_BSD_COMPRESS) in H1; [|done]. cbn [ca_go ca_step]. change (ca_go s1) with (ca_go s).
    rewrite Eb. split; [|done]. split; [done|]. by split; [apply ccp_narrowed_refl|]. }
  pose proof (shrink_shrunk bsd_bits set_bsd_bits (set_bsd_compress false) CI_BSD_COMPRESS CILEN_BSD_COMPRESS
    BSD_MIN_BITS BSD_MAX_BITS (BSD_MAKE_OPT BSD_CURRENT_VERSION) []) as Hsh.
  specialize (Hsh ltac:(done) ltac:(done) ltac:(by intros [])
    ltac:(intros; apply make_bsd_ok; unfold BSD_MIN_BITS, BSD_MAX_BITS in *; lia)
    (Z.to_nat (bsd_bits (ca_go s) - BSD_MIN_BITS)) e s1).
  change (ca_go s1) with (ca_go s) in Hsh. change (Z.of_nat _) with CILEN_BSD_COMPRESS in Hsh.
  destruct Hsh as (v & Hv1 & Hv); [lia|done|].
  set (s2 := shrink_option _ _ _ _ _ _ _ _ s1) in *. clearbody s2.
  assert (Hn : forall neg, (neg = true -> bsd_compress (ca_go s) = true) ->
    let go' := set_bsd_compress neg (set_bsd_bits v (ca_go s)) in ccp_narrowed (ca_go s) go' /\ ccp_sizes_ok go')
    by (intros; apply narrow_bsd; auto; unfold BSD_MIN_BITS in *; lia).
  destruct Hv as [[Hg Hpend]|[Hg Hpend]].
  - rewrite set_bsd_same // in Hg. rewrite Hg. cbn [ask]. split; [|done]. split; [done|]. by apply (Hn true).
  - rewrite Hg /= app_nil_r. split; [|done]. split; [done|]. by apply (Hn false).
Qed.

Lemma add_predictor_wrote (sel : ccp_options -> bool) opt clear e s :
  (forall go, sel (clear go) = false) -> Forall byte_ok opt -> pending_at e [] s ->
  let s' := add_predictor kernel (sel (ca_go s)) opt clear s in
  (ca_go s' = ca_go s \/ sel (ca_go s) = true /\ ca_go s' = clear (ca_go s)) /\
  pending_at (e ++ ask (sel (ca_go s')) opt) [] s'.
Proof.
  intros Hclear Hok Hp. unfold add_predictor. destruct (sel (ca_go s)) eqn:Es; [|rewrite Es app_nil_r; auto].
  assert (H1 : pending_at e opt (ca_write opt s)) by by apply pending_write.
  assert (Hstep : forall s1, ca_go s1 = ca_go s -> pending_at e opt s1 ->
    (ca_go (ca_step (Z.of_nat (length opt)) s1) = ca_go s \/ true = true /\ ca_go (ca_step (Z.of_nat (length opt)) s1) = clear (ca_go s)) /\
    pending_at (e ++ ask (sel (ca_go (ca_step (Z.of_nat (length opt)) s1))) opt) [] (ca_step (Z.of_nat (length opt)) s1)).
  { intros s1 Hg H2. cbn [ca_go ca_step]. rewrite Hg Es. split; [auto|]. by apply pending_step. }
  destruct (_ =? 0)%nat; [|by apply Hstep]. unfold ca_test. destruct (_ <=? 0); [|by apply Hstep].
  cbn [ca_go ca_drop ca_write]. rewrite Hclear app_nil_r. split; [auto|]. by apply (pending_drop _ opt).
Qed.

Lemma request_parts go :
  ccp_request go = ((deflate_part go ++ ask (bsd_compress go) (bsd_option (bsd_bits go)))
                    ++ ask (predictor_1 go) predictor_1_option) ++ ask (predictor_2 go) predictor_2_option.
Proof. unfold ccp_request, deflate_part. by rewrite -!app_assoc. Qed.

(** The request is the one for the options that are left, whatever the kernel
    says on the way. *)
Lemma ccp_addci_request go n :
  ccp_sizes_ok go ->
  let '(out, len, go', _) := ccp_addci kernel go n in
  (exists junk, out = ccp_request go' ++ junk) /\ len = Z.of_nat (length (ccp_request go')) /\
  ccp_narrowed go go' /\ ccp_sizes_ok go' /\
  method go' = match ccp_request go' with [] => -1 | c :: _ => c end.
Proof.
  intros Hok. unfold ccp_addci. set (s0 := CcpAdd [] 0 go n).
  assert (H0 : pending_at [] [] s0) by (split; [done|by exists []]).
  destruct (add_deflate_wrote s0 Hok H0) as [(H1 & N1 & K1) _]. set (s1 := add_deflate kernel s0) in *. clearbody s1.
  destruct (add_bsd_wrote _ s1 K1 H1) as ((H2 & N2 & K2) & E2 & _). set (s2 := add_bsd kernel s1) in *. clearbody s2.
  rewrite -E2 in H2. change (ca_go s0) with go in N1. pose proof (ccp_narrowed_trans _ _ _ N1 N2) as N. clear N1 N2 K1 H1 H0 E2.
  destruct (add_predictor_wrote predictor_1 predictor_1_option (set_predictor_1 false) (deflate_part (ca_go s2) ++ ask (bsd_compress (ca_go s2)) (bsd_option (bsd_bits (ca_go s2)))) s2)
    as [G3 H3]; [done|by repeat constructor|exact H2|]. set (s3 := add_predictor _ _ _ _ s2) in *. clearbody s3.
  destruct (fun H => add_predictor_wrote predictor_2 predictor_2_option (set_predictor_2 false) _ s3 H
    ltac:(by repeat constructor) H3) as [G4 H4]; [done|]. set (s4 := add_predictor _ _ _ _ s3) in *. clearbody s4. clear H2 H3.
  assert (Hgo : ccp_narrowed go (ca_go s4) /\ ccp_sizes_ok (ca_go s4) /\
    pending_at (ccp_request (ca_go s4)) [] s4).
  { rewrite request_parts. destruct N, K2. destruct G3 as [G3|[P3 G3]], G4 as [G4|[P4 G4]]; rewrite G4 G3 in H4 |- *;
      (split; [by split|split; [by split|exact H4]]). }
  destruct Hgo as (N4 & K4 & Hp4 & junk & Ho4). split; [exists junk; exact Ho4|]. split; [by rewrite Hp4|].
  split; [by destruct N4|]. split; [by destruct K4|]. cbn [method set_method]. rewrite Hp4 Ho4.
  change (ccp_request (set_method _ _)) with (ccp_request (ca_go s4)). by destruct (ccp_request (ca_go s4)).
Qed.
End Addci.

(** ** The answers *)

(** A cursor inside its buffer, and what the packet still holds. *)
Definition inside (c : cursor) : Prop := 0 <= cu_len c <= Z.of_nat (length (cu_p c)).
Definition content (c : cursor) : bytes := take (Z.to_nat (cu_len c)) (cu_p c).

Lemma content_length c : inside c -> Z.of_nat (length (content c)) = cu_len c.
Proof. intros Hc. unfold content, inside in *. rewrite length_take. lia. Qed.

Lemma content_nil c : inside c -> content c = [] <-> cu_len c = 0.
Proof.
  intros Hc. pose proof (content_length c Hc) as Hl. split; [intros Hn; by rewrite Hn in Hl|].
  intros Hz. unfold content. by rewrite Hz.
Qed.

Lemma content_skip n c :
  inside c -> 0 <= n <= cu_len c -> inside (skip n c) /\ content (skip n c) = drop (Z.to_nat n) (content c).
Proof.
  intros Hc Hn. unfold inside, content, skip in *. simpl. rewrite length_drop. split; [lia|].
  rewrite skipn_firstn_comm. f_equal. lia.
Qed.

Lemma same_bytes_spec enc p :
  (length enc <= length p)%nat ->
  same_bytes enc p = Good (bool_decide (take (length enc) p = enc)).
Proof.
  revert p. induction enc as [|e enc IH]; intros [|c p] Hl; simpl in *; try done; [lia|].
  destruct (Z.eqb_spec c e) as [->|Hne].
  - rewrite IH; [lia|]. f_equal. apply bool_decide_ext. split; [by intros ->|by intros [= ->]].
  - rewrite bool_decide_eq_false_2; [by intros [=]|done].
Qed.

Lemma next_is_spec n enc c :
  inside c -> Z.of_nat (length enc) <= n ->
  next_is n enc c = Good (bool_decide (n <= cu_len c /\ take (length enc) (content c) = enc)).
Proof.
  intros Hc Hn. unfold next_is, inside in *. destruct (Z.ltb_spec (cu_len c) n) as [Hlt|Hge].
  - rewrite bool_decide_eq_false_2; [lia|done].
  - rewrite same_bytes_spec; [lia|]. f_equal. apply bool_decide_ext. unfold content. rewrite take_take Nat.min_l; [lia|].
    tauto.
Qed.

(** An option is expected: it is there, or nothing starts with it. *)
Lemma expect_content enc c :
  inside c ->
  match expect enc c with
  | Good c' => inside c' /\ content c = enc ++ content c'
  | Bad => forall r, content c <> enc ++ r
  | Oob => False
  end.
Proof.
  intros Hc. unfold expect. rewrite next_is_spec //. cbn [mbind parse_bind]. pose proof (content_length c Hc) as Hl.
  case_bool_decide as Hd; simpl.
  - destruct Hd as [Hn Ht]. destruct (content_skip (Z.of_nat (length enc)) c Hc ltac:(lia)) as [Hi He]. split; [done|].
    rewrite He Nat2Z.id. rewrite -{1}(take_drop (length enc) (content c)). by rewrite Ht.
  - intros r Hr. apply Hd. rewrite Hr take_app_length. split; [|done]. rewrite Hr length_app in Hl. lia.
Qed.

Lemma ack_plain_content neg enc c :
  inside c ->
  match ack_plain neg enc c with
  | Good c' => inside c' /\ content c = ask neg enc ++ content c'
  | Bad => forall r, content c <> ask neg enc ++ r
  | Oob => False
  end.
Proof. intros Hc. destruct neg; [by apply expect_content|done]. Qed.

(** What is taken for an Ack of a request: the request, or its first Deflate
    option. *)
Definition acked (go : ccp_options) (l : bytes) : Prop :=
  l = ccp_request go \/ (deflate go = true /\ l = deflate_option (deflate_code go) (deflate_size go)).

Lemma ack_deflate_content go c :
  inside c ->
  match ack_deflate go c with
  | Good None => deflate go = true /\ content c = deflate_option (deflate_code go) (deflate_size go)
  | Good (Some c') => inside c' /\ content c = deflate_part go ++ content c' /\
      (deflate go = true -> content c <> deflate_option (deflate_code go) (deflate_size go))
  | Bad => (forall r, content c <> deflate_part go ++ r) /\
      (deflate go = true -> content c <> deflate_option (deflate_code go) (deflate_size go))
  | Oob => False
  end.
Proof.
  intros Hc. unfold ack_deflate, deflate_part. destruct (deflate go); [|simpl; by split_and!].
  cbn [andb]. set (e1 := deflate_option (deflate_code go) (deflate_size go)).
  pose proof (expect_content e1 c Hc) as H1. destruct (expect e1 c) as [c1| |]; cbn [mbind parse_bind]; [|split|done].
  2:{ intros r. rewrite -app_assoc. apply H1. } 2:{ intros _ He. apply (H1 []). by rewrite app_nil_r. }
  destruct H1 as [Hi1 He1]. destruct (Z.eqb_spec (cu_len c1) 0) as [Hz|Hz].
  { apply content_nil in Hz; [|done]. split; [done|]. by rewrite He1 Hz app_nil_r. }
  assert (Hne : content c <> e1).
  { rewrite He1 -{2}(app_nil_r e1). intros Hx. apply app_inv_head, content_nil in Hx; done. }
  destruct (deflate_correct go && deflate_draft go); [|by rewrite app_nil_r].
  set (e2 := deflate_option CI_DEFLATE_DRAFT (deflate_size go)).
  pose proof (expect_content e2 c1 Hi1) as H2. destruct (expect e2 c1) as [c2| |]; cbn [mbind parse_bind ask]; [|split; [|done]|done].
  - destruct H2 as [Hi2 He2]. split; [done|]. split; [|done]. rewrite He1 He2. by rewrite -app_assoc.
  - intros r. rewrite -app_assoc He1. intros Hx. apply app_inv_head in Hx. by apply (H2 r).
Qed.

Lemma ackci_accepts go p len :
  0 <= len <= Z.of_nat (length p) ->
  ccp_ackci go p len <> Oob /\ (ccp_ackci go p len = Good () <-> acked go (take (Z.to_nat len) p)).
Proof.
  intros Hl. unfold ccp_ackci. set (c0 := Cursor p len). assert (H0 : inside c0) by done.
  change (take _ p) with (content c0). unfold acked.
  assert (Hreq : ccp_request go = deflate_part go ++ ask (bsd_compress go) (bsd_option (bsd_bits go))
    ++ ask (predictor_1 go) predictor_1_option ++ ask (predictor_2 go) predictor_2_option)
    by (unfold ccp_request, deflate_part; by rewrite -app_assoc).
  rewrite Hreq. clear Hreq.
  pose proof (ack_deflate_content go c0 H0) as Hd. destruct (ack_deflate go c0) as [[c1|]| |]; cbn [mbind parse_bind].
  2:{ split; [done|]. split; [intros _; by right|done]. }
  2:{ destruct Hd as [Hd Hf]. split; [done|]. split; [done|]. intros [Hx|[? ?]]; [by destruct (Hd _ Hx)|by destruct Hf]. }
  2:{ done. }
  destruct Hd as (H1 & E1 & Hf). clearbody c0. rewrite {1}E1.
  assert (Hcases : forall r : parse (), r <> Oob /\ (r = Good () <-> content c1 = ask (bsd_compress go) (bsd_option (bsd_bits go))
      ++ ask (predictor_1 go) predictor_1_option ++ ask (predictor_2 go) predictor_2_option) ->
    r <> Oob /\ (r = Good () <-> deflate_part go ++ content c1 = deflate_part go ++ ask (bsd_compress go) (bsd_option (bsd_bits go))
      ++ ask (predictor_1 go) predictor_1_option ++ ask (predictor_2 go) predictor_2_option \/
      (deflate go = true /\ content c0 = deflate_option (deflate_code go) (deflate_size go)))).
  { intros r [Ho Hr]. split; [done|]. rewrite Hr. split; [intros ->; by left|].
    intros [Hx|[Hx Hy]]; [by apply app_inv_head in Hx|by destruct (Hf Hx)]. }
  apply Hcases. clear Hcases Hf E1 H0.
  pose proof (ack_plain_content (bsd_compress go) (bsd_option (bsd_bits go)) c1 H1) as H2.
  destruct (ack_plain _ _ c1) as [c2| |]; cbn [mbind parse_bind]; [|split; [done|]; split; [done|intros Hx; by destruct (H2 _ Hx)]|done].
  destruct H2 as [H2 E2]. rewrite E2.
  pose proof (ack_plain_content (predictor_1 go) predictor_1_option c2 H2) as H3.
  destruct (ack_plain _ _ c2) as [c3| |]; cbn [mbind parse_bind];
    [|split; [done|]; split; [done|intros Hx; apply app_inv_head in Hx; by destruct (H3 _ Hx)]|done].
  destruct H3 as [H3 E3]. rewrite E3.
  pose proof (ack_plain_content (predictor_2 go) predictor_2_option c3 H3) as H4.
  destruct (ack_plain _ _ c3) as [c4| |]; cbn [mbind parse_bind];
    [|split; [done|]; split; [done|intros Hx; do 2 apply app_inv_head in Hx; destruct (H4 []); by rewrite app_nil_r]|done].
  destruct H4 as [H4 E4]. rewrite E4.
  destruct (Z.eqb_spec (cu_len c4) 0) as [Hz|Hz]; simpl; (split; [done|]).
  - apply content_nil in Hz as ->; [|done]. by rewrite app_nil_r.
  - split; [done|]. intros Hx. do 2 apply app_inv_head in Hx. rewrite -{2}(app_nil_r (ask _ _)) in Hx.
    by apply app_inv_head, content_nil in Hx.
Qed.

(** What CCP takes for an Ack.  Whatever the kernel answers while a request
    is written, the bytes on the wire are the request for the options that are
    left, and these are no more than there were; an Ack is accepted exactly when
    it repeats that request or is its first Deflate option, and the parser never
    reads behind the packet. *)
Theorem ccp_ackci_exact kernel go n p len :
  ccp_sizes_ok go -> 0 <= len <= Z.of_nat (length p) ->
  let '(out, reqlen, go', _) := ccp_addci kernel go n in
  take (Z.to_nat reqlen) out = ccp_request go' /\ ccp_narrowed go go' /\
  ccp_ackci go' p len <> Oob /\ (ccp_ackci go' p len = Good () <-> acked go' (take (Z.to_nat len) p)).
Proof.
  intros Hok Hl. pose proof (ccp_addci_request kernel go n Hok) as Hr.
  destruct (ccp_addci kernel go n) as [[[out reqlen] go'] n']. destruct Hr as ([junk ->] & -> & Hn & _).
  rewrite Nat2Z.id take_app_length. by destruct (ackci_accepts go' p len Hl).
Qed.
