(* ===== verification/CcpReqciSpec.v ===== *)
(** * CCP: the peer's request

    The walk over the request stays inside the packet and ends unless the kernel
    has no buffers for a code size that is too small to begin with; exactly which
    requests are acknowledged; and a request of ours is acknowledged by a peer
    with the same settings. *)

From S2P Require Import Prelude Wire Fsm LcpOptions LcpReqci LcpReqciSpec CcpOptions CcpReqci CcpSpec.

(** ** Requests that can be acknowledged *)

(** The first option of a packet and what follows it, if it is one. *)
Definition next_option (l : bytes) : option (bytes * bytes) :=
  match l with
  | _ :: clen :: _ =>
      if (clen <? 2) || (Z.of_nat (length l) <? clen) then None
      else Some (take (Z.to_nat clen) l, drop (Z.to_nat clen) l)
  | _ => None
  end.

(** An option we allow, with a value in our bounds. *)
Definition option_fine (ao : ccp_options) (opt : bytes) : bool :=
  match opt with
  | [type; clen; v; chk] =>
      (clen =? CILEN_DEFLATE) && deflate ao && (chk =? DEFLATE_CHK_SEQUENCE)
      && (((type =? CI_DEFLATE) && deflate_correct ao) || ((type =? CI_DEFLATE_DRAFT) && deflate_draft ao))
      && (DEFLATE_METHOD v =? DEFLATE_METHOD_VAL) && (DEFLATE_MIN_SIZE <=? DEFLATE_SIZE v)
      && (DEFLATE_SIZE v <=? deflate_size ao)
  | [type; clen; v] =>
      (type =? CI_BSD_COMPRESS) && (clen =? CILEN_BSD_COMPRESS) && bsd_compress ao
      && (BSD_VERSION v =? BSD_CURRENT_VERSION) && (BSD_MIN_BITS <=? BSD_NBITS v) && (BSD_NBITS v <=? bsd_bits ao)
  | [type; clen] =>
      ((type =? CI_PREDICTOR_1) && (clen =? CILEN_PREDICTOR_1) && predictor_1 ao)
      || ((type =? CI_PREDICTOR_2) && (clen =? CILEN_PREDICTOR_2) && predictor_2 ao)
  | _ => false
  end.

(** The packet is a list of options that are all fine; the kernel takes the
    first, where [l] is the head of the request. *)
Fixpoint acceptable (taken : bytes -> bool) (ao : ccp_options) (fuel : nat) (first : bool) (l : bytes) : bool :=
  match l, fuel with
  | [], _ => true
  | _, O => false
  | _, S fuel =>
      match next_option l with
      | Some (opt, l) => option_fine ao opt && (negb first || taken opt) && acceptable taken ao fuel false l
      | None => false
      end
  end.

Lemma if_either {A} (P : A -> Prop) (b : bool) x y : P x -> P y -> P (if b then x else y).
Proof. by destruct b. Qed.

Section Spec.
Context (kernel : nat -> bytes -> bool -> compress_outcome) (patience : nat) (ao : ccp_options) (dont_nak : bool).

Abbreviation judge_option := (judge_option kernel patience ao dont_nak).
Abbreviation judge_pass := (judge_pass kernel patience ao dont_nak).
Abbreviation judge_loop := (judge_loop kernel patience ao dont_nak).
Abbreviation fit_option := (fit_option kernel dont_nak).
Abbreviation fit_first := (fit_first kernel patience dont_nak).
Abbreviation return_option := (return_option dont_nak).

(** ** One option *)

(** Neither the length of a buffer nor its bytes from [k] on have changed. *)
Definition kept (k : nat) (buf buf' : bytes) : Prop := length buf' = length buf /\ drop k buf' = drop k buf.

Lemma kept_refl k buf : kept k buf buf.
Proof. done. Qed.

Lemma kept_trans k a b c : kept k a b -> kept k b c -> kept k a c.
Proof. intros [? ?] [? ?]. split; congruence. Qed.

Lemma kept_weaken k k' a b : (k <= k')%nat -> kept k a b -> kept k' a b.
Proof.
  intros Hk [? Hd]. split; [done|]. replace k' with (k + (k' - k))%nat by lia. by rewrite -!drop_drop Hd.
Qed.

Lemma poke_kept k buf off v : (off < k)%nat -> (k <= length buf)%nat -> kept k buf (poke buf off v).
Proof.
  intros Ho Hk. unfold poke. assert (Hl : length (take off buf) = off) by (rewrite length_take; lia). split.
  - rewrite !length_app Hl length_drop. simpl. lia.
  - rewrite drop_app_ge; [lia|]. rewrite Hl. replace (k - off)%nat with (S (k - S off))%nat by lia. simpl.
    rewrite drop_drop. f_equal. lia.
Qed.

Lemma fit_option_kept j clen min make back p nb newret buf n r buf' n' k :
  (p + 2 < k)%nat -> (k <= length buf)%nat ->
  fit_option j clen min make back p nb newret buf n = Some (r, buf', n') -> kept k buf buf'.
Proof.
  intros Hp. revert nb newret buf n. induction j as [|j IH]; intros nb newret buf n Hk; simpl;
    (destruct (0 <? _); [by intros [= _ <- _]|]); (destruct (_ || _); [intros [= _ <- _]; by apply poke_kept|]); [done|].
  intros Hf. pose proof (poke_kept k buf (p + 2) (make (nb - 1)) Hp Hk) as Hpk.
  apply IH in Hf; [by eapply kept_trans|]. by rewrite (proj1 Hpk).
Qed.

(** Only a first test that succeeds leaves an Ack. *)
Lemma fit_option_ack k clen min make back p nb newret buf n r buf' n' :
  fit_option k clen min make back p nb newret buf n = Some (r, buf', n') ->
  (r = CONFACK <-> newret = CONFACK /\ 0 < ccp_test kernel n (take (Z.to_nat clen) (drop p buf)) true) /\
  (r = CONFACK -> buf' = buf).
Proof.
  revert nb newret buf n. induction k as [|k IH]; intros nb newret buf n; simpl;
    (destruct (Z.ltb_spec 0 (ccp_test kernel n (take (Z.to_nat clen) (drop p buf)) true)) as [Ht|Ht];
      [intros [= <- <- _]; tauto|]); (destruct (_ || _); [intros [= <- <- _]; split; [split; [done|lia]|done]|]); [done|].
  intros Hf. apply IH in Hf as [Hf _]. assert (r <> CONFACK) by (intros Hr; by apply Hf in Hr as [? _]).
  split; [split; [done|lia]|done].
Qed.

(** A loop that starts at the minimum or above ends in time. *)
Lemma fit_option_ends k clen min make back p nb newret buf n :
  min <= nb -> nb - min <= Z.of_nat k -> fit_option k clen min make back p nb newret buf n <> None.
Proof.
  revert nb newret buf n. induction k as [|k IH]; intros nb newret buf n Hm Hk; simpl;
    (destruct (0 <? _); [done|]).
  - rewrite (proj2 (Z.eqb_eq nb min)); [lia|]. by rewrite orb_true_r.
  - destruct (Z.eqb_spec nb min); [by rewrite orb_true_r|]. destruct (_ || _); [done|]. apply IH; lia.
Qed.

Lemma fit_first_kept clen min make nb p newret buf ho n k :
  (p + 2 < k)%nat -> (k <= length buf)%nat -> kept k buf (cj_buf (fit_first clen min make nb p newret buf ho n)).
Proof.
  intros Hp Hk. unfold fit_first. destruct (_ =? 0)%nat; [|done].
  destruct (fit_option _ _ _ _ _ _ _ _ _ _) as [[[r buf'] n']|] eqn:E; [|done]. by eapply fit_option_kept.
Qed.

Lemma fit_option_taken j clen min make back p nb newret buf n :
  0 < ccp_test kernel n (take (Z.to_nat clen) (drop p buf)) true ->
  fit_option j clen min make back p nb newret buf n = Some (newret, buf, S n).
Proof. intros Ht. destruct j; simpl; by rewrite (proj2 (Z.ltb_lt _ _) Ht). Qed.

Lemma fit_first_ack clen min make nb p newret buf ho n :
  let r := fit_first clen min make nb p newret buf ho n in
  (cj_ret r = CONFACK /\ cj_hung r = false <->
   newret = CONFACK /\ (p = 0%nat -> 0 < ccp_test kernel n (take (Z.to_nat clen) (drop p buf)) true)) /\
  (cj_ret r = CONFACK -> cj_hung r = false -> cj_buf r = buf).
Proof.
  unfold fit_first. destruct (Nat.eqb_spec p 0) as [->|Hp]; [|simpl; tauto].
  destruct (fit_option _ _ _ _ _ _ _ _ _ _) as [[[r buf'] n']|] eqn:E; simpl.
  - apply fit_option_ack in E. tauto.
  - split; [|done]. split; [by intros [? ?]|]. intros [_ Ht]. specialize (Ht eq_refl). by rewrite fit_option_taken in E.
Qed.

Lemma fit_option_verdict j clen min make back p nb newret buf n r buf' n' :
  is_verdict newret -> fit_option j clen min make back p nb newret buf n = Some (r, buf', n') -> is_verdict r.
Proof.
  revert nb newret buf n. induction j as [|j IH]; intros nb newret buf n Hv; simpl;
    (destruct (0 <? _); [by intros [= <- _ _]|]); (destruct (_ || _); [intros [= <- _ _]; by right; right|]); [done|].
  apply IH. by right; left.
Qed.

Lemma fit_first_verdict clen min make nb p newret buf ho n :
  is_verdict newret -> is_verdict (cj_ret (fit_first clen min make nb p newret buf ho n)).
Proof.
  intros Hv. unfold fit_first. destruct (_ =? 0)%nat; [|done].
  destruct (fit_option _ _ _ _ _ _ _ _ _ _) as [[[r buf'] n']|] eqn:E; [|done]. by eapply fit_option_verdict.
Qed.

(** Whatever the option, it is judged, and changed, inside the packet. *)
Definition judged_inside (k : nat) (buf : bytes) (j : parse ccp_ci) : Prop :=
  exists r, j = Good r /\ kept k buf (cj_buf r) /\ is_verdict (cj_ret r).

Lemma judged_as_is k buf newret ho n : is_verdict newret -> judged_inside k buf (Good (CcpCi newret buf ho n false)).
Proof. intros Hv. by eexists. Qed.

Lemma judged_first k clen min make nb p newret buf buf' ho n :
  (p + 2 < k)%nat -> (k <= length buf)%nat -> is_verdict newret -> kept k buf buf' ->
  judged_inside k buf (Good (fit_first clen min make nb p newret buf' ho n)).
Proof.
  intros Hp Hk Hv Hb. eexists. split; [done|]. split; [|by apply fit_first_verdict].
  eapply kept_trans; [exact Hb|]. apply fit_first_kept; [done|]. by rewrite (proj1 Hb).
Qed.

Lemma judge_option_total type clen p buf ho n :
  (p + Z.to_nat clen <= length buf)%nat ->
  judged_inside (p + Z.to_nat clen) buf (judge_option type clen p buf ho n).
Proof.
  intros Hp. assert (Hrej : is_verdict CONFREJ) by by right; right. assert (Hnak : is_verdict CONFNAK) by by right; left.
  assert (Hack : is_verdict CONFACK) by by left. set (k := (p + Z.to_nat clen)%nat) in *.
  unfold CcpReqci.judge_option. destruct (_ || _).
  { unfold judge_deflate. destruct (_ || _) eqn:E; [by apply judged_as_is|]. bool_props. subst clen.
    assert (Hk : k = (p + 4)%nat) by done.
    destruct (lookup_lt_is_Some_2 buf (p + 2)) as [p2 ->]; [lia|].
    destruct (lookup_lt_is_Some_2 buf (p + 3)) as [p3 ->]; [lia|]. cbn [get mbind parse_bind].
    pose proof (poke_kept k buf (p + 2) (DEFLATE_MAKE_OPT (deflate_size ao)) ltac:(lia) Hp) as Hp2.
    destruct (_ || _); [apply if_either; [by apply judged_as_is|]|]; (apply judged_first; [lia|done|done|]); [|done].
    eapply kept_trans; [exact Hp2|]. apply poke_kept; [lia|]. by rewrite (proj1 Hp2). }
  destruct (_ =? _).
  { unfold judge_bsd. destruct (_ || _) eqn:E; [by apply judged_as_is|]. bool_props. subst clen.
    assert (Hk : k = (p + 3)%nat) by done.
    destruct (lookup_lt_is_Some_2 buf (p + 2)) as [p2 ->]; [lia|]. cbn [get mbind parse_bind].
    destruct (_ || _); [apply if_either; [by apply judged_as_is|]|]; (apply judged_first; [lia|done|done|]); [|done].
    apply poke_kept; [lia|done]. }
  destruct (_ =? _); [|destruct (_ =? _); [|by apply judged_as_is]]; unfold judge_predictor;
    (destruct (_ || _); [by apply judged_as_is|]); (destruct (_ =? 0)%nat; eexists; (split; [done|]); [|done]);
    (split; [done|]); cbn [cj_ret]; by destruct (_ <=? 0).
Qed.

(** The verdict on an option is Ack exactly if it is fine and, at the head of the
    request, the kernel takes it. *)
Definition judged_fine (opt : bytes) (p : nat) (n : nat) (buf : bytes) (r : ccp_ci) : Prop :=
  (cj_ret r = CONFACK /\ cj_hung r = false <->
   option_fine ao opt = true /\ (p = 0%nat -> 0 < ccp_test kernel n opt true)) /\
  (cj_ret r = CONFACK -> cj_hung r = false -> cj_buf r = buf).

Lemma judged_rej opt p n buf ho : option_fine ao opt = false -> judged_fine opt p n buf (CcpCi CONFREJ buf ho n false).
Proof. intros Hf. split; [|done]. rewrite Hf. split; by intros (? & ?). Qed.

Lemma judged_nak opt p n buf ho : option_fine ao opt = false -> judged_fine opt p n buf (CcpCi CONFNAK buf ho n false).
Proof. intros Hf. split; [|done]. rewrite Hf. split; by intros (? & ?). Qed.

(** What the loop over the sizes makes of an option that is not, or is, fine. *)
Lemma judged_fit_nak opt clen min make nb p buf buf' ho n :
  option_fine ao opt = false -> judged_fine opt p n buf (fit_first clen min make nb p CONFNAK buf' ho n).
Proof.
  intros Hf. pose proof (fit_first_ack clen min make nb p CONFNAK buf' ho n) as [Ha _]. cbv zeta in Ha.
  split; rewrite ?Hf; [split; [|by intros (? & ?)]; intros H; by apply Ha in H as (? & ?)|].
  intros H1 H2. by destruct (proj1 Ha (conj H1 H2)).
Qed.

Lemma judged_fit_ack opt clen min make nb p buf ho n :
  option_fine ao opt = true -> take (Z.to_nat clen) (drop p buf) = opt ->
  judged_fine opt p n buf (fit_first clen min make nb p CONFACK buf ho n).
Proof.
  intros Hf Ht. pose proof (fit_first_ack clen min make nb p CONFACK buf ho n) as [Ha Hb]. cbv zeta in Ha, Hb.
  rewrite Ht in Ha. split; [|done]. rewrite Ha Hf. tauto.
Qed.

(** An option stands at [p]. *)
Definition stands_at (opt : bytes) (p : nat) (buf : bytes) : Prop :=
  take (length opt) (drop p buf) = opt.

Lemma stands_lookup opt p buf i v : stands_at opt p buf -> opt !! i = Some v -> buf !! (p + i)%nat = Some v.
Proof.
  intros Hs Hv. pose proof (lookup_lt_Some _ _ _ Hv) as Hl. rewrite -lookup_drop.
  rewrite -(lookup_take_lt (drop p buf) (length opt)) //. by rewrite Hs.
Qed.

Section Fine.
Context (type clen : Z) (tl : bytes) (p : nat) (buf : bytes) (ho : ccp_options) (n : nat).
Abbreviation opt := (type :: clen :: tl).
Hypothesis Hlen : Z.of_nat (length opt) = clen.
Hypothesis Hs : stands_at opt p buf.

Lemma opt_taken : take (Z.to_nat clen) (drop p buf) = opt.
Proof using Hlen Hs. replace (Z.to_nat clen) with (length opt) by lia. exact Hs. Qed.

Lemma judge_deflate_fine r :
  type = CI_DEFLATE \/ type = CI_DEFLATE_DRAFT ->
  judge_deflate kernel patience ao dont_nak type clen p buf ho n = Good r -> judged_fine opt p n buf r.
Proof using Hlen Hs.
  intros Ht. unfold judge_deflate. destruct (Z.eqb_spec clen CILEN_DEFLATE) as [Hc|Hc].
  2:{ rewrite orb_true_r /=. intros [= <-]. apply judged_rej. simpl in Hlen.
      destruct tl as [|v [|k [|? ?]]]; simpl in *; try done;
        by destruct Ht as [-> | ->]. }
  assert (Htl : exists v c, tl = [v; c]).
  { pose proof Hlen as Hl. rewrite Hc in Hl. unfold CILEN_DEFLATE in Hl.
    destruct tl as [|v [|c [|? ?]]]; simpl in Hl; try lia. by exists v, c. }
  pose proof opt_taken as Hot. rewrite Hc in Hot. destruct Htl as (v & c & Htl). rewrite Htl in Hot |- *.
  rewrite (stands_lookup _ p buf 2 v Hs) ?Htl // (stands_lookup _ p buf 3 c Hs) ?Htl //.
  assert (Hf : option_fine ao [type; clen; v; c] =
    negb (negb (deflate ao) || negb true || negb (deflate_correct ao) && (type =? CI_DEFLATE)
          || negb (deflate_draft ao) && (type =? CI_DEFLATE_DRAFT))
    && negb (negb (DEFLATE_METHOD v =? DEFLATE_METHOD_VAL) || negb (c =? DEFLATE_CHK_SEQUENCE)
             || (deflate_size ao <? DEFLATE_SIZE v) || (DEFLATE_SIZE v <? DEFLATE_MIN_SIZE))).
  { simpl. rewrite Hc !Z.ltb_antisym. destruct Ht as [-> | ->]; simpl;
      destruct (deflate ao), (deflate_correct ao), (deflate_draft ao), (DEFLATE_METHOD v =? _), (c =? _),
        (DEFLATE_MIN_SIZE <=? _), (_ <=? deflate_size ao); done. }
  destruct (_ || _ || _ || _).
  { intros [= <-]. by apply judged_rej. }
  cbn [get mbind parse_bind]. destruct (_ || _ || _ || _).
  - apply (if_either (fun x => x = Good r -> judged_fine _ p n buf r)); intros [= <-]; [by apply judged_nak|by apply judged_fit_nak].
  - intros [= <-]. apply judged_fit_ack; [by rewrite Hf|by rewrite Hot Hc].
Qed.

Lemma judge_bsd_fine r :
  type = CI_BSD_COMPRESS -> judge_bsd kernel patience ao dont_nak clen p buf ho n = Good r -> judged_fine opt p n buf r.
Proof using Hlen Hs.
  intros Ht. unfold judge_bsd. destruct (Z.eqb_spec clen CILEN_BSD_COMPRESS) as [Hc|Hc].
  2:{ rewrite orb_true_r. intros [= <-]. apply judged_rej. rewrite Ht.
      destruct tl as [|v [|k [|? ?]]]; simpl in *; try done; by rewrite andb_false_r. }
  assert (Htl : exists v, tl = [v]).
  { pose proof Hlen as Hl. rewrite Hc in Hl. unfold CILEN_BSD_COMPRESS in Hl.
    destruct tl as [|v [|? ?]]; simpl in Hl; try lia. by exists v. }
  pose proof opt_taken as Hot. rewrite Hc in Hot. destruct Htl as (v & Htl). rewrite Htl in Hot |- *.
  rewrite (stands_lookup _ p buf 2 v Hs) ?Htl //.
  assert (Hf : option_fine ao [type; clen; v] = negb (negb (bsd_compress ao) || negb true)
    && negb (negb (BSD_VERSION v =? BSD_CURRENT_VERSION) || (bsd_bits ao <? BSD_NBITS v) || (BSD_NBITS v <? BSD_MIN_BITS))).
  { simpl. rewrite Hc Ht !Z.ltb_antisym. by destruct (bsd_compress ao), (BSD_VERSION v =? _), (_ <=? bsd_bits ao), (BSD_MIN_BITS <=? _). }
  destruct (_ || _).
  { intros [= <-]. by apply judged_rej. }
  cbn [get mbind parse_bind]. destruct (_ || _ || _).
  - apply (if_either (fun x => x = Good r -> judged_fine _ p n buf r)); intros [= <-]; [by apply judged_nak|by apply judged_fit_nak].
  - intros [= <-]. apply judged_fit_ack; [by rewrite Hf|by rewrite Hot Hc].
Qed.

Lemma judge_predictor_fine allowed mark r :
  option_fine ao opt = allowed && (clen =? 2) ->
  judge_predictor kernel allowed clen 2 mark p buf ho n = Good r -> judged_fine opt p n buf r.
Proof using Hlen Hs patience dont_nak.
  intros Hf. unfold judge_predictor. destruct (negb allowed || negb (clen =? 2)) eqn:E.
  { intros [= <-]. apply judged_rej. rewrite Hf. by destruct allowed, (clen =? 2). }
  bool_props. subst allowed. pose proof opt_taken as Hot. subst clen.
  destruct (Nat.eqb_spec p 0) as [->|Hp]; intros [= <-].
  - rewrite Hot. split; [|done]. cbn [cj_ret cj_hung]. rewrite Hf.
    destruct (Z.leb_spec (ccp_test kernel n (type :: 2 :: tl) true) 0) as [Hle|Hgt].
    + split; [by intros [? _]|]. intros (_ & Ht). specialize (Ht eq_refl). lia.
    + split; [intros _; by split|done].
  - split; [|done]. cbn [cj_ret cj_hung]. rewrite Hf. simpl. tauto.
Qed.

Lemma judge_option_fine r : judge_option type clen p buf ho n = Good r -> judged_fine opt p n buf r.
Proof using Hlen Hs.
  unfold CcpReqci.judge_option. destruct ((type =? CI_DEFLATE) || (type =? CI_DEFLATE_DRAFT)) eqn:E1.
  { apply judge_deflate_fine. apply orb_true_iff in E1. by rewrite !Z.eqb_eq in E1. }
  destruct (Z.eqb_spec type CI_BSD_COMPRESS) as [|E2]; [by apply judge_bsd_fine|].
  assert (Hpred : option_fine ao opt = ((type =? CI_PREDICTOR_1) && (clen =? 2) && predictor_1 ao)
    || ((type =? CI_PREDICTOR_2) && (clen =? 2) && predictor_2 ao)).
  { apply orb_false_iff in E1 as [E1 E1']. simpl in Hlen. destruct tl as [|v [|c [|? ?]]]; simpl in *; try done;
      rewrite ?E1 ?E1' ?(proj2 (Z.eqb_neq _ _) E2) ?andb_false_r /= ?andb_false_r;
      rewrite (proj2 (Z.eqb_neq clen 2)) ?andb_false_r //; lia. }
  destruct (Z.eqb_spec type CI_PREDICTOR_1) as [E3|E3].
  { apply judge_predictor_fine. rewrite Hpred E3 /= orb_false_r. apply andb_comm. }
  destruct (Z.eqb_spec type CI_PREDICTOR_2) as [E4|E4].
  { apply judge_predictor_fine. rewrite Hpred ?E4 /=. apply andb_comm. }
  intros [= <-]. by apply judged_rej.
Qed.
End Fine.

(** ** The loop *)

(** A loop that has come from [inp], a request of [len0] bytes, to [st]. *)
Record walks (inp : bytes) (len0 : Z) (st : ccp_req) : Prop := {
  wk_kept : kept (Z.to_nat len0) inp (cr_buf st);
  wk_retp : (cr_retp st <= cr_p st)%nat;
  wk_len : Z.of_nat (cr_p st) + cr_len st = len0;
  wk_left : 0 <= cr_len st;
  wk_inp : len0 <= Z.of_nat (length inp);
  wk_ret : is_verdict (cr_ret st)
}.

(** What is left of the request. *)
Definition left_of (st : ccp_req) : bytes := take (Z.to_nat (cr_len st)) (drop (cr_p st) (cr_buf st)).

Lemma return_option_walks inp len0 clen newret st :
  walks inp len0 st -> 0 < clen <= cr_len st -> is_verdict newret ->
  walks inp len0 (return_option clen newret st) /\
  cr_len (return_option clen newret st) = cr_len st - clen /\
  cr_hung (return_option clen newret st) = cr_hung st /\
  (cr_ret (return_option clen newret st) = CONFACK <-> newret = CONFACK /\ cr_ret st = CONFACK).
Proof.
  intros [Hk Hr Hl H0 Hi Hv] Hc Hn. unfold CcpReqci.return_option.
  set (newret' := if (newret =? CONFNAK) && dont_nak then CONFREJ else newret).
  assert (Hn' : is_verdict newret' /\ (newret' = CONFACK <-> newret = CONFACK)).
  { unfold newret'. destruct (Z.eqb_spec newret CONFNAK) as [->|_]; [|by split].
    by destruct dont_nak; (split; [red; auto|split]). }
  clearbody newret'. destruct Hn' as [Hn' Hiff].
  assert (Hmv : forall retp, (retp <= cr_p st)%nat ->
    kept (Z.to_nat len0) inp (if (cr_p st =? retp)%nat then cr_buf st else BCOPY (cr_buf st) (cr_p st) retp (Z.to_nat clen))).
  { intros retp Hle. apply if_either; [done|]. destruct Hk as [Hk1 Hk2].
    destruct (BCOPY_spec (cr_buf st) (cr_p st) retp (Z.to_nat clen)) as (Hm1 & _ & Hm2); [done|lia|].
    eapply kept_trans; [by split|]. eapply (kept_weaken (cr_p st + Z.to_nat clen)); [lia|by split]. }
  destruct (negb _) eqn:Eb; cbn [cr_len cr_hung cr_ret].
  - set (retp := if (newret' =? CONFREJ) && _ then 0%nat else _).
    assert (Hretp : (retp <= cr_p st)%nat) by (unfold retp; apply if_either; lia).
    split; [split; cbn [cr_buf cr_retp cr_p cr_len cr_ret]; [by apply Hmv|lia..|done]|].
    split; [done|]. split; [done|]. apply negb_true_iff, orb_false_iff in Eb as [Eb _]. apply Z.eqb_neq in Eb. tauto.
  - split; [by split; cbn [cr_buf cr_retp cr_p cr_len cr_ret]; try lia|]. split; [done|]. split; [done|].
    bool_props. destruct Eb as [Eb|Eb]; [bool_props; tauto|]. apply andb_true_iff in Eb as [Eb1 Eb2]. bool_props. rewrite -Hiff Eb1 Eb2. split; [done|by intros [? _]].
Qed.

Lemma left_of_length inp len0 st : walks inp len0 st -> Z.of_nat (length (left_of st)) = cr_len st.
Proof.
  intros [[Hk _] _ Hl H0 Hi _]. unfold left_of. rewrite length_take length_drop Hk. lia.
Qed.

Lemma next_option_take type clen l len :
  2 <= len <= Z.of_nat (length (type :: clen :: l)) ->
  next_option (take (Z.to_nat len) (type :: clen :: l)) =
    if (clen <? 2) || (len <? clen) then None
    else Some (take (Z.to_nat clen) (type :: clen :: l), take (Z.to_nat (len - clen)) (drop (Z.to_nat clen) (type :: clen :: l))).
Proof.
  intros Hl. assert (Hlen : Z.of_nat (length (take (Z.to_nat len) (type :: clen :: l))) = len) by (rewrite length_take; lia).
  replace (Z.to_nat len) with (S (S (Z.to_nat (len - 2)))) in * by lia. unfold next_option.
  change (take (S (S (Z.to_nat (len - 2)))) (type :: clen :: l)) with (type :: clen :: take (Z.to_nat (len - 2)) l) in *.
  rewrite Hlen. destruct (_ || _) eqn:E; [done|]. bool_props.
  change (type :: clen :: take (Z.to_nat (len - 2)) l) with (take (S (S (Z.to_nat (len - 2)))) (type :: clen :: l)).
  rewrite take_take skipn_firstn_comm. do 3 f_equal; lia.
Qed.

(** One pass judges one option. *)
Record passes (inp : bytes) (len0 : Z) (st st' : ccp_req) : Prop := {
  ps_walks : walks inp len0 st';
  ps_len : cr_hung st' = false -> cr_len st' < cr_len st;
  ps_ack : cr_ret st' = CONFACK /\ cr_hung st' = false <-> cr_ret st = CONFACK /\
     exists opt rest, next_option (left_of st) = Some (opt, rest) /\ option_fine ao opt = true /\
       (cr_p st = 0%nat -> 0 < ccp_test kernel (cr_n st) opt true);
  ps_next : cr_ret st' = CONFACK -> cr_hung st' = false -> cr_buf st' = cr_buf st /\ (0 < cr_p st')%nat /\
     forall opt rest, next_option (left_of st) = Some (opt, rest) -> left_of st' = rest
}.

Lemma bad_passes inp len0 st :
  walks inp len0 st -> 0 < cr_len st -> next_option (left_of st) = None ->
  passes inp len0 st (return_option (cr_len st) CONFREJ st).
Proof.
  intros Hw Hpos Hn.
  destruct (return_option_walks inp len0 (cr_len st) CONFREJ st Hw ltac:(lia) ltac:(by right; right)) as (W & Hlen & _ & Hret).
  split; [done|lia|rewrite Hn; split|].
  - intros [Hx _]. by apply Hret in Hx as [? _].
  - by intros (_ & ? & ? & ? & _).
  - intros Hx. by apply Hret in Hx as [? _].
Qed.

Lemma judge_pass_passes inp len0 st :
  walks inp len0 st -> 0 < cr_len st -> cr_hung st = false ->
  exists st', judge_pass st = Good st' /\ passes inp len0 st st'.
Proof.
  intros Hw Hpos Hh. pose proof Hw as [[Hk1 Hk2] Hr Hl H0 Hi Hv]. unfold CcpReqci.judge_pass.
  assert (Hd : cr_len st <= Z.of_nat (length (drop (cr_p st) (cr_buf st)))) by (rewrite length_drop; lia).
  pose proof (left_of_length _ _ _ Hw) as Hlo.
  destruct (Z.ltb_spec (cr_len st) 2) as [H2|H2].
  { eexists. split; [done|]. apply bad_passes; [done..|].
    destruct (left_of st) as [|? [|? ?]]; simpl in Hlo; [done..|lia]. }
  pose proof (eq_refl (left_of st)) as Hleft. unfold left_of at 2 in Hleft.
  destruct (drop (cr_p st) (cr_buf st)) as [|type [|clen l]] eqn:Ed; [simpl in Hd; lia..|].
  assert (Hno := next_option_take type clen l (cr_len st) ltac:(lia)). rewrite -Hleft in Hno.
  destruct ((clen <? 2) || (cr_len st <? clen)) eqn:E.
  { eexists. split; [done|]. by apply bad_passes. }
  apply orb_false_iff in E as [Hc1 Hc2]. apply Z.ltb_ge in Hc1, Hc2.
  set (opt := take (Z.to_nat clen) (type :: clen :: l)) in *.
  assert (Hopt : exists tl, opt = type :: clen :: tl).
  { unfold opt. exists (take (Z.to_nat (clen - 2)) l). by replace (Z.to_nat clen) with (S (S (Z.to_nat (clen - 2)))) by lia. }
  destruct Hopt as [tl Hopt].
  assert (Hol : Z.of_nat (length (type :: clen :: tl)) = clen) by (rewrite -Hopt /opt length_take; lia).
  destruct (judge_option_total type clen (cr_p st) (cr_buf st) (cr_ho st) (cr_n st)) as (r & Hj & Hkr & Hvr); [lia|].
  rewrite Hj. cbn [mbind parse_bind].
  assert (Hs : stands_at (type :: clen :: tl) (cr_p st) (cr_buf st)).
  { unfold stands_at. rewrite Ed -Hopt. unfold opt at 2. f_equal. rewrite Hopt. lia. }
  pose proof (judge_option_fine type clen tl (cr_p st) (cr_buf st) (cr_ho st) (cr_n st) Hol Hs r Hj) as [Ha Hb].
  rewrite -Hopt in Ha. eexists. split; [done|]. set (st1 := CcpReq (cj_buf r) _ _ _ _ _ _ _ _).
  assert (Hw1 : walks inp len0 st1).
  { split; [|done..]. eapply kept_trans; [by split|]. eapply kept_weaken, Hkr. lia. }
  assert (Hst1 : cr_hung st1 = cj_hung r /\ cr_ret st1 = cr_ret st /\ cr_buf st1 = cj_buf r /\ cr_p st1 = cr_p st /\ cr_len st1 = cr_len st)
    by done.
  clearbody st1. destruct Hst1 as (E1 & E2 & E3 & E4 & E5). destruct (cj_hung r) eqn:Ehung.
  { split; rewrite ?E1; [done|done| |done]. split; [by intros [? ?]|].
    intros (_ & opt' & rest & Hn & Hf & Ht). rewrite Hno in Hn. injection Hn as <- <-. by destruct (proj2 Ha (conj Hf Ht)). }
  destruct (return_option_walks inp len0 clen (cj_ret r) st1 Hw1 ltac:(lia) Hvr) as (W & Hlen & Hhu & Hret).
  rewrite E1 in Hhu. rewrite E2 in Hret. split; [done|intros _; rewrite Hlen; lia|..].
  - rewrite Hret Hhu Hno. split.
    + intros [[Hra Hrs] _]. split; [done|]. eexists _, _. split; [done|]. by apply Ha.
    + intros (Hrs & opt' & rest & [= <- <-] & Hf & Ht). split; [|done]. split; [|done]. by apply Ha.
  - intros Hx _. apply Hret in Hx as [Hra Hrs]. unfold CcpReqci.return_option. rewrite Hra. cbn. rewrite E3 E4 E5 Hb //.
    split; [done|]. split; [lia|]. intros opt' rest Hn. rewrite Hno in Hn. injection Hn as <- <-.
    unfold left_of. cbn. by rewrite -drop_drop Ed.
Qed.

Abbreviation taken n := (fun opt => 0 <? ccp_test kernel n opt true).

Lemma acceptable_step t fuel first l :
  l <> [] ->
  acceptable t ao (S fuel) first l = true <->
  exists opt rest, next_option l = Some (opt, rest) /\ option_fine ao opt = true /\ (first = true -> t opt = true) /\
    acceptable t ao fuel false rest = true.
Proof.
  intros Hl. destruct l as [|c l]; [done|]. cbn [acceptable]. destruct (next_option (c :: l)) as [[opt rest]|] eqn:E.
  - rewrite !andb_true_iff orb_true_iff negb_true_iff. split.
    + intros [[? Hf] ?]. exists opt, rest. split_and!; [done..| |done]. destruct Hf as [->|?]; [done|by intros _].
    + intros (? & ? & [= <- <-] & ? & Hf & ?). split_and!; [done| |done]. destruct first; [right; by apply Hf|by left].
  - split; [done|]. by intros (? & ? & ? & _).
Qed.

Lemma acceptable_rest t t' fuel l : acceptable t ao fuel false l = acceptable t' ao fuel false l.
Proof.
  revert l. induction fuel as [|fuel IH]; intros [|c l]; [done..|]. cbn [acceptable].
  destruct (next_option (c :: l)) as [[opt rest]|]; [|done]. by rewrite IH.
Qed.

Lemma judge_loop_runs inp len0 fuel st :
  walks inp len0 st -> cr_hung st = false -> cr_len st <= Z.of_nat fuel ->
  exists st', judge_loop fuel st = Good st' /\ walks inp len0 st' /\ (cr_hung st' = false -> cr_len st' = 0) /\
    (cr_ret st' = CONFACK /\ cr_hung st' = false <->
     cr_ret st = CONFACK /\ acceptable (taken (cr_n st)) ao fuel (cr_p st =? 0)%nat (left_of st) = true) /\
    (cr_ret st' = CONFACK -> cr_hung st' = false -> cr_buf st' = cr_buf st).
Proof.
  revert st. induction fuel as [|fuel IH]; intros st Hw Hh Hf; pose proof (wk_left _ _ _ Hw) as H0;
    pose proof (left_of_length _ _ _ Hw) as Hlo.
  { exists st. split; [done|]. split; [done|]. split; [lia|]. destruct (left_of st); [|simpl in Hlo; lia]. simpl. tauto. }
  cbn [CcpReqci.judge_loop]. rewrite Hh orb_false_r. destruct (Z.leb_spec (cr_len st) 0) as [Hle|Hgt].
  { exists st. split; [done|]. split; [done|]. split; [lia|]. destruct (left_of st); [|simpl in Hlo; lia]. simpl. tauto. }
  destruct (judge_pass_passes inp len0 st Hw Hgt Hh) as (st1 & -> & [W1 Hl1 Ha1 Hn1]). cbn [mbind parse_bind].
  assert (Hne : left_of st <> []) by (intros E; rewrite E in Hlo; simpl in Hlo; lia).
  pose proof (acceptable_step (taken (cr_n st)) fuel (cr_p st =? 0)%nat _ Hne) as Hstep. destruct (cr_hung st1) eqn:E1.
  { exists st1. split; [by destruct fuel; simpl; rewrite ?E1 ?orb_true_r|]. split; [done|]. split; [congruence|].
    rewrite E1 Hstep. split; [|done]. split; [by intros [? ?]|]. intros (Hr & opt & rest & Hn & Hfi & Ht & _).
    destruct Ha1 as [_ Ha1]. destruct Ha1 as [_ ?]; [|done]. split; [done|]. exists opt, rest. split_and!; [done..|].
    intros Hp. apply Z.ltb_lt, Ht. by apply Nat.eqb_eq. }
  destruct (IH st1 W1 E1) as (st' & -> & W' & He & Ha & Hb); [specialize (Hl1 eq_refl); lia|].
  exists st'. split; [done|]. split; [done|]. split; [done|].
  assert (Hiff : cr_ret st1 = CONFACK /\ acceptable (taken (cr_n st1)) ao fuel (cr_p st1 =? 0)%nat (left_of st1) = true <->
    cr_ret st = CONFACK /\ (exists opt rest, next_option (left_of st) = Some (opt, rest) /\ option_fine ao opt = true /\
      ((cr_p st =? 0)%nat = true -> taken (cr_n st) opt = true) /\ acceptable (taken (cr_n st)) ao fuel false rest = true)).
  { split.
    - intros [Hr1 Hacc]. destruct (proj1 Ha1 (conj Hr1 eq_refl)) as (Hr & opt & rest & Hn & Hfi & Ht).
      split; [done|]. exists opt, rest. destruct (Hn1 Hr1 eq_refl) as (_ & Hp1 & Hrest). rewrite (Hrest _ _ Hn) in Hacc.
      rewrite (proj2 (Nat.eqb_neq _ _)) in Hacc; [lia|]. split; [done|]. split; [done|]. split; [|by rewrite -Hacc; apply acceptable_rest].
      intros Hp. apply Z.ltb_lt, Ht. by apply Nat.eqb_eq.
    - intros (Hr & opt & rest & Hn & Hfi & Ht & Hacc). destruct Ha1 as [_ Ha1]. destruct Ha1 as [Hr1 _].
      { split; [done|]. exists opt, rest. split_and!; [done..|]. intros Hp. apply Z.ltb_lt, Ht. by apply Nat.eqb_eq. }
      split; [done|]. destruct (Hn1 Hr1 eq_refl) as (_ & Hp1 & Hrest). rewrite (Hrest _ _ Hn) (proj2 (Nat.eqb_neq _ _)); [lia|].
      rewrite -Hacc. apply acceptable_rest. }
  rewrite Hstep Ha Hiff. split; [done|]. intros Hr Hh'. destruct (proj1 Ha (conj Hr Hh')) as [Hr1 _].
  destruct (Hn1 Hr1 eq_refl) as [Hb1 _]. rewrite -Hb1. by apply Hb.
Qed.

(** ** The end of a request *)

Lemma start_walks inp len m n :
  0 <= len <= Z.of_nat (length inp) ->
  walks inp len (CcpReq inp 0 0 CONFACK len (set_method m no_ccp_options) n false false).
Proof. intros Hl. split; simpl; try lia; [done|by left]. Qed.

Lemma reqci_runs inp len n :
  0 <= len <= Z.of_nat (length inp) ->
  exists st, ccp_reqci kernel patience ao dont_nak inp len n = Good (ccp_finish len st) /\ walks inp len st /\
    (exists m, judge_loop (Z.to_nat len) (CcpReq inp 0 0 CONFACK len (set_method m no_ccp_options) n false false) = Good st) /\
    (cr_hung st = false -> cr_len st = 0) /\
    (cr_ret st = CONFACK /\ cr_hung st = false <->
     acceptable (taken n) ao (Z.to_nat len) true (take (Z.to_nat len) inp) = true) /\
    (cr_ret st = CONFACK -> cr_hung st = false -> cr_buf st = inp).
Proof.
  intros Hl. unfold ccp_reqci.
  assert (Hm : exists m, (if 0 <? len then get (inp !! 0%nat) else Good (-1)) = Good m).
  { destruct (Z.ltb_spec 0 len); [|by eexists]. destruct inp as [|c inp]; [simpl in Hl; lia|by eexists]. }
  destruct Hm as [m ->]. cbn [mbind parse_bind].
  destruct (judge_loop_runs inp len (Z.to_nat len) _ (start_walks inp len m n Hl) eq_refl)
    as (st & Hj & W & He & Ha & Hb); [simpl; lia|].
  rewrite Hj. exists st. split; [done|]. split; [done|]. split; [by exists m|]. split; [done|]. split; [|done].
  rewrite Ha. cbn. unfold left_of. cbn. rewrite drop_0. tauto.
Qed.

(** ** A loop that does not end *)

(** The code size of a BSD-Compress option that we would lower is below the
    minimum to begin with. *)
Definition below_minimum (l : bytes) : bool :=
  match l with
  | type :: clen :: v :: _ =>
      (type =? CI_BSD_COMPRESS) && (clen =? CILEN_BSD_COMPRESS) && bsd_compress ao && negb dont_nak && (BSD_NBITS v <? BSD_MIN_BITS)
  | _ => false
  end.

Lemma fit_first_ends clen min make nb p newret buf ho n :
  cj_hung (fit_first clen min make nb p newret buf ho n) = true -> p = 0%nat /\ dont_nak = false /\ nb < min.
Proof.
  unfold fit_first. destruct (Nat.eqb_spec p 0) as [->|Hp]; [|done].
  destruct (fit_option _ _ _ _ _ _ _ _ _ _) as [[[r buf'] n']|] eqn:E; [done|]. intros _. split; [done|].
  destruct (Z.lt_ge_cases nb min) as [Hlt|Hge].
  - split; [|done]. destruct dont_nak eqn:Ed; [|done]. rewrite Nat.add_succ_r /= in E.
    destruct (0 <? _); [done|]. by rewrite orb_true_r in E.
  - exfalso. eapply (fit_option_ends (patience + S (Z.to_nat (nb - min))) clen min make nb 0 nb newret buf n); [done|lia|done].
Qed.

Lemma fit_option_stuck j clen min make back p nb newret buf n :
  (forall m opt, kernel m opt true = CO_nobufs) -> dont_nak = false -> nb < min ->
  fit_option j clen min make back p nb newret buf n = None.
Proof.
  intros Hk Hd. revert nb newret buf n. induction j as [|j IH]; intros nb newret buf n Hlt; simpl; unfold ccp_test at 1 2; rewrite Hk Hd;
    rewrite (proj2 (Z.eqb_neq nb min)) /=; [lia|done|lia|]. rewrite Hd in IH. apply IH. lia.
Qed.

Lemma judge_option_hung type clen p buf ho n r :
  judge_option type clen p buf ho n = Good r -> cj_hung r = true ->
  p = 0%nat /\ (Forall byte_ok buf -> exists v, buf !! 2%nat = Some v /\ below_minimum [type; clen; v] = true).
Proof.
  unfold CcpReqci.judge_option. destruct (_ || _) eqn:E1.
  { unfold judge_deflate. case_match; [by intros [= <-]|]. destruct (buf !! (p + 2)%nat) as [p2|] eqn:E2; [|done].
    destruct (buf !! (p + 3)%nat) as [p3|]; [|done]. cbn [get mbind parse_bind].
    assert (Hsize : Forall byte_ok buf -> DEFLATE_MIN_SIZE <= DEFLATE_SIZE p2).
    { intros Hb. eapply Forall_lookup_1 in E2; [|done]. unfold DEFLATE_SIZE. assert (0 <= Z.shiftr p2 4); [|lia]. apply Z.shiftr_nonneg. apply E2. }
    case_match; [apply (if_either (fun x => x = Good r -> cj_hung r = true -> _)); [by intros [= <-]|]|];
      intros [= <-] Hh; apply fit_first_ends in Hh as (-> & _ & ?); (split; [done|]); intros Hb; specialize (Hsize Hb); lia. }
  destruct (Z.eqb_spec type CI_BSD_COMPRESS) as [->|E2].
  { unfold judge_bsd. case_match eqn:E3; [by intros [= <-]|]. destruct (buf !! (p + 2)%nat) as [p2|] eqn:E4; [|done].
    cbn [get mbind parse_bind]. apply orb_false_iff in E3 as [E3 E5]. apply negb_false_iff in E3, E5.
    case_match; [apply (if_either (fun x => x = Good r -> cj_hung r = true -> _)); [by intros [= <-]|]|];
      intros [= <-] Hh;
      apply fit_first_ends in Hh as (-> & Hd & Hlt); (split; [done|]); intros _; exists p2; (split; [done|]);
      unfold below_minimum; rewrite E3 E5 Hd (proj2 (Z.ltb_lt _ _) Hlt); done. }
  destruct (type =? CI_PREDICTOR_1); [|destruct (type =? CI_PREDICTOR_2); [|by intros [= <-]]]; unfold judge_predictor;
    (case_match; [by intros [= <-]|]); case_match; by intros [= <-].
Qed.

Lemma return_option_p clen newret st :
  cr_p (return_option clen newret st) = (cr_p st + Z.to_nat clen)%nat /\ cr_hung (return_option clen newret st) = cr_hung st.
Proof. unfold CcpReqci.return_option. by destruct (negb (_ || _)). Qed.

(** Only the first pass can hang. *)
Lemma judge_pass_hung st st' :
  judge_pass st = Good st' -> cr_hung st = false -> 0 < cr_len st ->
  (cr_hung st' = false -> (cr_p st < cr_p st')%nat) /\
  (cr_hung st' = true -> cr_p st = 0%nat /\ (Forall byte_ok (cr_buf st) -> 2 < cr_len st /\ below_minimum (cr_buf st) = true)).
Proof.
  intros Hp Hh Hl. unfold CcpReqci.judge_pass in Hp.
  assert (Hbad : forall clen newret st1, 0 < clen -> cr_p st1 = cr_p st -> cr_hung st1 = false -> return_option clen newret st1 = st' ->
    (cr_hung st' = false -> (cr_p st < cr_p st')%nat) /\
    (cr_hung st' = true -> cr_p st = 0%nat /\ (Forall byte_ok (cr_buf st) -> 2 < cr_len st /\ below_minimum (cr_buf st) = true))).
  { intros clen newret st1 Hc E1 E2 <-. destruct (return_option_p clen newret st1) as [-> ->]. rewrite E1 E2. split; [lia|done]. }
  destruct (Z.ltb_spec (cr_len st) 2); [injection Hp; by eapply Hbad|].
  destruct (drop (cr_p st) (cr_buf st)) as [|type [|clen l]] eqn:Ed; [done..|].
  destruct ((clen <? 2) || (cr_len st <? clen)) eqn:Ec; [injection Hp; by eapply Hbad|].
  apply orb_false_iff in Ec as [Ec1 Ec2]. apply Z.ltb_ge in Ec1, Ec2.
  destruct (judge_option _ _ _ _ _ _) as [r| |] eqn:Ej; [|done..]. cbn [mbind parse_bind] in Hp.
  destruct (cj_hung r) eqn:Er; injection Hp as Hp; [|eapply Hbad; [|..|exact Hp]; [lia|done..]].
  subst st'. split; [done|]. intros _. destruct (judge_option_hung _ _ _ _ _ _ _ Ej Er) as [E0 Hv]. split; [done|].
  intros Hb. destruct (Hv Hb) as (v & Hv2 & Hm). rewrite E0 drop_0 in Ed. rewrite Ed in Hv2 |- *.
  destruct l as [|v' l]; [done|]. injection Hv2 as ->. split; [|exact Hm].
  unfold below_minimum in Hm. bool_props. subst clen. unfold CILEN_BSD_COMPRESS in *. lia.
Qed.

Lemma judge_loop_hung fuel st st' :
  judge_loop fuel st = Good st' -> cr_hung st = false -> cr_hung st' = true ->
  cr_p st = 0%nat /\ (Forall byte_ok (cr_buf st) -> 2 < cr_len st /\ below_minimum (cr_buf st) = true).
Proof.
  revert st. induction fuel as [|fuel IH]; intros st; cbn [CcpReqci.judge_loop]; [intros [= <-]; congruence|].
  intros Hl Hh Hh'. rewrite Hh orb_false_r in Hl. destruct (Z.leb_spec (cr_len st) 0); [injection Hl as <-; congruence|].
  destruct (judge_pass st) as [st1| |] eqn:Ep; [|done..]. cbn [mbind parse_bind] in Hl.
  destruct (judge_pass_hung _ _ Ep Hh ltac:(lia)) as [Hn Hy]. destruct (cr_hung st1) eqn:E1; [by apply Hy|].
  specialize (IH st1 Hl E1 Hh') as [? _]. specialize (Hn eq_refl). lia.
Qed.

End Spec.

(** A kernel without buffers keeps the loop going. *)
Lemma judge_loop_stuck kernel patience ao dont_nak fuel st :
  (forall m opt, kernel m opt true = CO_nobufs) -> cr_p st = 0%nat -> cr_hung st = false -> 2 < cr_len st ->
  below_minimum ao dont_nak (cr_buf st) = true ->
  exists st', judge_loop kernel patience ao dont_nak (S fuel) st = Good st' /\ cr_hung st' = true.
Proof.
  intros Hk Hp Hh Hl Hb. cbn [judge_loop]. rewrite Hh orb_false_r (proj2 (Z.leb_gt _ _)); [lia|].
  unfold judge_pass. rewrite (proj2 (Z.ltb_ge _ _)); [lia|]. rewrite Hp drop_0.
  destruct (cr_buf st) as [|type [|clen [|v l]]] eqn:Ebuf; [done..|]. unfold below_minimum in Hb.
  rewrite !andb_true_iff negb_true_iff !Z.eqb_eq in Hb. destruct Hb as ((((-> & ->) & Hbsd) & ->) & Hv).
  rewrite (proj2 (orb_false_iff _ _)); [split; [done|]; apply Z.ltb_ge; unfold CILEN_BSD_COMPRESS; lia|].
  unfold judge_option, judge_bsd. cbn [CI_BSD_COMPRESS CI_DEFLATE CI_DEFLATE_DRAFT Z.eqb Pos.eqb orb].
  rewrite Hbsd. cbn [negb CILEN_BSD_COMPRESS Z.eqb Pos.eqb orb lookup list_lookup Nat.add get mbind parse_bind].
  rewrite Hv orb_true_r. unfold fit_first. cbn [Nat.eqb]. apply Z.ltb_lt in Hv. rewrite fit_option_stuck //.
  cbn [cj_hung]. eexists. split; [by destruct fuel; simpl; rewrite ?orb_true_r|done].
Qed.

(** ** The claims *)

(** A Configure-Request is judged inside the packet.  The walk always
    reaches a verdict, writes nothing behind the request, and leaves a reply that
    is no longer than it; the reply counts as a rejection of everything exactly
    if it is a Reject of the length of the request. *)
Theorem ccp_reqci_inside kernel patience ao dont_nak inp len n :
  0 <= len <= Z.of_nat (length inp) ->
  exists r, ccp_reqci kernel patience ao dont_nak inp len n = Good r /\
    length (cy_buf r) = length inp /\ drop (Z.to_nat len) (cy_buf r) = drop (Z.to_nat len) inp /\
    0 <= cy_len r <= len /\ is_verdict (cy_ret r) /\
    (cy_rejected r = true <-> cy_ret r = CONFREJ /\ cy_len r = len).
Proof.
  intros Hl. destruct (reqci_runs kernel patience ao dont_nak inp len n Hl) as (st & -> & [[Hk1 Hk2] Hr Hle H0 _ Hv] & _).
  eexists. split; [done|]. unfold ccp_finish.
  assert (Hret : (cr_ret st =? CONFACK) = true \/ (cr_ret st =? CONFREJ) = false \/ (cr_ret st =? CONFREJ) = true /\ (cr_ret st =? CONFACK) = false)
    by (destruct Hv as [->|[->| ->]]; auto).
  destruct (Z.eqb_spec (cr_ret st) CONFACK) as [Ea|Ea]; cbn [negb cy_buf cy_len cy_ret cy_rejected].
  { rewrite Ea. split_and!; [done|done|lia|lia|by left|]. by split; [|intros [? _]]. }
  destruct (Z.eqb_spec (cr_ret st) CONFREJ) as [Er|Er], (Z.eqb_spec len (Z.of_nat (cr_retp st))) as [El|El];
    cbn [andb cy_buf cy_len cy_ret cy_rejected]; (split; [done|]); (split; [done|]); (split; [lia|]); (split; [done|]); split; try done; try tauto.
  intros [_ ?]. lia.
Qed.

(** C38: exactly the requests are acknowledged that are a list of options we
    allow, every value in our bounds, the first of which the kernel takes; an
    acknowledged request is returned as it came. *)
Theorem ccp_reqci_acks kernel patience ao dont_nak inp len n :
  0 <= len <= Z.of_nat (length inp) ->
  exists r, ccp_reqci kernel patience ao dont_nak inp len n = Good r /\
    (cy_ret r = CONFACK /\ cy_hung r = false <->
     acceptable (fun opt => 0 <? ccp_test kernel n opt true) ao (Z.to_nat len) true (take (Z.to_nat len) inp) = true) /\
    (cy_ret r = CONFACK -> cy_hung r = false -> cy_buf r = inp /\ cy_len r = len).
Proof.
  intros Hl. destruct (reqci_runs kernel patience ao dont_nak inp len n Hl) as (st & -> & _ & _ & _ & Ha & Hb).
  eexists. split; [done|]. unfold ccp_finish. destruct (negb (cr_ret st =? CONFACK)) eqn:En.
  - apply negb_true_iff, Z.eqb_neq in En. destruct ((cr_ret st =? CONFREJ) && _); cbn; tauto.
  - apply negb_false_iff, Z.eqb_eq in En. cbn. split; [done|]. intros. split; [by apply Hb|done].
Qed.

(** C39: the walk over a request ends, unless the first option asks for
    BSD-Compress with a code size below the minimum; then, with a kernel that has
    no buffers, no number of passes is enough. *)
Theorem ccp_reqci_ends kernel patience ao dont_nak inp len n :
  0 <= len <= Z.of_nat (length inp) -> Forall byte_ok inp ->
  exists r, ccp_reqci kernel patience ao dont_nak inp len n = Good r /\
    (cy_hung r = true -> 2 < len /\ below_minimum ao dont_nak inp = true) /\
    (2 < len -> below_minimum ao dont_nak inp = true -> (forall m opt, kernel m opt true = CO_nobufs) -> cy_hung r = true).
Proof.
  intros Hl Hb. destruct (reqci_runs kernel patience ao dont_nak inp len n Hl) as (st & -> & _ & (m & Hj) & _).
  eexists. split; [done|]. assert (Hh : cy_hung (ccp_finish len st) = cr_hung st).
  { unfold ccp_finish. destruct (negb _); [|done]. by destruct (_ && _). }
  rewrite Hh. split.
  - intros Ht. destruct (judge_loop_hung _ _ _ _ _ _ _ Hj eq_refl Ht) as [_ H]. by apply H.
  - intros H2 Hm Hk. destruct (judge_loop_stuck kernel patience ao dont_nak (Z.to_nat (len - 1))
      (CcpReq inp 0 0 CONFACK len (set_method m no_ccp_options) n false false) Hk eq_refl eq_refl H2 Hm) as (st' & Hj' & Ht).
    replace (S (Z.to_nat (len - 1))) with (Z.to_nat len) in Hj' by lia. rewrite Hj in Hj'. by injection Hj' as ->.
Qed.

(** ** Our request at a peer with our settings *)

(** A peer that allows what [go] asks for. *)
Record serves (ao go : ccp_options) : Prop := {
  sv_deflate : deflate go = true -> deflate ao = true /\ deflate_size go <= deflate_size ao;
  sv_correct : deflate go = true -> deflate_correct go = true -> deflate_correct ao = true;
  sv_draft : deflate go = true -> deflate_draft go = true \/ deflate_correct go = false -> deflate_draft ao = true;
  sv_bsd : bsd_compress go = true -> bsd_compress ao = true /\ BSD_MIN_BITS <= bsd_bits go <= bsd_bits ao;
  sv_pred1 : predictor_1 go = true -> predictor_1 ao = true;
  sv_pred2 : predictor_2 go = true -> predictor_2 ao = true
}.

Lemma serves_narrowed ao go go' : serves ao go -> ccp_narrowed go go' -> serves ao go'.
Proof.
  intros [D C R B P Q] [nb nd n1 n2 nc nf nbi nsi]. split; rewrite ?nc ?nf; auto.
  - intros H. destruct (D (nd H)). split; [done|lia].
  - intros H. destruct (B (nb H)) as [? ?]. split; [done|]. unfold BSD_MIN_BITS in *. lia.
Qed.

Lemma deflate_option_fine ao code w :
  DEFLATE_MIN_SIZE <= w <= DEFLATE_MAX_SIZE -> w <= deflate_size ao -> deflate ao = true ->
  (code = CI_DEFLATE /\ deflate_correct ao = true \/ code = CI_DEFLATE_DRAFT /\ deflate_draft ao = true) ->
  option_fine ao (deflate_option code w) = true.
Proof.
  intros Hw Ha Hd Hc. unfold option_fine, deflate_option. rewrite Hd /=.
  assert (Hm : DEFLATE_METHOD (DEFLATE_MAKE_OPT w) = DEFLATE_METHOD_VAL /\ DEFLATE_SIZE (DEFLATE_MAKE_OPT w) = w).
  { unfold DEFLATE_METHOD, DEFLATE_SIZE, DEFLATE_MAKE_OPT, DEFLATE_METHOD_VAL, DEFLATE_MIN_SIZE, DEFLATE_MAX_SIZE in *.
    rewrite (Z.land_ones _ 4) // Z.shiftr_div_pow2 // Z.shiftl_mul_pow2 //. change (2 ^ 4) with 16. split; Z.to_euclidean_division_equations; lia. }
  destruct Hm as [-> ->]. rewrite (proj2 (Z.leb_le _ _)); [lia|]. rewrite (proj2 (Z.leb_le w _)) //.
  by destruct Hc as [[-> ->]|[-> ->]]; rewrite ?orb_true_r.
Qed.

Lemma bsd_option_fine ao n :
  bsd_compress ao = true -> BSD_MIN_BITS <= n <= BSD_MAX_BITS -> n <= bsd_bits ao -> option_fine ao (bsd_option n) = true.
Proof.
  intros Hb Hn Ha. unfold option_fine, bsd_option. rewrite Hb. unfold BSD_MIN_BITS, BSD_MAX_BITS in *. rewrite make_bsd_small; [lia|].
  assert (Hm : BSD_VERSION (32 + n) = BSD_CURRENT_VERSION /\ BSD_NBITS (32 + n) = n).
  { unfold BSD_VERSION, BSD_NBITS. rewrite (Z.land_ones _ 5) // Z.shiftr_div_pow2 //. change (2 ^ 5) with 32. unfold BSD_CURRENT_VERSION. split; Z.to_euclidean_division_equations; lia. }
  destruct Hm as [-> ->]. rewrite (proj2 (Z.leb_le 9 _)); [lia|]. by rewrite (proj2 (Z.leb_le n _)).
Qed.

Section Request.
Context (ao : ccp_options) (t : bytes -> bool).
Hypothesis takes : forall opt, t opt = true.

Definition ccp_accepted (l : bytes) : Prop :=
  forall fuel first, (length l <= fuel)%nat -> acceptable t ao fuel first l = true.

Lemma accepted_nil : ccp_accepted [].
Proof. by intros []. Qed.

Lemma accepted_ask neg type clen tl l :
  clen = Z.of_nat (length (type :: clen :: tl)) -> (neg = true -> option_fine ao (type :: clen :: tl) = true) ->
  ccp_accepted l -> ccp_accepted (ask neg (type :: clen :: tl) ++ l).
Proof using takes.
  intros Hc Hf Hl. destruct neg; [|done]. intros [|fuel] first Hle; [simpl in Hle; lia|]. unfold ask in *.
  rewrite length_app in Hle.
  apply acceptable_step; [done|]. exists (type :: clen :: tl), l. split; [|split; [by apply Hf|split; [by intros _|]]].
  - assert (Hn := next_option_take type clen (tl ++ l) (Z.of_nat (length (type :: clen :: tl ++ l)))).
    rewrite Nat2Z.id firstn_all in Hn. change ((type :: clen :: tl) ++ l) with (type :: clen :: tl ++ l).
    rewrite Hn; [split; [simpl; lia|done]|].
    change (type :: clen :: tl ++ l) with ((type :: clen :: tl) ++ l). rewrite length_app.
    rewrite (proj2 (orb_false_iff _ _)); [split; apply Z.ltb_ge; rewrite Hc; simpl; lia|].
    assert (Hcn : Z.to_nat clen = length (type :: clen :: tl)) by lia.
    rewrite Hcn take_app_length drop_app_length firstn_all2; [lia|done].
  - apply Hl. simpl in Hle. lia.
Qed.

Lemma request_accepted go : ccp_sizes_ok go -> serves ao go -> ccp_accepted (ccp_request go).
Proof using takes.
  intros [Hs Hb] [D C R B P Q]. unfold ccp_request.
  repeat (apply accepted_ask; [done|..]); [..|rewrite -(app_nil_r (ask _ _)); apply accepted_ask; [done|..|by apply accepted_nil]].
  - intros Hd. destruct (D Hd). apply deflate_option_fine; [done..|]. unfold deflate_code.
    destruct (deflate_correct go) eqn:Ec; [left; auto|right; auto].
  - intros Hd. rewrite !andb_true_iff in Hd. destruct Hd as [[Hd Hc] Hdr]. destruct (D Hd).
    apply deflate_option_fine; [done..|]. right; auto.
  - intros Hd. destruct (B Hd) as [? ?]. apply bsd_option_fine; [done|lia|lia].
  - intros Hp. unfold predictor_1_option, option_fine. by rewrite (P Hp).
  - intros Hp. unfold predictor_2_option, option_fine. by rewrite (Q Hp).
Qed.
End Request.

(** Two daemons with compatible settings agree.  The request one of them
    writes, whatever its kernel made of the options, is acknowledged unchanged by
    a peer that allows them and whose kernel takes the first, and that Ack is
    accepted. *)
Theorem ccp_request_roundtrip kernel peer patience go ao dont_nak n m :
  ccp_sizes_ok go -> serves ao go -> (forall opt, peer m opt true = CO_taken) ->
  let '(out, len, go', _) := ccp_addci kernel go n in
  exists r, ccp_reqci peer patience ao dont_nak out len m = Good r /\ cy_ret r = CONFACK /\ cy_hung r = false /\
    take (Z.to_nat (cy_len r)) (cy_buf r) = ccp_request go' /\ ccp_ackci go' (cy_buf r) (cy_len r) = Good ().
Proof.
  intros Hok Hs Ht. pose proof (ccp_addci_request kernel go n Hok) as Hr.
  destruct (ccp_addci kernel go n) as [[[out len] go'] n']. destruct Hr as ([junk ->] & -> & Hn & Hok' & _).
  set (len := Z.of_nat (length (ccp_request go'))).
  assert (Hl : 0 <= len <= Z.of_nat (length (ccp_request go' ++ junk))) by (rewrite length_app; lia).
  destruct (reqci_runs peer patience ao dont_nak _ _ m Hl) as (st & -> & _ & _ & _ & Ha & Hb).
  assert (Hreq : take (Z.to_nat len) (ccp_request go' ++ junk) = ccp_request go') by (unfold len; by rewrite Nat2Z.id take_app_length).
  rewrite Hreq in Ha. destruct Ha as [_ Ha]. destruct Ha as [Hret Hh].
  { apply request_accepted; [by intros opt; unfold ccp_test; rewrite Ht|done|by eapply serves_narrowed|]. unfold len. lia. }
  eexists. split; [done|]. unfold ccp_finish. rewrite Hret. cbn [negb Z.eqb CONFACK Pos.eqb cy_ret cy_hung cy_buf cy_len].
  rewrite (Hb Hret Hh) Hreq. split_and!; [done..|]. apply ackci_accepts; [done|]. left. exact Hreq.
Qed.
