(* ===== verification/CcpWitness.v ===== *)
(** * CCP: the options at concrete inputs

    Kernels that take every method, that have no buffers above a size, and that
    never have any; requests and answers on them, and the theorems of
    [CcpSpec] and [CcpReqciSpec] there. *)

From S2P Require Import Prelude Wire Fsm LcpOptions LcpReqci CcpOptions CcpReqci CcpSpec CcpReqciSpec.

(** Every method is taken. *)
Definition rich_kernel : nat -> bytes -> bool -> compress_outcome := fun _ _ _ => CO_taken.
(** There are no buffers for a window of more than 12 bits. *)
Definition small_kernel : nat -> bytes -> bool -> compress_outcome :=
  fun _ opt _ => if 12 <? DEFLATE_SIZE (nth 2 opt 0) then CO_nobufs else CO_taken.
Definition empty_kernel : nat -> bytes -> bool -> compress_outcome := fun _ _ _ => CO_nobufs.

Definition full_options : ccp_options :=
  CcpOptions true true true true true true BSD_MAX_BITS DEFLATE_MAX_SIZE 0.

Lemma full_options_ok : ccp_sizes_ok full_options.
Proof. by split. Qed.

(** ** Our request *)

(** The kernel brings the window down. *)
Example small_request :
  let '(out, len, go, n) := ccp_addci small_kernel ccp_want_init 0 in
  take (Z.to_nat len) out = [26; 4; 72; 0; 24; 4; 72; 0; 21; 3; 47] /\ deflate_size go = 12.
Proof. vm_compute. split; reflexivity. Qed.

(** Nothing is asked for when there are no buffers at all. *)
Example empty_request :
  let '(out, len, go, n) := ccp_addci empty_kernel full_options 0 in len = 0 /\ ANY_COMPRESS go = false.
Proof. vm_compute. split; reflexivity. Qed.

Lemma ccp_ackci_exact_witness :
  let req := ccp_request full_options in
  length req = 15%nat /\ ccp_ackci full_options req 15 = Good ().
Proof.
  split; [reflexivity|].
  assert (H : ccp_ackci full_options (ccp_request full_options) 15 = Good () <->
              acked full_options (take (Z.to_nat 15) (ccp_request full_options)))
    by exact (proj2 (proj2 (proj2 (ccp_ackci_exact rich_kernel full_options 0 (ccp_request full_options) 15
       full_options_ok ltac:(split; vm_compute; discriminate))))).
  apply H. vm_compute. tauto.
Defined.

(** ** Requests of the peer *)

(** Deflate with a window of 10 bits, then a method nobody knows. *)
Definition mixed_request : bytes := [26; 4; 40; 0; 77; 3; 1].

Lemma ccp_reqci_inside_witness :
  exists r, ccp_reqci rich_kernel 3 full_options false mixed_request 7 0 = Good r /\ 0 <= cy_len r <= 7.
Proof.
  destruct (ccp_reqci_inside rich_kernel 3 full_options false mixed_request 7 0) as (r & Hr & _ & _ & Hl & _);
    [split; vm_compute; discriminate|].
  exists r. exact (conj Hr Hl).
Defined.

Example mixed_answer :
  match ccp_reqci rich_kernel 3 full_options false mixed_request 7 0 with
  | Good r => cy_ret r = CONFREJ /\ take (Z.to_nat (cy_len r)) (cy_buf r) = [77; 3; 1] /\ cy_rejected r = false
  | _ => False
  end.
Proof. vm_compute. split_and!; reflexivity. Qed.

Lemma ccp_reqci_acks_witness :
  exists r, ccp_reqci rich_kernel 3 full_options false [26; 4; 40; 0] 4 0 = Good r /\
    cy_ret r = CONFACK /\ cy_buf r = [26; 4; 40; 0].
Proof.
  destruct (ccp_reqci_acks rich_kernel 3 full_options false [26; 4; 40; 0] 4 0) as (r & Hr & Hi & Hk);
    [split; vm_compute; discriminate|].
  destruct (proj2 Hi) as [Ha Hh]; [vm_compute; reflexivity|].
  exists r. exact (conj Hr (conj Ha (proj1 (Hk Ha Hh)))).
Defined.

(** A request for a BSD code of 8 bits, one below the least there is: the loop
    that looks for a size with buffers passes the least without seeing it. *)
Lemma ccp_reqci_ends_witness :
  exists r, ccp_reqci empty_kernel 3 full_options false [21; 3; 40] 3 0 = Good r /\ cy_hung r = true.
Proof.
  destruct (ccp_reqci_ends empty_kernel 3 full_options false [21; 3; 40] 3 0) as (r & Hr & _ & Hh).
  - split; vm_compute; discriminate.
  - repeat (apply Forall_cons_2; [split; vm_compute; (discriminate || reflexivity)|]). apply Forall_nil_2.
  - exists r. refine (conj Hr (Hh _ _ _)); [reflexivity|vm_compute; reflexivity|intros; reflexivity].
Defined.

Lemma full_serves : serves full_options ccp_want_init.
Proof. split; vm_compute; intuition discriminate. Qed.

Lemma ccp_request_roundtrip_witness :
  let '(out, len, go', _) := ccp_addci small_kernel ccp_want_init 0 in
  exists r, ccp_reqci rich_kernel 3 full_options false out len 0 = Good r /\ cy_ret r = CONFACK /\ cy_hung r = false /\
    take (Z.to_nat (cy_len r)) (cy_buf r) = ccp_request go' /\ ccp_ackci go' (cy_buf r) (cy_len r) = Good ().
Proof.
  apply (ccp_request_roundtrip small_kernel rich_kernel 3 ccp_want_init full_options false 0 0).
  - split; vm_compute; split; discriminate.
  - exact full_serves.
  - intros. reflexivity.
Defined.
