(* ===== verification/Ccp.v ===== *)
(** * The Compression Control Protocol: definitions

    [ccp.c] around its option code: initialisation, the options of the command
    line, the callbacks it hands to the automaton, the requests that reset the
    decompressor and their timer, and the entry points; and the functions of
    [sys-rtems.c] through which the daemon sets the flags of the device.  The
    automaton is the one LCP uses, on a state of its own. *)

From S2P Require Import Prelude Wire Callout Fsm LcpOptions Upap Auth CcpOptions CcpReqci.

Definition CCP_RESETREQ := 14.
Definition CCP_RESETACK := 15.

Definition RACK_PENDING := 1.
Definition RREQ_REPEAT := 2.
Definition RACKTIMEOUT := 1.

Definition SC_CCP_OPEN := 64.
Definition SC_CCP_UP := 128.

(** The variables of [ccp.c]; the flags of the device, as far as they concern
    CCP; how often the kernel was asked for a method and for its flags; and
    whether a loop of [ccp_reqci] did not end. *)
Record ccp := Ccp {
  cc_fsm : fsm;
  cc_want : ccp_options;
  cc_got : ccp_options;
  cc_allow : ccp_options;
  cc_his : ccp_options;
  ccp_localstate : Z;
  all_rejected : bool;
  cc_flags : Z;
  cc_tests : nat;
  cc_ioctls : nat;
  cc_hung : bool
}.

Definition set_cc_fsm v (s : ccp) : ccp :=
  Ccp v (cc_want s) (cc_got s) (cc_allow s) (cc_his s) (ccp_localstate s) (all_rejected s) (cc_flags s)
    (cc_tests s) (cc_ioctls s) (cc_hung s).
Definition set_cc_want v (s : ccp) : ccp :=
  Ccp (cc_fsm s) v (cc_got s) (cc_allow s) (cc_his s) (ccp_localstate s) (all_rejected s) (cc_flags s)
    (cc_tests s) (cc_ioctls s) (cc_hung s).
Definition set_cc_got v (s : ccp) : ccp :=
  Ccp (cc_fsm s) (cc_want s) v (cc_allow s) (cc_his s) (ccp_localstate s) (all_rejected s) (cc_flags s)
    (cc_tests s) (cc_ioctls s) (cc_hung s).
Definition set_cc_allow v (s : ccp) : ccp :=
  Ccp (cc_fsm s) (cc_want s) (cc_got s) v (cc_his s) (ccp_localstate s) (all_rejected s) (cc_flags s)
    (cc_tests s) (cc_ioctls s) (cc_hung s).
Definition set_cc_his v (s : ccp) : ccp :=
  Ccp (cc_fsm s) (cc_want s) (cc_got s) (cc_allow s) v (ccp_localstate s) (all_rejected s) (cc_flags s)
    (cc_tests s) (cc_ioctls s) (cc_hung s).
Definition set_localstate v (s : ccp) : ccp :=
  Ccp (cc_fsm s) (cc_want s) (cc_got s) (cc_allow s) (cc_his s) v (all_rejected s) (cc_flags s)
    (cc_tests s) (cc_ioctls s) (cc_hung s).
Definition set_all_rejected v (s : ccp) : ccp :=
  Ccp (cc_fsm s) (cc_want s) (cc_got s) (cc_allow s) (cc_his s) (ccp_localstate s) v (cc_flags s)
    (cc_tests s) (cc_ioctls s) (cc_hung s).
Definition set_cc_flags v n (s : ccp) : ccp :=
  Ccp (cc_fsm s) (cc_want s) (cc_got s) (cc_allow s) (cc_his s) (ccp_localstate s) (all_rejected s) v
    (cc_tests s) n (cc_hung s).
Definition set_cc_tests v (s : ccp) : ccp :=
  Ccp (cc_fsm s) (cc_want s) (cc_got s) (cc_allow s) (cc_his s) (ccp_localstate s) (all_rejected s) (cc_flags s)
    v (cc_ioctls s) (cc_hung s).
Definition set_cc_hung v (s : ccp) : ccp :=
  Ccp (cc_fsm s) (cc_want s) (cc_got s) (cc_allow s) (cc_his s) (ccp_localstate s) (all_rejected s) (cc_flags s)
    (cc_tests s) (cc_ioctls s) v.

(** What the kernel answers, call by call: to the test of a method; whether
    reading and writing the flags succeeds; and whether decompression has been
    disabled because of an error ([SC_DC_FERROR]).  The last number is how many
    passes of a loop of [ccp_reqci] are followed beyond those that are enough
    otherwise. *)
Record ccp_config := CcpConfig {
  scompress : nat -> bytes -> bool -> compress_outcome;
  gflags_ok : nat -> bool;
  sflags_ok : nat -> bool;
  dc_ferror : nat -> bool;
  cc_patience : nat
}.

Class CcpWorld (W : Type) {HF : FsmWorld W} := {
  w_ccp : W -> ccp;
  put_ccp : ccp -> W -> W;
  (** the address of CCP's automaton, the argument of its timers *)
  ccp_addr : Z
}.

(** ** Initialisation *)

Definition ccp_init (s : ccp) : ccp :=
  let f := cc_fsm s in
  set_cc_his no_ccp_options
    (set_cc_allow ccp_allow_init
       (set_cc_got no_ccp_options
          (set_cc_want ccp_want_init
             (set_cc_fsm (fsm_init (Fsm 0 PPP_CCP (state f) (flags f) (id f) (reqid f) (seen_ack f) (timeouttime f)
                (maxconfreqtransmits f) (retransmits f) (maxtermtransmits f) (nakloops f) (maxnakloops f)
                (term_reason f) (term_reason_len f))) s)))).

(** ** Options of the command line *)

Definition isspace (c : Z) : bool := (c =? 32) || ((9 <=? c) && (c <=? 13)).
Fixpoint skip_space (l : bytes) : bytes :=
  match l with c :: l' => if isspace c then skip_space l' else l | [] => [] end.

Definition digit_value (c : Z) : option Z :=
  if (48 <=? c) && (c <=? 57) then Some (c - 48)
  else if (97 <=? c) && (c <=? 122) then Some (c - 87)
  else if (65 <=? c) && (c <=? 90) then Some (c - 55) else None.
Definition digit_of (base c : Z) : option Z :=
  match digit_value c with Some d => if d <? base then Some d else None | None => None end.
Fixpoint scan_digits (base acc : Z) (l : bytes) : Z * bytes :=
  match l with
  | c :: l' => match digit_of base c with Some d => scan_digits base (acc * base + d) l' | None => (acc, l) end
  | [] => (acc, [])
  end.

(** [strtol(str, &endp, 0)]: the value and [endp]. *)
Definition strtol (LONG_MAX : Z) (str : bytes) : Z * bytes :=
  let l := skip_space str in
  let '(neg, l) :=
    match l with c :: l' => if c =? 45 then (true, l') else if c =? 43 then (false, l') else (false, l) | [] => (false, l) end in
  let '(base, l) :=
    match l with
    | c :: x :: d :: l' =>
        if negb (c =? 48) then (10, l)
        else if ((x =? 120) || (x =? 88)) && bool_decide (is_Some (digit_of 16 d)) then (16, d :: l') else (8, l)
    | c :: _ => (if c =? 48 then 8 else 10, l)
    | [] => (10, l)
    end in
  let '(v, endp) := scan_digits base 0 l in
  if (length endp =? length l)%nat then (0, str)
  else (Z.max (- LONG_MAX - 1) (Z.min LONG_MAX (if neg : bool then - v else v)), endp).

(** The two numbers of the parameter of [bsdcomp] and [deflate], for receiving
    and for sending; [None]: it is not a parameter of them. *)
Definition two_numbers (LONG_MAX : Z) (str : bytes) : option (Z * Z) :=
  let '(r, endp) := strtol LONG_MAX str in
  let rbits := to_int r in
  let '(abits, str, endp) :=
    match endp with
    | c :: str' =>
        if negb (length endp =? length str)%nat && (c =? 44)
        then let '(a, endp) := strtol LONG_MAX str' in (to_int a, str', endp)
        else (rbits, str, endp)
    | [] => (rbits, str, endp)
    end in
  if negb (length endp =? 0)%nat || (length endp =? length str)%nat then None else Some (rbits, abits).

(** [None] is the return value 0. *)
Definition setbsdcomp (LONG_MAX : Z) (argv : bytes) (s : ccp) : option ccp :=
  match two_numbers LONG_MAX argv with
  | None => None
  | Some (rbits, abits) =>
      if (negb (rbits =? 0) && ((rbits <? BSD_MIN_BITS) || (BSD_MAX_BITS <? rbits)))
         || (negb (abits =? 0) && ((abits <? BSD_MIN_BITS) || (BSD_MAX_BITS <? abits)))
      then None
      else
        let s := set_cc_want (if 0 <? rbits then set_bsd_bits rbits (set_bsd_compress true (cc_want s))
                              else set_bsd_compress false (cc_want s)) s in
        Some (set_cc_allow (if 0 <? abits then set_bsd_bits abits (set_bsd_compress true (cc_allow s))
                            else set_bsd_compress false (cc_allow s)) s)
  end.

Definition setdeflate (LONG_MAX : Z) (argv : bytes) (s : ccp) : option ccp :=
  match two_numbers LONG_MAX argv with
  | None => None
  | Some (rbits, abits) =>
      if (negb (rbits =? 0) && ((rbits <? DEFLATE_MIN_SIZE) || (DEFLATE_MAX_SIZE <? rbits)))
         || (negb (abits =? 0) && ((abits <? DEFLATE_MIN_SIZE) || (DEFLATE_MAX_SIZE <? abits)))
      then None
      else
        let s := set_cc_want (if 0 <? rbits then set_deflate_size rbits (set_deflate true (cc_want s))
                              else set_deflate false (cc_want s)) s in
        Some (set_cc_allow (if 0 <? abits then set_deflate_size abits (set_deflate true (cc_allow s))
                            else set_deflate false (cc_allow s)) s)
  end.

(** The boolean entries of [ccp_option_list].  All but [predictor1] turn a method
    off, in what we ask for and, being [OPT_A2COPY], in what we allow. *)
Inductive ccp_switch := nobsdcomp | nodeflate | nodeflatedraft | predictor1 | nopredictor1.

Definition ccp_option_list (o : ccp_switch) (s : ccp) : ccp :=
  let both g := set_cc_allow (g (cc_allow s)) (set_cc_want (g (cc_want s)) s) in
  match o with
  | nobsdcomp => both (set_bsd_compress false)
  | nodeflate => both (set_deflate false)
  | nodeflatedraft => both (set_deflate_draft false)
  | predictor1 => set_cc_want (set_predictor_1 true (cc_want s)) s
  | nopredictor1 => both (set_predictor_1 false)
  end.

(** ** The protocol *)

Section Ccp.
Context {W : Type} {HF : FsmWorld W} {HC : CcpWorld W}.
Context (kc : ccp_config).

(** The automaton of CCP, on the link all protocols share. *)
Definition ccp_fsm_world : FsmWorld W := {|
  w_fsm w := cc_fsm (w_ccp w);
  put_fsm f w := put_ccp (set_cc_fsm f (w_ccp w)) w;
  w_link := @w_link W HF;
  put_link := @put_link W HF;
  fsm_addr := ccp_addr
|}.

Definition on_ccp (g : ccp -> ccp) (w : W) : W := put_ccp (g (w_ccp w)) w.

Definition ccp_fault (w : W) : W := on_link link_fault w.

Definition rack_timer : timer := Timer fn_ccp_rack_timeout ccp_addr.

(** ** The device *)

Definition ccp_flags_set (isopen isup : bool) (w : W) : W :=
  on_ccp (fun s =>
    let n := cc_ioctls s in
    if gflags_ok kc n then
      let x := cc_flags s in
      let x := if isopen then Z.lor x SC_CCP_OPEN else Z.ldiff x SC_CCP_OPEN in
      let x := if isup then Z.lor x SC_CCP_UP else Z.ldiff x SC_CCP_UP in
      set_cc_flags (if sflags_ok kc (S n) then x else cc_flags s) (S (S n)) s
    else set_cc_flags (cc_flags s) (S n) s) w.

Definition ccp_fatal_error (w : W) : bool * W :=
  let n := cc_ioctls (w_ccp w) in
  (gflags_ok kc n && dc_ferror kc n, on_ccp (fun s => set_cc_flags (cc_flags s) (S n) s) w).

(** ** Callbacks of the automaton *)

Definition ccp_resetci (w : W) : W :=
  on_ccp (fun s =>
    let '(go, n) := ccp_reset (scompress kc) (cc_want s) (cc_tests s) in
    set_cc_tests n (set_all_rejected false (set_cc_got go s))) w.

Definition cb_ccp_cilen (w : W) : Z * W := (ccp_cilen (cc_got (w_ccp w)), w).

Definition cb_ccp_addci (len : Z) (w : W) : bytes * Z * W :=
  let '(out, n, go, tests) := ccp_addci (scompress kc) (cc_got (w_ccp w)) (cc_tests (w_ccp w)) in
  (out, n, on_ccp (fun s => set_cc_tests tests (set_cc_got go s)) w).

Definition cb_ccp_ackci (p : bytes) (len : Z) (w : W) : bool * W :=
  match ccp_ackci (cc_got (w_ccp w)) p len with
  | Good _ => (true, w)
  | Bad => (false, w)
  | Oob => (false, ccp_fault w)
  end.

Definition cb_ccp_nakci (p : bytes) (len : Z) (w : W) : Z * W :=
  match ccp_nakci (cc_got (w_ccp w)) p len with
  | Good try => (1, if decide (state (cc_fsm (w_ccp w)) = OPENED) then w else on_ccp (set_cc_got try) w)
  | Bad => (0, w)
  | Oob => (0, ccp_fault w)
  end.

Definition cb_ccp_rejci (p : bytes) (len : Z) (w : W) : Z * W :=
  match ccp_rejci (all_rejected (w_ccp w)) (cc_got (w_ccp w)) p len with
  | Good None => (-1, w)
  | Good (Some try) => (1, if decide (state (cc_fsm (w_ccp w)) = OPENED) then w else on_ccp (set_cc_got try) w)
  | Bad => (0, w)
  | Oob => (0, ccp_fault w)
  end.

Definition cb_ccp_reqci (inp : bytes) (len : Z) (dont_nak : bool) (w : W) : Z * bytes * Z * W :=
  let s := w_ccp w in
  match ccp_reqci (scompress kc) (cc_patience kc) (cc_allow s) dont_nak inp len (cc_tests s) with
  | Good r =>
      let w :=
        on_ccp (fun s => set_cc_hung (cc_hung s || cy_hung r) (set_cc_tests (cy_n r) (set_cc_his (cy_ho r)
          (if cy_rejected r then set_all_rejected true s else s)))) w in
      (cy_ret r, cy_buf r, cy_len r, if cy_overlap r then ccp_fault w else w)
  | _ => (CONFREJ, inp, len, ccp_fault w)
  end.

Definition ccp_up (w : W) : W := ccp_flags_set true true w.

Definition ccp_down (w : W) : W :=
  let w := if has_bits (ccp_localstate (w_ccp w)) RACK_PENDING then disarm rack_timer w else w in
  ccp_flags_set true false (on_ccp (set_localstate 0) w).

Definition ccp_extcode (code pid : Z) (p : bytes) (len : Z) (w : W) : bool * W :=
  if code =? CCP_RESETREQ then
    (true, if decide (state (cc_fsm (w_ccp w)) <> OPENED) then w
           else fsm_sdata (HW := ccp_fsm_world) CCP_RESETACK pid (Data []) 0 w)
  else if code =? CCP_RESETACK then
    (true, if has_bits (ccp_localstate (w_ccp w)) RACK_PENDING && (pid =? reqid (cc_fsm (w_ccp w)))
           then disarm rack_timer
                  (on_ccp (fun s => set_localstate (Z.ldiff (ccp_localstate s) (Z.lor RACK_PENDING RREQ_REPEAT)) s) w)
           else w)
  else (false, w).

Definition ccp_callbacks : fsm_callbacks W :=
  FsmCallbacks (Some ccp_resetci) (Some cb_ccp_cilen) (Some cb_ccp_addci) (Some cb_ccp_ackci)
    (Some cb_ccp_nakci) (Some cb_ccp_rejci) (Some cb_ccp_reqci) (Some ccp_up) (Some ccp_down) None None None
    (Some ccp_extcode).

(** ** Entry points *)

Definition ccp_open (w : W) : W :=
  let w := if decide (state (cc_fsm (w_ccp w)) <> OPENED) then ccp_flags_set true false w else w in
  let w := ccp_resetci w in
  let w := if negb (ANY_COMPRESS (cc_got (w_ccp w)))
           then on_fsm (HW := ccp_fsm_world) (fun f => set_flags (Z.lor (flags f) OPT_SILENT) f) w else w in
  fsm_open (HW := ccp_fsm_world) ccp_callbacks w.

Definition ccp_close (reason : bytes) (w : W) : W :=
  fsm_close (HW := ccp_fsm_world) ccp_callbacks (Some reason) (ccp_flags_set false false w).

Definition ccp_lowerup (w : W) : W := fsm_lowerup (HW := ccp_fsm_world) ccp_callbacks w.
Definition ccp_lowerdown (w : W) : W := fsm_lowerdown (HW := ccp_fsm_world) ccp_callbacks w.

(** [p[0]] is looked at in OPENED, where it makes no difference but for a
    message, and in REQSENT. *)
Definition ccp_input (p : bytes) (len : Z) (w : W) : W :=
  let oldstate := state (cc_fsm (w_ccp w)) in
  let w := fsm_input (HW := ccp_fsm_world) ccp_callbacks p len w in
  match p with
  | c :: _ =>
      if bool_decide (oldstate = REQSENT) && (c =? TERMACK) && negb (ANY_COMPRESS (cc_got (w_ccp w)))
      then ccp_close (text "No compression negotiated") w else w
  | [] => if bool_decide (oldstate = OPENED) || bool_decide (oldstate = REQSENT) then ccp_fault w else w
  end.

Definition ccp_protrej (w : W) : W :=
  fsm_lowerdown (HW := ccp_fsm_world) ccp_callbacks (ccp_flags_set false false w).

Definition ccp_timeout (w : W) : W := fsm_timeout (HW := ccp_fsm_world) ccp_callbacks w.

(** ** Resetting the decompressor *)

Definition ccp_datainput (pkt : bytes) (len : Z) (w : W) : W :=
  if decide (state (cc_fsm (w_ccp w)) = OPENED) then
    let '(fatal, w) := ccp_fatal_error w in
    if (fatal : bool) then ccp_close (text "Lost compression sync") w
    else if negb (has_bits (ccp_localstate (w_ccp w)) RACK_PENDING) then
      let w := on_fsm (HW := ccp_fsm_world) (fun f => let f := next_id f in set_reqid (id f) f) w in
      let w := fsm_sdata (HW := ccp_fsm_world) CCP_RESETREQ (reqid (cc_fsm (w_ccp w))) (Data []) 0 w in
      let w := arm rack_timer RACKTIMEOUT w in
      on_ccp (fun s => set_localstate (Z.lor (ccp_localstate s) RACK_PENDING) s) w
    else on_ccp (fun s => set_localstate (Z.lor (ccp_localstate s) RREQ_REPEAT) s) w
  else w.

Definition ccp_rack_timeout (w : W) : W :=
  if bool_decide (state (cc_fsm (w_ccp w)) = OPENED) && has_bits (ccp_localstate (w_ccp w)) RREQ_REPEAT then
    let w := fsm_sdata (HW := ccp_fsm_world) CCP_RESETREQ (reqid (cc_fsm (w_ccp w))) (Data []) 0 w in
    let w := arm rack_timer RACKTIMEOUT w in
    on_ccp (fun s => set_localstate (Z.ldiff (ccp_localstate s) RREQ_REPEAT) s) w
  else on_ccp (fun s => set_localstate (Z.ldiff (ccp_localstate s) RACK_PENDING) s) w.
End Ccp.
