(* ===== verification/CcpRun.v ===== *)
(** * The Compression Control Protocol: what holds at all times

    What the events of CCP keep.  Over every run of them, next to whatever else
    the daemon does: the device may compress packets only while CCP is open; the
    timer of the reset-request runs exactly while a reset-ack is awaited; and the
    sizes that are asked for, or allowed, are ones a packet has room for. *)

From S2P Require Import Prelude Wire Callout Fsm FsmSpec FsmGate FsmPackets LcpOptions LcpReqci LcpReqciSpec Upap Auth.
From S2P Require Import CcpOptions CcpReqci CcpSpec CcpReqciSpec Ccp.

Class CcpWorldLaws (W : Type) {HF : FsmWorld W} {HC : CcpWorld W} : Prop := {
  ccp_put_ccp s w : w_ccp (put_ccp s w) = s;
  ccp_put_link l w : w_ccp (put_link l w) = w_ccp w;
  ccp_link_put_link l w : w_link (put_link l w) = l;
  ccp_link_put_ccp s w : w_link (put_ccp s w) = w_link w
}.

Section Run.
Context {W : Type} {HF : FsmWorld W} {HC : CcpWorld W} {HL : CcpWorldLaws W}.
Context (kc : ccp_config).
Implicit Types w : W.

Abbreviation CW := (ccp_fsm_world (W := W)).
Abbreviation cbs := (ccp_callbacks kc).
Abbreviation rack := (rack_timer (W := W)).
Abbreviation timer_of := (fsm_timer (HW := CW)).

#[export] Instance ccp_world_laws : FsmWorldLaws W (HW := CW).
Proof.
  split; intros; cbn [w_fsm put_fsm w_link put_link ccp_fsm_world].
  - by rewrite ccp_put_ccp.
  - apply ccp_link_put_link.
  - by rewrite ccp_put_link.
  - apply ccp_link_put_ccp.
Qed.

Definition waits (t : timer) w : nat := pending t (callouts (w_link w)).

(** ** Events *)

(** What happens to CCP: the calls of the daemon, its two timers, or something
    that concerns neither its state nor its timers. *)
Inductive ccp_event : W -> W -> Prop :=
  | ce_open w : ccp_event w (ccp_open kc w)
  | ce_close reason w : ccp_event w (ccp_close kc reason w)
  | ce_lowerup w : ccp_event w (ccp_lowerup kc w)
  | ce_lowerdown w : ccp_event w (ccp_lowerdown kc w)
  | ce_protrej w : ccp_event w (ccp_protrej kc w)
  | ce_input p len w : ccp_event w (ccp_input kc p len w)
  | ce_datainput p len w : ccp_event w (ccp_datainput kc p len w)
  | ce_timer w : ccp_event w (ccp_timeout kc (UNTIMEOUT (HW := CW) w))
  | ce_rack w : waits rack w <> 0%nat -> ccp_event w (ccp_rack_timeout (disarm rack w))
  | ce_else w w' : w_ccp w' = w_ccp w -> waits rack w' = waits rack w -> ccp_event w w'.

(** A daemon that has read its configuration. *)
Inductive ccp_configured (LONG_MAX : Z) : ccp -> Prop :=
  | cf_init s : ccp_configured LONG_MAX (ccp_init s)
  | cf_bsdcomp argv s s' : ccp_configured LONG_MAX s -> setbsdcomp LONG_MAX argv s = Some s' -> ccp_configured LONG_MAX s'
  | cf_deflate argv s s' : ccp_configured LONG_MAX s -> setdeflate LONG_MAX argv s = Some s' -> ccp_configured LONG_MAX s'
  | cf_switch o s : ccp_configured LONG_MAX s -> ccp_configured LONG_MAX (ccp_option_list o s).

Definition ccp_started (LONG_MAX : Z) w : Prop :=
  ccp_configured LONG_MAX (w_ccp w) /\ ccp_localstate (w_ccp w) = 0 /\ has_bits (cc_flags (w_ccp w)) SC_CCP_UP = false /\
  waits rack w = 0%nat.

Inductive ccp_reachable (LONG_MAX : Z) : W -> Prop :=
  | cr_start w : ccp_started LONG_MAX w -> ccp_reachable LONG_MAX w
  | cr_event w w' : ccp_reachable LONG_MAX w -> ccp_event w w' -> ccp_reachable LONG_MAX w'.

(** ** Calls *)

Lemma ccp_on_ccp g w : w_ccp (on_ccp g w) = g (w_ccp w).
Proof. apply ccp_put_ccp. Qed.

Lemma ccp_on_link g w : w_ccp (on_link g w) = w_ccp w.
Proof. apply ccp_put_link. Qed.

Lemma waits_on_ccp t g w : waits t (on_ccp g w) = waits t w.
Proof. unfold waits, on_ccp. by rewrite ccp_link_put_ccp. Qed.

Lemma waits_on_fsm t g w : waits t (on_fsm (HW := CW) g w) = waits t w.
Proof. unfold waits, on_fsm. simpl. by rewrite ccp_link_put_ccp. Qed.

Lemma waits_on_link t g w : waits t (on_link g w) = pending t (callouts (g (w_link w))).
Proof. unfold waits, on_link. by rewrite ccp_link_put_link. Qed.

Lemma rack_not_timer : rack <> timer_of.
Proof. done. Qed.

Lemma waits_quiet g w : link_quiet (HW := CW) g -> waits rack (on_link g w) = waits rack w.
Proof. intros Hq. rewrite waits_on_link. by apply Hq, rack_not_timer. Qed.

Lemma waits_arm time w : waits rack (arm rack time w) = S (waits rack w).
Proof. unfold arm. rewrite waits_on_link /= pending_timeout decide_True //. Qed.

Lemma waits_disarm w : waits rack (disarm rack w) = (waits rack w - 1)%nat.
Proof. unfold disarm. by rewrite waits_on_link /= pending_untimeout. Qed.

Lemma ccp_arm t time w : w_ccp (arm t time w) = w_ccp w.
Proof. apply ccp_on_link. Qed.

Lemma ccp_disarm t w : w_ccp (disarm t w) = w_ccp w.
Proof. apply ccp_on_link. Qed.

(** ** The device and the reset-request *)

(** The part of the state the two depend on. *)
Definition same_device (s s' : ccp) : Prop := cc_flags s' = cc_flags s /\ ccp_localstate s' = ccp_localstate s.

Definition device_fine : Prop := forall n, gflags_ok kc n = true /\ sflags_ok kc n = true.

Lemma up_bit x isup : has_bits (if isup : bool then Z.lor x SC_CCP_UP else Z.ldiff x SC_CCP_UP) SC_CCP_UP = isup.
Proof.
  unfold has_bits. destruct isup.
  - rewrite (proj2 (Z.eqb_neq _ _)) //. rewrite Z.land_comm Z.land_lor_distr_r Z.land_diag Z.lor_comm.
    intros [Hx _]%Z.lor_eq_0_iff. done.
  - by rewrite Z.land_ldiff.
Qed.

Lemma flags_set_up isopen isup w :
  device_fine -> has_bits (cc_flags (w_ccp (ccp_flags_set kc isopen isup w))) SC_CCP_UP = isup.
Proof.
  intros Hd. unfold ccp_flags_set. rewrite ccp_on_ccp. set (n := cc_ioctls _).
  rewrite (proj1 (Hd n)) (proj2 (Hd (S n))). apply up_bit.
Qed.

Lemma flags_set_state isopen isup w :
  let s' := w_ccp (ccp_flags_set kc isopen isup w) in
  cc_fsm s' = cc_fsm (w_ccp w) /\ ccp_localstate s' = ccp_localstate (w_ccp w) /\
  cc_want s' = cc_want (w_ccp w) /\ cc_got s' = cc_got (w_ccp w) /\ cc_allow s' = cc_allow (w_ccp w).
Proof. unfold ccp_flags_set. rewrite /= ccp_on_ccp. by destruct (gflags_ok _ _). Qed.

Lemma waits_flags_set t isopen isup w : waits t (ccp_flags_set kc isopen isup w) = waits t w.
Proof. apply waits_on_ccp. Qed.

(** Not compressing, nothing to wait for. *)
Definition ccp_off w : Prop :=
  (device_fine -> has_bits (cc_flags (w_ccp w)) SC_CCP_UP = false) /\ ccp_localstate (w_ccp w) = 0 /\ waits rack w = 0%nat.

(** The timer runs exactly while a reset-ack is awaited; only then a further
    request can be due. *)
Definition rack_runs (localstate : Z) (n : nat) : Prop :=
  (localstate = 0 /\ n = 0%nat) \/
  ((localstate = RACK_PENDING \/ localstate = Z.lor RACK_PENDING RREQ_REPEAT) /\ n = 1%nat).

Definition ccp_on w : Prop := rack_runs (ccp_localstate (w_ccp w)) (waits rack w).

Lemma off_rest w w' : same_device (w_ccp w) (w_ccp w') -> waits rack w' = waits rack w -> ccp_off w -> ccp_off w'.
Proof. intros [Hf Hl] Hw. unfold ccp_off. by rewrite Hf Hl Hw. Qed.

Lemma on_rest w w' : same_device (w_ccp w) (w_ccp w') -> waits rack w' = waits rack w -> ccp_on w -> ccp_on w'.
Proof. intros [_ Hl] Hw. unfold ccp_on. by rewrite Hl Hw. Qed.

(** A change that leaves the two alone. *)
Definition aside w w' : Prop := same_device (w_ccp w) (w_ccp w') /\ waits rack w' = waits rack w.

Lemma aside_refl w : aside w w.
Proof. done. Qed.

Lemma aside_on_ccp g w : same_device (w_ccp w) (g (w_ccp w)) -> aside w (on_ccp g w).
Proof. intros Hg. split; [by rewrite ccp_on_ccp|apply waits_on_ccp]. Qed.

Lemma aside_on_link g w : link_quiet (HW := CW) g -> aside w (on_link g w).
Proof. intros Hg. split; [by rewrite ccp_on_link|by apply waits_quiet]. Qed.

Lemma aside_fault w : aside w (ccp_fault w).
Proof. by apply aside_on_link. Qed.

Lemma aside_trans w1 w2 w3 : aside w1 w2 -> aside w2 w3 -> aside w1 w3.
Proof. intros [[? ?] ?] [[? ?] ?]. repeat split; congruence. Qed.

Lemma aside_resetci w : aside w (ccp_resetci kc w).
Proof. apply aside_on_ccp. by destruct (ccp_reset _ _ _). Qed.

Lemma aside_addci n w : aside w (cb_ccp_addci kc n w).2.
Proof. unfold cb_ccp_addci. destruct (ccp_addci _ _ _) as [[[out m] go] k]. by apply aside_on_ccp. Qed.

Lemma aside_ackci p n w : aside w (cb_ccp_ackci p n w).2.
Proof. unfold cb_ccp_ackci. destruct (ccp_ackci _ _ _); [apply aside_refl..|apply aside_fault]. Qed.

Lemma aside_nakci p n w : aside w (cb_ccp_nakci p n w).2.
Proof.
  unfold cb_ccp_nakci. destruct (ccp_nakci _ _ _); [|apply aside_refl|apply aside_fault].
  simpl. case_decide; [apply aside_refl|by apply aside_on_ccp].
Qed.

Lemma aside_rejci p n w : aside w (cb_ccp_rejci p n w).2.
Proof.
  unfold cb_ccp_rejci. destruct (ccp_rejci _ _ _ _) as [[try|]| |]; [|apply aside_refl..|apply aside_fault].
  simpl. case_decide; [apply aside_refl|by apply aside_on_ccp].
Qed.

Lemma aside_reqci p n r w : aside w (cb_ccp_reqci kc p n r w).2.
Proof.
  unfold cb_ccp_reqci. destruct (ccp_reqci _ _ _ _ _ _ _); [|apply aside_fault..].
  cbn [snd]. set (w1 := on_ccp _ w). assert (H1 : aside w w1) by (apply aside_on_ccp; by destruct (cy_rejected _)).
  destruct (cy_overlap _); [|done]. by eapply aside_trans, aside_fault.
Qed.

Lemma off_aside w w' : aside w w' -> ccp_off w -> ccp_off w'.
Proof. intros [? ?]. by apply off_rest. Qed.

Lemma on_aside w w' : aside w w' -> ccp_on w -> ccp_on w'.
Proof. intros [? ?]. by apply on_rest. Qed.

Abbreviation ccp_state w := (state (cc_fsm (w_ccp w))).
Abbreviation ccp_gate := (gate (HW := CW) ccp_off ccp_on).

Lemma gate_aside w w' : aside w w' -> ccp_state w' = ccp_state w -> ccp_gate w -> ccp_gate w'.
Proof.
  intros Ha Hs [Ho|[Ho Hn]]; [left; by eapply off_aside|right]. cbn [w_fsm ccp_fsm_world] in *.
  rewrite Hs. split; [done|by eapply on_aside].
Qed.

Lemma fault_state w : cc_fsm (w_ccp (ccp_fault w)) = cc_fsm (w_ccp w).
Proof. unfold ccp_fault. by rewrite ccp_on_link. Qed.

Lemma up_runs w : ccp_off w -> ccp_state w = OPENED -> ccp_gate (ccp_up kc w).
Proof.
  intros (_ & Hl & Hw) Hs. right. destruct (flags_set_state true true w) as (Hf & Hl' & _). unfold ccp_up.
  cbn [w_fsm ccp_fsm_world]. rewrite Hf. split; [done|]. unfold ccp_on. rewrite Hl' waits_flags_set Hl Hw. by left.
Qed.

Lemma has_rack_pending x n : rack_runs x n -> has_bits x RACK_PENDING = negb (n =? 0)%nat.
Proof. by intros [[-> ->]|[[-> | ->] ->]]. Qed.

Lemma down_off w : ccp_off w \/ ccp_on w -> ccp_off (ccp_down kc w).
Proof.
  intros Hw. assert (Hr : rack_runs (ccp_localstate (w_ccp w)) (waits rack w)).
  { destruct Hw as [(_ & -> & ->)|]; [by left|done]. }
  unfold ccp_down. rewrite (has_rack_pending _ _ Hr). set (w1 := if negb _ then _ else w).
  assert (H1 : waits rack w1 = 0%nat).
  { subst w1. destruct Hr as [[_ Hn]|[_ Hn]]; rewrite Hn; [done|]. simpl. by rewrite waits_disarm Hn. }
  clearbody w1. set (w2 := on_ccp (set_localstate 0) w1).
  destruct (flags_set_state true false w2) as (_ & Hl & _).
  split; [intros Hd; by apply flags_set_up|]. rewrite Hl waits_flags_set. unfold w2.
  by rewrite ccp_on_ccp waits_on_ccp.
Qed.

Lemma aside_sdata code pid data n w : aside w (fsm_sdata (HW := CW) code pid data n w).
Proof. apply aside_on_link, send_data_quiet. Qed.

Lemma sdata_ccp code pid data n w : w_ccp (fsm_sdata (HW := CW) code pid data n w) = w_ccp w.
Proof. apply ccp_on_link. Qed.

(** The reset-request is answered, or was of no use any more. *)
Lemma rack_done w :
  ccp_gate w -> has_bits (ccp_localstate (w_ccp w)) RACK_PENDING = true ->
  ccp_gate (disarm rack
    (on_ccp (fun s => set_localstate (Z.ldiff (ccp_localstate s) (Z.lor RACK_PENDING RREQ_REPEAT)) s) w)).
Proof.
  intros [(_ & Hl & _)|[Hs Hr]] Hp; [by rewrite Hl in Hp|]. right. cbn [w_fsm ccp_fsm_world] in *.
  rewrite ccp_disarm ccp_on_ccp. split; [done|]. unfold ccp_on. rewrite ccp_disarm ccp_on_ccp waits_disarm waits_on_ccp /=.
  destruct Hr as [[Hx _]|[Hx ->]]; [by rewrite Hx in Hp|]. left. by destruct Hx as [-> | ->].
Qed.

Lemma extcode_runs code pid p n w : ccp_gate w -> ccp_gate (ccp_extcode code pid p n w).2.
Proof.
  intros Hg. unfold ccp_extcode. destruct (code =? CCP_RESETREQ).
  { cbn [snd]. case_decide; [done|]. eapply gate_aside; [apply aside_sdata|by rewrite sdata_ccp|done]. }
  destruct (code =? CCP_RESETACK); [|done]. cbn [snd]. destruct (has_bits _ _) eqn:Hp; [|done]. cbn [andb].
  destruct (_ =? _); [|done]. by apply rack_done.
Qed.

#[export] Instance ccp_gated : Gated (HW := CW) cbs (fun w => ccp_off w \/ ccp_on w) ccp_off ccp_on.
Proof.
  split; intros; take_callback; try done.
  - by eapply off_aside; [apply aside_on_ccp|].
  - by eapply off_aside; [apply aside_on_link|].
  - by eapply on_aside; [apply aside_on_ccp|].
  - by eapply on_aside; [apply aside_on_link|].
  - by eapply off_aside; [apply aside_resetci|].
  - by eapply off_aside; [apply aside_addci|].
  - by eapply off_aside; [apply aside_reqci|].
  - by left.
  - by right.
  - match goal with H : _ \/ _ |- _ => destruct H end; [left|right];
      [by eapply off_aside; [apply aside_on_ccp|]|by eapply on_aside; [apply aside_on_ccp|]].
  - by apply down_off.
  - by apply up_runs.
  - eapply gate_aside; [apply aside_ackci| |done]. unfold cb_ccp_ackci. destruct (ccp_ackci _ _ _); [done..|by rewrite fault_state].
  - eapply gate_aside; [apply aside_nakci| |done]. unfold cb_ccp_nakci.
    destruct (ccp_nakci _ _ _); [|done|by rewrite fault_state]. simpl. case_decide; [done|]. by rewrite ccp_on_ccp.
  - eapply gate_aside; [apply aside_rejci| |done]. unfold cb_ccp_rejci.
    destruct (ccp_rejci _ _ _ _) as [[try|]| |]; [|done..|by rewrite fault_state]. simpl. case_decide; [done|]. by rewrite ccp_on_ccp.
  - by apply extcode_runs.
Qed.

(** ** Every event keeps the gate *)

Lemma flags_aside_gate isopen w : ccp_gate w -> ccp_state w <> OPENED -> ccp_gate (ccp_flags_set kc isopen false w).
Proof.
  intros Hg Hs. apply (gate_not_opened (HW := CW) ccp_off ccp_on) in Hg; [|done].
  destruct Hg as (_ & Hl & Hw). left. destruct (flags_set_state isopen false w) as (_ & Hl' & _).
  split; [intros Hd; by apply flags_set_up|]. by rewrite Hl' waits_flags_set.
Qed.

(** Clearing the flag is fine at any time. *)
Lemma flags_clear_gate isopen w : ccp_gate w -> ccp_gate (ccp_flags_set kc isopen false w).
Proof.
  intros Hg. destruct (decide (ccp_state w = OPENED)) as [Hs|Hs]; [|by apply flags_aside_gate].
  destruct (flags_set_state isopen false w) as (Hf & Hl' & _). right. cbn [w_fsm ccp_fsm_world]. rewrite Hf.
  split; [done|]. unfold ccp_on. rewrite Hl' waits_flags_set.
  destruct Hg as [(_ & -> & ->)|[_ Hr]]; [by left|exact Hr].
Qed.

Lemma close_gate reason w : ccp_gate w -> ccp_gate (ccp_close kc reason w).
Proof. intros Hg. left. by apply (gate_close (HW := CW) cbs _ ccp_off ccp_on), flags_clear_gate. Qed.

Lemma open_gate w : ccp_gate w -> ccp_gate (ccp_open kc w).
Proof.
  intros Hg. unfold ccp_open. apply (gate_open (HW := CW) cbs _ ccp_off ccp_on).
  set (w1 := if decide _ then _ else w). assert (H1 : ccp_gate w1) by (subst w1; case_decide; [by apply flags_clear_gate|done]).
  clearbody w1. assert (H2 : ccp_gate (ccp_resetci kc w1)).
  { eapply gate_aside; [apply aside_resetci| |exact H1]. unfold ccp_resetci. rewrite ccp_on_ccp. by destruct (ccp_reset _ _ _). }
  destruct (negb _); [|done]. by apply (gate_fsm (HW := CW) cbs _ ccp_off ccp_on).
Qed.

Lemma input_gate p n w : ccp_gate w -> ccp_gate (ccp_input kc p n w).
Proof.
  intros Hg. unfold ccp_input. pose proof (gate_input (HW := CW) cbs _ ccp_off ccp_on p n w Hg) as H1.
  set (w1 := fsm_input _ _ _ _) in *. clearbody w1. destruct p as [|c p].
  - case_match; [|done]. eapply gate_aside; [apply aside_fault|by rewrite fault_state|done].
  - case_match; [by apply close_gate|done].
Qed.

Lemma datainput_gate p n w : ccp_gate w -> ccp_gate (ccp_datainput kc p n w).
Proof.
  intros Hg. unfold ccp_datainput, ccp_fatal_error. case_decide as Hs; [|done].
  set (w1 := on_ccp _ w). assert (Ha : aside w w1) by by apply aside_on_ccp.
  assert (Hs1 : ccp_state w1 = OPENED) by (unfold w1; by rewrite ccp_on_ccp).
  assert (H1 : ccp_gate w1) by (eapply gate_aside; [exact Ha|congruence|done]).
  clearbody w1. destruct (_ && _); [by apply close_gate|].
  assert (Hr : rack_runs (ccp_localstate (w_ccp w1)) (waits rack w1)).
  { destruct H1 as [(_ & -> & ->)|[_ Hr]]; [by left|exact Hr]. }
  rewrite (has_rack_pending _ _ Hr). right. cbn [w_fsm ccp_fsm_world]. unfold ccp_on.
  destruct Hr as [[Hx Hn]|[Hx Hn]]; rewrite Hn; cbn [Nat.eqb negb].
  - set (w2 := on_fsm _ w1). set (w3 := fsm_sdata _ _ _ _ w2).
    assert (E3 : w_ccp w3 = w_ccp w2) by apply sdata_ccp.
    assert (E2 : w_ccp w2 = set_cc_fsm (set_reqid (id (next_id (cc_fsm (w_ccp w1)))) (next_id (cc_fsm (w_ccp w1)))) (w_ccp w1))
      by apply ccp_put_ccp.
    rewrite ccp_on_ccp waits_on_ccp ccp_arm waits_arm E3 E2 /= Hs1 Hx.
    assert (E4 : waits rack w3 = 0%nat).
    { unfold w3. rewrite (proj2 (aside_sdata _ _ _ _ _)). unfold w2. by rewrite waits_on_fsm. }
    rewrite E4. split; [done|]. right. split; [by left|done].
  - rewrite ccp_on_ccp waits_on_ccp Hn /=. split; [done|]. right. split; [|done]. right. by destruct Hx as [-> | ->].
Qed.

Lemma rack_gate w : ccp_gate w -> waits rack w <> 0%nat -> ccp_gate (ccp_rack_timeout (disarm rack w)).
Proof.
  intros [(_ & _ & Hw)|[Hs Hr]] Hn; [done|]. destruct Hr as [[_ Hr]|[Hx Hr]]; [done|]. cbn [w_fsm ccp_fsm_world] in Hs.
  unfold ccp_rack_timeout. rewrite ccp_disarm bool_decide_eq_true_2 //. right. cbn [w_fsm ccp_fsm_world]. unfold ccp_on.
  destruct Hx as [Hx|Hx]; rewrite Hx.
  - rewrite ccp_on_ccp waits_on_ccp ccp_disarm waits_disarm Hr /= Hx. split; [done|by left].
  - cbn [andb has_bits]. set (w1 := fsm_sdata _ _ _ _ _).
    assert (E1 : w_ccp w1 = w_ccp w) by (unfold w1; by rewrite sdata_ccp ccp_disarm).
    assert (E2 : waits rack w1 = 0%nat) by (unfold w1; by rewrite (proj2 (aside_sdata _ _ _ _ _)) waits_disarm Hr).
    rewrite ccp_on_ccp waits_on_ccp ccp_arm waits_arm E1 E2 /= Hx. split; [done|]. right. split; [by left|done].
Qed.

Lemma event_gate w w' : ccp_event w w' -> ccp_gate w -> ccp_gate w'.
Proof.
  intros [w1|reason w1|w1|w1|w1|p n w1|p n w1|w1|w1 Hw|w1 w2 Hc Ht] Hg.
  - by apply open_gate.
  - by apply close_gate.
  - by apply (gate_lowerup (HW := CW) cbs _ ccp_off ccp_on).
  - by apply (gate_lowerdown (HW := CW) cbs _ ccp_off ccp_on).
  - by apply (gate_lowerdown (HW := CW) cbs _ ccp_off ccp_on), flags_clear_gate.
  - by apply input_gate.
  - by apply datainput_gate.
  - apply (gate_timeout (HW := CW) cbs _ ccp_off ccp_on). eapply gate_aside; [|by unfold UNTIMEOUT; rewrite /= ccp_put_link|exact Hg].
    apply aside_on_link. intros l t Htm. by apply pending_untimeout_ne.
  - by apply rack_gate.
  - eapply gate_aside; [|by rewrite Hc|exact Hg]. split; [by rewrite Hc|done].
Qed.

Lemma reachable_ccp_gate LONG_MAX w : ccp_reachable LONG_MAX w -> ccp_gate w.
Proof.
  induction 1 as [w (_ & Hl & Hf & Hw)|w w' _ IH He]; [by left|by eapply event_gate].
Qed.

(** ** Sizes *)

(** What is asked for has a size a packet has room for. *)
Definition asks_fine (go : ccp_options) : Prop := ccp_sizes_ok go \/ ANY_COMPRESS go = false.

Definition sizes_fine (s : ccp) : Prop :=
  ccp_sizes_ok (cc_want s) /\ ccp_sizes_ok (cc_allow s) /\ asks_fine (cc_got s).

Definition same_sizes (go go' : ccp_options) : Prop := deflate_size go' = deflate_size go /\ bsd_bits go' = bsd_bits go.

Lemma sizes_ok_same go go' : same_sizes go go' -> ccp_sizes_ok go -> ccp_sizes_ok go'.
Proof. intros [Hd Hb] [? ?]. split; rewrite ?Hd ?Hb; lia. Qed.

Lemma try_sizes kernel wo opt clear b st :
  (forall go, same_sizes go (clear go)) -> same_sizes wo st.1 -> same_sizes wo (when b (try_method kernel opt clear) st).1.
Proof.
  intros Hc Hs. destruct b; [|done]. destruct st as [go n]. simpl in *. destruct (_ <=? 0); [|done].
  destruct (Hc go), Hs. split; congruence.
Qed.

Lemma reset_sizes kernel wo n : same_sizes wo (ccp_reset kernel wo n).1.
Proof.
  unfold ccp_reset. set (st1 := when (bsd_compress _) _ _).
  assert (H1 : same_sizes wo st1.1) by by apply try_sizes. clearbody st1.
  set (st2 := if deflate st1.1 then _ else st1). assert (H2 : same_sizes wo st2.1).
  { subst st2. destruct (deflate st1.1); [|done]. set (st3 := when (deflate_correct _) _ st1).
    assert (H3 : same_sizes wo st3.1) by by apply try_sizes. clearbody st3.
    set (st4 := when (deflate_draft _) _ st3). assert (H4 : same_sizes wo st4.1) by by apply try_sizes.
    clearbody st4. by destruct (_ && _). }
  clearbody st2. by do 2 (apply try_sizes; [done|]).
Qed.

Lemma addci_nothing kernel go n :
  ANY_COMPRESS go = false -> ANY_COMPRESS (ccp_addci kernel go n).1.2 = false.
Proof.
  unfold ANY_COMPRESS. rewrite !orb_false_iff. intros (((Hd & Hb) & H1) & H2).
  unfold ccp_addci, add_deflate. cbn [ca_go]. rewrite Hd. unfold add_bsd. cbn [ca_go]. rewrite Hb. cbn [ca_go]. rewrite H1.
  unfold add_predictor at 2. cbn [ca_go]. rewrite H2. cbn. by rewrite Hd Hb H1 H2.
Qed.

Lemma addci_fine kernel go n : asks_fine go -> asks_fine (ccp_addci kernel go n).1.2.
Proof.
  intros [Ho|Hn]; [left|right; by apply addci_nothing]. pose proof (ccp_addci_request kernel go n Ho) as Hr.
  destruct (ccp_addci kernel go n) as [[[out len] go'] n']. by destruct Hr as (_ & _ & _ & ? & _).
Qed.

Lemma nakci_fine go p n try : asks_fine go -> ccp_nakci go p n = Good try -> asks_fine try.
Proof.
  intros Hg. unfold ccp_nakci. destruct (nak_deflate go go _) as [[try1 c]| |] eqn:Ed; [|done..]. cbn [mbind parse_bind].
  assert (H1 : bsd_compress try1 = bsd_compress go /\ bsd_bits try1 = bsd_bits go /\
    predictor_1 try1 = predictor_1 go /\ predictor_2 try1 = predictor_2 go /\
    (deflate try1 = true -> deflate go = true) /\
    (ccp_sizes_ok go -> DEFLATE_MIN_SIZE <= deflate_size try1 <= DEFLATE_MAX_SIZE)).
  { unfold nak_deflate in Ed. destruct (deflate go) eqn:Edf; [|injection Ed as <- _; split_and!; auto; by intros []].
    destruct (next_is _ [deflate_code go; _] _) as [b| |]; cbn [mbind parse_bind] in Ed; [|done..].
    destruct b; [|injection Ed as <- _; split_and!; auto; by intros []].
    destruct (byte_at 2 _) as [p2| |]; cbn [mbind parse_bind] in Ed; [|done..].
    destruct (byte_at 3 _) as [p3| |]; cbn [mbind parse_bind] in Ed; [|done..].
    set (try0 := if _ || _ then _ else _) in Ed.
    assert (H0 : try1 = try0).
    { destruct (_ && _); [|by injection Ed]. destruct (next_is _ _ _) as [b| |]; cbn [mbind parse_bind] in Ed; [|done..]. by injection Ed. }
    subst try1. unfold try0. destruct (_ || _) eqn:E0; [split_and!; auto; by intros []|].
    bool_props. destruct (Z.ltb_spec (DEFLATE_SIZE p2) (deflate_size go)); split_and!; auto; intros [? ?]; simpl; lia. }
  destruct H1 as (Hb & Hbb & Hp1 & Hp2 & Hd & Hs). unfold nak_bsd.
  assert (Hbase : asks_fine try1).
  { destruct Hg as [Hg|Hg]; [left; split; [by apply Hs|rewrite Hbb; by apply Hg]|right].
    unfold ANY_COMPRESS in *. rewrite Hb Hp1 Hp2. destruct (deflate try1); [by rewrite (Hd eq_refl) in Hg|].
    by destruct (deflate go), (bsd_compress go). }
  destruct (bsd_compress go) eqn:Ebg; [|by intros [= <-]].
  destruct (next_is _ _ _) as [b| |]; [|done..]. cbn [mbind parse_bind]. destruct b; [|by intros [= <-]].
  destruct (byte_at 2 _) as [p2| |]; [|done..]. cbn [mbind parse_bind].
  destruct Hg as [Hg|Hg]; [|by rewrite /ANY_COMPRESS Ebg orb_true_r in Hg].
  specialize (Hs Hg). destruct Hg as [Hg1 Hg2].
  destruct (negb _); [intros [= <-]; left; split; simpl; [done|lia]|].
  destruct (Z.ltb_spec (BSD_NBITS p2) (bsd_bits go)); intros [= <-]; left; split; simpl; try done; [|lia].
  unfold BSD_NBITS in *. rewrite (Z.land_ones _ 5) // in H |- *. pose proof (Z.mod_pos_bound p2 (2 ^ 5)). lia.
Qed.

(** Methods are given up, nothing else. *)
Record fewer (go go' : ccp_options) : Prop := {
  fw_sizes : same_sizes go go';
  fw_deflate : deflate go' = true -> deflate go = true;
  fw_bsd : bsd_compress go' = true -> bsd_compress go = true;
  fw_pred1 : predictor_1 go' = true -> predictor_1 go = true;
  fw_pred2 : predictor_2 go' = true -> predictor_2 go = true
}.

Lemma fewer_trans go1 go2 go3 : fewer go1 go2 -> fewer go2 go3 -> fewer go1 go3.
Proof. intros [[? ?]] [[? ?]]. split; auto; split; congruence. Qed.

Lemma fewer_fine go go' : fewer go go' -> asks_fine go -> asks_fine go'.
Proof.
  intros [Hs Hd Hb H1 H2] [Ho|Hn]; [left; by eapply sizes_ok_same|right]. unfold ANY_COMPRESS in *.
  apply orb_false_iff in Hn as [Hn N2]. apply orb_false_iff in Hn as [Hn N1]. apply orb_false_iff in Hn as [N3 N4].
  destruct (deflate go'); [by rewrite Hd in N3|]. destruct (bsd_compress go'); [by rewrite Hb in N4|].
  destruct (predictor_1 go'); [by rewrite H1 in N1|]. destruct (predictor_2 go'); [by rewrite H2 in N2|done].
Qed.

Lemma rej_deflate_fewer go try c try' c' : rej_deflate go try c = Good (try', c') -> fewer try try'.
Proof.
  unfold rej_deflate. destruct (deflate go); [|by intros [= <- _]].
  destruct (next_is _ [deflate_code go; _] _) as [b| |]; cbn [mbind parse_bind]; [|done..]. destruct b; [|by intros [= <- _]].
  destruct (expect (deflate_option (deflate_code go) _) _) as [c1| |]; cbn [mbind parse_bind]; [|done..].
  set (try0 := if deflate_correct go then _ else _). assert (H0 : fewer try try0) by (subst try0; by case_match).
  clearbody try0. set (r := if _ && _ then _ else Good (try0, c1)).
  assert (Hr : forall try1 c2, r = Good (try1, c2) -> fewer try try1).
  { subst r. intros try1 c2. destruct (_ && _); [|by intros [= <- _]].
    destruct (next_is _ _ _) as [b| |]; cbn [mbind parse_bind]; [|done..]. destruct b; [|by intros [= <- _]].
    destruct (expect _ _); cbn [mbind parse_bind]; [|done..]. intros [= <- _]. eapply fewer_trans; [exact H0|done]. }
  destruct r as [[try1 c2]| |]; cbn [mbind parse_bind]; [|done..]. intros [= <- _]. specialize (Hr try1 c2 eq_refl).
  destruct (_ && _); [|done]. eapply fewer_trans; [exact Hr|done].
Qed.

Lemma rej_plain_fewer neg hd enc clear st st' :
  (forall go, fewer go (clear go)) -> rej_plain neg hd enc clear st = Good st' -> fewer st.1 st'.1.
Proof.
  intros Hc. unfold rej_plain. destruct st as [try c]. destruct neg; [|by intros [= <-]].
  destruct (next_is _ _ _) as [b| |]; cbn [mbind parse_bind]; [|done..]. destruct b; [|by intros [= <-]].
  destruct (expect _ _); cbn [mbind parse_bind]; [|done..]. intros [= <-]. apply Hc.
Qed.

Lemma rejci_fine rejected go p n try : asks_fine go -> ccp_rejci rejected go p n = Good (Some try) -> asks_fine try.
Proof.
  intros Hg. unfold ccp_rejci. destruct (_ && _); [done|].
  destruct (rej_deflate go go _) as [[t1 c1]| |] eqn:E1; cbn [mbind parse_bind]; [|done..]. apply rej_deflate_fewer in E1.
  destruct (rej_plain _ _ _ _ (t1, c1)) as [s2| |] eqn:E2; cbn [mbind parse_bind]; [|done..]. apply rej_plain_fewer in E2; [|done].
  destruct (rej_plain _ _ _ _ s2) as [s3| |] eqn:E3; cbn [mbind parse_bind]; [|done..]. apply rej_plain_fewer in E3; [|done].
  destruct (rej_plain _ _ _ _ s3) as [s4| |] eqn:E4; cbn [mbind parse_bind]; [|done..]. apply rej_plain_fewer in E4; [|done].
  unfold unless_bad. destruct (_ =? _); [|done]. intros [= <-].
  eapply fewer_fine; [|exact Hg]. eapply fewer_trans; [exact E1|]. eapply fewer_trans; [exact E2|]. by eapply fewer_trans.
Qed.

Definition sized w : Prop := sizes_fine (w_ccp w).

Lemma sized_rest w w' :
  cc_want (w_ccp w') = cc_want (w_ccp w) -> cc_allow (w_ccp w') = cc_allow (w_ccp w) -> asks_fine (cc_got (w_ccp w')) ->
  sized w -> sized w'.
Proof. intros Hw Ha Hg (? & ? & _). unfold sized, sizes_fine. by rewrite Hw Ha. Qed.

Lemma sized_on_ccp g w :
  cc_want (g (w_ccp w)) = cc_want (w_ccp w) -> cc_allow (g (w_ccp w)) = cc_allow (w_ccp w) ->
  (asks_fine (cc_got (w_ccp w)) -> asks_fine (cc_got (g (w_ccp w)))) -> sized w -> sized (on_ccp g w).
Proof. intros H1 H2 H3 Hs. apply (sized_rest w); rewrite ?ccp_on_ccp //. apply H3, Hs. Qed.

Lemma sized_same w w' : w_ccp w' = w_ccp w -> sized w -> sized w'.
Proof. unfold sized. by intros ->. Qed.

Lemma sized_fault w : sized w -> sized (ccp_fault w).
Proof. apply sized_same, ccp_on_link. Qed.

Lemma sized_flags isopen isup w : sized w -> sized (ccp_flags_set kc isopen isup w).
Proof. apply sized_on_ccp; cbv beta zeta; by destruct (gflags_ok kc (cc_ioctls (w_ccp w))). Qed.

Lemma sized_resetci w : sized w -> sized (ccp_resetci kc w).
Proof.
  intros (Hw & Ha & _). unfold ccp_resetci, sized. rewrite ccp_on_ccp.
  pose proof (reset_sizes (scompress kc) (cc_want (w_ccp w)) (cc_tests (w_ccp w))) as Hr.
  destruct (ccp_reset _ _ _) as [go n]. split; [done|]. split; [done|]. left. by eapply sizes_ok_same.
Qed.

Lemma sized_addci n w : sized w -> sized (cb_ccp_addci kc n w).2.
Proof.
  unfold cb_ccp_addci. pose proof (addci_fine (scompress kc) (cc_got (w_ccp w)) (cc_tests (w_ccp w))) as Hf.
  destruct (ccp_addci _ _ _) as [[[out m] go] k]. by apply sized_on_ccp.
Qed.

Lemma sized_nakci p n w : sized w -> sized (cb_ccp_nakci p n w).2.
Proof.
  intros Hs. unfold cb_ccp_nakci. destruct (ccp_nakci _ _ _) as [try| |] eqn:E; [|done|by apply sized_fault].
  simpl. case_decide; [done|]. apply sized_on_ccp; [done..| |done]. intros Hg. by eapply nakci_fine.
Qed.

Lemma sized_rejci p n w : sized w -> sized (cb_ccp_rejci p n w).2.
Proof.
  intros Hs. unfold cb_ccp_rejci. destruct (ccp_rejci _ _ _ _) as [[try|]| |] eqn:E; [|done..|by apply sized_fault].
  simpl. case_decide; [done|]. apply sized_on_ccp; [done..| |done]. intros Hg. by eapply rejci_fine.
Qed.

Lemma sized_reqci p n r w : sized w -> sized (cb_ccp_reqci kc p n r w).2.
Proof.
  intros Hs. unfold cb_ccp_reqci. destruct (ccp_reqci _ _ _ _ _ _ _) as [rep| |]; [|by apply sized_fault..].
  cbn [snd]. set (w1 := on_ccp _ w).
  assert (H1 : sized w1) by (apply sized_on_ccp; cbv beta; by destruct (cy_rejected rep)).
  destruct (cy_overlap rep); [by apply sized_fault|done].
Qed.

Lemma sized_down w : sized w -> sized (ccp_down kc w).
Proof.
  intros Hs. unfold ccp_down. apply sized_flags. apply sized_on_ccp; [done..|].
  destruct (has_bits _ _); [|done]. by eapply sized_same; [apply ccp_disarm|].
Qed.

Lemma sized_extcode code pid p n w : sized w -> sized (ccp_extcode code pid p n w).2.
Proof.
  intros Hs. unfold ccp_extcode. destruct (_ =? _).
  { simpl. case_decide; [done|]. by eapply sized_same; [apply sdata_ccp|]. }
  destruct (_ =? _); [|done]. simpl. destruct (_ && _); [|done]. eapply sized_same; [apply ccp_disarm|].
  by apply sized_on_ccp.
Qed.

#[export] Instance ccp_sized : Gated (HW := CW) cbs sized sized never.
Proof.
  split; intros; take_callback;
    repeat match goal with G : gate (HW := CW) sized never _ |- _ => apply (gate_only (HW := CW) sized) in G end;
    rewrite ?(gate_only (HW := CW) sized); try done.
  - by apply (sized_on_ccp (fun s => set_cc_fsm _ s)).
  - by eapply sized_same; [apply ccp_on_link|].
  - by apply sized_resetci.
  - by apply sized_addci.
  - by apply sized_reqci.
  - by apply (sized_on_ccp (fun s => set_cc_fsm _ s)).
  - by apply sized_down.
  - by apply sized_flags.
  - unfold cb_ccp_ackci. destruct (ccp_ackci _ _ _); [done..|by apply sized_fault].
  - by apply sized_nakci.
  - by apply sized_rejci.
  - by apply sized_extcode.
Qed.

Lemma sized_close reason w : sized w -> sized (ccp_close kc reason w).
Proof.
  intros Hs. apply (gate_close (HW := CW) cbs sized sized never), (gate_only (HW := CW) sized). by apply sized_flags.
Qed.

Ltac by_gate := apply (gate_only (HW := CW) sized).

Lemma event_sized w w' : ccp_event w w' -> sized w -> sized w'.
Proof.
  intros [w1|reason w1|w1|w1|w1|p n w1|p n w1|w1|w1 Hw|w1 w2 Hc Ht] Hs.
  - unfold ccp_open. by_gate. apply (gate_open (HW := CW) cbs sized sized never). left.
    set (w2 := if decide _ then _ else w1). assert (H2 : sized w2) by (subst w2; case_decide; [by apply sized_flags|done]).
    clearbody w2. destruct (negb _); [apply (sized_on_ccp (fun s => set_cc_fsm _ s)); try done|]; by apply sized_resetci.
  - by apply sized_close.
  - by_gate. apply (gate_lowerup (HW := CW) cbs sized sized never). by left.
  - by_gate. apply (gate_lowerdown (HW := CW) cbs sized sized never). by left.
  - by_gate. apply (gate_lowerdown (HW := CW) cbs sized sized never). left. by apply sized_flags.
  - unfold ccp_input. assert (H1 : sized (fsm_input (HW := CW) cbs p n w1)).
    { by_gate. apply (gate_input (HW := CW) cbs sized sized never). by left. }
    set (w2 := fsm_input _ _ _ _) in *. clearbody w2. destruct p as [|c p].
    + case_match; [by apply sized_fault|done].
    + case_match; [by apply sized_close|done].
  - unfold ccp_datainput, ccp_fatal_error. case_decide; [|done]. set (w2 := on_ccp _ w1).
    assert (H2 : sized w2) by by apply sized_on_ccp. clearbody w2. destruct (_ && _); [by apply sized_close|].
    destruct (negb _); [|by apply sized_on_ccp]. apply sized_on_ccp; [done..|]. eapply sized_same; [apply ccp_arm|].
    eapply sized_same; [apply sdata_ccp|]. by apply (sized_on_ccp (fun s => set_cc_fsm _ s)).
  - by_gate. apply (gate_timeout (HW := CW) cbs sized sized never). left. apply (sized_same w1); [|done].
    by rewrite /UNTIMEOUT /on_link /= ccp_put_link.
  - unfold ccp_rack_timeout. assert (H1 : sized (disarm rack w1)) by by eapply sized_same; [apply ccp_disarm|].
    set (w2 := disarm rack w1) in *. clearbody w2. destruct (_ && _); [|by apply sized_on_ccp].
    apply sized_on_ccp; [done..|]. eapply sized_same; [apply ccp_arm|]. by eapply sized_same; [apply sdata_ccp|].
  - by eapply sized_same.
Qed.

(** ** Claims *)

Lemma configured_sizes LONG_MAX s : ccp_configured LONG_MAX s -> sizes_fine s.
Proof.
  assert (Hin : forall lo hi r, (negb (r =? 0) && ((r <? lo) || (hi <? r))) = false -> 0 < r -> lo <= r <= hi).
  { intros lo hi r Hr Hp. rewrite (proj2 (Z.eqb_neq r 0)) in Hr; [lia|]. simpl in Hr. apply orb_false_iff in Hr as [? ?]. lia. }
  induction 1 as [s|argv s s' _ (Hw & Ha & Hg) Hs|argv s s' _ (Hw & Ha & Hg) Hs|o s _ (Hw & Ha & Hg)].
  - split; [by split|]. split; [by split|]. by right.
  - unfold setbsdcomp in Hs. destruct (two_numbers LONG_MAX argv) as [[r a]|]; [|done].
    destruct (_ || _) eqn:E; [done|]. apply orb_false_iff in E as [Er Ea]. injection Hs as <-. destruct Hw, Ha.
    split; [|split; [|done]]; simpl; [destruct (Z.ltb_spec 0 r)|destruct (Z.ltb_spec 0 a)]; split; simpl; try done;
      [specialize (Hin _ _ _ Er)|specialize (Hin _ _ _ Ea)]; unfold BSD_MIN_BITS in Hin; lia.
  - unfold setdeflate in Hs. destruct (two_numbers LONG_MAX argv) as [[r a]|]; [|done].
    destruct (_ || _) eqn:E; [done|]. apply orb_false_iff in E as [Er Ea]. injection Hs as <-. destruct Hw, Ha.
    split; [|split; [|done]]; simpl; [destruct (Z.ltb_spec 0 r)|destruct (Z.ltb_spec 0 a)]; split; simpl; try done;
      [by apply (Hin _ _ _ Er)|by apply (Hin _ _ _ Ea)].
  - destruct Hw, Ha. destruct o; (split; [|split; [|done]]); by split.
Qed.

Lemma reachable_sized LONG_MAX w : ccp_reachable LONG_MAX w -> sized w.
Proof.
  induction 1 as [w (Hc & _)|w w' _ IH He]; [by eapply configured_sizes|by eapply event_sized].
Qed.

Lemma request_bytes go : ccp_sizes_ok go -> Forall byte_ok (ccp_request go).
Proof.
  intros [Hs Hb]. assert (Hask : forall neg enc, Forall byte_ok enc -> Forall byte_ok (ask neg enc)) by (by intros []).
  unfold ccp_request. repeat (apply Forall_app; split); apply Hask.
  - by apply deflate_option_ok; [apply deflate_code_ok|].
  - by apply deflate_option_ok.
  - apply bsd_option_ok. unfold BSD_MAX_BITS in Hb. lia.
  - by repeat constructor.
  - by repeat constructor.
Qed.

(** C37: sizes stay in range.  Over every run of CCP, from any configuration
    the command line can express and whatever the peer suggests: the code size
    and the window size that are wanted and allowed are in the range of their
    options, and so are those that are asked for; so every request that is
    written is, byte for byte, the one for the options left, with no value
    truncated. *)
Theorem ccp_sizes_in_range LONG_MAX w n :
  ccp_reachable LONG_MAX w ->
  ccp_sizes_ok (cc_want (w_ccp w)) /\ ccp_sizes_ok (cc_allow (w_ccp w)) /\
  (ANY_COMPRESS (cc_got (w_ccp w)) = true -> ccp_sizes_ok (cc_got (w_ccp w))) /\
  let '(bs, len, w') := cb_ccp_addci kc n w in
  take (Z.to_nat len) bs = ccp_request (cc_got (w_ccp w')) /\ Forall byte_ok (ccp_request (cc_got (w_ccp w'))).
Proof.
  intros Hr. destruct (reachable_sized LONG_MAX w Hr) as (Hw & Ha & Hg). split; [done|]. split; [done|].
  split; [by destruct Hg as [Hg| ->]|]. unfold cb_ccp_addci. set (go := cc_got (w_ccp w)) in *.
  destruct Hg as [Hg|Hg].
  - pose proof (ccp_addci_request (scompress kc) go (cc_tests (w_ccp w)) Hg) as H1.
    destruct (ccp_addci _ _ _) as [[[out len] go'] k]. destruct H1 as ([junk ->] & -> & _ & Hok & _).
    rewrite ccp_on_ccp Nat2Z.id take_app_length. split; [done|]. by apply request_bytes.
  - unfold ccp_addci. unfold ANY_COMPRESS in Hg. rewrite !orb_false_iff in Hg. destruct Hg as (((Hd & Hb) & H1) & H2).
    unfold add_deflate. cbn [ca_go]. rewrite Hd. unfold add_bsd. cbn [ca_go]. rewrite Hb. cbn [ca_go]. rewrite H1.
    unfold add_predictor at 2. cbn [ca_go]. rewrite H2. cbn -[ccp_request]. rewrite ccp_on_ccp. unfold ccp_request. cbn.
    by rewrite Hd Hb H1 H2.
Qed.

(** The timer of the reset-request runs exactly while a reset-ack is
    awaited, which is only in OPENED; a further request is marked as due only
    then. *)
Theorem ccp_rack_timer_runs LONG_MAX w :
  ccp_reachable LONG_MAX w ->
  waits rack w = (if has_bits (ccp_localstate (w_ccp w)) RACK_PENDING then 1 else 0)%nat /\
  (ccp_localstate (w_ccp w) <> 0 -> has_bits (ccp_localstate (w_ccp w)) RACK_PENDING = true /\ ccp_state w = OPENED).
Proof.
  intros Hr. destruct (reachable_ccp_gate LONG_MAX w Hr) as [(_ & -> & ->)|[Hs Hon]]; [done|].
  destruct Hon as [[-> ->]|[[-> | ->] ->]]; by split.
Qed.

(** ** The reset-request *)

Definition reset_request (pid : Z) : bytes := packet_header PPP_CCP CCP_RESETREQ pid HEADERLEN.

(** The reset-request [pid] is under way. *)
Record awaits (pid localstate : Z) w : Prop := {
  aw_state : ccp_state w = OPENED;
  aw_protocol : protocol (cc_fsm (w_ccp w)) = PPP_CCP;
  aw_reqid : reqid (cc_fsm (w_ccp w)) = pid;
  aw_local : ccp_localstate (w_ccp w) = localstate;
  aw_waits : waits rack w = 1%nat;
  aw_buf : buf_ok (w_link w);
  aw_mru : HEADERLEN <= peer_mru (w_link w)
}.

Lemma reset_sent pid l :
  buf_ok l -> HEADERLEN <= peer_mru l ->
  let l' := send_data PPP_CCP CCP_RESETREQ pid (Data []) 0 l in
  sent l' = sent l ++ [reset_request pid] /\ buf_ok l' /\ peer_mru l' = peer_mru l.
Proof.
  intros Hb Hm. destruct (send_data_sent PPP_CCP CCP_RESETREQ pid [] 0 l Hb) as [Hs _]; [done|done| |].
  { unfold clamp. unfold PPP_MRU, HEADERLEN in *. lia. }
  split; [|split; [by apply buf_ok_send_data|]].
  - rewrite Hs. unfold clamp. rewrite Z.min_l; [lia|]. by rewrite app_nil_r.
  - unfold send_data, output, link_store. repeat case_match; done.
Qed.

Lemma link_on_ccp g w : w_link (on_ccp g w) = w_link w.
Proof. apply ccp_link_put_ccp. Qed.

Lemma reset_step pid g w :
  buf_ok (w_link w) -> HEADERLEN <= peer_mru (w_link w) -> protocol (cc_fsm (w_ccp w)) = PPP_CCP ->
  let w' := on_ccp g (arm rack RACKTIMEOUT (fsm_sdata (HW := CW) CCP_RESETREQ pid (Data []) 0 w)) in
  sent (w_link w') = sent (w_link w) ++ [reset_request pid] /\ buf_ok (w_link w') /\ HEADERLEN <= peer_mru (w_link w') /\
  w_ccp w' = g (w_ccp w) /\ waits rack w' = S (waits rack w).
Proof.
  intros Hb Hm Hp w'. destruct (reset_sent pid (w_link w) Hb Hm) as (H1 & H2 & H3).
  assert (Hl : w_link (fsm_sdata (HW := CW) CCP_RESETREQ pid (Data []) 0 w)
    = send_data PPP_CCP CCP_RESETREQ pid (Data []) 0 (w_link w)).
  { unfold fsm_sdata, on_link. simpl. by rewrite ccp_link_put_link Hp. }
  unfold w'. rewrite link_on_ccp ccp_on_ccp waits_on_ccp waits_arm ccp_arm sdata_ccp (proj2 (aside_sdata _ _ _ _ _)).
  set (x := fsm_sdata _ _ _ _ w) in *. clearbody x. unfold arm, on_link. rewrite !ccp_link_put_link Hl /= H3. by split_and!.
Qed.

Lemma fatal_no w : (forall n, dc_ferror kc n = false) -> (ccp_fatal_error kc w).1 = false.
Proof. intros Hf. unfold ccp_fatal_error. simpl. by rewrite Hf andb_false_r. Qed.

Lemma awaits_again pid p n w :
  (forall n, dc_ferror kc n = false) -> awaits pid RACK_PENDING w ->
  awaits pid (Z.lor RACK_PENDING RREQ_REPEAT) (ccp_datainput kc p n w) /\
  sent (w_link (ccp_datainput kc p n w)) = sent (w_link w).
Proof.
  intros Hf [Hs Hp Hr Hl Hw Hb Hm]. unfold ccp_datainput. rewrite decide_True //.
  pose proof (fatal_no w Hf) as Hff. unfold ccp_fatal_error in *. simpl in Hff. rewrite Hff. rewrite ccp_on_ccp /= Hl /=.
  rewrite !link_on_ccp. split; [|done]. split; rewrite ?waits_on_ccp ?link_on_ccp ?ccp_on_ccp //. by rewrite /= Hl.
Qed.

Lemma awaits_timeout pid w :
  awaits pid (Z.lor RACK_PENDING RREQ_REPEAT) w ->
  awaits pid RACK_PENDING (ccp_rack_timeout (disarm rack w)) /\
  sent (w_link (ccp_rack_timeout (disarm rack w))) = sent (w_link w) ++ [reset_request pid].
Proof.
  intros [Hs Hp Hr Hl Hw Hb Hm]. unfold ccp_rack_timeout. rewrite ccp_disarm bool_decide_eq_true_2 // Hl. cbn [andb].
  change (has_bits (Z.lor RACK_PENDING RREQ_REPEAT) RREQ_REPEAT) with true. cbv iota.
  assert (Hd : w_link (disarm rack w) = set_callouts (pppuntimeout rack (callouts (w_link w))) (w_link w)).
  { unfold disarm, on_link. by rewrite ccp_link_put_link. }
  rewrite Hr. destruct (reset_step pid (fun s => set_localstate (Z.ldiff (ccp_localstate s) RREQ_REPEAT) s) (disarm rack w))
    as (H1 & H2 & H3 & H4 & H5); [by rewrite Hd|by rewrite Hd|by rewrite ccp_disarm|].
  rewrite H1 Hd. split; [|done]. split; rewrite ?H4 ?H5 ?ccp_disarm //=; [by rewrite Hl|by rewrite waits_disarm Hw].
Qed.

Lemma awaits_ack pid localstate q m w :
  localstate = RACK_PENDING \/ localstate = Z.lor RACK_PENDING RREQ_REPEAT -> awaits pid localstate w ->
  ccp_localstate (w_ccp (ccp_extcode CCP_RESETACK pid q m w).2) = 0 /\ waits rack (ccp_extcode CCP_RESETACK pid q m w).2 = 0%nat.
Proof.
  intros Hls [Hs Hp Hr Hl Hw Hb Hm]. unfold ccp_extcode.
  change (CCP_RESETACK =? CCP_RESETREQ) with false. rewrite Z.eqb_refl. cbn [snd]. rewrite Hl Hr Z.eqb_refl.
  assert (Hbit : has_bits localstate RACK_PENDING = true) by by destruct Hls as [-> | ->].
  rewrite Hbit. cbn [andb]. rewrite ccp_disarm ccp_on_ccp waits_disarm waits_on_ccp Hw /= Hl.
  split; [|done]. by destruct Hls as [-> | ->].
Qed.

(** How the peer's compressor is reset.  A packet the device could not
    decompress makes the daemon send one reset-request, with a new id; while the
    answer is awaited further such packets send nothing, but the next expiry of
    the timer repeats the request, with the same id, once; and a reset-ack with
    that id settles it at any point. *)
Theorem ccp_reset_handshake p n p' n' q m w :
  ccp_state w = OPENED -> protocol (cc_fsm (w_ccp w)) = PPP_CCP -> ccp_localstate (w_ccp w) = 0 -> waits rack w = 0%nat ->
  (forall i, dc_ferror kc i = false) -> buf_ok (w_link w) -> HEADERLEN <= peer_mru (w_link w) ->
  let pid := u8 (id (cc_fsm (w_ccp w)) + 1) in
  let w1 := ccp_datainput kc p n w in
  let w2 := ccp_datainput kc p' n' w1 in
  let w3 := ccp_rack_timeout (disarm rack w2) in
  sent (w_link w1) = sent (w_link w) ++ [reset_request pid] /\
  sent (w_link w2) = sent (w_link w1) /\
  sent (w_link w3) = sent (w_link w2) ++ [reset_request pid] /\
  Forall (fun v => let a := (ccp_extcode CCP_RESETACK pid q m v).2 in
                   ccp_localstate (w_ccp a) = 0 /\ waits rack a = 0%nat) [w1; w2; w3].
Proof.
  intros Hs Hp Hl Hw Hf Hb Hm pid w1 w2 w3.
  assert (H1 : awaits pid RACK_PENDING w1 /\ sent (w_link w1) = sent (w_link w) ++ [reset_request pid]).
  { unfold w1, ccp_datainput. rewrite decide_True //. pose proof (fatal_no w Hf) as Hff.
    unfold ccp_fatal_error in *. simpl in Hff. rewrite Hff. cbv iota. set (w0 := on_ccp _ w).
    assert (E0 : ccp_localstate (w_ccp w0) = 0) by (unfold w0; by rewrite ccp_on_ccp).
    rewrite E0. change (negb (has_bits 0 RACK_PENDING)) with true. cbv iota zeta. set (wf := on_fsm _ w0).
    assert (Ef : w_ccp wf = set_cc_fsm (set_reqid pid (next_id (cc_fsm (w_ccp w)))) (w_ccp w0)).
    { unfold wf, on_fsm. simpl. rewrite ccp_put_ccp. unfold w0. by rewrite ccp_on_ccp. }
    assert (El : w_link wf = w_link w).
    { unfold wf, on_fsm. simpl. rewrite ccp_link_put_ccp. apply link_on_ccp. }
    assert (Ew : waits rack wf = 0%nat) by (unfold waits; rewrite El; exact Hw).
    assert (Er : reqid (cc_fsm (w_ccp wf)) = pid) by by rewrite Ef. rewrite Er.
    destruct (reset_step pid (fun s => set_localstate (Z.lor (ccp_localstate s) RACK_PENDING) s) wf)
      as (R1 & R2 & R3 & R4 & R5); [by rewrite El|by rewrite El|by rewrite Ef|].
    rewrite R1 El. split; [|done]. split; rewrite ?R4 ?R5 ?Ef //=; [by rewrite E0|by rewrite Ew]. }
  destruct H1 as [A1 S1]. destruct (awaits_again pid p' n' w1 Hf A1) as [A2 S2]. destruct (awaits_timeout pid w2 A2) as [A3 S3].
  split; [done|]. split; [done|]. split; [done|].
  repeat apply Forall_cons_2; [..|done]; eapply awaits_ack; try done; by [left|right].
Qed.
End Run.
