(* ===== verification/CcpNet.v ===== *)
(** * CCP as an entry of the protocol table

    CCP's automaton next to those of LCP and IPCP on one link, its entry of the
    protocol table, and the proof that it minds its own business: it never
    touches LCP, PAP, CHAP, IPCP, the phase of the link or their timers, and at
    rest it stays at rest until it is opened.  With it the table of the daemon is
    complete. *)

From S2P Require Import Prelude Wire Inet Netif Callout Fsm FsmSpec FsmGate.
From S2P Require Import LcpOptions LcpReqci Lcp LcpSpec Upap Chap Auth AuthSpec IpcpOptions IpcpReqci Ipcp IpcpNet.
From S2P Require Import CcpOptions CcpReqci Ccp CcpRun.

Section Net.
Context `{ByteOrder}.
Abbreviation W := (daemon (ipcp * ccp)).
Implicit Types w : W.

#[export] Instance daemon_ccp : CcpWorld W := {
  w_ccp w := (d_other w).2;
  put_ccp s w :=
    Daemon (d_fsm w) (d_link w) (d_lcp w) (d_upap w) (d_chap w) (d_auth w) ((d_other w).1, s);
  ccp_addr := 4
}.

#[export] Instance ccp_rest : NetRest ccp := { net_rest s := resting (state (cc_fsm s)) }.

#[export] Instance daemon_ccp_laws : CcpWorldLaws W.
Proof. by split. Qed.

Context (kc : ccp_config).

Definition ccp_link : link_entry W :=
  LinkEntry PPP_CCP true (Some (ccp_lowerup kc)) (Some (ccp_lowerdown kc)) (Some (ccp_open kc)) (Some (ccp_close kc)).

Definition ccp_protent : protent W := Protent ccp_link (ccp_input kc) (ccp_protrej kc) (Some (ccp_datainput kc)).

(** ** What CCP leaves alone *)

Abbreviation CW := (ccp_fsm_world (W := W)).
Abbreviation cbs := (ccp_callbacks (W := W) kc).
Abbreviation rack := (rack_timer (W := W)).

(** The state of CCP, packets and CCP's timers. *)
Definition mind w w' : Prop := outside w w' /\ phase w' = phase w /\ w_ipcp w' = w_ipcp w.

Lemma mind_refl w : mind w w.
Proof. split; [apply outside_refl|done]. Qed.

Lemma mind_trans w1 w2 w3 : mind w1 w2 -> mind w2 w3 -> mind w1 w3.
Proof. intros (O1 & P1 & E1) (O2 & P2 & E2). split; [by eapply outside_trans|]. split; congruence. Qed.

Lemma mind_ccp s w : mind w (put_ccp s w).
Proof. split; [|done]. split; try done. simpl. unfold phase. by destruct (d_lcp w). Qed.

Lemma mind_link g w : (forall l t, watched (X := ipcp * ccp) t -> pending t (callouts (g l)) = pending t (callouts l)) ->
  mind w (on_link g w).
Proof.
  intros Hg. split; [|done]. split; try done; [simpl; unfold phase; by destruct (d_lcp w)|].
  intros t Ht. by apply Hg.
Qed.

Lemma mind_quiet g w : link_quiet (HW := CW) g -> mind w (on_link g w).
Proof.
  intros Hq. apply mind_link. intros l t Ht. apply Hq. intros ->. by destruct Ht as [Ht|[Ht|[Ht|[Ht|[Ht|Ht]]]]].
Qed.

Lemma rack_unwatched t : watched (X := ipcp * ccp) t -> t <> rack.
Proof. intros Ht ->. by destruct Ht as [Ht|[Ht|[Ht|[Ht|[Ht|Ht]]]]]. Qed.

Lemma mind_arm time w : mind w (arm rack time w).
Proof.
  apply mind_link. intros l t Ht. simpl. rewrite pending_timeout decide_False //. intros E. by apply rack_unwatched in Ht.
Qed.

Lemma mind_disarm w : mind w (disarm rack w).
Proof. apply mind_link. intros l t Ht. apply pending_untimeout_ne. intros E. by apply rack_unwatched in Ht. Qed.

(** The states CCP can lead to from [w0]. *)
Section From.
Context (w0 : W).
Abbreviation from := (mind w0).

Lemma from_ccp g w : from w -> from (on_ccp g w).
Proof. intros Hw. eapply mind_trans; [exact Hw|apply mind_ccp]. Qed.

Lemma from_quiet g w : link_quiet (HW := CW) g -> from w -> from (on_link g w).
Proof. intros Hq Hw. eapply mind_trans; [exact Hw|by apply mind_quiet]. Qed.

Lemma from_fault w : from w -> from (ccp_fault w).
Proof. by apply from_quiet. Qed.

Lemma from_arm time w : from w -> from (arm rack time w).
Proof. intros Hw. eapply mind_trans; [exact Hw|apply mind_arm]. Qed.

Lemma from_disarm w : from w -> from (disarm rack w).
Proof. intros Hw. eapply mind_trans; [exact Hw|apply mind_disarm]. Qed.

Lemma from_sdata code pid data n w : from w -> from (fsm_sdata (HW := CW) code pid data n w).
Proof. apply from_quiet, send_data_quiet. Qed.

Lemma from_fsm g w : from w -> from (on_fsm (HW := CW) g w).
Proof. apply (from_ccp (fun s => set_cc_fsm (g (cc_fsm s)) s)). Qed.

(** Follow a chain of calls. *)
Ltac froms :=
  repeat first
    [ assumption
    | apply from_ccp | apply from_fault | apply from_arm | apply from_disarm | apply from_sdata | apply from_fsm
    | match goal with |- from (match ?x with _ => _ end) => destruct x end ].

Lemma from_addci n w : from w -> from (cb_ccp_addci kc n w).2.
Proof. intros. unfold cb_ccp_addci. destruct (ccp_addci _ _ _) as [[[out m] go] k]. cbn [snd]. froms. Qed.

Lemma from_ackci p n w : from w -> from (cb_ccp_ackci p n w).2.
Proof. intros. unfold cb_ccp_ackci. destruct (ccp_ackci _ _ _); cbn [snd]; froms. Qed.

Lemma from_nakci p n w : from w -> from (cb_ccp_nakci p n w).2.
Proof. intros. unfold cb_ccp_nakci. destruct (ccp_nakci _ _ _); cbn [snd]; froms. Qed.

Lemma from_rejci p n w : from w -> from (cb_ccp_rejci p n w).2.
Proof. intros. unfold cb_ccp_rejci. destruct (ccp_rejci _ _ _ _) as [[try|]| |]; cbn [snd]; froms. Qed.

Lemma from_reqci p n r w : from w -> from (cb_ccp_reqci kc p n r w).2.
Proof. intros. unfold cb_ccp_reqci. destruct (ccp_reqci _ _ _ _ _ _ _); cbn [snd]; froms. Qed.

Lemma from_down w : from w -> from (ccp_down kc w).
Proof. intros. unfold ccp_down, ccp_flags_set. do 2 apply from_ccp. froms. Qed.

Lemma from_extcode code pid p n w : from w -> from (ccp_extcode code pid p n w).2.
Proof. intros. unfold ccp_extcode. destruct (_ =? _); [|destruct (_ =? _)]; cbn [snd]; froms. Qed.

#[local] Instance from_gated : Gated (HW := CW) cbs from from never.
Proof.
  split; intros; take_callback;
    repeat match goal with G : gate (HW := CW) from never _ |- _ => apply (gate_only (HW := CW) from) in G end;
    rewrite ?(gate_only (HW := CW) from);
    first [ done | by apply from_fsm | by apply from_quiet | by apply from_ccp | by apply from_addci | by apply from_ackci
          | by apply from_nakci | by apply from_rejci | by apply from_reqci | by apply from_down | by apply from_extcode ].
Qed.

Lemma from_lowerup w : from w -> from (ccp_lowerup kc w).
Proof. intros Hw. apply (gate_only (HW := CW) from), (gate_lowerup (HW := CW) cbs from from never). by left. Qed.

Lemma from_lowerdown w : from w -> from (ccp_lowerdown kc w).
Proof. intros Hw. apply (gate_only (HW := CW) from), (gate_lowerdown (HW := CW) cbs from from never). by left. Qed.

Lemma from_close reason w : from w -> from (ccp_close kc reason w).
Proof. intros Hw. apply (gate_close (HW := CW) cbs from from never). left. by apply from_ccp. Qed.

Lemma from_open w : from w -> from (ccp_open kc w).
Proof.
  intros Hw. apply (gate_only (HW := CW) from), (gate_open (HW := CW) cbs from from never). left.
  set (w1 := if decide _ then _ else w). assert (H1 : from w1) by (subst w1; unfold ccp_flags_set; froms). clearbody w1.
  unfold ccp_resetci. froms.
Qed.

Lemma from_protrej w : from w -> from (ccp_protrej kc w).
Proof. intros Hw. apply from_lowerdown. by apply from_ccp. Qed.

Lemma from_input p n w : from w -> from (ccp_input kc p n w).
Proof.
  intros Hw. unfold ccp_input. assert (H1 : from (fsm_input (HW := CW) cbs p n w)).
  { apply (gate_only (HW := CW) from), (gate_input (HW := CW) cbs from from never). by left. }
  set (w1 := fsm_input _ _ _ _) in *. clearbody w1. destruct p; case_match; try done; [froms|by apply from_close].
Qed.

Lemma from_datainput p n w : from w -> from (ccp_datainput kc p n w).
Proof.
  intros Hw. unfold ccp_datainput, ccp_fatal_error. case_decide; [|done]. case_match; [by apply from_close, from_ccp|].
  case_match; froms.
Qed.

Lemma from_timeout w : from w -> from (ccp_timeout kc w).
Proof. intros Hw. apply (gate_only (HW := CW) from), (gate_timeout (HW := CW) cbs from from never). by left. Qed.

Lemma from_rack_timeout w : from w -> from (ccp_rack_timeout w).
Proof. intros Hw. unfold ccp_rack_timeout. froms. Qed.
End From.

(** ** At rest *)

Abbreviation ccp_state w := (state (cc_fsm (w_ccp w))).

Lemma nakrej_state code p n w :
  ccp_state ((if code =? CONFNAK then cb_ccp_nakci else cb_ccp_rejci) p n w).2 = ccp_state w.
Proof.
  destruct (code =? CONFNAK).
  - unfold cb_ccp_nakci. destruct (ccp_nakci _ _ _); try done. simpl. by case_decide.
  - unfold cb_ccp_rejci. destruct (ccp_rejci _ _ _ _) as [[try|]| |]; try done. simpl. by case_decide.
Qed.

Lemma closed_state p n w : ccp_state w = CLOSED -> ccp_state (fsm_input (HW := CW) cbs p n w) = CLOSED.
Proof.
  intros Hs. unfold fsm_input. destruct (parse_header p n) as [[[[code pid] m] inp]|]; [|done].
  cbn [w_fsm ccp_fsm_world]. rewrite Hs. unfold fsm_dispatch.
  destruct (code =? CONFREQ).
  { unfold fsm_rconfreq, rconfreq_enter. cbn [w_fsm ccp_fsm_world]. by rewrite Hs. }
  destruct (code =? CONFACK).
  { unfold fsm_rconfack. destruct (_ || _); [done|]. cbn [cb_ackci ccp_callbacks]. unfold cb_ccp_ackci.
    destruct (ccp_ackci _ _ _); cbn [negb]; try done. set (w1 := on_fsm _ w).
    assert (H1 : ccp_state w1 = CLOSED) by done. clearbody w1. cbn [w_fsm ccp_fsm_world]. by rewrite H1. }
  destruct (_ || _).
  { unfold fsm_rconfnakrej. destruct (_ || _); [done|]. pose proof (nakrej_state code inp m w) as Hn.
    assert (Hr : match (if code =? CONFNAK then cb_nakci cbs else cb_rejci cbs) with
      | Some proc => proc inp m w | None => (0, w) end
      = (if code =? CONFNAK then cb_ccp_nakci else cb_ccp_rejci) inp m w) by by destruct (code =? CONFNAK).
    rewrite Hr. destruct ((if code =? CONFNAK then _ else _) inp m w) as [ret w1]. simpl in Hn. rewrite Hs in Hn.
    destruct (ret =? 0); [done|]. set (w2 := on_fsm _ w1). assert (H2 : ccp_state w2 = CLOSED) by done. clearbody w2.
    cbn [w_fsm ccp_fsm_world]. by rewrite H2. }
  destruct (code =? TERMREQ).
  { unfold fsm_rtermreq. cbn [w_fsm ccp_fsm_world]. by rewrite Hs. }
  destruct (code =? TERMACK).
  { unfold fsm_rtermack. cbn [w_fsm ccp_fsm_world]. by rewrite Hs. }
  destruct (code =? CODEREJ).
  { unfold fsm_rcoderej. destruct (_ <? _); [done|]. destruct inp as [|? [|? ?]]; [done..|].
    case_decide as Hd; [by rewrite /= Hs in Hd|done]. }
  cbn [cb_extcode ccp_callbacks]. unfold ccp_extcode. destruct (_ =? _).
  { rewrite Hs. by case_decide. }
  destruct (_ =? _); [|done]. by destruct (_ && _).
Qed.

Lemma ccp_resting_input p n w : resting (ccp_state w) -> resting (ccp_state (ccp_input kc p n w)).
Proof.
  intros Hs. assert (H1 : ccp_state (fsm_input (HW := CW) cbs p n w) = ccp_state w).
  { destruct Hs as [Hs|Hs]; [|by rewrite closed_state]. unfold fsm_input.
    destruct (parse_header p n) as [[[[code pid] m] inp]|]; [|done]. cbn [w_fsm ccp_fsm_world]. by rewrite Hs. }
  unfold ccp_input. destruct p as [|c p].
  - case_match; by rewrite ?H1.
  - rewrite bool_decide_eq_false_2; [by intros Hx; destruct Hs; congruence|]. by rewrite /= H1.
Qed.

Lemma resting_datainput p n w : resting (ccp_state w) -> resting (ccp_state (ccp_datainput kc p n w)).
Proof. intros Hs. unfold ccp_datainput. case_decide as Hd; [|done]. destruct Hs; congruence. Qed.

Lemma resting_lowerup w : resting (ccp_state w) -> resting (ccp_state (ccp_lowerup kc w)).
Proof.
  intros [Hs|Hs]; unfold ccp_lowerup, fsm_lowerup; cbn [w_fsm ccp_fsm_world]; rewrite Hs; [by right|by rewrite Hs; right].
Qed.

Lemma ccp_lowerdown_state w : ccp_state (ccp_lowerdown kc w) = INITIAL \/ ccp_state (ccp_lowerdown kc w) = STARTING.
Proof.
  unfold ccp_lowerdown, fsm_lowerdown. cbn [w_fsm ccp_fsm_world].
  destruct (ccp_state w) eqn:E; first [by left|by right].
Qed.

Lemma ccp_resting_lowerdown w : resting (ccp_state w) -> resting (ccp_state (ccp_lowerdown kc w)).
Proof.
  intros [Hs|Hs]; unfold ccp_lowerdown, fsm_lowerdown; cbn [w_fsm ccp_fsm_world]; rewrite Hs; [by left|by left].
Qed.

Lemma flags_ccp_state isopen isup w : ccp_state (ccp_flags_set kc isopen isup w) = ccp_state w.
Proof. unfold ccp_flags_set. simpl. by destruct (gflags_ok _ _). Qed.

Lemma ccp_close_state reason w :
  ccp_state w = INITIAL \/ ccp_state w = STARTING -> ccp_state (ccp_close kc reason w) = INITIAL.
Proof.
  intros Hs. rewrite -(flags_ccp_state false false w) in Hs. unfold ccp_close, fsm_close. set (w1 := ccp_flags_set _ _ _ w) in *.
  clearbody w1. set (w2 := on_fsm _ w1). assert (H2 : ccp_state w2 = ccp_state w1) by done. clearbody w2.
  cbn [w_fsm ccp_fsm_world]. rewrite H2. by destruct Hs as [Hs|Hs]; rewrite Hs; [rewrite H2|].
Qed.

Lemma ccp_resting_timeout w : resting (ccp_state w) -> resting (ccp_state (ccp_timeout kc w)).
Proof.
  intros Hs. unfold ccp_timeout, fsm_timeout. cbn [w_fsm ccp_fsm_world]. by destruct Hs as [Hs|Hs]; rewrite Hs; [left|right].
Qed.

Lemma rack_timeout_state w : ccp_state (ccp_rack_timeout w) = ccp_state w.
Proof. unfold ccp_rack_timeout. by destruct (_ && _). Qed.

Lemma mind_apart w w' : mind w w' -> (resting (ccp_state w) -> resting (ccp_state w')) -> apart w w'.
Proof.
  intros (Ho & Hp & Hi) Hr. split; [|done]. split; [done|]. split; [done|]. intros [H1 H2]. split; [|by apply Hr].
  change ((d_other w').1) with (w_ipcp w'). by rewrite Hi.
Qed.

Lemma mind_beside w w' : mind w w' -> beside w w'.
Proof. by intros (Ho & _ & Hi). Qed.

#[export] Instance ccp_apart : ApartTable [ccp_protent].
Proof.
  split.
  - intros p g w [<-|[]] [= <-]. apply mind_apart; [apply from_lowerup, mind_refl|apply resting_lowerup].
  - intros p g w [<-|[]] [= <-]. apply mind_beside, from_lowerdown, mind_refl.
  - intros p g w [<-|[]] Hg. change (Some (ccp_open kc) = Some g) in Hg. apply (inj Some) in Hg.
    rewrite -Hg. apply mind_beside, from_open, mind_refl.
  - intros p g reason w [<-|[]] [= <-]. apply mind_beside, from_close, mind_refl.
  - intros w. left. exact (ccp_close_state (text "LCP down") _ (ccp_lowerdown_state w)).
  - intros p w [<-|[]]. apply mind_apart; [apply from_protrej, mind_refl|]. intros Hr.
    apply ccp_resting_lowerdown. by rewrite flags_ccp_state.
  - intros p bs len w [<-|[]]. apply mind_apart; [apply from_input, mind_refl|apply ccp_resting_input].
  - intros p g bs len w [<-|[]] [= <-]. apply mind_apart; [apply from_datainput, mind_refl|apply resting_datainput].
Qed.
End Net.
