(* ===== verification/DaemonCcp.v ===== *)
(** * The daemon: CCP in the company of the rest

    The daemon with the whole of its protocol table: LCP, PAP, CHAP, IPCP and
    CCP.  Each of its steps is a step of the daemon with IPCP and, for CCP, a run
    of CCP's events; so what holds over runs of either holds here.  With it:
    packets are compressed only on an authenticated link. *)

From S2P Require Import Prelude Wire Inet Netif Callout Fsm FsmSpec FsmGate.
From S2P Require Import LcpOptions LcpReqci Lcp LcpSpec Upap Chap Auth AuthSpec DaemonGuard DaemonSpec DaemonAuth DaemonNet.
From S2P Require Import IpcpOptions IpcpReqci Ipcp IpcpNet IpcpGate DaemonIpcp.
From S2P Require Import CcpOptions CcpReqci CcpSpec Ccp CcpRun CcpNet.

Section DaemonCcp.
Context `{ByteOrder}.
Abbreviation W := (daemon (ipcp * ccp)).
Implicit Types w : W.
Context (ic : ip_config) (cfg : lcp_config) (ac : auth_config) (cc : chap_config) (magic : nat -> Z).
Context (kc : ccp_config).

Abbreviation IW := (ipcp_fsm_world (W := W)).
Abbreviation CW := (ccp_fsm_world (W := W)).
Abbreviation more := [ccp_protent kc].
Abbreviation table := (net_table ic ac cc magic more).
Abbreviation cbs := (ipcp_callbacks (HN := ipcp_events ac) (HE := ipcp_finish ic ac cc magic more) ic).
Abbreviation rack := (rack_timer (W := W)).
Abbreviation ccp_state w := (state (cc_fsm (w_ccp w))).

(** ** Every call is a run of CCP's events *)

Section From.
Context (w0 : W).

Definition ccp_run w : Prop := rtc (ccp_event kc) w0 w.

Lemma run_event w w' : ccp_event kc w w' -> ccp_run w -> ccp_run w'.
Proof. intros He Hr. by eapply rtc_r. Qed.

Lemma run_frame w w' : net_frame w w' -> ccp_run w -> ccp_run w'.
Proof.
  intros [Ho Ht]. apply run_event, ce_else; [by rewrite /= Ho|]. apply Ht.
  intros [Hx|Hx]; repeat destruct Hx as [Hx|Hx]; discriminate.
Qed.

Lemma run_steady w w' : steady w w' -> ccp_run w -> ccp_run w'.
Proof. intros [_ _ Ho Ht]. by apply run_event, ce_else; [|apply Ht]. Qed.

Lemma frame_np_down w : net_frame w (np_down w).
Proof.
  split; [apply np_down_other|]. intros t Ht. unfold np_down. destruct (_ =? 0); [|done].
  assert (Hp : pends t (disarm idle_timer w) = pends t w); [|exact Hp].
  apply pends_disarm_ne. intros <-. apply Ht. left. apply own_idle.
Qed.

Lemma frame_np_up w : net_frame w (np_up ac w).
Proof.
  split; [apply np_up_other|]. intros t Ht. unfold np_up. destruct (_ =? 0); [|done].
  assert (Hi : idle_timer <> t) by (intros <-; apply Ht; left; apply own_idle).
  assert (Hc : connect_timer <> t) by (intros <-; apply Ht; left; apply own_connect).
  set (w1 := new_phase _ _). change (pends t w) with (pends t w1). clearbody w1.
  set (w2 := if 0 <? idle_time_limit ac then _ else w1).
  assert (H2 : pends t w2 = pends t w1) by (subst w2; destruct (0 <? _); [by apply pends_arm_ne|done]).
  rewrite -H2. clearbody w2. assert (H3 : pends t (arm connect_timer (maxconnect ac) w2) = pends t w2) by by apply pends_arm_ne.
  destruct (0 <? _); [exact H3|done].
Qed.

Lemma run_np_down w : ccp_run w -> ccp_run (np_down w).
Proof. apply run_frame, frame_np_down. Qed.

Lemma run_np_up w : ccp_run w -> ccp_run (np_up ac w).
Proof. apply run_frame, frame_np_up. Qed.

(** The entries of the table. *)
Lemma two_entries e : In e table -> e = ipcp_protent ic ac cc magic more \/ e = ccp_protent kc.
Proof. intros [<-|[<-|[]]]; auto. Qed.

Lemma run_ipcp_lowerup w : ccp_run w -> ccp_run (ipcp_lowerup (HN := ipcp_events ac) ic w).
Proof.
  intros Hr. destruct (decide (state (ip_fsm (w_ipcp w)) = STARTING)) as [Hs|Hs].
  - by apply (kept_lowerup_starting ic ac ccp_run run_steady).
  - unfold ipcp_lowerup, fsm_lowerup. cbn [w_fsm ipcp_fsm_world].
    destruct (state (ip_fsm (w_ipcp w))) eqn:E; try done. by apply (kept_fsm ccp_run run_steady).
Qed.

#[export] Instance run_closed : NetClosed table ccp_run.
Proof.
  split; [apply run_frame|..].
  - intros e w He Hr. destruct (two_entries e He) as [-> | ->].
    + apply (kept_close ic ac ccp_run run_steady run_np_down).
      by apply (kept_lowerdown ic ac ccp_run run_steady run_np_down).
    + apply (run_event (ccp_lowerdown kc w)); [apply (ce_close kc (text "LCP down"))|].
      by apply (run_event w); [apply ce_lowerdown|].
  - intros e w He Hr. destruct (two_entries e He) as [-> | ->].
    + apply (run_frame (ipcp_open (HN := ipcp_events ac) ic w)); [done|].
      by apply (kept_open ic ac ccp_run run_steady run_np_down).
    + by apply (run_event w); [apply ce_open|].
Qed.

Lemma run_ipcp_event (event : fsm_callbacks W -> W -> W) w :
  finished_last cbs event -> ccp_run (event (without_finished cbs) w) -> ccp_run (event cbs w).
Proof.
  intros Hf Hr. destruct (Hf w) as [->| ->]; [done|]. set (w1 := event _ w) in *.
  change (call (cb_finished cbs) w1) with (ipcp_finished (HE := ipcp_finish ic ac cc magic more) w1).
  rewrite finished_of_table. by apply (np_finished_net ac cc magic table ccp_run).
Qed.

#[export] Instance run_stable : NetStable table ccp_run.
Proof.
  split; [apply _|..].
  - intros e w He Hr. destruct (two_entries e He) as [-> | ->]; [by apply run_ipcp_lowerup|].
    by apply (run_event w); [apply ce_lowerup|].
  - intros e w He Hr. destruct (two_entries e He) as [-> | ->]; [|by apply (run_event w); [apply ce_protrej|]].
    by apply (kept_lowerdown ic ac ccp_run run_steady run_np_down).
  - intros e bs n w He Hr. destruct (two_entries e He) as [-> | ->]; [|by apply (run_event w); [apply ce_input|]].
    apply (run_ipcp_event (fun cb => fsm_input (HW := IW) cb bs n)); [apply input_finished_last|].
    by apply (kept_input ic ac cc magic more ccp_run run_steady run_np_down run_np_up).
  - intros e g bs n w He Hg Hr. destruct (two_entries e He) as [-> | ->]; [done|].
    change (Some (ccp_datainput kc) = Some g) in Hg. apply (inj Some) in Hg. rewrite -Hg.
    by apply (run_event w); [apply ce_datainput|].
Qed.
End From.

(** ** Runs of the daemon *)

(** A step of the daemon, or the expiry of a timer of a network protocol. *)
Inductive pppd_step : W -> W -> Prop :=
  | pd_link w w' : link_step cfg ac cc magic table w w' -> pppd_step w w'
  | pd_ipcp_timer w :
      pppd_step w (ipcp_timeout (HN := ipcp_events ac) (HE := ipcp_finish ic ac cc magic more) ic (UNTIMEOUT (HW := IW) w))
  | pd_ccp_timer w : pppd_step w (ccp_timeout kc (UNTIMEOUT (HW := CW) w))
  | pd_rack_timer w : pends rack w <> 0%nat -> pppd_step w (ccp_rack_timeout (disarm rack w)).

Inductive pppd_reachable (LONG_MAX : Z) : W -> Prop :=
  | pd_start w : daemon_start w -> down_state ic (w_ipcp w) -> ccp_started LONG_MAX w -> pppd_reachable LONG_MAX w
  | pd_step w w' : pppd_reachable LONG_MAX w -> pppd_step w w' -> pppd_reachable LONG_MAX w'.

Lemma pppd_step_ppp w w' : pppd_step w w' -> ppp_step ic cfg ac cc magic more w w'.
Proof.
  intros [w1 w2 Hl|w1|w1|w1 _]; [by apply ps_link|apply ps_ipcp_timer|apply ps_more..].
  - apply mind_apart.
    + apply from_timeout. apply mind_quiet. intros l t Ht. by apply pending_untimeout_ne.
    + intros Hr. by apply ccp_resting_timeout.
  - apply mind_apart; [apply from_rack_timeout, mind_disarm|]. by rewrite rack_timeout_state.
Qed.

Lemma pppd_step_ccp w w' : pppd_step w w' -> rtc (ccp_event kc) w w'.
Proof.
  intros [w1 w2 Hl|w1|w1|w1 Hn].
  - apply (link_step_net cfg ac cc magic table (ccp_run w1) w1 w2 Hl), rtc_refl.
  - apply (run_ipcp_event w1 (fun cb => fsm_timeout (HW := IW) cb)); [apply timeout_finished_last|].
    apply (kept_timeout ic ac cc magic more (ccp_run w1) (run_steady w1) (run_np_down w1) (run_np_up w1)).
    apply (run_steady w1 w1); [|apply rtc_refl]. apply steady_link. intros l t Ht. by apply pending_untimeout_ne.
  - apply rtc_once, ce_timer.
  - by apply rtc_once, ce_rack.
Qed.

(** What holds over the runs of the daemon with IPCP, and over those of CCP,
    holds over the runs of the daemon with both. *)
Lemma pppd_ppp LONG_MAX w : pppd_reachable LONG_MAX w -> ppp_reachable ic cfg ac cc magic more w.
Proof.
  induction 1 as [w Hs Hd _|w w' _ IH Hs]; [by apply pr_start|]. eapply pr_step; [exact IH|]. by apply pppd_step_ppp.
Qed.

Lemma pppd_ccp LONG_MAX w : pppd_reachable LONG_MAX w -> ccp_reachable kc LONG_MAX w.
Proof.
  induction 1 as [w _ _ Hs|w w' _ IH Hs]; [by apply cr_start|]. apply pppd_step_ccp in Hs. clear -IH Hs.
  induction Hs as [|w1 w2 w3 H12 _ IH2]; [done|]. apply IH2. by eapply cr_event.
Qed.

End DaemonCcp.
