(* ===== verification/DaemonWitness.v ===== *)
(** * A daemon that runs

    A concrete daemon with IPCP and CCP as its network protocols, through a
    connection: negotiation, a password, the network phase, IP, compression, and
    the end of the link.  It
    shows that the interfaces of the theorems about the daemon can be met and
    that their hypotheses hold in runs. *)

From S2P Require Import Prelude Wire Inet Netif Callout Fsm FsmSpec FsmGate FsmPackets.
From S2P Require Import LcpOptions LcpReqci Lcp LcpSpec Upap Chap Auth AuthSpec DaemonGuard DaemonSpec DaemonAuth DaemonPap DaemonChap UpapSpec ChapSpec.
From S2P Require Import IpcpOptions IpcpReqci Ipcp IpcpNet IpcpGate DaemonIpcp.
From S2P Require Import CcpOptions CcpReqci CcpSpec CcpReqciSpec Ccp CcpRun CcpNet DaemonCcp.

Definition W : Type := daemon (ipcp * ccp).

(** A machine whose system calls all succeed. *)
#[export] Instance little_endian : ByteOrder := {| big_endian := false |}.
Definition toy_ip : ip_config := IpConfig false false 0 0 (Some []) (fun _ => None) true.

(** A kernel that knows Deflate, in either numbering, with windows of up to 12
    bits, and has no buffers for larger ones. *)
Definition toy_compress (n : nat) (opt : bytes) (transmit : bool) : compress_outcome :=
  match opt with
  | [code; _; v; _] =>
      if (code =? CI_DEFLATE) || (code =? CI_DEFLATE_DRAFT)
      then if DEFLATE_SIZE v <=? 12 then CO_taken else CO_nobufs else CO_error
  | _ => CO_error
  end.
Definition toy_kernel : ccp_config := CcpConfig toy_compress (fun _ => true) (fun _ => true) (fun _ => false) 0.
Definition toy_long_max : Z := 2 ^ 31 - 1.

(** A digest of the right size and a source of chance without any. *)
Definition toy_md5 (bs : bytes) : bytes := take 16 (bs ++ replicate 16 0).
Definition toy_chap : chap_config :=
  ChapConfig toy_md5 (fun n => Z.of_nat n * 2 ^ 40) false [] (text "gate").

(** The peer must log in as joe. *)
Definition toy_settings : auth_config :=
  AuthConfig true false false false (text "gate") [] 0 0
    (Some (fun u p => bool_decide (u = text "joe" /\ p = text "open sesame"))) None [].
Definition toy_options : auth_config * lcp_options * bool :=
  auth_check_options (text "host") false false false true toy_settings (lcp_want_init no_options).
Definition toy_auth : auth_config := toy_options.1.1.

Definition toy_others : list (protent W) := net_table toy_ip toy_auth toy_chap some_magic [ccp_protent toy_kernel].

Definition blank_fsm : fsm := Fsm 0 0 INITIAL 0 0 0 false 0 0 0 0 0 0 [] 0.
Definition blank_upap : upap_state := Upap [] 0 [] 0 UPAPCS_INITIAL UPAPSS_INITIAL 0 0 0 0 0 false false.
Definition blank_chap : chap_state :=
  Chap CHAPCS_INITIAL CHAPSS_INITIAL [] 0 0 0 0 [] 0 0 0 0 0 [] 0 0 0 [] 0 false.
Definition blank_auth : auth := Auth 0 0 0 [] false [] false false 0 0 false None.

(** Our address is 10.0.0.1; a default route is wanted. *)
Definition blank_netif : netif := Netif 0 0 0 NPMODE_ERROR false (0, 0) 0 0 false 0.
Definition blank_ip : ipcp_options :=
  IpcpOptions false false false false false false false false false false false 0 0 false 0 0 0 0 0 0.
Definition blank_ipcp : ipcp :=
  Ipcp blank_fsm blank_ip blank_ip blank_ip blank_ip false false false false blank_netif [] None false.
Definition toy_ipcp : ipcp :=
  let s := ipcp_init blank_ipcp in
  set_ip_want (IpcpOptions true false false true false true false false false false false
    IPCP_VJ_COMP (MAX_STATES - 1) true (htonl 167772161) 0 0 0 0 0) s.

Definition blank_ccp : ccp :=
  Ccp blank_fsm no_ccp_options no_ccp_options no_ccp_options no_ccp_options 0 false 0 0 0 false.
Definition toy_ccp : ccp := ccp_init blank_ccp.

Definition toy_start : W :=
  let '(f, s) := lcp_init blank_fsm blank_lcp in
  Daemon f (Link PPP_MRU (replicate OUTPACKET_SIZE 0) [] false [] (Timeval 0 0))
    (set_wantoptions toy_options.1.2 s) (upap_init blank_upap) (ChapInit blank_chap) blank_auth (toy_ipcp, toy_ccp).

Abbreviation toy_layer := (auth_layer toy_auth toy_chap some_magic toy_others).
Abbreviation toy_reachable := (pppd_reachable toy_ip some_config toy_auth toy_chap some_magic toy_kernel toy_long_max).
Abbreviation toy_daemon_reachable := (daemon_reachable some_config toy_auth toy_chap some_magic toy_others).

(** The main loop up to its first wait. *)
Definition toy_waiting : W :=
  new_phase PHASE_ESTABLISH
    (lcp_open (HA := toy_layer) some_config some_magic
       (lcp_lowerup (HA := toy_layer) some_config some_magic toy_start)).

(** A packet of a protocol as the serial line delivers it. *)
Definition frame (proto : Z) (bs : bytes) : bytes := MAKEHEADER proto ++ bs.
Definition receive (bs : bytes) (w : W) : W :=
  get_input some_config toy_auth toy_chap some_magic toy_others bs (Z.of_nat (length bs)) w.

(** The peer acknowledges our options and asks for none of its own. *)
Definition toy_authenticating : W :=
  receive (frame PPP_LCP (pkt CONFREQ 1 []))
    (receive (frame PPP_LCP (pkt CONFACK 101 (lcp_addci (gotoptions (d_lcp toy_waiting))))) toy_waiting).

(** An Authenticate-Request. *)
Definition login (u p : bytes) : bytes :=
  frame PPP_PAP (pkt UPAP_AUTHREQ 1 (PUTCHAR (Z.of_nat (length u)) ++ u ++ PUTCHAR (Z.of_nat (length p)) ++ p)).

Definition toy_networking : W := receive (login (text "joe") (text "open sesame")) toy_authenticating.

Example toy_lcp_opens :
  state (d_fsm toy_authenticating) = OPENED /\ phase toy_authenticating = PHASE_AUTHENTICATE /\
  us_serverstate (d_upap toy_authenticating) = UPAPSS_LISTEN.
Proof. vm_compute. auto. Qed.

Example toy_network_phase :
  phase toy_networking = PHASE_NETWORK /\ us_serverstate (d_upap toy_networking) = UPAPSS_OPEN /\
  peer_authname (d_auth toy_networking) = text "joe".
Proof. vm_compute. auto. Qed.

Example toy_wrong_password :
  let w := receive (login (text "joe") (text "open barley")) toy_authenticating in
  state (d_fsm w) = CLOSING /\ pppd_status (d_lcp w) = EXIT_PEER_AUTH_FAILED.
Proof. vm_compute. auto. Qed.

(** ** Witnesses *)

Lemma toy_start_ok : daemon_start toy_start.
Proof.
  split_and!; [by exists blank_fsm, blank_lcp|by exists blank_upap|by exists blank_chap|done| |by split; left|done].
  by intros [?|[?|?]].
Qed.

Lemma toy_link w w' :
  toy_reachable w -> link_step some_config toy_auth toy_chap some_magic toy_others w w' -> toy_reachable w'.
Proof. intros Hr Hl. eapply pd_step; [exact Hr|by apply pd_link]. Qed.

Lemma receive_reachable bs w : toy_reachable w -> toy_reachable (receive bs w).
Proof. intros Hr. exact (toy_link _ _ Hr (ds_packet _ _ _ _ _ bs (Z.of_nat (length bs)) w)). Qed.

Lemma toy_waiting_reachable : toy_reachable toy_waiting.
Proof.
  refine (toy_link _ _ _ (ds_phase _ _ _ _ _ PHASE_ESTABLISH _ _ _ _)); [|discriminate..].
  refine (toy_link _ _ _ (ds_open _ _ _ _ _ _)).
  refine (toy_link _ _ _ (ds_lowerup _ _ _ _ _ _)).
  apply pd_start; [apply toy_start_ok|done|]. by split; [apply cf_init|].
Qed.

Lemma toy_authenticating_reachable : toy_reachable toy_authenticating.
Proof. apply receive_reachable, receive_reachable, toy_waiting_reachable. Qed.

Lemma toy_networking_reachable : toy_reachable toy_networking.
Proof. apply receive_reachable, toy_authenticating_reachable. Qed.

Lemma toy_networking_daemon : toy_daemon_reachable toy_networking.
Proof. eapply ppp_daemon_reachable, pppd_ppp, toy_networking_reachable. Qed.

Lemma some_fails : 0 <= lcp_echo_fails some_config.
Proof. done. Qed.

Lemma daemon_network_needs_auth_witness :
  phase toy_networking = PHASE_NETWORK /\ peer_by_pap toy_networking = true /\
  us_serverstate (d_upap toy_networking) = UPAPSS_OPEN /\ us_peer_passed (d_upap toy_networking) = true.
Proof.
  assert (Hp : peer_by_pap toy_networking = true) by (vm_compute; reflexivity).
  split; [vm_compute; reflexivity|]. split; [exact Hp|]. split; [vm_compute; reflexivity|].
  apply (daemon_network_needs_auth some_config toy_auth toy_chap some_magic toy_others some_fails toy_networking
           toy_networking_daemon); [left; vm_compute; reflexivity|exact Hp].
Defined.

Lemma daemon_peer_needs_accept_witness :
  exists ruser rpasswd, check_passwd_pap toy_auth ruser rpasswd = UPAP_AUTHACK.
Proof.
  destruct (daemon_peer_needs_accept some_config toy_auth toy_chap some_magic toy_others
    toy_authenticating toy_networking
    (ds_link _ _ _ _ _ _ _ (ds_packet _ _ _ _ _ (login (text "joe") (text "open sesame"))
       (Z.of_nat (length (login (text "joe") (text "open sesame")))) toy_authenticating))
    ltac:(vm_compute; discriminate) ltac:(vm_compute; reflexivity))
    as (buf & len & p & pid & n & inp & ruser & rpasswd & _ & _ & _ & _ & _ & _ & Hk).
  exists ruser, rpasswd. exact Hk.
Defined.


(** A client that has just been told that the link is up. *)
Definition toy_client : W := on_upap (set_clientstate UPAPCS_CLOSED) toy_authenticating.

Lemma toy_client_buf : buf_ok (d_link toy_client).
Proof. vm_compute. reflexivity. Qed.

Lemma pap_request_roundtrip_witness :
  exists inp n, parse_authreq inp n = Good (text "me", text "mine").
Proof.
  destruct (pap_request_roundtrip toy_client (text "me") (text "mine") ltac:(simpl; lia) ltac:(simpl; lia)
    toy_client_buf eq_refl) as (pkt & n & inp & _ & _ & _ & Hp).
  exists inp, n. exact Hp.
Defined.

(** A client with two of its ten requests left. *)
Definition toy_asking : W :=
  on_upap (set_transmits 8) (upap_authwithpeer (text "me") (text "mine") toy_client).

Lemma pap_client_gives_up_witness :
  let w := Nat.iter 3 (retry_expires toy_auth toy_chap some_magic toy_others) toy_asking in
  state (d_fsm w) = CLOSING /\ pppd_status (d_lcp w) = EXIT_AUTH_TOPEER_FAILED.
Proof.
  apply (pap_client_gives_up toy_auth toy_chap some_magic toy_others toy_asking 2);
    [vm_compute; reflexivity|vm_compute; reflexivity|vm_compute; discriminate|vm_compute; reflexivity].
Defined.

Lemma pap_silent_peer_leaves_badauth_witness :
  let w := upap_reqtimeout (HA := auth_events toy_auth toy_chap some_magic toy_others)
             (disarm (request_timer (W := W)) toy_authenticating) in
  state (d_fsm w) = CLOSING /\ us_serverstate (d_upap w) = UPAPSS_BADAUTH.
Proof.
  destruct (pap_silent_peer_leaves_badauth toy_auth toy_chap some_magic toy_others toy_authenticating
    ltac:(vm_compute; reflexivity) ltac:(vm_compute; reflexivity)) as (H1 & H2 & _).
  exact (conj H1 H2).
Defined.

(** A packet of AppleTalk. *)
Definition appletalk : bytes := frame 41 [1; 2; 3].

Lemma toy_networking_buf : buf_ok (d_link toy_networking).
Proof. vm_compute. reflexivity. Qed.

Lemma toy_networking_mru : HEADERLEN <= peer_mru (d_link toy_networking) <= PPP_MRU.
Proof. vm_compute. split; discriminate. Qed.

Lemma daemon_unknown_protocol_rejected_witness :
  exists pkt, sent (d_link (receive appletalk toy_networking))
              = sent (d_link toy_networking) ++ [MAKEHEADER PPP_LCP ++ pkt].
Proof.
  destruct (daemon_unknown_protocol_rejected some_config toy_auth toy_chap some_magic toy_others
    toy_networking appletalk 7 41 [1; 2; 3] eq_refl ltac:(vm_compute; discriminate) eq_refl
    ltac:(vm_compute; reflexivity) ltac:(vm_compute; reflexivity) ltac:(vm_compute; reflexivity) eq_refl
    toy_networking_buf toy_networking_mru) as (pkt & Hs & _).
  exists pkt. exact Hs.
Defined.

(** ** IP *)

(** What we ask for in our first request: our address and VJ compression; and
    what the peer asks for: the address 10.0.0.2. *)
Definition our_request (w : W) : bytes :=
  let go := ip_got (w_ipcp w) in (ipcp_addci go (ipcp_cilen (ip_want (w_ipcp w)) (ip_his (w_ipcp w)) go).1).1.1.
Definition his_request : bytes := [3; 6; 10; 0; 0; 2].

Definition toy_running : W :=
  receive (frame PPP_IPCP (pkt CONFREQ 1 his_request))
    (receive (frame PPP_IPCP (pkt CONFACK 101 (our_request toy_networking))) toy_networking).

Example toy_our_request : our_request toy_networking = [3; 6; 10; 0; 0; 1; 2; 6; 0; 45; 15; 1].
Proof. vm_compute. reflexivity. Qed.

(** IP is up, with the addresses and the default route; *)
Example toy_ip_up :
  let s := w_ipcp toy_running in
  phase toy_running = PHASE_RUNNING /\ ipcp_is_up s = true /\ ni_npmode (ip_netif s) = NPMODE_PASS /\
  ifaddrs (ip_netif s) = (htonl 167772161, htonl 167772162) /\
  default_route_set s = true /\ default_route_gateway (ip_netif s) = htonl 167772162.
Proof. vm_compute. split_and!; reflexivity. Qed.

(** and they are gone when the peer ends the link. *)
Example toy_ip_down :
  let w := receive (frame PPP_LCP (pkt TERMREQ 2 [])) toy_running in
  let s := w_ipcp w in
  state (d_fsm w) = STOPPING /\ phase w = PHASE_TERMINATE /\ state (ip_fsm s) = INITIAL /\ ni_route (ip_netif s) = 0 /\
  ipcp_is_up s = false /\ ni_npmode (ip_netif s) = NPMODE_ERROR /\ if_is_up (ip_netif s) = false /\
  (ifaddrs (ip_netif s)).1 = 0 /\ default_route_set s = false /\ default_route_gateway (ip_netif s) = 0.
Proof. vm_compute. split_and!; reflexivity. Qed.

(** A peer that asks for a loopback address is refused. *)
Example toy_ip_refused :
  let w := receive (frame PPP_IPCP (pkt CONFREQ 1 [3; 6; 127; 0; 0; 1]))
    (receive (frame PPP_IPCP (pkt CONFACK 101 (our_request toy_networking))) toy_networking) in
  state (ip_fsm (w_ipcp w)) = CLOSING /\ ipcp_is_up (w_ipcp w) = false.
Proof. vm_compute. split_and!; reflexivity. Qed.

Lemma toy_running_reachable : toy_reachable toy_running.
Proof. apply receive_reachable, receive_reachable, toy_networking_reachable. Qed.

Lemma toy_ip_obeys : obeys toy_ip.
Proof. by intros i. Qed.

Lemma daemon_ip_needs_auth_witness :
  ni_npmode (ip_netif (w_ipcp toy_running)) = NPMODE_PASS /\ auth_pending (d_auth toy_running) = 0 /\
  peer_by_pap toy_running = true /\ server_settled toy_running.
Proof.
  assert (Hu : ni_npmode (ip_netif (w_ipcp toy_running)) = NPMODE_PASS) by (vm_compute; reflexivity).
  assert (Ha : peer_by_pap toy_running = true) by (vm_compute; reflexivity).
  destruct (daemon_ip_needs_auth toy_ip some_config toy_auth toy_chap some_magic [ccp_protent toy_kernel] toy_running
    some_fails (pppd_ppp _ _ _ _ _ _ _ _ toy_running_reachable) (or_introl (conj (or_introl toy_ip_obeys) Hu)))
    as (_ & (_ & Hz & _ & Hs & _) & _).
  exact (conj Hu (conj Hz (conj Ha (Hs Ha)))).
Defined.

Lemma daemon_routes_lead_to_peer_witness :
  ni_route (ip_netif (w_ipcp toy_running)) <> 0 /\
  ni_route (ip_netif (w_ipcp toy_running)) = hisaddr (ip_his (w_ipcp toy_running)).
Proof.
  assert (Hd : ni_route (ip_netif (w_ipcp toy_running)) <> 0) by (vm_compute; discriminate).
  destruct (daemon_routes_lead_to_peer toy_ip some_config toy_auth toy_chap some_magic [ccp_protent toy_kernel] toy_running
    eq_refl (pppd_ppp _ _ _ _ _ _ _ _ toy_running_reachable) (or_intror (conj toy_ip_obeys (or_introl Hd))))
    as (_ & _ & _ & _ & Hg).
  exact (conj Hd (proj1 (Hg toy_ip_obeys) Hd)).
Defined.

(** ** Compression *)

(** The request of CCP that has been sent, and what the peer asks for: a window
    of 10 bits. *)
Definition our_ccp_request (w : W) : bytes := ccp_request (cc_got (w_ccp w)).
Definition his_ccp_request : bytes := deflate_option CI_DEFLATE 10.

Definition toy_compressing : W :=
  receive (frame PPP_CCP (pkt CONFREQ 1 his_ccp_request))
    (receive (frame PPP_CCP (pkt CONFACK 101 (our_ccp_request toy_running))) toy_running).

(** The kernel has brought our window down from 15 bits to 12. *)
Example toy_our_ccp_request :
  our_ccp_request toy_running = [26; 4; 72; 0; 24; 4; 72; 0] /\
  deflate_size (cc_want (w_ccp toy_running)) = 15 /\ deflate_size (cc_got (w_ccp toy_running)) = 12.
Proof. vm_compute. split_and!; reflexivity. Qed.

Example toy_ccp_up :
  let s := w_ccp toy_compressing in
  state (cc_fsm s) = OPENED /\ has_bits (cc_flags s) SC_CCP_UP = true /\ deflate_size (cc_his s) = 10 /\
  phase toy_compressing = PHASE_RUNNING.
Proof. vm_compute. split_and!; reflexivity. Qed.

(** Compression ends with the link; *)
Example toy_ccp_down :
  let s := w_ccp (receive (frame PPP_LCP (pkt TERMREQ 2 [])) toy_compressing) in
  state (cc_fsm s) = INITIAL /\ has_bits (cc_flags s) SC_CCP_UP = false.
Proof. vm_compute. split_and!; reflexivity. Qed.

(** closing an open CCP by itself leaves the device set to look at its packets,
    which [ccp_close] has just asked it not to do. *)
Example ccp_close_leaves_open :
  let s := w_ccp (ccp_close toy_kernel (text "Lost compression sync") toy_compressing) in
  state (cc_fsm s) = CLOSING /\ has_bits (cc_flags s) SC_CCP_UP = false /\ has_bits (cc_flags s) SC_CCP_OPEN = true.
Proof. vm_compute. split_and!; reflexivity. Qed.

Lemma toy_compressing_reachable : toy_reachable toy_compressing.
Proof. apply receive_reachable, receive_reachable, toy_running_reachable. Qed.

Lemma toy_device_fine : device_fine toy_kernel.
Proof. done. Qed.


Lemma toy_compressing_ccp : ccp_reachable toy_kernel toy_long_max toy_compressing.
Proof. eapply pppd_ccp, toy_compressing_reachable. Qed.

Lemma ccp_sizes_in_range_witness : ccp_sizes_ok (cc_got (w_ccp toy_compressing)).
Proof.
  apply (proj1 (proj2 (proj2 (ccp_sizes_in_range toy_kernel toy_long_max toy_compressing 0 toy_compressing_ccp)))).
  vm_compute. reflexivity.
Defined.

(** A packet could not be decompressed. *)
Definition toy_resetting : W := ccp_datainput toy_kernel [] 0 toy_compressing.

Lemma toy_resetting_ccp : ccp_reachable toy_kernel toy_long_max toy_resetting.
Proof. eapply cr_event; [exact toy_compressing_ccp|apply ce_datainput]. Qed.

Lemma ccp_rack_timer_runs_witness :
  ccp_localstate (w_ccp toy_resetting) = RACK_PENDING /\ waits (rack_timer (W := W)) toy_resetting = 1%nat.
Proof.
  assert (Hl : ccp_localstate (w_ccp toy_resetting) = RACK_PENDING) by (vm_compute; reflexivity).
  split; [exact Hl|]. destruct (ccp_rack_timer_runs toy_kernel toy_long_max toy_resetting toy_resetting_ccp) as [Hw _].
  rewrite Hl in Hw. exact Hw.
Defined.

Lemma ccp_reset_handshake_witness :
  sent (w_link toy_resetting) =
  sent (w_link toy_compressing) ++ [reset_request (u8 (id (cc_fsm (w_ccp toy_compressing)) + 1))].
Proof.
  assert (Ho : state (cc_fsm (w_ccp toy_compressing)) = OPENED) by (vm_compute; reflexivity).
  assert (Hp : protocol (cc_fsm (w_ccp toy_compressing)) = PPP_CCP) by (vm_compute; reflexivity).
  assert (Hl : ccp_localstate (w_ccp toy_compressing) = 0) by (vm_compute; reflexivity).
  assert (Hw : waits (rack_timer (W := W)) toy_compressing = 0%nat) by (vm_compute; reflexivity).
  assert (Hb : buf_ok (w_link toy_compressing)) by (vm_compute; reflexivity).
  assert (Hm : HEADERLEN <= peer_mru (w_link toy_compressing)) by (vm_compute; discriminate).
  pose proof (ccp_reset_handshake toy_kernel [] 0 [] 0 [] 0 toy_compressing Ho Hp Hl Hw (fun _ => eq_refl) Hb Hm) as [Hs _].
  exact Hs.
Defined.

(** ** A daemon that dials *)

(** It has a password and asks nothing of the peer. *)
Definition dial_auth : auth_config :=
  AuthConfig false false false false (text "host") (text "joe") 0 0 None None [].

Definition dial_others : list (protent W) := net_table toy_ip dial_auth toy_chap some_magic [ccp_protent toy_kernel].

Definition dial_start : W :=
  let '(f, s) := lcp_init blank_fsm blank_lcp in
  Daemon f (Link PPP_MRU (replicate OUTPACKET_SIZE 0) [] false [] (Timeval 0 0)) s (upap_init blank_upap)
    (ChapInit blank_chap) (set_passwd (text "hush") blank_auth) (toy_ipcp, toy_ccp).

Abbreviation dial_layer := (auth_layer dial_auth toy_chap some_magic dial_others).
Abbreviation dial_reachable := (daemon_reachable some_config dial_auth toy_chap some_magic dial_others).

Definition dial_receive (bs : bytes) (w : W) : W :=
  get_input some_config dial_auth toy_chap some_magic dial_others bs (Z.of_nat (length bs)) w.

Definition dial_waiting : W :=
  new_phase PHASE_ESTABLISH
    (lcp_open (HA := dial_layer) some_config some_magic
       (lcp_lowerup (HA := dial_layer) some_config some_magic dial_start)).

(** The peer asks for CHAP with MD5. *)
Definition dial_listening : W :=
  dial_receive (frame PPP_LCP (pkt CONFREQ 1 [3; 5; 194; 35; 5]))
    (dial_receive (frame PPP_LCP (pkt CONFACK 101 (lcp_addci (gotoptions (d_lcp dial_waiting))))) dial_waiting).

(** A challenge of three bytes from a peer called gate, and a Success. *)
Definition dare (pid : Z) : bytes := frame PPP_CHAP (value_packet CHAP_CHALLENGE pid [1; 2; 3] (text "gate")).
Definition welcome (pid : Z) : bytes := frame PPP_CHAP (pkt CHAP_SUCCESS pid (text "hello")).

Definition dial_responding : W := dial_receive (dare 7) dial_listening.
Definition dial_networking : W := dial_receive (welcome 7) dial_responding.

(** The peer acknowledges our IPCP options and asks for an address. *)
Definition dial_running : W :=
  dial_receive (frame PPP_IPCP (pkt CONFREQ 1 his_request))
    (dial_receive (frame PPP_IPCP (pkt CONFACK 101 (our_request dial_networking))) dial_networking).

Example dial_connects :
  ch_clientstate (d_chap dial_listening) = CHAPCS_LISTEN /\ phase dial_listening = PHASE_AUTHENTICATE /\
  ch_clientstate (d_chap dial_responding) = CHAPCS_RESPONSE /\
  ch_clientstate (d_chap dial_networking) = CHAPCS_OPEN /\ phase dial_networking = PHASE_NETWORK /\
  phase dial_running = PHASE_RUNNING /\ num_np_open (d_auth dial_running) = 1 /\
  num_np_up (d_auth dial_running) = 1.
Proof. vm_compute. split_and!; reflexivity. Qed.

(** A peer that challenges again on a running link, as CHAP allows, takes it
    back to the network phase and has the network protocols counted twice: when
    they have finished, the link stays up. *)
Example chap_rechallenge_restarts_network :
  let w := dial_receive (welcome 8) (dial_receive (dare 8) dial_running) in
  phase w = PHASE_NETWORK /\ num_np_open (d_auth w) = 2 /\
  let w' := np_finished dial_auth toy_chap some_magic dial_others w in
  state (d_fsm w') = OPENED /\ num_np_open (d_auth w') = 1.
Proof. vm_compute. split_and!; reflexivity. Qed.

(** A Terminate-Ack takes the link down and leaves LCP open; a challenge and a
    Success then start the network phase on it. *)
Example chap_revives_dead_link :
  let w := dial_receive (frame PPP_LCP (pkt TERMACK 1 [])) dial_running in
  phase w = PHASE_TERMINATE /\ ch_clientstate (d_chap w) = CHAPCS_INITIAL /\
  phase (dial_receive (welcome 9) (dial_receive (dare 9) w)) = PHASE_NETWORK.
Proof. vm_compute. split_and!; reflexivity. Qed.

Lemma dial_link w w' :
  dial_reachable w -> link_step some_config dial_auth toy_chap some_magic dial_others w w' -> dial_reachable w'.
Proof. intros Hr Hl. eapply dr_step; [exact Hr|by apply ds_link]. Qed.

Lemma dial_receive_reachable bs w : dial_reachable w -> dial_reachable (dial_receive bs w).
Proof. intros Hr. exact (dial_link _ _ Hr (ds_packet _ _ _ _ _ bs (Z.of_nat (length bs)) w)). Qed.

Lemma dial_responding_reachable : dial_reachable dial_responding.
Proof.
  apply dial_receive_reachable, dial_receive_reachable, dial_receive_reachable.
  refine (dial_link _ _ _ (ds_phase _ _ _ _ _ PHASE_ESTABLISH _ _ _ _)); [|discriminate..].
  refine (dial_link _ _ _ (ds_open _ _ _ _ _ _)).
  refine (dial_link _ _ _ (ds_lowerup _ _ _ _ _ _)).
  apply dr_start. split_and!; [by exists blank_fsm, blank_lcp|by exists blank_upap|by exists blank_chap|done| |by split; left|done].
  by intros [?|[?|?]].
Qed.

Lemma daemon_chap_waits_timed_witness :
  ch_clientstate (d_chap dial_responding) = CHAPCS_RESPONSE /\
  (0 < pends (response_timer (W := W)) dial_responding)%nat.
Proof.
  split; [vm_compute; reflexivity|].
  apply (proj1 (daemon_chap_waits_timed some_config dial_auth toy_chap some_magic dial_others
    dial_responding dial_responding_reachable)); vm_compute; reflexivity.
Defined.

(** ** A server that challenges *)

Definition toy_server : W :=
  on_chap (set_ch_server CHAPSS_INITIAL_CHAL)
    (on_chap (set_challenger (text "gate") CHAP_DIGEST_MD5) (ChapGenChallenge toy_chap dial_start)).

Lemma toy_md5_length bs : length (toy_md5 bs) = 16%nat.
Proof. unfold toy_md5. rewrite length_take length_app length_replicate. lia. Qed.

Lemma toy_server_challenging : challenging (d_chap toy_server).
Proof. vm_compute. split_and!; first [reflexivity|discriminate|lia]. Qed.

Lemma dial_answering : answering (d_chap dial_listening).
Proof. vm_compute. split_and!; first [discriminate|reflexivity|lia]. Qed.

Lemma dial_listening_buf : buf_ok (d_link dial_listening).
Proof. vm_compute. reflexivity. Qed.

Lemma chap_handshake_witness :
  exists inp m, parse_value inp m =
    Good (digest toy_chap (chal_id (d_chap toy_server)) (text "hush") (challenge_value (d_chap toy_server)), text "joe").
Proof.
  destruct (chap_handshake toy_chap dial_auth some_magic dial_others toy_server dial_listening toy_md5_length
    toy_server_challenging eq_refl dial_answering dial_listening_buf)
    as (pkt & rpkt & m & inp & _ & _ & _ & _ & _ & Hp & _).
  exists inp, m. exact Hp.
Defined.
