(* ===== verification/PppSoftc.v ===== *)
(** * The PPP device: its state

    What [if_ppp.c] and [ppp_tty.c] keep of the one unit there is
    ([struct ppp_softc] of [if_pppvar.h]), with the events its two tasks and the
    daemon wait for, and what the line driver was handed last.  Buffers are
    mbufs; a chain is the list of mbufs linked by [m_next]. *)

From S2P Require Import Prelude Wire Inet Netif Fcs.

(** ** Constants *)

Definition SC_COMP_PROT := 0x1.
Definition SC_COMP_AC := 0x2.
Definition SC_REJ_COMP_AC := 0x10.
Definition SC_RCV_B7_0 := 0x01000000.
Definition SC_RCV_B7_1 := 0x02000000.
Definition SC_RCV_EVNP := 0x04000000.
Definition SC_RCV_ODDP := 0x08000000.
Definition SC_MASK := 0x0fff00ff.
Definition SC_VJ_RESET := 0x00000800.
Definition SC_PKTLOST := 0x20000000.
Definition SC_FLUSH := 0x40000000.
Definition SC_ESCAPED := 0x80000000.

Definition SC_TX_BUSY := 0x0001.
Definition SC_TX_FCS := 0x0002.
Definition SC_TX_ESCAPE := 0x0004.
Definition SC_TX_LASTCHAR := 0x0008.
Definition SC_TX_PENDING := 0x0010.

Definition NUM_MBUFQ := 64.
Definition PPP_MTU := 1500.
Definition IFQ_MAXLEN := 50.
Definition IFF_MULTICAST := 0x8000.
Definition IFF_DRV_RUNNING := 0x40.
Definition IFF_DRV_OACTIVE := 0x400.

Definition M_EXT := 0x1.
Definition M_PKTHDR := 0x2.
Definition M_HIGHPRI := 0x2000.
Definition M_ERRMARK := 0x4000.

(** ** Mbufs *)

(** The data area of an mbuf, where its data begin and how many bytes they are,
    its flags, and whether the area is its own. *)
Record mbuf := Mbuf {
  m_store : bytes;
  m_data : nat;
  m_len : Z;
  m_flags : Z;
  m_writable : bool
}.

Definition set_m_store v (m : mbuf) : mbuf :=
  Mbuf v (m_data m) (m_len m) (m_flags m) (m_writable m).
Definition set_m_data v (m : mbuf) : mbuf :=
  Mbuf (m_store m) v (m_len m) (m_flags m) (m_writable m).
Definition set_m_len v (m : mbuf) : mbuf :=
  Mbuf (m_store m) (m_data m) v (m_flags m) (m_writable m).
Definition set_m_flags v (m : mbuf) : mbuf :=
  Mbuf (m_store m) (m_data m) (m_len m) v (m_writable m).
Definition set_m_writable v (m : mbuf) : mbuf :=
  Mbuf (m_store m) (m_data m) (m_len m) (m_flags m) v.

Abbreviation chain := (list mbuf) (only parsing).

Definition M_IS_CLUSTER (m : mbuf) : bool := has_bits (m_flags m) M_EXT.
Definition M_DATASIZE (m : mbuf) : Z := Z.of_nat (length (m_store m)).
Definition M_TRAILINGSPACE (m : mbuf) : Z :=
  if m_writable m then M_DATASIZE m - (Z.of_nat (m_data m) + m_len m) else 0.
Definition M_LEADINGSPACE (m : mbuf) : Z := if m_writable m then Z.of_nat (m_data m) else 0.

(** The memory behind the data pointer, and the data. *)
Definition mtod (m : mbuf) : bytes := drop (m_data m) (m_store m).
Definition m_bytes (m : mbuf) : bytes := take (Z.to_nat (m_len m)) (mtod m).
Definition chain_bytes (c : chain) : bytes := concat (map m_bytes c).
Definition chain_len (c : chain) : Z := foldr (fun m n => m_len m + n) 0 c.

(** ** The unit *)

(** [struct pppstat] *)
Record pppstat := PppStat {
  ppp_ibytes : Z;
  ppp_ipackets : Z;
  ppp_ierrors : Z;
  ppp_obytes : Z;
  ppp_opackets : Z;
  ppp_oerrors : Z
}.

Definition set_ppp_ibytes v (p : pppstat) : pppstat :=
  PppStat v (ppp_ipackets p) (ppp_ierrors p) (ppp_obytes p) (ppp_opackets p) (ppp_oerrors p).
Definition set_ppp_ipackets v (p : pppstat) : pppstat :=
  PppStat (ppp_ibytes p) v (ppp_ierrors p) (ppp_obytes p) (ppp_opackets p) (ppp_oerrors p).
Definition set_ppp_ierrors v (p : pppstat) : pppstat :=
  PppStat (ppp_ibytes p) (ppp_ipackets p) v (ppp_obytes p) (ppp_opackets p) (ppp_oerrors p).
Definition set_ppp_obytes v (p : pppstat) : pppstat :=
  PppStat (ppp_ibytes p) (ppp_ipackets p) (ppp_ierrors p) v (ppp_opackets p) (ppp_oerrors p).
Definition set_ppp_opackets v (p : pppstat) : pppstat :=
  PppStat (ppp_ibytes p) (ppp_ipackets p) (ppp_ierrors p) (ppp_obytes p) v (ppp_oerrors p).
Definition set_ppp_oerrors v (p : pppstat) : pppstat :=
  PppStat (ppp_ibytes p) (ppp_ipackets p) (ppp_ierrors p) (ppp_obytes p) (ppp_opackets p) v.

(** Receiving: the chain being filled, the position in it (which of its mbufs,
    and the place of the next byte there), the queues of free and of received
    chains, the events of the receiving task, and whether a pointer was followed
    that leads nowhere. *)
Record rx := Rx {
  sc_m : option chain;
  sc_mc : nat;
  sc_mp : nat;
  sc_ilen : Z;
  sc_fcs : Z;
  sc_rasyncmap : Z;
  sc_freeq : list chain;
  sc_rawq : list chain;
  RX_PACKET : bool;
  RX_MBUF : bool;
  RX_EMPTY : bool;
  rx_fault : bool
}.

Definition set_sc_m v (r : rx) : rx :=
  Rx v (sc_mc r) (sc_mp r) (sc_ilen r) (sc_fcs r) (sc_rasyncmap r) (sc_freeq r) (sc_rawq r) (RX_PACKET r)
    (RX_MBUF r) (RX_EMPTY r) (rx_fault r).
Definition set_sc_mc v (r : rx) : rx :=
  Rx (sc_m r) v (sc_mp r) (sc_ilen r) (sc_fcs r) (sc_rasyncmap r) (sc_freeq r) (sc_rawq r) (RX_PACKET r)
    (RX_MBUF r) (RX_EMPTY r) (rx_fault r).
Definition set_sc_mp v (r : rx) : rx :=
  Rx (sc_m r) (sc_mc r) v (sc_ilen r) (sc_fcs r) (sc_rasyncmap r) (sc_freeq r) (sc_rawq r) (RX_PACKET r)
    (RX_MBUF r) (RX_EMPTY r) (rx_fault r).
Definition set_sc_ilen v (r : rx) : rx :=
  Rx (sc_m r) (sc_mc r) (sc_mp r) v (sc_fcs r) (sc_rasyncmap r) (sc_freeq r) (sc_rawq r) (RX_PACKET r)
    (RX_MBUF r) (RX_EMPTY r) (rx_fault r).
Definition set_sc_fcs v (r : rx) : rx :=
  Rx (sc_m r) (sc_mc r) (sc_mp r) (sc_ilen r) v (sc_rasyncmap r) (sc_freeq r) (sc_rawq r) (RX_PACKET r)
    (RX_MBUF r) (RX_EMPTY r) (rx_fault r).
Definition set_sc_rasyncmap v (r : rx) : rx :=
  Rx (sc_m r) (sc_mc r) (sc_mp r) (sc_ilen r) (sc_fcs r) v (sc_freeq r) (sc_rawq r) (RX_PACKET r) (RX_MBUF r)
    (RX_EMPTY r) (rx_fault r).
Definition set_sc_freeq v (r : rx) : rx :=
  Rx (sc_m r) (sc_mc r) (sc_mp r) (sc_ilen r) (sc_fcs r) (sc_rasyncmap r) v (sc_rawq r) (RX_PACKET r)
    (RX_MBUF r) (RX_EMPTY r) (rx_fault r).
Definition set_sc_rawq v (r : rx) : rx :=
  Rx (sc_m r) (sc_mc r) (sc_mp r) (sc_ilen r) (sc_fcs r) (sc_rasyncmap r) (sc_freeq r) v (RX_PACKET r)
    (RX_MBUF r) (RX_EMPTY r) (rx_fault r).
Definition set_RX_PACKET v (r : rx) : rx :=
  Rx (sc_m r) (sc_mc r) (sc_mp r) (sc_ilen r) (sc_fcs r) (sc_rasyncmap r) (sc_freeq r) (sc_rawq r) v
    (RX_MBUF r) (RX_EMPTY r) (rx_fault r).
Definition set_RX_MBUF v (r : rx) : rx :=
  Rx (sc_m r) (sc_mc r) (sc_mp r) (sc_ilen r) (sc_fcs r) (sc_rasyncmap r) (sc_freeq r) (sc_rawq r)
    (RX_PACKET r) v (RX_EMPTY r) (rx_fault r).
Definition set_RX_EMPTY v (r : rx) : rx :=
  Rx (sc_m r) (sc_mc r) (sc_mp r) (sc_ilen r) (sc_fcs r) (sc_rasyncmap r) (sc_freeq r) (sc_rawq r)
    (RX_PACKET r) (RX_MBUF r) v (rx_fault r).
Definition set_rx_fault v (r : rx) : rx :=
  Rx (sc_m r) (sc_mc r) (sc_mp r) (sc_ilen r) (sc_fcs r) (sc_rasyncmap r) (sc_freeq r) (sc_rawq r)
    (RX_PACKET r) (RX_MBUF r) (RX_EMPTY r) v.

(** Sending: the chain being sent, the rest of it from the current mbuf on, the
    memory behind [sc_outbuf], the events of the sending task, what the driver was
    handed by the last call of its [write], and whether memory was read that is
    not the buffer's. *)
Record tx := Tx {
  sc_asyncmap : list Z;
  sc_outm : option chain;
  sc_outmc : option chain;
  sc_outbuf : bytes;
  sc_outoff : Z;
  sc_outoff_update : bool;
  sc_outflag : Z;
  sc_outlen : Z;
  sc_outfcs : Z;
  sc_outfcslen : Z;
  sc_outfcsbuf : bytes;
  sc_outchar : Z;
  TX_PACKET : bool;
  TX_TRANSMIT : bool;
  tx_write : bytes;
  tx_fault : bool
}.

Definition set_sc_asyncmap v (t : tx) : tx :=
  Tx v (sc_outm t) (sc_outmc t) (sc_outbuf t) (sc_outoff t) (sc_outoff_update t) (sc_outflag t) (sc_outlen t)
    (sc_outfcs t) (sc_outfcslen t) (sc_outfcsbuf t) (sc_outchar t) (TX_PACKET t) (TX_TRANSMIT t) (tx_write t)
    (tx_fault t).
Definition set_sc_outm v (t : tx) : tx :=
  Tx (sc_asyncmap t) v (sc_outmc t) (sc_outbuf t) (sc_outoff t) (sc_outoff_update t) (sc_outflag t)
    (sc_outlen t) (sc_outfcs t) (sc_outfcslen t) (sc_outfcsbuf t) (sc_outchar t) (TX_PACKET t) (TX_TRANSMIT t)
    (tx_write t) (tx_fault t).
Definition set_sc_outmc v (t : tx) : tx :=
  Tx (sc_asyncmap t) (sc_outm t) v (sc_outbuf t) (sc_outoff t) (sc_outoff_update t) (sc_outflag t)
    (sc_outlen t) (sc_outfcs t) (sc_outfcslen t) (sc_outfcsbuf t) (sc_outchar t) (TX_PACKET t) (TX_TRANSMIT t)
    (tx_write t) (tx_fault t).
Definition set_sc_outbuf v (t : tx) : tx :=
  Tx (sc_asyncmap t) (sc_outm t) (sc_outmc t) v (sc_outoff t) (sc_outoff_update t) (sc_outflag t) (sc_outlen t)
    (sc_outfcs t) (sc_outfcslen t) (sc_outfcsbuf t) (sc_outchar t) (TX_PACKET t) (TX_TRANSMIT t) (tx_write t)
    (tx_fault t).
Definition set_sc_outoff v (t : tx) : tx :=
  Tx (sc_asyncmap t) (sc_outm t) (sc_outmc t) (sc_outbuf t) v (sc_outoff_update t) (sc_outflag t) (sc_outlen t)
    (sc_outfcs t) (sc_outfcslen t) (sc_outfcsbuf t) (sc_outchar t) (TX_PACKET t) (TX_TRANSMIT t) (tx_write t)
    (tx_fault t).
Definition set_sc_outoff_update v (t : tx) : tx :=
  Tx (sc_asyncmap t) (sc_outm t) (sc_outmc t) (sc_outbuf t) (sc_outoff t) v (sc_outflag t) (sc_outlen t)
    (sc_outfcs t) (sc_outfcslen t) (sc_outfcsbuf t) (sc_outchar t) (TX_PACKET t) (TX_TRANSMIT t) (tx_write t)
    (tx_fault t).
Definition set_sc_outflag v (t : tx) : tx :=
  Tx (sc_asyncmap t) (sc_outm t) (sc_outmc t) (sc_outbuf t) (sc_outoff t) (sc_outoff_update t) v (sc_outlen t)
    (sc_outfcs t) (sc_outfcslen t) (sc_outfcsbuf t) (sc_outchar t) (TX_PACKET t) (TX_TRANSMIT t) (tx_write t)
    (tx_fault t).
Definition set_sc_outlen v (t : tx) : tx :=
  Tx (sc_asyncmap t) (sc_outm t) (sc_outmc t) (sc_outbuf t) (sc_outoff t) (sc_outoff_update t) (sc_outflag t) v
    (sc_outfcs t) (sc_outfcslen t) (sc_outfcsbuf t) (sc_outchar t) (TX_PACKET t) (TX_TRANSMIT t) (tx_write t)
    (tx_fault t).
Definition set_sc_outfcs v (t : tx) : tx :=
  Tx (sc_asyncmap t) (sc_outm t) (sc_outmc t) (sc_outbuf t) (sc_outoff t) (sc_outoff_update t) (sc_outflag t)
    (sc_outlen t) v (sc_outfcslen t) (sc_outfcsbuf t) (sc_outchar t) (TX_PACKET t) (TX_TRANSMIT t) (tx_write t)
    (tx_fault t).
Definition set_sc_outfcslen v (t : tx) : tx :=
  Tx (sc_asyncmap t) (sc_outm t) (sc_outmc t) (sc_outbuf t) (sc_outoff t) (sc_outoff_update t) (sc_outflag t)
    (sc_outlen t) (sc_outfcs t) v (sc_outfcsbuf t) (sc_outchar t) (TX_PACKET t) (TX_TRANSMIT t) (tx_write t)
    (tx_fault t).
Definition set_sc_outfcsbuf v (t : tx) : tx :=
  Tx (sc_asyncmap t) (sc_outm t) (sc_outmc t) (sc_outbuf t) (sc_outoff t) (sc_outoff_update t) (sc_outflag t)
    (sc_outlen t) (sc_outfcs t) (sc_outfcslen t) v (sc_outchar t) (TX_PACKET t) (TX_TRANSMIT t) (tx_write t)
    (tx_fault t).
Definition set_sc_outchar v (t : tx) : tx :=
  Tx (sc_asyncmap t) (sc_outm t) (sc_outmc t) (sc_outbuf t) (sc_outoff t) (sc_outoff_update t) (sc_outflag t)
    (sc_outlen t) (sc_outfcs t) (sc_outfcslen t) (sc_outfcsbuf t) v (TX_PACKET t) (TX_TRANSMIT t) (tx_write t)
    (tx_fault t).
Definition set_TX_PACKET v (t : tx) : tx :=
  Tx (sc_asyncmap t) (sc_outm t) (sc_outmc t) (sc_outbuf t) (sc_outoff t) (sc_outoff_update t) (sc_outflag t)
    (sc_outlen t) (sc_outfcs t) (sc_outfcslen t) (sc_outfcsbuf t) (sc_outchar t) v (TX_TRANSMIT t) (tx_write t)
    (tx_fault t).
Definition set_TX_TRANSMIT v (t : tx) : tx :=
  Tx (sc_asyncmap t) (sc_outm t) (sc_outmc t) (sc_outbuf t) (sc_outoff t) (sc_outoff_update t) (sc_outflag t)
    (sc_outlen t) (sc_outfcs t) (sc_outfcslen t) (sc_outfcsbuf t) (sc_outchar t) (TX_PACKET t) v (tx_write t)
    (tx_fault t).
Definition set_tx_write v (t : tx) : tx :=
  Tx (sc_asyncmap t) (sc_outm t) (sc_outmc t) (sc_outbuf t) (sc_outoff t) (sc_outoff_update t) (sc_outflag t)
    (sc_outlen t) (sc_outfcs t) (sc_outfcslen t) (sc_outfcsbuf t) (sc_outchar t) (TX_PACKET t) (TX_TRANSMIT t)
    v (tx_fault t).
Definition set_tx_fault v (t : tx) : tx :=
  Tx (sc_asyncmap t) (sc_outm t) (sc_outmc t) (sc_outbuf t) (sc_outoff t) (sc_outoff_update t) (sc_outflag t)
    (sc_outlen t) (sc_outfcs t) (sc_outfcslen t) (sc_outfcsbuf t) (sc_outchar t) (TX_PACKET t) (TX_TRANSMIT t)
    (tx_write t) v.

(** The interface and the queues between it, the daemon and the line; what was
    passed to IP ([netisr_dispatch]); and chains nobody holds any more. *)
Record ppp_if := PppIf {
  if_flags : Z;
  if_drv_flags : Z;
  if_mtu : Z;
  if_snd : list chain;
  sc_fastq : list chain;
  sc_npqueue : list chain;
  sc_npmode : NPmode;
  sc_inq : list chain;
  sc_pppdtask : Z;
  PPPD_EVENT : bool;
  sc_last_sent : Z;
  sc_last_recv : Z;
  netisr : list chain;
  leaked : list chain
}.

Definition set_if_flags v (p : ppp_if) : ppp_if :=
  PppIf v (if_drv_flags p) (if_mtu p) (if_snd p) (sc_fastq p) (sc_npqueue p) (sc_npmode p) (sc_inq p)
    (sc_pppdtask p) (PPPD_EVENT p) (sc_last_sent p) (sc_last_recv p) (netisr p) (leaked p).
Definition set_if_drv_flags v (p : ppp_if) : ppp_if :=
  PppIf (if_flags p) v (if_mtu p) (if_snd p) (sc_fastq p) (sc_npqueue p) (sc_npmode p) (sc_inq p)
    (sc_pppdtask p) (PPPD_EVENT p) (sc_last_sent p) (sc_last_recv p) (netisr p) (leaked p).
Definition set_if_mtu v (p : ppp_if) : ppp_if :=
  PppIf (if_flags p) (if_drv_flags p) v (if_snd p) (sc_fastq p) (sc_npqueue p) (sc_npmode p) (sc_inq p)
    (sc_pppdtask p) (PPPD_EVENT p) (sc_last_sent p) (sc_last_recv p) (netisr p) (leaked p).
Definition set_if_snd v (p : ppp_if) : ppp_if :=
  PppIf (if_flags p) (if_drv_flags p) (if_mtu p) v (sc_fastq p) (sc_npqueue p) (sc_npmode p) (sc_inq p)
    (sc_pppdtask p) (PPPD_EVENT p) (sc_last_sent p) (sc_last_recv p) (netisr p) (leaked p).
Definition set_sc_fastq v (p : ppp_if) : ppp_if :=
  PppIf (if_flags p) (if_drv_flags p) (if_mtu p) (if_snd p) v (sc_npqueue p) (sc_npmode p) (sc_inq p)
    (sc_pppdtask p) (PPPD_EVENT p) (sc_last_sent p) (sc_last_recv p) (netisr p) (leaked p).
Definition set_sc_npqueue v (p : ppp_if) : ppp_if :=
  PppIf (if_flags p) (if_drv_flags p) (if_mtu p) (if_snd p) (sc_fastq p) v (sc_npmode p) (sc_inq p)
    (sc_pppdtask p) (PPPD_EVENT p) (sc_last_sent p) (sc_last_recv p) (netisr p) (leaked p).
Definition set_sc_npmode v (p : ppp_if) : ppp_if :=
  PppIf (if_flags p) (if_drv_flags p) (if_mtu p) (if_snd p) (sc_fastq p) (sc_npqueue p) v (sc_inq p)
    (sc_pppdtask p) (PPPD_EVENT p) (sc_last_sent p) (sc_last_recv p) (netisr p) (leaked p).
Definition set_sc_inq v (p : ppp_if) : ppp_if :=
  PppIf (if_flags p) (if_drv_flags p) (if_mtu p) (if_snd p) (sc_fastq p) (sc_npqueue p) (sc_npmode p) v
    (sc_pppdtask p) (PPPD_EVENT p) (sc_last_sent p) (sc_last_recv p) (netisr p) (leaked p).
Definition set_sc_pppdtask v (p : ppp_if) : ppp_if :=
  PppIf (if_flags p) (if_drv_flags p) (if_mtu p) (if_snd p) (sc_fastq p) (sc_npqueue p) (sc_npmode p)
    (sc_inq p) v (PPPD_EVENT p) (sc_last_sent p) (sc_last_recv p) (netisr p) (leaked p).
Definition set_PPPD_EVENT v (p : ppp_if) : ppp_if :=
  PppIf (if_flags p) (if_drv_flags p) (if_mtu p) (if_snd p) (sc_fastq p) (sc_npqueue p) (sc_npmode p)
    (sc_inq p) (sc_pppdtask p) v (sc_last_sent p) (sc_last_recv p) (netisr p) (leaked p).
Definition set_sc_last_sent v (p : ppp_if) : ppp_if :=
  PppIf (if_flags p) (if_drv_flags p) (if_mtu p) (if_snd p) (sc_fastq p) (sc_npqueue p) (sc_npmode p)
    (sc_inq p) (sc_pppdtask p) (PPPD_EVENT p) v (sc_last_recv p) (netisr p) (leaked p).
Definition set_sc_last_recv v (p : ppp_if) : ppp_if :=
  PppIf (if_flags p) (if_drv_flags p) (if_mtu p) (if_snd p) (sc_fastq p) (sc_npqueue p) (sc_npmode p)
    (sc_inq p) (sc_pppdtask p) (PPPD_EVENT p) (sc_last_sent p) v (netisr p) (leaked p).
Definition set_netisr v (p : ppp_if) : ppp_if :=
  PppIf (if_flags p) (if_drv_flags p) (if_mtu p) (if_snd p) (sc_fastq p) (sc_npqueue p) (sc_npmode p)
    (sc_inq p) (sc_pppdtask p) (PPPD_EVENT p) (sc_last_sent p) (sc_last_recv p) v (leaked p).
Definition set_leaked v (p : ppp_if) : ppp_if :=
  PppIf (if_flags p) (if_drv_flags p) (if_mtu p) (if_snd p) (sc_fastq p) (sc_npqueue p) (sc_npmode p)
    (sc_inq p) (sc_pppdtask p) (PPPD_EVENT p) (sc_last_sent p) (sc_last_recv p) (netisr p) v.

(** [struct ppp_softc]; the number of buffers asked for without waiting, and the
    time of day. *)
Record softc := Softc {
  sc_flags : Z;
  sc_devp : bool;
  sc_mru : Z;
  sc_stats : pppstat;
  sc_rx : rx;
  sc_tx : tx;
  sc_if : ppp_if;
  sc_allocs : nat;
  sc_time : Z
}.

Definition set_sc_flags v (sc : softc) : softc :=
  Softc v (sc_devp sc) (sc_mru sc) (sc_stats sc) (sc_rx sc) (sc_tx sc) (sc_if sc) (sc_allocs sc) (sc_time sc).
Definition set_sc_devp v (sc : softc) : softc :=
  Softc (sc_flags sc) v (sc_mru sc) (sc_stats sc) (sc_rx sc) (sc_tx sc) (sc_if sc) (sc_allocs sc) (sc_time sc).
Definition set_sc_mru v (sc : softc) : softc :=
  Softc (sc_flags sc) (sc_devp sc) v (sc_stats sc) (sc_rx sc) (sc_tx sc) (sc_if sc) (sc_allocs sc) (sc_time sc).
Definition set_sc_stats v (sc : softc) : softc :=
  Softc (sc_flags sc) (sc_devp sc) (sc_mru sc) v (sc_rx sc) (sc_tx sc) (sc_if sc) (sc_allocs sc) (sc_time sc).
Definition set_sc_rx v (sc : softc) : softc :=
  Softc (sc_flags sc) (sc_devp sc) (sc_mru sc) (sc_stats sc) v (sc_tx sc) (sc_if sc) (sc_allocs sc)
    (sc_time sc).
Definition set_sc_tx v (sc : softc) : softc :=
  Softc (sc_flags sc) (sc_devp sc) (sc_mru sc) (sc_stats sc) (sc_rx sc) v (sc_if sc) (sc_allocs sc)
    (sc_time sc).
Definition set_sc_if v (sc : softc) : softc :=
  Softc (sc_flags sc) (sc_devp sc) (sc_mru sc) (sc_stats sc) (sc_rx sc) (sc_tx sc) v (sc_allocs sc)
    (sc_time sc).
Definition set_sc_allocs v (sc : softc) : softc :=
  Softc (sc_flags sc) (sc_devp sc) (sc_mru sc) (sc_stats sc) (sc_rx sc) (sc_tx sc) (sc_if sc) v (sc_time sc).
Definition set_sc_time v (sc : softc) : softc :=
  Softc (sc_flags sc) (sc_devp sc) (sc_mru sc) (sc_stats sc) (sc_rx sc) (sc_tx sc) (sc_if sc) (sc_allocs sc) v.

Definition on_rx (g : rx -> rx) (sc : softc) : softc := set_sc_rx (g (sc_rx sc)) sc.
Definition on_tx (g : tx -> tx) (sc : softc) : softc := set_sc_tx (g (sc_tx sc)) sc.
Definition on_if (g : ppp_if -> ppp_if) (sc : softc) : softc := set_sc_if (g (sc_if sc)) sc.
Definition on_stats (g : pppstat -> pppstat) (sc : softc) : softc := set_sc_stats (g (sc_stats sc)) sc.
Definition raise_flag (bits : Z) (sc : softc) : softc := set_sc_flags (Z.lor (sc_flags sc) bits) sc.
Definition clear_flag (bits : Z) (sc : softc) : softc := set_sc_flags (Z.ldiff (sc_flags sc) bits) sc.

(** A store into a [short]. *)
Definition s16 (z : Z) : Z := (z + 2 ^ 15) mod 2 ^ 16 - 2 ^ 15.

(** The outcome of allocations that do not wait, one after the other, and the
    sizes of the data areas of mbufs and of a [long], which depend on the kernel's
    configuration. *)
Record mbuf_config := MbufConfig { alloc_ok : nat -> bool; MLEN : nat; MHLEN : nat; MCLBYTES : nat; LONG_SIZE : nat }.
