(* ===== verification/PppTty.v ===== *)
(** * The PPP line discipline

    [ppp_tty.c]: the receiver that takes frames apart byte by byte ([pppinput]),
    the transmitter the driver calls for more output ([pppstart]), the start of
    output, and the allocation of receive buffers.  The calls of the terminal
    that open, read and write the line are in [PppIf.v], behind the functions of
    [if_ppp.c] they use. *)

From S2P Require Import Prelude Wire Inet Netif Fcs PppSoftc.

(** ** Receive buffers *)

Section Alloc.
Context (mc : mbuf_config).

(** A cluster as the allocator hands it out. *)
Definition fresh_cluster : mbuf := Mbuf (replicate (MCLBYTES mc) 0) 0 0 (Z.lor M_EXT M_PKTHDR) true.

(** The loop of [pppallocmbuf] on an empty chain; every pass provides a byte at
    least. *)
Fixpoint alloc_chain (fuel : nat) (ilen : Z) : chain :=
  match fuel with
  | O => []
  | S fuel => if 0 <? ilen then fresh_cluster :: alloc_chain fuel (ilen - M_DATASIZE fresh_cluster) else []
  end.

(** The chain allocated is never empty. *)
Definition pppallocmbuf (sc : softc) : chain :=
  let ilen := sc_mru sc + PPP_HDRLEN + PPP_FCSLEN in alloc_chain (Z.to_nat ilen) ilen.
End Alloc.

(** ** The receiver *)

(** [paritytab] *)
Definition paritytab : list Z :=
  [0x96696996; 0x69969669; 0x69969669; 0x96696996; 0x69969669; 0x96696996; 0x96696996; 0x69969669].

(** [paritytab[c >> 5] & (1 << (c & 0x1F))] *)
Definition odd_parity (c : Z) : bool :=
  negb (Z.land (nth (Z.to_nat (Z.shiftr c 5)) paritytab 0) (Z.shiftl 1 (Z.land c 0x1f)) =? 0).

(** What the line looks like: bit 7, parity. *)
Definition note_line (c : Z) (sc : softc) : softc :=
  let sc := if has_bits c 0x80 then raise_flag SC_RCV_B7_1 sc else raise_flag SC_RCV_B7_0 sc in
  if odd_parity c then raise_flag SC_RCV_ODDP sc else raise_flag SC_RCV_EVNP sc.

Definition rx_error (sc : softc) : softc := on_stats (fun s => set_ppp_ierrors (u32 (ppp_ierrors s + 1)) s) sc.

(** The first element of a queue ([if_ppp_dequeue]). *)
Definition dequeue (q : list chain) : option chain * list chain :=
  match q with [] => (None, []) | c :: q => (Some c, q) end.

Definition rx_fail (r : rx) : rx := set_rx_fault true r.

(** A change of the mbuf [sc_mc] points to. *)
Definition on_mc (g : mbuf -> mbuf) (r : rx) : rx :=
  match sc_m r with
  | Some ch =>
      match ch !! sc_mc r with Some m => set_sc_m (Some (<[sc_mc r := g m]> ch)) r | None => rx_fail r end
  | None => rx_fail r
  end.

(** [*sc->sc_mp++ = c] *)
Definition rx_put (c : Z) (r : rx) : rx :=
  match sc_m r ≫= (.!! sc_mc r) with
  | Some m =>
      if (sc_mp r <? length (m_store m))%nat
      then set_sc_mp (S (sc_mp r)) (on_mc (fun m => set_m_store (<[sc_mp r := u8 c]> (m_store m)) m) r)
      else rx_fail r
  | None => rx_fail r
  end.

(** [sc->sc_mc->m_len += n] *)
Definition rx_len (n : Z) (r : rx) : rx := on_mc (fun m => set_m_len (m_len m + n) m) r.

(** [goto flush], or on to the next statement. *)
Inductive progress := Next (sc : softc) | Flushed (sc : softc).
Definition and_then (o : progress) (g : softc -> progress) : progress :=
  match o with Next sc => g sc | Flushed sc => Flushed sc end.

(** [flush:] *)
Definition rx_flush (sc : softc) : softc :=
  if negb (has_bits (sc_flags sc) SC_FLUSH) then raise_flag SC_FLUSH (rx_error sc) else sc.

(** The first octet: the buffer is set up; it may be that address and control
    were left out. *)
Definition rx_start (c : Z) (sc : softc) : progress :=
  if sc_ilen (sc_rx sc) =? 0 then
    let sc := on_rx (fun r =>
      let r := on_mc (fun m => set_m_data 0 (set_m_len 0 m)) (set_sc_mc 0 r) in
      set_sc_fcs PPP_INITFCS (set_sc_mp 0 r)) sc in
    if negb (c =? PPP_ALLSTATIONS) then
      if has_bits (sc_flags sc) SC_REJ_COMP_AC then Flushed sc
      else Next (on_rx (fun r =>
             let r := rx_put PPP_UI (rx_put PPP_ALLSTATIONS r) in
             rx_len 2 (set_sc_ilen (s16 (sc_ilen r + 2)) r)) sc)
    else Next sc
  else Next sc.

Definition rx_control (c : Z) (sc : softc) : progress :=
  if (sc_ilen (sc_rx sc) =? 1) && negb (c =? PPP_UI) then Flushed sc else Next sc.

(** A protocol of one octet; an octet that cannot be the last of one. *)
Definition rx_protocol (c : Z) (sc : softc) : progress :=
  let sc :=
    if (sc_ilen (sc_rx sc) =? 2) && (Z.land c 1 =? 1)
    then on_rx (fun r => let r := rx_put 0 r in rx_len 1 (set_sc_ilen (s16 (sc_ilen r + 1)) r)) sc else sc in
  if (sc_ilen (sc_rx sc) =? 3) && (Z.land c 1 =? 0) then Flushed sc else Next sc.

(** [++sc->sc_ilen], a [short]. *)
Definition rx_count (sc : softc) : progress :=
  let sc := on_rx (fun r => set_sc_ilen (s16 (sc_ilen r + 1)) r) sc in
  if sc_mru sc + PPP_HDRLEN + PPP_FCSLEN <? sc_ilen (sc_rx sc) then Flushed sc else Next sc.

(** Is this mbuf full?  The next one of the chain or, at its end, a free one; what
    was linked behind that is let go. *)
Definition rx_room (sc : softc) : progress :=
  let r := sc_rx sc in
  match sc_m r ≫= (.!! sc_mc r) with
  | None => Next (on_rx rx_fail sc)
  | Some m =>
      if M_TRAILINGSPACE m <=? 0 then
        let ch := default [] (sc_m r) in
        let advance next (sc : softc) :=
          on_rx (fun r => set_sc_mp 0 (set_sc_mc (S (sc_mc r))
            (set_sc_m (Some (take (S (sc_mc r)) ch ++ [set_m_data 0 (set_m_len 0 next)])) r))) sc in
        match drop (S (sc_mc r)) ch with
        | next :: _ => Next (advance next sc)
        | [] =>
            let '(q, freeq) := dequeue (sc_freeq r) in
            let sc := on_rx (set_sc_freeq freeq) sc in
            match q with
            | Some (next :: _) => Next (advance next (on_rx (set_RX_MBUF true) sc))
            | _ => Flushed sc
            end
        end
      else Next sc
  end.

Definition rx_store (c : Z) (sc : softc) : progress :=
  Next (on_rx (fun r => let r := rx_put c (rx_len 1 r) in set_sc_fcs (PPP_FCS (sc_fcs r) c) r) sc).

(** An octet of the frame, after the escapes are undone. *)
Definition rx_octet (c : Z) (sc : softc) : softc :=
  match and_then (and_then (and_then (and_then (and_then (rx_start c sc) (rx_control c)) (rx_protocol c)) rx_count)
          rx_room) (rx_store c) with
  | Next sc => sc
  | Flushed sc => rx_flush sc
  end.

(** [if (--sc->sc_mc->m_len == 0) { ... } sc->sc_mc->m_len--]: the check sequence
    is taken off, byte by byte; the search for the mbuf in front of the first
    one finds none. *)
Definition rx_trim (r : rx) : rx :=
  let r := rx_len (-1) r in
  let r :=
    match sc_m r ≫= (.!! sc_mc r) with
    | Some m => if m_len m =? 0 then match sc_mc r with O => rx_fail r | S k => set_sc_mc k r end else r
    | None => r
    end in
  rx_len (-1) r.

Definition mark_lost (ch : chain) : chain :=
  match ch with m :: ch => set_m_flags (Z.lor (m_flags m) M_ERRMARK) m :: ch | [] => [] end.

(** The end of a frame. *)
Definition rx_frame_end (sc : softc) : softc :=
  let ilen := sc_ilen (sc_rx sc) in
  let sc := on_rx (set_sc_ilen 0) sc in
  if has_bits (sc_flags sc) (Z.lor SC_FLUSH SC_ESCAPED)
     || ((0 <? ilen) && negb (sc_fcs (sc_rx sc) =? PPP_GOODFCS)) then
    let sc := raise_flag SC_PKTLOST sc in
    if negb (has_bits (sc_flags sc) (Z.lor SC_FLUSH SC_ESCAPED)) then rx_error sc
    else clear_flag (Z.lor SC_FLUSH SC_ESCAPED) sc
  else if ilen <? PPP_HDRLEN + PPP_FCSLEN then
    if negb (ilen =? 0) then raise_flag SC_PKTLOST (rx_error sc) else sc
  else
    let sc := on_rx rx_trim sc in
    let m := default [] (sc_m (sc_rx sc)) in
    let '(m, sc) :=
      if has_bits (sc_flags sc) SC_PKTLOST then (mark_lost m, clear_flag SC_PKTLOST sc) else (m, sc) in
    on_rx (fun r =>
      let '(q, freeq) := dequeue (sc_freeq r) in
      set_RX_PACKET true (set_sc_freeq freeq (set_sc_m q (set_sc_rawq (sc_rawq r ++ [m]) r)))) sc.

(** A buffer to receive into: [None] when there is none. *)
Definition rx_buffer (sc : softc) : softc :=
  match sc_m (sc_rx sc) with
  | Some _ => sc
  | None =>
      on_rx (fun r => let '(q, freeq) := dequeue (sc_freeq r) in set_sc_m q (set_sc_freeq freeq (set_RX_EMPTY true r))) sc
  end.

Definition pppinput (c : Z) (sc : softc) : softc :=
  if negb (sc_devp sc) then sc else
  let sc := rx_buffer sc in
  if bool_decide (sc_m (sc_rx sc) = None) then sc else
  let sc := on_stats (fun s => set_ppp_ibytes (u32 (ppp_ibytes s + 1)) s) sc in
  let c := Z.land c 0xff in
  let sc := note_line c sc in
  if c =? PPP_FLAG then rx_frame_end sc
  else if (c <? 0x20) && Z.testbit (sc_rasyncmap (sc_rx sc)) c then sc
  else if has_bits (sc_flags sc) SC_ESCAPED then rx_octet (Z.lxor c PPP_TRANS) (clear_flag SC_ESCAPED sc)
  else if c =? PPP_ESCAPE then raise_flag SC_ESCAPED sc
  else rx_octet c sc.

(** ** The transmitter *)

(** [ESCAPE_P(c)] *)
Definition ESCAPE_P (asyncmap : list Z) (c : Z) : bool :=
  Z.testbit (nth (Z.to_nat (Z.shiftr c 5)) asyncmap 0) (Z.land c 0x1f).

(** [pppasyncstart] and [pppasyncctlp]: the tasks are told. *)
Definition pppasyncstart (sc : softc) : softc :=
  if sc_outflag (sc_tx sc) =? 0
  then on_tx (fun t => set_TX_PACKET true (set_sc_outflag (Z.lor (sc_outflag t) SC_TX_PENDING) t)) sc else sc.

Definition pppasyncctlp (sc : softc) : softc :=
  if negb (sc_pppdtask (sc_if sc) =? 0) then on_if (set_PPPD_EVENT true) sc else sc.

(** The driver's [write]. *)
Definition handler_write (buf : bytes) (t : tx) : tx := set_tx_write buf t.

(** [sc->sc_outchar = sc->sc_outbuf[i]] *)
Definition tx_fetch (i : Z) (t : tx) : tx :=
  match (if i <? 0 then None else sc_outbuf t !! Z.to_nat i) with
  | Some c => set_sc_outchar c t
  | None => set_tx_fault true t
  end.

(** The loop over characters that need no escape; [ioffset] is its counter, [fuel]
    the characters that are left. *)
Fixpoint tx_run (fuel : nat) (ioffset : Z) (t : tx) : Z * tx :=
  if negb (ESCAPE_P (sc_asyncmap t) (sc_outchar t)) && (sc_outoff t + ioffset <? sc_outlen t) then
    match fuel with
    | O => (ioffset, t)
    | S fuel => tx_run fuel (ioffset + 1) (tx_fetch (sc_outoff t + (ioffset + 1)) t)
    end
  else (ioffset, t).

Definition count_sent (n : Z) (sc : softc) : softc := on_stats (fun s => set_ppp_obytes (u32 (ppp_obytes s + n)) s) sc.

(** Data to write out: the next character, escaped, or as many as need no
    escape.  A polled driver has sent them when its [write] returns. *)
Definition tx_data (polled : bool) (sc : softc) : softc :=
  let t := tx_fetch (sc_outoff (sc_tx sc)) (sc_tx sc) in
  let '(ioffset, buf, t) :=
    if ESCAPE_P (sc_asyncmap t) (sc_outchar t) then
      if has_bits (sc_outflag t) SC_TX_ESCAPE then
        let t := set_sc_outchar (Z.lxor (sc_outchar t) PPP_TRANS) t in
        (1, [sc_outchar t], set_sc_outflag (Z.ldiff (sc_outflag t) SC_TX_ESCAPE) t)
      else
        (0, [PPP_ESCAPE], set_sc_outflag (Z.lor (sc_outflag t) SC_TX_ESCAPE) (set_sc_outchar PPP_ESCAPE t))
    else
      let '(n, t) := tx_run (Z.to_nat (sc_outlen t - sc_outoff t)) 0 t in
      (n, take (Z.to_nat n) (drop (Z.to_nat (sc_outoff t)) (sc_outbuf t)), t) in
  let sc := set_sc_tx (handler_write buf t) sc in
  if polled then
    on_tx (fun t => set_sc_outoff_update false (set_sc_outoff (s16 (sc_outoff t + ioffset)) t))
      (count_sent (if 0 <? ioffset then ioffset else 1) sc)
  else if 0 <? ioffset then on_tx (set_sc_outoff_update true) sc
  else count_sent 1 (on_tx (set_sc_outoff_update false) sc).

(** At the end of a buffer: the next mbuf, the check sequence, the last flag.
    [true]: the call is over. *)
Definition tx_next (sc : softc) : bool * softc :=
  let t := sc_tx sc in
  match sc_outmc t with
  | Some (_ :: ((m :: _) as ch)) =>
      (false, on_tx (fun t => set_sc_outoff 0 (set_sc_outlen (s16 (m_len m)) (set_sc_outbuf (mtod m)
                (set_sc_outmc (Some ch) t)))) sc)
  | _ =>
      if negb (has_bits (sc_outflag t) SC_TX_FCS) then
        (false, on_tx (fun t => set_sc_outoff 0 (set_sc_outlen (sc_outfcslen t)
                  (set_sc_outbuf (sc_outfcsbuf t) (set_sc_outflag (Z.lor (sc_outflag t) SC_TX_FCS) t)))) sc)
      else
        (true, on_tx (fun t => handler_write [PPP_FLAG] (set_sc_outchar PPP_FLAG
                 (set_sc_outflag (Z.ldiff (Z.lor (sc_outflag t) SC_TX_LASTCHAR) SC_TX_FCS) t))) sc)
  end.

Definition pppstart (polled : bool) (len : Z) (sc : softc) : softc :=
  let idle := on_tx (handler_write []) in
  if negb (sc_devp sc && has_bits (sc_outflag (sc_tx sc)) SC_TX_BUSY) then idle sc else
  let sc :=
    if sc_outoff_update (sc_tx sc)
    then on_tx (fun t => set_sc_outoff_update false (set_sc_outoff (s16 (sc_outoff t + len)) t)) (count_sent len sc)
    else sc in
  if has_bits (sc_outflag (sc_tx sc)) SC_TX_LASTCHAR then
    on_tx (fun t => set_TX_TRANSMIT true (handler_write []
      (set_sc_outflag (Z.ldiff (sc_outflag t) (Z.lor SC_TX_BUSY (Z.lor SC_TX_FCS SC_TX_LASTCHAR))) t))) sc
  else
    let '(over, sc) := if sc_outlen (sc_tx sc) <=? sc_outoff (sc_tx sc) then tx_next sc else (false, sc) in
    if (over : bool) then sc
    else if sc_outoff (sc_tx sc) <? sc_outlen (sc_tx sc) then tx_data polled sc
    else idle sc.
