(* ===== verification/PppIf.v ===== *)
(** * The PPP interface

    [if_ppp.c]: the interface's output, the queues, the two tasks of the unit,
    its allocation and its ioctls; and the calls of [ppp_tty.c] that open, close,
    read, write and configure the line.  The kernel is built without compression
    ([PPP_COMPRESS], [VJC]) and packet filters. *)

From S2P Require Import Prelude Wire Inet Netif Fcs PppSoftc PppTty.

(** What the functions return. *)
Inductive error := E_OK | ENETDOWN | ENOBUFS | EAFNOSUPPORT | ENXIO | EINVAL | E_FAIL.

#[export] Instance error_eq_dec : EqDecision error.
Proof. solve_decision. Defined.

(** Where a packet goes: IP, a header given by the sender ([sa_data]), others. *)
Inductive sockaddr := AF_INET | AF_UNSPEC (sa_data : bytes) | AF_OTHER.

Definition IPTOS_LOWDELAY := 0x10.

(** [_IF_QFULL] *)
Definition IF_QFULL (q : list chain) : bool := IFQ_MAXLEN <=? Z.of_nat (length q).

Definition out_error (sc : softc) : softc := on_stats (fun s => set_ppp_oerrors (u32 (ppp_oerrors s + 1)) s) sc.
Definition free_tx (t : tx) : tx := set_sc_outmc None (set_sc_outm None t).

(** ** Output *)

(** A packet is put on the fast or the ordinary queue. *)
Definition enqueue_out (m : chain) (i : ppp_if) : ppp_if :=
  if has_bits (default 0 (m_flags <$> head m)) M_HIGHPRI then set_sc_fastq (sc_fastq i ++ [m]) i
  else set_if_snd (if_snd i ++ [m]) i.
Definition out_queue (m : chain) (i : ppp_if) : list chain :=
  if has_bits (default 0 (m_flags <$> head m)) M_HIGHPRI then sc_fastq i else if_snd i.

(** The mode of a protocol ([sc_npmode]); there is one network protocol. *)
Definition np_mode (protocol : Z) (i : ppp_if) : NPmode := if protocol =? PPP_IP then sc_npmode i else NPMODE_PASS.

(** The packets that wait, after the mode has changed: those that stay, and what
    becomes of the others.  A packet for a full queue is not freed. *)
Fixpoint requeue (q : list chain) (i : ppp_if) (drops : nat) : list chain * ppp_if * nat :=
  match q with
  | [] => ([], i, drops)
  | m :: q =>
      match np_mode (PPP_PROTOCOL (default [] (mtod <$> head m))) i with
      | NPMODE_PASS =>
          if IF_QFULL (out_queue m i) then requeue q (set_leaked (leaked i ++ [m]) i) (S drops)
          else requeue q (enqueue_out m i) drops
      | NPMODE_DROP | NPMODE_ERROR => requeue q i drops
      | NPMODE_QUEUE => let '(kept, i, drops) := requeue q i drops in (m :: kept, i, drops)
      end
  end.

Definition ppp_requeue (sc : softc) : softc :=
  let '(kept, i, drops) := requeue (sc_npqueue (sc_if sc)) (sc_if sc) 0 in
  on_stats (fun s => set_ppp_oerrors (u32 (ppp_oerrors s + Z.of_nat drops)) s)
    (set_sc_if (set_sc_npqueue kept i) sc).

(** Bytes stored at the data pointer of the first mbuf. *)
Definition store_first (bs : bytes) (ch : chain) : chain :=
  match ch with
  | m :: ch =>
      set_m_store (take (m_data m) (m_store m) ++ map u8 bs ++ drop (m_data m + length bs) (m_store m)) m :: ch
  | [] => []
  end.
Definition map_first (g : mbuf -> mbuf) (ch : chain) : chain := match ch with m :: ch => g m :: ch | [] => [] end.

(** Address and control can be left out. *)
Definition comp_ac (flags : Z) (cp : bytes) : bool :=
  has_bits flags SC_COMP_AC && (PPP_ADDRESS cp =? PPP_ALLSTATIONS) && (PPP_CONTROL cp =? PPP_UI)
  && negb (PPP_PROTOCOL cp =? PPP_ALLSTATIONS) && negb (PPP_PROTOCOL cp =? PPP_LCP).

(** They and the protocol are shortened if both sides agreed on it. *)
Definition compress_header (flags : Z) (m : chain) : chain :=
  let cp := default [] (mtod <$> head m) in
  let ac := comp_ac flags cp in
  let m := if ac then map_first (fun x => set_m_len (m_len x - 2) (set_m_data (m_data x + 2) x)) m else m in
  if has_bits flags SC_COMP_PROT && (PPP_PROTOCOL cp <? 0xff) then
    let m := if ac then m else store_first [PPP_ADDRESS cp; PPP_ADDRESS cp; PPP_CONTROL cp] m in
    map_first (fun x => set_m_len (m_len x - 1) (set_m_data (m_data x + 1) x)) m
  else m.

(** The fast queue goes first. *)
Definition next_packet (i : ppp_if) : option (chain * ppp_if) :=
  match sc_fastq i, if_snd i with
  | m :: q, _ => Some (m, set_sc_fastq q i)
  | [], m :: q => Some (m, set_if_snd q i)
  | [], [] => None
  end.

(** A packet to send. *)
Definition ppp_dequeue (sc : softc) : option chain * softc :=
  match next_packet (sc_if sc) with
  | None => (None, sc)
  | Some (m, i) =>
      let sc := on_stats (fun s => set_ppp_opackets (u32 (ppp_opackets s + 1)) s) (set_sc_if i sc) in
      (Some (compress_header (sc_flags sc) m), sc)
  end.

Section Device.
Context (mc : mbuf_config).

(** An allocation that does not wait. *)
Definition try_alloc (sc : softc) : bool * softc := (alloc_ok mc (sc_allocs sc), set_sc_allocs (S (sc_allocs sc)) sc).

(** [m_prepend]: an mbuf of its own in front; the packet header moves there. *)
Definition m_prepend (len : nat) (m0 : chain) : chain :=
  match m0 with
  | m :: ch =>
      let hdr := has_bits (m_flags m) M_PKTHDR in
      let size := if hdr then MHLEN mc else MLEN mc in
      let flags := if hdr then Z.ldiff (m_flags m) M_EXT else 0 in
      let off := if (len <? size)%nat then ((size - len) / LONG_SIZE mc * LONG_SIZE mc)%nat else 0%nat in
      Mbuf (replicate size 0) off (Z.of_nat len) flags true
        :: (if hdr then set_m_flags (Z.ldiff (m_flags m) M_PKTHDR) m else m) :: ch
  | [] => []
  end.

(** [pppoutput]: the packet gets its header and is queued, or it is dropped. *)
Definition pppoutput (m0 : chain) (dst : sockaddr) (sc : softc) : error * softc :=
  let i := sc_if sc in
  if negb (sc_devp sc) || negb (has_bits (if_drv_flags i) IFF_DRV_RUNNING)
     || (negb (has_bits (if_flags i) IFF_UP) && match dst with AF_UNSPEC _ => false | _ => true end)
  then (ENETDOWN, sc) else
  let m0 := map_first (fun m => set_m_flags (Z.ldiff (m_flags m) M_HIGHPRI) m) m0 in
  match
    match dst with
    | AF_INET =>
        let tos := nth 1 (default [] (mtod <$> head m0)) 0 in
        let m0 := if has_bits tos IPTOS_LOWDELAY
                  then map_first (fun m => set_m_flags (Z.lor (m_flags m) M_HIGHPRI) m) m0 else m0 in
        Some (PPP_ALLSTATIONS, PPP_UI, PPP_IP, sc_npmode i, m0)
    | AF_UNSPEC d => Some (PPP_ADDRESS d, PPP_CONTROL d, PPP_PROTOCOL d, NPMODE_PASS, m0)
    | AF_OTHER => None
    end with
  | None => (EAFNOSUPPORT, sc)
  | Some (address, control, protocol, mode, m0) =>
      match mode with
      | NPMODE_ERROR => (ENETDOWN, sc)
      | NPMODE_DROP => (E_OK, sc)
      | _ =>
          let '(ok, m0, sc) :=
            if default 0 (M_LEADINGSPACE <$> head m0) <? PPP_HDRLEN then
              let '(ok, sc) := try_alloc sc in (ok, map_first (set_m_len 0) (m_prepend 4 m0), sc)
            else (true, map_first (fun m => set_m_data (m_data m - 4) m) m0, sc) in
          if negb ok then (ENOBUFS, sc) else
          let m0 := store_first [address; control; Z.shiftr protocol 8; Z.land protocol 0xff] m0 in
          let m0 := map_first (fun m => set_m_len (m_len m + PPP_HDRLEN) m) m0 in
          let sc := if Z.land protocol 0x8000 =? 0 then on_if (set_sc_last_sent (sc_time sc)) sc else sc in
          if bool_decide (mode = NPMODE_QUEUE)
          then (E_OK, on_if (fun i => set_sc_npqueue (sc_npqueue i ++ [m0]) i) sc)
          else if IF_QFULL (out_queue m0 (sc_if sc)) && match dst with AF_UNSPEC _ => false | _ => true end
          then (ENOBUFS, out_error sc)
          else (E_OK, pppasyncstart (on_if (enqueue_out m0) sc))
      end
  end.

(** ** Received packets *)

(** A packet with its first [PPP_HDRLEN] bytes taken off. *)
Definition strip_header (m : chain) : chain :=
  map_first (fun x => set_m_len (m_len x - PPP_HDRLEN) (set_m_data (m_data x + 4) x)) m.

(** A packet in front of which others were lost. *)
Definition clear_mark (m : chain) (sc : softc) : chain * softc :=
  if has_bits (default 0 (m_flags <$> head m)) M_ERRMARK
  then (map_first (fun x => set_m_flags (Z.ldiff (m_flags x) M_ERRMARK) x) m, raise_flag SC_VJ_RESET sc) else (m, sc).

(** A packet that fits in an mbuf is copied, if there is one: the buffer that can
    be used again, and the packet. *)
Definition copy_small (m : chain) (sc : softc) : option chain * chain * softc :=
  let ilen := chain_len m in
  if (ilen <=? Z.of_nat (MHLEN mc)) && default false (M_IS_CLUSTER <$> head m) then
    let '(ok, sc) := try_alloc sc in
    if (ok : bool) then
      let bs := take (Z.to_nat ilen) (chain_bytes m) in
      (Some m, [Mbuf (bs ++ replicate (MHLEN mc - length bs) 0) 0 ilen M_PKTHDR true], sc)
    else (None, m, sc)
  else (None, m, sc).

(** To IP, or to the daemon. *)
Definition hand_up (proto : Z) (m : chain) (sc : softc) : softc :=
  let sc := if Z.land proto 0x8000 =? 0 then on_if (set_sc_last_recv (sc_time sc)) sc else sc in
  if proto =? PPP_IP then
    if negb (has_bits (if_flags (sc_if sc)) IFF_UP) || negb (bool_decide (sc_npmode (sc_if sc) = NPMODE_PASS))
    then sc
    else on_if (fun i => set_netisr (netisr i ++ [strip_header m]) i) sc
  else if IF_QFULL (sc_inq (sc_if sc)) then rx_error sc
  else pppasyncctlp (on_if (fun i => set_sc_inq (sc_inq i ++ [m]) i) sc).

(** [ppp_inproc]: the buffer that can be used again, if there is one. *)
Definition ppp_inproc (m : chain) (sc : softc) : option chain * softc :=
  let sc := on_stats (fun s => set_ppp_ipackets (u32 (ppp_ipackets s + 1)) s) sc in
  let proto := PPP_PROTOCOL (default [] (mtod <$> head m)) in
  let '(m, sc) := clear_mark m sc in
  let '(mf, m, sc) := copy_small m sc in
  (mf, hand_up proto m sc).

(** One turn of the receiving task, for the events that have come. *)
Definition ppp_rxdaemon (sc : softc) : softc :=
  let r := sc_rx sc in
  let sc := on_rx (fun r => set_RX_EMPTY false (set_RX_MBUF false (set_RX_PACKET false r))) sc in
  if RX_PACKET r || RX_MBUF r then
    let '(mp, sc) :=
      if RX_PACKET r then
        let '(m, rawq) := dequeue (sc_rawq (sc_rx sc)) in
        let sc := on_rx (set_sc_rawq rawq) sc in
        match m with Some m => ppp_inproc m sc | None => (None, sc) end
      else (None, sc) in
    let mp := default (pppallocmbuf mc sc) mp in
    let sc := on_rx (fun r => set_sc_freeq (sc_freeq r ++ [mp]) r) sc in
    if bool_decide (sc_rawq (sc_rx sc) = []) then sc else on_rx (set_RX_PACKET true) sc
  else sc.

(** ** The sending task *)

(** The loop over the chain: the mbufs up to the first empty one, and the check
    sequence of their bytes.  What is behind an empty mbuf is cut off. *)
Fixpoint nonempty_prefix (ch : chain) : chain :=
  match ch with
  | m :: ch => if 0 <? m_len m then m :: nonempty_prefix ch else []
  | [] => []
  end.
Definition cut_chain (ch : chain) : chain :=
  match ch with
  | m :: rest => if 0 <? m_len m then m :: nonempty_prefix rest else ch
  | [] => []
  end.
Definition frame_fcs (ch : chain) : Z := pppfcs PPP_INITFCS (chain_bytes (nonempty_prefix ch)).

(** A frame is started: its check sequence, and the flag that opens it. *)
Definition tx_begin (m : chain) (sc : softc) : softc :=
  let fcs := frame_fcs m in
  let ch := cut_chain m in
  on_tx (fun t =>
    let t := set_sc_outoff_update false (set_sc_outoff 0 (set_sc_outfcslen 0 (set_sc_outfcs fcs t))) in
    let t := set_sc_outmc (Some ch) (set_sc_outm (Some ch) t) in
    let t := set_sc_outbuf (default [] (mtod <$> head ch)) (set_sc_outlen (s16 (default 0 (m_len <$> head ch))) t) in
    if sc_devp sc
    then handler_write [PPP_FLAG] (set_sc_outchar PPP_FLAG
           (set_sc_outfcslen 2 (set_sc_outfcsbuf (fcs_bytes fcs ++ drop 2 (sc_outfcsbuf t)) t)))
    else t) sc.

(** One turn of the sending task. *)
Definition ppp_txdaemon (sc : softc) : softc :=
  let t := sc_tx sc in
  let sc := on_tx (fun t => set_TX_TRANSMIT false (set_TX_PACKET false t)) sc in
  let sc := if TX_TRANSMIT t then on_tx free_tx sc else sc in
  if TX_PACKET t || TX_TRANSMIT t then
    match sc_outm (sc_tx sc) with
    | Some _ => sc
    | None =>
        let '(m, sc) := ppp_dequeue sc in
        match m with
        | None =>
            on_if (fun i => set_if_drv_flags (Z.ldiff (if_drv_flags i) IFF_DRV_OACTIVE) i) (on_tx (set_sc_outflag 0) sc)
        | Some m =>
            tx_begin m (on_if (fun i => set_if_drv_flags (Z.lor (if_drv_flags i) IFF_DRV_OACTIVE) i)
                          (on_tx (set_sc_outflag SC_TX_BUSY) sc))
        end
    end
  else sc.

(** ** The unit *)

(** [ppp_attach], on memory that is zero. *)
Definition ppp_attach : softc :=
  Softc 0 false 0 (PppStat 0 0 0 0 0 0)
    (Rx None 0 0 0 0 0 [] [] false false false false)
    (Tx (replicate 8 0) None None [] 0 false 0 0 0 0 (replicate 8 0) 0 false false [] false)
    (PppIf (Z.lor IFF_POINTOPOINT IFF_MULTICAST) 0 PPP_MTU [] [] [] NPMODE_PASS [] 0 false 0 0 [] []) 0 0.

(** [None]: there is no unit that is free. *)
Definition pppalloc (sc : softc) : option softc :=
  if sc_devp sc then None else
  Some (on_if (fun i => set_sc_last_recv (sc_time sc) (set_sc_last_sent (sc_time sc)
          (set_sc_npqueue [] (set_sc_npmode NPMODE_ERROR i))))
        (set_sc_stats (PppStat 0 0 0 0 0 0) (set_sc_mru PPP_MRU (set_sc_flags 0 sc)))).

(** [if_down] as far as the unit's state goes: [if_unroute] clears [IFF_UP] and
    [if_qflush] empties the send queue. *)
Definition if_down (i : ppp_if) : ppp_if :=
  set_if_snd [] (set_if_flags (Z.ldiff (if_flags i) IFF_UP) i).

Definition pppdealloc (sc : softc) : softc :=
  let sc := on_if if_down sc in
  let sc := on_if (fun i => set_if_drv_flags (Z.ldiff (if_drv_flags i) IFF_DRV_RUNNING)
                              (set_if_flags (Z.ldiff (if_flags i) IFF_UP) i)) (set_sc_devp false sc) in
  let sc := on_rx (fun r => set_sc_rawq [] (set_sc_freeq [] (set_sc_m None r))) sc in
  let sc := match sc_outm (sc_tx sc) with Some _ => on_tx (fun t => set_sc_outflag 0 (free_tx t)) sc | None => sc end in
  on_if (fun i => set_sc_npqueue [] (set_sc_fastq [] (set_sc_inq [] i))) sc.

(** [pppopen]: the line discipline is set; [again] if the line has it already. *)
Definition pppopen (again : bool) (sc : softc) : error * softc :=
  if again && sc_devp sc then (E_OK, sc) else
  match pppalloc sc with
  | None => (ENXIO, sc)
  | Some sc =>
      let m := pppallocmbuf mc sc in
      let sc := on_rx (fun r => set_sc_freeq (sc_freeq r ++ replicate (Z.to_nat (NUM_MBUFQ - 1)) m)
                  (set_sc_m (Some m) (set_sc_rasyncmap 0 (set_sc_ilen 0 r)))) sc in
      let sc := on_tx (fun t => free_tx (set_sc_asyncmap [0xffffffff; 0; 0; 0x60000000; 0; 0; 0; 0] t)) sc in
      (E_OK, on_if (fun i => set_if_drv_flags (Z.lor (if_drv_flags i) IFF_DRV_RUNNING) i) (set_sc_devp true sc))
  end.

Definition pppclose (sc : softc) : softc := if sc_devp sc then pppdealloc sc else sc.

(** ** Reading and writing the line *)

(** The copy loop of [pppread]: bytes and their number. *)
Fixpoint read_chain (maximum count : Z) (m : chain) : bytes :=
  match m with
  | x :: m =>
      if (0 <? m_len x) && (count + m_len x <? maximum) then m_bytes x ++ read_chain maximum (count + m_len x) m else []
  | [] => []
  end.

(** [None]: there is no packet. *)
Definition pppread (maximum : Z) (sc : softc) : option bytes * softc :=
  if negb (sc_devp sc) then (None, sc) else
  match sc_inq (sc_if sc) with
  | [] => (None, sc)
  | m :: q =>
      (Some (read_chain maximum 0 m),
       on_if (fun i => let i := set_sc_inq q i in if bool_decide (q = []) then i else set_PPPD_EVENT true i) sc)
  end.

(** The loop of [pppwrite]: a cluster for much, an mbuf for little; every pass
    takes a byte at least. *)
Fixpoint write_chain (fuel : nat) (out_buffer : bytes) (sc : softc) : chain * softc :=
  match fuel, out_buffer with
  | O, _ | _, [] => ([], sc)
  | S fuel, _ =>
      let maximum := length out_buffer in
      let '(cluster, sc) := if (MCLBYTES mc / 2 <=? maximum)%nat then try_alloc sc else (false, sc) in
      let size := if (cluster : bool) then MCLBYTES mc else MLEN mc in
      let n := Nat.min size maximum in
      let m := Mbuf (take n out_buffer ++ replicate (size - n) 0) 0 (Z.of_nat n)
                 (if (cluster : bool) then M_EXT else 0) true in
      let '(ch, sc) := write_chain fuel (drop n out_buffer) sc in
      (m :: ch, sc)
  end.

(** The header is what the daemon wrote in front. *)
Definition pppwrite (out_buffer : bytes) (sc : softc) : error * softc :=
  let '(m0, sc) := write_chain (length out_buffer) out_buffer sc in
  let hdr := take 4 (default [] (mtod <$> head m0)) in
  pppoutput (strip_header m0) (AF_UNSPEC hdr) sc.

(** ** Configuration *)

Inductive pppcmd :=
  | FIONREAD | PPPIOCSTASK (taskid : Z) | PPPIOCGUNIT | PPPIOCGFLAGS | PPPIOCSFLAGS (flags : Z)
  | PPPIOCSMRU (mru : Z) | PPPIOCGMRU | PPPIOCXFERUNIT | PPPIOCGNPMODE (protocol : Z)
  | PPPIOCSNPMODE (protocol : Z) (mode : NPmode) | PPPIOCGIDLE | PPPIO_UNKNOWN.

Inductive ttycmd :=
  | PPPIOCSASYNCMAP (v : Z) | PPPIOCGASYNCMAP | PPPIOCSRASYNCMAP (v : Z) | PPPIOCGRASYNCMAP
  | PPPIOCSXASYNCMAP (accm : list Z) | PPPIOCGXASYNCMAP | PPPIO_TERMIOS | PPPIO_DEVICE (c : pppcmd).

(** What is stored at [data]. *)
Inductive answer := A_none | A_int (v : Z) | A_map (accm : list Z) | A_mode (mode : NPmode) | A_idle (xmit recv : Z).

Definition pppioctl (c : pppcmd) (sc : softc) : error * answer * softc :=
  let i := sc_if sc in
  match c with
  | FIONREAD => (E_OK, A_int (Z.of_nat (length (sc_inq i))), sc)
  | PPPIOCSTASK taskid => (E_OK, A_none, on_if (set_sc_pppdtask taskid) sc)
  | PPPIOCGUNIT => (E_OK, A_int 0, sc)
  | PPPIOCGFLAGS => (E_OK, A_int (sc_flags sc), sc)
  | PPPIOCSFLAGS flags =>
      (E_OK, A_none, set_sc_flags (Z.lor (Z.ldiff (sc_flags sc) SC_MASK) (Z.land flags SC_MASK)) sc)
  | PPPIOCSMRU mru =>
      if Z.of_nat (MCLBYTES mc) <=? mru then (E_FAIL, A_none, sc)
      else (E_OK, A_none, if PPP_MRU <=? mru then set_sc_mru mru sc else sc)
  | PPPIOCGMRU => (E_OK, A_int (sc_mru sc), sc)
  | PPPIOCXFERUNIT => (E_OK, A_none, sc)
  | PPPIOCGNPMODE protocol =>
      if protocol =? PPP_IP then (E_OK, A_mode (sc_npmode i), sc) else (EINVAL, A_none, sc)
  | PPPIOCSNPMODE protocol mode =>
      if protocol =? PPP_IP then
        (E_OK, A_none,
         if bool_decide (mode = sc_npmode i) then sc
         else
           let sc := on_if (set_sc_npmode mode) sc in
           if bool_decide (mode = NPMODE_QUEUE) then sc else pppasyncstart (ppp_requeue sc))
      else (EINVAL, A_none, sc)
  | PPPIOCGIDLE => (E_OK, A_idle (sc_time sc - sc_last_sent i) (sc_time sc - sc_last_recv i), sc)
  | PPPIO_UNKNOWN => (E_FAIL, A_none, sc)
  end.

(** [termios] answers what concerns the terminal. *)
Definition ppptioctl (c : ttycmd) (sc : softc) : error * answer * softc :=
  match c with
  | PPPIOCSASYNCMAP v => (E_OK, A_none, on_tx (fun t => set_sc_asyncmap (<[0%nat := u32 v]> (sc_asyncmap t)) t) sc)
  | PPPIOCGASYNCMAP => (E_OK, A_int (nth 0 (sc_asyncmap (sc_tx sc)) 0), sc)
  | PPPIOCSRASYNCMAP v => (E_OK, A_none, on_rx (set_sc_rasyncmap (u32 v)) sc)
  | PPPIOCGRASYNCMAP => (E_OK, A_int (sc_rasyncmap (sc_rx sc)), sc)
  | PPPIOCSXASYNCMAP accm =>
      let a := map u32 (take 8 accm) in
      let a := <[3%nat := Z.lor (nth 3 a 0) 0x60000000]> (<[2%nat := Z.ldiff (nth 2 a 0) 0x40000000]> (<[1%nat := 0]> a)) in
      (E_OK, A_none, on_tx (set_sc_asyncmap a) sc)
  | PPPIOCGXASYNCMAP => (E_OK, A_map (sc_asyncmap (sc_tx sc)), sc)
  | PPPIO_TERMIOS => (E_OK, A_none, sc)
  | PPPIO_DEVICE c => pppioctl c sc
  end.

(** [pppsioctl], the cases that change something. *)
Inductive ifcmd := SIOCSIFFLAGS | SIOCSIFADDR (inet : bool) | SIOCSIFMTU (mtu : Z) | SIOCGIFMTU | SIOC_OTHER.

Definition pppsioctl (c : ifcmd) (sc : softc) : error * answer * softc :=
  match c with
  | SIOCSIFFLAGS =>
      (E_OK, A_none,
       if negb (has_bits (if_drv_flags (sc_if sc)) IFF_DRV_RUNNING)
       then on_if (fun i => set_if_flags (Z.ldiff (if_flags i) IFF_UP) i) sc else sc)
  | SIOCSIFADDR inet => (if inet then E_OK else EAFNOSUPPORT, A_none, sc)
  | SIOCSIFMTU mtu => (E_OK, A_none, on_if (set_if_mtu mtu) sc)
  | SIOCGIFMTU => (E_OK, A_int (if_mtu (sc_if sc)), sc)
  | SIOC_OTHER => (EINVAL, A_none, sc)
  end.
End Device.
