(* ===== verification/PppSend.v ===== *)
(** * What the line discipline sends

    The frame on the line as a function of the packet, and the proof that
    [pppstart], called by the driver after whatever part of the bytes it was
    handed has gone out, sends exactly that. *)

From S2P Require Import Prelude Wire Inet Netif Fcs PppSoftc PppTty PppIf.

(** ** The frame *)

Definition stuff_char (asyncmap : list Z) (c : Z) : bytes :=
  if ESCAPE_P asyncmap c then [PPP_ESCAPE; Z.lxor c PPP_TRANS] else [c].
Definition stuff (asyncmap : list Z) (bs : bytes) : bytes := flat_map (stuff_char asyncmap) bs.
Definition line_frame (asyncmap : list Z) (bs : bytes) : bytes :=
  [PPP_FLAG] ++ stuff asyncmap (bs ++ fcs_bytes (pppfcs PPP_INITFCS bs)) ++ [PPP_FLAG].

Lemma stuff_app a bs bs' : stuff a (bs ++ bs') = stuff a bs ++ stuff a bs'.
Proof. apply flat_map_app. Qed.

Lemma stuff_cons a c bs : stuff a (c :: bs) = stuff_char a c ++ stuff a bs.
Proof. done. Qed.

Lemma stuff_plain a bs : Forall (fun c => ESCAPE_P a c = false) bs -> stuff a bs = bs.
Proof. induction 1 as [|c bs Hc _ IH]; [done|]. rewrite stuff_cons IH /stuff_char Hc. done. Qed.

(** ** The driver *)

(** The driver has put the first [k] bytes it was handed on the line and calls
    for more; a polled driver waits for all of them. *)
Inductive line_step (polled : bool) : bytes * softc -> bytes * softc -> Prop :=
  | ls_sent k line sc :
      (0 < k <= length (tx_write (sc_tx sc)))%nat -> (polled = true -> k = length (tx_write (sc_tx sc))) ->
      line_step polled (line, sc) (line ++ take k (tx_write (sc_tx sc)), pppstart polled (Z.of_nat k) sc).

(** ** Where a transmission stands *)

(** What is left of the current buffer, and of the packet. *)
Definition seg (off : nat) (t : tx) : bytes := drop off (take (Z.to_nat (sc_outlen t)) (sc_outbuf t)).
Definition behind (t : tx) : bytes :=
  if has_bits (sc_outflag t) SC_TX_FCS then []
  else chain_bytes (tail (default [] (sc_outmc t))) ++ take (Z.to_nat (sc_outfcslen t)) (sc_outfcsbuf t).

(** What will still be written, from [off] on. *)
Definition to_come (off : nat) (t : tx) : bytes :=
  let bs := stuff (sc_asyncmap t) (seg off t ++ behind t) ++ [PPP_FLAG] in
  if has_bits (sc_outflag t) SC_TX_ESCAPE then drop 1 bs else bs.

(** An mbuf that can be sent. *)
Definition sendable (m : mbuf) : Prop :=
  0 < m_len m < 2 ^ 15 /\ (m_data m + Z.to_nat (m_len m) <= length (m_store m))%nat.

Record tx_ok (t : tx) : Prop := {
  ok_len : 0 <= sc_outlen t < 2 ^ 15;
  ok_buf : (Z.to_nat (sc_outlen t) <= length (sc_outbuf t))%nat;
  ok_chain : Forall sendable (tail (default [] (sc_outmc t)));
  ok_fcs : sc_outfcslen t = 2 /\ length (sc_outfcsbuf t) = 8%nat;
  ok_busy : has_bits (sc_outflag t) SC_TX_BUSY = true;
  ok_last : has_bits (sc_outflag t) SC_TX_LASTCHAR = false;
  ok_tail : has_bits (sc_outflag t) SC_TX_FCS = true -> tail (default [] (sc_outmc t)) = []
}.

(** At [off], with nothing handed to the driver; an escape that has been sent
    belongs to the next character. *)
Record at_rest (off : nat) (t : tx) : Prop := {
  ar_ok : tx_ok t;
  ar_off : (off <= Z.to_nat (sc_outlen t))%nat;
  ar_escape : has_bits (sc_outflag t) SC_TX_ESCAPE = true ->
    exists c bs, seg off t = c :: bs /\ ESCAPE_P (sc_asyncmap t) c = true
}.

Lemma mtod_bytes m : sendable m -> take (Z.to_nat (m_len m)) (mtod m) = m_bytes m.
Proof. done. Qed.

Lemma s16_small z : 0 <= z < 2 ^ 15 -> s16 z = z.
Proof. intros Hz. unfold s16. rewrite Z.mod_small; lia. Qed.

(** ** Fetching characters *)

(** The character and the fault flag are the only fields that differ. *)
Definition same_but_char (t t' : tx) : Prop := t' = set_tx_fault (tx_fault t') (set_sc_outchar (sc_outchar t') t).

Lemma same_but_char_refl t : same_but_char t t.
Proof. by destruct t. Qed.

Lemma same_but_char_trans t1 t2 t3 : same_but_char t1 t2 -> same_but_char t2 t3 -> same_but_char t1 t3.
Proof. unfold same_but_char. by intros -> ->. Qed.

Lemma tx_fetch_same i t : same_but_char t (tx_fetch i t).
Proof. unfold tx_fetch, same_but_char. destruct t; by case_match. Qed.

Lemma seg_lookup off t j c : seg off t !! j = Some c -> sc_outbuf t !! (off + j)%nat = Some c.
Proof. unfold seg. rewrite lookup_drop. by intros [? _]%lookup_take_Some. Qed.

Lemma length_seg off t : tx_ok t -> length (seg off t) = (Z.to_nat (sc_outlen t) - off)%nat.
Proof. intros Ht. unfold seg. rewrite length_drop length_take. pose proof (ok_buf _ Ht). lia. Qed.

Lemma tx_fetch_seg off j t c :
  seg off t !! j = Some c -> sc_outchar (tx_fetch (Z.of_nat off + Z.of_nat j) t) = c.
Proof.
  intros H%seg_lookup. unfold tx_fetch. rewrite (proj2 (Z.ltb_ge _ _)); [lia|].
  by replace (Z.to_nat (Z.of_nat off + Z.of_nat j)) with (off + j)%nat by lia; rewrite H.
Qed.

(** The characters the loop passes need no escape, and it passes all of those. *)
Lemma tx_run_passes fuel io t off l :
  tx_ok t -> sc_outoff t = Z.of_nat off -> seg off t = l -> (io <= length l)%nat -> (length l - io <= fuel)%nat ->
  (forall c, l !! io = Some c -> sc_outchar t = c) ->
  let '(n, t') := tx_run fuel (Z.of_nat io) t in
  same_but_char t t' /\ exists k, n = Z.of_nat k /\ (io <= k <= length l)%nat /\
    Forall (fun c => ESCAPE_P (sc_asyncmap t) c = false) (take (k - io) (drop io l)) /\
    (forall c, l !! io = Some c -> ESCAPE_P (sc_asyncmap t) c = false -> (io < k)%nat).
Proof.
  intros Ht Ho Hl. revert io t Ht Ho Hl. induction fuel as [|fuel IH]; intros io t Ht Ho Hl Hio Hf Hc; cbn [tx_run].
  - assert (Hstop : same_but_char t t /\ exists k, Z.of_nat io = Z.of_nat k /\ (io <= k <= length l)%nat /\
      Forall (fun c => ESCAPE_P (sc_asyncmap t) c = false) (take (k - io) (drop io l)) /\
      (forall c, l !! io = Some c -> ESCAPE_P (sc_asyncmap t) c = false -> (io < k)%nat)).
    { split; [apply same_but_char_refl|]. exists io. rewrite Nat.sub_diag. split; [done|]. split; [lia|].
      split; [constructor|]. intros c H%lookup_lt_Some. lia. }
    by destruct (_ && _).
  - pose proof (length_seg off t Ht) as Hlen. rewrite Hl in Hlen. pose proof (ok_len _ Ht) as Hol.
    destruct (Z.ltb_spec (sc_outoff t + Z.of_nat io) (sc_outlen t)) as [Hlt|Hge].
    2:{ rewrite andb_false_r. split; [apply same_but_char_refl|]. exists io. rewrite Nat.sub_diag.
        split; [done|]. split; [lia|]. split; [constructor|]. intros c Hc'%lookup_lt_Some. lia. }
    destruct (lookup_lt_is_Some_2 l io) as [c Hlc]; [lia|]. rewrite (Hc c Hlc) andb_true_r.
    destruct (ESCAPE_P (sc_asyncmap t) c) eqn:Ee.
    { split; [apply same_but_char_refl|]. exists io. rewrite Nat.sub_diag. split; [done|]. split; [lia|].
      split; [constructor|]. intros c' Hc'. simplify_eq. congruence. }
    cbn [negb]. set (t1 := tx_fetch _ t). pose proof (tx_fetch_same (sc_outoff t + (Z.of_nat io + 1)) t) as Hs.
    fold t1 in Hs. assert (Ht1 : tx_ok t1) by (rewrite Hs; by destruct Ht).
    specialize (IH (S io) t1). replace (Z.of_nat (S io)) with (Z.of_nat io + 1) in IH by lia.
    destruct (tx_run fuel _ t1) as [n t'].
    destruct IH as (Hs' & k & -> & Hk & Hall & _); [done|by rewrite Hs|by rewrite Hs|lia|lia| |].
    { intros c' Hc'. unfold t1. rewrite Ho. replace (Z.of_nat io + 1) with (Z.of_nat (S io)) by lia.
      apply tx_fetch_seg. by rewrite Hl. }
    split; [by eapply same_but_char_trans|]. exists k. split; [done|]. split; [lia|]. split; [|intros; lia].
    rewrite Hs in Hall. replace (k - io)%nat with (S (k - S io)) by lia. rewrite (drop_S l c io Hlc). by constructor.
Qed.

(** ** One call *)

Lemma seg_add off k t : seg (off + k) t = drop k (seg off t).
Proof. unfold seg. by rewrite drop_drop. Qed.

Lemma seg_uncons off t :
  tx_ok t -> (off < Z.to_nat (sc_outlen t))%nat -> exists c, seg off t = c :: seg (off + 1) t.
Proof.
  intros Ht Ho. pose proof (length_seg off t Ht) as Hl. rewrite seg_add.
  destruct (seg off t) as [|c bs]; [simpl in Hl; lia|]. by exists c.
Qed.

Lemma to_come_plain off k t :
  has_bits (sc_outflag t) SC_TX_ESCAPE = false -> (k <= length (seg off t))%nat ->
  Forall (fun c => ESCAPE_P (sc_asyncmap t) c = false) (take k (seg off t)) ->
  to_come off t = take k (seg off t) ++ to_come (off + k) t.
Proof.
  intros He Hk Hp. unfold to_come. rewrite He seg_add -{1}(take_drop k (seg off t)) -app_assoc stuff_app stuff_plain //.
  by rewrite app_assoc.
Qed.

(** The driver has been handed the first bytes of [todo]. *)
Inductive handed (polled : bool) (todo : bytes) (t : tx) : Prop :=
  | handed_run off :
      sc_outoff_update t = true -> sc_outoff t = Z.of_nat off -> tx_ok t -> tx_write t <> [] ->
      take (length (tx_write t)) todo = tx_write t ->
      (forall k, (0 < k <= length (tx_write t))%nat -> at_rest (off + k) t /\ to_come (off + k) t = drop k todo) ->
      handed polled todo t
  | handed_rest off :
      sc_outoff_update t = false -> sc_outoff t = Z.of_nat off -> at_rest off t -> tx_write t <> [] ->
      take (length (tx_write t)) todo = tx_write t -> (length (tx_write t) = 1%nat \/ polled = true) ->
      to_come off t = drop (length (tx_write t)) todo -> handed polled todo t
  | handed_last :
      sc_outoff_update t = false -> has_bits (sc_outflag t) SC_TX_BUSY = true ->
      has_bits (sc_outflag t) SC_TX_LASTCHAR = true -> tx_write t = [PPP_FLAG] -> todo = [PPP_FLAG] -> handed polled todo t.

(** The fields a position depends on. *)
Definition same_place (t t' : tx) : Prop :=
  sc_asyncmap t' = sc_asyncmap t /\ sc_outmc t' = sc_outmc t /\ sc_outbuf t' = sc_outbuf t /\ sc_outlen t' = sc_outlen t /\
  sc_outfcslen t' = sc_outfcslen t /\ sc_outfcsbuf t' = sc_outfcsbuf t /\
  (forall b, b = SC_TX_FCS \/ b = SC_TX_BUSY \/ b = SC_TX_LASTCHAR -> has_bits (sc_outflag t') b = has_bits (sc_outflag t) b).

Lemma same_place_ok t t' : same_place t t' -> tx_ok t -> tx_ok t'.
Proof.
  intros (Ha & Hm & Hb & Hl & Hfl & Hf & Hg) []. split; rewrite ?Hm ?Hb ?Hl ?Hfl ?Hf //; rewrite Hg; auto.
Qed.

Lemma same_place_seg t t' off : same_place t t' -> seg off t' = seg off t /\ behind t' = behind t.
Proof. intros (Ha & Hm & Hb & Hl & Hfl & Hf & Hg). unfold seg, behind. rewrite Hm Hb Hl Hfl Hf Hg; tauto. Qed.

Lemma same_place_rest t t' off :
  same_place t t' -> has_bits (sc_outflag t') SC_TX_ESCAPE = false -> tx_ok t -> (off <= Z.to_nat (sc_outlen t))%nat ->
  at_rest off t' /\ to_come off t' = stuff (sc_asyncmap t) (seg off t ++ behind t) ++ [PPP_FLAG].
Proof.
  intros Hp He Ht Ho. destruct (same_place_seg t t' off Hp) as [Hs Hb]. split.
  - split; [by eapply same_place_ok| |by rewrite He]. by destruct Hp as (_ & _ & _ & -> & _).
  - unfold to_come. rewrite He Hs Hb. by destruct Hp as (-> & _).
Qed.

(** Bytes that take the position forward by [k]. *)
Lemma hand_over polled off k t t' todo :
  tx_ok t -> same_place t t' -> has_bits (sc_outflag t') SC_TX_ESCAPE = false ->
  (0 < k)%nat -> (off + k <= Z.to_nat (sc_outlen t))%nat -> length (tx_write t') = k -> take k todo = tx_write t' ->
  (forall j, (0 < j <= k)%nat -> drop j todo = stuff (sc_asyncmap t) (seg (off + j) t ++ behind t) ++ [PPP_FLAG]) ->
  sc_outoff_update t' = negb polled -> sc_outoff t' = Z.of_nat (if polled then off + k else off)%nat ->
  handed polled todo t'.
Proof.
  intros Ht Hp He Hk Hle Hw Htake Htodo Hu Ho.
  assert (Hne : tx_write t' <> []) by (intros E; rewrite E in Hw; simpl in Hw; lia).
  assert (Hj : forall j, (0 < j <= k)%nat -> at_rest (off + j) t' /\ to_come (off + j) t' = drop j todo).
  { intros j Hj. rewrite Htodo //. apply same_place_rest; [done..|lia]. }
  destruct polled.
  - eapply (handed_rest _ _ _ (off + k)%nat); [done|done|by apply Hj; lia|done|by rewrite Hw|by right|].
    rewrite Hw. by apply Hj; lia.
  - eapply (handed_run _ _ _ off); [done|done|by eapply same_place_ok|done|by rewrite Hw|by rewrite Hw].
Qed.

Lemma tx_data_hands polled off sc :
  at_rest off (sc_tx sc) -> sc_outoff (sc_tx sc) = Z.of_nat off -> (off < Z.to_nat (sc_outlen (sc_tx sc)))%nat ->
  sc_outoff_update (sc_tx sc) = false ->
  handed polled (to_come off (sc_tx sc)) (sc_tx (tx_data polled sc)).
Proof.
  intros Hr Hoff Hlt Hup. destruct sc as [fl dv mru st r t i al tm]; cbn [sc_tx] in *.
  pose proof (ar_ok _ _ Hr) as Ht. pose proof (ok_len _ Ht) as Hlen.
  destruct (seg_uncons off t Ht Hlt) as [c Hc].
  unfold tx_data. cbn [sc_tx]. set (t1 := tx_fetch (sc_outoff t) t).
  pose proof (tx_fetch_same (sc_outoff t) t) as Hs1. fold t1 in Hs1.
  assert (Hc1 : sc_outchar t1 = c).
  { unfold t1. rewrite Hoff -{1}(Z.add_0_r (Z.of_nat off)). change 0 with (Z.of_nat 0). apply tx_fetch_seg. by rewrite Hc. }
  assert (Hm : sc_asyncmap t1 = sc_asyncmap t) by by rewrite Hs1.
  assert (Hf1 : sc_outflag t1 = sc_outflag t) by by rewrite Hs1.
  rewrite Hm Hc1 Hf1. destruct (ESCAPE_P (sc_asyncmap t) c) eqn:Ee.
  - destruct (has_bits (sc_outflag t) SC_TX_ESCAPE) eqn:Ex.
    + assert (Htodo : to_come off t = Z.lxor c PPP_TRANS :: stuff (sc_asyncmap t) (seg (off + 1) t ++ behind t) ++ [PPP_FLAG])
        by (unfold to_come; by rewrite Ex Hc /= {1}/stuff_char Ee).
      eapply (hand_over polled off 1 t); [done| |destruct polled; cbn; rewrite Hf1; flag_simpl; done|lia|lia|
        by destruct polled|rewrite Htodo; by destruct polled| |by destruct polled|].
      * rewrite Hs1. destruct polled; (do 6 (split; [done|])); intros b Hb; cbn; destruct Hb as [->|[->| ->]]; flag_simpl; done.
      * intros j Hj. replace j with 1%nat by lia. by rewrite Htodo.
      * rewrite Hs1. destruct polled; cbn; [rewrite Hoff s16_small; lia|done].
    + assert (Htodo : to_come off t = PPP_ESCAPE :: Z.lxor c PPP_TRANS :: stuff (sc_asyncmap t) (seg (off + 1) t ++ behind t) ++ [PPP_FLAG])
        by (unfold to_come; by rewrite Ex Hc /= {1}/stuff_char Ee).
      set (t' := sc_tx _).
      assert (Hp : same_place t t').
      { unfold t'. rewrite Hs1. destruct polled; (do 6 (split; [done|])); intros b Hb; cbn; destruct Hb as [->|[->| ->]]; flag_simpl; done. }
      assert (Hx : has_bits (sc_outflag t') SC_TX_ESCAPE = true) by (unfold t'; destruct polled; cbn; flag_simpl; done).
      destruct (same_place_seg t t' off Hp) as [Hs Hb].
      eapply (handed_rest _ _ _ off); [by unfold t'; destruct polled| | |by unfold t'; destruct polled|
        rewrite Htodo /t'; by destruct polled|left; by unfold t'; destruct polled|].
      * unfold t'. rewrite Hs1. destruct polled; cbn; [rewrite Hoff Z.add_0_r s16_small; lia|done].
      * split; [by eapply same_place_ok| |].
        -- destruct Hp as (_ & _ & _ & -> & _). lia.
        -- intros _. exists c, (seg (off + 1) t). rewrite Hs. by destruct Hp as (-> & _).
      * rewrite Htodo. replace (length (tx_write t')) with 1%nat by by unfold t'; destruct polled.
        unfold to_come. rewrite Hx Hs Hb Hc. destruct Hp as (-> & _). by rewrite /= {1}/stuff_char Ee.
  - assert (Ex : has_bits (sc_outflag t) SC_TX_ESCAPE = false).
    { destruct (has_bits (sc_outflag t) SC_TX_ESCAPE) eqn:Ex; [|done].
      destruct (ar_escape _ _ Hr Ex) as (c' & bs & Hc' & He'). rewrite Hc in Hc'. simplify_eq. congruence. }
    assert (Ht1 : tx_ok t1) by (rewrite Hs1; by destruct Ht).
    pose proof (tx_run_passes (Z.to_nat (sc_outlen t1 - sc_outoff t1)) 0 t1 off (seg off t)) as Hrun.
    assert (Hl1 : sc_outlen t1 = sc_outlen t) by by rewrite Hs1.
    assert (Ho1 : sc_outoff t1 = sc_outoff t) by by rewrite Hs1.
    pose proof (length_seg off t Ht) as Hls.
    change (Z.of_nat 0) with 0 in Hrun. destruct (tx_run _ 0 t1) as [n t2].
    destruct Hrun as (Hs2 & k & -> & Hk & Hall & Hpos); [done|by rewrite Ho1 Hoff|by rewrite Hs1|lia|rewrite Hl1 Ho1; lia| |].
    { intros c' Hc'. rewrite Hc in Hc'. injection Hc' as <-. exact Hc1. }
    rewrite Hm Nat.sub_0_r drop_0 in Hall. specialize (Hpos c). rewrite Hc Hm in Hpos. specialize (Hpos eq_refl Ee).
    rewrite (proj2 (Z.ltb_lt 0 (Z.of_nat k))); [lia|]. rewrite Nat2Z.id.
    assert (Hs : same_but_char t t2) by by eapply same_but_char_trans. set (t' := sc_tx _).
    assert (Hbuf : tx_write t' = take k (seg off t)).
    { replace (tx_write t') with (take k (drop (Z.to_nat (sc_outoff t2)) (sc_outbuf t2))) by by unfold t'; destruct polled.
      rewrite Hs. cbn. rewrite Hoff Nat2Z.id /seg !take_drop_commute take_take. do 2 f_equal. lia. }
    assert (Hj : forall j, (j <= k)%nat -> to_come off t = take j (seg off t) ++ stuff (sc_asyncmap t) (seg (off + j) t ++ behind t) ++ [PPP_FLAG]).
    { intros j Hj. rewrite (to_come_plain off j t Ex); [lia| |by rewrite /to_come Ex].
      replace j with (j `min` k)%nat by lia. rewrite -take_take. by apply Forall_take. }
    eapply (hand_over polled off k t); [done| | |lia|lia|rewrite Hbuf length_take; lia| | | |].
    + unfold t'. rewrite Hs. destruct polled; (do 6 (split; [done|])); done.
    + unfold t'. rewrite Hs. by destruct polled.
    + rewrite Hbuf (Hj k) // take_app_length' // length_take. lia.
    + intros j Hjk. rewrite (Hj j); [lia|]. rewrite drop_app_length' // length_take. lia.
    + unfold t'. by destruct polled.
    + unfold t'. rewrite Hs. destruct polled; cbn; [rewrite Hoff s16_small; lia|done].
Qed.

(** A buffer of the frame, from its start. *)
Lemma start_buffer t t' :
  tx_ok t' -> has_bits (sc_outflag t') SC_TX_ESCAPE = false -> has_bits (sc_outflag t) SC_TX_ESCAPE = false ->
  sc_asyncmap t' = sc_asyncmap t -> seg 0 t' ++ behind t' = behind t ->
  at_rest 0 t' /\ forall off, seg off t = [] -> to_come 0 t' = to_come off t.
Proof.
  intros Ht' He' He Ha Hb. split; [split; [done|lia|by rewrite He']|].
  intros off Hs. by rewrite /to_come He He' Ha Hs Hb.
Qed.

(** What [pppstart] does once the position is up to date. *)
Definition tx_go_on (polled : bool) (sc : softc) : softc :=
  let '(over, sc) := if sc_outlen (sc_tx sc) <=? sc_outoff (sc_tx sc) then tx_next sc else (false, sc) in
  if (over : bool) then sc
  else if sc_outoff (sc_tx sc) <? sc_outlen (sc_tx sc) then tx_data polled sc
  else on_tx (handler_write []) sc.

Lemma tx_go_on_hands polled off sc :
  at_rest off (sc_tx sc) -> sc_outoff (sc_tx sc) = Z.of_nat off -> sc_outoff_update (sc_tx sc) = false ->
  handed polled (to_come off (sc_tx sc)) (sc_tx (tx_go_on polled sc)).
Proof.
  intros Hr Hoff Hup. pose proof (ar_ok _ _ Hr) as Ht. pose proof (ok_len _ Ht) as Hlen. pose proof (ar_off _ _ Hr) as Hle.
  unfold tx_go_on. destruct (Z.leb_spec (sc_outlen (sc_tx sc)) (sc_outoff (sc_tx sc))) as [Hend|Hlt].
  2:{ rewrite (proj2 (Z.ltb_lt _ _) Hlt). apply tx_data_hands; [done..|lia|done]. }
  assert (Hs : seg off (sc_tx sc) = []) by (apply nil_length_inv; rewrite length_seg //; lia).
  assert (Ex : has_bits (sc_outflag (sc_tx sc)) SC_TX_ESCAPE = false).
  { destruct (has_bits (sc_outflag (sc_tx sc)) SC_TX_ESCAPE) eqn:Ex; [|done].
    destruct (ar_escape _ _ Hr Ex) as (? & ? & Hc & _). by rewrite Hs in Hc. }
  assert (Hdata : forall sc', sc_outoff (sc_tx sc') = 0 -> sc_outoff_update (sc_tx sc') = false ->
    (0 < Z.to_nat (sc_outlen (sc_tx sc')))%nat -> at_rest 0 (sc_tx sc') -> to_come 0 (sc_tx sc') = to_come off (sc_tx sc) ->
    handed polled (to_come off (sc_tx sc))
      (sc_tx (if sc_outoff (sc_tx sc') <? sc_outlen (sc_tx sc') then tx_data polled sc' else on_tx (handler_write []) sc'))).
  { intros sc' H0 Hu Hl Hr' <-. rewrite (proj2 (Z.ltb_lt _ _)); [lia|]. by apply tx_data_hands. }
  unfold tx_next. destruct sc as [fl dv mru st r t i al tm]; cbn [sc_tx] in *.
  destruct (has_bits (sc_outflag t) SC_TX_FCS) eqn:Ef.
  - pose proof (ok_tail _ Ht Ef) as Htl.
    replace (match sc_outmc t with Some (_ :: (_ :: _)) => _ | _ => _ end) with
      (true, on_tx (fun t => handler_write [PPP_FLAG] (set_sc_outchar PPP_FLAG
         (set_sc_outflag (Z.ldiff (Z.lor (sc_outflag t) SC_TX_LASTCHAR) SC_TX_FCS) t))) (Softc fl dv mru st r t i al tm)).
    2:{ destruct (sc_outmc t) as [[|x [|y ch]]|]; done. }
    apply handed_last; [done| | |done|].
    + cbn. flag_simpl. apply (ok_busy _ Ht).
    + cbn. flag_simpl. done.
    + by rewrite /to_come /behind Ex Ef Hs.
  - pose proof (ok_chain _ Ht) as Hch. destruct (ok_fcs _ Ht) as [Hf2 Hf8].
    assert (Hfcs : tail (default [] (sc_outmc t)) = [] ->
      let sc' := on_tx (fun t => set_sc_outoff 0 (set_sc_outlen (sc_outfcslen t)
        (set_sc_outbuf (sc_outfcsbuf t) (set_sc_outflag (Z.lor (sc_outflag t) SC_TX_FCS) t)))) (Softc fl dv mru st r t i al tm) in
      handed polled (to_come off t)
        (sc_tx (if sc_outoff (sc_tx sc') <? sc_outlen (sc_tx sc') then tx_data polled sc' else on_tx (handler_write []) sc'))).
    { intros Htl sc'. assert (Ht' : tx_ok (sc_tx sc')).
      { unfold sc'. split; cbn; rewrite ?Hf2 ?Htl //; [rewrite Hf8; lia| |]; flag_simpl; [apply (ok_busy _ Ht)|apply (ok_last _ Ht)]. }
      destruct (start_buffer t (sc_tx sc')) as [Hr' Htc]; [done|unfold sc'; cbn; flag_simpl; done|done|done| |].
      - unfold seg, behind, sc'. cbn. flag_simpl. by rewrite Ef Htl drop_0 app_nil_r.
      - apply Hdata; [done|done|unfold sc'; cbn; rewrite Hf2; lia|done|by apply Htc]. }
    destruct (sc_outmc t) as [[|x [|m ch]]|] eqn:Em; [by apply Hfcs|by apply Hfcs| |by apply Hfcs].
    change (Forall sendable (m :: ch)) in Hch. apply Forall_cons_1 in Hch as [[Hm1 Hm2] Hch].
    set (sc' := on_tx _ _). assert (Hl : s16 (m_len m) = m_len m) by (apply s16_small; lia).
    assert (Ht' : tx_ok (sc_tx sc')).
    { unfold sc'. split; cbn; rewrite ?Hl; [lia| |done|done|apply (ok_busy _ Ht)|apply (ok_last _ Ht)|by rewrite Ef].
      rewrite /mtod length_drop. lia. }
    destruct (start_buffer t (sc_tx sc')) as [Hr' Htc]; [done|done|done|done| |].
    + unfold seg, behind, sc'. cbn. by rewrite Ef Em Hl drop_0 app_assoc.
    + apply Hdata; [done|done|unfold sc'; cbn; rewrite Hl; lia|done|by apply Htc].
Qed.

Lemma pppstart_devp polled len sc : sc_devp (pppstart polled len sc) = sc_devp sc.
Proof.
  unfold pppstart. destruct sc as [fl dv mru st r t i al tm]. cbn [sc_devp]. case_match; [done|].
  set (sc1 := if sc_outoff_update _ then _ else _). assert (H1 : sc_devp sc1 = dv) by (unfold sc1; by case_match).
  case_match; [done|]. rewrite -H1. clear.
  assert (Hd : forall sc, sc_devp (tx_data polled sc) = sc_devp sc).
  { intros sc. unfold tx_data. destruct (if ESCAPE_P _ _ then _ else _) as [[n buf] t']. by destruct polled; [|case_match]. }
  assert (Hn : forall sc, sc_devp (tx_next sc).2 = sc_devp sc) by (intros sc; unfold tx_next; repeat case_match; done).
  destruct (sc_outlen (sc_tx sc1) <=? sc_outoff (sc_tx sc1)).
  - specialize (Hn sc1). destruct (tx_next sc1) as [[] sc2]; [done|]. case_match; [by rewrite Hd|done].
  - case_match; [by rewrite Hd|done].
Qed.

Lemma pppstart_go polled len sc :
  sc_devp sc = true -> has_bits (sc_outflag (sc_tx sc)) SC_TX_BUSY = true ->
  has_bits (sc_outflag (sc_tx sc)) SC_TX_LASTCHAR = false ->
  pppstart polled len sc =
  tx_go_on polled (if sc_outoff_update (sc_tx sc)
    then on_tx (fun t => set_sc_outoff_update false (set_sc_outoff (s16 (sc_outoff t + len)) t)) (count_sent len sc)
    else sc).
Proof.
  intros Hd Hb Hl. unfold pppstart. rewrite Hd Hb. cbn [andb negb]. set (sc' := if sc_outoff_update _ then _ else _).
  replace (has_bits (sc_outflag (sc_tx sc')) SC_TX_LASTCHAR) with false; [done|]. unfold sc'. by case_match.
Qed.

(** The driver has put [k] bytes on the line and calls. *)
Lemma pppstart_goes_on polled k sc todo :
  sc_devp sc = true -> handed polled todo (sc_tx sc) -> (0 < k <= length (tx_write (sc_tx sc)))%nat ->
  (polled = true -> k = length (tx_write (sc_tx sc))) ->
  let sc' := pppstart polled (Z.of_nat k) sc in
  handed polled (drop k todo) (sc_tx sc') \/
  drop k todo = [] /\ tx_write (sc_tx sc') = [] /\ TX_TRANSMIT (sc_tx sc') = true /\
  has_bits (sc_outflag (sc_tx sc')) SC_TX_BUSY = false.
Proof.
  intros Hd H Hk Hp. destruct H as [off Hu Ho Ht Hne Htk Hj|off Hu Ho Hr Hne Htk Hl Hc|Hu Hb Hl Hw ->].
  - left. destruct (Hj k Hk) as [Hr Htc]. cbn zeta. rewrite pppstart_go // ?(ok_busy _ Ht) ?(ok_last _ Ht) // Hu.
    set (sc' := on_tx _ _). assert (Hm : at_rest (off + k) (sc_tx sc') /\ to_come (off + k) (sc_tx sc') = drop k todo).
    { rewrite -Htc. unfold sc'. destruct sc as [? ? ? ? ? t ? ? ?]. destruct Hr as [[] Hle He]. by destruct t. }
    destruct Hm as [Hr' <-]. apply tx_go_on_hands; [done| |done].
    pose proof (ar_off _ _ Hr). pose proof (ok_len _ Ht). unfold sc'. cbn. rewrite Ho s16_small; lia.
  - left. pose proof (ar_ok _ _ Hr) as Ht. cbn zeta. rewrite pppstart_go // ?(ok_busy _ Ht) ?(ok_last _ Ht) // Hu.
    replace k with (length (tx_write (sc_tx sc))) by (destruct Hl as [Hl|Hl]; [lia|symmetry; auto]).
    rewrite -Hc. by apply tx_go_on_hands.
  - right. rewrite Hw /= in Hk. replace k with 1%nat by lia. unfold pppstart. rewrite Hd Hb Hu Hl. cbn. flag_simpl. done.
Qed.

(** ** A frame *)

(** Between two calls of the driver, with [todo] not yet on the line: it has been
    handed bytes, or all is sent and the task that starts the next frame is told. *)
Definition under_way (polled : bool) (todo : bytes) (sc : softc) : Prop :=
  sc_devp sc = true /\
  (handed polled todo (sc_tx sc) \/
   todo = [] /\ tx_write (sc_tx sc) = [] /\ TX_TRANSMIT (sc_tx sc) = true /\ has_bits (sc_outflag (sc_tx sc)) SC_TX_BUSY = false).

Lemma handed_write polled todo t :
  handed polled todo t -> tx_write t <> [] /\ take (length (tx_write t)) todo = tx_write t.
Proof. by intros [off ? ? ? ? ? ?|off ? ? ? ? ? ? ?|? ? ? -> ->]. Qed.

Lemma under_way_step polled todo line sc line' sc' :
  under_way polled todo sc -> line_step polled (line, sc) (line', sc') ->
  exists sent, sent <> [] /\ line' = line ++ sent /\ exists todo', todo = sent ++ todo' /\ under_way polled todo' sc'.
Proof.
  intros [Hd H] Hs. inversion Hs as [k ? ? Hk Hp]; subst. destruct H as [H|(_ & Hw & _)]; [|rewrite Hw /= in Hk; lia].
  destruct (handed_write _ _ _ H) as [Hne Htk].
  exists (take k (tx_write (sc_tx sc))). split; [|split; [done|]].
  { intros E%(f_equal length). rewrite length_take /= in E. lia. }
  exists (drop k todo). split.
  - rewrite -Htk take_take. replace (k `min` length (tx_write (sc_tx sc)))%nat with k by lia. by rewrite take_drop.
  - split; [by rewrite pppstart_devp|]. by apply pppstart_goes_on.
Qed.

Lemma under_way_runs polled n todo line sc line' sc' :
  under_way polled todo sc -> nsteps (line_step polled) n (line, sc) (line', sc') ->
  exists todo', line ++ todo = line' ++ todo' /\ under_way polled todo' sc' /\ (n + length todo' <= length todo)%nat.
Proof.
  revert todo line sc. induction n as [|n IH]; intros todo line sc Hu Hn; inversion Hn as [|? ? [line1 sc1] ? Hs Hn']; subst.
  - exists todo. split; [done|]. split; [done|]. lia.
  - destruct (under_way_step _ _ _ _ _ _ Hu Hs) as (sent & Hne & -> & todo' & -> & Hu').
    destruct (IH _ _ _ Hu' Hn') as (todo'' & E & Hu'' & Hlen). exists todo''. rewrite -app_assoc in E.
    split; [done|]. split; [done|]. rewrite length_app. destruct sent; [done|]. simpl. lia.
Qed.

Lemma under_way_more polled todo line sc :
  under_way polled todo sc -> todo <> [] -> exists line' sc', line_step polled (line, sc) (line', sc').
Proof.
  intros [Hd [H|(-> & _)]] Hne; [|done]. destruct (handed_write _ _ _ H) as [Hw _].
  eexists _, _. apply (ls_sent _ (length (tx_write (sc_tx sc)))); [|done].
  destruct (tx_write (sc_tx sc)); [done|]. simpl. lia.
Qed.

(** The packet the task takes, and the mbufs of it that are sent. *)
Definition sendable_chain (m : chain) : Prop := nonempty_prefix m <> [] /\ Forall sendable (nonempty_prefix m).

Lemma cut_chain_prefix m : nonempty_prefix m <> [] -> cut_chain m = nonempty_prefix m.
Proof. destruct m as [|x m]; [done|]. simpl. by case_match. Qed.

Lemma tx_begin_hands polled m sc :
  sc_devp sc = true -> sc_outflag (sc_tx sc) = SC_TX_BUSY -> length (sc_outfcsbuf (sc_tx sc)) = 8%nat -> sendable_chain m ->
  under_way polled (line_frame (sc_asyncmap (sc_tx sc)) (chain_bytes (nonempty_prefix m))) (tx_begin m sc).
Proof.
  intros Hd Hb Hf [Hne Hs]. split; [done|]. left. unfold tx_begin. rewrite (cut_chain_prefix m Hne).
  destruct (nonempty_prefix m) as [|x ch] eqn:Em; [done|]. apply Forall_cons_1 in Hs as [[Hl Hst] Hch].
  set (t' := sc_tx (on_tx _ _)). assert (Hx : s16 (m_len x) = m_len x) by (apply s16_small; lia).
  assert (Ht : tx_ok t').
  { unfold t'. cbn. rewrite Hd. split; cbn; rewrite ?Hx ?Hb //; [lia| |].
    - rewrite /mtod length_drop. lia.
    - by rewrite length_drop Hf. }
  assert (Hw : tx_write t' = [PPP_FLAG]) by (unfold t'; cbn; by rewrite Hd).
  assert (Hfl : sc_outflag t' = SC_TX_BUSY) by (unfold t'; cbn; by rewrite Hd).
  apply (handed_rest _ _ _ 0).
  - unfold t'. cbn. by rewrite Hd.
  - unfold t'. cbn. by rewrite Hd.
  - split; [done|lia|]. by rewrite Hfl.
  - by rewrite Hw.
  - by rewrite Hw.
  - left. by rewrite Hw.
  - rewrite Hw. unfold to_come, seg, behind. rewrite Hfl. unfold t'. cbn. rewrite Hd. cbn. rewrite drop_0 Hx.
    change (has_bits SC_TX_BUSY SC_TX_ESCAPE) with false. change (has_bits SC_TX_BUSY SC_TX_FCS) with false.
    by rewrite /frame_fcs Em /line_frame /chain_bytes /= -!app_assoc.
Qed.

Lemma ppp_dequeue_keeps sc :
  sc_tx (ppp_dequeue sc).2 = sc_tx sc /\ sc_devp (ppp_dequeue sc).2 = sc_devp sc /\ sc_rx (ppp_dequeue sc).2 = sc_rx sc.
Proof. unfold ppp_dequeue. destruct sc as [fl dv mru st r t i al tm]. cbn [sc_if]. by destruct (next_packet i) as [[m i']|]. Qed.

(** The task takes its packet whatever has become of the last one. *)
Lemma ppp_dequeue_tx sc g : (ppp_dequeue (on_tx g sc)).1 = (ppp_dequeue sc).1.
Proof.
  unfold ppp_dequeue. destruct sc as [fl dv mru st r t i al tm].
  change (sc_if (on_tx _ _)) with i. cbn [sc_if]. by destruct (next_packet i) as [[m i']|].
Qed.

(** The transmitter is idle and the task has been told to look for a packet. *)
Definition may_begin (t : tx) : Prop :=
  length (sc_outfcsbuf t) = 8%nat /\ (TX_TRANSMIT t = true \/ TX_PACKET t = true /\ sc_outm t = None).

Lemma ppp_txdaemon_begins polled m sc :
  sc_devp sc = true -> may_begin (sc_tx sc) -> (ppp_dequeue sc).1 = Some m -> sendable_chain m ->
  under_way polled (line_frame (sc_asyncmap (sc_tx sc)) (chain_bytes (nonempty_prefix m))) (ppp_txdaemon sc).
Proof.
  intros Hd [Hf Hm] Hq Hs. unfold ppp_txdaemon. set (sc1 := if TX_TRANSMIT _ then _ else _).
  assert (H1 : sc_devp sc1 = true /\ sc_outm (sc_tx sc1) = None /\ length (sc_outfcsbuf (sc_tx sc1)) = 8%nat /\
    sc_asyncmap (sc_tx sc1) = sc_asyncmap (sc_tx sc) /\ (ppp_dequeue sc1).1 = Some m).
  { unfold sc1. destruct Hm as [->|[Hp Ho]]; [rewrite !ppp_dequeue_tx; by destruct sc|].
    destruct (TX_TRANSMIT (sc_tx sc)); rewrite !ppp_dequeue_tx; by destruct sc. }
  destruct H1 as (Hd1 & Ho1 & Hf1 & Ha1 & Hq1). rewrite Ho1.
  replace (TX_PACKET (sc_tx sc) || TX_TRANSMIT (sc_tx sc)) with true by by destruct Hm as [->|[-> _]]; rewrite ?orb_true_r.
  pose proof (ppp_dequeue_keeps sc1) as (Ht2 & Hd2 & _). destruct (ppp_dequeue sc1) as [m' sc2]. simpl in *. subst m'.
  set (sc3 := on_if _ _). rewrite -Ha1 -Ht2. change (sc_asyncmap (sc_tx sc2)) with (sc_asyncmap (sc_tx sc3)).
  apply tx_begin_hands; [by rewrite /sc3 /= Hd2|done|by rewrite /sc3 /= Ht2|done].
Qed.

(** C12: the sending task takes a packet and the driver, however it cuts up what
    it is handed, puts the packet's frame on the line: what has been sent is
    always a beginning of the frame, there is a next call as long as the frame is
    not complete, there are at most as many calls as bytes, and at the end the
    task is told to start the next one. *)
Theorem ppp_frame_is_sent polled m sc n line sc' :
  sc_devp sc = true -> may_begin (sc_tx sc) -> (ppp_dequeue sc).1 = Some m -> sendable_chain m ->
  nsteps (line_step polled) n ([], ppp_txdaemon sc) (line, sc') ->
  let frame := line_frame (sc_asyncmap (sc_tx sc)) (chain_bytes (nonempty_prefix m)) in
  line `prefix_of` frame /\ (n <= length frame)%nat /\
  (line <> frame -> exists line' sc'', line_step polled (line, sc') (line', sc'')) /\
  (line = frame -> TX_TRANSMIT (sc_tx sc') = true /\ has_bits (sc_outflag (sc_tx sc')) SC_TX_BUSY = false).
Proof.
  intros Hd Hm Hq Hs Hn frame. pose proof (ppp_txdaemon_begins polled m sc Hd Hm Hq Hs) as Hu.
  destruct (under_way_runs _ _ _ _ _ _ _ Hu Hn) as (todo & E & Hu' & Hl). simpl in E. fold frame in E, Hl.
  split; [by exists todo|]. split; [lia|]. split.
  - intros Hne. apply (under_way_more _ todo); [done|]. intros ->. by rewrite app_nil_r in E.
  - intros ->. assert (todo = []) as -> by (apply (app_inv_head frame); by rewrite app_nil_r).
    destruct Hu' as [_ [H|(_ & _ & H)]]; [|done]. destruct (handed_write _ _ _ H) as [Hne Htk].
    by rewrite take_nil in Htk.
Qed.
