(* ===== verification/PppReceive.v ===== *)
(** * What the line discipline receives

    The receiver of [ppp_tty.c] one octet at a time: where it is in its buffers,
    what an octet does there, that no octet takes it outside them, and that the
    frames the sender of [PppSend.v] puts on the line come out as the packets
    that were sent. *)

From S2P Require Import Prelude Wire Inet Netif Fcs PppSoftc PppTty PppIf.

(** ** The position in the buffers *)

(** The mbufs in front are done; of the current one the bytes [w] are stored and
    [rest] is the memory behind them; the mbufs [b] are linked behind it. *)
Definition rx_at (f : chain) (w rest : bytes) (fl : Z) (b : chain) (il fcs : Z) (r : rx) : rx :=
  set_sc_m (Some (f ++ Mbuf (w ++ rest) 0 (Z.of_nat (length w)) fl true :: b))
    (set_sc_mc (length f) (set_sc_mp (length w) (set_sc_ilen il (set_sc_fcs fcs r)))).

Lemma on_mc_at g r f m b :
  sc_m r = Some (f ++ m :: b) -> sc_mc r = length f -> on_mc g r = set_sc_m (Some (f ++ g m :: b)) r.
Proof. intros Hm Hc. unfold on_mc. by rewrite Hm Hc list_lookup_middle // insert_app_r_alt // Nat.sub_diag. Qed.

Lemma rx_put_at c r f m b w x rest :
  sc_m r = Some (f ++ m :: b) -> sc_mc r = length f -> m_store m = w ++ x :: rest -> sc_mp r = length w ->
  rx_put c r = set_sc_mp (S (length w)) (set_sc_m (Some (f ++ set_m_store (w ++ u8 c :: rest) m :: b)) r).
Proof.
  intros Hm Hc Hs Hp. unfold rx_put. rewrite Hm /= Hc list_lookup_middle // Hs Hp length_app /=.
  rewrite (proj2 (Nat.ltb_lt _ _)); [lia|].
  by rewrite (on_mc_at _ _ f m b) // /= Hs insert_app_r_alt // Nat.sub_diag.
Qed.

Lemma rx_len_at n r f m b :
  sc_m r = Some (f ++ m :: b) -> sc_mc r = length f ->
  rx_len n r = set_sc_m (Some (f ++ set_m_len (m_len m + n) m :: b)) r.
Proof. intros Hm Hc. unfold rx_len. by rewrite (on_mc_at _ r f m b). Qed.

Lemma rx_store_at c f w x rest fl b il fcs r :
  rx_put c (rx_len 1 (rx_at f w (x :: rest) fl b il fcs r)) = rx_at f (w ++ [u8 c]) rest fl b il fcs r.
Proof.
  rewrite (rx_len_at _ _ f (Mbuf (w ++ x :: rest) 0 (Z.of_nat (length w)) fl true) b) //.
  rewrite (rx_put_at c _ f (Mbuf (w ++ x :: rest) 0 (Z.of_nat (length w) + 1) fl true) b w x rest) //.
  unfold rx_at. rewrite -app_assoc length_app /=. destruct r. cbn.
  by replace (length w + 1)%nat with (S (length w)) by lia; replace (Z.of_nat (length w) + 1) with (Z.of_nat (S (length w))) by lia.
Qed.

(** ** An octet *)

(** The octets that were left out in front of [c], as far as [il] octets are in;
    [None]: [c] has no place there. *)
Definition header_octets (rej : bool) (il c : Z) : option bytes :=
  if (il =? 0) && negb (c =? PPP_ALLSTATIONS) then
    if rej then None else Some (if Z.land c 1 =? 1 then [PPP_ALLSTATIONS; PPP_UI; 0] else [PPP_ALLSTATIONS; PPP_UI])
  else if (il =? 1) && negb (c =? PPP_UI) then None
  else if (il =? 2) && (Z.land c 1 =? 1) then Some [0]
  else if (il =? 3) && (Z.land c 1 =? 0) then None
  else Some [].

(** The receiver is there: in the middle of a frame, or it will begin one in the
    buffer it has. *)
Record rx_ready (f : chain) (w rest : bytes) (fl : Z) (b : chain) (il fcs : Z) (r : rx) (sc : softc) : Prop := {
  rr_range : - 2 ^ 15 <= il < 2 ^ 15;
  rr_room : 0 <= il <= 2 -> (3 <= length rest)%nat;
  rr_at : il <> 0 /\ sc_rx sc = rx_at f w rest fl b il fcs r \/
    il = 0 /\ f = [] /\ w = [] /\ fcs = PPP_INITFCS /\ r = sc_rx sc /\ sc_ilen r = 0 /\
    exists d n, sc_m r = Some (Mbuf rest d n fl true :: b)
}.

(** What an octet does. *)
Definition octet_at (f : chain) (w rest : bytes) (fl : Z) (b : chain) (il fcs : Z) (r : rx) (c : Z) (sc : softc) : softc :=
  match header_octets (has_bits (sc_flags sc) SC_REJ_COMP_AC) il c with
  | None => rx_flush (set_sc_rx (rx_at f w rest fl b il fcs r) sc)
  | Some ins =>
      let il := s16 (il + Z.of_nat (length ins) + 1) in
      let w := w ++ ins in
      let rest := drop (length ins) rest in
      if sc_mru sc + PPP_HDRLEN + PPP_FCSLEN <? il then rx_flush (set_sc_rx (rx_at f w rest fl b il fcs r) sc)
      else
        let next n r :=
          set_sc_rx (rx_at (f ++ [Mbuf w 0 (Z.of_nat (length w)) fl true]) [u8 c] (drop 1 (m_store n)) (m_flags n) [] il
            (PPP_FCS fcs c) r) sc in
        match rest, b, sc_freeq r with
        | _ :: rest, _, _ => set_sc_rx (rx_at f (w ++ [u8 c]) rest fl b il (PPP_FCS fcs c) r) sc
        | [], n :: _, _ => next n r
        | [], [], (n :: _) :: q => next n (set_RX_MBUF true (set_sc_freeq q r))
        | [], [], q => rx_flush (set_sc_rx (rx_at f w [] fl [] il fcs (set_sc_freeq (tail q) r)) sc)
        end
  end.

(** The mbufs the receiver may take next. *)
Definition buffer_ok (ch : chain) : Prop :=
  ch <> [] /\ Forall (fun m => m_writable m = true /\ (8 <= length (m_store m))%nat) ch.

(** The octet at hand is stored, after [rx_count]. *)
Lemma rx_room_store_at c f w rest fl b il fcs r sc :
  Forall (fun m => m_writable m = true /\ (8 <= length (m_store m))%nat) b -> Forall buffer_ok (sc_freeq r) ->
  sc_rx sc = rx_at f w rest fl b il fcs r ->
  match and_then (rx_room sc) (rx_store c) with Next sc => sc | Flushed sc => rx_flush sc end =
  let next n r :=
    set_sc_rx (rx_at (f ++ [Mbuf w 0 (Z.of_nat (length w)) fl true]) [u8 c] (drop 1 (m_store n)) (m_flags n) [] il
      (PPP_FCS fcs c) r) sc in
  match rest, b, sc_freeq r with
  | _ :: rest, _, _ => set_sc_rx (rx_at f (w ++ [u8 c]) rest fl b il (PPP_FCS fcs c) r) sc
  | [], n :: _, _ => next n r
  | [], [], (n :: _) :: q => next n (set_RX_MBUF true (set_sc_freeq q r))
  | [], [], q => rx_flush (set_sc_rx (rx_at f w [] fl [] il fcs (set_sc_freeq (tail q) r)) sc)
  end.
Proof.
  intros Hb Hq Hr. unfold rx_room. rewrite Hr. cbn [sc_m rx_at set_sc_m option_bind sc_mc set_sc_mc].
  assert (Hl : (f ++ Mbuf (w ++ rest) 0 (Z.of_nat (length w)) fl true :: b) !! length f
    = Some (Mbuf (w ++ rest) 0 (Z.of_nat (length w)) fl true)) by by rewrite list_lookup_middle.
  cbn. rewrite Hl. unfold M_TRAILINGSPACE, M_DATASIZE. cbn [m_writable m_store m_data m_len].
  destruct rest as [|x rest].
  2:{ rewrite (proj2 (Z.leb_gt _ _)); [rewrite length_app /=; lia|]. cbn. unfold rx_store, on_rx. rewrite Hr rx_store_at.
      by destruct r. }
  rewrite app_nil_r (proj2 (Z.leb_le _ _)); [lia|].
  assert (Hd : drop (S (length f)) (f ++ Mbuf w 0 (Z.of_nat (length w)) fl true :: b) = b).
  { rewrite drop_app_ge; [lia|]. by replace (S (length f) - length f)%nat with 1%nat by lia. }
  assert (Ht : take (S (length f)) (f ++ Mbuf w 0 (Z.of_nat (length w)) fl true :: b) = f ++ [Mbuf w 0 (Z.of_nat (length w)) fl true]).
  { rewrite take_app_ge; [lia|]. by replace (S (length f) - length f)%nat with 1%nat by lia. }
  assert (Hnext : forall n r', m_writable n = true /\ (8 <= length (m_store n))%nat ->
    rx_put c (rx_len 1 (set_sc_mp 0 (set_sc_mc (S (length f)) (set_sc_m (Some ((f ++ [Mbuf w 0 (Z.of_nat (length w)) fl true]) ++
      [set_m_data 0 (set_m_len 0 n)])) r')))) =
    set_sc_m (Some ((f ++ [Mbuf w 0 (Z.of_nat (length w)) fl true]) ++
      [Mbuf (u8 c :: drop 1 (m_store n)) 0 1 (m_flags n) true])) (set_sc_mc (S (length f)) (set_sc_mp 1 r'))).
  { intros [st d l fl' wr] r' [Hw Hst]. cbn in Hw, Hst. subst wr. destruct st as [|x st]; [simpl in Hst; lia|]. cbn [set_m_data set_m_len m_store m_flags m_writable drop].
    rewrite (rx_len_at _ _ (f ++ [Mbuf w 0 (Z.of_nat (length w)) fl true]) (Mbuf (x :: st) 0 0 fl' true) []) //; [rewrite length_app /=; lia|].
    rewrite (rx_put_at c _ (f ++ [Mbuf w 0 (Z.of_nat (length w)) fl true]) (Mbuf (x :: st) 0 1 fl' true) [] [] x st) //.
    rewrite length_app /=; lia. }
  rewrite Hd. destruct b as [|n b].
  - destruct (sc_freeq r) as [|[|n ch] q] eqn:Eq; cbn [dequeue tail].
    + unfold on_rx. by rewrite Hr.
    + apply Forall_cons_1 in Hq as [[Hne _] _]. done.
    + apply Forall_cons_1 in Hq as [[_ Hch] _]. apply Forall_cons_1 in Hch as [Hn _].
      cbn. unfold rx_store, on_rx. cbn [sc_rx set_sc_rx set_sc_mc sc_mc]. rewrite Hr. cbn [rx_at set_sc_m set_sc_mc set_sc_mp set_sc_ilen set_sc_fcs sc_mc set_RX_MBUF set_sc_freeq]. rewrite Ht Hnext //.
      unfold rx_at. rewrite length_app. cbn. replace (length f + 1)%nat with (S (length f)) by lia. by destruct sc, r.
  - apply Forall_cons_1 in Hb as [Hn _]. cbn. unfold rx_store, on_rx. cbn [sc_rx set_sc_rx]. rewrite Hr. cbn [rx_at set_sc_m set_sc_mc set_sc_mp set_sc_ilen set_sc_fcs sc_mc].
    rewrite Ht Hnext //. unfold rx_at. rewrite length_app. cbn. replace (length f + 1)%nat with (S (length f)) by lia.
    by destruct sc, r.
Qed.

Lemma rx_at_eq f w w' rest rest' fl b il il' fcs r :
  w = w' -> rest = rest' -> il = il' -> rx_at f w rest fl b il fcs r = rx_at f w' rest' fl b il' fcs r.
Proof. by intros -> -> ->. Qed.

Lemma sc_ilen_at f w rest fl b il fcs r : sc_ilen (rx_at f w rest fl b il fcs r) = il.
Proof. done. Qed.

(** Address and control are put in. *)
Lemma rx_insert2_at f w x y rest fl b il fcs r :
  let r0 := rx_put PPP_UI (rx_put PPP_ALLSTATIONS (rx_at f w (x :: y :: rest) fl b il fcs r)) in
  rx_len 2 (set_sc_ilen (s16 (sc_ilen r0 + 2)) r0) =
  rx_at f (w ++ [PPP_ALLSTATIONS; PPP_UI]) rest fl b (s16 (il + 2)) fcs r.
Proof.
  intros r0. unfold r0.
  rewrite (rx_put_at PPP_ALLSTATIONS _ f (Mbuf (w ++ x :: y :: rest) 0 (Z.of_nat (length w)) fl true) b w x (y :: rest)) //.
  rewrite (rx_put_at PPP_UI _ f (Mbuf (w ++ [PPP_ALLSTATIONS] ++ y :: rest) 0 (Z.of_nat (length w)) fl true) b
    (w ++ [PPP_ALLSTATIONS]) y rest) // ?length_app /=; [by rewrite -app_assoc|lia|].
  rewrite (rx_len_at _ _ f (Mbuf ((w ++ [PPP_ALLSTATIONS]) ++ PPP_UI :: rest) 0 (Z.of_nat (length w)) fl true) b) //.
  unfold rx_at. cbn. rewrite length_app /= -!app_assoc /=. destruct r. cbn.
  by replace (S (length w + 1)) with (length w + 2)%nat by lia; replace (Z.of_nat (length w) + 2) with (Z.of_nat (length w + 2)) by lia.
Qed.

Lemma rx_insert1_at f w x rest fl b il fcs r :
  let r0 := rx_put 0 (rx_at f w (x :: rest) fl b il fcs r) in
  rx_len 1 (set_sc_ilen (s16 (sc_ilen r0 + 1)) r0) = rx_at f (w ++ [0]) rest fl b (s16 (il + 1)) fcs r.
Proof.
  intros r0. unfold r0.
  rewrite (rx_put_at 0 _ f (Mbuf (w ++ x :: rest) 0 (Z.of_nat (length w)) fl true) b w x rest) //.
  rewrite (rx_len_at _ _ f (Mbuf (w ++ 0 :: rest) 0 (Z.of_nat (length w)) fl true) b) //.
  unfold rx_at. cbn. rewrite length_app /= -!app_assoc /=. destruct r. cbn.
  by replace (length w + 1)%nat with (S (length w)) by lia; replace (Z.of_nat (length w) + 1) with (Z.of_nat (S (length w))) by lia.
Qed.

Lemma rx_start_ready c f w rest fl b il fcs r sc :
  rx_ready f w rest fl b il fcs r sc ->
  rx_start c sc =
  if (il =? 0) && negb (c =? PPP_ALLSTATIONS) then
    if has_bits (sc_flags sc) SC_REJ_COMP_AC then Flushed (set_sc_rx (rx_at f w rest fl b il fcs r) sc)
    else Next (set_sc_rx (rx_at f (w ++ [PPP_ALLSTATIONS; PPP_UI]) (drop 2 rest) fl b 2 fcs r) sc)
  else Next (set_sc_rx (rx_at f w rest fl b il fcs r) sc).
Proof.
  intros [Hrange Hroom [[Hne Hr]|(-> & -> & -> & -> & -> & Hi & d & n & Hm)]]; unfold rx_start.
  - rewrite Hr sc_ilen_at (proj2 (Z.eqb_neq _ _) Hne) /= -Hr. by destruct sc.
  - rewrite Hi. cbn [Z.eqb andb]. set (sc1 := on_rx _ sc).
    assert (H1 : sc1 = set_sc_rx (rx_at [] [] rest fl b 0 PPP_INITFCS (sc_rx sc)) sc).
    { unfold sc1, on_rx. rewrite (on_mc_at _ _ [] (Mbuf rest d n fl true) b) //. f_equal. destruct (sc_rx sc). cbn in *. by subst. }
    rewrite H1. destruct (c =? PPP_ALLSTATIONS); [done|]. cbn [negb sc_flags set_sc_rx].
    destruct (has_bits (sc_flags sc) SC_REJ_COMP_AC); [done|].
    destruct rest as [|x [|y rest]]; try (simpl in Hroom; lia). reflexivity.
Qed.

Lemma s16_id z : - 2 ^ 15 <= z < 2 ^ 15 -> s16 z = z.
Proof. intros Hz. unfold s16. rewrite Z.mod_small; lia. Qed.

Lemma s16_range z : - 2 ^ 15 <= s16 z < 2 ^ 15.
Proof. unfold s16. pose proof (Z.mod_pos_bound (z + 2 ^ 15) (2 ^ 16)). lia. Qed.

(** What [pppinput] does with an octet. *)
Lemma rx_octet_at c f w rest fl b il fcs r sc :
  Forall (fun m => m_writable m = true /\ (8 <= length (m_store m))%nat) b -> Forall buffer_ok (sc_freeq r) ->
  rx_ready f w rest fl b il fcs r sc -> rx_octet c sc = octet_at f w rest fl b il fcs r c sc.
Proof.
  intros Hb Hq Hrdy. pose proof (rr_range _ _ _ _ _ _ _ _ _ Hrdy) as Hrange. pose proof (rr_room _ _ _ _ _ _ _ _ _ Hrdy) as Hroom.
  assert (Hlast : forall w' rest' il' k, il' = s16 (il + Z.of_nat k) ->
    match and_then (and_then (rx_count (set_sc_rx (rx_at f w' rest' fl b il' fcs r) sc)) rx_room) (rx_store c)
      with Next sc => sc | Flushed sc => rx_flush sc end =
    let il := s16 (il' + 1) in
    if sc_mru sc + PPP_HDRLEN + PPP_FCSLEN <? il then rx_flush (set_sc_rx (rx_at f w' rest' fl b il fcs r) sc)
    else
      let next n r :=
        set_sc_rx (rx_at (f ++ [Mbuf w' 0 (Z.of_nat (length w')) fl true]) [u8 c] (drop 1 (m_store n)) (m_flags n) [] il
          (PPP_FCS fcs c) r) sc in
      match rest', b, sc_freeq r with
      | _ :: rest, _, _ => set_sc_rx (rx_at f (w' ++ [u8 c]) rest fl b il (PPP_FCS fcs c) r) sc
      | [], n :: _, _ => next n r
      | [], [], (n :: _) :: q => next n (set_RX_MBUF true (set_sc_freeq q r))
      | [], [], q => rx_flush (set_sc_rx (rx_at f w' [] fl [] il fcs (set_sc_freeq (tail q) r)) sc)
      end).
  { intros w' rest' il' k _. unfold rx_count. set (sc1 := on_rx _ _).
    assert (H1 : sc1 = set_sc_rx (rx_at f w' rest' fl b (s16 (il' + 1)) fcs r) sc) by by destruct sc, r.
    rewrite H1. cbn [sc_mru set_sc_rx sc_rx]. rewrite sc_ilen_at. cbn zeta.
    destruct (sc_mru sc + PPP_HDRLEN + PPP_FCSLEN <? s16 (il' + 1)); [done|].
    cbn [and_then]. by rewrite (rx_room_store_at c f w' rest' fl b (s16 (il' + 1)) fcs r). }
  unfold rx_octet, octet_at, header_octets. rewrite (rx_start_ready c f w rest fl b il fcs r sc Hrdy).
  destruct (Z.eqb_spec il 0) as [->|H0]; [destruct (c =? PPP_ALLSTATIONS) eqn:Ec|]; cbn [andb negb].
  - cbn [and_then]. unfold rx_control, rx_protocol. cbn [sc_rx set_sc_rx]. rewrite !sc_ilen_at. cbn [Z.eqb andb].
    rewrite (Hlast w rest 0 0%nat) //. cbn [length drop]. by rewrite app_nil_r.
  - destruct (has_bits (sc_flags sc) SC_REJ_COMP_AC); [done|]. cbn [and_then]. unfold rx_control, rx_protocol.
    cbn [sc_rx set_sc_rx]. rewrite !sc_ilen_at. cbn [Z.eqb Pos.eqb andb and_then].
    destruct (Z.land c 1 =? 1) eqn:Eo.
    + destruct rest as [|x [|y [|z rest]]]; try (simpl in Hroom; lia). cbn [drop on_rx set_sc_rx sc_rx].
      unfold on_rx. cbn [set_sc_rx sc_rx]. rewrite rx_insert1_at. cbn [sc_rx set_sc_rx]. rewrite !sc_ilen_at.
      rewrite (proj2 (Z.eqb_neq (Z.land c 1) 0)); [apply Z.eqb_eq in Eo; lia|]. rewrite andb_false_r. cbn [and_then].
      rewrite (Hlast _ _ (s16 (2 + 1)) 3%nat) // -app_assoc. done.
    + unfold on_rx. cbn [sc_rx set_sc_rx]. rewrite !sc_ilen_at. cbn [Z.eqb Pos.eqb andb and_then].
      rewrite (Hlast _ _ 2 2%nat) //.
  - cbn [and_then]. unfold rx_control, rx_protocol. cbn [sc_rx set_sc_rx]. rewrite !sc_ilen_at.
    destruct ((il =? 1) && negb (c =? PPP_UI)) eqn:E1; [done|]. cbn [and_then].
    unfold rx_protocol. cbn [sc_rx set_sc_rx]. rewrite !sc_ilen_at.
    destruct (Z.eqb_spec il 2) as [->|H2]; [destruct (Z.land c 1 =? 1) eqn:Eo|]; cbn [andb].
    + destruct rest as [|x rest]; try (simpl in Hroom; lia). unfold on_rx. cbn [set_sc_rx sc_rx].
      rewrite rx_insert1_at. cbn [sc_rx set_sc_rx]. rewrite !sc_ilen_at.
      rewrite (proj2 (Z.eqb_neq (Z.land c 1) 0)); [apply Z.eqb_eq in Eo; lia|]. rewrite andb_false_r. cbn [and_then].
      rewrite (Hlast _ _ (s16 (2 + 1)) 1%nat) //.
    + cbn [Z.eqb Pos.eqb sc_rx set_sc_rx]. rewrite sc_ilen_at. cbn [Z.eqb Pos.eqb andb and_then].
      rewrite (Hlast _ _ 2 0%nat) //. cbn [length drop]. by rewrite app_nil_r.
    + cbn [sc_rx set_sc_rx]. rewrite sc_ilen_at. destruct ((il =? 3) && (Z.land c 1 =? 0)); [done|]. cbn [and_then].
      rewrite (Hlast _ _ il 0%nat); [by rewrite Z.add_0_r s16_id|]. cbn [length drop]. by rewrite app_nil_r Z.add_0_r.
Qed.

(** ** No octet takes the receiver outside its buffers *)

Definition full (m : mbuf) : Prop := exists w fl, m = Mbuf w 0 (Z.of_nat (length w)) fl true /\ w <> [].

(** In the middle of a frame; unless the frame is being thrown away, what is
    stored are the octets that were counted. *)
Definition rx_inside (sc : softc) : Prop :=
  exists f w rest fl b fcs r,
    let il := sc_ilen (sc_rx sc) in
    sc_rx sc = rx_at f w rest fl b il fcs r /\ - 2 ^ 15 <= il < 2 ^ 15 /\
    (1 <= il <= 2 -> f = [] /\ Z.of_nat (length w) <= il) /\
    (has_bits (sc_flags sc) SC_FLUSH = false ->
      Forall full f /\ w <> [] /\ il = Z.of_nat (length (chain_bytes f ++ w)) /\ il <= 2 ^ 14 + 6).

Record rx_inv (sc : softc) : Prop := {
  ri_fault : rx_fault (sc_rx sc) = false;
  ri_free : Forall buffer_ok (sc_freeq (sc_rx sc));
  ri_raw : Forall buffer_ok (sc_rawq (sc_rx sc));
  ri_m : forall ch, sc_m (sc_rx sc) = Some ch -> buffer_ok ch;
  ri_mru : 1500 <= sc_mru sc <= 2 ^ 14;
  ri_inside : sc_devp sc = true -> sc_ilen (sc_rx sc) <> 0 -> rx_inside sc
}.

Lemma buffer_ok_at f w rest fl b :
  buffer_ok (f ++ Mbuf (w ++ rest) 0 (Z.of_nat (length w)) fl true :: b) <->
  Forall (fun m => m_writable m = true /\ (8 <= length (m_store m))%nat) f /\ (8 <= length w + length rest)%nat /\
  Forall (fun m => m_writable m = true /\ (8 <= length (m_store m))%nat) b.
Proof.
  unfold buffer_ok. rewrite Forall_app Forall_cons_iff /= length_app. split; [tauto|].
  intros (? & ? & ?). split; [by destruct f|tauto].
Qed.

Lemma full_chain_bytes w fl : chain_bytes [Mbuf w 0 (Z.of_nat (length w)) fl true] = w.
Proof. by rewrite /chain_bytes /= /m_bytes /mtod /= Nat2Z.id firstn_all app_nil_r. Qed.

Lemma chain_bytes_app c c' : chain_bytes (c ++ c') = chain_bytes c ++ chain_bytes c'.
Proof. by rewrite /chain_bytes map_app concat_app. Qed.

(** Flags other than [SC_FLUSH] have nothing to do with it. *)
Definition same_rx (sc sc' : softc) : Prop :=
  sc_rx sc' = sc_rx sc /\ sc_mru sc' = sc_mru sc /\ sc_devp sc' = sc_devp sc /\
  has_bits (sc_flags sc') SC_FLUSH = has_bits (sc_flags sc) SC_FLUSH.

Lemma same_rx_inv sc sc' : same_rx sc sc' -> rx_inv sc -> rx_inv sc'.
Proof.
  intros (Hr & Hm & Hd & Hf) Hi. split; rewrite ?Hr ?Hm ?Hd; try by apply Hi.
  intros H1 H2. unfold rx_inside. rewrite Hr Hf. by apply Hi.
Qed.

Lemma rx_ready_inside sc ch :
  rx_inv sc -> sc_devp sc = true -> sc_m (sc_rx sc) = Some ch ->
  exists f w rest fl b fcs r,
    rx_ready f w rest fl b (sc_ilen (sc_rx sc)) fcs r sc /\ buffer_ok (f ++ Mbuf (w ++ rest) 0 (Z.of_nat (length w)) fl true :: b) /\
    rx_fault r = false /\ Forall buffer_ok (sc_freeq r) /\ Forall buffer_ok (sc_rawq r) /\
    (1 <= sc_ilen (sc_rx sc) <= 2 -> f = [] /\ Z.of_nat (length w) <= sc_ilen (sc_rx sc)) /\
    (sc_ilen (sc_rx sc) = 0 -> f = [] /\ w = []) /\ 
    (has_bits (sc_flags sc) SC_FLUSH = false ->
      Forall full f /\ sc_ilen (sc_rx sc) = Z.of_nat (length (chain_bytes f ++ w)) /\ sc_ilen (sc_rx sc) <= 2 ^ 14 + 6).
Proof.
  intros Hi Hd Hm. pose proof (ri_m _ Hi _ Hm) as Hb. destruct (decide (sc_ilen (sc_rx sc) = 0)) as [H0|Hne].
  - destruct ch as [|[st d l fl wr] b]; [by destruct Hb|]. pose proof Hb as [_ Hb']. apply Forall_cons_1 in Hb' as [[Hw Hl] Hb'].
    simpl in Hw, Hl. subst wr. exists [], [], st, fl, b, PPP_INITFCS, (sc_rx sc). rewrite H0.
    split; [split; [lia|lia|right; repeat split; eauto]|]. split; [by apply (buffer_ok_at [] [] st)|].
    split; [by apply ri_fault|]. split; [by apply ri_free|]. split; [by apply ri_raw|].
    split; [simpl; lia|]. split; [done|]. intros _. split; [constructor|]. simpl. lia.
  - destruct (ri_inside _ Hi Hd Hne) as (f & w & rest & fl & b & fcs & r & Hr & Hrg & Hs & Hf).
    assert (Hb' : buffer_ok (f ++ Mbuf (w ++ rest) 0 (Z.of_nat (length w)) fl true :: b)).
    { apply (ri_m _ Hi). by rewrite Hr. }
    exists f, w, rest, fl, b, fcs, r. split; [|split; [done|]].
    + split; [done| |by left]. intros Hil. destruct (Hs ltac:(lia)) as [-> Hl]. cbn zeta in Hl. apply buffer_ok_at in Hb' as (_ & Hl' & _). lia.
    + pose proof (ri_fault _ Hi) as H1. pose proof (ri_free _ Hi) as H2. pose proof (ri_raw _ Hi) as H3.
      rewrite Hr in H1, H2, H3. split; [done|]. split; [done|]. split; [done|]. split; [exact Hs|].
      split; [lia|]. intros Hf'. destruct (Hf Hf') as (? & ? & ? & ?). done.
Qed.

(** A position that is inside the buffers. *)
Record inside_at (flush : bool) (mru : Z) (f : chain) (w rest : bytes) (fl : Z) (b : chain) (il : Z) (r : rx) : Prop := {
  ia_buffer : buffer_ok (f ++ Mbuf (w ++ rest) 0 (Z.of_nat (length w)) fl true :: b);
  ia_fault : rx_fault r = false;
  ia_free : Forall buffer_ok (sc_freeq r);
  ia_raw : Forall buffer_ok (sc_rawq r);
  ia_mru : 1500 <= mru <= 2 ^ 14;
  ia_range : - 2 ^ 15 <= il < 2 ^ 15;
  ia_start : 1 <= il <= 2 -> f = [] /\ Z.of_nat (length w) <= il;
  ia_count : flush = false -> il <> 0 ->
    Forall full f /\ w <> [] /\ il = Z.of_nat (length (chain_bytes f ++ w)) /\ il <= 2 ^ 14 + 6
}.

Lemma inside_at_inv f w rest fl b il fcs r sc :
  inside_at (has_bits (sc_flags sc) SC_FLUSH) (sc_mru sc) f w rest fl b il r ->
  rx_inv (set_sc_rx (rx_at f w rest fl b il fcs r) sc).
Proof.
  intros [H1 H2 H3 H4 H5 H6 H7 H8]. split; try done; [by intros ? [= <-]|].
  intros _ Hne. exists f, w, rest, fl, b, fcs, r. cbn zeta. rewrite sc_ilen_at. split; [done|].
  split; [done|]. split; [done|]. intros Hf. by apply H8.
Qed.

Lemma inside_at_flush f w rest fl b il fcs r sc :
  inside_at true (sc_mru sc) f w rest fl b il r -> rx_inv (rx_flush (set_sc_rx (rx_at f w rest fl b il fcs r) sc)).
Proof.
  intros H. unfold rx_flush. cbn [sc_flags set_sc_rx]. destruct (has_bits (sc_flags sc) SC_FLUSH) eqn:E; cbn [negb].
  - apply inside_at_inv. by rewrite E.
  - apply (inside_at_inv f w rest fl b il fcs r (raise_flag SC_FLUSH (rx_error sc))).
    replace (has_bits _ SC_FLUSH) with true; [done|]. change (sc_flags _) with (Z.lor (sc_flags sc) SC_FLUSH). by flag_simpl.
Qed.

Lemma header_octets_length rej il c ins :
  header_octets rej il c = Some ins ->
  (length ins <= 3)%nat /\ (0 < Z.of_nat (length ins) -> 0 <= il <= 2) /\ (il = 0 -> length ins <> 1%nat).
Proof.
  unfold header_octets. intros H. repeat case_match; simplify_eq; simpl; lia.
Qed.

Lemma octet_at_inv c f w rest fl b il fcs r sc :
  byte_ok c -> inside_at (has_bits (sc_flags sc) SC_FLUSH) (sc_mru sc) f w rest fl b il r ->
  (0 <= il <= 2 -> (3 <= length rest)%nat) -> (il = 0 -> f = [] /\ w = []) ->
  rx_inv (octet_at f w rest fl b il fcs r c sc).
Proof.
  intros Hc H Hroom Hzero. unfold octet_at.
  assert (Hfl : forall w rest il r', (rx_fault r' = false /\ Forall buffer_ok (sc_freeq r') /\ Forall buffer_ok (sc_rawq r')) ->
    buffer_ok (f ++ Mbuf (w ++ rest) 0 (Z.of_nat (length w)) fl true :: b) ->
    - 2 ^ 15 <= il < 2 ^ 15 -> (1 <= il <= 2 -> f = [] /\ Z.of_nat (length w) <= il) ->
    rx_inv (rx_flush (set_sc_rx (rx_at f w rest fl b il fcs r') sc))).
  { intros w' rest' il' r' (? & ? & ?) Hb Hrg Hst. apply inside_at_flush. split; try done. apply H. }
  destruct (header_octets _ il c) as [ins|] eqn:Eh.
  2:{ apply Hfl; try apply H. split; [apply H|]. split; apply H. }
  destruct (header_octets_length _ _ _ _ Eh) as (Hi3 & Hi2 & Hi1).
  pose proof (ia_range _ _ _ _ _ _ _ _ _ H) as Hrg. pose proof (ia_mru _ _ _ _ _ _ _ _ _ H) as Hmru.
  cbn zeta. set (il1 := s16 (il + Z.of_nat (length ins) + 1)).
  assert (Hins : (length ins <= length rest)%nat) by (destruct (decide (length ins = 0%nat)); lia).
  assert (Hstart : 1 <= il1 <= 2 -> f = [] /\ Z.of_nat (length (w ++ ins)) + 1 <= il1).
  { intros Hil. rewrite length_app. assert (Hz : il1 = il + Z.of_nat (length ins) + 1).
    { unfold il1. destruct (Z.lt_ge_cases (il + Z.of_nat (length ins) + 1) (2 ^ 15)); [apply s16_id; lia|]. exfalso.
      unfold il1, s16 in Hil. rewrite (Z.mod_eq _ (2 ^ 16)) // in Hil. 
      replace ((il + Z.of_nat (length ins) + 1 + 2 ^ 15) / 2 ^ 16) with 1 in Hil; [lia|]. apply Z.div_unique with (il + Z.of_nat (length ins) + 1 - 2 ^ 15); lia. }
    destruct (decide (il = 0)) as [H0|H0]; [destruct (Hzero H0) as [-> ->]; split; [done|]; simpl; lia|].
    destruct (ia_start _ _ _ _ _ _ _ _ _ H) as [-> Hw]; [lia|]. split; [done|]. lia. }
  assert (Hr1 : - 2 ^ 15 <= il1 < 2 ^ 15) by apply s16_range.
  pose proof (proj1 (buffer_ok_at f w rest fl b) (ia_buffer _ _ _ _ _ _ _ _ _ H)) as (Hf & H8 & Hb).
  assert (Hsize : (8 <= length (w ++ ins) + length (drop (length ins) rest))%nat) by (rewrite length_app length_drop; lia).
  assert (Hr : rx_fault r = false /\ Forall buffer_ok (sc_freeq r) /\ Forall buffer_ok (sc_rawq r)) by (split; [|split]; apply H).
  destruct (Z.ltb_spec (sc_mru sc + PPP_HDRLEN + PPP_FCSLEN) il1) as [Hbig|Hsmall].
  { apply Hfl; [done|by apply buffer_ok_at|done|]. intros Hil. destruct (Hstart Hil) as [-> Hw]. split; [done|lia]. }
  assert (Hcount : has_bits (sc_flags sc) SC_FLUSH = false ->
    Forall full f /\ il1 = Z.of_nat (length (chain_bytes f ++ (w ++ ins) ++ [u8 c])) /\ il1 <= 2 ^ 14 + 6).
  { intros Hfu. assert (Hil : Forall full f /\ il = Z.of_nat (length (chain_bytes f ++ w)) /\ il <= 2 ^ 14 + 6).
    { destruct (decide (il = 0)) as [->|Hne]; [by destruct (Hzero eq_refl) as [-> ->]|].
      by destruct (ia_count _ _ _ _ _ _ _ _ _ H Hfu Hne) as (? & _ & ? & ?). }
    destruct Hil as (Hff & Hil & Hle). split; [done|]. split; [|unfold PPP_HDRLEN, PPP_FCSLEN in Hsmall; lia].
    unfold il1. rewrite s16_id; [lia|]. rewrite Hil !length_app /=. lia. }
  assert (Hnext : forall n r', m_writable n = true /\ (8 <= length (m_store n))%nat -> drop (length ins) rest = [] ->
    (rx_fault r' = false /\ Forall buffer_ok (sc_freeq r') /\ Forall buffer_ok (sc_rawq r')) ->
    rx_inv (set_sc_rx (rx_at (f ++ [Mbuf (w ++ ins) 0 (Z.of_nat (length (w ++ ins))) fl true]) [u8 c] (drop 1 (m_store n))
      (m_flags n) [] il1 (PPP_FCS fcs c) r') sc)).
  { intros n r' [Hn1 Hn2] Hd (Hr'1 & Hr'2 & Hr'3). rewrite Hd /= Nat.add_0_r in Hsize. apply inside_at_inv. split; try done.
    - apply buffer_ok_at. rewrite Forall_app length_drop /=. split; [|split; [lia|done]]. split; [done|]. by repeat constructor.
    - intros Hil. destruct (Hstart Hil) as [_ ?]. lia.
    - intros Hfu _. destruct (Hcount Hfu) as (Hff & Hil & Hle). split; [|split; [done|]].
      + apply Forall_app; split; [done|]. constructor; [|constructor]. eexists _, _. split; [done|]. intros E.
        rewrite E in Hsize. simpl in Hsize. lia.
      + split; [|done]. by rewrite chain_bytes_app full_chain_bytes -app_assoc. }
  destruct (drop (length ins) rest) as [|x rest2] eqn:Ed.
  - destruct b as [|n b].
    + destruct (sc_freeq r) as [|[|n ch] q] eqn:Eq.
      * apply Hfl; [by destruct r; cbn in *; subst|by apply (buffer_ok_at f (w ++ ins) [])|done|].
        intros Hil. destruct (Hstart Hil) as [-> Hw]. split; [done|lia].
      * destruct Hr as (_ & Hq & _). apply Forall_cons_1 in Hq as [[? _] _]. done.
      * destruct Hr as (Hft & Hq & Hraw). apply Forall_cons_1 in Hq as [[_ Hch] Hq]. apply Forall_cons_1 in Hch as [Hn _].
        apply Hnext; [done|done|by destruct r].
    + apply Forall_cons_1 in Hb as [Hn _]. by apply Hnext.
  - apply inside_at_inv. simpl in Hsize. split; try tauto; try done.
    + apply buffer_ok_at. rewrite length_app /=. split; [done|]. split; [lia|done].
    + intros Hil. destruct (Hstart Hil) as [-> Hw]. split; [done|]. rewrite length_app /=. lia.
    + intros Hfu _. destruct (Hcount Hfu) as (? & ? & ?). split; [done|]. split; [by destruct (w ++ ins)|done].
Qed.

Lemma rx_octet_inv c sc :
  byte_ok c -> rx_inv sc -> sc_devp sc = true -> sc_m (sc_rx sc) <> None -> rx_inv (rx_octet c sc).
Proof.
  intros Hc Hi Hd Hm. destruct (sc_m (sc_rx sc)) as [ch|] eqn:Em; [|done].
  destruct (rx_ready_inside sc ch Hi Hd Em) as (f & w & rest & fl & b & fcs & r & Hrdy & Hb & Hft & Hq & Hraw & Hst & H0 & Hcnt).
  pose proof (proj1 (buffer_ok_at f w rest fl b) Hb) as (_ & _ & Hb').
  rewrite (rx_octet_at c f w rest fl b _ fcs r sc Hb' Hq Hrdy). apply octet_at_inv; [done| |apply Hrdy|done].
  split; try done; [apply Hi|apply Hrdy|]. intros Hfu Hne.
  destruct (Hcnt Hfu) as (? & ? & ?). split; [done|]. split; [|done].
  destruct (rr_at _ _ _ _ _ _ _ _ _ Hrdy) as [[_ Hat]|[? _]]; [|done].
  destruct (ri_inside _ Hi Hd Hne) as (f' & w' & rest' & fl' & b' & fcs' & r' & Hat' & _ & _ & Hf').
  destruct (Hf' Hfu) as (_ & Hw' & _). rewrite Hat in Hat'. intros ->. apply (f_equal sc_mp) in Hat'. simpl in Hat'.
  by destruct w'.
Qed.

(** ** The end of a frame *)

Lemma m_bytes_cut w rest fl n :
  (n <= length w)%nat -> m_bytes (Mbuf (w ++ rest) 0 (Z.of_nat n) fl true) = take n w.
Proof. intros Hn. rewrite /m_bytes /mtod /= Nat2Z.id take_app_le //. Qed.

(** The data of an mbuf are in its store. *)
Definition fits (m : mbuf) : Prop := 0 <= m_len m /\ (m_data m + Z.to_nat (m_len m) <= length (m_store m))%nat.

(** The check sequence is taken off: what was stored is left without its last two
    octets, in front of the mbufs that were behind. *)
Lemma rx_trim_at f w rest fl b il fcs r :
  Forall full f -> w <> [] -> (3 <= length (chain_bytes f ++ w))%nat ->
  buffer_ok (f ++ Mbuf (w ++ rest) 0 (Z.of_nat (length w)) fl true :: b) ->
  exists f' k, rx_trim (rx_at f w rest fl b il fcs r) = set_sc_mc k (set_sc_m (Some (f' ++ b)) (rx_at f w rest fl b il fcs r)) /\
    chain_bytes f' = take (length (chain_bytes f ++ w) - 2) (chain_bytes f ++ w) /\ buffer_ok (f' ++ b) /\
    length f' = S (length f) /\ Forall fits f'.
Proof.
  intros Hf Hw Hlen Hb. unfold rx_trim.
  set (r1 := set_sc_m (Some (f ++ Mbuf (w ++ rest) 0 (Z.of_nat (length w) + -1) fl true :: b)) (rx_at f w rest fl b il fcs r)).
  assert (E1 : rx_len (-1) (rx_at f w rest fl b il fcs r) = r1).
  { by rewrite (rx_len_at (-1) _ f (Mbuf (w ++ rest) 0 (Z.of_nat (length w)) fl true) b). }
  rewrite E1.
  assert (Hl : (f ++ Mbuf (w ++ rest) 0 (Z.of_nat (length w) + -1) fl true :: b) !! length f
    = Some (Mbuf (w ++ rest) 0 (Z.of_nat (length w) + -1) fl true)) by by rewrite list_lookup_middle.
  change (sc_m r1) with (Some (f ++ Mbuf (w ++ rest) 0 (Z.of_nat (length w) + -1) fl true :: b)).
  change (sc_mc r1) with (length f). cbn [mbind option_bind]. rewrite Hl. cbn [m_len].
  pose proof (proj1 (buffer_ok_at _ _ _ _ _) Hb) as (Hbf & H8 & Hbb).
  assert (Hfits : Forall fits f).
  { eapply Forall_impl; [|exact Hf]. intros m (w0 & fl0 & -> & _). split; simpl; lia. }
  destruct (Z.eqb_spec (Z.of_nat (length w) + -1) 0) as [H1|H1].
  - destruct f as [|m0 f0 _] using rev_ind; [simpl in Hlen; lia|]. apply Forall_app in Hf as [Hf0 [(w0 & fl0 & -> & Hw0) _]%Forall_cons_1].
    rewrite length_app Nat.add_1_r. set (m1 := Mbuf (w ++ rest) 0 (Z.of_nat (length w) + -1) fl true).
    rewrite (rx_len_at (-1) _ f0 (Mbuf w0 0 (Z.of_nat (length w0)) fl0 true) (m1 :: b)); [by rewrite /r1 /= -app_assoc|done|].
    exists (f0 ++ [Mbuf w0 0 (Z.of_nat (length w0 - 1)) fl0 true; m1]), (length f0).
    assert (Hlw : (1 <= length w0)%nat) by (destruct w0; [done|simpl; lia]).
    split; [|split; [|split]].
    + unfold r1. rewrite -(app_assoc f0 [_; m1] b). by replace (Z.of_nat (length w0 - 1)) with (Z.of_nat (length w0) + -1) by lia.
    + rewrite !chain_bytes_app full_chain_bytes. unfold chain_bytes at 2. cbn [map concat]. unfold m1.
      replace (Z.of_nat (length w) + -1) with (Z.of_nat 0) by lia. rewrite m_bytes_cut; [lia|].
      rewrite take_0 !app_nil_r -{1}(app_nil_r w0) m_bytes_cut; [lia|]. rewrite !length_app -!app_assoc.
      replace (length (chain_bytes f0) + length w0 + length w - 2)%nat with (length (chain_bytes f0) + (length w0 - 1))%nat by lia.
      rewrite take_app_add // take_app_le //. lia.
    + unfold buffer_ok in *. split; [by destruct f0|]. apply Forall_app in Hbf as [Hbf0 [Hbm _]%Forall_cons_1].
      rewrite -app_assoc. apply Forall_app. split; [done|]. constructor; [done|]. constructor; [|done]. by rewrite /= length_app.
    + rewrite !length_app /=. split; [lia|]. apply Forall_app in Hfits as [Hfits _]. apply Forall_app. split; [done|].
      repeat constructor; simpl; rewrite ?length_app; lia.
  - rewrite (rx_len_at (-1) _ f (Mbuf (w ++ rest) 0 (Z.of_nat (length w) + -1) fl true) b) //.
    assert (Hlw : (2 <= length w)%nat) by (destruct w as [|? [|]]; simpl in *; [done|lia|lia]).
    exists (f ++ [Mbuf (w ++ rest) 0 (Z.of_nat (length w - 2)) fl true]), (length f). split; [|split; [|split]].
    + unfold r1. rewrite -app_assoc. by replace (Z.of_nat (length w - 2)) with (Z.of_nat (length w) + -1 + -1) by lia.
    + rewrite chain_bytes_app. unfold chain_bytes at 2. cbn [map concat]. rewrite app_nil_r m_bytes_cut; [lia|]. rewrite length_app.
      replace (length (chain_bytes f) + length w - 2)%nat with (length (chain_bytes f) + (length w - 2))%nat by lia.
      by rewrite take_app_add.
    + rewrite -app_assoc. unfold buffer_ok. split; [by destruct f|]. apply Forall_app. split; [done|]. constructor; [|done].
      by rewrite /= length_app.
    + rewrite length_app /=. split; [lia|]. apply Forall_app. split; [done|]. repeat constructor; simpl; rewrite ?length_app; lia.
Qed.

Lemma mark_lost_bytes ch : chain_bytes (mark_lost ch) = chain_bytes ch.
Proof. by destruct ch. Qed.

Lemma mark_lost_ok ch : buffer_ok ch -> buffer_ok (mark_lost ch).
Proof. destruct ch as [|m ch]; [done|]. intros [_ [Hm Hch]%Forall_cons_1]. split; [done|]. by constructor. Qed.

Lemma mark_lost_same ch : Forall fits ch -> Forall fits (mark_lost ch) /\ length (mark_lost ch) = length ch.
Proof. destruct ch as [|m ch]; [done|]. intros [Hm Hch]%Forall_cons_1. split; [by constructor|done]. Qed.

Lemma mark_lost_app m ch b : mark_lost ((m :: ch) ++ b) = mark_lost (m :: ch) ++ b.
Proof. done. Qed.

Lemma dequeue_ok q : Forall buffer_ok q -> Forall buffer_ok (dequeue q).2 /\ forall ch, (dequeue q).1 = Some ch -> buffer_ok ch.
Proof. destruct 1 as [|ch q Hch Hq]; [done|]. split; [done|]. by intros ? [= <-]. Qed.

(** A frame that is complete and whose check is right is put on the raw queue,
    the receiving task is told, and the next buffer is taken. *)
Lemma rx_frame_end_delivers f w rest fl b fcs r sc :
  sc_rx sc = rx_at f w rest fl b (Z.of_nat (length (chain_bytes f ++ w))) fcs r ->
  Forall full f -> w <> [] -> (6 <= length (chain_bytes f ++ w))%nat ->
  buffer_ok (f ++ Mbuf (w ++ rest) 0 (Z.of_nat (length w)) fl true :: b) ->
  has_bits (sc_flags sc) (Z.lor SC_FLUSH SC_ESCAPED) = false -> fcs = PPP_GOODFCS ->
  exists f' k, buffer_ok (f' ++ b) /\ length f' = S (length f) /\ Forall fits f' /\
    chain_bytes f' = take (length (chain_bytes f ++ w) - 2) (chain_bytes f ++ w) /\
    rx_frame_end sc = set_sc_flags (Z.ldiff (sc_flags sc) (if has_bits (sc_flags sc) SC_PKTLOST then SC_PKTLOST else 0))
      (set_sc_rx (set_RX_PACKET true (set_sc_freeq (dequeue (sc_freeq r)).2 (set_sc_m (dequeue (sc_freeq r)).1
        (set_sc_rawq (sc_rawq r ++ [f' ++ b]) (set_sc_mc k (rx_at f w rest fl b 0 fcs r)))))) sc).
Proof.
  intros Hr Hf Hw Hlen Hb Hfl ->. unfold rx_frame_end. rewrite Hr sc_ilen_at Hfl.
  cbn [orb].
  set (sc1 := on_rx (set_sc_ilen 0) sc).
  assert (H1 : sc_rx sc1 = rx_at f w rest fl b 0 PPP_GOODFCS r) by (unfold sc1, on_rx; cbn [sc_rx set_sc_rx]; by rewrite Hr).
  rewrite H1. cbn [sc_fcs rx_at set_sc_fcs set_sc_ilen set_sc_mp set_sc_mc set_sc_m]. rewrite Z.eqb_refl andb_false_r.
  rewrite (proj2 (Z.ltb_ge _ _)); [unfold PPP_HDRLEN, PPP_FCSLEN; lia|].
  destruct (rx_trim_at f w rest fl b 0 PPP_GOODFCS r Hf Hw ltac:(lia) Hb) as (f' & k & E & Hbytes & Hok & Hlen' & Hfits).
  assert (H2 : on_rx rx_trim sc1 = set_sc_rx (set_sc_mc k (set_sc_m (Some (f' ++ b)) (rx_at f w rest fl b 0 PPP_GOODFCS r))) sc)
    by by rewrite -E /on_rx H1; destruct sc.
  rewrite H2. cbn [sc_rx set_sc_rx sc_m set_sc_mc set_sc_m default from_option sc_flags id].
  set (lost := has_bits (sc_flags sc) SC_PKTLOST).
  destruct (mark_lost_same f' Hfits) as [Hfits' Hl']. destruct f' as [|m' f']; [done|].
  exists (if lost then mark_lost (m' :: f') else m' :: f'), k. split; [by destruct lost; [apply (mark_lost_ok _ Hok)|]|].
  split; [by destruct lost; rewrite ?Hl'|]. split; [by destruct lost|]. split; [by destruct lost; rewrite ?mark_lost_bytes|].
  destruct lost; rewrite ?Z.ldiff_0_r; unfold on_rx, clear_flag; cbn [sc_rx set_sc_rx set_sc_flags];
    change (sc_freeq (set_sc_mc _ _)) with (sc_freeq r); destruct (sc_freeq r); by destruct sc.
Qed.

Lemma rx_inv_idle sc sc' :
  rx_inv sc -> sc_rx sc' = set_sc_ilen 0 (sc_rx sc) -> sc_mru sc' = sc_mru sc -> rx_inv sc'.
Proof. intros Hi Hr Hm. split; rewrite ?Hr ?Hm; try by apply Hi. done. Qed.

Lemma has_flush_or_escaped fl :
  has_bits fl (Z.lor SC_FLUSH SC_ESCAPED) = has_bits fl SC_FLUSH || has_bits fl SC_ESCAPED.
Proof.
  assert (Hc : forall b, has_bits fl b = has_bits b fl) by (intros b; unfold has_bits; by rewrite Z.land_comm).
  by rewrite !Hc has_bits_lor.
Qed.

Lemma rx_frame_end_inv sc : rx_inv sc -> sc_devp sc = true -> sc_m (sc_rx sc) <> None -> rx_inv (rx_frame_end sc).
Proof.
  intros Hi Hd Hm. unfold rx_frame_end at 1.
  destruct (has_bits (sc_flags _) _ || _) eqn:Ebad.
  { case_match; by apply (rx_inv_idle sc). }
  destruct (Z.ltb_spec (sc_ilen (sc_rx sc)) (PPP_HDRLEN + PPP_FCSLEN)) as [Hs|Hl].
  { case_match; by apply (rx_inv_idle sc). }
  apply orb_false_iff in Ebad as [Efl Efcs]. change (sc_flags (on_rx _ sc)) with (sc_flags sc) in Efl.
  change (sc_fcs (sc_rx (on_rx _ sc))) with (sc_fcs (sc_rx sc)) in Efcs. unfold PPP_HDRLEN, PPP_FCSLEN in Hl.
  assert (Hne : sc_ilen (sc_rx sc) <> 0) by lia.
  destruct (ri_inside _ Hi Hd Hne) as (f & w & rest & fl & b & fcs & r & Hr & _ & _ & Hin).
  pose proof Efl as Efl'. rewrite has_flush_or_escaped in Efl'. apply orb_false_iff in Efl' as [Efu Ees].
  destruct (Hin Efu) as (Hf & Hw & Hil & _). rewrite Hil in Hr.
  apply andb_false_iff in Efcs as [E%Z.ltb_ge|E%negb_false_iff%Z.eqb_eq]; [lia|].
  assert (Hb : buffer_ok (f ++ Mbuf (w ++ rest) 0 (Z.of_nat (length w)) fl true :: b)) by (apply (ri_m _ Hi); by rewrite Hr).
  destruct (rx_frame_end_delivers f w rest fl b fcs r sc Hr Hf Hw ltac:(lia) Hb Efl) as (f' & k & Hok & _ & _ & _ & Hend).
  { by rewrite Hr in E. }
  assert (Hi' : rx_inv (rx_frame_end sc)).
  { rewrite Hend. pose proof (ri_free _ Hi) as Hq. pose proof (ri_raw _ Hi) as Hraw. pose proof (ri_fault _ Hi) as Hft.
    rewrite Hr in Hq, Hraw, Hft. destruct (dequeue_ok _ Hq) as [Hq' Hm']. split; try done; [|apply Hi].
    cbn. apply Forall_app. split; [done|]. by constructor. }
  revert Hi'. unfold rx_frame_end. rewrite (proj2 (Z.ltb_ge (sc_ilen (sc_rx sc)) (PPP_HDRLEN + PPP_FCSLEN))); [done|].
  change (sc_flags (on_rx (set_sc_ilen 0) sc)) with (sc_flags sc).
  change (sc_fcs (sc_rx (on_rx (set_sc_ilen 0) sc))) with (sc_fcs (sc_rx sc)). by rewrite Efl E Z.eqb_refl andb_false_r.
Qed.

Lemma same_rx_refl sc : same_rx sc sc.
Proof. done. Qed.

Lemma same_rx_trans sc1 sc2 sc3 : same_rx sc1 sc2 -> same_rx sc2 sc3 -> same_rx sc1 sc3.
Proof. intros (?&?&?&?) (?&?&?&?). repeat split; congruence. Qed.

Lemma same_rx_raise b sc : has_bits b SC_FLUSH = false -> same_rx sc (raise_flag b sc).
Proof. intros Hb. repeat split. unfold raise_flag. cbn. by rewrite has_bits_lor Hb orb_false_r. Qed.

Lemma same_rx_clear b sc : Z.land b SC_FLUSH = 0 -> same_rx sc (clear_flag b sc).
Proof. intros Hb. repeat split. unfold clear_flag. cbn. by rewrite has_bits_ldiff_other. Qed.

Lemma same_rx_stats g sc : same_rx sc (on_stats g sc).
Proof. done. Qed.

Lemma same_rx_line c sc : same_rx sc (note_line c sc).
Proof.
  unfold note_line. apply (same_rx_trans _ (if has_bits c 0x80 then raise_flag SC_RCV_B7_1 sc else raise_flag SC_RCV_B7_0 sc)).
  - by destruct (has_bits c 0x80); apply same_rx_raise.
  - by destruct (odd_parity c); apply same_rx_raise.
Qed.

Lemma rx_buffer_inv sc : rx_inv sc -> sc_devp sc = true -> rx_inv (rx_buffer sc).
Proof.
  intros Hi Hd. unfold rx_buffer. destruct (sc_m (sc_rx sc)) eqn:Em; [done|].
  assert (H0 : sc_ilen (sc_rx sc) = 0).
  { destruct (decide (sc_ilen (sc_rx sc) = 0)) as [|Hne]; [done|].
    destruct (ri_inside _ Hi Hd Hne) as (f & w & rest & fl & b & fcs & r & Hr & _). by rewrite Hr in Em. }
  unfold on_rx. destruct (dequeue_ok _ (ri_free _ Hi)) as [Hq Hm]. destruct (dequeue (sc_freeq (sc_rx sc))) as [q freeq] eqn:Eq.
  split; try done; by apply Hi.
Qed.

Lemma pppinput_inv c sc : rx_inv sc -> rx_inv (pppinput c sc).
Proof.
  intros Hi. unfold pppinput. destruct (sc_devp sc) eqn:Hd; [|done]. cbn [negb].
  pose proof (rx_buffer_inv sc Hi Hd) as Hi1. set (sc1 := rx_buffer sc) in *.
  assert (Hd1 : sc_devp sc1 = true) by (unfold sc1, rx_buffer; by case_match).
  case_bool_decide as Hm; [done|]. set (c' := Z.land c 0xff). set (sc2 := note_line c' (on_stats _ sc1)).
  assert (Hs : same_rx sc1 sc2) by (eapply same_rx_trans; [apply same_rx_stats|apply same_rx_line]).
  assert (Hoct : forall c sc', byte_ok c -> same_rx sc1 sc' -> rx_inv (rx_octet c sc')).
  { intros c0 sc' Hc0 Hs'. apply rx_octet_inv; [done|by eapply same_rx_inv| |]; destruct Hs' as (Hr & _ & Hd' & _); congruence. }
  assert (Hc' : byte_ok c') by apply low_byte.
  case_match; [apply rx_frame_end_inv; [by eapply same_rx_inv| |]; destruct Hs as (Hr & _ & Hd' & _); congruence|].
  case_match; [by eapply same_rx_inv|]. case_match.
  - apply Hoct; [by apply (within_lxor 8)|]. eapply same_rx_trans; [exact Hs|]. by apply same_rx_clear.
  - case_match; [|by apply Hoct]. eapply same_rx_inv; [|exact Hi1]. eapply same_rx_trans; [exact Hs|]. by apply same_rx_raise.
Qed.
