(* ===== verification/PppFrames.v ===== *)
(** * From one unit to another

    A receiver that takes the bytes of well-formed frames: the packets come out
    of it in the order in which they were sent, whatever of the header the sender
    left out and whatever it escaped, and a frame in which a burst of bits is
    wrong does not come out at all. *)

From S2P Require Import Prelude Wire Inet Netif Fcs PppSoftc PppTty PppIf PppSend PppReceive.

(** ** Octets of a frame *)

Definition receive (line : bytes) (sc : softc) : softc := foldl (fun sc c => pppinput c sc) sc line.

Lemma receive_app l l' sc : receive (l ++ l') sc = receive l' (receive l sc).
Proof. apply foldl_app. Qed.

(** The packet that the octets of a frame stand for, with what was left out. *)
Definition accept (rej : bool) (bs : bytes) (c : Z) : option bytes :=
  (fun ins => bs ++ ins ++ [c]) <$> header_octets rej (Z.of_nat (length bs)) c.
Fixpoint expand (rej : bool) (bs raw : bytes) : option bytes :=
  match raw with [] => Some bs | c :: raw => accept rej bs c ≫= fun bs => expand rej bs raw end.

Lemma accept_length rej bs c bs' : accept rej bs c = Some bs' -> (length bs < length bs')%nat.
Proof.
  unfold accept. destruct (header_octets _ _ c) as [ins|]; [|done]. intros [= <-]. rewrite !length_app /=. lia.
Qed.

Lemma expand_length rej bs raw bs' : expand rej bs raw = Some bs' -> (length bs <= length bs')%nat.
Proof.
  revert bs. induction raw as [|c raw IH]; intros bs; cbn [expand]; [by intros [= <-]|].
  destruct (accept rej bs c) as [bs1|] eqn:E; [|done]. intros H%IH. apply accept_length in E. lia.
Qed.

(** What a receiver is set up with: of the two ends' maps, every character the
    receiver would drop is escaped by the sender, and what an escaped character
    turns into is neither dropped nor taken for a flag. *)
Definition maps_agree (asyncmap : list Z) (rasyncmap : Z) : Prop :=
  forall c, byte_ok c ->
  let dropped c := (c <? 0x20) && Z.testbit rasyncmap c in
  if ESCAPE_P asyncmap c then Z.lxor c PPP_TRANS <> PPP_FLAG /\ dropped (Z.lxor c PPP_TRANS) = false
  else c <> PPP_FLAG /\ c <> PPP_ESCAPE /\ dropped c = false.

(** The receiver has the octets [raw] of a frame, which stand for [bs], in the
    first mbuf of its buffer; [b] is behind it. *)
Record holding (b : chain) (size : nat) (bs raw : bytes) (sc : softc) : Prop := {
  ho_open : sc_devp sc = true;
  ho_flush : has_bits (sc_flags sc) SC_FLUSH = false;
  ho_escaped : has_bits (sc_flags sc) SC_ESCAPED = false;
  ho_free : Forall buffer_ok (sc_freeq (sc_rx sc));
  ho_behind : Forall (fun m => m_writable m = true /\ (8 <= length (m_store m))%nat) b;
  ho_size : (8 <= size)%nat;
  ho_at : exists fl,
    if decide (bs = []) then
      raw = [] /\ sc_ilen (sc_rx sc) = 0 /\ exists st d n, sc_m (sc_rx sc) = Some (Mbuf st d n fl true :: b) /\ length st = size
    else exists rest r, sc_rx sc = rx_at [] bs rest fl b (Z.of_nat (length bs)) (pppfcs PPP_INITFCS raw) r /\
      (length bs + length rest)%nat = size
}.

(** What an octet of a frame leaves alone. *)
Definition same_frame (sc sc' : softc) : Prop :=
  sc_rawq (sc_rx sc') = sc_rawq (sc_rx sc) /\ sc_freeq (sc_rx sc') = sc_freeq (sc_rx sc) /\
  sc_rasyncmap (sc_rx sc') = sc_rasyncmap (sc_rx sc) /\ sc_mru sc' = sc_mru sc /\
  has_bits (sc_flags sc') SC_REJ_COMP_AC = has_bits (sc_flags sc) SC_REJ_COMP_AC.

Lemma same_frame_trans sc1 sc2 sc3 : same_frame sc1 sc2 -> same_frame sc2 sc3 -> same_frame sc1 sc3.
Proof. intros (?&?&?&?&?) (?&?&?&?&?). repeat split; congruence. Qed.

(** Nothing but other flags and statistics. *)
Definition same_line (sc sc' : softc) : Prop :=
  sc_rx sc' = sc_rx sc /\ sc_mru sc' = sc_mru sc /\ sc_devp sc' = sc_devp sc /\
  forall f, f = SC_FLUSH \/ f = SC_ESCAPED \/ f = SC_REJ_COMP_AC -> has_bits (sc_flags sc') f = has_bits (sc_flags sc) f.

Lemma same_line_frame sc sc' : same_line sc sc' -> same_frame sc sc'.
Proof. intros (Hr & Hm & Hd & Hf). unfold same_frame. rewrite Hr Hm Hf; tauto. Qed.

Lemma same_line_holding b size bs raw sc sc' : same_line sc sc' -> holding b size bs raw sc -> holding b size bs raw sc'.
Proof. intros (Hr & Hm & Hd & Hf) []. split; rewrite ?Hr ?Hd ?Hf; tauto. Qed.

Lemma note_line_same c sc : same_line sc (note_line c (on_stats (fun s => set_ppp_ibytes (u32 (ppp_ibytes s + 1)) s) sc)).
Proof.
  unfold note_line, raise_flag. repeat split; [by repeat case_match..|].
  intros f [->|[->| ->]]; destruct (has_bits c 0x80), (odd_parity c); cbn [sc_flags set_sc_flags on_stats set_sc_stats]; by flag_simpl.
Qed.

Lemma holding_ready b size bs raw sc :
  holding b size bs raw sc -> Z.of_nat (length bs) <= 2 ^ 14 + 6 ->
  exists fl rest r, rx_ready [] bs rest fl b (Z.of_nat (length bs)) (pppfcs PPP_INITFCS raw) r sc /\
    (length bs + length rest)%nat = size /\ sc_freeq r = sc_freeq (sc_rx sc) /\ sc_rawq r = sc_rawq (sc_rx sc) /\
    sc_rasyncmap r = sc_rasyncmap (sc_rx sc).
Proof.
  intros [Hd Hfu He Hq Hb H8 [fl Hat]] Hlen. exists fl. case_decide as Hbs.
  - subst bs. destruct Hat as (-> & Hil & st & d & n & Hm & Hst). exists st, (sc_rx sc). split; [|done].
    split; [simpl; lia|lia|right; repeat split; eauto].
  - destruct Hat as (rest & r & Hr & Hst). exists rest, r. split; [|by rewrite Hr].
    split; [lia|lia|left; split; [|done]]. destruct bs; [done|simpl; lia].
Qed.

Lemma holding_octet b size bs raw c ins sc :
  holding b size bs raw sc -> byte_ok c -> 
  header_octets (has_bits (sc_flags sc) SC_REJ_COMP_AC) (Z.of_nat (length bs)) c = Some ins ->
  Z.of_nat (length (bs ++ ins ++ [c])) <= sc_mru sc + 6 -> (length (bs ++ ins ++ [c]) <= size)%nat -> Z.of_nat size <= 2 ^ 14 ->
  holding b size (bs ++ ins ++ [c]) (raw ++ [c]) (rx_octet c sc) /\ same_frame sc (rx_octet c sc).
Proof.
  intros Hho Hc Hh Hmru Hsize Hbig.
  destruct (header_octets_length _ _ _ _ Hh) as (Hi3 & Hi2 & _). rewrite !length_app /= in Hmru, Hsize.
  destruct (holding_ready _ _ _ _ _ Hho ltac:(lia)) as (fl & rest & r & Hrdy & Hst & Hfq & Hraw & Hra).
  destruct Hho as [Hd Hfu He Hq Hb H8 _].
  rewrite (rx_octet_at c [] bs rest fl b _ _ r sc Hb ltac:(by rewrite Hfq) Hrdy). unfold octet_at. rewrite Hh.
  rewrite s16_id; [lia|]. rewrite (proj2 (Z.ltb_ge _ _)); [unfold PPP_HDRLEN, PPP_FCSLEN; lia|].
  destruct (drop (length ins) rest) as [|x rest2] eqn:Ed.
  { apply (f_equal length) in Ed. rewrite length_drop /= in Ed. lia. }
  rewrite u8_small //. split; [|by rewrite /same_frame /= Hfq Hraw Hra].
  split; try done; [by rewrite /= Hfq|]. exists fl. rewrite decide_False; [by destruct bs, ins|].
  exists rest2, r. rewrite !app_assoc. split.
  - rewrite pppfcs_app /= -(app_assoc bs ins). apply rx_at_eq; [done|done|]. rewrite !length_app /=. lia.
  - apply (f_equal length) in Ed. rewrite length_drop /= in Ed. rewrite !length_app /=. lia.
Qed.

Lemma holding_m b size bs raw sc : holding b size bs raw sc -> sc_m (sc_rx sc) <> None.
Proof.
  intros [_ _ _ _ _ _ [fl Hat]]. case_decide; [destruct Hat as (_ & _ & st & d & n & -> & _)|destruct Hat as (rest & r & -> & _)]; done.
Qed.

(** The receiver has a buffer. *)
Lemma pppinput_char c sc :
  sc_devp sc = true -> sc_m (sc_rx sc) <> None -> byte_ok c ->
  pppinput c sc =
  let sc := note_line c (on_stats (fun s => set_ppp_ibytes (u32 (ppp_ibytes s + 1)) s) sc) in
  if c =? PPP_FLAG then rx_frame_end sc
  else if (c <? 0x20) && Z.testbit (sc_rasyncmap (sc_rx sc)) c then sc
  else if has_bits (sc_flags sc) SC_ESCAPED then rx_octet (Z.lxor c PPP_TRANS) (clear_flag SC_ESCAPED sc)
  else if c =? PPP_ESCAPE then raise_flag SC_ESCAPED sc
  else rx_octet c sc.
Proof.
  intros Hd Hm Hc. unfold pppinput. rewrite Hd. cbn [negb]. unfold rx_buffer.
  destruct (sc_m (sc_rx sc)) eqn:Em; [|done]. rewrite bool_decide_false; [by rewrite Em|].
  replace (Z.land c 255) with c; [done|]. change 255 with (Z.ones 8). rewrite Z.land_ones // Z.mod_small; [exact Hc|done].
Qed.

(** The octets of the line that a receiver with map [ra] takes for the octet
    [c] of a frame. *)
Definition dropped (ra c : Z) : bool := (c <? 0x20) && Z.testbit ra c.
Inductive spells (ra c : Z) : bytes -> Prop :=
  | spells_plain : c <> PPP_FLAG -> c <> PPP_ESCAPE -> dropped ra c = false -> spells ra c [c]
  | spells_escaped d :
      c = Z.lxor d PPP_TRANS -> d <> PPP_FLAG -> dropped ra d = false -> spells ra c [PPP_ESCAPE; d].

(** The octets of the line for those of a frame. *)
Inductive spelt (ra : Z) : bytes -> bytes -> Prop :=
  | spelt_nil : spelt ra [] []
  | spelt_cons c raw l line : spells ra c l -> spelt ra raw line -> spelt ra (c :: raw) (l ++ line).

Lemma trans_trans c : Z.lxor (Z.lxor c PPP_TRANS) PPP_TRANS = c.
Proof. by rewrite Z.lxor_assoc Z.lxor_nilpotent Z.lxor_0_r. Qed.

Lemma trans_ok c : byte_ok c -> byte_ok (Z.lxor c PPP_TRANS).
Proof. intros Hc. by apply (within_lxor 8). Qed.

Lemma stuff_char_spells a ra c : maps_agree a ra -> byte_ok c -> spells ra c (stuff_char a c).
Proof.
  intros Hmaps Hc. specialize (Hmaps c Hc). cbn zeta in Hmaps. unfold stuff_char. destruct (ESCAPE_P a c).
  - destruct Hmaps. by apply spells_escaped; [rewrite trans_trans|..].
  - destruct Hmaps as (? & ? & ?). by apply spells_plain.
Qed.

Lemma stuff_spelt a ra bs : maps_agree a ra -> Forall byte_ok bs -> spelt ra bs (stuff a bs).
Proof.
  intros Hmaps. induction 1 as [|c bs Hc _ IH]; [constructor|]. rewrite stuff_cons.
  constructor; [by apply stuff_char_spells|done].
Qed.

(** An octet as it is on the line: the escape is undone. *)
Lemma receive_spelt l c sc :
  spells (sc_rasyncmap (sc_rx sc)) c l -> sc_devp sc = true -> sc_m (sc_rx sc) <> None ->
  has_bits (sc_flags sc) SC_ESCAPED = false -> byte_ok c ->
  exists sc', same_line sc sc' /\ receive l sc = rx_octet c sc'.
Proof.
  intros [Hnf Hne Hnd|d -> Hnf Hnd] Hd Hm Hesc Hc; unfold dropped in Hnd; unfold receive; cbn [foldl].
  - rewrite (pppinput_char c sc) //. cbn zeta.
    set (sc1 := note_line c _). assert (H1 : same_line sc sc1) by apply note_line_same.
    pose proof H1 as (Hr1 & Hm1 & Hd1 & Hf1). rewrite (proj2 (Z.eqb_neq _ _) Hnf). rewrite Hr1 Hnd.
    rewrite Hf1; [tauto|]. rewrite Hesc (proj2 (Z.eqb_neq _ _) Hne). by exists sc1.
  - rewrite (pppinput_char PPP_ESCAPE sc) //. cbn zeta.
    set (sc1 := note_line PPP_ESCAPE _). assert (H1 : same_line sc sc1) by apply note_line_same.
    pose proof H1 as (Hr1 & Hm1 & Hd1 & Hf1). change (PPP_ESCAPE =? PPP_FLAG) with false. change (PPP_ESCAPE <? 32) with false.
    cbn [andb]. rewrite Hf1; [tauto|]. rewrite Hesc. change (PPP_ESCAPE =? PPP_ESCAPE) with true. cbn iota.
    set (sc2 := raise_flag SC_ESCAPED sc1).
    assert (Hx : byte_ok d) by (rewrite -(trans_trans d); by apply trans_ok).
    rewrite (pppinput_char d sc2) //. cbn zeta.
    set (sc3 := note_line _ _). assert (H3 : same_line sc2 sc3) by apply note_line_same.
    pose proof H3 as (Hr3 & Hm3 & Hd3 & Hf3). rewrite (proj2 (Z.eqb_neq _ _) Hnf) Hr3. change (sc_rx sc2) with (sc_rx sc). rewrite Hnd.
    rewrite Hf3; [tauto|]. replace (has_bits (sc_flags sc2) SC_ESCAPED) with true by (unfold sc2, raise_flag; cbn; by flag_simpl).
    eexists. split; [|done]. split; [done|]. split; [done|]. split; [done|].
    assert (Hkeep : forall f, f = SC_FLUSH \/ f = SC_REJ_COMP_AC ->
      has_bits (sc_flags (clear_flag SC_ESCAPED sc3)) f = has_bits (sc_flags sc) f).
    { intros f Hf. change (sc_flags (clear_flag SC_ESCAPED sc3)) with (Z.ldiff (sc_flags sc3) SC_ESCAPED).
      rewrite has_bits_ldiff_other; [by destruct Hf as [->| ->]|]. rewrite Hf3; [tauto|].
      change (sc_flags sc2) with (Z.lor (sc_flags sc1) SC_ESCAPED). rewrite has_bits_lor Hf1; [tauto|].
      by destruct Hf as [->| ->]; rewrite orb_false_r. }
    intros f [->|[->| ->]]; [apply Hkeep; tauto| |apply Hkeep; tauto]. rewrite Hesc. by apply has_bits_ldiff_same.
Qed.

Lemma holding_spelt l b size bs raw c bs' sc :
  spells (sc_rasyncmap (sc_rx sc)) c l -> holding b size bs raw sc -> byte_ok c ->
  accept (has_bits (sc_flags sc) SC_REJ_COMP_AC) bs c = Some bs' ->
  Z.of_nat (length bs') <= sc_mru sc + 6 -> (length bs' <= size)%nat -> Z.of_nat size <= 2 ^ 14 ->
  holding b size bs' (raw ++ [c]) (receive l sc) /\ same_frame sc (receive l sc).
Proof.
  intros Hl Hh Hc Hacc Hmru Hsize Hbig.
  destruct (receive_spelt l c sc) as (sc' & Hs & ->); [done|apply Hh|by eapply holding_m|apply Hh|done|].
  unfold accept in Hacc. destruct (header_octets _ _ c) as [ins|] eqn:Eh; [|done]. injection Hacc as <-.
  destruct (holding_octet b size bs raw c ins sc') as [H1 H2]; [by eapply same_line_holding|done| | |done|done|].
  - destruct Hs as (_ & _ & _ & ->); tauto.
  - by destruct Hs as (_ & -> & _).
  - split; [done|]. eapply same_frame_trans; [|done]. by apply same_line_frame.
Qed.

Lemma holding_raw a b size raw bs raw0 bs' sc :
  maps_agree a (sc_rasyncmap (sc_rx sc)) -> holding b size bs raw0 sc -> Forall byte_ok raw ->
  expand (has_bits (sc_flags sc) SC_REJ_COMP_AC) bs raw = Some bs' ->
  Z.of_nat (length bs') <= sc_mru sc + 6 -> (length bs' <= size)%nat -> Z.of_nat size <= 2 ^ 14 ->
  holding b size bs' (raw0 ++ raw) (receive (stuff a raw) sc) /\ same_frame sc (receive (stuff a raw) sc).
Proof.
  intros Hmaps Hh Hraw. revert bs raw0 sc Hmaps Hh. induction Hraw as [|c raw Hc Hraw IH]; intros bs raw0 sc Hmaps Hh; cbn [expand].
  { intros [= <-] _ _ _. by rewrite app_nil_r. }
  destruct (accept _ bs c) as [bs1|] eqn:Ea; [|done]. cbn [mbind option_bind]. intros He Hmru Hsize Hbig.
  pose proof (expand_length _ _ _ _ He) as Hle.
  destruct (holding_spelt (stuff_char a c) b size bs raw0 c bs1 sc) as [Hh1 Hs1];
    [by apply stuff_char_spells|done..|lia|lia|done|].
  rewrite stuff_cons receive_app. pose proof Hs1 as (_ & _ & Hra & Hm1 & Hrej).
  destruct (IH bs1 (raw0 ++ [c]) (receive (stuff_char a c) sc)) as [Hh2 Hs2]; [by rewrite Hra|done|by rewrite Hrej|by rewrite Hm1|done|done|].
  rewrite -app_assoc in Hh2. split; [done|]. by eapply same_frame_trans.
Qed.

(** ** A frame *)

Lemma expand_app rej bs raw raw' : expand rej bs (raw ++ raw') = expand rej bs raw ≫= fun bs => expand rej bs raw'.
Proof. revert bs. induction raw as [|c raw IH]; intros bs; cbn; [done|]. by destruct (accept rej bs c); cbn. Qed.

(** Behind the header an octet stands for itself. *)
Lemma expand_body rej bs raw : (4 <= length bs)%nat -> expand rej bs raw = Some (bs ++ raw).
Proof.
  revert bs. induction raw as [|c raw IH]; intros bs Hl; cbn [expand]; [by rewrite app_nil_r|].
  unfold accept, header_octets. do 4 (rewrite (proj2 (Z.eqb_neq (Z.of_nat (length bs)) _)); [lia|]). cbn.
  rewrite IH; [rewrite length_app; lia|]. by rewrite -app_assoc.
Qed.

(** The receiver is between two frames; the buffers it has, in their order. *)
Record idle (sc : softc) : Prop := {
  id_open : sc_devp sc = true;
  id_flush : has_bits (sc_flags sc) SC_FLUSH = false;
  id_escaped : has_bits (sc_flags sc) SC_ESCAPED = false;
  id_ilen : sc_ilen (sc_rx sc) = 0
}.
Definition buffers (sc : softc) : list chain := match sc_m (sc_rx sc) with Some ch => [ch] | None => [] end ++ sc_freeq (sc_rx sc).

(** A buffer whose first mbuf takes any frame. *)
Definition roomy (mru : Z) (ch : chain) : Prop :=
  exists m b, ch = m :: b /\ m_writable m = true /\ mru + 6 <= Z.of_nat (length (m_store m)) <= 2 ^ 14 /\
    Forall (fun m => m_writable m = true /\ (8 <= length (m_store m))%nat) b /\ Forall (fun m => m_len m = 0) b.

Lemma roomy_ok mru ch : 1500 <= mru -> roomy mru ch -> buffer_ok ch.
Proof. intros Hm (m & b & -> & Hw & Hl & Hb & _). split; [done|]. constructor; [|done]. split; [done|lia]. Qed.

(** A packet in the first mbuf of a chain. *)
Definition holds_packet (pkt : bytes) (ch : chain) : Prop :=
  exists m b, ch = m :: b /\ fits m /\ m_bytes m = pkt /\ Forall (fun m => m_len m = 0) b.

Lemma holds_packet_bytes pkt ch : holds_packet pkt ch -> chain_bytes ch = pkt.
Proof.
  intros (m & b & -> & _ & <- & Hb). unfold chain_bytes. cbn [map concat].
  replace (concat (map m_bytes b)) with (@nil Z); [by rewrite app_nil_r|].
  induction Hb as [|x b Hx _ IH]; [done|]. cbn. by rewrite -IH /m_bytes Hx.
Qed.

(** What stays as it is while frames come in. *)
Definition same_set_up (sc sc' : softc) : Prop :=
  sc_rasyncmap (sc_rx sc') = sc_rasyncmap (sc_rx sc) /\ sc_mru sc' = sc_mru sc /\
  has_bits (sc_flags sc') SC_REJ_COMP_AC = has_bits (sc_flags sc) SC_REJ_COMP_AC.

Lemma same_set_up_trans sc1 sc2 sc3 : same_set_up sc1 sc2 -> same_set_up sc2 sc3 -> same_set_up sc1 sc3.
Proof. intros (?&?&?) (?&?&?). repeat split; congruence. Qed.

(** A flag with nothing in front of it. *)
Lemma rx_frame_end_idle sc :
  has_bits (sc_flags sc) SC_FLUSH = false -> has_bits (sc_flags sc) SC_ESCAPED = false -> sc_ilen (sc_rx sc) = 0 ->
  rx_frame_end sc = on_rx (set_sc_ilen 0) sc.
Proof.
  intros Hfu He H0. unfold rx_frame_end. change (sc_flags (on_rx _ sc)) with (sc_flags sc).
  by rewrite has_flush_or_escaped Hfu He H0.
Qed.

(** The flag in front of a frame. *)
Lemma idle_flag sc ch q m b :
  idle sc -> buffers sc = ch :: q -> 1500 <= sc_mru sc -> Forall (roomy (sc_mru sc)) (ch :: q) -> ch = m :: b ->
  let sc' := pppinput PPP_FLAG sc in
  holding b (length (m_store m)) [] [] sc' /\ same_set_up sc sc' /\ sc_freeq (sc_rx sc') = q /\
  sc_rawq (sc_rx sc') = sc_rawq (sc_rx sc).
Proof.
  intros [Hd Hfu He H0] Hb Hmru [Hch Hq]%Forall_cons_1 -> sc'. destruct Hch as (m' & b' & [= <- <-] & Hw & Hl & Hbb & Hempty).
  assert (Hq' : Forall buffer_ok q) by (eapply Forall_impl; [|exact Hq]; intros; by eapply roomy_ok).
  set (sc1 := rx_buffer sc).
  assert (H1 : sc_m (sc_rx sc1) = Some (m :: b) /\ sc_freeq (sc_rx sc1) = q /\ sc_rawq (sc_rx sc1) = sc_rawq (sc_rx sc) /\
    sc_ilen (sc_rx sc1) = 0 /\ sc_rasyncmap (sc_rx sc1) = sc_rasyncmap (sc_rx sc) /\ sc_mru sc1 = sc_mru sc /\
    sc_flags sc1 = sc_flags sc /\ sc_devp sc1 = true).
  { unfold sc1, rx_buffer, buffers in *. destruct (sc_m (sc_rx sc)) eqn:Em; simpl in Hb; [by simplify_eq|]. by rewrite /on_rx /= Hb. }
  destruct H1 as (Hm1 & Hq1 & Hraw1 & Hil1 & Hra1 & Hmru1 & Hf1 & Hd1).
  assert (E : sc' = pppinput PPP_FLAG sc1).
  { unfold sc', pppinput. rewrite Hd Hd1. cbn [negb]. replace (rx_buffer sc1) with sc1; [done|]. unfold rx_buffer at 1. by rewrite Hm1. }
  rewrite E pppinput_char // ?Hm1 //. cbn zeta. change (PPP_FLAG =? PPP_FLAG) with true. cbn iota.
  set (sc2 := note_line _ _). assert (H2 : same_line sc1 sc2) by apply note_line_same.
  destruct H2 as (Hr2 & Hm2 & Hd2 & Hf2).
  assert (Hfu2 : has_bits (sc_flags sc2) SC_FLUSH = false) by (rewrite Hf2; [tauto|by rewrite Hf1]).
  assert (He2 : has_bits (sc_flags sc2) SC_ESCAPED = false) by (rewrite Hf2; [tauto|by rewrite Hf1]).
  assert (Hrej2 : has_bits (sc_flags sc2) SC_REJ_COMP_AC = has_bits (sc_flags sc) SC_REJ_COMP_AC) by (rewrite Hf2; [tauto|by rewrite Hf1]).
  rewrite rx_frame_end_idle // ?Hr2 //. unfold on_rx. rewrite Hr2. split; [|by repeat split; rewrite /= ?Hmru1 -?Hm2].
  split; try done; [by rewrite /= Hq1|lia|].
  exists (m_flags m). case_decide; [|done]. split; [done|]. split; [done|].
  exists (m_store m), (m_data m), (m_len m). rewrite /= Hm1. split; [|done]. rewrite -Hw. by destruct m.
Qed.

(** A frame is delivered. *)
Lemma receive_frame a raw pkt sc ch q :
  idle sc -> maps_agree a (sc_rasyncmap (sc_rx sc)) -> buffers sc = ch :: q -> 1500 <= sc_mru sc ->
  Forall (roomy (sc_mru sc)) (ch :: q) -> Forall byte_ok raw ->
  expand (has_bits (sc_flags sc) SC_REJ_COMP_AC) [] raw = Some pkt ->
  (4 <= length pkt)%nat -> Z.of_nat (length pkt) <= sc_mru sc + 4 ->
  let sc' := receive (line_frame a raw) sc in
  idle sc' /\ same_set_up sc sc' /\ buffers sc' = q /\ RX_PACKET (sc_rx sc') = true /\
  exists ch', holds_packet pkt ch' /\ sc_rawq (sc_rx sc') = sc_rawq (sc_rx sc) ++ [ch'].
Proof.
  intros Hidle Hmaps Hbuf Hmru Hroomy Hraw Hexp H4 Hlen sc'.
  pose proof Hroomy as [(m & b & Ech & Hw & Hl & Hbb & Hempty) _]%Forall_cons_1.
  destruct (idle_flag sc ch q m b Hidle Hbuf Hmru Hroomy Ech) as (Hh1 & Hs1 & Hq1 & Hraw1).
  set (sc1 := pppinput PPP_FLAG sc) in *. destruct Hs1 as (Hra1 & Hmru1 & Hrej1).
  set (fcs := pppfcs PPP_INITFCS raw). assert (Hfcs : within 16 fcs) by by apply pppfcs_within.
  destruct (holding_raw a b (length (m_store m)) (raw ++ fcs_bytes fcs) [] [] (pkt ++ fcs_bytes fcs) sc1) as [Hh2 Hs2].
  { by rewrite Hra1. } { done. } { apply Forall_app. split; [done|]. apply fcs_bytes_ok. }
  { rewrite Hrej1 expand_app Hexp. by apply expand_body. }
  { rewrite Hmru1 length_app /=. lia. } { rewrite length_app /=. lia. } { lia. }
  set (sc2 := receive (stuff a (raw ++ fcs_bytes fcs)) sc1) in *.
  assert (E : sc' = pppinput PPP_FLAG sc2).
  { unfold sc', line_frame. rewrite !receive_app. done. }
  rewrite E pppinput_char //; [by apply Hh2|by eapply holding_m|]. cbn zeta. change (PPP_FLAG =? PPP_FLAG) with true. cbn iota.
  set (sc3 := note_line _ _). assert (H3 : same_line sc2 sc3) by apply note_line_same.
  pose proof (same_line_holding _ _ _ _ _ _ H3 Hh2) as Hh3.
  assert (Hs3 : same_frame sc1 sc3) by (eapply same_frame_trans; [exact Hs2|by apply same_line_frame]).
  destruct Hs3 as (Hraw3 & Hq3 & Hra3 & Hmru3 & Hrej3).
  pose proof Hh3 as [Hd3 Hfu3 He3 Hfq3 Hb3 H83 [fl Hat]]. rewrite decide_False in Hat; [by destruct pkt|].
  destruct Hat as (rest & r & Hr & Hsz). rewrite app_nil_l pppfcs_app pppfcs_good // in Hr.
  destruct (rx_frame_end_delivers [] (pkt ++ fcs_bytes fcs) rest fl b PPP_GOODFCS r sc3) as (f' & k & Hok & Hlf & Hfits & Hbytes & Hend).
  { done. } { constructor. } { by destruct pkt. } { rewrite /= length_app /=. lia. }
  { apply (buffer_ok_at [] _ rest fl b). split; [done|]. split; [lia|done]. }
  { by rewrite has_flush_or_escaped Hfu3 He3. } { done. }
  rewrite Hr in Hraw3, Hq3, Hra3. rewrite Hend. split; [|split; [|split; [|split; [done|]]]].
  - split; cbn -[has_bits]; [done| | |done].
    + rewrite has_bits_ldiff_other //. by destruct (has_bits _ SC_PKTLOST).
    + rewrite has_bits_ldiff_other //. by destruct (has_bits _ SC_PKTLOST).
  - repeat split; cbn -[has_bits]; [by rewrite Hra3|by rewrite Hmru3|].
    rewrite has_bits_ldiff_other; [by destruct (has_bits _ SC_PKTLOST)|]. by rewrite Hrej3.
  - unfold buffers. cbn. simpl in Hq3. rewrite -Hq1 -Hq3. by destruct (sc_freeq r).
  - exists (f' ++ b). rewrite /= -Hraw1. split; [|by rewrite -Hraw3].
    destruct f' as [|m' [|? ?]]; [done| |done]. apply Forall_cons_1 in Hfits as [Hfits _]. exists m', b. split; [done|].
    split; [done|]. split; [|done]. rewrite /chain_bytes /= !app_nil_r in Hbytes. rewrite Hbytes length_app /= take_app_length' //. lia.
Qed.

(** ** The header *)

(** A packet as [pppoutput] makes it: address, control, a protocol number. *)
Definition well_formed (pkt : bytes) : Prop :=
  Forall byte_ok pkt /\ exists hi lo data,
    pkt = PPP_ALLSTATIONS :: PPP_UI :: hi :: lo :: data /\ Z.land hi 1 = 0 /\ Z.land lo 1 = 1.

(** What the sender leaves of it. *)
Definition short_header (flags : Z) (pkt : bytes) : bytes :=
  let ac := if comp_ac flags pkt then [] else [PPP_ADDRESS pkt; PPP_CONTROL pkt] in
  if has_bits flags SC_COMP_PROT && (PPP_PROTOCOL pkt <? 0xff) then ac ++ drop 3 pkt else ac ++ drop 2 pkt.

(** What was left out is put in again. *)
Lemma expand_short_header flags rej pkt :
  well_formed pkt -> (comp_ac flags pkt = true -> rej = false) -> expand rej [] (short_header flags pkt) = Some pkt.
Proof.
  intros (Hb & hi & lo & data & -> & Hhi & Hlo) Hrej.
  apply Forall_cons_1 in Hb as [_ Hb]. apply Forall_cons_1 in Hb as [_ Hb].
  apply Forall_cons_1 in Hb as [Bhi Hb]. apply Forall_cons_1 in Hb as [Blo _].
  assert (Hp : PPP_PROTOCOL (PPP_ALLSTATIONS :: PPP_UI :: hi :: lo :: data) = hi * 256 + lo).
  { unfold PPP_PROTOCOL. cbn [drop GETSHORT fmap option_fmap option_map default from_option fst id]. rewrite lor_shiftl_add; [lia|apply Bhi|exact Blo|lia]. }
  assert (Hhff : hi <> PPP_ALLSTATIONS) by by intros ->.
  unfold byte_ok in Bhi, Blo. unfold short_header. cbn [drop app].
  assert (H3 : forall c, Z.land c 1 = 0 -> accept rej [PPP_ALLSTATIONS; PPP_UI] c = Some [PPP_ALLSTATIONS; PPP_UI; c]).
  { intros c Hc. unfold accept, header_octets. cbn. by rewrite Hc. }
  assert (H4 : accept rej [PPP_ALLSTATIONS; PPP_UI; hi] lo = Some [PPP_ALLSTATIONS; PPP_UI; hi; lo]).
  { unfold accept, header_octets. cbn. by rewrite Hlo. }
  destruct (comp_ac _ _) eqn:Eac; [rewrite Hrej // in H3 H4 |- *|].
  - unfold comp_ac in Eac. rewrite Hp in Eac. apply andb_true_iff in Eac as [Eac _]. apply andb_true_iff in Eac as [_ Eac].
    apply negb_true_iff, Z.eqb_neq in Eac. rewrite Hp.
    destruct (has_bits flags SC_COMP_PROT && (hi * 256 + lo <? 255)) eqn:Ep; cbn [app expand].
    + apply andb_true_iff in Ep as [_ Ep%Z.ltb_lt]. assert (hi = 0) as -> by lia.
      replace (accept false [] lo) with (Some [PPP_ALLSTATIONS; PPP_UI; 0; lo]); [by cbn [mbind option_bind]; apply expand_body|].
      unfold accept, header_octets. cbn. rewrite Hlo. cbn. rewrite (proj2 (Z.eqb_neq lo PPP_ALLSTATIONS)); [lia|done].
    + replace (accept false [] hi) with (Some [PPP_ALLSTATIONS; PPP_UI; hi]).
      * cbn [mbind option_bind]. rewrite H4. cbn [mbind option_bind]. by apply expand_body.
      * unfold accept, header_octets. cbn. rewrite Hhi. cbn. by rewrite (proj2 (Z.eqb_neq hi PPP_ALLSTATIONS)).
  - rewrite Hp. cbn [app expand PPP_ADDRESS PPP_CONTROL nth].
    assert (E1 : accept rej [] PPP_ALLSTATIONS = Some [PPP_ALLSTATIONS]) by done.
    assert (E2 : accept rej [PPP_ALLSTATIONS] PPP_UI = Some [PPP_ALLSTATIONS; PPP_UI]) by done.
    destruct (has_bits flags SC_COMP_PROT && (hi * 256 + lo <? 255)) eqn:Ep; cbn [app expand];
      rewrite E1; cbn [mbind option_bind]; rewrite E2; cbn [mbind option_bind].
    + apply andb_true_iff in Ep as [_ Ep%Z.ltb_lt]. assert (hi = 0) as -> by lia.
      replace (accept rej [PPP_ALLSTATIONS; PPP_UI] lo) with (Some [PPP_ALLSTATIONS; PPP_UI; 0; lo]);
        [by cbn [mbind option_bind]; apply expand_body|].
      unfold accept, header_octets. cbn. by rewrite Hlo.
    + rewrite H3 //. cbn [mbind option_bind]. rewrite H4. cbn [mbind option_bind]. by apply expand_body.
Qed.

(** The data of an mbuf in its store. *)
Lemma mbuf_split m :
  sendable m -> exists pre bs post, m = Mbuf (pre ++ bs ++ post) (length pre) (Z.of_nat (length bs)) (m_flags m) (m_writable m) /\
    m_bytes m = bs /\ length bs = Z.to_nat (m_len m).
Proof.
  intros [Hl Hs]. exists (take (m_data m) (m_store m)), (m_bytes m), (drop (Z.to_nat (m_len m)) (mtod m)).
  assert (Hb : length (m_bytes m) = Z.to_nat (m_len m)).
  { unfold m_bytes, mtod. rewrite length_take length_drop. lia. }
  split; [|done]. rewrite Hb length_take. unfold m_bytes. rewrite take_drop /mtod take_drop.
  destruct m as [st d l fl w]. cbn in *. f_equal; lia.
Qed.

Lemma mbuf_at pre bs post n l fl w ch :
  n = length pre -> l = Z.of_nat (length bs) -> 0 < l < 2 ^ 15 ->
  sendable (Mbuf (pre ++ bs ++ post) n l fl w) /\
  chain_bytes (Mbuf (pre ++ bs ++ post) n l fl w :: ch) = bs ++ chain_bytes ch.
Proof.
  intros -> -> Hl. split; [split; [done|]; rewrite /= !length_app; lia|].
  rewrite /chain_bytes /= /m_bytes /mtod /= drop_app_length Nat2Z.id take_app_length //.
Qed.

(** The chain that is sent. *)
Lemma compress_header_bytes flags m ch pkt :
  sendable m -> chain_bytes (m :: ch) = pkt -> well_formed pkt -> 4 <= m_len m ->
  exists m', compress_header flags (m :: ch) = m' :: ch /\ sendable m' /\
    chain_bytes (m' :: ch) = short_header flags pkt.
Proof.
  intros Hs Hc (Hok & hi & lo & data & -> & _) H4. destruct (mbuf_split m Hs) as (pre & bs & post & Em & Hb & Hl).
  destruct Hs as [Hs1 Hs2]. unfold chain_bytes in Hc. cbn [map concat] in Hc. rewrite Hb in Hc.
  destruct bs as [|a [|c [|h [|l bs]]]]; simpl in Hl; try lia. cbn [app] in Hc. injection Hc as -> -> -> -> Hd.
  unfold compress_header. cbn [head fmap option_fmap option_map default from_option]. rewrite Em.
  replace (mtod _) with (PPP_ALLSTATIONS :: PPP_UI :: hi :: lo :: bs ++ post) by by rewrite /mtod /= drop_app_length.
  unfold id. set (cp := PPP_ALLSTATIONS :: PPP_UI :: hi :: lo :: bs ++ post). set (pkt := PPP_ALLSTATIONS :: PPP_UI :: hi :: lo :: data).
  change (comp_ac flags cp) with (comp_ac flags pkt). change (PPP_PROTOCOL cp) with (PPP_PROTOCOL pkt). unfold short_header.
  change (PPP_ADDRESS cp) with PPP_ALLSTATIONS. change (PPP_CONTROL cp) with PPP_UI.
  set (fl := m_flags m). set (w := m_writable m). change (concat (map m_bytes ch)) with (chain_bytes ch) in Hd.
  assert (Hat : forall pre' bs' n l' out, n = length pre' -> l' = Z.of_nat (length bs') -> 0 < l' < 2 ^ 15 -> bs' ++ chain_bytes ch = out ->
    exists m', Mbuf (pre' ++ bs' ++ post) n l' fl w :: ch = m' :: ch /\ sendable m' /\ chain_bytes (m' :: ch) = out).
  { intros pre' bs' n l' out Hn Hl' Hpos <-. eexists. split; [done|]. by apply mbuf_at. }
  assert (E2 : pre ++ (PPP_ALLSTATIONS :: PPP_UI :: hi :: lo :: bs) ++ post = (pre ++ [PPP_ALLSTATIONS; PPP_UI]) ++ (hi :: lo :: bs) ++ post)
    by by rewrite -!app_assoc.
  assert (E3 : pre ++ (PPP_ALLSTATIONS :: PPP_UI :: hi :: lo :: bs) ++ post = (pre ++ [PPP_ALLSTATIONS; PPP_UI; hi]) ++ (lo :: bs) ++ post)
    by by rewrite -!app_assoc.
  destruct (comp_ac flags pkt), (has_bits flags SC_COMP_PROT && (PPP_PROTOCOL pkt <? 255));
    cbn [map_first store_first set_m_data set_m_len set_m_store m_data m_len m_store m_flags m_writable length map app].
  - rewrite E3. apply Hat; [rewrite length_app /=; lia|simpl; lia|lia|]. by rewrite /= Hd.
  - rewrite E2. apply Hat; [rewrite length_app /=; lia|simpl; lia|lia|]. by rewrite /= Hd.
  - rewrite take_app_length drop_app_add. cbn [drop].
    replace (pre ++ u8 PPP_ALLSTATIONS :: u8 PPP_ALLSTATIONS :: u8 PPP_UI :: lo :: bs ++ post) with
      ((pre ++ [PPP_ALLSTATIONS]) ++ (PPP_ALLSTATIONS :: PPP_UI :: lo :: bs) ++ post) by by rewrite -app_assoc.
    apply Hat; [rewrite length_app /=; lia|simpl; lia|lia|]. by rewrite /= Hd.
  - apply (Hat pre (PPP_ALLSTATIONS :: PPP_UI :: hi :: lo :: bs)); [done|simpl; lia|simpl; lia|]. by rewrite /= Hd.
Qed.

(** ** A packet from one end to the other *)

(** A packet that can be sent whole: its header is in the first mbuf. *)
Definition packet_ok (mru : Z) (m : chain) : Prop :=
  Forall sendable m /\ (exists x ch, m = x :: ch /\ 4 <= m_len x) /\ well_formed (chain_bytes m) /\
  Z.of_nat (length (chain_bytes m)) <= mru + 4.

Lemma nonempty_all m : Forall sendable m -> nonempty_prefix m = m.
Proof.
  induction 1 as [|x m [Hl _] _ IH]; [done|]. cbn. rewrite (proj2 (Z.ltb_lt _ _)); [apply Hl|]. by rewrite IH.
Qed.

Lemma packet_compressed mru flags m :
  packet_ok mru m -> let m' := compress_header flags m in
  sendable_chain m' /\ chain_bytes (nonempty_prefix m') = short_header flags (chain_bytes m).
Proof.
  intros (Hs & (x & ch & -> & H4) & Hwf & _) m'. apply Forall_cons_1 in Hs as [Hx Hch].
  destruct (compress_header_bytes flags x ch _ Hx eq_refl Hwf H4) as (x' & E & Hx' & Hb). unfold m'. rewrite E.
  assert (Hall : nonempty_prefix (x' :: ch) = x' :: ch) by (apply nonempty_all; by constructor).
  rewrite /sendable_chain Hall. split; [split; [done|by constructor]|done].
Qed.

Lemma short_header_ok flags pkt : well_formed pkt -> Forall byte_ok (short_header flags pkt).
Proof.
  intros (Hb & hi & lo & data & -> & _). unfold short_header.
  repeat (apply Forall_cons_1 in Hb as [? Hb]). cbn [PPP_ADDRESS PPP_CONTROL nth drop].
  destruct (comp_ac _ _), (_ && _); cbn [app]; repeat (apply List.Forall_cons; [done|]); done.
Qed.

(** The sender has put the frame of its next packet on the line, all of it. *)
Definition sent (polled : bool) (sc : softc) (line : bytes) (sc' : softc) : Prop :=
  sc_devp sc = true /\ may_begin (sc_tx sc) /\
  exists n, nsteps (line_step polled) n ([], ppp_txdaemon sc) (line, sc') /\ forall s, ~ line_step polled (line, sc') s.

(** The packets that wait, in the order in which they will be sent. *)
Definition waiting (i : ppp_if) : list chain := sc_fastq i ++ if_snd i.

Lemma next_packet_waiting i :
  match next_packet i with Some (m, i') => waiting i = m :: waiting i' | None => waiting i = [] end.
Proof.
  unfold next_packet, waiting. destruct (sc_fastq i) as [|m q] eqn:Ef; [destruct (if_snd i) as [|m q] eqn:Es|]; by rewrite /= ?Ef.
Qed.

(** What the calls of the driver leave alone. *)
Definition same_unit (sc sc' : softc) : Prop :=
  sc_flags sc' = sc_flags sc /\ sc_if sc' = sc_if sc /\ sc_devp sc' = sc_devp sc /\
  sc_asyncmap (sc_tx sc') = sc_asyncmap (sc_tx sc) /\ sc_outfcsbuf (sc_tx sc') = sc_outfcsbuf (sc_tx sc).

Lemma same_unit_trans sc1 sc2 sc3 : same_unit sc1 sc2 -> same_unit sc2 sc3 -> same_unit sc1 sc3.
Proof. intros (?&?&?&?&?) (?&?&?&?&?). repeat split; congruence. Qed.

Lemma tx_fetch_keeps i t : sc_asyncmap (tx_fetch i t) = sc_asyncmap t /\ sc_outfcsbuf (tx_fetch i t) = sc_outfcsbuf t.
Proof. unfold tx_fetch. by case_match. Qed.

Lemma tx_run_keeps fuel i t :
  sc_asyncmap (tx_run fuel i t).2 = sc_asyncmap t /\ sc_outfcsbuf (tx_run fuel i t).2 = sc_outfcsbuf t.
Proof.
  revert i t. induction fuel as [|fuel IH]; intros i t; cbn [tx_run]; [by destruct (_ && _)|].
  destruct (_ && _); [|done]. destruct (IH (i + 1) (tx_fetch (sc_outoff t + (i + 1)) t)) as [-> ->]. apply tx_fetch_keeps.
Qed.

Lemma tx_data_keeps polled sc : same_unit sc (tx_data polled sc).
Proof.
  unfold tx_data. destruct (tx_fetch_keeps (sc_outoff (sc_tx sc)) (sc_tx sc)) as [Ha Hf]. set (t := tx_fetch _ _) in *.
  set (r := if ESCAPE_P _ _ then _ else _).
  assert (Hr : sc_asyncmap r.2 = sc_asyncmap (sc_tx sc) /\ sc_outfcsbuf r.2 = sc_outfcsbuf (sc_tx sc)).
  { unfold r. destruct (ESCAPE_P _ _); [by destruct (has_bits _ _)|].
    destruct (tx_run_keeps (Z.to_nat (sc_outlen t - sc_outoff t)) 0 t) as [H1 H2]. destruct (tx_run _ 0 t) as [n t']. cbn in *. by rewrite H1 H2. }
  destruct r as [[n buf] t']. cbn in Hr. destruct Hr. destruct polled; [done|]. by case_match.
Qed.

Lemma tx_next_keeps sc : same_unit sc (tx_next sc).2.
Proof. unfold tx_next. by repeat case_match. Qed.

Lemma pppstart_keeps polled len sc : same_unit sc (pppstart polled len sc).
Proof.
  unfold pppstart. case_match; [done|]. set (sc1 := if sc_outoff_update _ then _ else _).
  assert (H1 : same_unit sc sc1) by (unfold sc1; by case_match). case_match; [done|].
  eapply same_unit_trans; [exact H1|]. clear H1. pose proof (tx_next_keeps sc1) as Hn.
  destruct (sc_outlen (sc_tx sc1) <=? sc_outoff (sc_tx sc1)).
  - destruct (tx_next sc1) as [[] sc2]; [done|]. case_match; [|done]. eapply same_unit_trans; [exact Hn|apply tx_data_keeps].
  - case_match; [apply tx_data_keeps|done].
Qed.

Lemma line_steps_keep polled n s s' : nsteps (line_step polled) n s s' -> same_unit s.2 s'.2.
Proof.
  induction 1 as [|n s1 s2 s3 Hs _ IH]; [done|]. eapply same_unit_trans; [|exact IH]. destruct Hs. apply pppstart_keeps.
Qed.

(** The task takes the first of the packets that wait. *)
Lemma ppp_txdaemon_keeps sc m i :
  may_begin (sc_tx sc) -> sc_devp sc = true -> next_packet (sc_if sc) = Some (m, i) ->
  let sc' := ppp_txdaemon sc in
  sc_flags sc' = sc_flags sc /\ sc_devp sc' = true /\ waiting (sc_if sc') = waiting i /\
  sc_asyncmap (sc_tx sc') = sc_asyncmap (sc_tx sc) /\ length (sc_outfcsbuf (sc_tx sc')) = 8%nat.
Proof.
  intros [Hf Hm] Hd Hn sc'. unfold sc', ppp_txdaemon. set (sc1 := if TX_TRANSMIT _ then _ else _).
  assert (H1 : sc_outm (sc_tx sc1) = None /\ same_unit sc sc1).
  { unfold sc1. destruct Hm as [->|[Hp Ho]]; [done|]. by destruct (TX_TRANSMIT (sc_tx sc)). }
  destruct H1 as (Ho1 & Hfl1 & Hi1 & Hd1 & Ha1 & Hf1). rewrite Ho1.
  replace (TX_PACKET (sc_tx sc) || TX_TRANSMIT (sc_tx sc)) with true by by destruct Hm as [->|[-> _]]; rewrite ?orb_true_r.
  unfold ppp_dequeue. rewrite Hi1 Hn. unfold tx_begin, on_tx. cbn. rewrite Hd1 Hd. cbn.
  by rewrite Hfl1 Ha1 length_drop Hf1 Hf.
Qed.

Lemma sent_frame mru polled sc m i line sc' :
  sent polled sc line sc' -> next_packet (sc_if sc) = Some (m, i) -> packet_ok mru m ->
  line = line_frame (sc_asyncmap (sc_tx sc)) (short_header (sc_flags sc) (chain_bytes m)) /\
  may_begin (sc_tx sc') /\ sc_devp sc' = true /\ sc_flags sc' = sc_flags sc /\ waiting (sc_if sc') = waiting i /\
  sc_asyncmap (sc_tx sc') = sc_asyncmap (sc_tx sc).
Proof.
  intros (Hd & Hmb & n & Hn & Hstuck) Hnp Hok. destruct (packet_compressed mru (sc_flags sc) m Hok) as [Hs Hb].
  assert (Hq : (ppp_dequeue sc).1 = Some (compress_header (sc_flags sc) m)) by by rewrite /ppp_dequeue Hnp.
  pose proof (ppp_txdaemon_begins polled _ sc Hd Hmb Hq Hs) as Hu.
  destruct (under_way_runs _ _ _ _ _ _ _ Hu Hn) as (todo & E & Hu' & _). rewrite Hb in E.
  destruct (decide (todo = [])) as [->|Hne].
  - rewrite app_nil_r in E. split; [done|]. destruct Hu' as [_ [H|(_ & _ & Ht & _)]].
    + destruct (handed_write _ _ _ H) as [Hw Htk]. by rewrite take_nil in Htk.
    + destruct (ppp_txdaemon_keeps sc m i Hmb Hd Hnp) as (Hf1 & Hd1 & Hw1 & Ha1 & Hl1).
      destruct (line_steps_keep _ _ _ _ Hn) as (Hf2 & Hi2 & Hd2 & Ha2 & Hl2). cbn [snd] in *.
      rewrite /may_begin Hf2 Hi2 Hd2 Ha2 Hl2. repeat split; try done. by left.
  - exfalso. destruct (under_way_more _ _ line _ Hu' Hne) as (line' & sc'' & Hstep). by apply (Hstuck (line', sc'')).
Qed.

(** Frame after frame, as long as packets wait. *)
Inductive sends (polled : bool) : softc -> bytes -> softc -> Prop :=
  | sends_none sc : sends polled sc [] sc
  | sends_frame sc line sc1 line' sc2 :
      next_packet (sc_if sc) <> None -> sent polled sc line sc1 -> sends polled sc1 line' sc2 ->
      sends polled sc (line ++ line') sc2.

(** The two ends fit together: their maps; the receiver's buffers take what it
    allows the other side; address and control are left out only if it agrees. *)
Record ends_fit (sc rc : softc) : Prop := {
  ef_maps : maps_agree (sc_asyncmap (sc_tx sc)) (sc_rasyncmap (sc_rx rc));
  ef_mru : 1500 <= sc_mru rc;
  ef_roomy : Forall (roomy (sc_mru rc)) (buffers rc);
  ef_ac : has_bits (sc_flags sc) SC_COMP_AC = true -> has_bits (sc_flags rc) SC_REJ_COMP_AC = false
}.

Lemma comp_ac_flag flags pkt : comp_ac flags pkt = true -> has_bits flags SC_COMP_AC = true.
Proof. unfold comp_ac. by destruct (has_bits flags SC_COMP_AC). Qed.

Lemma one_packet polled sc line sc1 m i rc ch q :
  sent polled sc line sc1 -> next_packet (sc_if sc) = Some (m, i) -> packet_ok (sc_mru rc) m ->
  idle rc -> ends_fit sc rc -> buffers rc = ch :: q ->
  let rc1 := receive line rc in
  idle rc1 /\ ends_fit sc1 rc1 /\ buffers rc1 = q /\ RX_PACKET (sc_rx rc1) = true /\ sc_mru rc1 = sc_mru rc /\
  exists ch', holds_packet (chain_bytes m) ch' /\ sc_rawq (sc_rx rc1) = sc_rawq (sc_rx rc) ++ [ch'].
Proof.
  intros Hs Hn Hok Hidle [Hmaps Hmru Hroomy Hac] Hb. pose proof Hok as (_ & _ & Hwf & Hlen).
  destruct (sent_frame _ _ _ _ _ _ _ Hs Hn Hok) as (-> & _ & _ & Hf1 & _ & Ha1). rewrite Hb in Hroomy.
  assert (H4 : (4 <= length (chain_bytes m))%nat) by (destruct Hwf as (_ & hi & lo & data & -> & _); simpl; lia).
  destruct (receive_frame (sc_asyncmap (sc_tx sc)) (short_header (sc_flags sc) (chain_bytes m)) (chain_bytes m) rc ch q) as
    (Hid & (Hra & Hm & Hrej) & Hbuf & Hrx & ch' & Hbytes & Hraw); [done|done|done|done|done|by apply short_header_ok| |done|done|].
  { apply expand_short_header; [done|]. intros H%comp_ac_flag. auto. }
  split; [done|]. split; [|repeat split; eauto].
  split; [by rewrite Ha1 Hra|by rewrite Hm|by rewrite Hm Hbuf; apply Forall_cons_1 in Hroomy as [_ ?]|by rewrite Hf1 Hrej].
Qed.

(** C9: the packets that wait arrive at the other end, the same bytes in the
    same order: whatever of the header is left out on the way and whatever is
    escaped, however the driver cuts up what it sends, and however many packets
    go, as long as the receiver has a buffer for each. *)
Theorem ppp_link_delivers polled sc line sc' rc :
  sends polled sc line sc' -> idle rc -> ends_fit sc rc -> Forall (packet_ok (sc_mru rc)) (waiting (sc_if sc)) ->
  exists taken, waiting (sc_if sc) = taken ++ waiting (sc_if sc') /\ (taken = [] -> line = []) /\
  ((length taken <= length (buffers rc))%nat ->
   exists chs, sc_rawq (sc_rx (receive line rc)) = sc_rawq (sc_rx rc) ++ chs /\ Forall2 holds_packet (map chain_bytes taken) chs /\
     (taken <> [] -> RX_PACKET (sc_rx (receive line rc)) = true) /\ idle (receive line rc)).
Proof.
  intros Hs. revert rc. induction Hs as [sc|sc line sc1 line' sc2 Hn Hsent _ IH]; intros rc Hidle Hfit Hok.
  { exists []. split; [done|]. split; [done|]. intros _. exists []. by rewrite app_nil_r. }
  pose proof (next_packet_waiting (sc_if sc)) as Hw. destruct (next_packet (sc_if sc)) as [[m i]|] eqn:En; [|done].
  rewrite Hw in Hok |- *. apply Forall_cons_1 in Hok as [Hm Hok].
  destruct (sent_frame _ _ _ _ _ _ _ Hsent En Hm) as (Eline & _ & _ & Hf1 & Hw1 & Ha1). rewrite -Hw1 in Hok |- *.
  destruct (buffers rc) as [|ch q] eqn:Eb.
  { destruct (IH rc) as (taken & E & _ & _); [done| |done|exists (m :: taken); split; [by rewrite E|split; [done|simpl; lia]]].
    destruct Hfit. by split; rewrite ?Ha1 ?Hf1. }
  destruct (one_packet polled sc line sc1 m i rc ch q) as (Hid1 & Hfit1 & Hb1 & Hrx1 & Hm1 & ch' & Hbytes & Hraw); [done..|].
  destruct (IH (receive line rc)) as (taken & E & He & H); [done|done|by rewrite Hm1|]. exists (m :: taken). split; [by rewrite E|]. split; [done|].
  intros Hlen. rewrite Hb1 in H. destruct H as (chs & Hr & Hc & Hp & Hid); [simpl in Hlen; lia|].
  exists (ch' :: chs). rewrite receive_app Hr Hraw -app_assoc. split; [done|]. split; [by constructor|]. split; [|done].
  intros _. destruct taken; [by rewrite He|by apply Hp].
Qed.

(** ** Errors on the line *)

(** An octet has nothing to do with the packets that have been received. *)
Definition keeps_received (sc sc' : softc) : Prop :=
  sc_rawq (sc_rx sc') = sc_rawq (sc_rx sc) /\ sc_devp sc' = sc_devp sc /\
  (sc_m (sc_rx sc) <> None -> sc_m (sc_rx sc') <> None) /\
  (sc_if sc' = sc_if sc /\ sc_tx sc' = sc_tx sc) /\ RX_PACKET (sc_rx sc') = RX_PACKET (sc_rx sc).

Definition keeps_received_rx (r r' : rx) : Prop :=
  sc_rawq r' = sc_rawq r /\ (sc_m r <> None -> sc_m r' <> None) /\ RX_PACKET r' = RX_PACKET r.

Lemma keeps_received_rx_trans r1 r2 r3 : keeps_received_rx r1 r2 -> keeps_received_rx r2 r3 -> keeps_received_rx r1 r3.
Proof. intros (?&?&?) (?&?&?). split; [congruence|split; [auto|congruence]]. Qed.

Lemma on_mc_keeps g r : keeps_received_rx r (on_mc g r).
Proof. unfold on_mc. repeat case_match; done. Qed.

Lemma rx_put_keeps c r : keeps_received_rx r (rx_put c r).
Proof.
  unfold rx_put. repeat case_match; try done.
  eapply (keeps_received_rx_trans _ (on_mc _ r)); [apply on_mc_keeps|done].
Qed.

Lemma rx_len_keeps n r : keeps_received_rx r (rx_len n r).
Proof. apply on_mc_keeps. Qed.

Definition outcome (o : progress) : softc := match o with Next sc => sc | Flushed sc => sc end.

(** ... nor with flags. *)
Definition keeps_frame (sc sc' : softc) : Prop :=
  keeps_received_rx (sc_rx sc) (sc_rx sc') /\ sc_devp sc' = sc_devp sc /\ sc_flags sc' = sc_flags sc /\
  sc_if sc' = sc_if sc /\ sc_tx sc' = sc_tx sc.

Lemma keeps_frame_trans sc1 sc2 sc3 : keeps_frame sc1 sc2 -> keeps_frame sc2 sc3 -> keeps_frame sc1 sc3.
Proof. intros (?&?&?&?&?) (?&?&?&?&?). split; [by eapply keeps_received_rx_trans|repeat split; congruence]. Qed.

Lemma keeps_on_rx g sc : (forall r, keeps_received_rx r (g r)) -> keeps_frame sc (on_rx g sc).
Proof. intros Hg. split; [apply Hg|done]. Qed.

Lemma rx_start_keeps c sc : keeps_frame sc (outcome (rx_start c sc)).
Proof.
  unfold rx_start. case_match; [|done]. set (sc1 := on_rx _ sc).
  assert (H1 : keeps_frame sc sc1).
  { apply keeps_on_rx. intros r. eapply (keeps_received_rx_trans _ (on_mc _ (set_sc_mc 0 r))); [|done].
    eapply (keeps_received_rx_trans _ (set_sc_mc 0 r)); [done|apply on_mc_keeps]. }
  case_match; [|done]. case_match; [done|]. cbn [outcome]. eapply keeps_frame_trans; [exact H1|]. apply keeps_on_rx. intros r.
  eapply keeps_received_rx_trans; [|apply rx_len_keeps].
  eapply (keeps_received_rx_trans _ (rx_put PPP_UI (rx_put PPP_ALLSTATIONS r))); [|done].
  eapply keeps_received_rx_trans; apply rx_put_keeps.
Qed.

Lemma rx_protocol_keeps c sc : keeps_frame sc (outcome (rx_protocol c sc)).
Proof.
  unfold rx_protocol. set (sc1 := if (_ && _ : bool) then _ else sc).
  assert (H1 : keeps_frame sc sc1).
  { unfold sc1. case_match; [|done]. apply keeps_on_rx. intros r. eapply keeps_received_rx_trans; [|apply rx_len_keeps].
    eapply (keeps_received_rx_trans _ (rx_put 0 r)); [apply rx_put_keeps|done]. }
  by case_match.
Qed.

Lemma rx_room_keeps sc : keeps_frame sc (outcome (rx_room sc)).
Proof.
  unfold rx_room. case_match; [|done]. case_match; [|done]. case_match; [|done].
  unfold dequeue. destruct (sc_freeq (sc_rx sc)) as [|[|n ch] q]; done.
Qed.

Lemma rx_octet_keeps c sc :
  keeps_received sc (rx_octet c sc) /\
  forall f, f = SC_FLUSH \/ f = SC_ESCAPED -> f = SC_FLUSH /\ has_bits (sc_flags (rx_octet c sc)) f = true \/
    has_bits (sc_flags (rx_octet c sc)) f = has_bits (sc_flags sc) f.
Proof.
  unfold rx_octet. set (o := and_then _ _).
  assert (Ho : keeps_frame sc (outcome o)).
  { assert (Hthen : forall o g, keeps_frame sc (outcome o) -> (forall sc, keeps_frame sc (outcome (g sc))) -> keeps_frame sc (outcome (and_then o g))).
    { intros [sc'|sc'] g Ho Hg; [|done]. cbn in *. eapply keeps_frame_trans; [exact Ho|apply Hg]. }
    unfold o. repeat apply Hthen; [apply rx_start_keeps| |apply rx_protocol_keeps| |apply rx_room_keeps|].
    - intros sc'. unfold rx_control. by case_match.
    - intros sc'. unfold rx_count. by case_match.
    - intros sc'. unfold rx_store. apply keeps_on_rx. intros r.
      eapply (keeps_received_rx_trans _ (rx_put c (rx_len 1 r))); [|done].
      eapply keeps_received_rx_trans; [apply rx_len_keeps|apply rx_put_keeps]. }
  destruct Ho as ((Hr & Hm & Hp) & Hd & Hf & Hi & Ht). destruct o as [sc'|sc']; cbn [outcome] in *.
  - split; [by repeat split|]. intros f _. right. by rewrite Hf.
  - unfold rx_flush. destruct (has_bits (sc_flags sc') SC_FLUSH) eqn:Efl; cbn [negb].
    + split; [by repeat split|]. intros f _. right. by rewrite Hf.
    + split; [by repeat split|]. unfold raise_flag, rx_error. cbn [sc_flags set_sc_flags on_stats set_sc_stats].
      intros f [->| ->]; [left; split; [done|]|right]; rewrite has_bits_lor Hf; [by rewrite orb_true_r|by rewrite orb_false_r].
Qed.

(** The receiver has nothing to do with the interface and the transmitter. *)
Definition keeps_others (sc sc' : softc) : Prop := sc_if sc' = sc_if sc /\ sc_tx sc' = sc_tx sc /\ sc_devp sc' = sc_devp sc.

Lemma note_line_others c sc : keeps_others sc (note_line c sc).
Proof. unfold note_line. by repeat case_match. Qed.

Lemma rx_frame_end_others sc : keeps_others sc (rx_frame_end sc).
Proof.
  unfold rx_frame_end. case_match; [by case_match|]. case_match; [by case_match|].
  set (p := if has_bits _ SC_PKTLOST then _ else _). assert (Hp : keeps_others sc p.2) by (unfold p; by case_match).
  destruct p as [m sc']. exact Hp.
Qed.

Lemma pppinput_others c sc : keeps_others sc (pppinput c sc).
Proof.
  unfold pppinput. case_match; [done|]. assert (Hb : keeps_others sc (rx_buffer sc)) by (unfold rx_buffer; by case_match).
  case_bool_decide; [exact Hb|]. set (sc2 := note_line _ _).
  assert (Htrans : forall sc1 sc2 sc3, keeps_others sc1 sc2 -> keeps_others sc2 sc3 -> keeps_others sc1 sc3).
  { intros ??? (?&?&?) (?&?&?). repeat split; congruence. }
  assert (H2 : keeps_others sc sc2) by (refine (Htrans _ _ _ _ (note_line_others _ _)); exact Hb).
  assert (Ho : forall c sc', keeps_others sc sc' -> keeps_others sc (rx_octet c sc')).
  { intros c' sc' H'. eapply Htrans; [exact H'|]. destruct (rx_octet_keeps c' sc') as [(_ & Hd & _ & (Hi & Ht) & _) _]. done. }
  case_match; [eapply Htrans; [exact H2|apply rx_frame_end_others]|]. case_match; [done|].
  case_match; [by apply Ho|]. case_match; [done|by apply Ho].
Qed.

Lemma receive_if line sc : sc_if (receive line sc) = sc_if sc.
Proof.
  revert sc. induction line as [|c line IH]; intros sc; [done|]. change (sc_if (receive line (pppinput c sc)) = sc_if sc).
  rewrite IH. apply pppinput_others.
Qed.

(** The frame is thrown away; [q] are the packets received before. *)
Record lost (q : list chain) (sc : softc) : Prop := {
  lo_open : sc_devp sc = true;
  lo_buffer : sc_m (sc_rx sc) <> None;
  lo_flush : has_bits (sc_flags sc) SC_FLUSH = true;
  lo_received : sc_rawq (sc_rx sc) = q
}.

Lemma lost_line q sc sc' : same_line sc sc' -> lost q sc -> lost q sc'.
Proof. intros (Hr & Hm & Hd & Hf) []. split; rewrite ?Hr ?Hd ?Hf; tauto. Qed.

Lemma lost_octet q c sc : lost q sc -> lost q (rx_octet c sc).
Proof.
  intros [Hd Hm Hf Hq]. destruct (rx_octet_keeps c sc) as [(Hr & Hd' & Hm' & _) Hfl]. split; [congruence|auto| |congruence].
  destruct (Hfl SC_FLUSH ltac:(tauto)) as [[_ H]|H]; [done|by rewrite H].
Qed.

Lemma raise_escaped_lost q sc : lost q sc -> lost q (raise_flag SC_ESCAPED sc).
Proof. intros []. split; try done. unfold raise_flag. cbn. by rewrite has_bits_lor lo_flush0. Qed.

Lemma clear_escaped_lost q sc : lost q sc -> lost q (clear_flag SC_ESCAPED sc).
Proof. intros []. split; try done. unfold clear_flag. cbn -[has_bits]. by rewrite has_bits_ldiff_other. Qed.

Lemma lost_char q c sc : lost q sc -> byte_ok c -> c <> PPP_FLAG -> lost q (pppinput c sc).
Proof.
  intros Hl Hc Hn. rewrite pppinput_char //; [apply Hl|apply Hl|]. cbn zeta. set (sc1 := note_line _ _).
  assert (H1 : lost q sc1) by (eapply lost_line; [apply note_line_same|done]). rewrite (proj2 (Z.eqb_neq _ _) Hn).
  case_match; [done|]. case_match; [by apply lost_octet, clear_escaped_lost|]. case_match; [by apply raise_escaped_lost|by apply lost_octet].
Qed.

Lemma lost_chars q cs sc : lost q sc -> Forall byte_ok cs -> ~ In PPP_FLAG cs -> lost q (receive cs sc).
Proof.
  intros Hl Hc. revert sc Hl. induction Hc as [|c cs Hc _ IH]; intros sc Hl Hn; [done|]. apply (IH (pppinput c sc)).
  - apply lost_char; [done|done|]. intros ->. apply Hn. by left.
  - intros H. apply Hn. by right.
Qed.

Lemma spelt_no_flag ra bs line : spelt ra bs line -> Forall byte_ok bs -> Forall byte_ok line /\ ~ In PPP_FLAG line.
Proof.
  induction 1 as [|c bs l line Hl _ IH]; intros Hb; [split; [constructor|by intros []]|].
  apply Forall_cons_1 in Hb as [Hc Hb]. destruct (IH Hb) as [IH1 IH2].
  destruct Hl as [Hn _ _|d -> Hn _]; cbn [app].
  - split; [by apply List.Forall_cons|]. by intros [H|H]; auto.
  - split; [|by intros [H|[H|H]]; auto]. apply List.Forall_cons; [done|].
    apply List.Forall_cons; [rewrite -(trans_trans d); by apply trans_ok|done].
Qed.

Lemma stuff_no_flag a ra bs : maps_agree a ra -> Forall byte_ok bs -> Forall byte_ok (stuff a bs) /\ ~ In PPP_FLAG (stuff a bs).
Proof. intros Hmaps Hb. by apply (spelt_no_flag ra bs); [apply stuff_spelt|]. Qed.

(** An octet that cannot be next, or one too many. *)
Lemma holding_octet_lost b size bs raw c sc :
  holding b size bs raw sc -> Z.of_nat (length bs) <= 2 ^ 14 + 6 -> (length bs <= size)%nat -> sc_mru sc + 6 <= Z.of_nat size ->
  lost (sc_rawq (sc_rx sc)) (rx_octet c sc) \/
  exists bs', accept (has_bits (sc_flags sc) SC_REJ_COMP_AC) bs c = Some bs' /\ Z.of_nat (length bs') <= sc_mru sc + 6.
Proof.
  intros Hh Hlen Hle Hsize. pose proof (holding_m _ _ _ _ _ Hh) as Hm.
  destruct (holding_ready _ _ _ _ _ Hh Hlen) as (fl & rest & r & Hrdy & Hst & Hfq & Hraw & Hra).
  destruct (rx_octet_keeps c sc) as [(Hr & Hd' & Hm' & _) _].
  assert (Hfl : has_bits (sc_flags (rx_octet c sc)) SC_FLUSH = true -> lost (sc_rawq (sc_rx sc)) (rx_octet c sc)).
  { intros Hf. split; [rewrite Hd'; apply Hh|auto|done|done]. }
  assert (Hflush : forall sc', has_bits (sc_flags (rx_flush sc')) SC_FLUSH = true).
  { intros sc'. unfold rx_flush. destruct (has_bits (sc_flags sc') SC_FLUSH) eqn:E; [done|]. unfold raise_flag. cbn -[has_bits].
    by rewrite has_bits_lor orb_true_r. }
  revert Hfl. rewrite (rx_octet_at c [] bs rest fl b _ _ r sc (ho_behind _ _ _ _ _ Hh) ltac:(rewrite Hfq; apply Hh) Hrdy).
  unfold octet_at, accept. destruct (header_octets _ _ c) as [ins|] eqn:Eh; [|intros Hfl; left; by apply Hfl].
  destruct (header_octets_length _ _ _ _ Eh) as (Hi3 & Hi2 & _). rewrite s16_id; [lia|].
  destruct (Z.ltb_spec (sc_mru sc + PPP_HDRLEN + PPP_FCSLEN) (Z.of_nat (length bs) + Z.of_nat (length ins) + 1)) as [Hbig|Hsmall].
  - intros Hfl. left. by apply Hfl.
  - intros _. right. eexists. split; [done|]. rewrite !length_app /=. unfold PPP_HDRLEN, PPP_FCSLEN in Hsmall. lia.
Qed.

(** Any octets: either they can be the beginning of a frame, or it is thrown away. *)
Lemma holding_or_lost line b size raw bs raw0 sc :
  spelt (sc_rasyncmap (sc_rx sc)) raw line -> holding b size bs raw0 sc -> Forall byte_ok raw ->
  Z.of_nat (length bs) <= sc_mru sc + 6 -> sc_mru sc + 6 <= Z.of_nat size <= 2 ^ 14 ->
  let sc' := receive line sc in
  lost (sc_rawq (sc_rx sc)) sc' \/
  same_frame sc sc' /\ exists bs', expand (has_bits (sc_flags sc) SC_REJ_COMP_AC) bs raw = Some bs' /\ holding b size bs' (raw0 ++ raw) sc'.
Proof.
  intros Hsp Hh Hraw. remember (sc_rasyncmap (sc_rx sc)) as ra eqn:Era. revert bs raw0 sc Era Hh Hraw.
  induction Hsp as [|c raw l line Hl Hsp IH]; intros bs raw0 sc Era Hh Hraw Hbs Hsize.
  { right. split; [done|]. exists bs. by rewrite app_nil_r. }
  rewrite receive_app. apply Forall_cons_1 in Hraw as [Hc Hraw]. subst ra.
  assert (Hlost : lost (sc_rawq (sc_rx sc)) (receive l sc) \/
    exists bs', accept (has_bits (sc_flags sc) SC_REJ_COMP_AC) bs c = Some bs' /\ Z.of_nat (length bs') <= sc_mru sc + 6).
  { destruct (receive_spelt l c sc) as (sc1 & Hs & ->); [done|apply Hh|by eapply holding_m|apply Hh|done|].
    pose proof Hs as (Hr1 & Hm1 & _ & Hf1). apply (same_line_holding _ _ _ _ _ _ Hs) in Hh.
    rewrite -Hm1 -Hr1 -Hf1; [tauto|]. rewrite -Hm1 in Hsize, Hbs. apply (holding_octet_lost b size bs raw0); [done|lia..]. }
  destruct Hlost as [Hlost|(bs1 & Ha & Hle)].
  - left. destruct (spelt_no_flag _ _ _ Hsp Hraw) as [H1 H2]. by apply lost_chars.
  - destruct (holding_spelt l b size bs raw0 c bs1 sc) as [Hh1 Hs1]; [done..|lia|lia|].
    pose proof Hs1 as (Hraw1 & _ & Hra & Hm1 & Hrej).
    destruct (IH bs1 (raw0 ++ [c]) (receive l sc)) as [H|(Hs2 & bs2 & He & Hh2)];
      [by rewrite Hra|done|done|by rewrite Hm1|by rewrite Hm1|left; by rewrite -Hraw1|].
    right. split; [by eapply same_frame_trans|]. exists bs2. rewrite -app_assoc in Hh2. split; [|done].
    cbn [expand]. rewrite Ha. cbn [mbind option_bind]. by rewrite -Hrej.
Qed.

(** A frame that is thrown away, or whose check is wrong. *)
Lemma rx_frame_end_drops sc :
  sc_devp sc = true ->
  has_bits (sc_flags sc) SC_FLUSH = true \/
  has_bits (sc_flags sc) SC_FLUSH = false /\ has_bits (sc_flags sc) SC_ESCAPED = false /\ 0 < sc_ilen (sc_rx sc) /\
    sc_fcs (sc_rx sc) <> PPP_GOODFCS ->
  let sc' := rx_frame_end sc in
  idle sc' /\ sc_rawq (sc_rx sc') = sc_rawq (sc_rx sc) /\ has_bits (sc_flags sc') SC_PKTLOST = true.
Proof.
  intros Hd H sc'. unfold sc', rx_frame_end. change (sc_flags (on_rx _ sc)) with (sc_flags sc).
  change (sc_fcs (sc_rx (on_rx _ sc))) with (sc_fcs (sc_rx sc)). rewrite has_flush_or_escaped.
  set (sc1 := raise_flag SC_PKTLOST (on_rx (set_sc_ilen 0) sc)).
  assert (Hf : sc_flags sc1 = Z.lor (sc_flags sc) SC_PKTLOST) by done.
  destruct H as [Hfu|(Hfu & He & Hil & Hfcs)]; rewrite Hfu.
  - cbn [orb]. rewrite Hf has_bits_lor has_flush_or_escaped Hfu. cbn [orb negb].
    change (sc_flags (clear_flag _ sc1)) with (Z.ldiff (Z.lor (sc_flags sc) SC_PKTLOST) (Z.lor SC_FLUSH SC_ESCAPED)).
    split; [split; [done|by apply has_bits_ldiff_same|by apply has_bits_ldiff_same|done]|]. split; [done|].
    rewrite has_bits_ldiff_other // has_bits_lor. by rewrite orb_true_r.
  - rewrite He (proj2 (Z.ltb_lt _ _) Hil) (proj2 (Z.eqb_neq _ _) Hfcs). cbn [orb andb negb].
    rewrite Hf has_bits_lor has_flush_or_escaped Hfu He. cbn [orb].
    change (has_bits SC_PKTLOST (Z.lor SC_FLUSH SC_ESCAPED)) with false. cbn [negb].
    change (sc_flags (rx_error sc1)) with (Z.lor (sc_flags sc) SC_PKTLOST).
    split; [split; [done| | |done]; change (sc_flags (rx_error sc1)) with (Z.lor (sc_flags sc) SC_PKTLOST);
      rewrite has_bits_lor ?Hfu ?He; done|].
    split; [done|]. rewrite has_bits_lor. by rewrite orb_true_r.
Qed.

(** ** Errors on the line *)

(** The characters that structure a frame: flags, escapes and the control
    characters that the receiver drops. *)
Definition frames (ra c : Z) : bool := (c =? PPP_FLAG) || (c =? PPP_ESCAPE) || dropped ra c.

(** Errors that make no such character and change none. *)
Definition keeps_framing (ra : Z) (line line' : bytes) : Prop :=
  Forall2 (fun c c' => frames ra c || frames ra c' = true -> c' = c) line line'.

Lemma framing_false ra c : frames ra c = false -> c <> PPP_FLAG /\ c <> PPP_ESCAPE /\ dropped ra c = false.
Proof. unfold frames. intros [[H1%Z.eqb_neq H2%Z.eqb_neq]%orb_false_elim H3]%orb_false_elim. done. Qed.

(** The octet that takes the place of another. *)
Lemma framing_kept ra c c' : (frames ra c || frames ra c' = true -> c' = c) -> c' = c \/ frames ra c' = false.
Proof. destruct (frames ra c'); [|auto]. rewrite orb_true_r. auto. Qed.

(** What the receiver takes a damaged line for: as many octets, with the errors
    in the same bits, but for the escapes that are not there any more. *)
Lemma spelt_damaged ra raw line line' :
  spelt ra raw line -> keeps_framing ra line line' -> Forall byte_ok raw -> Forall byte_ok line' ->
  exists bad, spelt ra bad line' /\ Forall byte_ok bad /\ length bad = length raw /\ shrinks (errors line line') (errors raw bad).
Proof.
  intros Hsp. revert line'. induction Hsp as [|c raw l line Hl Hsp IH]; intros line' Hk Hraw Hb.
  { inversion Hk; subst. exists []. split; [constructor|]. split; [constructor|]. split; [done|]. split; [auto|split; [eauto|done]]. }
  apply Forall_cons_1 in Hraw as [Hc Hraw]. destruct Hl as [Hnf Hne Hnd|d -> Hnf Hnd]; cbn [app] in Hk.
  - inversion Hk as [|? c' ? line1 Hcc Hk']; subst. apply Forall_cons_1 in Hb as [Hc' Hb].
    destruct (IH line1 Hk' Hraw Hb) as (bad & Hsp' & Hbad & Hlen & Hsh). exists (c' :: bad). split; [|split; [|split]].
    + change (c' :: line1) with ([c'] ++ line1). constructor; [|done].
      destruct (framing_kept _ _ _ Hcc) as [->|(? & ? & ?)%framing_false]; by apply spells_plain.
    + by constructor.
    + simpl. by rewrite Hlen.
    + rewrite !errors_cons. apply shrinks_octet; [by apply (within_lxor 8)|done].
  - inversion Hk as [|? e ? line1 He Hk1]; subst. inversion Hk1 as [|? d' ? line2 Hdd Hk']; subst.
    apply Forall_cons_1 in Hb as [_ Hb]. apply Forall_cons_1 in Hb as [Hd' Hb].
    assert (e = PPP_ESCAPE) as -> by (apply He; by rewrite /frames orb_true_r).
    destruct (IH line2 Hk' Hraw Hb) as (bad & Hsp' & Hbad & Hlen & Hsh). exists (Z.lxor d' PPP_TRANS :: bad). split; [|split; [|split]].
    + change (PPP_ESCAPE :: d' :: line2) with ([PPP_ESCAPE; d'] ++ line2). constructor; [|done].
      destruct (framing_kept _ _ _ Hdd) as [->|(? & ? & ?)%framing_false]; by apply spells_escaped.
    + constructor; [by apply trans_ok|done].
    + simpl. by rewrite Hlen.
    + rewrite !errors_cons Z.lxor_nilpotent Z.lxor_0_l.
      replace (Z.lxor (Z.lxor d PPP_TRANS) (Z.lxor d' PPP_TRANS)) with (Z.lxor d d')
        by (rewrite (Z.lxor_comm d' PPP_TRANS) Z.lxor_assoc -(Z.lxor_assoc PPP_TRANS) Z.lxor_nilpotent Z.lxor_0_l; done).
      eapply shrinks_trans; [apply shrinks_skip|]. apply shrinks_octet; [|done].
      apply (within_lxor 8); [done| |done]. rewrite -(trans_trans d). by apply trans_ok.
Qed.

(** C16: a burst of at most sixteen wrong bits, wherever on the line between the
    two flags of a frame, as long as it makes no flag, escape or control
    character that the receiver drops and changes none: the frame is not
    delivered, the receiver notes the loss and is ready for the next frame.
    (An error that makes a flag ends the frame there, and what is in front of it
    is judged as a frame of its own.) *)
Theorem ppp_burst_is_dropped a raw line' x k rc :
  let line := stuff a (raw ++ fcs_bytes (pppfcs PPP_INITFCS raw)) in
  idle rc -> maps_agree a (sc_rasyncmap (sc_rx rc)) -> 1500 <= sc_mru rc -> Forall (roomy (sc_mru rc)) (buffers rc) ->
  buffers rc <> [] -> Forall byte_ok raw -> Forall byte_ok line' ->
  0 < x < 2 ^ 16 -> 0 <= k -> errors line line' = Z.shiftl x k ->
  keeps_framing (sc_rasyncmap (sc_rx rc)) line line' ->
  let rc' := receive ([PPP_FLAG] ++ line' ++ [PPP_FLAG]) rc in
  idle rc' /\ sc_rawq (sc_rx rc') = sc_rawq (sc_rx rc) /\ has_bits (sc_flags rc') SC_PKTLOST = true.
Proof.
  intros line Hidle Hmaps Hmru Hroomy Hne Hraw Hline' Hx Hk Hburst Hkeep rc'.
  set (good := raw ++ fcs_bytes (pppfcs PPP_INITFCS raw)) in *.
  assert (Hgood : Forall byte_ok good) by (apply Forall_app; split; [done|apply fcs_bytes_ok]).
  destruct (spelt_damaged _ _ _ _ (stuff_spelt _ _ _ Hmaps Hgood) Hkeep Hgood Hline') as (bad & Hsp & Hbad & Hlen & Hsh).
  fold line in Hsh. destruct (shrinks_burst _ _ x k Hsh) as (x' & k' & Hx' & Hk' & Hburst'); [|done..|].
  { apply Z.lxor_nonneg. split; intros _; [apply (line_word_within bad)|apply (line_word_within good)]; done. }
  destruct (buffers rc) as [|ch q] eqn:Eb; [done|].
  pose proof Hroomy as [(m & b & Ech & Hw & Hl & Hbb & Hempty) _]%Forall_cons_1.
  destruct (idle_flag rc ch q m b Hidle Eb Hmru Hroomy Ech) as (Hh1 & (Hra1 & Hmru1 & Hrej1) & Hq1 & Hraw1).
  set (sc1 := pppinput PPP_FLAG rc) in *.
  assert (Hi : within 16 PPP_INITFCS) by done.
  assert (Hfcs : pppfcs PPP_INITFCS bad <> PPP_GOODFCS).
  { rewrite -(pppfcs_good (pppfcs PPP_INITFCS raw)); [by apply pppfcs_within|]. rewrite -pppfcs_app. intros E.
    by apply (fcs_finds_bursts PPP_INITFCS good bad x' k'). }
  pose proof (holding_or_lost line' b (length (m_store m)) bad [] [] sc1) as H. rewrite Hra1 Hmru1 Hraw1 in H.
  set (sc2 := receive line' sc1) in *.
  assert (E : rc' = pppinput PPP_FLAG sc2) by (unfold rc'; by rewrite !receive_app).
  assert (Hend : sc_devp sc2 = true /\ sc_m (sc_rx sc2) <> None /\ sc_rawq (sc_rx sc2) = sc_rawq (sc_rx rc) /\
    (has_bits (sc_flags sc2) SC_FLUSH = true \/ has_bits (sc_flags sc2) SC_FLUSH = false /\ has_bits (sc_flags sc2) SC_ESCAPED = false /\
       0 < sc_ilen (sc_rx sc2) /\ sc_fcs (sc_rx sc2) <> PPP_GOODFCS)).
  { destruct H as [[]|(Hs & bs & He & Hh)]; [done|done|done|simpl; lia|done|split; [done|]; split; [done|]; split; [done|by left]|].
    split; [apply Hh|]. split; [by eapply holding_m|]. split; [destruct Hs as (-> & _); done|]. right.
    split; [apply Hh|]. split; [apply Hh|]. destruct (ho_at _ _ _ _ _ Hh) as [fl Hat].
    case_decide as Hbs.
    { destruct Hat as (Eb' & _). simpl in Eb'. rewrite Eb' /good length_app /= in Hlen. lia. }
    destruct Hat as (rest & r & -> & _). rewrite sc_ilen_at. split; [destruct bs; [done|simpl; lia]|done]. }
  destruct Hend as (Hd2 & Hm2 & Hr2 & Hcase). rewrite E pppinput_char //. cbn zeta. change (PPP_FLAG =? PPP_FLAG) with true. cbn iota.
  set (sc3 := note_line _ _). assert (Hs3 : same_line sc2 sc3) by apply note_line_same.
  destruct Hs3 as (Hr3 & _ & Hd3 & Hf3). rewrite -Hr2 -Hr3. apply rx_frame_end_drops; [by rewrite Hd3|].
  rewrite !Hf3; [tauto..|]. by rewrite Hr3.
Qed.
