(* ===== verification/PppPath.v ===== *)
(** * The way of a packet

    From the [write] of one daemon to the [read] of the other, and from one IP
    to the other: output puts a packet with its header on a queue
    ([if_ppp.c], [ppp_tty.c]), [PppSend.v] and [PppFrames.v] take it over the line,
    and the receiving task hands it up. *)

From S2P Require Import Prelude Wire Inet Netif Fcs PppSoftc PppTty PppIf PppSend PppReceive PppFrames.

(** ** Data in an mbuf *)

Lemma fits_split m :
  fits m -> exists pre bs post, m = Mbuf (pre ++ bs ++ post) (length pre) (Z.of_nat (length bs)) (m_flags m) (m_writable m) /\
    m_bytes m = bs /\ length pre = m_data m /\ m_len m = Z.of_nat (length bs).
Proof.
  intros [Hl Hs]. exists (take (m_data m) (m_store m)), (m_bytes m), (drop (Z.to_nat (m_len m)) (mtod m)).
  assert (Hb : length (m_bytes m) = Z.to_nat (m_len m)) by (unfold m_bytes, mtod; rewrite length_take length_drop; lia).
  rewrite Hb length_take. split; [|split; [done|lia]]. unfold m_bytes. rewrite take_drop /mtod take_drop.
  destruct m as [st d l fl w]. cbn in *. f_equal; lia.
Qed.

Lemma fits_bytes_length m : fits m -> Z.of_nat (length (m_bytes m)) = m_len m.
Proof. intros (pre & bs & post & _ & -> & _ & ->)%fits_split. done. Qed.

Lemma m_bytes_mk pre bs post fl w : m_bytes (Mbuf (pre ++ bs ++ post) (length pre) (Z.of_nat (length bs)) fl w) = bs.
Proof. by rewrite /m_bytes /mtod /= drop_app_length Nat2Z.id take_app_length. Qed.

Lemma sendable_fits m : sendable m -> fits m.
Proof. intros [? ?]. split; [lia|done]. Qed.

Lemma fits_sendable m : fits m -> 0 < m_len m < 2 ^ 15 -> sendable m.
Proof. intros [? ?] ?. by split. Qed.

Lemma map_u8_ok bs : Forall byte_ok bs -> map u8 bs = bs.
Proof. induction 1 as [|c bs Hc _ IH]; [done|]. cbn. by rewrite IH u8_small. Qed.

(** The header is put in front, into the room the first mbuf has there. *)
Lemma add_header_bytes hdr x ch :
  length hdr = 4%nat -> Forall byte_ok hdr -> fits x -> (4 <= m_data x)%nat ->
  exists x', map_first (fun m => set_m_len (m_len m + PPP_HDRLEN) m)
      (store_first hdr (map_first (fun m => set_m_data (m_data m - 4) m) (x :: ch))) = x' :: ch /\
    fits x' /\ m_len x' = m_len x + 4 /\ m_bytes x' = hdr ++ m_bytes x /\ m_flags x' = m_flags x.
Proof.
  intros Hl Hb Hf Hd. destruct (fits_split x Hf) as (pre & bs & post & Ex & Hbs & Hpre & Hlen). rewrite Hlen Hbs.
  rewrite Ex. cbn [map_first store_first set_m_data set_m_len set_m_store m_data m_len m_store m_flags m_writable].
  rewrite map_u8_ok // Hl. replace (length pre - 4 + 4)%nat with (length pre) by lia.
  rewrite drop_app_length take_app_le; [lia|]. set (pre' := take (length pre - 4) pre).
  assert (Hp : length pre' = (length pre - 4)%nat) by (unfold pre'; rewrite length_take; lia). rewrite -Hp.
  eexists. split; [done|]. unfold PPP_HDRLEN.
  replace (Z.of_nat (length bs) + 4) with (Z.of_nat (length (hdr ++ bs))) by (rewrite length_app Hl; lia).
  split; [|split; [done|split; [|done]]].
  - split; simpl; [lia|]. rewrite !length_app. lia.
  - rewrite (app_assoc hdr). apply m_bytes_mk.
Qed.

(** ** Output *)

(** The packet waits, and the sending task knows of it. *)
Record queued (pkt : bytes) (sc sc' : softc) : Prop := {
  qu_rx : sc_rx sc' = sc_rx sc;
  qu_unit : sc_flags sc' = sc_flags sc /\ sc_devp sc' = sc_devp sc /\ sc_mru sc' = sc_mru sc;
  qu_map : sc_asyncmap (sc_tx sc') = sc_asyncmap (sc_tx sc) /\ sc_outfcsbuf (sc_tx sc') = sc_outfcsbuf (sc_tx sc) /\
    sc_outm (sc_tx sc') = sc_outm (sc_tx sc);
  qu_event : sc_outflag (sc_tx sc) = 0 -> TX_PACKET (sc_tx sc') = true;
  qu_waits : exists m x ch, m = x :: ch /\ chain_bytes m = pkt /\ Forall sendable m /\ 4 <= m_len x /\
    (waiting (sc_if sc) = [] -> waiting (sc_if sc') = [m])
}.

(** Output begins: the task is told if the transmitter is at rest. *)
Lemma enqueue_queued pkt x ch sc :
  chain_bytes (x :: ch) = pkt -> Forall sendable (x :: ch) -> 4 <= m_len x ->
  queued pkt sc (pppasyncstart (on_if (enqueue_out (x :: ch)) sc)).
Proof.
  intros Hb Hs H4. set (sc1 := on_if _ sc).
  assert (Hw : waiting (sc_if sc) = [] -> waiting (sc_if sc1) = [x :: ch]).
  { unfold sc1, on_if, enqueue_out, waiting. intros [Hf Hi]%app_nil. cbn [sc_if set_sc_if]. by case_match; rewrite /= Hf Hi. }
  assert (Hi1 : sc_if (pppasyncstart sc1) = sc_if sc1) by (unfold pppasyncstart; by case_match).
  unfold pppasyncstart in *. split; [by case_match|by case_match|by case_match| |].
  - intros H0. change (sc_outflag (sc_tx sc1)) with (sc_outflag (sc_tx sc)). by rewrite H0.
  - exists (x :: ch), x, ch. repeat split; [done|done|done|]. by rewrite Hi1.
Qed.

(** What output does before that. *)
Lemma queued_after pkt sc sc1 sc' :
  sc_rx sc1 = sc_rx sc -> sc_flags sc1 = sc_flags sc -> sc_devp sc1 = sc_devp sc -> sc_mru sc1 = sc_mru sc ->
  sc_tx sc1 = sc_tx sc -> waiting (sc_if sc1) = waiting (sc_if sc) -> queued pkt sc1 sc' -> queued pkt sc sc'.
Proof. intros Hr Hf Hd Hm Ht Hw []. rewrite Hr Hf Hd Hm Ht Hw in qu_rx0, qu_unit0, qu_map0, qu_event0, qu_waits0. by split. Qed.

(** The header of a packet in the room in front of its data, for a sender of
    mode [NPMODE_PASS]. *)
Definition header_of (a c p : Z) : bytes := [a; c; Z.shiftr p 8; Z.land p 0xff].

Lemma header_of_protocol a c h l : byte_ok h -> byte_ok l -> header_of a c (PPP_PROTOCOL [a; c; h; l]) = [a; c; h; l].
Proof.
  intros Hh Hl. unfold header_of, PPP_PROTOCOL. cbn [drop GETSHORT fmap option_fmap option_map default from_option fst id].
  unfold byte_ok in *. rewrite lor_shiftl_add; [lia..|]. change (2 ^ 8) with 256.
  rewrite Z.shiftr_div_pow2 //. change 255 with (Z.ones 8). rewrite Z.land_ones //. change (2 ^ 8) with 256.
  do 3 f_equal; [|f_equal]; Z.to_euclidean_division_equations; lia.
Qed.

(** ** The receiving task *)

Lemma chain_len_zero b : Forall (fun m => m_len m = 0) b -> chain_len b = 0.
Proof. induction 1 as [|m b Hm _ IH]; [done|]. change (m_len m + chain_len b = 0). by rewrite Hm IH. Qed.

Section Receive.
Context (mc : mbuf_config).

Lemma clear_mark_holds pkt ch sc :
  holds_packet pkt ch -> exists ch' sc', clear_mark ch sc = (ch', sc') /\ holds_packet pkt ch' /\
    sc_if sc' = sc_if sc /\ sc_devp sc' = sc_devp sc /\ sc_rx sc' = sc_rx sc.
Proof.
  intros (m & b & -> & Hf & Hb & Hz). unfold clear_mark. case_match; [|eexists _, _; split; [done|]; split; [|done]; by exists m, b].
  eexists _, _. split; [done|]. split; [|done]. by exists (set_m_flags (Z.ldiff (m_flags m) M_ERRMARK) m), b.
Qed.

Lemma copy_small_holds pkt ch sc :
  holds_packet pkt ch -> exists mf ch' sc', copy_small mc ch sc = (mf, ch', sc') /\ holds_packet pkt ch' /\
    sc_if sc' = sc_if sc /\ sc_devp sc' = sc_devp sc /\ sc_rx sc' = sc_rx sc.
Proof.
  intros Hh. assert (Hsame : holds_packet pkt ch /\ True) by done. pose proof Hh as (m & b & -> & Hf & Hb & Hz).
  assert (Hlen : chain_len (m :: b) = Z.of_nat (length pkt)).
  { change (m_len m + chain_len b = Z.of_nat (length pkt)). rewrite chain_len_zero // -Hb fits_bytes_length //. lia. }
  unfold copy_small. case_match eqn:Ec; [|by eexists _, _, _].
  unfold try_alloc. case_match; [|by eexists _, _, _]. eexists _, _, _. split; [done|]. split; [|done].
  apply andb_true_iff in Ec as [Ec%Z.leb_le _]. rewrite Hlen in Ec |- *. rewrite (holds_packet_bytes pkt) // Nat2Z.id firstn_all.
  eexists _, []. split; [done|]. split; [|split; [|done]].
  - split; simpl; [lia|]. rewrite length_app length_replicate. lia.
  - apply (m_bytes_mk [] pkt).
Qed.

Lemma holds_packet_protocol pkt ch :
  holds_packet pkt ch -> (4 <= length pkt)%nat -> PPP_PROTOCOL (default [] (mtod <$> head ch)) = PPP_PROTOCOL pkt.
Proof.
  intros (m & b & -> & Hf & <- & _) H4. destruct (fits_split m Hf) as (pre & bs & post & Em & Hb & _). rewrite Hb in H4 |- *.
  cbn [head fmap option_fmap option_map default from_option]. unfold id. rewrite Em /mtod /= drop_app_length.
  destruct bs as [|a [|c [|h [|l bs]]]]; simpl in H4; try lia. done.
Qed.

(** [ppp_inproc] hands the packet up as it came. *)
Lemma ppp_inproc_hands_up pkt ch sc :
  holds_packet pkt ch -> (4 <= length pkt)%nat ->
  exists ch' sc', (ppp_inproc mc ch sc).2 = hand_up (PPP_PROTOCOL pkt) ch' sc' /\ holds_packet pkt ch' /\
    sc_if sc' = sc_if sc /\ sc_devp sc' = sc_devp sc /\ sc_rx sc' = sc_rx sc.
Proof.
  intros Hh H4. unfold ppp_inproc. rewrite (holds_packet_protocol pkt) //. set (sc1 := on_stats _ sc).
  destruct (clear_mark_holds pkt ch sc1 Hh) as (ch1 & sc2 & -> & Hh1 & Hi2 & Hd2 & Hr2).
  destruct (copy_small_holds pkt ch1 sc2 Hh1) as (mf & ch2 & sc3 & -> & Hh2 & Hi3 & Hd3 & Hr3).
  exists ch2, sc3. split; [done|]. split; [done|]. by rewrite Hi3 Hd3 Hr3.
Qed.

(** To the daemon: its queue, and the event it waits for. *)
Lemma hand_up_control proto ch sc :
  proto <> PPP_IP -> IF_QFULL (sc_inq (sc_if sc)) = false ->
  let sc' := hand_up proto ch sc in
  sc_inq (sc_if sc') = sc_inq (sc_if sc) ++ [ch] /\ sc_devp sc' = sc_devp sc /\ sc_rx sc' = sc_rx sc /\
  (sc_pppdtask (sc_if sc) <> 0 -> PPPD_EVENT (sc_if sc') = true).
Proof.
  intros Hp Hq sc'. unfold sc', hand_up. set (sc1 := if Z.land proto 32768 =? 0 then _ else _).
  assert (H1 : sc_inq (sc_if sc1) = sc_inq (sc_if sc) /\ sc_devp sc1 = sc_devp sc /\ sc_rx sc1 = sc_rx sc /\
    sc_pppdtask (sc_if sc1) = sc_pppdtask (sc_if sc)) by (unfold sc1; by case_match).
  destruct H1 as (Hi & Hd & Hr & Ht). rewrite (proj2 (Z.eqb_neq _ _) Hp) Hi Hq. unfold pppasyncctlp.
  change (sc_pppdtask (sc_if (on_if _ sc1))) with (sc_pppdtask (sc_if sc1)). rewrite Ht.
  destruct (Z.eqb_spec (sc_pppdtask (sc_if sc)) 0); cbn; by rewrite Hi Hd Hr.
Qed.

(** To IP, without the header; only while the interface is up and IP may pass. *)
Lemma hand_up_ip ch sc :
  let sc' := hand_up PPP_IP ch sc in
  netisr (sc_if sc') = netisr (sc_if sc) ++
    (if has_bits (if_flags (sc_if sc)) IFF_UP && bool_decide (sc_npmode (sc_if sc) = NPMODE_PASS) then [strip_header ch] else []) /\
  sc_inq (sc_if sc') = sc_inq (sc_if sc) /\ sc_devp sc' = sc_devp sc /\ sc_rx sc' = sc_rx sc.
Proof.
  unfold hand_up. change (Z.land PPP_IP 32768 =? 0) with true. change (PPP_IP =? PPP_IP) with true. cbn iota.
  change (if_flags (sc_if (on_if _ sc))) with (if_flags (sc_if sc)).
  change (sc_npmode (sc_if (on_if _ sc))) with (sc_npmode (sc_if sc)).
  destruct (has_bits _ IFF_UP), (bool_decide _); cbn [negb orb andb]; by rewrite /= ?app_nil_r.
Qed.

(** One turn of the receiving task takes the packet that came first. *)
Lemma ppp_rxdaemon_turn pkt ch rest sc :
  RX_PACKET (sc_rx sc) = true -> sc_rawq (sc_rx sc) = ch :: rest -> holds_packet pkt ch -> (4 <= length pkt)%nat ->
  exists ch' sc', holds_packet pkt ch' /\ sc_if sc' = sc_if sc /\ sc_devp sc' = sc_devp sc /\
    let sc2 := ppp_rxdaemon mc sc in
    sc_if sc2 = sc_if (hand_up (PPP_PROTOCOL pkt) ch' sc') /\ sc_devp sc2 = sc_devp (hand_up (PPP_PROTOCOL pkt) ch' sc').
Proof.
  intros Hp Hq Hh H4. unfold ppp_rxdaemon. rewrite Hp. cbn [orb]. set (sc1 := on_rx _ sc).
  change (sc_rawq (sc_rx sc1)) with (sc_rawq (sc_rx sc)). rewrite Hq. cbn [dequeue].
  destruct (ppp_inproc_hands_up pkt ch (on_rx (set_sc_rawq rest) sc1) Hh H4) as (ch' & sc' & E & Hh' & Hi & Hd & _).
  destruct (ppp_inproc mc ch _) as [mf sc2]. cbn [snd] in E. subst sc2.
  exists ch', sc'. split; [done|]. split; [by rewrite Hi|]. split; [by rewrite Hd|]. cbn zeta. by case_match.
Qed.
End Receive.
(** ** The daemon's write *)

Definition plain (m : mbuf) : Prop := m_writable m = true /\ m_data m = 0%nat /\ sendable m.

Section Write.
Context (mc : mbuf_config).
Context (HM : 4 <= Z.of_nat (MLEN mc) < 2 ^ 15) (HC : 4 <= Z.of_nat (MCLBYTES mc) < 2 ^ 15).

Lemma write_chain_spec fuel buf sc :
  (length buf <= fuel)%nat ->
  let r := write_chain mc fuel buf sc in
  chain_bytes r.1 = buf /\ Forall plain r.1 /\ r.2 = set_sc_allocs (sc_allocs r.2) sc /\
  (buf <> [] -> exists x ch, r.1 = x :: ch /\ Z.min 4 (Z.of_nat (length buf)) <= m_len x).
Proof.
  revert buf sc. induction fuel as [|fuel IH]; intros buf sc Hl.
  { destruct buf; [|simpl in Hl; lia]. by destruct sc. }
  destruct buf as [|c buf]; [by destruct sc|]. cbn [write_chain].
  set (cl := if (MCLBYTES mc / 2 <=? length (c :: buf))%nat then try_alloc mc sc else (false, sc)).
  assert (Hcl : cl.2 = set_sc_allocs (sc_allocs cl.2) sc) by (unfold cl; case_match; by destruct sc).
  destruct cl as [cluster sc1]. cbn [snd] in Hcl. set (size := if (cluster : bool) then MCLBYTES mc else MLEN mc).
  assert (Hsize : 4 <= Z.of_nat size < 2 ^ 15) by (unfold size; by destruct cluster).
  set (n := Nat.min size (length (c :: buf))). assert (Hn : (1 <= n)%nat /\ (n <= size)%nat /\ (n <= length (c :: buf))%nat) by (unfold n; simpl; lia).
  specialize (IH (drop n (c :: buf)) sc1). destruct (write_chain mc fuel (drop n (c :: buf)) sc1) as [ch sc2].
  cbn [fst snd] in IH |- *. destruct IH as (Hb & Hp & Hs & _); [rewrite length_drop; simpl in *; lia|].
  assert (Ht : length (take n (c :: buf)) = n) by (rewrite length_take; lia).
  assert (Hx : m_bytes (Mbuf (take n (c :: buf) ++ replicate (size - n) 0) 0 (Z.of_nat n) (if (cluster : bool) then M_EXT else 0) true)
    = take n (c :: buf)).
  { pose proof (m_bytes_mk [] (take n (c :: buf)) (replicate (size - n) 0) (if (cluster : bool) then M_EXT else 0) true) as Hmk.
    by rewrite Ht in Hmk. }
  split; [|split; [|split]].
  - unfold chain_bytes in *. cbn [map concat]. by rewrite Hb Hx take_drop.
  - constructor; [|done]. split; [done|]. split; [done|]. split; simpl; [lia|]. rewrite length_app length_replicate Ht. lia.
  - rewrite Hs Hcl. by destruct sc.
  - intros _. eexists _, ch. split; [done|]. cbn [m_len]. unfold n. lia.
Qed.

(** What the daemon writes waits to be sent, as it was written. *)
Lemma pppwrite_queues buf sc :
  sc_devp sc = true -> has_bits (if_drv_flags (sc_if sc)) IFF_DRV_RUNNING = true -> well_formed buf ->
  let r := pppwrite mc buf sc in r.1 = E_OK /\ queued buf sc r.2.
Proof.
  intros Hd Hrun (Hok & hi & lo & data & Eb & _). cbn zeta. unfold pppwrite.
  destruct (write_chain_spec (length buf) buf sc ltac:(lia)) as (Hb & Hp & Hs & Hx).
  destruct (write_chain mc (length buf) buf sc) as [m0 sc1]. cbn [fst snd] in Hb, Hp, Hs, Hx.
  destruct Hx as (x & ch & -> & H4); [by rewrite Eb|]. rewrite Eb /= in H4. replace (Z.min 4 _) with 4 in H4 by lia.
  apply Forall_cons_1 in Hp as [(Hw & Hd0 & Hsx) Hp].
  assert (Hsch : Forall sendable ch) by (eapply Forall_impl; [|exact Hp]; by intros ? (_ & _ & ?)).
  destruct (mbuf_split x Hsx) as (pre & bs & post & Ex & Hbx & Hlx).
  assert (Epre : pre = []) by (rewrite Ex /= in Hd0; by apply nil_length_inv). subst pre.
  unfold chain_bytes in Hb. cbn [map concat] in Hb. rewrite Hbx in Hb.
  destruct bs as [|a [|c [|h [|l bs]]]]; simpl in Hlx; try lia.
  assert (Hbytes : Forall byte_ok [a; c; h; l]).
  { rewrite -Hb in Hok. cbn [app] in Hok. repeat (apply Forall_cons_1 in Hok as [? Hok]). by repeat (apply List.Forall_cons; [done|]). }
  set (fl := m_flags x). assert (Efl : x = Mbuf (a :: c :: h :: l :: bs ++ post) 0 (Z.of_nat (S (S (S (S (length bs)))))) fl true)
    by (rewrite Ex Hw; done). clear Ex.
  assert (Ehdr : take 4 (default [] (mtod <$> head (x :: ch))) = [a; c; h; l]) by (rewrite Efl; done). rewrite Ehdr.
  assert (Estrip : strip_header (x :: ch) = Mbuf (a :: c :: h :: l :: bs ++ post) 4 (Z.of_nat (length bs)) fl true :: ch).
  { rewrite Efl /strip_header. cbn [map_first m_data m_len set_m_len set_m_data m_store m_flags m_writable].
    by replace (Z.of_nat (S (S (S (S (length bs))))) - PPP_HDRLEN) with (Z.of_nat (length bs)) by (unfold PPP_HDRLEN; lia). }
  rewrite Estrip. unfold pppoutput. set (y := Mbuf _ 4 _ fl true).
  rewrite Hs. change (sc_devp (set_sc_allocs _ sc)) with (sc_devp sc).
  change (sc_if (set_sc_allocs _ sc)) with (sc_if sc). rewrite Hd Hrun. cbn [negb orb]. rewrite andb_false_r. cbn iota.
  set (fl' := Z.ldiff fl M_HIGHPRI).
  change (map_first (fun m => set_m_flags (Z.ldiff (m_flags m) M_HIGHPRI) m) (y :: ch)) with (set_m_flags fl' y :: ch).
  set (y1 := set_m_flags fl' y).
  change (default 0 (M_LEADINGSPACE <$> head (y1 :: ch)) <? PPP_HDRLEN) with false. cbn iota.
  cbn [negb]. rewrite bool_decide_false //. rewrite andb_false_r. cbn iota.
  change [PPP_ADDRESS [a; c; h; l]; PPP_CONTROL [a; c; h; l]; Z.shiftr (PPP_PROTOCOL [a; c; h; l]) 8; Z.land (PPP_PROTOCOL [a; c; h; l]) 255]
    with (header_of a c (PPP_PROTOCOL [a; c; h; l])).
  apply Forall_cons_1 in Hbytes as [Ba Hbytes]. apply Forall_cons_1 in Hbytes as [Bc Hbytes].
  apply Forall_cons_1 in Hbytes as [Bh Hbytes]. apply Forall_cons_1 in Hbytes as [Bl _].
  rewrite header_of_protocol //.
  destruct (add_header_bytes [a; c; h; l] y1 ch) as (x' & E & Hf' & Hl' & Hb' & _); [done|by repeat (apply List.Forall_cons; [done|])| |simpl; lia|].
  { split; simpl; rewrite ?length_app; lia. }
  rewrite E. split; [done|].
  assert (Ey : m_bytes y1 = bs) by apply (m_bytes_mk [a; c; h; l] bs post).
  set (sc2 := if Z.land (PPP_PROTOCOL [a; c; h; l]) 32768 =? 0 then _ else _).
  apply (queued_after buf sc sc2); [by unfold sc2; case_match..|].
  apply enqueue_queued; [|constructor; [|done]|rewrite Hl' /=; lia].
  - unfold chain_bytes. cbn [map concat]. rewrite Hb' Ey -Hb. done.
  - apply fits_sendable; [done|]. rewrite Hl' /y1 /=. destruct Hsx as [Hsx _]. rewrite Efl /= in Hsx. lia.
Qed.
End Write.

(** The daemon's read takes a packet whole. *)
Lemma pppread_takes pkt ch rest maximum sc :
  sc_devp sc = true -> sc_inq (sc_if sc) = ch :: rest -> holds_packet pkt ch -> pkt <> [] ->
  (pppread maximum sc).1 = Some (if Z.of_nat (length pkt) <? maximum then pkt else []).
Proof.
  intros Hd Hq (m & b & -> & Hf & Hb & Hz) Hne. unfold pppread. rewrite Hd Hq. cbn [negb fst]. f_equal. cbn [read_chain].
  pose proof (fits_bytes_length m Hf) as Hl. rewrite Hb in Hl. rewrite Z.add_0_l -Hl.
  assert (0 < Z.of_nat (length pkt)) by (destruct pkt; [done|simpl; lia]).
  rewrite (proj2 (Z.ltb_lt 0 _)) //. cbn [andb]. destruct (_ <? maximum); [|done]. rewrite Hb.
  destruct Hz as [|x b Hx _]; [by rewrite app_nil_r|]. cbn [read_chain]. by rewrite Hx app_nil_r.
Qed.

(** ** IP *)

(** A packet of IP with its header. *)
Definition ip_frame (ip : bytes) : bytes := PPP_ALLSTATIONS :: PPP_UI :: 0 :: PPP_IP :: ip.

(** A header in an mbuf of its own. *)
Lemma store_header_room hdr y ch :
  length hdr = 4%nat -> Forall byte_ok hdr -> m_len y = 0 -> (m_data y + 4 <= length (m_store y))%nat ->
  exists y', map_first (fun m => set_m_len (m_len m + PPP_HDRLEN) m) (store_first hdr (y :: ch)) = y' :: ch /\
    sendable y' /\ m_len y' = 4 /\ m_bytes y' = hdr.
Proof.
  intros Hl Hb H0 Hd. cbn [store_first map_first]. eexists. split; [done|]. cbn. rewrite H0 map_u8_ok // Hl. unfold PPP_HDRLEN.
  assert (Ht : length (take (m_data y) (m_store y)) = m_data y) by (rewrite length_take; lia).
  split; [|split; [done|]].
  - split; [simpl; lia|]. simpl. rewrite !length_app length_drop Ht Hl. lia.
  - rewrite /m_bytes /mtod /=. rewrite drop_app_length' // take_app_length' //.
Qed.

Section Output.
Context (mc : mbuf_config).
Context (HM : 4 <= Z.of_nat (MLEN mc) < 2 ^ 15) (HH : 4 <= Z.of_nat (MHLEN mc) < 2 ^ 15).

(** An empty mbuf in front of a chain, with room for a header. *)
Lemma m_prepend_room x ch :
  sendable x -> exists y x', map_first (set_m_len 0) (m_prepend mc 4 (x :: ch)) = y :: x' :: ch /\
    m_len y = 0 /\ (m_data y + 4 <= length (m_store y))%nat /\ sendable x' /\ m_bytes x' = m_bytes x.
Proof.
  intros Hx. unfold m_prepend. set (hdr := has_bits (m_flags x) M_PKTHDR).
  set (size := if hdr then MHLEN mc else MLEN mc). assert (Hs : 4 <= Z.of_nat size < 2 ^ 15) by (unfold size; by destruct hdr).
  set (off := if (4 <? size)%nat then _ else _). eexists _, _. split; [done|]. split; [done|]. split; [|by destruct hdr].
  cbn [m_data m_store set_m_len]. rewrite length_replicate. unfold off. destruct (Nat.ltb_spec 4 size); [|lia].
  pose proof (Nat.Div0.mul_div_le (size - 4) (LONG_SIZE mc)). lia.
Qed.

(** What IP sends waits with its header, on the fast queue or the other. *)
Lemma pppoutput_ip_queues x ch sc :
  sc_devp sc = true -> has_bits (if_drv_flags (sc_if sc)) IFF_DRV_RUNNING = true ->
  has_bits (if_flags (sc_if sc)) IFF_UP = true -> sc_npmode (sc_if sc) = NPMODE_PASS -> waiting (sc_if sc) = [] ->
  alloc_ok mc (sc_allocs sc) = true -> Forall sendable (x :: ch) -> m_len x + 4 < 2 ^ 15 ->
  let r := pppoutput mc (x :: ch) AF_INET sc in r.1 = E_OK /\ queued (ip_frame (chain_bytes (x :: ch))) sc r.2.
Proof.
  intros Hd Hrun Hup Hmode Hwait Halloc [Hx Hch]%Forall_cons_1 Hlen. cbn zeta. unfold pppoutput.
  rewrite Hd Hrun Hup Hmode. cbn [negb orb andb].
  set (x1 := set_m_flags (Z.ldiff (m_flags x) M_HIGHPRI) x).
  change (map_first _ (x :: ch)) with (x1 :: ch) at 1 2.
  set (m1 := if has_bits _ IPTOS_LOWDELAY then _ else _).
  assert (Hm1 : exists x2, m1 = x2 :: ch /\ sendable x2 /\ m_bytes x2 = m_bytes x /\ m_len x2 = m_len x /\ m_data x2 = m_data x /\ m_writable x2 = m_writable x)
    by (unfold m1; case_match; by eexists).
  destruct Hm1 as (x2 & -> & Hs2 & Hb2 & Hl2 & Hd2 & Hw2). clear x1. cbn zeta.
  set (hdr := [PPP_ALLSTATIONS; PPP_UI; Z.shiftr PPP_IP 8; Z.land PPP_IP 255]).
  assert (Hhdr : Forall byte_ok hdr) by (repeat (apply List.Forall_cons; [done|]); constructor).
  assert (Hgo : forall m sc1, (exists y r, m = y :: r /\ Forall sendable (y :: r) /\ 4 <= m_len y /\ chain_bytes (y :: r) = ip_frame (chain_bytes (x :: ch))) ->
    sc_if sc1 = sc_if sc -> (forall pkt sc', queued pkt sc1 sc' -> queued pkt sc sc') ->
    let res := (let sc2 := if Z.land PPP_IP 32768 =? 0 then on_if (set_sc_last_sent (sc_time sc1)) sc1 else sc1 in
      if bool_decide (NPMODE_PASS = NPMODE_QUEUE)
      then (E_OK, on_if (fun i => set_sc_npqueue (sc_npqueue i ++ [m]) i) sc2)
      else if IF_QFULL (out_queue m (sc_if sc2)) && true then (ENOBUFS, out_error sc2)
      else (E_OK, pppasyncstart (on_if (enqueue_out m) sc2))) in
    res.1 = E_OK /\ queued (ip_frame (chain_bytes (x :: ch))) sc res.2).
  { intros m sc1 (y & r & -> & Hy & H4 & Hb) Hi Hq. cbn zeta. change (Z.land PPP_IP 32768 =? 0) with true. cbn iota.
    rewrite bool_decide_false //. set (sc2 := on_if _ sc1).
    assert (Hf : IF_QFULL (out_queue (y :: r) (sc_if sc2)) = false).
    { unfold sc2, on_if. cbn [sc_if set_sc_if]. rewrite Hi. apply app_nil in Hwait as [Hf Hs]. unfold out_queue.
      case_match; cbn; by rewrite ?Hf ?Hs. }
    rewrite Hf. cbn [andb fst snd]. split; [done|]. apply Hq. apply (queued_after _ sc1 sc2); [done..|]. by apply enqueue_queued. }
  cbn [head fmap option_fmap option_map default from_option]. unfold id. destruct (Z.ltb_spec (M_LEADINGSPACE x2) PPP_HDRLEN) as [Hsp|Hsp].
  - unfold try_alloc. rewrite Halloc. cbn [negb].
    destruct (m_prepend_room x2 ch Hs2) as (y & x' & E & Hy0 & Hyd & Hx' & Hbx'). rewrite E.
    destruct (store_header_room hdr y (x' :: ch)) as (y' & E' & Hy' & Hly' & Hby'); [done|done|done|done|]. rewrite E'.
    apply (Hgo _ (set_sc_allocs (S (sc_allocs sc)) sc)); [|done|by intros ? ? []; split].
    exists y', (x' :: ch). split; [done|]. split; [by repeat (apply List.Forall_cons; [done|])|]. split; [lia|].
    unfold chain_bytes. cbn [map concat]. by rewrite Hby' Hbx' Hb2.
  - cbn [negb]. assert (H4 : (4 <= m_data x2)%nat) by (unfold M_LEADINGSPACE, PPP_HDRLEN in Hsp; case_match; lia).
    destruct (add_header_bytes hdr x2 ch) as (x' & E & Hf' & Hl' & Hb' & _); [done|done|by apply sendable_fits|done|]. rewrite E.
    apply (Hgo _ sc); [|done|done]. exists x', ch. split; [done|]. destruct Hx as [Hx _].
    split; [constructor; [|done]; apply fits_sendable; [done|lia]|]. split; [lia|].
    unfold chain_bytes. cbn [map concat]. by rewrite Hb' Hb2.
Qed.
End Output.

(** ** From end to end *)

(** The line is open and the sender has nothing to send. *)
Record at_ease (sc : softc) : Prop := {
  ae_open : sc_devp sc = true;
  ae_running : has_bits (if_drv_flags (sc_if sc)) IFF_DRV_RUNNING = true;
  ae_idle : sc_outflag (sc_tx sc) = 0 /\ sc_outm (sc_tx sc) = None /\ length (sc_outfcsbuf (sc_tx sc)) = 8%nat;
  ae_empty : waiting (sc_if sc) = []
}.

Lemma queued_ready pkt sc sc1 : queued pkt sc sc1 -> at_ease sc -> sc_devp sc1 = true /\ may_begin (sc_tx sc1).
Proof.
  intros [_ (_ & Hd & _) (_ & Hf & Ho) He _] [Hd0 _ (H0 & Ho0 & Hf0) _]. split; [by rewrite Hd|]. split; [by rewrite Hf|].
  right. split; [by apply He|by rewrite Ho].
Qed.

(** A packet that waits comes to the other end. *)
Lemma queued_arrives polled pkt sc sc1 line sc2 rc ch q :
  queued pkt sc sc1 -> at_ease sc -> well_formed pkt -> Z.of_nat (length pkt) <= sc_mru rc + 4 -> sent polled sc1 line sc2 ->
  idle rc -> ends_fit sc rc -> buffers rc = ch :: q ->
  let rc1 := receive line rc in
  idle rc1 /\ RX_PACKET (sc_rx rc1) = true /\ sc_if rc1 = sc_if rc /\
  exists ch', sc_rawq (sc_rx rc1) = sc_rawq (sc_rx rc) ++ [ch'] /\ holds_packet pkt ch'.
Proof.
  intros Hq Hae Hwf Hlen Hsent Hidle Hfit Hbuf rc1. destruct Hq as [_ (Hfl & _ & _) (Ha & _) _ (m & x & mch & Em & Hb & Hs & H4 & Hw)].
  specialize (Hw (ae_empty _ Hae)). pose proof (next_packet_waiting (sc_if sc1)) as Hn. rewrite Hw in Hn.
  destruct (next_packet (sc_if sc1)) as [[m' i]|] eqn:En; [|done]. injection Hn as <- _.
  destruct (one_packet polled sc1 line sc2 m i rc ch q) as (Hid & _ & _ & Hrx & _ & ch' & Hh & Hraw); [done|done| |done| |done|].
  - split; [done|]. split; [by exists x, mch|]. by rewrite Hb.
  - destruct Hfit. split; rewrite ?Ha ?Hfl; done.
  - rewrite Hb in Hh. split; [done|]. split; [done|]. split; [apply receive_if|]. by exists ch'.
Qed.

(** What one daemon writes the other one reads: the line takes the packet to
    the other end, the receiving task puts it on the daemon's queue, and the read
    returns it, byte for byte; or nothing of it, if it is not shorter than the
    daemon's buffer. *)
Lemma written_is_read mc mc' polled buf sc line sc' rc maximum :
  4 <= Z.of_nat (MLEN mc) < 2 ^ 15 -> 4 <= Z.of_nat (MCLBYTES mc) < 2 ^ 15 ->
  at_ease sc -> well_formed buf -> PPP_PROTOCOL buf <> PPP_IP -> Z.of_nat (length buf) <= sc_mru rc + 4 ->
  sent polled (pppwrite mc buf sc).2 line sc' ->
  idle rc -> ends_fit sc rc -> buffers rc <> [] -> sc_rawq (sc_rx rc) = [] -> sc_inq (sc_if rc) = [] ->
  (pppread maximum (ppp_rxdaemon mc' (receive line rc))).1 = Some (if Z.of_nat (length buf) <? maximum then buf else []).
Proof.
  intros HM HC Hae Hwf Hp Hlen Hsent Hidle Hfit Hbuf Hraw Hinq.
  destruct (pppwrite_queues mc HM HC buf sc (ae_open _ Hae) (ae_running _ Hae) Hwf) as [_ Hq].
  destruct (buffers rc) as [|ch q] eqn:Eb; [done|].
  destruct (queued_arrives _ _ _ _ _ _ _ _ _ Hq Hae Hwf Hlen Hsent Hidle Hfit Eb) as (Hid & Hrx & Hi & ch' & Hr & Hh).
  rewrite Hraw in Hr. assert (H4 : (4 <= length buf)%nat) by (destruct Hwf as (_ & hi & lo & data & -> & _); simpl; lia).
  destruct (ppp_rxdaemon_turn mc' buf ch' [] _ Hrx Hr Hh H4) as (ch2 & sc2 & Hh2 & Hi2 & Hd2 & Eif & Edv).
  destruct (hand_up_control (PPP_PROTOCOL buf) ch2 sc2 Hp) as (Hin & Hdv & _ & _); [by rewrite Hi2 Hi Hinq|].
  apply (pppread_takes buf ch2 []); [by rewrite Edv Hdv Hd2; apply Hid|by rewrite Eif Hin Hi2 Hi Hinq|done|].
  intros ->. simpl in H4. lia.
Qed.

Lemma ip_frame_well_formed ip : Forall byte_ok ip -> well_formed (ip_frame ip).
Proof.
  intros Hip. split; [by repeat (apply List.Forall_cons; [done|])|]. by exists 0, PPP_IP, ip.
Qed.

(** The header is taken off. *)
Lemma strip_header_bytes pkt ch : holds_packet pkt ch -> (4 <= length pkt)%nat -> chain_bytes (strip_header ch) = drop 4 pkt.
Proof.
  intros (m & b & -> & Hf & Hb & Hz) H4. destruct (fits_split m Hf) as (pre & bs & post & Em & Hbs & _). rewrite Hb in Hbs. rewrite -Hbs in Em.
  destruct pkt as [|a [|c [|h [|l pkt]]]]; simpl in H4; try lia. rewrite Em /strip_header.
  cbn [map_first m_data m_len set_m_len set_m_data m_store m_flags m_writable drop].
  replace (Z.of_nat (length (a :: c :: h :: l :: pkt)) - PPP_HDRLEN) with (Z.of_nat (length pkt)) by (simpl; unfold PPP_HDRLEN; lia).
  assert (E : pre ++ (a :: c :: h :: l :: pkt) ++ post = (pre ++ [a; c; h; l]) ++ pkt ++ post) by by rewrite -!app_assoc.
  rewrite E. replace (length pre + 4)%nat with (length (pre ++ [a; c; h; l])) by by rewrite length_app.
  unfold chain_bytes. cbn [map concat]. rewrite m_bytes_mk.
  pose proof (holds_packet_bytes pkt (Mbuf (pkt ++ []) 0 (Z.of_nat (length pkt)) 0 true :: b)) as H.
  unfold chain_bytes in H. cbn [map concat] in H. rewrite (m_bytes_mk [] pkt [] 0 true) in H. apply H. 
  eexists _, b. split; [done|]. split; [split; simpl; rewrite ?length_app; lia|]. split; [apply (m_bytes_mk [] pkt []) |done].
Qed.

(** C13: a packet that IP sends at one end is handed to IP at the other, byte for
    byte, if the interface there is up and lets IP pass. *)
Theorem ppp_ip_packet_arrives mc mc' polled x ch sc line sc' rc :
  4 <= Z.of_nat (MLEN mc) < 2 ^ 15 -> 4 <= Z.of_nat (MHLEN mc) < 2 ^ 15 -> alloc_ok mc (sc_allocs sc) = true ->
  at_ease sc -> has_bits (if_flags (sc_if sc)) IFF_UP = true -> sc_npmode (sc_if sc) = NPMODE_PASS ->
  Forall sendable (x :: ch) -> m_len x + 4 < 2 ^ 15 ->
  let ip := chain_bytes (x :: ch) in
  Forall byte_ok ip -> Z.of_nat (length ip) <= sc_mru rc ->
  sent polled (pppoutput mc (x :: ch) AF_INET sc).2 line sc' ->
  idle rc -> ends_fit sc rc -> buffers rc <> [] -> sc_rawq (sc_rx rc) = [] ->
  let rc' := ppp_rxdaemon mc' (receive line rc) in
  exists m, netisr (sc_if rc') = netisr (sc_if rc) ++
    (if has_bits (if_flags (sc_if rc)) IFF_UP && bool_decide (sc_npmode (sc_if rc) = NPMODE_PASS) then [m] else []) /\
  chain_bytes m = ip.
Proof.
  intros HM HH Hal Hae Hup Hmode Hs Hl ip Hok Hlen Hsent Hidle Hfit Hbuf Hraw rc'.
  destruct (pppoutput_ip_queues mc HM HH x ch sc (ae_open _ Hae) (ae_running _ Hae) Hup Hmode (ae_empty _ Hae) Hal Hs Hl) as [_ Hq].
  fold ip in Hq. pose proof (ip_frame_well_formed ip Hok) as Hwf.
  assert (Hlf : length (ip_frame ip) = (4 + length ip)%nat) by done.
  assert (Hl4 : Z.of_nat (length (ip_frame ip)) <= sc_mru rc + 4) by lia. destruct (buffers rc) as [|bch q] eqn:Eb; [done|].
  destruct (queued_arrives _ _ _ _ _ _ _ _ _ Hq Hae Hwf Hl4 Hsent Hidle Hfit Eb) as (Hid & Hrx & Hi & ch' & Hr & Hh).
  rewrite Hraw in Hr. destruct (ppp_rxdaemon_turn mc' (ip_frame ip) ch' [] _ Hrx Hr Hh ltac:(lia)) as (ch2 & sc2 & Hh2 & Hi2 & _ & Eif & _).
  exists (strip_header ch2). unfold rc'. rewrite Eif. change (PPP_PROTOCOL (ip_frame ip)) with PPP_IP.
  destruct (hand_up_ip ch2 sc2) as (Hn & _). rewrite Hn Hi2 Hi. split; [done|].
  rewrite (strip_header_bytes (ip_frame ip)) //. lia.
Qed.
