(* ===== verification/PppDaemons.v ===== *)
(** * From daemon to daemon

    [output] and [read_packet] of [sys-rtems.c], and the whole way of a packet of
    LCP: the automaton of one daemon sends it, the device takes it over the line,
    the other daemon reads it, finds the protocol and hands it to its automaton. *)

From S2P Require Import Prelude Wire Callout Fsm FsmSpec FsmGate FsmPackets.
From S2P Require Import LcpOptions LcpReqci Lcp Upap Chap Auth.
From S2P Require Import Inet Netif Fcs PppSoftc PppTty PppIf PppSend PppReceive PppFrames PppPath.

(** [output]: [write(pppd_ttyfd, p, len)]; an error is only logged. *)
Definition write_packet (mc : mbuf_config) (p : bytes) (sc : softc) : softc := (pppwrite mc p sc).2.

(** [read_packet]: the length that [read] returns, negative if there is no packet,
    and what is in the buffer. *)
Definition read_packet (sc : softc) : Z * bytes * softc :=
  let '(r, sc) := pppread (PPP_MTU + PPP_HDRLEN) sc in
  match r with
  | Some bs => (Z.of_nat (length bs), bs, sc)
  | None => (-1, [], sc)
  end.

(** The protocols the daemon speaks itself. *)
Definition control_protocol (proto : Z) : Prop := In proto [PPP_LCP; PPP_PAP; PPP_CHAP; PPP_IPCP; PPP_CCP].

Lemma packet_well_formed proto code pid outlen data :
  control_protocol proto -> Forall byte_ok data ->
  let pkt := packet_header proto code pid outlen ++ data in well_formed pkt /\ PPP_PROTOCOL pkt <> PPP_IP.
Proof.
  intros Hp Hd pkt. assert (H16 : 0 <= proto < 65536) by (repeat destruct Hp as [<-|Hp]; done).
  split.
  - split; [unfold pkt, packet_header, MAKEHEADER; rewrite !Forall_app; split_and!; auto with bytes|].
    eexists _, _, _. split; [reflexivity|]. repeat destruct Hp as [<-|Hp]; done.
  - unfold PPP_PROTOCOL, pkt. rewrite packet_proto // /=. repeat destruct Hp as [<-|Hp]; done.
Qed.

Section Crossing.
Context (mc mc' : mbuf_config) (HM : 4 <= Z.of_nat (MLEN mc) < 2 ^ 15) (HC : 4 <= Z.of_nat (MCLBYTES mc) < 2 ^ 15).
Context (polled : bool).

(** The line is free at both ends and the ends fit; what one writes has been
    sent. *)
Record crosses (pkt : bytes) (sc : softc) (line : bytes) (rc : softc) : Prop := {
  cr_at_ease : at_ease sc;
  cr_sent : exists sc', PppFrames.sent polled (write_packet mc pkt sc) line sc';
  cr_idle : idle rc;
  cr_fit : ends_fit sc rc;
  cr_buffers : buffers rc <> [];
  cr_rawq : sc_rawq (sc_rx rc) = [];
  cr_inq : sc_inq (sc_if rc) = []
}.

(** A packet of 1504 bytes is read as nothing. *)
Lemma control_packet_crosses proto code pid n data sc line rc :
  let pkt := packet_header proto code pid (n + HEADERLEN) ++ data in
  control_protocol proto -> Forall byte_ok data -> Z.of_nat (length data) = n -> n <= PPP_MRU - HEADERLEN ->
  crosses pkt sc line rc ->
  (read_packet (ppp_rxdaemon mc' (receive line rc))).1 =
    if n =? PPP_MRU - HEADERLEN then (0, []) else (n + HEADERLEN + PPP_HDRLEN, pkt).
Proof.
  intros pkt Hp Hd Hl Hn [Hae [sc' Hs] Hidle Hfit Hbuf Hraw Hinq]. destruct (packet_well_formed proto code pid (n + HEADERLEN) data Hp Hd) as [Hwf Hip].
  fold pkt in Hwf, Hip. assert (Hlen : Z.of_nat (length pkt) = n + 8) by (unfold pkt; rewrite length_app length_packet_header; lia).
  pose proof (ef_mru _ _ Hfit) as Hm. unfold PPP_MRU, HEADERLEN, PPP_HDRLEN in *.
  assert (Hr : (pppread (PPP_MTU + 4) (ppp_rxdaemon mc' (receive line rc))).1 = Some (if n =? 1500 - 4 then [] else pkt)).
  { rewrite (written_is_read mc mc' polled pkt sc line sc' rc (PPP_MTU + 4)) //; [lia|]. unfold PPP_MTU. f_equal.
    rewrite Hlen. destruct (Z.ltb_spec (n + 8) (1500 + 4)), (Z.eqb_spec n (1500 - 4)); try done; lia. }
  unfold read_packet, PPP_HDRLEN. destruct (pppread _ _) as [r sc2]. cbn [fst] in Hr. subst r.
  destruct (n =? 1500 - 4); [done|]. cbn [fst]. f_equal. lia.
Qed.

Context {W : Type} {HW : LcpWorld W} {HU : UpapWorld W} {HCh : ChapWorld W} {HV : AuthWorld W}.
Context (cfg : lcp_config) (ac : auth_config) (cc : chap_config) (magic : nat -> Z) (others : list (protent W)).
#[local] Existing Instance auth_layer.

(** What the daemon does with what it has read. *)
Lemma get_input_lcp code pid n data (w : W) :
  0 <= n <= PPP_MRU - HEADERLEN -> byte_ok code -> byte_ok pid -> 
  let pkt := packet_header PPP_LCP code pid (n + HEADERLEN) ++ data in
  get_input cfg ac cc magic others pkt (n + HEADERLEN + PPP_HDRLEN) w =
    match state (w_fsm w) with
    | INITIAL | STARTING => w
    | _ => fsm_dispatch (lcp_callbacks (HA := auth_layer ac cc magic others) cfg magic) (drop 4 pkt) code pid n data w
    end.
Proof.
  intros Hn Hc Hi pkt. unfold get_input. unfold HEADERLEN, PPP_HDRLEN in *.
  rewrite (proj2 (Z.ltb_ge _ _)); [lia|]. rewrite (proj2 (Z.eqb_neq _ _)); [lia|]. rewrite (proj2 (Z.ltb_ge _ _)); [lia|].
  unfold pkt. rewrite packet_proto //. cbn [negb andb Z.eqb PPP_LCP Pos.eqb orb]. rewrite andb_false_r.
  unfold protocols. cbn [demux p_protocol p_enabled p_link lcp_protent lcp_link p_input Z.eqb PPP_LCP Pos.eqb andb].
  unfold lcp_input, fsm_input. replace (n + 4 + 4 - 4) with (n + HEADERLEN) by (unfold HEADERLEN; lia).
  by rewrite (parse_packet PPP_LCP).
Qed.

(** C14: a packet of LCP crosses the line.  What one daemon's automaton sends with
    any code, identifier and data goes through the device at both ends, and when
    the other daemon reads its packet, LCP handles it there with the same code
    and identifier and the data, cut to the peer's MRU.  Only a packet that fills
    the daemon's buffer to the last byte is read as nothing, and nothing is what
    the daemon takes for a hangup. *)
Theorem lcp_packet_crosses code pid bs datalen l :
  buf_ok l -> 0 <= datalen <= Z.of_nat (length bs) -> Forall byte_ok bs -> HEADERLEN <= peer_mru l <= PPP_MRU ->
  byte_ok code -> byte_ok pid ->
  let n := Z.min datalen (peer_mru l - HEADERLEN) in
  exists pkt, Fsm.sent (send_data PPP_LCP code pid (Data bs) datalen l) = Fsm.sent l ++ [pkt] /\
  forall sc line rc (w : W), crosses pkt sc line rc ->
    let '(len, buf, _) := read_packet (ppp_rxdaemon mc' (receive line rc)) in
    get_input cfg ac cc magic others buf len w =
      if n =? PPP_MRU - HEADERLEN then
        auth_link_terminated (lcp_lowerdown (HA := auth_layer ac cc magic others) cfg magic
          (on_lcp (set_pppd_status EXIT_HANGUP) (on_auth (set_hungup true) w)))
      else match state (w_fsm w) with
           | INITIAL | STARTING => w
           | _ => fsm_dispatch (lcp_callbacks (HA := auth_layer ac cc magic others) cfg magic) (drop 4 pkt) code pid n (take (Z.to_nat n) bs) w
           end.
Proof.
  intros Hb Hd Hbs Hm Hc Hi n.
  destruct (send_data_sent PPP_LCP code pid bs datalen l) as [Hs _]; [done..|lia|unfold clamp; lia|].
  change (clamp l datalen) with n in Hs.
  eexists. split; [exact Hs|]. intros sc line rc w Hx.
  assert (Hn : 0 <= n <= PPP_MRU - HEADERLEN) by (unfold n, PPP_MRU, HEADERLEN in *; lia).
  pose proof (control_packet_crosses PPP_LCP code pid n (take (Z.to_nat n) bs) sc line rc) as Hr.
  destruct (read_packet _) as [[len buf] sc2]. cbn [fst] in Hr.
  assert (E : (len, buf) = if n =? PPP_MRU - HEADERLEN then (0, []) else (n + HEADERLEN + PPP_HDRLEN, packet_header PPP_LCP code pid (n + HEADERLEN) ++ take (Z.to_nat n) bs)).
  { apply Hr; [by left|by apply Forall_take|apply take_to_nat_length; unfold n; lia|lia|done]. }
  clear Hr. destruct (n =? PPP_MRU - HEADERLEN); injection E as -> ->; [done|]. by apply get_input_lcp.
Qed.
End Crossing.
