(* ===== verification/PppRun.v ===== *)
(** * The device as it runs

    Everything that can happen to the unit, in any order: what always holds of
    it. *)

From S2P Require Import Prelude Wire Inet Netif Fcs PppSoftc PppTty PppIf PppSend PppReceive PppFrames PppPath.

(** ** What can happen *)

Inductive dev_event :=
  | D_open (again : bool) | D_close
  | D_input (c : Z) | D_sent (k : nat)
  | D_rx | D_tx
  | D_output (m : chain) (dst : sockaddr) | D_read (maximum : Z) | D_write (buf : bytes)
  | D_ioctl (c : ttycmd) | D_ifioctl (c : ifcmd)
  | D_clock (now : Z).

Section Run.
Context (mc : mbuf_config) (polled : bool).

(** The driver calls for more when it has put some of what it was handed on the
    line, all of it if it is polled. *)
Definition driver_may (k : nat) (sc : softc) : bool :=
  (0 <? k)%nat && (k <=? length (tx_write (sc_tx sc)))%nat && (negb polled || (k =? length (tx_write (sc_tx sc)))%nat).

Definition exec (e : dev_event) (sc : softc) : softc :=
  match e with
  | D_open again => (pppopen mc again sc).2
  | D_close => pppclose sc
  | D_input c => pppinput c sc
  | D_sent k => if driver_may k sc then pppstart polled (Z.of_nat k) sc else sc
  | D_rx => ppp_rxdaemon mc sc
  | D_tx => ppp_txdaemon sc
  | D_output m dst => (pppoutput mc m dst sc).2
  | D_read maximum => (pppread maximum sc).2
  | D_write buf => (pppwrite mc buf sc).2
  | D_ioctl c => (ppptioctl mc c sc).2
  | D_ifioctl c => (pppsioctl c sc).2
  | D_clock now => set_sc_time now sc
  end.
Definition run (es : list dev_event) (sc : softc) : softc := foldl (fun sc e => exec e sc) sc es.

(** The map is an array of eight words. *)
Definition event_ok (e : dev_event) : Prop :=
  match e with D_ioctl (PPPIOCSXASYNCMAP accm) => length accm = 8%nat | _ => True end.

(** ** Receiving *)

Context (HC : 8 <= Z.of_nat (MCLBYTES mc) <= 2 ^ 14).

Lemma alloc_chain_ok fuel ilen :
  Forall (fun m => m_writable m = true /\ (8 <= length (m_store m))%nat) (alloc_chain mc fuel ilen).
Proof.
  revert ilen. induction fuel as [|fuel IH]; intros ilen; cbn [alloc_chain]; [constructor|]. case_match; [|constructor].
  constructor; [|apply IH]. split; [done|]. rewrite length_replicate. lia.
Qed.

Lemma pppallocmbuf_ok sc : 1500 <= sc_mru sc -> buffer_ok (pppallocmbuf mc sc).
Proof.
  intros Hm. split; [|apply alloc_chain_ok]. unfold pppallocmbuf, PPP_HDRLEN, PPP_FCSLEN.
  destruct (Z.to_nat (sc_mru sc + 4 + 2)) eqn:E; [lia|]. cbn [alloc_chain]. by rewrite (proj2 (Z.ltb_lt _ _)); [lia|].
Qed.

(** What has no part in receiving. *)
Definition same_rx_side (sc sc' : softc) : Prop :=
  sc_rx sc' = sc_rx sc /\ sc_mru sc' = sc_mru sc /\ sc_devp sc' = sc_devp sc /\ sc_flags sc' = sc_flags sc.

Lemma same_rx_side_trans sc1 sc2 sc3 : same_rx_side sc1 sc2 -> same_rx_side sc2 sc3 -> same_rx_side sc1 sc3.
Proof. intros (?&?&?&?) (?&?&?&?). repeat split; congruence. Qed.

Lemma same_rx_side_inv sc sc' : same_rx_side sc sc' -> rx_inv sc -> rx_inv sc'.
Proof. intros (?&?&?&Hf). apply same_rx_inv. unfold same_rx. by rewrite Hf. Qed.

Lemma pppasyncstart_side sc : same_rx_side sc (pppasyncstart sc).
Proof. unfold pppasyncstart. by case_match. Qed.

Lemma tx_data_side sc : same_rx_side sc (tx_data polled sc).
Proof. unfold tx_data. destruct (if ESCAPE_P _ _ then _ else _) as [[n buf] t']. destruct polled; [done|]. by case_match. Qed.

Lemma tx_next_side sc : same_rx_side sc (tx_next sc).2.
Proof. unfold tx_next. by repeat case_match. Qed.

Lemma pppstart_side len sc : same_rx_side sc (pppstart polled len sc).
Proof.
  unfold pppstart. case_match; [done|]. set (sc1 := if sc_outoff_update _ then _ else _).
  assert (H1 : same_rx_side sc sc1) by (unfold sc1; by case_match). case_match; [done|].
  eapply same_rx_side_trans; [exact H1|]. clear H1. pose proof (tx_next_side sc1) as Hn.
  destruct (sc_outlen (sc_tx sc1) <=? sc_outoff (sc_tx sc1)).
  - destruct (tx_next sc1) as [[] sc2]; [done|]. case_match; [|done]. eapply same_rx_side_trans; [exact Hn|apply tx_data_side].
  - case_match; [apply tx_data_side|done].
Qed.

Lemma ppp_txdaemon_side sc : same_rx_side sc (ppp_txdaemon sc).
Proof.
  unfold ppp_txdaemon. set (sc1 := if TX_TRANSMIT _ then _ else _). assert (H1 : same_rx_side sc sc1) by (unfold sc1; by case_match).
  case_match; [|done]. case_match; [done|]. unfold ppp_dequeue. destruct (next_packet (sc_if sc1)) as [[m i]|]; done.
Qed.

Lemma pppoutput_side m dst sc : same_rx_side sc (pppoutput mc m dst sc).2.
Proof.
  assert (Hgo : forall ok m1 sc1 a c p mode b, same_rx_side sc sc1 -> same_rx_side sc (
    if negb ok then (ENOBUFS, sc1) else
      let m0 := store_first [a; c; Z.shiftr p 8; Z.land p 0xff] m1 in
      let m0 := map_first (fun m => set_m_len (m_len m + PPP_HDRLEN) m) m0 in
      let sc := if Z.land p 0x8000 =? 0 then on_if (set_sc_last_sent (sc_time sc1)) sc1 else sc1 in
      if bool_decide (mode = NPMODE_QUEUE)
      then (E_OK, on_if (fun i => set_sc_npqueue (sc_npqueue i ++ [m0]) i) sc)
      else if IF_QFULL (out_queue m0 (sc_if sc)) && b
      then (ENOBUFS, out_error sc)
      else (E_OK, pppasyncstart (on_if (enqueue_out m0) sc))).2).
  { intros ok m1 sc1 a c p mode b H1. case_match; [done|]. cbn zeta. set (sc2 := if Z.land p _ =? 0 then _ else _).
    assert (H2 : same_rx_side sc sc2) by (unfold sc2; by case_match). case_match; [done|]. case_match; [done|].
    eapply same_rx_side_trans; [|apply pppasyncstart_side]. exact H2. }
  unfold pppoutput. case_match; [done|]. destruct dst as [|d|]; [destruct (sc_npmode (sc_if sc)); try done| |done];
    (destruct (default 0 _ <? PPP_HDRLEN); [unfold try_alloc|]); by apply Hgo.
Qed.

Lemma write_chain_side fuel buf sc : same_rx_side sc (write_chain mc fuel buf sc).2.
Proof.
  revert buf sc. induction fuel as [|fuel IH]; intros [|c buf] sc; cbn [write_chain]; try done.
  set (cl := if (_ <=? _)%nat then _ else _). assert (Hcl : same_rx_side sc cl.2) by (unfold cl; by case_match).
  destruct cl as [cluster sc1]. specialize (IH (drop (Nat.min (if cluster then MCLBYTES mc else MLEN mc) (length (c :: buf))) (c :: buf)) sc1).
  destruct (write_chain mc fuel _ sc1) as [ch sc2]. by eapply same_rx_side_trans.
Qed.

Lemma pppwrite_side buf sc : same_rx_side sc (pppwrite mc buf sc).2.
Proof.
  unfold pppwrite. pose proof (write_chain_side (length buf) buf sc) as H. destruct (write_chain _ _ _ _) as [m0 sc1].
  eapply same_rx_side_trans; [exact H|apply pppoutput_side].
Qed.

(** Packets that have been received are known to the receiving task. *)
Definition received_known (sc : softc) : Prop := sc_rawq (sc_rx sc) <> [] -> RX_PACKET (sc_rx sc) = true.

Lemma received_known_same sc sc' :
  sc_rawq (sc_rx sc') = sc_rawq (sc_rx sc) -> RX_PACKET (sc_rx sc') = RX_PACKET (sc_rx sc) -> received_known sc -> received_known sc'.
Proof. unfold received_known. by intros -> ->. Qed.

Lemma rx_frame_end_known sc : received_known sc -> received_known (rx_frame_end sc).
Proof.
  intros H. unfold rx_frame_end. case_match; [by case_match|]. case_match; [by case_match|].
  destruct (if has_bits _ SC_PKTLOST then _ else _) as [m sc']. unfold on_rx, received_known. cbn [sc_rx set_sc_rx].
  by destruct (dequeue (sc_freeq (sc_rx sc'))).
Qed.

Lemma pppinput_known c sc : received_known sc -> received_known (pppinput c sc).
Proof.
  intros H. unfold pppinput. case_match; [done|].
  assert (Hb : received_known (rx_buffer sc)).
  { unfold rx_buffer. case_match; [done|]. unfold on_rx. by destruct (dequeue _). }
  case_bool_decide; [done|]. set (sc2 := note_line _ _).
  assert (H2 : received_known sc2) by (unfold sc2, note_line; by repeat case_match).
  assert (Ho : forall c sc, received_known sc -> received_known (rx_octet c sc)).
  { intros c' sc' Hk. destruct (rx_octet_keeps c' sc') as [(Hr & _ & _ & _ & Hp) _]. by eapply received_known_same. }
  case_match; [by apply rx_frame_end_known|]. case_match; [done|]. case_match; [by apply Ho|]. case_match; [done|by apply Ho].
Qed.

Record rx_state_ok (sc : softc) : Prop := { rs_inv : rx_inv sc; rs_known : received_known sc }.

Lemma same_rx_side_ok sc sc' : same_rx_side sc sc' -> rx_state_ok sc -> rx_state_ok sc'.
Proof.
  intros Hs [Hi Hk]. split; [by eapply same_rx_side_inv|]. destruct Hs as (Hr & _). unfold received_known. by rewrite Hr.
Qed.

(** The queues and the events are not the position. *)
Lemma rx_inv_on_rx g sc :
  rx_inv sc -> (forall f w rest fl b il fcs r, g (rx_at f w rest fl b il fcs r) = rx_at f w rest fl b il fcs (g r)) ->
  rx_fault (g (sc_rx sc)) = rx_fault (sc_rx sc) -> sc_m (g (sc_rx sc)) = sc_m (sc_rx sc) -> sc_ilen (g (sc_rx sc)) = sc_ilen (sc_rx sc) ->
  Forall buffer_ok (sc_freeq (g (sc_rx sc))) -> Forall buffer_ok (sc_rawq (g (sc_rx sc))) -> rx_inv (on_rx g sc).
Proof.
  intros [H1 H2 H3 H4 H5 H6] Hg Hft Hm Hil Hfq Hraw. split; try done.
  - change (rx_fault (g (sc_rx sc)) = false). by rewrite Hft.
  - change (forall ch, sc_m (g (sc_rx sc)) = Some ch -> buffer_ok ch). by rewrite Hm.
  - change (sc_devp sc = true -> sc_ilen (g (sc_rx sc)) <> 0 -> rx_inside (on_rx g sc)). rewrite Hil. intros Hd Hne.
    destruct (H6 Hd Hne) as (f & w & rest & fl & b & fcs & r & Hr & Hrest). exists f, w, rest, fl, b, fcs, (g r).
    cbn zeta. change (sc_rx (on_rx g sc)) with (g (sc_rx sc)). rewrite Hil. split; [by rewrite {1}Hr Hg|exact Hrest].
Qed.

(** The receiving task uses the buffer of the packet again, or allocates one. *)
Lemma ppp_inproc_buffer ch sc :
  buffer_ok ch -> let r := ppp_inproc mc ch sc in
  (forall mp, r.1 = Some mp -> buffer_ok mp) /\ sc_rx r.2 = sc_rx sc /\ sc_mru r.2 = sc_mru sc /\ sc_devp r.2 = sc_devp sc /\
  has_bits (sc_flags r.2) SC_FLUSH = has_bits (sc_flags sc) SC_FLUSH.
Proof.
  intros Hok. unfold ppp_inproc. set (sc1 := on_stats _ sc). set (proto := PPP_PROTOCOL _).
  assert (Hm : let p := clear_mark ch sc1 in buffer_ok p.1 /\ sc_rx p.2 = sc_rx sc /\ sc_mru p.2 = sc_mru sc /\ sc_devp p.2 = sc_devp sc /\
    has_bits (sc_flags p.2) SC_FLUSH = has_bits (sc_flags sc) SC_FLUSH).
  { unfold clear_mark. case_match; [|done]. split; [|repeat split; by rewrite /raise_flag /= has_bits_lor orb_false_r].
    destruct ch as [|m ch]; [done|]. destruct Hok as [_ [Hx Hch]%Forall_cons_1]. split; [done|]. by constructor. }
  destruct (clear_mark ch sc1) as [m1 sc2]. cbn [fst snd] in Hm. destruct Hm as (Hm & Hr & Hmr & Hd & Hf).
  assert (Hc : let p := copy_small mc m1 sc2 in (forall mp, p.1.1 = Some mp -> buffer_ok mp) /\ sc_rx p.2 = sc_rx sc2 /\
    sc_mru p.2 = sc_mru sc2 /\ sc_devp p.2 = sc_devp sc2 /\ sc_flags p.2 = sc_flags sc2).
  { unfold copy_small, try_alloc. case_match; [|done]. case_match; [|done]. by split; [intros mp [= <-]|]. }
  destruct (copy_small mc m1 sc2) as [[mf m2] sc3]. cbn [fst snd] in Hc. destruct Hc as (Hmf & Hr3 & Hm3 & Hd3 & Hf3).
  assert (Hh : let sc4 := hand_up proto m2 sc3 in sc_rx sc4 = sc_rx sc3 /\ sc_mru sc4 = sc_mru sc3 /\ sc_devp sc4 = sc_devp sc3 /\ sc_flags sc4 = sc_flags sc3).
  { cbn zeta. unfold hand_up. set (sc4 := if Z.land proto 32768 =? 0 then _ else _).
    assert (H4 : sc_rx sc4 = sc_rx sc3 /\ sc_mru sc4 = sc_mru sc3 /\ sc_devp sc4 = sc_devp sc3 /\ sc_flags sc4 = sc_flags sc3) by (unfold sc4; by case_match).
    unfold pppasyncctlp. repeat case_match; exact H4. }
  destruct Hh as (Hr4 & Hm4 & Hd4 & Hf4). cbn [fst snd]. split; [done|]. rewrite Hr4 Hm4 Hd4 Hf4 Hr3 Hm3 Hd3 Hf3. done.
Qed.

Lemma ppp_rxdaemon_ok sc : rx_state_ok sc -> rx_state_ok (ppp_rxdaemon mc sc).
Proof.
  intros [Hi Hk]. unfold ppp_rxdaemon. set (sc1 := on_rx _ sc).
  assert (Hi1 : rx_inv sc1) by (by apply rx_inv_on_rx; try apply Hi).
  destruct (RX_PACKET (sc_rx sc) || RX_MBUF (sc_rx sc)) eqn:Ee.
  2:{ split; [done|]. apply orb_false_iff in Ee as [Ep _]. unfold received_known in Hk. cbn.
      intros Hne. specialize (Hk Hne). congruence. }
  set (p := if RX_PACKET (sc_rx sc) then _ else _).
  assert (Hp : (forall mp, p.1 = Some mp -> buffer_ok mp) /\ rx_inv p.2).
  { unfold p. case_match; [|done]. destruct (sc_rawq (sc_rx sc1)) as [|ch q] eqn:Eq; cbn [dequeue].
    - split; [done|]. by apply rx_inv_on_rx; try apply Hi1.
    - pose proof (ri_raw _ Hi1) as Hraw. rewrite Eq in Hraw. apply Forall_cons_1 in Hraw as [Hch Hq].
      assert (Hi2 : rx_inv (on_rx (set_sc_rawq q) sc1)).
      { by apply rx_inv_on_rx; try apply Hi1. }
      destruct (ppp_inproc_buffer ch (on_rx (set_sc_rawq q) sc1) Hch) as (Hb & Hs). split; [done|].
      apply (same_rx_inv (on_rx (set_sc_rawq q) sc1)); [|done]. unfold same_rx. tauto. }
  destruct p as [mp sc2]. cbn [fst snd] in Hp. destruct Hp as [Hb Hi2].
  assert (Hmp : buffer_ok (default (pppallocmbuf mc sc2) mp)).
  { destruct mp as [mp|]; [by apply Hb|]. apply pppallocmbuf_ok, Hi2. }
  set (sc3 := on_rx _ sc2).
  assert (Hi3 : rx_inv sc3).
  { apply rx_inv_on_rx; try done; [|apply Hi2]. apply Forall_app. split; [apply Hi2|by constructor]. }
  case_bool_decide as Hq; [by split; [|intros Hn]|]. split; [by apply rx_inv_on_rx; try apply Hi3|done].
Qed.

Lemma pppopen_ok again sc : rx_state_ok sc -> rx_state_ok (pppopen mc again sc).2.
Proof.
  intros H. pose proof H as [Hi Hk]. unfold pppopen. destruct (again && sc_devp sc); [exact H|].
  unfold pppalloc. destruct (sc_devp sc); [exact H|].
  set (sc1 := on_if _ _). assert (Hb : buffer_ok (pppallocmbuf mc sc1)) by (apply pppallocmbuf_ok; change (sc_mru sc1) with 1500; lia).
  set (m := pppallocmbuf mc sc1) in *. split; [|by eapply received_known_same].
  split; try done; [by apply Hi| |by apply Hi|by intros ch [= <-]].
  cbn. apply Forall_app. split; [apply Hi|]. by apply Forall_replicate.
Qed.

Lemma pppclose_ok sc : rx_state_ok sc -> rx_state_ok (pppclose sc).
Proof.
  intros H. pose proof H as [Hi Hk]. unfold pppclose, pppdealloc. destruct (sc_devp sc); [|exact H]. set (sc1 := on_rx _ _).
  assert (H1 : sc_devp sc1 = false /\ rx_fault (sc_rx sc1) = false /\ sc_freeq (sc_rx sc1) = [] /\ sc_rawq (sc_rx sc1) = [] /\
    sc_m (sc_rx sc1) = None /\ sc_mru sc1 = sc_mru sc) by (repeat split; apply Hi).
  destruct H1 as (Hd & Hft & Hfq & Hr & Hm & Hmru). set (sc2 := if sc_outm _ is Some _ then _ else _).
  assert (H2 : sc_rx sc2 = sc_rx sc1 /\ sc_devp sc2 = sc_devp sc1 /\ sc_mru sc2 = sc_mru sc1) by (unfold sc2; by case_match).
  destruct H2 as (Hr2 & Hd2 & Hm2). split.
  - split; cbn; rewrite ?Hr2 ?Hd2 ?Hm2 ?Hd ?Hft ?Hfq ?Hr ?Hm ?Hmru //. apply Hi.
  - unfold received_known. cbn. by rewrite Hr2 Hr.
Qed.

Lemma requeue_keeps sc : same_rx_side sc (ppp_requeue sc).
Proof. unfold ppp_requeue. by destruct (requeue _ _ _) as [[kept i] drops]. Qed.

Lemma ppptioctl_ok c sc : rx_state_ok sc -> rx_state_ok (ppptioctl mc c sc).2.
Proof.
  intros H. pose proof H as [Hi Hk]. destruct c as [v| |v| |accm| | |c]; cbn [ppptioctl snd]; try done; try (by eapply (same_rx_side_ok sc)).
  - split; [by apply rx_inv_on_rx; try apply Hi|done].
  - destruct c as [|t| | |fl|mru| | |p|p md| |]; cbn [pppioctl snd]; try done; try (by eapply (same_rx_side_ok sc)).
    + split; [|done]. eapply same_rx_inv; [|exact Hi]. repeat split. cbn -[has_bits].
      rewrite has_bits_lor. rewrite has_bits_ldiff_other //.
      replace (has_bits (Z.land fl SC_MASK) SC_FLUSH) with false; [by rewrite orb_false_r|].
      unfold has_bits. rewrite -Z.land_assoc. by rewrite Z.land_0_r.
    + case_match; [done|]. case_match; [|done]. split; [|done]. destruct Hi. split; try done. cbn. unfold PPP_MRU in *. lia.
    + by case_match.
    + case_match; [|done]. case_bool_decide; [done|]. case_bool_decide; [by eapply (same_rx_side_ok sc)|].
      eapply (same_rx_side_ok sc); [|done]. eapply same_rx_side_trans; [|apply pppasyncstart_side].
      eapply same_rx_side_trans; [|apply requeue_keeps]. done.
Qed.

Lemma exec_ok e sc : rx_state_ok sc -> rx_state_ok (exec e sc).
Proof.
  intros H. destruct e; cbn [exec].
  - by apply pppopen_ok.
  - by apply pppclose_ok.
  - split; [apply pppinput_inv, H|apply pppinput_known, H].
  - case_match; [|done]. eapply same_rx_side_ok; [apply pppstart_side|done].
  - by apply ppp_rxdaemon_ok.
  - eapply same_rx_side_ok; [apply ppp_txdaemon_side|done].
  - eapply same_rx_side_ok; [apply pppoutput_side|done].
  - eapply same_rx_side_ok; [|done]. unfold pppread. case_match; [done|]. by case_match.
  - eapply same_rx_side_ok; [apply pppwrite_side|done].
  - by apply ppptioctl_ok.
  - eapply same_rx_side_ok; [|done]. unfold pppsioctl. destruct c; try done. by case_match.
  - by eapply (same_rx_side_ok sc).
Qed.

Lemma run_app es es' sc : run (es ++ es') sc = run es' (run es sc).
Proof. apply foldl_app. Qed.

Lemma run_ok es sc : rx_state_ok sc -> rx_state_ok (run es sc).
Proof. revert sc. induction es as [|e es IH]; intros sc H; [done|]. by apply (IH (exec e sc)), exec_ok. Qed.

(** C10: whatever bytes come over the line and whatever else happens to the unit,
    in any order, the receiver never stores outside its buffers nor follows a
    pointer that leads nowhere, and a packet that has been received is always
    known to the task that takes it. *)
Theorem ppp_receiver_is_safe es :
  let sc := run (D_open false :: es) ppp_attach in
  rx_fault (sc_rx sc) = false /\ received_known sc.
Proof.
  intros sc. assert (H : rx_state_ok sc).
  { change sc with (run (D_open false :: es) (set_sc_mru PPP_MRU ppp_attach)). apply run_ok.
    split; [|by intros Hn]. split; try done; try constructor; try done. }
  split; apply H.
Qed.
End Run.
