(* ===== verification/PppLive.v ===== *)
(** * The transmitter does not stop

    While the line is open no packet that waits is forgotten: the transmitter is
    sending, or the sending task has been told.  And the character maps that are
    set up on the two ends fit. *)

From S2P Require Import Prelude Wire Inet Netif Fcs PppSoftc PppTty PppIf PppSend PppReceive PppFrames PppPath PppRun.

(** ** The maps *)

(** A map the sender may have: flag and escape are escaped; what an escape turns
    into a flag, or into a character the other end may drop, is not. *)
Record asyncmap_ok (a : list Z) : Prop := {
  am_length : length a = 8%nat;
  am_digits : nth 1 a 0 = 0;
  am_caret : ESCAPE_P a 0x5e = false;
  am_escape : ESCAPE_P a PPP_ESCAPE = true;
  am_flag : ESCAPE_P a PPP_FLAG = true
}.

(** Every control character the receiver drops is escaped. *)
Definition drops_escaped (a : list Z) (ra : Z) : Prop := forall c, 0 <= c < 32 -> Z.testbit ra c = true -> Z.testbit (nth 0 a 0) c = true.

Definition all_bytes : list Z := map Z.of_nat (seq 0 256).

Lemma all_bytes_in c : byte_ok c -> In c all_bytes.
Proof. intros Hc. unfold byte_ok in Hc. apply in_map_iff. exists (Z.to_nat c). split; [lia|]. apply in_seq. lia. Qed.

Lemma asyncmap_agrees a ra : asyncmap_ok a -> drops_escaped a ra -> maps_agree a ra.
Proof.
  intros [Hl H1 H5e H7d H7e] Hdrop c Hc. cbn zeta.
  assert (Hx : Z.lxor c PPP_TRANS <> PPP_FLAG \/ c = 0x5e).
  { destruct (decide (c = 0x5e)) as [->|Hn]; [by right|]. left. intros E. apply Hn.
    rewrite -(Z.lxor_0_r c) -(Z.lxor_nilpotent PPP_TRANS) -Z.lxor_assoc E. done. }
  assert (Hlow : Z.lxor c PPP_TRANS < 0x20 -> 0x20 <= c < 0x40).
  { assert (H : forallb (fun c => negb (Z.lxor c PPP_TRANS <? 0x20) || ((0x20 <=? c) && (c <? 0x40))) all_bytes = true)
      by (vm_compute; reflexivity).
    rewrite forallb_forall in H. specialize (H c (all_bytes_in c Hc)). intros E%Z.ltb_lt. rewrite E /= in H. lia. }
  unfold byte_ok in Hc. destruct (ESCAPE_P a c) eqn:E.
  - split; [destruct Hx as [| ->]; [done|congruence]|]. destruct (Z.ltb_spec (Z.lxor c PPP_TRANS) 32) as [Hs|]; [|done].
    specialize (Hlow Hs). exfalso. unfold ESCAPE_P in E. replace (Z.shiftr c 5) with 1 in E.
    + change (Z.to_nat 1) with 1%nat in E. by rewrite H1 Z.bits_0 in E.
    + rewrite Z.shiftr_div_pow2 //. change (2 ^ 5) with 32. Z.to_euclidean_division_equations. lia.
  - split; [congruence|]. split; [congruence|]. destruct (Z.ltb_spec c 32) as [Hs|]; [|done]. cbn [andb].
    destruct (Z.testbit ra c) eqn:Er; [|done]. rewrite -E. unfold ESCAPE_P. replace (Z.shiftr c 5) with 0.
    + change (Z.to_nat 0) with 0%nat. replace (Z.land c 31) with c; [symmetry; apply Hdrop; [lia|done]|].
      change 31 with (Z.ones 5). rewrite Z.land_ones // Z.mod_small //. lia.
    + rewrite Z.shiftr_div_pow2 // Z.div_small //. lia.
Qed.

Lemma open_map_ok : asyncmap_ok [0xffffffff; 0; 0; 0x60000000; 0; 0; 0; 0].
Proof. by split. Qed.

Lemma set_word_ok a v : asyncmap_ok a -> asyncmap_ok (<[0%nat := v]> a).
Proof. destruct a as [|w a]; [by intros []|]. intros []. by split. Qed.

Lemma set_map_ok accm :
  length accm = 8%nat ->
  let a := map u32 (take 8 accm) in
  asyncmap_ok (<[3%nat := Z.lor (nth 3 a 0) 0x60000000]> (<[2%nat := Z.ldiff (nth 2 a 0) 0x40000000]> (<[1%nat := 0]> a))).
Proof.
  intros Hl a. destruct accm as [|w0 [|w1 [|w2 [|w3 [|w4 [|w5 [|w6 [|w7 [|]]]]]]]]]; try done.
  unfold a. cbn [take map list_insert insert nth]. split; [done|done| | |]; unfold ESCAPE_P.
  - change (Z.testbit (Z.ldiff (u32 w2) 0x40000000) 30 = false). by rewrite Z.ldiff_spec andb_false_r.
  - change (Z.testbit (Z.lor (u32 w3) 0x60000000) 29 = true). by rewrite Z.lor_spec orb_true_r.
  - change (Z.testbit (Z.lor (u32 w3) 0x60000000) 30 = true). by rewrite Z.lor_spec orb_true_r.
Qed.

(** ** Packets that can be sent *)

Definition sendable_packet (m : chain) : Prop := exists x ch, m = x :: ch /\ 4 <= m_len x /\ Forall sendable m.

Lemma sendable_cut x k : sendable x -> Z.of_nat k < m_len x -> sendable (set_m_len (m_len x - Z.of_nat k) (set_m_data (m_data x + k) x)).
Proof. intros [Hl Hs] Hk. split; simpl; lia. Qed.

Lemma store_first_sendable bs x ch :
  sendable x -> Z.of_nat (length bs) <= m_len x ->
  exists x', store_first bs (x :: ch) = x' :: ch /\ sendable x' /\ m_len x' = m_len x.
Proof.
  intros [Hl Hs] Hk. eexists. split; [done|]. split; [|done]. split; [done|]. cbn.
  rewrite !length_app length_map length_take length_drop. lia.
Qed.

(** What the sending task makes of it can be sent. *)
Lemma compress_sendable flags m : sendable_packet m -> sendable_chain (compress_header flags m).
Proof.
  intros (x & ch & -> & H4 & [Hx Hch]%Forall_cons_1). unfold compress_header. set (cp := default [] _).
  assert (Hdone : forall y, sendable y -> sendable_chain (y :: ch)).
  { intros y Hy. assert (Hall : Forall sendable (y :: ch)) by by constructor. split; rewrite nonempty_all; done. }
  destruct (comp_ac flags cp).
  - pose proof (sendable_cut x 2 Hx ltac:(lia)) as H2. cbn [map_first].
    case_match; [|by apply Hdone]. cbn [map_first]. apply Hdone. apply (sendable_cut _ 1 H2). cbn [m_len set_m_len]. lia.
  - case_match; [|by apply Hdone].
    destruct (store_first_sendable [PPP_ADDRESS cp; PPP_ADDRESS cp; PPP_CONTROL cp] x ch Hx ltac:(simpl; lia)) as (x' & -> & Hx' & Hl').
    cbn [map_first]. apply Hdone. apply (sendable_cut x' 1 Hx'). lia.
Qed.

(** ** What the transmitter is about *)

Definition tx_told (t : tx) : Prop := TX_PACKET t = true \/ TX_TRANSMIT t = true.
Definition tx_busy (t : tx) : bool := has_bits (sc_outflag t) SC_TX_BUSY.

Record tx_inv (polled : bool) (sc : softc) : Prop := {
  ti_open : sc_devp sc = true;
  ti_fcs : length (sc_outfcsbuf (sc_tx sc)) = 8%nat;
  ti_map : asyncmap_ok (sc_asyncmap (sc_tx sc));
  ti_waiting : Forall sendable_packet (waiting (sc_if sc));
  ti_held : Forall sendable_packet (sc_npqueue (sc_if sc));
  ti_busy : tx_busy (sc_tx sc) = true ->
    sc_outm (sc_tx sc) <> None /\ TX_TRANSMIT (sc_tx sc) = false /\ exists todo, handed polled todo (sc_tx sc);
  ti_idle : tx_busy (sc_tx sc) = false ->
    (sc_outm (sc_tx sc) <> None -> TX_TRANSMIT (sc_tx sc) = true) /\
    (sc_outflag (sc_tx sc) <> 0 \/ waiting (sc_if sc) <> [] -> tx_told (sc_tx sc))
}.

(** The packets that wait are told of. *)
Lemma pppasyncstart_inv polled sc sc1 :
  tx_inv polled sc -> sc_tx sc1 = sc_tx sc -> sc_devp sc1 = true ->
  Forall sendable_packet (waiting (sc_if sc1)) -> Forall sendable_packet (sc_npqueue (sc_if sc1)) ->
  tx_inv polled (pppasyncstart sc1).
Proof.
  intros [Hd Hf Ha _ _ Hb Hi] Ht Hd1 Hw Hn. unfold pppasyncstart. rewrite Ht. destruct (Z.eqb_spec (sc_outflag (sc_tx sc)) 0) as [H0|H0].
  - assert (Eb : tx_busy (sc_tx sc) = false) by by rewrite /tx_busy H0.
    destruct (Hi Eb) as [Ho _]. unfold on_tx. rewrite Ht H0. split; cbn; try done. intros _. split; [done|]. intros _. by left.
  - split; rewrite ?Ht //. intros Eb. destruct (Hi Eb) as [Ho Htold]. split; [done|]. intros _. apply Htold. by left.
Qed.

(** Nothing that concerns the transmitter. *)
Lemma tx_inv_same polled sc sc1 :
  tx_inv polled sc -> sc_tx sc1 = sc_tx sc -> sc_devp sc1 = sc_devp sc -> waiting (sc_if sc1) = waiting (sc_if sc) ->
  sc_npqueue (sc_if sc1) = sc_npqueue (sc_if sc) -> tx_inv polled sc1.
Proof. intros [] Ht Hd Hw Hn. by split; rewrite ?Ht ?Hd ?Hw ?Hn. Qed.

Lemma waiting_enqueue m i : Forall sendable_packet (waiting i) -> sendable_packet m -> Forall sendable_packet (waiting (enqueue_out m i)).
Proof.
  unfold waiting, enqueue_out. rewrite Forall_app. intros [Hf Hs] Hm.
  case_match; cbn; rewrite !Forall_app; repeat split; try done; by repeat constructor.
Qed.

Lemma enqueue_npqueue m i : sc_npqueue (enqueue_out m i) = sc_npqueue i.
Proof. unfold enqueue_out. by case_match. Qed.

(** ** Output *)

Lemma map_u8_idem bs : map u8 (map u8 bs) = map u8 bs.
Proof. rewrite map_map. apply map_ext. intros c. by rewrite (u8_small (u8 c)); [apply u8_range|]. Qed.

Section Output.
Context (mc : mbuf_config) (polled : bool).
Context (HM : 4 <= Z.of_nat (MLEN mc) < 2 ^ 15) (HH : 4 <= Z.of_nat (MHLEN mc) < 2 ^ 15) (HC : 4 <= Z.of_nat (MCLBYTES mc) < 2 ^ 15).

(** The end of [pppoutput]. *)
Lemma output_tail_inv sc sc1 m p mode b :
  tx_inv polled sc -> sc_tx sc1 = sc_tx sc -> sc_devp sc1 = sc_devp sc -> sc_if sc1 = sc_if sc -> sendable_packet m ->
  tx_inv polled (
    let sc := if Z.land p 0x8000 =? 0 then on_if (set_sc_last_sent (sc_time sc1)) sc1 else sc1 in
    if bool_decide (mode = NPMODE_QUEUE)
    then (E_OK, on_if (fun i => set_sc_npqueue (sc_npqueue i ++ [m]) i) sc)
    else if IF_QFULL (out_queue m (sc_if sc)) && b then (ENOBUFS, out_error sc)
    else (E_OK, pppasyncstart (on_if (enqueue_out m) sc))).2.
Proof.
  intros Hi Ht Hd Hif Hm. cbn zeta. set (sc2 := if Z.land p _ =? 0 then _ else _).
  assert (H2 : sc_tx sc2 = sc_tx sc /\ sc_devp sc2 = sc_devp sc /\ waiting (sc_if sc2) = waiting (sc_if sc) /\
    sc_npqueue (sc_if sc2) = sc_npqueue (sc_if sc)) by (unfold sc2; case_match; rewrite /= ?Hif; done).
  destruct H2 as (Ht2 & Hd2 & Hw2 & Hn2). pose proof (ti_waiting _ _ Hi) as Hw. pose proof (ti_held _ _ Hi) as Hn. rewrite -Hw2 in Hw. rewrite -Hn2 in Hn.
  assert (Hi2 : tx_inv polled sc2) by by apply (tx_inv_same polled sc).
  case_bool_decide.
  - destruct Hi2. split; try done. cbn. apply Forall_app. split; [done|]. by constructor.
  - case_match; [by apply (tx_inv_same polled sc2)|]. apply (pppasyncstart_inv polled sc2); [done|done|apply Hi2| |].
    + by apply waiting_enqueue.
    + cbn. by rewrite enqueue_npqueue.
Qed.

(** A chain [pppoutput] can put a header on. *)
Definition outputtable (m : chain) : Prop :=
  exists x ch, m = x :: ch /\ fits x /\ m_len x + 4 < 2 ^ 15 /\ Forall sendable ch /\ (0 < m_len x \/ 4 <= M_LEADINGSPACE x).

Lemma header_sendable hdr x ch :
  length hdr = 4%nat -> fits x -> (4 <= m_data x)%nat -> m_len x + 4 < 2 ^ 15 -> Forall sendable ch ->
  sendable_packet (map_first (fun m => set_m_len (m_len m + PPP_HDRLEN) m) (store_first hdr (map_first (fun m => set_m_data (m_data m - 4) m) (x :: ch)))).
Proof.
  intros Hl Hf Hd Hlen Hch.
  assert (E : forall m, store_first hdr m = store_first (map u8 hdr) m).
  { intros [|y m]; [done|]. unfold store_first. by rewrite map_u8_idem length_map. }
  assert (Hok : Forall byte_ok (map u8 hdr)) by (apply Forall_map, Forall_true; intros; apply u8_range).
  destruct (add_header_bytes (map u8 hdr) x ch) as (x' & Ex & Hf' & Hl' & _); [by rewrite length_map|done|done|done|].
  rewrite E Ex. destruct Hf as [Hf _]. exists x', ch. split; [done|]. split; [lia|]. constructor; [|done].
  apply fits_sendable; [done|lia].
Qed.

Lemma pppoutput_inv m dst sc : outputtable m -> tx_inv polled sc -> tx_inv polled (pppoutput mc m dst sc).2.
Proof.
  intros (x & ch & -> & Hf & Hlen & Hch & Hor) Hi. unfold pppoutput. case_match; [done|].
  set (x1 := set_m_flags (Z.ldiff (m_flags x) M_HIGHPRI) x). change (map_first _ (x :: ch)) with (x1 :: ch).
  assert (Hgo : forall m0 a c p mode b, (exists fl, m0 = set_m_flags fl x :: ch) -> tx_inv polled (
    let '(ok, m0, sc) :=
      if default 0 (M_LEADINGSPACE <$> head m0) <? PPP_HDRLEN then
        let '(ok, sc) := try_alloc mc sc in (ok, map_first (set_m_len 0) (m_prepend mc 4 m0), sc)
      else (true, map_first (fun m => set_m_data (m_data m - 4) m) m0, sc) in
    if negb ok then (ENOBUFS, sc) else
      let m0 := store_first [a; c; Z.shiftr p 8; Z.land p 0xff] m0 in
      let m0 := map_first (fun m => set_m_len (m_len m + PPP_HDRLEN) m) m0 in
      let sc1 := if Z.land p 0x8000 =? 0 then on_if (set_sc_last_sent (sc_time sc)) sc else sc in
      if bool_decide (mode = NPMODE_QUEUE)
      then (E_OK, on_if (fun i => set_sc_npqueue (sc_npqueue i ++ [m0]) i) sc1)
      else if IF_QFULL (out_queue m0 (sc_if sc1)) && b then (ENOBUFS, out_error sc1)
      else (E_OK, pppasyncstart (on_if (enqueue_out m0) sc1))).2).
  { intros m0 a c p mode b [fl ->]. cbn [head fmap option_fmap option_map default from_option]. unfold id.
    change (M_LEADINGSPACE (set_m_flags fl x)) with (M_LEADINGSPACE x). set (hdr := [a; c; Z.shiftr p 8; Z.land p 255]).
    destruct (Z.ltb_spec (M_LEADINGSPACE x) PPP_HDRLEN) as [Hsp|Hsp]; unfold PPP_HDRLEN in Hsp.
    - unfold try_alloc. destruct (alloc_ok mc (sc_allocs sc)); cbn [negb]; [|by apply (tx_inv_same polled sc)].
      destruct Hor as [Hpos|]; [|lia].
      destruct (m_prepend_room mc HM HH (set_m_flags fl x) ch) as (y & x' & E & Hy0 & Hyd & Hx' & _); [apply fits_sendable; [done|simpl; lia]|].
      rewrite E. apply (output_tail_inv sc (set_sc_allocs (S (sc_allocs sc)) sc)); try done.
      assert (Es : store_first hdr (y :: x' :: ch) = store_first (map u8 hdr) (y :: x' :: ch)) by (unfold store_first; by rewrite map_u8_idem length_map).
      destruct (store_header_room (map u8 hdr) y (x' :: ch)) as (y' & E' & Hy' & Hl' & _); [done|apply Forall_map, Forall_true; intros; apply u8_range|done|done|].
      rewrite Es E'. exists y', (x' :: ch). split; [done|]. split; [lia|]. by repeat (apply List.Forall_cons; [done|]).
    - cbn [negb]. apply (output_tail_inv sc sc); try done. apply header_sendable; [done|done| |done|done].
      unfold M_LEADINGSPACE in Hsp. case_match; simpl; lia. }
  destruct dst as [|d|]; [|apply (Hgo (x1 :: ch)); eexists; reflexivity|exact Hi].
  destruct (sc_npmode (sc_if sc)); try exact Hi; apply Hgo; destruct (has_bits (nth _ _ _) IPTOS_LOWDELAY); eexists; reflexivity.
Qed.
End Output.

(** ** The sending task and the driver *)

(** The events are nothing to the driver. *)
Lemma tx_ok_events p q t : tx_ok t -> tx_ok (set_TX_TRANSMIT q (set_TX_PACKET p t)).
Proof. intros []. by split. Qed.

Lemma handed_events polled todo p q t : handed polled todo t -> handed polled todo (set_TX_TRANSMIT q (set_TX_PACKET p t)).
Proof.
  assert (Hr : forall off, at_rest off t -> at_rest off (set_TX_TRANSMIT q (set_TX_PACKET p t))).
  { intros off [H1 H2 H3]. split; [by apply tx_ok_events|done|done]. }
  intros [off Hu Ho Ht Hne Htk Hj|off Hu Ho Hrest Hne Htk Hl Hc|Hu Hb Hl Hw Htd].
  - eapply (handed_run _ _ _ off); try done; [by apply tx_ok_events|]. intros k Hk. destruct (Hj k Hk). split; [by apply Hr|done].
  - eapply (handed_rest _ _ _ off); try done. by apply Hr.
  - by apply handed_last.
Qed.

Lemma handed_busy polled todo t : handed polled todo t -> tx_busy t = true.
Proof. unfold tx_busy. intros [off ? ? H ? ? ?|off ? ? H ? ? ? ?|]; [apply H|apply (ar_ok _ _ H)|done]. Qed.

Lemma tx_data_events polled sc :
  let t := sc_tx (tx_data polled sc) in sc_outm t = sc_outm (sc_tx sc) /\ TX_PACKET t = TX_PACKET (sc_tx sc) /\ TX_TRANSMIT t = TX_TRANSMIT (sc_tx sc).
Proof.
  cbn zeta. unfold tx_data.
  assert (Hf : forall i t, sc_outm (tx_fetch i t) = sc_outm t /\ TX_PACKET (tx_fetch i t) = TX_PACKET t /\ TX_TRANSMIT (tx_fetch i t) = TX_TRANSMIT t)
    by (intros; unfold tx_fetch; by case_match).
  destruct (Hf (sc_outoff (sc_tx sc)) (sc_tx sc)) as (H1 & H2 & H3). set (t := tx_fetch _ _) in *.
  set (r := if ESCAPE_P _ _ then _ else _).
  assert (Hr : sc_outm r.2 = sc_outm t /\ TX_PACKET r.2 = TX_PACKET t /\ TX_TRANSMIT r.2 = TX_TRANSMIT t).
  { unfold r. destruct (ESCAPE_P _ _); [by destruct (has_bits _ _)|].
    assert (Hrun : forall fuel i t, sc_outm (tx_run fuel i t).2 = sc_outm t /\ TX_PACKET (tx_run fuel i t).2 = TX_PACKET t /\ TX_TRANSMIT (tx_run fuel i t).2 = TX_TRANSMIT t).
    { induction fuel as [|fuel IH]; intros i t0; cbn [tx_run]; [by destruct (_ && _)|]. destruct (_ && _); [|done].
      destruct (IH (i + 1) (tx_fetch (sc_outoff t0 + (i + 1)) t0)) as (-> & -> & ->). apply Hf. }
    specialize (Hrun (Z.to_nat (sc_outlen t - sc_outoff t)) 0 t). by destruct (tx_run _ 0 t). }
  destruct r as [[n buf] t']. cbn in Hr. rewrite -H1 -H2 -H3. destruct polled; [exact Hr|]. by case_match.
Qed.

Lemma pppstart_events polled len sc :
  let t := sc_tx (pppstart polled len sc) in
  sc_outm t = sc_outm (sc_tx sc) /\ TX_PACKET t = TX_PACKET (sc_tx sc) /\
  (TX_TRANSMIT t = TX_TRANSMIT (sc_tx sc) \/ TX_TRANSMIT t = true /\ tx_busy t = false).
Proof.
  cbn zeta. unfold pppstart. case_match; [tauto|]. set (sc1 := if sc_outoff_update _ then _ else _).
  assert (H1 : sc_outm (sc_tx sc1) = sc_outm (sc_tx sc) /\ TX_PACKET (sc_tx sc1) = TX_PACKET (sc_tx sc) /\ TX_TRANSMIT (sc_tx sc1) = TX_TRANSMIT (sc_tx sc))
    by (unfold sc1; by case_match).
  destruct H1 as (<- & <- & <-). case_match.
  { repeat split. right. split; [done|]. unfold tx_busy. cbn -[has_bits]. by apply has_bits_ldiff_same. }
  assert (Hn : let t := sc_tx (tx_next sc1).2 in sc_outm t = sc_outm (sc_tx sc1) /\ TX_PACKET t = TX_PACKET (sc_tx sc1) /\ TX_TRANSMIT t = TX_TRANSMIT (sc_tx sc1))
    by (unfold tx_next; by repeat case_match).
  destruct (sc_outlen (sc_tx sc1) <=? sc_outoff (sc_tx sc1)).
  - destruct (tx_next sc1) as [[] sc2]; cbn [snd] in Hn; destruct Hn as (<- & <- & <-); [tauto|]. case_match; [|tauto].
    destruct (tx_data_events polled sc2) as (-> & -> & ->). tauto.
  - case_match; [|tauto]. destruct (tx_data_events polled sc1) as (-> & -> & ->). tauto.
Qed.

Lemma pppstart_inv polled k sc : driver_may polled k sc = true -> tx_inv polled sc -> tx_inv polled (pppstart polled (Z.of_nat k) sc).
Proof.
  intros Hk [Hd Hf Ha Hw Hn Hb Hi]. destruct (pppstart_keeps polled (Z.of_nat k) sc) as (_ & Hif & Hdv & Ham & Hfb).
  destruct (pppstart_events polled (Z.of_nat k) sc) as (Hom & Hp & Ht).
  unfold driver_may in Hk. apply andb_true_iff in Hk as [Hk1 Hk3]. apply andb_true_iff in Hk1 as [Hk1 Hk2].
  apply Nat.ltb_lt in Hk1. apply Nat.leb_le in Hk2.
  assert (Hpol : polled = true -> k = length (tx_write (sc_tx sc))) by (intros ->; by apply Nat.eqb_eq in Hk3).
  destruct (tx_busy (sc_tx sc)) eqn:Eb.
  - destruct (Hb eq_refl) as (Ho & Htr & todo & Hh).
    destruct (pppstart_goes_on polled k sc todo Hd Hh ltac:(lia) Hpol) as [Hh'|(_ & _ & Htr' & Hb')].
    + pose proof (handed_busy _ _ _ Hh') as Eb'. split; rewrite ?Hif ?Hdv ?Ham ?Hfb //; intros E; [|congruence].
      rewrite Hom. split; [done|]. split; [|by eexists]. destruct Ht as [->|[_ ?]]; [done|congruence].
    + split; rewrite ?Hif ?Hdv ?Ham ?Hfb //; intros E; [unfold tx_busy in E; congruence|]. split; [done|]. intros _. by right.
  - assert (E : pppstart polled (Z.of_nat k) sc = on_tx (handler_write []) sc).
    { unfold pppstart. unfold tx_busy in Eb. by rewrite Eb andb_false_r. }
    rewrite E. split; try done.
    + intros Ebt. exfalso. change (tx_busy (sc_tx sc) = true) in Ebt. congruence.
    + intros _. apply (Hi eq_refl).
Qed.

(** The task looks for a packet. *)
Definition tx_look (sc : softc) : softc :=
  let '(m, sc) := ppp_dequeue sc in
  match m with
  | None => on_if (fun i => set_if_drv_flags (Z.ldiff (if_drv_flags i) IFF_DRV_OACTIVE) i) (on_tx (set_sc_outflag 0) sc)
  | Some m => tx_begin m (on_if (fun i => set_if_drv_flags (Z.lor (if_drv_flags i) IFF_DRV_OACTIVE) i) (on_tx (set_sc_outflag SC_TX_BUSY) sc))
  end.

Lemma ppp_txdaemon_look sc :
  let t := sc_tx sc in
  let sc0 := on_tx (fun t => set_TX_TRANSMIT false (set_TX_PACKET false t)) sc in
  let sc1 := if TX_TRANSMIT t then on_tx free_tx sc0 else sc0 in
  ppp_txdaemon sc =
    if TX_PACKET t || TX_TRANSMIT t then (if sc_outm (sc_tx sc1) is Some _ then sc1 else tx_look sc1) else sc1.
Proof. done. Qed.

Lemma tx_look_inv polled sc :
  sc_devp sc = true -> length (sc_outfcsbuf (sc_tx sc)) = 8%nat -> asyncmap_ok (sc_asyncmap (sc_tx sc)) ->
  sc_outm (sc_tx sc) = None -> TX_TRANSMIT (sc_tx sc) = false ->
  Forall sendable_packet (waiting (sc_if sc)) -> Forall sendable_packet (sc_npqueue (sc_if sc)) ->
  tx_inv polled (tx_look sc).
Proof.
  intros Hd Hf Ha Ho Ht Hw Hn. unfold tx_look, ppp_dequeue. pose proof (next_packet_waiting (sc_if sc)) as Hnp.
  assert (Hnq : forall m i, next_packet (sc_if sc) = Some (m, i) -> sc_npqueue i = sc_npqueue (sc_if sc))
    by (intros m i; unfold next_packet; repeat case_match; intros [= _ <-]; done).
  destruct (next_packet (sc_if sc)) as [[m i]|].
  - rewrite Hnp in Hw. apply Forall_cons_1 in Hw as [Hm Hw]. rewrite -(Hnq m i) // in Hn.
    set (c := compress_header _ m). assert (Hc : sendable_chain c) by by apply compress_sendable.
    set (sc2 := on_if _ _).
    assert (H2 : sc_devp sc2 = true /\ sc_outfcsbuf (sc_tx sc2) = sc_outfcsbuf (sc_tx sc) /\ sc_asyncmap (sc_tx sc2) = sc_asyncmap (sc_tx sc) /\
      sc_outflag (sc_tx sc2) = SC_TX_BUSY /\ TX_TRANSMIT (sc_tx sc2) = false /\ waiting (sc_if sc2) = waiting i /\ sc_npqueue (sc_if sc2) = sc_npqueue i) by done.
    destruct H2 as (Hd2 & Hf2 & Ha2 & Hb2 & Ht2 & Hw2 & Hn2). clearbody sc2 c.
    destruct (tx_begin_hands polled c sc2) as [Hdv Hh]; [done|done|by rewrite Hf2|done|].
    destruct Hh as [Hh|(E & _)]; [|done]. rewrite -Hf2 in Hf. rewrite -Ha2 in Ha.
    pose proof (handed_busy _ _ _ Hh) as Eb.
    assert (H3 : sc_if (tx_begin c sc2) = sc_if sc2 /\ sc_asyncmap (sc_tx (tx_begin c sc2)) = sc_asyncmap (sc_tx sc2) /\
      TX_TRANSMIT (sc_tx (tx_begin c sc2)) = TX_TRANSMIT (sc_tx sc2) /\ sc_outm (sc_tx (tx_begin c sc2)) <> None /\
      length (sc_outfcsbuf (sc_tx (tx_begin c sc2))) = 8%nat).
    { unfold tx_begin. cbn. rewrite Hd2. cbn. rewrite length_drop Hf. done. }
    destruct H3 as (Hi3 & Ha3 & Ht3 & Ho3 & Hf3). split; rewrite ?Hi3 ?Ha3 ?Hw2 ?Hn2 //.
    + intros _. split; [done|]. split; [congruence|by eexists].
    + intros E. congruence.
  - split; try done. intros _. split; [intros Hne; by destruct Hne|]. intros [E|E]; [done|]. by destruct E.
Qed.

(** The task has been told; it need not be again. *)
Lemma tx_inv_untold polled sc :
  tx_inv polled sc -> tx_busy (sc_tx sc) = true \/ TX_PACKET (sc_tx sc) = false /\ TX_TRANSMIT (sc_tx sc) = false ->
  tx_inv polled (on_tx (fun t => set_TX_TRANSMIT false (set_TX_PACKET false t)) sc).
Proof.
  intros [Hd Hf Ha Hw Hn Hb Hi] Hor.
  assert (Eb : tx_busy (sc_tx (on_tx (fun t => set_TX_TRANSMIT false (set_TX_PACKET false t)) sc)) = tx_busy (sc_tx sc)) by done.
  split; rewrite ?Eb //.
  - intros E. destruct (Hb E) as (Ho & _ & todo & Hh). split; [exact Ho|]. split; [done|]. exists todo.
    exact (handed_events polled todo false false _ Hh).
  - intros E. destruct Hor as [E'|[Hp Ht]]; [congruence|]. destruct (Hi E) as [Ho Hq]. split; [intros Hne; specialize (Ho Hne); congruence|].
    intros H. destruct (Hq H); congruence.
Qed.

Lemma ppp_txdaemon_inv polled sc : tx_inv polled sc -> tx_inv polled (ppp_txdaemon sc).
Proof.
  intros Hinv. pose proof Hinv as [Hd Hf Ha Hw Hn Hb Hi]. rewrite ppp_txdaemon_look. cbn zeta.
  destruct (TX_TRANSMIT (sc_tx sc)) eqn:Et.
  { rewrite orb_true_r. by apply tx_look_inv. }
  rewrite orb_false_r. set (sc0 := on_tx _ sc). change (sc_outm (sc_tx sc0)) with (sc_outm (sc_tx sc)).
  destruct (TX_PACKET (sc_tx sc)) eqn:Ep; [|by apply tx_inv_untold; [|right]].
  destruct (sc_outm (sc_tx sc)) eqn:Eo; [|by apply tx_look_inv].
  apply tx_inv_untold; [done|]. left. destruct (tx_busy (sc_tx sc)) eqn:Eb; [done|].
  destruct (Hi eq_refl) as [Ho _]. by specialize (Ho ltac:(done)).
Qed.

(** ** The other calls *)

Section Calls.
Context (mc : mbuf_config) (polled : bool).
Context (HM : 4 <= Z.of_nat (MLEN mc) < 2 ^ 15) (HH : 4 <= Z.of_nat (MHLEN mc) < 2 ^ 15) (HC : 4 <= Z.of_nat (MCLBYTES mc) < 2 ^ 15).

Lemma strip_outputtable x ch :
  plain x -> 4 <= m_len x -> Forall sendable ch -> outputtable (strip_header (x :: ch)).
Proof.
  intros (Hw & Hd & [Hl Hs]) H4 Hch. eexists _, ch. split; [done|]. unfold PPP_HDRLEN.
  split; [split; cbn; lia|]. split; [cbn; lia|]. split; [done|]. right. unfold M_LEADINGSPACE. cbn. rewrite Hw. lia.
Qed.

Lemma pppwrite_inv buf sc : (4 <= length buf)%nat -> tx_inv polled sc -> tx_inv polled (pppwrite mc buf sc).2.
Proof.
  intros H4 Hi. unfold pppwrite.
  destruct (write_chain_spec mc HM HC (length buf) buf sc ltac:(lia)) as (Hb & Hp & Hs & Hx).
  destruct (write_chain mc (length buf) buf sc) as [m0 sc1]. cbn [fst snd] in *.
  destruct Hx as (x & ch & -> & Hlx); [intros ->; simpl in H4; lia|]. apply Forall_cons_1 in Hp as [Hx Hp].
  apply (pppoutput_inv mc polled); try done; [|by rewrite Hs; apply (tx_inv_same polled sc)].
  apply strip_outputtable; [done|lia|]. eapply Forall_impl; [|exact Hp]. by intros ? (_ & _ & ?).
Qed.

(** The packets that stay and those that wait are packets that were there. *)
Lemma requeue_sendable q i drops :
  Forall sendable_packet q -> Forall sendable_packet (waiting i) ->
  let r := requeue q i drops in Forall sendable_packet r.1.1 /\ Forall sendable_packet (waiting r.1.2).
Proof.
  revert i drops. induction q as [|m q IH]; intros i drops Hq Hw; [done|]. apply Forall_cons_1 in Hq as [Hm Hq]. cbn [requeue].
  destruct (np_mode _ i); [|by apply IH..|].
  - destruct (IF_QFULL _); [by apply IH|]. apply IH; [done|]. by apply waiting_enqueue.
  - pose proof (IH i drops Hq Hw) as H. destruct (requeue q i drops) as [[kept i'] d]. cbn in H |- *. destruct H. split; [by constructor|done].
Qed.

Lemma ppp_requeue_inv sc :
  tx_inv polled sc -> let sc1 := ppp_requeue sc in
  sc_tx sc1 = sc_tx sc /\ sc_devp sc1 = sc_devp sc /\ Forall sendable_packet (waiting (sc_if sc1)) /\ Forall sendable_packet (sc_npqueue (sc_if sc1)).
Proof.
  intros Hi. unfold ppp_requeue. pose proof (requeue_sendable (sc_npqueue (sc_if sc)) (sc_if sc) 0 (ti_held _ _ Hi) (ti_waiting _ _ Hi)) as H.
  destruct (requeue _ _ _) as [[kept i] d]. cbn in *. by destruct H.
Qed.

(** A map may not change under a frame, nor lose its upper words. *)
Definition ioctl_allowed (c : ttycmd) (sc : softc) : Prop :=
  match c with
  | PPPIOCSASYNCMAP _ => tx_busy (sc_tx sc) = false
  | PPPIOCSXASYNCMAP accm => tx_busy (sc_tx sc) = false /\ length accm = 8%nat
  | _ => True
  end.

Lemma set_asyncmap_inv a sc :
  tx_busy (sc_tx sc) = false -> asyncmap_ok a -> tx_inv polled sc -> tx_inv polled (on_tx (set_sc_asyncmap a) sc).
Proof.
  intros Eb Ha [Hd Hf _ Hw Hn _ Hi]. split; try done. intros E. exfalso. change (tx_busy (sc_tx sc) = true) in E. congruence.
Qed.

Lemma ppptioctl_inv c sc : ioctl_allowed c sc -> tx_inv polled sc -> tx_inv polled (ppptioctl mc c sc).2.
Proof.
  intros Hc Hi. destruct c as [v| |v| |accm| | |c]; cbn [ppptioctl snd]; try done; try (by apply (tx_inv_same polled sc)).
  - apply (set_asyncmap_inv (<[0%nat := u32 v]> (sc_asyncmap (sc_tx sc)))); [done| |done]. apply set_word_ok, Hi.
  - destruct Hc as [Eb Hl]. apply set_asyncmap_inv; [done|by apply set_map_ok|done].
  - destruct c as [|t| | |fl|mru| | |p|p md| |]; cbn [pppioctl snd]; try done; try (by apply (tx_inv_same polled sc)).
    + case_match; [done|]. case_match; [|done]. by apply (tx_inv_same polled sc).
    + by case_match.
    + case_match; [|done]. case_bool_decide; [done|]. set (sc1 := on_if _ sc).
      assert (Hi1 : tx_inv polled sc1) by by apply (tx_inv_same polled sc). case_bool_decide; [done|]. cbn [snd].
      destruct (ppp_requeue_inv sc1 Hi1) as (Ht & Hd & Hw & Hn). apply (pppasyncstart_inv polled sc1); try done.
      rewrite Hd. apply Hi1.
Qed.

(** Receiving leaves the transmitter and its queues alone. *)
Definition same_tx_side (sc sc' : softc) : Prop :=
  sc_tx sc' = sc_tx sc /\ sc_devp sc' = sc_devp sc /\ waiting (sc_if sc') = waiting (sc_if sc) /\ sc_npqueue (sc_if sc') = sc_npqueue (sc_if sc).

Lemma same_tx_side_trans sc1 sc2 sc3 : same_tx_side sc1 sc2 -> same_tx_side sc2 sc3 -> same_tx_side sc1 sc3.
Proof. intros (?&?&?&?) (?&?&?&?). repeat split; congruence. Qed.

Lemma same_tx_side_inv sc sc' : same_tx_side sc sc' -> tx_inv polled sc -> tx_inv polled sc'.
Proof. intros (?&?&?&?) Hi. by apply (tx_inv_same polled sc). Qed.

Lemma ppp_inproc_side ch sc : same_tx_side sc (ppp_inproc mc ch sc).2.
Proof.
  unfold ppp_inproc. set (sc1 := on_stats _ sc). destruct (clear_mark ch sc1) as [m1 sc2] eqn:E2.
  assert (H2 : same_tx_side sc sc2) by (revert E2; unfold clear_mark; case_match; by intros [= _ <-]).
  destruct (copy_small mc m1 sc2) as [[mf m2] sc3] eqn:E3.
  assert (H3 : same_tx_side sc2 sc3).
  { revert E3. unfold copy_small, try_alloc. case_match; [|by intros [= _ _ <-]]. case_match; by intros [= _ _ <-]. }
  apply (same_tx_side_trans sc sc2); [done|]. apply (same_tx_side_trans sc2 sc3); [done|]. cbn [snd]. unfold hand_up, pppasyncctlp.
  set (sc4 := if Z.land _ 32768 =? 0 then _ else _). assert (H4 : same_tx_side sc3 sc4) by (unfold sc4; by case_match).
  repeat case_match; exact H4.
Qed.

Lemma ppp_rxdaemon_side sc : same_tx_side sc (ppp_rxdaemon mc sc).
Proof.
  unfold ppp_rxdaemon. set (sc1 := on_rx _ sc). case_match; [|done].
  set (p := if RX_PACKET (sc_rx sc) then _ else _).
  assert (Hp : same_tx_side sc p.2).
  { unfold p. case_match; [|done]. destruct (dequeue _) as [[m|] q]; [|done].
    apply (same_tx_side_trans sc (on_rx (set_sc_rawq q) sc1)); [done|apply ppp_inproc_side]. }
  destruct p as [mp sc2]. by case_bool_decide.
Qed.

(** ** Every call *)

(** What the rest of the kernel and the daemon may do to an open line. *)
Definition allowed (e : dev_event) (sc : softc) : Prop :=
  match e with
  | D_close => False
  | D_output m _ => outputtable m
  | D_write buf => (4 <= length buf)%nat
  | D_ioctl c => ioctl_allowed c sc
  | _ => True
  end.

Fixpoint admissible (es : list dev_event) (sc : softc) : Prop :=
  match es with
  | [] => True
  | e :: es => allowed e sc /\ admissible es (exec mc polled e sc)
  end.

Lemma exec_tx_inv e sc : allowed e sc -> tx_inv polled sc -> tx_inv polled (exec mc polled e sc).
Proof.
  intros Ha Hi. destruct e; cbn [exec].
  - unfold pppopen, pppalloc. rewrite (ti_open _ _ Hi). by destruct again.
  - done.
  - destruct (pppinput_others c sc) as (Hif & Ht & Hd). apply (tx_inv_same polled sc); rewrite ?Hif //.
  - destruct (driver_may polled k sc) eqn:E; [|done]. by apply pppstart_inv.
  - by apply (same_tx_side_inv sc), Hi; apply ppp_rxdaemon_side.
  - by apply ppp_txdaemon_inv.
  - by apply pppoutput_inv.
  - unfold pppread. case_match; [done|]. case_match; [done|]. apply (tx_inv_same polled sc); try done; cbn; by case_bool_decide.
  - by apply pppwrite_inv.
  - by apply ppptioctl_inv.
  - unfold pppsioctl. destruct c; try done; try (by apply (tx_inv_same polled sc)). cbn [snd]. case_match; [|done]. by apply (tx_inv_same polled sc).
  - by apply (tx_inv_same polled sc).
Qed.

Lemma run_tx_inv es sc : admissible es sc -> tx_inv polled sc -> tx_inv polled (run mc polled es sc).
Proof.
  revert sc. induction es as [|e es IH]; intros sc Ha Hi; [done|]. destruct Ha as [He Ha]. apply (IH (exec mc polled e sc)); [done|].
  by apply exec_tx_inv.
Qed.

Lemma opened_tx_inv : tx_inv polled (exec mc polled (D_open false) ppp_attach).
Proof.
  split; try done; [by constructor..|]. intros _. split; [intros Hne; by destruct Hne|]. intros [E|E]; [done|by destruct E].
Qed.

(** ** What the transmitter does by itself *)

Inductive tx_step (sc : softc) : softc -> Prop :=
  | ts_driver k : tx_busy (sc_tx sc) = true -> driver_may polled k sc = true -> tx_step sc (exec mc polled (D_sent k) sc)
  | ts_task : tx_told (sc_tx sc) -> tx_step sc (exec mc polled D_tx sc).

Lemma tx_step_inv sc sc' : tx_step sc sc' -> tx_inv polled sc -> tx_inv polled sc'.
Proof. intros [k _ _|_]; by apply exec_tx_inv. Qed.

(** While a frame is under way. *)
Lemma busy_next sc :
  tx_inv polled sc -> tx_busy (sc_tx sc) = true -> exists k, driver_may polled k sc = true.
Proof.
  intros Hi Eb. destruct (ti_busy _ _ Hi Eb) as (_ & _ & todo & Hh). exists (length (tx_write (sc_tx sc))).
  assert (Hne : tx_write (sc_tx sc) <> []) by (destruct Hh as [? ? ? ? H|? ? ? ? H|? ? ? H]; [done|done|by rewrite H]).
  unfold driver_may. rewrite Nat.leb_refl Nat.eqb_refl orb_true_r !andb_true_r. apply Nat.ltb_lt. destruct (tx_write _); [done|simpl; lia].
Qed.

Lemma handed_ahead todo t : handed polled todo t -> (length (tx_write t) <= length todo)%nat.
Proof.
  assert (H : take (length (tx_write t)) todo = tx_write t -> (length (tx_write t) <= length todo)%nat).
  { intros E. rewrite -{1}E length_take. lia. }
  intros [? _ _ _ _ E _|? _ _ _ _ E _ _|_ _ _ -> ->]; [by apply H..|done].
Qed.

(** How much the transmitter has to do before it takes the next packet. *)
Inductive left_to_do (sc : softc) : nat -> Prop :=
  | ltd_busy todo : handed polled todo (sc_tx sc) ->
      left_to_do sc (2 + 2 * length todo + (if TX_PACKET (sc_tx sc) then 1 else 0))%nat
  | ltd_idle : tx_busy (sc_tx sc) = false -> left_to_do sc (if TX_PACKET (sc_tx sc) || TX_TRANSMIT (sc_tx sc) then 1 else 0)%nat.

Lemma left_to_do_exists sc : tx_inv polled sc -> exists n, left_to_do sc n.
Proof.
  intros Hi. destruct (tx_busy (sc_tx sc)) eqn:Eb; [|by eexists; apply ltd_idle].
  destruct (ti_busy _ _ Hi Eb) as (_ & _ & todo & Hh). eexists. by apply (ltd_busy sc todo).
Qed.

(** A call of the driver. *)
Lemma driver_less k todo sc :
  tx_inv polled sc -> handed polled todo (sc_tx sc) -> driver_may polled k sc = true ->
  let sc' := pppstart polled (Z.of_nat k) sc in
  waiting (sc_if sc') = waiting (sc_if sc) /\
  exists n', left_to_do sc' n' /\ (n' < 2 + 2 * length todo + (if TX_PACKET (sc_tx sc) then 1 else 0))%nat.
Proof.
  intros Hi Hh Hk. destruct (pppstart_keeps polled (Z.of_nat k) sc) as (_ & Hif & _).
  destruct (pppstart_events polled (Z.of_nat k) sc) as (_ & Hp & _). cbn zeta. rewrite Hif. split; [done|].
  pose proof (handed_ahead todo (sc_tx sc) Hh) as Hlen.
  unfold driver_may in Hk. apply andb_true_iff in Hk as [[Hk1%Nat.ltb_lt Hk2%Nat.leb_le]%andb_true_iff Hk3].
  destruct (pppstart_goes_on polled k sc todo (ti_open _ _ Hi) Hh ltac:(lia)) as [Hh'|(_ & _ & _ & Hb')].
  - intros ->. by apply Nat.eqb_eq in Hk3.
  - eexists. split; [by apply (ltd_busy _ (drop k todo))|]. rewrite Hp length_drop. lia.
  - eexists. split; [by apply ltd_idle|]. repeat case_match; lia.
Qed.

(** A turn of the task. *)
Lemma task_less n sc :
  tx_inv polled sc -> tx_told (sc_tx sc) -> left_to_do sc n ->
  let sc' := ppp_txdaemon sc in
  (length (waiting (sc_if sc')) < length (waiting (sc_if sc)))%nat \/
  waiting (sc_if sc') = waiting (sc_if sc) /\ exists n', left_to_do sc' n' /\ (n' < n)%nat.
Proof.
  intros Hi Ht Hn. cbn zeta. rewrite ppp_txdaemon_look. cbn zeta.
  replace (TX_PACKET (sc_tx sc) || TX_TRANSMIT (sc_tx sc)) with true by (symmetry; apply orb_true_iff, Ht).
  assert (Hlook : forall sc1, sc_if sc1 = sc_if sc -> TX_PACKET (sc_tx sc1) = false -> TX_TRANSMIT (sc_tx sc1) = false -> (0 < n)%nat ->
    (length (waiting (sc_if (tx_look sc1))) < length (waiting (sc_if sc)))%nat \/
    waiting (sc_if (tx_look sc1)) = waiting (sc_if sc) /\ exists n', left_to_do (tx_look sc1) n' /\ (n' < n)%nat).
  { intros sc1 Hif Hp1 Ht1 Hpos. unfold tx_look, ppp_dequeue. rewrite Hif. pose proof (next_packet_waiting (sc_if sc)) as Hnp.
    destruct (next_packet (sc_if sc)) as [[m i]|].
    - left. rewrite Hnp. change (length (waiting i) < S (length (waiting i)))%nat. lia.
    - right. split; [by rewrite -Hif|]. eexists. split; [by apply ltd_idle|]. cbn. by rewrite Hp1 Ht1. }
  destruct Hn as [todo Hh|Eb].
  - pose proof (handed_busy _ _ _ Hh) as Eb. destruct (ti_busy _ _ Hi Eb) as (Ho & Etr & _).
    destruct Ht as [Ep|Ep]; [|congruence]. rewrite Etr. destruct (sc_outm _) eqn:Eo; [|by destruct Ho].
    right. split; [done|]. eexists. split; [|rewrite Ep; apply Nat.add_lt_mono_l, Nat.lt_0_1].
    apply (ltd_busy (on_tx (fun t => set_TX_TRANSMIT false (set_TX_PACKET false t)) sc) todo), (handed_events polled todo false false _ Hh).
  - assert (Epos : (if TX_PACKET (sc_tx sc) || TX_TRANSMIT (sc_tx sc) then 1 else 0)%nat = 1%nat)
      by (replace (TX_PACKET (sc_tx sc) || TX_TRANSMIT (sc_tx sc)) with true; [done|symmetry; apply orb_true_iff, Ht]).
    destruct (TX_TRANSMIT (sc_tx sc)) eqn:Etr; [apply Hlook; try done; rewrite Epos; lia|].
    destruct (sc_outm (sc_tx _)) eqn:Eo; [|apply Hlook; try done; rewrite Epos; lia].
    destruct (ti_idle _ _ Hi Eb) as [Htr _]. change (sc_outm (sc_tx sc) = Some l) in Eo. rewrite Eo Etr in Htr. by specialize (Htr ltac:(done)).
Qed.

Lemma tx_steps_end sc : tx_inv polled sc -> sn tx_step sc.
Proof.
  remember (length (waiting (sc_if sc))) as w eqn:Ew. revert sc Ew.
  induction (lt_wf w) as [w _ IHw]. intros sc Ew Hi. destruct (left_to_do_exists sc Hi) as [n Hn]. revert sc Ew Hi Hn.
  induction (lt_wf n) as [n _ IHn]. intros sc Ew Hi Hn. constructor. intros sc' Hs. pose proof (tx_step_inv sc sc' Hs Hi) as Hi'.
  assert (Hless : (length (waiting (sc_if sc')) < length (waiting (sc_if sc)))%nat \/
    waiting (sc_if sc') = waiting (sc_if sc) /\ exists n', left_to_do sc' n' /\ (n' < n)%nat).
  { destruct Hs as [k Eb Hk|Ht]; [|by apply task_less]. right. cbn [exec]. rewrite Hk.
    destruct Hn as [todo Hh|Eb']; [|congruence]. by apply driver_less. }
  destruct Hless as [Hl|(E & n' & Hn' & Hl)]; [by apply (IHw _ ltac:(rewrite Ew; exact Hl) sc')|].
  apply (IHn n' Hl sc'); [by rewrite E|done|done].
Qed.

(** C11: whatever is done to an open line, short of closing it or of changing a map
    under a frame, the transmitter works off by itself all that waits: the driver
    and the sending task stop after finitely many calls, however they take turns,
    and when neither has anything to do nothing is under way and no packet waits.
    The map always escapes flag and escape, so it fits every other end that drops
    no more than it escapes. *)
Theorem ppp_transmitter_drains es :
  let sc0 := exec mc polled (D_open false) ppp_attach in
  admissible es sc0 -> let sc := run mc polled es sc0 in
  sn tx_step sc /\
  (forall sc', rtc tx_step sc sc' -> nf tx_step sc' -> tx_busy (sc_tx sc') = false /\ waiting (sc_if sc') = []) /\
  (forall ra, drops_escaped (sc_asyncmap (sc_tx sc)) ra -> maps_agree (sc_asyncmap (sc_tx sc)) ra).
Proof.
  intros sc0 Ha sc. assert (Hi : tx_inv polled sc) by (apply run_tx_inv; [done|apply opened_tx_inv]).
  split; [by apply tx_steps_end|]. split; [|intros ra; apply asyncmap_agrees, Hi].
  intros sc' Hs Hn. assert (Hi' : tx_inv polled sc') by (clear Hn; induction Hs as [|sc1 sc2 sc3 H12 _ IH]; [done|]; apply IH; by eapply tx_step_inv).
  destruct (tx_busy (sc_tx sc')) eqn:Eb.
  - destruct (busy_next sc' Hi' Eb) as [k Hk]. destruct Hn. eexists. by apply (ts_driver sc' k).
  - split; [done|]. destruct (waiting (sc_if sc')) as [|m q] eqn:Ew; [done|]. destruct Hn. eexists. apply ts_task.
    apply (ti_idle _ _ Hi' Eb). right. by rewrite Ew.
Qed.
End Calls.
