(* ===== verification/PppConfig.v ===== *)
(** * The daemons configure the two ends

    [ppp_send_config] and [ppp_recv_config] of [sys-rtems.c] as the ioctls they
    are, and what LCP's negotiation is for: when one daemon has acknowledged the
    request of the other and both come up, the transmitter of the one fits the
    receiver of the other. *)

From S2P Require Import Prelude Wire Callout Fsm LcpOptions LcpReqci LcpOptionsSpec LcpReqciSpec LcpAgree Lcp.
From S2P Require Import Inet Netif Fcs PppSoftc PppTty PppIf PppSend PppReceive PppFrames PppPath PppRun PppLive.

Section Config.
Context (mc : mbuf_config).

(** [if (ioctl(...) < 0) fatal(...)]: the daemon dies of an error. *)
Definition ioctl_then (r : error * answer * softc) (k : answer -> softc -> option softc) : option softc :=
  let '(e, a, sc) := r in if bool_decide (e = E_OK) then k a sc else None.

(** [x = on? x | bit: x &~ bit] on the flags of the interface. *)
Definition change_flags (g : Z -> Z) (sc : softc) : option softc :=
  ioctl_then (ppptioctl mc (PPPIO_DEVICE PPPIOCGFLAGS) sc) (fun a sc =>
    let x := match a with A_int x => x | _ => 0 end in
    ioctl_then (ppptioctl mc (PPPIO_DEVICE (PPPIOCSFLAGS (g x))) sc) (fun _ sc => Some sc)).
Definition put_bit (on : bool) (bit x : Z) : Z := if on then Z.lor x bit else Z.ldiff x bit.

Definition send_config (c : if_config) (sc : softc) : option softc :=
  ioctl_then (pppsioctl (SIOCSIFMTU (Lcp.if_mtu c)) sc) (fun _ sc =>
    ioctl_then (ppptioctl mc (PPPIOCSASYNCMAP (if_accm c)) sc) (fun _ sc =>
      change_flags (fun x => put_bit (if_accomp c) SC_COMP_AC (put_bit (if_pcomp c) SC_COMP_PROT x)) sc)).

Definition recv_config (c : if_config) (sc : softc) : option softc :=
  ioctl_then (ppptioctl mc (PPPIO_DEVICE (PPPIOCSMRU (Lcp.if_mtu c))) sc) (fun _ sc =>
    ioctl_then (ppptioctl mc (PPPIOCSRASYNCMAP (if_accm c)) sc) (fun _ sc =>
      change_flags (put_bit (negb (if_accomp c)) SC_REJ_COMP_AC) sc)).

(** ** What they leave *)

Lemma has_bits_put on bit other x :
  bit <> 0 -> Z.land bit other = 0 -> has_bits (put_bit on bit x) bit = on /\ has_bits (put_bit on bit x) other = has_bits x other.
Proof.
  intros Hb Ho. unfold put_bit, has_bits. destruct on.
  - rewrite !Z.land_lor_distr_l Ho Z.lor_0_r. split; [|done]. rewrite Z.land_diag. apply negb_true_iff, Z.eqb_neq.
    rewrite Z.lor_eq_0_iff. by intros [_ ?].
  - assert (Hd : forall y, Z.land (Z.ldiff x bit) y = Z.land x (Z.ldiff y bit)).
    { intros y. apply Z.bits_inj'. intros i _. rewrite !Z.land_spec !Z.ldiff_spec.
      destruct (Z.testbit x i), (Z.testbit bit i), (Z.testbit y i); reflexivity. }
    rewrite !Hd Z.ldiff_diag Z.land_0_r. split; [done|]. do 3 f_equal. apply Z.bits_inj'. intros i Hi. rewrite Z.ldiff_spec.
    apply (f_equal (fun z => Z.testbit z i)) in Ho. rewrite Z.land_spec Z.bits_0 in Ho.
    by destruct (Z.testbit bit i), (Z.testbit other i).
Qed.

(** The flags a user may change. *)
Lemma has_bits_mask f x b : Z.ldiff b SC_MASK = 0 -> has_bits (Z.lor (Z.ldiff f SC_MASK) (Z.land x SC_MASK)) b = has_bits x b.
Proof.
  intros Hb. unfold has_bits. do 2 f_equal. apply Z.bits_inj'. intros i Hi. rewrite !Z.land_spec Z.lor_spec Z.ldiff_spec !Z.land_spec.
  apply (f_equal (fun z => Z.testbit z i)) in Hb. rewrite Z.ldiff_spec Z.bits_0 in Hb.
  by destruct (Z.testbit f i), (Z.testbit x i), (Z.testbit SC_MASK i), (Z.testbit b i).
Qed.

Lemma change_flags_spec g sc :
  exists fl, change_flags g sc = Some (set_sc_flags fl sc) /\
    forall b, Z.ldiff b SC_MASK = 0 -> has_bits fl b = has_bits (g (sc_flags sc)) b.
Proof. eexists. split; [reflexivity|]. intros b Hb. by apply has_bits_mask. Qed.

Lemma send_config_spec c sc :
  exists sc', send_config c sc = Some sc' /\ PppSoftc.if_mtu (sc_if sc') = Lcp.if_mtu c /\
    sc_asyncmap (sc_tx sc') = <[0%nat := u32 (if_accm c)]> (sc_asyncmap (sc_tx sc)) /\
    has_bits (sc_flags sc') SC_COMP_AC = if_accomp c /\ has_bits (sc_flags sc') SC_COMP_PROT = if_pcomp c.
Proof.
  unfold send_config. cbn [ioctl_then pppsioctl ppptioctl]. rewrite !bool_decide_true //.
  set (sc1 := on_tx _ _). destruct (change_flags_spec (fun x => put_bit (if_accomp c) SC_COMP_AC (put_bit (if_pcomp c) SC_COMP_PROT x)) sc1)
    as (fl & -> & Hfl). eexists. split; [done|]. split; [done|]. split; [done|]. cbn [sc_flags set_sc_flags]. rewrite !Hfl //.
  destruct (has_bits_put (if_accomp c) SC_COMP_AC SC_COMP_PROT (put_bit (if_pcomp c) SC_COMP_PROT (sc_flags sc1))) as [-> ->]; [done..|].
  split; [done|]. by apply (has_bits_put (if_pcomp c) SC_COMP_PROT 0).
Qed.

(** An MRU that does not fit in a cluster kills the daemon; a small one is
    ignored. *)
Lemma recv_config_spec c sc :
  if Z.of_nat (MCLBYTES mc) <=? Lcp.if_mtu c then recv_config c sc = None
  else exists sc', recv_config c sc = Some sc' /\
    sc_mru sc' = (if PPP_MRU <=? Lcp.if_mtu c then Lcp.if_mtu c else sc_mru sc) /\
    sc_rasyncmap (sc_rx sc') = u32 (if_accm c) /\ buffers sc' = buffers sc /\
    has_bits (sc_flags sc') SC_REJ_COMP_AC = negb (if_accomp c).
Proof.
  unfold recv_config. cbn [ppptioctl pppioctl]. destruct (Z.of_nat (MCLBYTES mc) <=? Lcp.if_mtu c); [by cbn|].
  cbn [ioctl_then]. rewrite !bool_decide_true //. set (sc1 := on_rx _ _).
  destruct (change_flags_spec (put_bit (negb (if_accomp c)) SC_REJ_COMP_AC) sc1) as (fl & -> & Hfl).
  eexists. split; [done|]. split; [unfold sc1; by destruct (PPP_MRU <=? Lcp.if_mtu c)|].
  split; [done|]. split; [unfold sc1; by destruct (PPP_MRU <=? Lcp.if_mtu c)|]. cbn [sc_flags set_sc_flags]. rewrite Hfl //.
  by apply (has_bits_put (negb (if_accomp c)) SC_REJ_COMP_AC 0).
Qed.
End Config.

(** ** The agreement *)

(** The map one side agreed to send with is the one the other receives with, or
    the other drops nothing. *)
Lemma agreed_accm lax ao ho wo go :
  recorded go ho -> options_ok go ->
  let a := if_accm (up_xmit_config ao ho) in let b := if_accm (up_recv_config lax wo go) in
  b = 0 \/ a = b /\ u32 a = a.
Proof.
  intros (_ & _ & Hn & Ha & _) Hok. cbn. destruct lax; [by left|right]. rewrite Hn. unfold asks_asyncmap in *.
  destruct (neg_asyncmap go); cbn [andb] in *; [|done]. destruct (Z.eqb_spec (asyncmap go) ALLONES) as [E|E]; cbn [negb] in *.
  - by rewrite E.
  - rewrite Ha //. split; [done|]. apply u32_small, Hok.
Qed.

Lemma agreed_mtu lax ao ho wo go mru0 :
  recorded go ho -> PPP_MRU <= mru0 ->
  let m := Lcp.if_mtu (up_recv_config lax wo go) in
  Lcp.if_mtu (up_xmit_config ao ho) <= (if PPP_MRU <=? m then m else mru0).
Proof.
  intros (Hn & Hm & _) H0. cbn. rewrite Hn. unfold asks_mru, DEFMRU in *. destruct (neg_mru go); cbn [andb] in *.
  - destruct (Z.eqb_spec (mru go) 1500) as [E|E]; cbn [negb] in *; [|rewrite Hm //]; destruct (Z.leb_spec PPP_MRU (Z.max (mru wo) (mru go)));
      unfold PPP_MRU in *; lia.
  - destruct (Z.leb_spec PPP_MRU PPP_MRU); lia.
Qed.

(** C15: negotiation makes the two ends fit.  One daemon's request is acknowledged
    by the other, whatever the options are, and both come up and configure their
    devices from what they have agreed on.  Then the sender escapes what the
    receiver drops, leaves out address and control only if the receiver takes
    that, and sends no more than the receiver's MRU; unless the MRU asked for
    does not fit in a cluster, of which the receiving daemon dies. *)
Theorem agreed_ends_fit magic ao gob rid seed r lax wo go mc mc' sc rc :
  options_ok go -> lcp_reqci magic ao gob seed (lcp_addci go) (lcp_cilen go) rid = Good r -> rr_code r = CONFACK ->
  asyncmap_ok (sc_asyncmap (sc_tx sc)) -> PPP_MRU <= sc_mru rc ->
  let m := if neg_mru go then Z.max (mru wo) (mru go) else PPP_MRU in
  (if Z.of_nat (MCLBYTES mc') <=? m then recv_config mc' (up_recv_config lax wo go) rc = None else
   exists sc1 rc1, send_config mc (up_xmit_config ao (rr_ho r)) sc = Some sc1 /\
     recv_config mc' (up_recv_config lax wo go) rc = Some rc1 /\
     PppSoftc.if_mtu (sc_if sc1) <= sc_mru rc1 /\
     (Forall (roomy (sc_mru rc1)) (buffers rc) -> ends_fit sc1 rc1)).
Proof.
  intros Hok Hr Hack Hmap Hmru m.
  pose proof (lcp_reqci_records magic ao gob rid go (lcp_cilen go) seed r Hok (eq_sym (length_lcp_addci go)) Hr Hack) as Hrec.
  pose proof (recv_config_spec mc' (up_recv_config lax wo go) rc) as Hrc. change (Lcp.if_mtu (up_recv_config lax wo go)) with m in Hrc.
  destruct (Z.of_nat (MCLBYTES mc') <=? m); [done|].
  destruct Hrc as (rc1 & Hrc1 & Hm1 & Hra & Hbuf & Hrej). destruct (send_config_spec mc (up_xmit_config ao (rr_ho r)) sc) as (sc1 & Hsc1 & Hmtu & Ha & Hac & _).
  exists sc1, rc1. split; [done|]. split; [done|]. split; [rewrite Hmtu Hm1; exact (agreed_mtu lax ao (rr_ho r) wo go (sc_mru rc) Hrec Hmru)|]. intros Hroomy. split.
  - rewrite Ha Hra. apply asyncmap_agrees; [by apply set_word_ok|]. intros c _ Hc.
    assert (Hl : (0 < length (sc_asyncmap (sc_tx sc)))%nat) by (rewrite (am_length _ Hmap); lia).
    rewrite nth_lookup list_lookup_insert_eq //. cbn [default from_option]. unfold id.
    destruct (agreed_accm lax ao (rr_ho r) wo go Hrec Hok) as [E|[E _]]; [rewrite E in Hc; by rewrite Z.bits_0 in Hc|by rewrite E].
  - rewrite Hm1. destruct (Z.leb_spec PPP_MRU m); unfold PPP_MRU in *; lia.
  - by rewrite Hbuf.
  - rewrite Hac Hrej. intros E. apply negb_false_iff. destruct Hrec as (_ & _ & _ & _ & _ & E'). cbn in E |- *. congruence.
Qed.
