(* ===== verification/DemandSpec.v ===== *)
(** * Dialling on demand: what is kept

    The loopback's frames, as the interface writes them, are put together again,
    whatever pieces they are read in; of the packets exactly those are kept that
    are worth dialling for, and [demand_rexmit] sends those of IP in their order.
    Nothing that comes from the loopback is stored outside of [frame]. *)

From S2P Require Import Prelude Wire Callout Fsm Fcs LcpOptions Lcp Upap Chap Auth AuthSpec Inet Netif IpcpOptions Ipcp IpcpNet Demand.
From S2P Require Import PppSoftc PppTty PppIf PppSend PppReceive PppFrames.

(** ** Reading a packet *)

Section Reading.
Context (p rest : bytes).

Lemma char_within n :
  (n < length p)%nat -> exists v r r', GETCHAR (drop n p) = Some (v, r) /\ GETCHAR (drop n (p ++ rest)) = Some (v, r').
Proof.
  intros Hn. rewrite drop_app_le; [lia|]. assert (Hl : (0 < length (drop n p))%nat) by (rewrite length_drop; lia).
  destruct (drop n p) as [|v r]; [simpl in Hl; lia|]. by eexists _, _, _.
Qed.

Lemma short_within n :
  (n + 2 <= length p)%nat -> exists v r r', GETSHORT (drop n p) = Some (v, r) /\ GETSHORT (drop n (p ++ rest)) = Some (v, r').
Proof.
  intros Hn. rewrite drop_app_le; [lia|]. assert (Hl : (2 <= length (drop n p))%nat) by (rewrite length_drop; lia).
  destruct (drop n p) as [|v [|v' r]]; [simpl in Hl; lia..|]. by eexists _, _, _.
Qed.

Lemma protocol_within : (4 <= length p)%nat -> PPP_PROTOCOL (p ++ rest) = PPP_PROTOCOL p.
Proof. intros H4. unfold PPP_PROTOCOL. by destruct (short_within 2) as (v & r & r' & -> & ->); [lia|]. Qed.

(** Only the packet is read of what is in the buffer. *)
Lemma ip_active_pkt_within :
  exists b, ip_active_pkt p (Z.of_nat (length p)) = Some b /\ ip_active_pkt (p ++ rest) (Z.of_nat (length p)) = Some b.
Proof.
  unfold ip_active_pkt. rewrite !drop_drop. destruct (Z.ltb_spec (Z.of_nat (length p) - PPP_HDRLEN) IP_HDRLEN) as [|Hl]; [by eexists|].
  unfold PPP_HDRLEN, IP_HDRLEN, TCP_HDRLEN in *.
  destruct (short_within (Z.to_nat 4 + 6)) as (off & ? & ? & -> & ->); [lia|]. cbn [mbind option_bind].
  destruct (negb _); [by eexists|].
  destruct (char_within (Z.to_nat 4 + 9)) as (proto & ? & ? & -> & ->); [lia|]. cbn [mbind option_bind].
  destruct (negb _); [by eexists|].
  destruct (char_within (Z.to_nat 4)) as (vhl & ? & ? & -> & ->); [lia|]. cbn [mbind option_bind].
  pose proof (Z.land_nonneg vhl 15) as Hh. set (hlen := Z.land vhl 15 * 4).
  destruct (Z.ltb_spec (Z.of_nat (length p) - 4) (hlen + 20)) as [|Hl2]; [by eexists|]. rewrite !drop_drop.
  destruct (char_within (Z.to_nat 4 + (Z.to_nat hlen + 13))) as (fl & ? & ? & -> & ->); [lia|]. cbn [mbind option_bind].
  destruct (Z.land fl TH_FIN =? 0); [by eexists|].
  destruct (char_within (Z.to_nat 4 + (Z.to_nat hlen + 12))) as (off2 & ? & ? & -> & ->); [lia|]. by eexists.
Qed.
End Reading.

(** A packet worth dialling for: of IP, if it is not one of those that only end
    a connection, or one that is compressed. *)
Definition worth_dialling (pkt : bytes) : bool :=
  (4 <=? length pkt)%nat &&
  if PPP_PROTOCOL pkt =? PPP_IP then default false (ip_active_pkt pkt (Z.of_nat (length pkt))) else PPP_PROTOCOL pkt =? 0xfd.

Section Demand.
Context {Y : Type}.
Abbreviation W := (daemon (ipcp * Y)).
Context `{ByteOrder}.
Context (ic : ip_config) (malloc_ok : bytes -> bool).
Implicit Types w : W.

Definition saved (pkts : list bytes) w : W := on_ipcp (fun s => set_pend_q (pend_q s ++ pkts) s) w.

Lemma saved_nil w : saved [] w = w.
Proof. unfold saved, on_ipcp. destruct w as [? ? ? ? ? ? [s y]]. cbn. rewrite app_nil_r. by destruct s. Qed.

Lemma saved_saved xs ys w : saved ys (saved xs w) = saved (xs ++ ys) w.
Proof. unfold saved, on_ipcp. destruct w as [? ? ? ? ? ? [s y]]. cbn. by rewrite -app_assoc. Qed.

Lemma active_packet_is pkt rest :
  (4 <= length pkt)%nat ->
  active_packet (W := W) ic (pkt ++ rest) (Z.of_nat (length pkt)) = Some (worth_dialling pkt).
Proof.
  intros H4. unfold active_packet, worth_dialling, PPP_HDRLEN. rewrite (proj2 (Z.ltb_ge _ _)); [lia|]. rewrite (proj2 (Nat.leb_le 4 _) H4).
  rewrite protocol_within // andb_true_l. destruct (ip_active_pkt_within pkt rest) as (b & E & E').
  unfold demand_protocols. cbn [active_scan dp_protocol dp_enabled active_pkt].
  change (PPP_LCP <? 49152) with false. change (PPP_PAP <? 49152) with false. change (PPP_CHAP <? 49152) with false.
  change (PPP_IPCP <? 49152) with true. change (PPP_CCP <? 49152) with true. cbn [andb negb].
  change (Z.ldiff PPP_IPCP 32768) with PPP_IP. change (Z.ldiff PPP_CCP 32768) with 0xfd. rewrite (Z.eqb_sym PPP_IP) E E' (Z.eqb_sym 0xfd).
  destruct (_ =? PPP_IP); [done|]. by destruct (_ =? 0xfd).
Qed.

(** ** A frame *)

Definition kept (pkt : bytes) : list bytes := if worth_dialling pkt && malloc_ok pkt then [pkt] else [].

Lemma loop_frame_is pkt rest w :
  loop_frame ic malloc_ok (pkt ++ rest) (Z.of_nat (length pkt)) w = (worth_dialling pkt, saved (kept pkt) w).
Proof.
  unfold loop_frame, kept, PPP_HDRLEN. destruct (Z.ltb_spec (Z.of_nat (length pkt)) 4) as [Hs|H4].
  { unfold worth_dialling. rewrite (proj2 (Nat.leb_gt 4 _)); [lia|]. cbn [andb]. by rewrite saved_nil. }
  rewrite protocol_within; [lia|]. destruct (Z.eqb_spec (Z.land (PPP_PROTOCOL pkt) 32768) 0) as [E|E]; cbn [negb].
  - rewrite active_packet_is //; [lia|]. destruct (worth_dialling pkt); cbn [andb]; [|by rewrite saved_nil].
    rewrite Nat2Z.id take_app_length. by destruct (malloc_ok pkt); [|rewrite saved_nil].
  - assert (Hw : worth_dialling pkt = false).
    { unfold worth_dialling. destruct (4 <=? length pkt)%nat; [cbn [andb]|done].
      destruct (Z.eqb_spec (PPP_PROTOCOL pkt) PPP_IP) as [E'|_]; [by rewrite E' in E|]. apply Z.eqb_neq. intros E'. by rewrite E' in E. }
    rewrite Hw /=. by rewrite saved_nil.
Qed.

(** ** Characters *)

(** The memory of the frame is as large as [framemax] says, and nothing has been
    stored outside. *)
Definition frame_ok (lp : loopback) : Prop :=
  (framelen lp <= framemax lp <= length (frame lp))%nat /\ frame_oob lp = false.

Lemma frame_ok_new lp : frame_ok lp -> frame_ok (new_frame lp).
Proof. intros [? ?]. split; [simpl; lia|done]. Qed.

Lemma frame_ok_put c lp : frame_ok lp -> (framelen lp < framemax lp)%nat -> frame_ok (frame_put c lp).
Proof.
  intros [? Ho] Hlt. split; [cbn; rewrite length_insert; lia|]. cbn. rewrite Ho /=. apply negb_false_iff, Nat.ltb_lt. lia.
Qed.

(** A frame of which the octets [bs] have come in. *)
Record framing (bs : bytes) (lp : loopback) : Prop := {
  fg_ok : frame_ok lp;
  fg_escape : escape_flag lp = false;
  fg_flush : flush_flag lp = false;
  fg_len : framelen lp = length bs;
  fg_bytes : take (length bs) (frame lp) = bs;
  fg_fcs : lp_fcs lp = pppfcs PPP_INITFCS bs
}.

Lemma framing_put bs c lp : framing bs lp -> (length bs < framemax lp)%nat -> framing (bs ++ [c]) (frame_put c lp).
Proof.
  intros [Hok He Hf Hl Hb Hc] Hlt. pose proof Hok as [Hlen _]. split; cbn; [apply frame_ok_put; [done|lia]|done|done|by rewrite length_app Hl; simpl; lia| |].
  - rewrite length_app Hl /= Nat.add_1_r (take_S_r _ _ c); [by rewrite list_lookup_insert_eq; [lia|]|]. by rewrite take_insert_ge // Hb.
  - by rewrite pppfcs_app Hc.
Qed.

(** The octets that do not fit are passed over until the frame ends. *)
Definition passing (lp : loopback) : Prop := frame_ok lp /\ flush_flag lp = true.

Lemma loop_chars_app p q lp w :
  loop_chars ic malloc_ok (p ++ q) lp w =
  let '(rv, lp, w) := loop_chars ic malloc_ok p lp w in let '(rv', lp, w) := loop_chars ic malloc_ok q lp w in (rv || rv', lp, w).
Proof.
  revert lp w. induction p as [|c p IH]; intros lp w; cbn [app loop_chars].
  { by destruct (loop_chars _ _ q lp w) as [[? ?] ?]. }
  destruct (loop_char _ _ c lp w) as [[rv lp1] w1]. rewrite IH. destruct (loop_chars _ _ p lp1 w1) as [[rv2 lp2] w2].
  destruct (loop_chars _ _ q lp2 w2) as [[rv3 lp3] w3]. by rewrite orb_assoc.
Qed.

Lemma passing_char c lp w : c <> PPP_FLAG -> passing lp -> loop_char ic malloc_ok c lp w = (false, lp, w).
Proof. intros Hc [_ Hf]. unfold loop_char. by rewrite (proj2 (Z.eqb_neq _ _) Hc) Hf. Qed.

Lemma passing_chars cs lp w : ~ In PPP_FLAG cs -> passing lp -> loop_chars ic malloc_ok cs lp w = (false, lp, w).
Proof.
  intros Hc Hp. induction cs as [|c cs IH]; [done|]. cbn [loop_chars]. rewrite passing_char //; [by intros ->; apply Hc; left|].
  rewrite IH //. intros H1. apply Hc. by right.
Qed.

(** An octet, escaped or not. *)
Lemma framing_octet a bs c lp w :
  maps_agree a 0 -> byte_ok c -> framing bs lp ->
  exists lp', loop_chars ic malloc_ok (stuff_char a c) lp w = (false, lp', w) /\ framemax lp' = framemax lp /\
    (if (length bs <? framemax lp)%nat then framing (bs ++ [c]) lp' else passing lp').
Proof.
  intros Ha Hc Hh. specialize (Ha c Hc). pose proof Hh as [Hok He Hf Hl _ _].
  assert (Hput : forall lp1, lp1 = lp -> exists lp',
    (if (framemax lp1 <=? framelen lp1)%nat then (false, set_flush_flag true lp1, w) else (false, frame_put c lp1, w)) = (false, lp', w) /\
    framemax lp' = framemax lp /\ (if (length bs <? framemax lp)%nat then framing (bs ++ [c]) lp' else passing lp')).
  { intros lp1 ->. rewrite Hl. destruct (Nat.leb_spec (framemax lp) (length bs)) as [Hle|Hlt].
    - rewrite (proj2 (Nat.ltb_ge _ _)) //. eexists. split; [done|]. split; [done|]. by split.
    - rewrite (proj2 (Nat.ltb_lt _ _)) //. eexists. split; [done|]. split; [done|]. by apply framing_put. }
  unfold stuff_char. destruct (ESCAPE_P a c).
  - cbn [loop_chars]. assert (E1 : loop_char ic malloc_ok PPP_ESCAPE lp w = (false, set_escape_flag true lp, w)) by (unfold loop_char; by rewrite He Hf).
    rewrite E1. destruct Ha as [Hn _]. unfold loop_char. rewrite (proj2 (Z.eqb_neq _ _) Hn). cbn [flush_flag set_escape_flag escape_flag negb andb].
    rewrite Hf. assert (E : Z.lxor (Z.lxor c PPP_TRANS) PPP_TRANS = c) by by rewrite Z.lxor_assoc Z.lxor_nilpotent Z.lxor_0_r. rewrite E.
    destruct (Hput (set_escape_flag false (set_escape_flag true lp))) as (lp' & -> & Hm & Hh').
    { destruct lp; cbn in *; by subst. }
    by exists lp'.
  - destruct Ha as (Hn1 & Hn2 & _). cbn [loop_chars]. unfold loop_char.
    rewrite (proj2 (Z.eqb_neq _ _) Hn1) (proj2 (Z.eqb_neq _ _) Hn2) He Hf. cbn [andb negb].
    destruct (Hput lp eq_refl) as (lp' & -> & Hm & Hh'). by exists lp'.
Qed.

Lemma framing_octets a bs cs lp w :
  maps_agree a 0 -> Forall byte_ok cs -> framing bs lp ->
  exists lp', loop_chars ic malloc_ok (stuff a cs) lp w = (false, lp', w) /\ framemax lp' = framemax lp /\
    (if (length (bs ++ cs) <=? framemax lp)%nat then framing (bs ++ cs) lp' else passing lp').
Proof.
  intros Ha Hcs. revert bs lp. induction Hcs as [|c cs Hc Hcs IH]; intros bs lp Hh.
  { exists lp. rewrite app_nil_r. split; [done|]. split; [done|]. rewrite (proj2 (Nat.leb_le _ _)) //. pose proof Hh as [[? _] _ _ Hl _ _]. lia. }
  rewrite stuff_cons loop_chars_app. destruct (framing_octet a bs c lp w Ha Hc Hh) as (lp1 & -> & Hm & Hh1).
  rewrite length_app /=. destruct (Nat.ltb_spec (length bs) (framemax lp)).
  - destruct (IH (bs ++ [c]) lp1 Hh1) as (lp2 & -> & Hm2 & Hh2). exists lp2. split; [done|]. split; [congruence|].
    rewrite -app_assoc Hm !length_app /= in Hh2. by replace (length bs + S (length cs))%nat with (length bs + (1 + length cs))%nat by lia.
  - rewrite (proj2 (Nat.leb_gt _ _)); [lia|]. destruct (stuff_no_flag a 0 cs Ha Hcs) as [_ Hnf]. rewrite passing_chars //. by exists lp1.
Qed.

(** ** Frames *)

(** Between two frames. *)
Abbreviation at_flag := (framing (@nil Z)).

Lemma at_flag_new lp : frame_ok lp -> at_flag (new_frame lp).
Proof. intros Hok. split; [by apply frame_ok_new|done..]. Qed.

Lemma flag_char bs lp w :
  framing bs lp \/ passing lp ->
  exists rv w', loop_char ic malloc_ok PPP_FLAG lp w = (rv, new_frame lp, w') /\ at_flag (new_frame lp) /\
    (passing lp \/ (length bs <= 2)%nat -> rv = false /\ w' = w).
Proof.
  intros Hlp. assert (Hok : frame_ok lp) by (destruct Hlp as [H1|H1]; apply H1). unfold loop_char. change (PPP_FLAG =? PPP_FLAG) with true. cbn iota.
  destruct (if _ : bool then loop_frame ic malloc_ok _ _ w else (false, w)) as [rv w'] eqn:E. exists rv, w'. split; [done|]. split; [by apply at_flag_new|].
  intros Hno. assert (Hf : (negb (escape_flag lp) && negb (flush_flag lp) && (2 <? framelen lp)%nat && (lp_fcs lp =? PPP_GOODFCS)) = false).
  { destruct Hno as [[_ ->]|Hle]; [by rewrite andb_false_r|]. destruct Hlp as [Hh|[_ ->]]; [|by rewrite andb_false_r].
    rewrite (fg_len _ _ Hh) (proj2 (Nat.ltb_ge _ _)) //. by rewrite andb_false_r. }
  rewrite Hf in E. by injection E as <- <-.
Qed.

(** Whether a packet is dialled for, and whether it is kept. *)
Definition wanted (max : nat) (pkt : bytes) : bool := (length pkt + 2 <=? max)%nat && worth_dialling pkt.
Definition keeps (max : nat) (pkt : bytes) : list bytes := if (length pkt + 2 <=? max)%nat then kept pkt else [].

Lemma loop_line_frame a pkt lp w :
  maps_agree a 0 -> Forall byte_ok pkt -> pkt <> [] -> at_flag lp ->
  exists lp', loop_chars ic malloc_ok (line_frame a pkt) lp w = (wanted (framemax lp) pkt, lp', saved (keeps (framemax lp) pkt) w) /\
    at_flag lp' /\ framemax lp' = framemax lp.
Proof.
  intros Ha Hpkt Hne Hlp. unfold line_frame. rewrite loop_chars_app. cbn [loop_chars].
  destruct (flag_char [] lp w) as (rv0 & w0 & E0 & Hlp0 & H0); [by left|]. rewrite E0. destruct H0 as [-> ->]; [right; simpl; lia|].
  change (framemax lp) with (framemax (new_frame lp)). set (lp0 := new_frame lp) in *. clearbody lp0. clear E0 Hlp.
  rewrite loop_chars_app. set (fcs := fcs_bytes _). assert (Hfcs : Forall byte_ok fcs) by apply fcs_bytes_ok.
  destruct (framing_octets a [] (pkt ++ fcs) lp0 w Ha) as (lp1 & -> & Hm & H1); [by apply Forall_app|done|].
  cbn [app loop_chars orb] in H1 |- *. rewrite length_app in H1. change (length fcs) with 2%nat in H1.
  unfold wanted, keeps. destruct (length pkt + 2 <=? framemax lp0)%nat; cbn [andb].
  2:{ destruct (flag_char [] lp1 w) as (rv1 & w1 & E1 & Hlp1 & Hno); [by right|]. rewrite E1. destruct Hno as [-> ->]; [by left|].
      exists (new_frame lp1). by rewrite saved_nil. }
  pose proof H1 as [Hok He Hf Hl Hb Hc].
  assert (Hgood : lp_fcs lp1 = PPP_GOODFCS) by (rewrite Hc pppfcs_app; apply pppfcs_good, pppfcs_within; done).
  unfold loop_char. change (PPP_FLAG =? PPP_FLAG) with true. cbn iota. rewrite He Hf Hgood Hl length_app. change (length fcs) with 2%nat.
  assert (H2 : (2 <? length pkt + 2)%nat = true) by (apply Nat.ltb_lt; destruct pkt; [done|simpl; lia]). rewrite H2. cbn [andb negb Z.eqb].
  change (PPP_GOODFCS =? PPP_GOODFCS) with true. cbn iota.
  replace (Z.of_nat (length pkt + 2) - 2) with (Z.of_nat (length pkt)) by lia.
  rewrite -(take_drop (length (pkt ++ fcs)) (frame lp1)) Hb -app_assoc loop_frame_is orb_false_r.
  exists (new_frame lp1). split; [done|]. split; [by apply at_flag_new|done].
Qed.

Lemma loop_frames a pkts lp w :
  maps_agree a 0 -> Forall (fun pkt => Forall byte_ok pkt /\ pkt <> []) pkts -> at_flag lp ->
  exists lp', loop_chars ic malloc_ok (flat_map (line_frame a) pkts) lp w =
      (existsb (wanted (framemax lp)) pkts, lp', saved (flat_map (keeps (framemax lp)) pkts) w) /\
    at_flag lp' /\ framemax lp' = framemax lp.
Proof.
  intros Ha Hpkts. revert lp w. induction Hpkts as [|pkt pkts [Hb Hne] _ IH]; intros lp w Hlp.
  { exists lp. by rewrite /= saved_nil. }
  cbn [flat_map existsb]. rewrite loop_chars_app. destruct (loop_line_frame a pkt lp w Ha Hb Hne Hlp) as (lp1 & -> & H1 & Hm).
  destruct (IH lp1 (saved (keeps (framemax lp) pkt) w) H1) as (lp2 & -> & H2 & Hm2). exists lp2.
  rewrite saved_saved Hm. split; [done|]. split; [done|congruence].
Qed.

(** However it is read. *)
Lemma loop_reads_chars reads lp w : loop_reads ic malloc_ok reads lp w = loop_chars ic malloc_ok (concat reads) lp w.
Proof.
  revert lp w. induction reads as [|p reads IH]; intros lp w; [done|]. cbn [loop_reads concat]. rewrite loop_chars_app.
  destruct (loop_chars _ _ p lp w) as [[rv lp1] w1]. by rewrite IH.
Qed.

(** C36: dialling on demand loses and reorders nothing.  The frames of any packets,
    as the interface writes them to the loopback, are taken apart again, in
    whatever pieces they are read; the line is dialled if one of the packets is
    worth it; those that are, and fit and find memory, are kept in their order,
    and when IPCP comes up those of IP are sent in that order, behind what was
    kept before, and no others. *)
Theorem demand_keeps_packets a pkts reads lp w :
  maps_agree a 0 -> Forall (fun pkt => Forall byte_ok pkt /\ pkt <> []) pkts -> at_flag lp ->
  concat reads = flat_map (line_frame a) pkts ->
  exists lp' w', get_loop_output ic malloc_ok reads true lp w = Some (existsb (wanted (framemax lp)) pkts, lp', w') /\ at_flag lp' /\
    let queue := pend_q (w_ipcp w) ++ filter (fun pkt => wanted (framemax lp) pkt && malloc_ok pkt = true) pkts in
    pend_q (w_ipcp w') = queue /\
    let w2 := demand_rexmit PPP_IP w' in
    Fsm.sent (w_link w2) = Fsm.sent (w_link w) ++ filter (fun pkt => PPP_PROTOCOL pkt = PPP_IP) queue /\
    pend_q (w_ipcp w2) = filter (fun pkt => PPP_PROTOCOL pkt <> PPP_IP) queue.
Proof.
  intros Ha Hpkts Hlp Hr. destruct (loop_frames a pkts lp w Ha Hpkts Hlp) as (lp' & E & Hlp' & _).
  eexists lp', _. unfold get_loop_output. rewrite loop_reads_chars Hr E. split; [done|]. split; [done|].
  assert (Ek : flat_map (keeps (framemax lp)) pkts = filter (fun pkt => wanted (framemax lp) pkt && malloc_ok pkt = true) pkts).
  { clear. induction pkts as [|pkt pkts IH]; [done|]. cbn [flat_map]. rewrite filter_cons IH. unfold keeps, kept, wanted.
    destruct (_ <=? _)%nat, (worth_dialling pkt), (malloc_ok pkt); cbn; done. }
  rewrite -Ek. by destruct w as [? ? ? ? ? ? [s y]].
Qed.

(** ** Whatever comes from the loopback *)

(** Nothing is stored outside the frame; the queue only grows, and nothing else
    of the daemon changes. *)
Lemma loop_char_safe c lp w :
  frame_ok lp -> let '(rv, lp', w') := loop_char ic malloc_ok c lp w in frame_ok lp' /\ exists pkts, w' = saved pkts w.
Proof.
  intros Hok. pose proof Hok as [Hlen _].
  assert (Hf : forall n rv w', loop_frame ic malloc_ok (frame lp) (Z.of_nat n - 2) w = (rv, w') -> (2 < n <= length (frame lp))%nat ->
    exists pkts, w' = saved pkts w).
  { intros n rv w' E Hn. rewrite -(take_drop (n - 2) (frame lp)) in E.
    assert (El : Z.of_nat n - 2 = Z.of_nat (length (take (n - 2) (frame lp)))) by (rewrite length_take; lia).
    rewrite El loop_frame_is in E. injection E as _ <-. by eexists. }
  assert (H0 : exists pkts, w = saved pkts w) by (exists []; by rewrite saved_nil).
  unfold loop_char. destruct (c =? PPP_FLAG).
  - destruct (negb _ && _ && _ && _) eqn:Eb; [|split; [by apply frame_ok_new|done]].
    destruct (loop_frame _ _ _ _ _) as [rv w'] eqn:E. split; [by apply frame_ok_new|]. eapply (Hf (framelen lp)); [exact E|].
    apply andb_true_iff in Eb as [[_ H2%Nat.ltb_lt]%andb_true_iff _]. lia.
  - destruct (flush_flag lp); [done|]. destruct (negb (escape_flag lp) && _); [done|].
    assert (Hgo : forall c' lp', frame_ok lp' -> let '(rv, lp'', w') := if (framemax lp' <=? framelen lp')%nat
       then (false, set_flush_flag true lp', w) else (false, frame_put c' lp', w) in frame_ok lp'' /\ exists pkts, w' = saved pkts w).
    { intros c' lp' Hok'. destruct (Nat.leb_spec (framemax lp') (framelen lp')); [done|]. split; [by apply frame_ok_put|done]. }
    destruct (escape_flag lp); [apply (Hgo _ (set_escape_flag false lp)); exact Hok|by apply Hgo].
Qed.

Theorem loopback_in_bounds reads lp w :
  frame_ok lp -> let '(rv, lp', w') := loop_reads ic malloc_ok reads lp w in frame_ok lp' /\ exists pkts, w' = saved pkts w.
Proof.
  intros Hok. rewrite loop_reads_chars. generalize (concat reads) as cs. clear reads. intros cs. revert lp w Hok.
  induction cs as [|c cs IH]; intros lp w Hok; [split; [done|]; exists []; by rewrite saved_nil|]. cbn [loop_chars].
  pose proof (loop_char_safe c lp w Hok) as Hc. destruct (loop_char _ _ c lp w) as [[rv lp1] w1]. destruct Hc as [H1 [xs ->]].
  specialize (IH lp1 (saved xs w) H1). destruct (loop_chars _ _ cs lp1 _) as [[rv2 lp2] w2]. destruct IH as [H2 [ys ->]].
  split; [done|]. exists (xs ++ ys). by rewrite saved_saved.
Qed.
End Demand.
