(* ===== verification/PppWitness.v ===== *)
(** * Two units and a line

    Concrete units of the device: a kernel whose clusters have 2048 bytes, two
    ends that have just been opened, packets that are written, sent, received and
    read.  It shows that the hypotheses of the theorems about the device hold in
    runs, and what happens to a unit that is closed while a packet waits. *)

From S2P Require Import Prelude Wire Callout Fsm FsmPackets LcpOptions LcpReqci LcpOptionsSpec LcpReqciSpec LcpAgree Lcp LcpSpec Upap Chap Auth AuthSpec DaemonGuard DaemonWitness.
From S2P Require Import Inet Netif IpcpOptions Ipcp IpcpNet Demand.
From S2P Require Import Fcs PppSoftc PppTty PppIf PppSend PppReceive PppFrames PppPath PppDaemons PppRun PppLive PppConfig DemandSpec.

(** A machine with 8-byte longs; there is always memory. *)
Definition toy_mbufs : mbuf_config := MbufConfig (fun _ => true) 224 168 2048 8.

Abbreviation toy_exec := (exec toy_mbufs true).
Abbreviation toy_run := (run toy_mbufs true).

Definition toy_unit : softc := toy_exec (D_open false) ppp_attach.

(** IP may use the interface. *)
Definition toy_up : softc :=
  on_if (fun i => set_if_flags (Z.lor (if_flags i) IFF_UP) i)
    (toy_run [D_ioctl (PPPIO_DEVICE (PPPIOCSNPMODE PPP_IP NPMODE_PASS)); D_tx] toy_unit).

(** ** The driver, polled *)

Fixpoint drain (fuel : nat) (s : bytes * softc) : bytes * softc :=
  match fuel with
  | O => s
  | S fuel =>
      let w := tx_write (sc_tx s.2) in
      if bool_decide (w = []) then s else drain fuel (s.1 ++ w, pppstart true (Z.of_nat (length w)) s.2)
  end.

Lemma drain_steps fuel s : exists n, nsteps (line_step true) n s (drain fuel s).
Proof.
  revert s. induction fuel as [|fuel IH]; intros [line sc]; [exists 0%nat; constructor|]. cbn [drain fst snd].
  case_bool_decide as E; [exists 0%nat; constructor|]. destruct (IH (line ++ tx_write (sc_tx sc), pppstart true (Z.of_nat (length (tx_write (sc_tx sc)))) sc)) as [n Hn].
  exists (S n). eapply nsteps_l; [|exact Hn].
  pose proof (ls_sent true (length (tx_write (sc_tx sc))) line sc) as H. rewrite take_ge // in H. apply H; [|done].
  destruct (tx_write (sc_tx sc)); [done|simpl; lia].
Qed.

Lemma nothing_to_send line sc : tx_write (sc_tx sc) = [] -> forall s, ~ line_step true (line, sc) s.
Proof. intros E s Hs. inversion Hs as [k line' sc' Hk]; subst. rewrite E in Hk. simpl in Hk. lia. Qed.

Definition frame_of (sc : softc) : bytes * softc := drain 100 ([], ppp_txdaemon sc).

Lemma frame_of_sent sc :
  sc_devp sc = true -> may_begin (sc_tx sc) -> tx_write (sc_tx (frame_of sc).2) = [] -> sent true sc (frame_of sc).1 (frame_of sc).2.
Proof.
  intros Hd Hm. pose proof (drain_steps 100 ([], ppp_txdaemon sc)) as Hn. unfold frame_of.
  generalize dependent (drain 100 ([], ppp_txdaemon sc)). intros [line sc'] [n Hn] Hw.
  split; [exact Hd|]. split; [exact Hm|]. exists n. split; [exact Hn|]. by apply nothing_to_send.
Qed.

(** ** Both ends *)

Record fresh (rc : softc) : Prop := {
  fr_buffers : buffers rc = replicate 64 [fresh_cluster toy_mbufs];
  fr_idle : idle rc;
  fr_mru : sc_mru rc = 1500;
  fr_map : sc_rasyncmap (sc_rx rc) = 0;
  fr_raw : sc_rawq (sc_rx rc) = []
}.

Lemma fresh_unit : fresh toy_unit.
Proof. split; [vm_compute; reflexivity|by split|reflexivity..]. Qed.

Lemma fresh_up : fresh toy_up.
Proof. split; [vm_compute; reflexivity|split; vm_compute; reflexivity|vm_compute; reflexivity..]. Qed.

Lemma fresh_roomy rc : fresh rc -> Forall (roomy (sc_mru rc)) (buffers rc).
Proof.
  intros [-> _ -> _ _]. apply Forall_replicate. exists (fresh_cluster toy_mbufs), []. split; [done|]. split; [done|].
  split; [|by split]. unfold fresh_cluster. cbn [m_store]. rewrite length_replicate. simpl. lia.
Qed.

Lemma fresh_nonempty rc : fresh rc -> buffers rc <> [].
Proof. by intros [-> _ _ _ _]. Qed.

Lemma fresh_maps rc : fresh rc -> maps_agree (sc_asyncmap (sc_tx toy_unit)) (sc_rasyncmap (sc_rx rc)).
Proof. intros [_ _ _ -> _]. apply asyncmap_agrees; [exact open_map_ok|]. intros c _ H. by rewrite Z.bits_0 in H. Qed.

Lemma fresh_fits sc rc :
  fresh rc -> sc_asyncmap (sc_tx sc) = sc_asyncmap (sc_tx toy_unit) -> has_bits (sc_flags sc) SC_COMP_AC = false -> ends_fit sc rc.
Proof.
  intros Hr Ha Hf. split; [rewrite Ha; by apply fresh_maps|by rewrite (fr_mru _ Hr)|by apply fresh_roomy|congruence].
Qed.

(** ** A frame *)

(** An Echo-Request of LCP and a Configure-Request without options. *)
Definition echo : bytes := [255; 3; 0xc0; 0x21; 9; 1; 0; 8; 1; 2; 3; 4].
Definition conf : bytes := [255; 3; 0xc0; 0x21; 1; 2; 0; 4].

Definition byte_okb (c : Z) : bool := (0 <=? c) && (c <? 256).
Lemma all_byte_ok bs : forallb byte_okb bs = true -> Forall byte_ok bs.
Proof.
  rewrite forallb_forall. intros H. apply Forall_forall. intros c Hc. specialize (H c Hc).
  unfold byte_okb in H. unfold byte_ok. lia.
Qed.

Definition sendableb (m : mbuf) : bool :=
  (0 <? m_len m) && (m_len m <? 2 ^ 15) && (m_data m + Z.to_nat (m_len m) <=? length (m_store m))%nat.
Lemma all_sendable ch : forallb sendableb ch = true -> Forall sendable ch.
Proof.
  rewrite forallb_forall. intros H. apply Forall_forall. intros m Hm. specialize (H m Hm).
  unfold sendableb in H. apply andb_true_iff in H as [H%andb_true_iff H3%Nat.leb_le]. split; [lia|exact H3].
Qed.

Abbreviation toy_written := (pppwrite toy_mbufs echo toy_up).2.
Definition toy_packet : chain := default [] (ppp_dequeue toy_written).1.

(** The driver sends what it is handed at once: the whole frame is on the line. *)
Lemma ppp_frame_is_sent_witness :
  (frame_of toy_written).1 = line_frame (sc_asyncmap (sc_tx toy_written)) echo /\
  TX_TRANSMIT (sc_tx (frame_of toy_written).2) = true.
Proof.
  assert (E : (frame_of toy_written).1 = line_frame (sc_asyncmap (sc_tx toy_written)) echo) by (vm_compute; reflexivity).
  split; [exact E|]. destruct (drain_steps 100 ([], ppp_txdaemon toy_written)) as [n Hn].
  refine (proj1 (proj2 (proj2 (proj2 (ppp_frame_is_sent true toy_packet toy_written n (frame_of toy_written).1 (frame_of toy_written).2 _ _ _ _ _))) _)).
  - reflexivity.
  - split; [reflexivity|]. right. split; reflexivity.
  - vm_compute. reflexivity.
  - split; [vm_compute; discriminate|]. apply all_sendable. vm_compute. reflexivity.
  - revert Hn. unfold frame_of. by destruct (drain 100 _).
  - rewrite E. vm_compute. reflexivity.
Defined.

(** ** Two packets *)

Definition toy_two : softc := (pppwrite toy_mbufs conf toy_written).2.

Lemma toy_packets_ok : Forall (packet_ok (sc_mru toy_unit)) (waiting (sc_if toy_two)).
Proof.
  assert (H : exists m1 m2, waiting (sc_if toy_two) = [m1; m2] /\ forallb sendableb m1 = true /\ forallb sendableb m2 = true /\
    chain_bytes m1 = echo /\ chain_bytes m2 = conf /\ (0 <? length m1)%nat && (0 <? length m2)%nat = true /\
    4 <= default 0 (m_len <$> head m1) /\ 4 <= default 0 (m_len <$> head m2)).
  { eexists _, _. split; [vm_compute; reflexivity|]. vm_compute. repeat split; discriminate. }
  destruct H as (m1 & m2 & -> & H1 & H2 & E1 & E2 & Hl & Hl1 & Hl2).
  assert (Hok : forall m pkt, forallb sendableb m = true -> chain_bytes m = pkt -> (0 < length m)%nat -> 4 <= default 0 (m_len <$> head m) ->
    well_formed pkt -> Z.of_nat (length pkt) <= 1504 -> packet_ok (sc_mru toy_unit) m).
  { intros m pkt Hs Eb Hpos H4 Hwf Hlen. split; [by apply all_sendable|]. split; [|by rewrite Eb].
    destruct m as [|x ch]; [simpl in Hpos; lia|]. by exists x, ch. }
  apply andb_true_iff in Hl as [Hp1%Nat.ltb_lt Hp2%Nat.ltb_lt].
  repeat (apply List.Forall_cons; [eapply Hok; [eassumption..| |simpl; lia]; split; [by apply all_byte_ok|by eexists _, _, _]|]). constructor.
Qed.

Definition toy_first : bytes * softc := frame_of toy_two.
Definition toy_second : bytes * softc := frame_of toy_first.2.

Lemma toy_sends : sends true toy_two (toy_first.1 ++ toy_second.1 ++ []) toy_second.2.
Proof.
  apply (sends_frame true toy_two toy_first.1 toy_first.2); [vm_compute; discriminate| |].
  { apply frame_of_sent; [reflexivity| |vm_compute; reflexivity]. split; [reflexivity|]. right. split; reflexivity. }
  apply (sends_frame true toy_first.2 toy_second.1 toy_second.2); [vm_compute; discriminate| |apply sends_none].
  apply frame_of_sent; [vm_compute; reflexivity| |vm_compute; reflexivity]. split; [vm_compute; reflexivity|]. left. vm_compute. reflexivity.
Qed.

Lemma ppp_link_delivers_witness :
  exists line chs, sc_rawq (sc_rx (receive line toy_unit)) = chs /\ Forall2 holds_packet [echo; conf] chs.
Proof.
  destruct (ppp_link_delivers true toy_two (toy_first.1 ++ toy_second.1 ++ []) toy_second.2 toy_unit) as (taken & E & _ & H).
  - exact toy_sends.
  - exact (fr_idle _ fresh_unit).
  - apply fresh_fits; [exact fresh_unit|reflexivity..].
  - exact toy_packets_ok.
  - assert (Ew : waiting (sc_if toy_second.2) = []) by (vm_compute; reflexivity). rewrite Ew app_nil_r in E.
    assert (Eb : map chain_bytes taken = [echo; conf]) by (rewrite -E; vm_compute; reflexivity).
    destruct H as (chs & Hr & Hc & _).
    + rewrite -(length_map chain_bytes) Eb. rewrite (fr_buffers _ fresh_unit) length_replicate. simpl. lia.
    + exists (toy_first.1 ++ toy_second.1 ++ []), chs. rewrite Eb in Hc. exact (conj Hr Hc).
Defined.

(** ** What LCP agrees on *)

Definition toy_request : lcp_options :=
  LcpOptions false false false true true false false true true true false false 1600 0 0xa0000 0x12345678 0 0.

(** Both ends open their devices; one asks, the other acknowledges; both come
    up. *)
Lemma agreed_ends_fit_witness :
  exists r sc1 rc1,
    lcp_reqci (fun _ => 7) toy_request no_options 0 (lcp_addci toy_request) (lcp_cilen toy_request) false = Good r /\
    send_config toy_mbufs (up_xmit_config toy_request (rr_ho r)) toy_unit = Some sc1 /\
    recv_config toy_mbufs (up_recv_config false toy_request toy_request) toy_unit = Some rc1 /\
    has_bits (sc_flags sc1) SC_COMP_AC = true /\ PppSoftc.if_mtu (sc_if sc1) = 1600 /\ ends_fit sc1 rc1.
Proof.
  assert (Hr : exists r, lcp_reqci (fun _ => 7) toy_request no_options 0 (lcp_addci toy_request) (lcp_cilen toy_request) false = Good r /\
    rr_code r = CONFACK) by (eexists; split; vm_compute; reflexivity).
  destruct Hr as (r & Hr & Hack).
  destruct (agreed_ends_fit (fun _ => 7) toy_request no_options false 0 r false toy_request toy_request toy_mbufs toy_mbufs toy_unit toy_unit)
    as (sc1 & rc1 & Hs & Hrc & _ & Hfit).
  - split; cbn; lia.
  - exact Hr.
  - exact Hack.
  - exact open_map_ok.
  - vm_compute. discriminate.
  - exists r, sc1, rc1. split; [exact Hr|]. split; [exact Hs|]. split; [exact Hrc|]. vm_compute in Hr. injection Hr as <-.
    vm_compute in Hs. injection Hs as <-. split; [reflexivity|]. split; [reflexivity|]. apply Hfit.
    pose proof (fr_buffers _ fresh_unit) as ->. apply Forall_replicate. exists (fresh_cluster toy_mbufs), [].
    vm_compute in Hrc. injection Hrc as <-. split; [reflexivity|]. split; [reflexivity|]. split; [|by split].
    cbn [m_store fresh_cluster]. rewrite length_replicate. cbn. lia.
Defined.

(** ** A frame that is damaged *)

Definition echo_frame : bytes := echo ++ fcs_bytes (pppfcs PPP_INITFCS echo).

Definition echo_line : bytes := stuff (sc_asyncmap (sc_tx toy_unit)) echo_frame.

(** Three bits are wrong, in the octets before and behind an escape. *)
Definition damaged : bytes := <[4%nat := Z.lxor 0x21 0x80]> (<[6%nat := Z.lxor 0x29 0x41]> echo_line).

Lemma damaged_framing : keeps_framing (sc_rasyncmap (sc_rx toy_unit)) echo_line damaged.
Proof.
  assert (H : forallb (fun p => negb (frames (sc_rasyncmap (sc_rx toy_unit)) p.1 || frames (sc_rasyncmap (sc_rx toy_unit)) p.2) || (p.2 =? p.1))
                (zip echo_line damaged) = true) by (vm_compute; reflexivity).
  apply Forall2_same_length_lookup_2; [reflexivity|]. intros i c c' Hc Hc' Hf. rewrite forallb_forall in H.
  specialize (H (c, c')). cbn [fst snd] in H. rewrite Hf in H. apply Z.eqb_eq, H, list_elem_of_In, list_elem_of_lookup.
  exists i. by rewrite lookup_zip_with Hc Hc'.
Qed.

Lemma ppp_burst_is_dropped_witness :
  let rc := receive ([PPP_FLAG] ++ damaged ++ [PPP_FLAG]) toy_unit in
  sc_rawq (sc_rx rc) = [] /\ has_bits (sc_flags rc) SC_PKTLOST = true.
Proof.
  refine (proj2 (ppp_burst_is_dropped (sc_asyncmap (sc_tx toy_unit)) echo damaged 0x8201 39 toy_unit _ _ _ _ _ _ _ _ _ _ _)).
  - exact (fr_idle _ fresh_unit).
  - exact (fresh_maps _ fresh_unit).
  - vm_compute. discriminate.
  - exact (fresh_roomy _ fresh_unit).
  - exact (fresh_nonempty _ fresh_unit).
  - by apply all_byte_ok.
  - by apply all_byte_ok.
  - split; reflexivity.
  - discriminate.
  - vm_compute. reflexivity.
  - exact damaged_framing.
Defined.

(** One wrong bit that makes a flag: what is in front of it happens to be a frame
    with its own good check, and is delivered. *)
Definition nested : bytes := echo_frame ++ [0x7f; 1; 2; 3].

Example flag_error_delivers_prefix :
  let line := stuff (sc_asyncmap (sc_tx toy_unit)) (nested ++ fcs_bytes (pppfcs PPP_INITFCS nested)) in
  let i := length echo_line in
  let rc := receive ([PPP_FLAG] ++ <[i := Z.lxor 0x7f 1]> line ++ [PPP_FLAG]) toy_unit in
  line !! i = Some 0x7f /\ map chain_bytes (sc_rawq (sc_rx rc)) = [echo].
Proof. vm_compute. split; reflexivity. Qed.

(** ** From daemon to daemon, from IP to IP *)

Lemma toy_at_ease : at_ease toy_up.
Proof. split; [reflexivity|vm_compute; reflexivity|by split|vm_compute; reflexivity]. Qed.

Lemma toy_written_sent : sent true toy_written (frame_of toy_written).1 (frame_of toy_written).2.
Proof. apply frame_of_sent; [reflexivity| |vm_compute; reflexivity]. split; [reflexivity|]. right. split; reflexivity. Qed.

Lemma toy_crosses : crosses toy_mbufs true echo toy_up (frame_of toy_written).1 toy_unit.
Proof.
  split.
  - exact toy_at_ease.
  - eexists. exact toy_written_sent.
  - exact (fr_idle _ fresh_unit).
  - apply fresh_fits; [exact fresh_unit|reflexivity..].
  - exact (fresh_nonempty _ fresh_unit).
  - exact (fr_raw _ fresh_unit).
  - reflexivity.
Qed.

(** The whole way from a daemon to a daemon: LCP's Echo-Request is answered. *)
Lemma lcp_packet_crosses_witness :
  let '(len, buf, _) := read_packet (ppp_rxdaemon toy_mbufs (receive (frame_of toy_written).1 toy_unit)) in
  let w := get_input some_config toy_auth toy_chap some_magic toy_others buf len toy_authenticating in
  exists reply, Fsm.sent (d_link w) = Fsm.sent (d_link toy_authenticating) ++ [reply] /\ nth 4 reply 0 = ECHOREP.
Proof.
  destruct (lcp_packet_crosses toy_mbufs toy_mbufs ltac:(vm_compute; split; [discriminate|reflexivity])
    ltac:(vm_compute; split; [discriminate|reflexivity]) true some_config toy_auth toy_chap some_magic toy_others
    ECHOREQ 1 [1; 2; 3; 4] 4 (d_link toy_authenticating)) as (pkt & Hpkt & H).
  - vm_compute. reflexivity.
  - vm_compute. split; discriminate.
  - by apply all_byte_ok.
  - vm_compute. split; discriminate.
  - by split.
  - by split.
  - assert (E : pkt = echo).
    { assert (E : [pkt] = [echo]) by (apply (app_inv_head (Fsm.sent (d_link toy_authenticating))); rewrite -Hpkt; vm_compute; reflexivity). by injection E. }
    subst pkt. specialize (H toy_up _ toy_unit toy_authenticating toy_crosses).
    destruct (read_packet _) as [[len buf] sc2]. cbv zeta. rewrite H. eexists. split; vm_compute; reflexivity.
Defined.

(** A packet of 20 octets, 10.0.0.1 to 10.0.0.2. *)
Definition ip_packet : bytes := [0x45; 0; 0; 20; 0; 0; 0; 0; 64; 1; 0; 0; 10; 0; 0; 1; 10; 0; 0; 2].
Definition ip_mbuf : mbuf := Mbuf (ip_packet ++ replicate 148 0) 0 20 M_PKTHDR true.
Abbreviation toy_output := (pppoutput toy_mbufs [ip_mbuf] AF_INET toy_up).2.

Lemma ppp_ip_packet_arrives_witness :
  exists m, netisr (sc_if (ppp_rxdaemon toy_mbufs (receive (frame_of toy_output).1 toy_up))) = [m] /\ chain_bytes m = ip_packet.
Proof.
  apply (ppp_ip_packet_arrives toy_mbufs toy_mbufs true ip_mbuf [] toy_up (frame_of toy_output).1 (frame_of toy_output).2).
  - vm_compute. split; [discriminate|reflexivity].
  - vm_compute. split; [discriminate|reflexivity].
  - reflexivity.
  - exact toy_at_ease.
  - vm_compute. reflexivity.
  - vm_compute. reflexivity.
  - by apply all_sendable.
  - reflexivity.
  - by apply all_byte_ok.
  - vm_compute. discriminate.
  - apply frame_of_sent; [vm_compute; reflexivity| |vm_compute; reflexivity].
    split; [vm_compute; reflexivity|]. right. split; vm_compute; reflexivity.
  - exact (fr_idle _ fresh_up).
  - apply fresh_fits; [exact fresh_up|vm_compute; reflexivity..].
  - exact (fresh_nonempty _ fresh_up).
  - exact (fr_raw _ fresh_up).
Defined.

(** ** Anything at all *)

(** An escape and a flag, a beginning of a frame, and a turn of the task. *)
Definition noise : list dev_event := map D_input [0x7d; 0x7e; 0xff; 3; 0xc1; 0x7e; 0x21; 0x7d; 0x5e] ++ [D_rx; D_close; D_input 1].

Lemma ppp_receiver_is_safe_witness : rx_fault (sc_rx (toy_run (D_open false :: noise) ppp_attach)) = false.
Proof. refine (proj1 (ppp_receiver_is_safe toy_mbufs true _ noise)). vm_compute. split; discriminate. Defined.

(** ** The transmitter works off what waits *)

Definition traffic : list dev_event :=
  [D_write echo; D_ioctl (PPPIOCSASYNCMAP 0); D_tx; D_write conf; D_sent 1; D_tx; D_output [ip_mbuf] AF_OTHER].

Lemma toy_outputtable : outputtable [ip_mbuf].
Proof. exists ip_mbuf, []. split; [done|]. split; [split; cbn; lia|]. split; [done|]. split; [by constructor|by left]. Qed.

Lemma ppp_transmitter_drains_witness :
  let sc := toy_run traffic (toy_exec (D_open false) ppp_attach) in
  length (waiting (sc_if sc)) = 1%nat /\ sn (tx_step toy_mbufs true) sc.
Proof.
  split; [vm_compute; reflexivity|]. refine (proj1 (ppp_transmitter_drains toy_mbufs true _ _ _ traffic _)).
  - vm_compute. split; [discriminate|reflexivity].
  - vm_compute. split; [discriminate|reflexivity].
  - vm_compute. split; [discriminate|reflexivity].
  - unfold traffic. cbn [admissible allowed ioctl_allowed]. split; [simpl; lia|]. split; [vm_compute; reflexivity|]. split; [done|].
    split; [simpl; lia|]. split; [done|]. split; [done|]. split; [exact toy_outputtable|done].
Defined.

(** ** A unit that is closed while a packet waits

    [pppdealloc] takes the interface down, which flushes its send queue, so the
    task that was told of the packet finds nothing.  When the unit is opened
    again it sends what it is given then, and nothing else. *)

Definition reopened : softc := toy_run [D_write echo; D_close; D_tx; D_open false; D_write conf; D_tx] toy_unit.

Example ppp_sends_after_reopen :
  waiting (sc_if (toy_run [D_write echo] toy_unit)) <> [] /\
  waiting (sc_if (toy_run [D_write echo; D_close] toy_unit)) = [] /\
  sc_devp reopened = true /\
  tx_write (sc_tx reopened) = tx_write (sc_tx (toy_run [D_close; D_open false; D_write conf; D_tx] toy_unit)) /\
  tx_write (sc_tx reopened) <> [].
Proof. vm_compute. split_and!; [discriminate|reflexivity|reflexivity|reflexivity|discriminate]. Qed.

(** ** Dialling on demand *)

Definition toy_loopback : loopback := Loopback (replicate 1506 0) 0 1506 false false PPP_INITFCS false.

(** A packet of TCP that only ends a connection is not worth dialling for. *)
Definition fin_packet : bytes :=
  [0x45; 0; 0; 40; 0; 0; 0; 0; 64; 6; 0; 0; 10; 0; 0; 1; 10; 0; 0; 2] ++ [0; 80; 0; 81; 0; 0; 0; 0; 0; 0; 0; 0; 0x50; 1; 0; 0; 0; 0; 0; 0].
Definition dialled : list bytes := [ip_frame fin_packet; ip_frame ip_packet; [255; 3; 0; 0xfd; 1]; conf].

(** Seven characters at a time. *)
Fixpoint chunks (fuel : nat) (bs : bytes) : list bytes :=
  match fuel with
  | O => [bs]
  | S fuel => take 7 bs :: chunks fuel (drop 7 bs)
  end.
Lemma concat_chunks fuel bs : concat (chunks fuel bs) = bs.
Proof. revert bs. induction fuel as [|fuel IH]; intros bs; cbn [chunks concat]; [by rewrite app_nil_r|]. by rewrite IH take_drop. Qed.

Definition loop_chunks : list bytes := chunks 20 (flat_map (line_frame (sc_asyncmap (sc_tx toy_unit))) dialled).

Lemma demand_keeps_packets_witness :
  exists lp' w', get_loop_output toy_ip (fun _ => true) loop_chunks true toy_loopback toy_start = Some (true, lp', w') /\
    pend_q (w_ipcp w') = [ip_frame ip_packet; [255; 3; 0; 0xfd; 1]] /\
    Fsm.sent (w_link (demand_rexmit PPP_IP w')) = Fsm.sent (w_link toy_start) ++ [ip_frame ip_packet].
Proof.
  destruct (demand_keeps_packets toy_ip (fun _ => true) (sc_asyncmap (sc_tx toy_unit)) dialled loop_chunks toy_loopback toy_start)
    as (lp' & w' & E & _ & Hq & Hs & _).
  - apply asyncmap_agrees; [exact open_map_ok|]. intros c _ H. by rewrite Z.bits_0 in H.
  - repeat (apply List.Forall_cons; [split; [by apply all_byte_ok|discriminate]|]). constructor.
  - split; try reflexivity. split; [cbn; lia|reflexivity].
  - apply concat_chunks.
  - exists lp', w'. split; [rewrite E; vm_compute; reflexivity|]. rewrite Hs Hq. split; vm_compute; reflexivity.
Defined.
